(* ===== verification/_CoqProject ===== *)
-Q . S2P
Prelude.v
CLib.v
Endian.v
Crc32.v
Trx.v
HttpPages.v
RingBuffer.v
HttpInput.v
Image.v
PackImage.v
Upgrade.v
Firmware.v
TpLinkBoards.v
Mktplinkfw.v
DlinkDsr.v
UbntImage.v
Cdevd.v
ConfStrbuf.v
ConfRegex.v
CFormat.v
ConfNode.v
ConfXml.v
ConfMain.v
ConfDump.v
ConfParsers.v
ConfNodeList.v
JsonConf.v
JsonEdit.v
JsonHeap.v
JsonMain.v
Ssi.v
SsiPage.v
SsiSpec.v
SsiTotal.v
Hex2bin.v
Fdt.v
UbootCrc.v
UImage.v
UImageSpec.v
KwbImage.v
ImxImage.v
Mkimage.v
DnsTypes.v
DnsMappings.v
DnsCodec.v
DnsTotal.v
DnsEncode.v
DnsFormat.v
DnsDecode.v
DnsRecords.v
DnsMessage.v
DnsQuery.v
DnsUnsafe.v
Interact.v
Autossh.v
AutosshArgs.v
AutosshRun.v
AutosshConn.v
Hash.v
Sha1.v
Md5.v
FdtRw.v
FdtTree.v
FdtEdit.v
FdtView.v
Fit.v
FitSpec.v
