(* ===== verification/Prelude.v ===== *)
(** * ZRouter: verification of the C programs of the firmware build and the router

    ZRouter builds FreeBSD firmware for small routers.  Most of the repository is
    imported software and makefiles; this library models the C programs that are
    ZRouter's own, or that it changes, and proves what makes them correct.  Paths below
    are relative to src/.

    ** The programs and how they work together

    On the build host a kernel and a root file system become one image in the format the
    router's boot loader accepts: tools/trx and tools/asustrx (Broadcom TRX),
    tools/packimage (D-Link DIR-320 style images with an MD5 digest),
    tools/make_dlink_dsr_image, contrib/mktplinkfw (TP-Link) and contrib/ubnt-mkfwimage
    (Ubiquiti); share/mk/converters/uboot.mk wraps kernels with contrib/uboot_mkimage,
    U-Boot's tool with a padded header (-p) added for Foxconn boards, and
    target/usr.bin/hex2bin turns hexadecimal digits into bytes. On the router
    target/sbin/upgrade takes such an image, from a file or from a browser through its own
    small HTTP front end, checks its digest and writes it to flash. target/sbin/cdevd runs
    handlers for device events; target/sbin/conf keeps the configuration as an XML tree
    and answers commands; target/usr.sbin/shttpd expands the server-side includes of the
    web pages, and target/bin/conf edits configurations kept as JSON. Names are looked up
    with contrib/spcdns, which target/sbin/dig and the Lua module luadns are built on: it
    encodes DNS queries and decodes the responses.  contrib/autossh keeps an ssh tunnel
    alive: it runs ssh, tests the connection through it and starts it again.

    ** The files of this library

    - [Prelude]: outcomes of C code ([outcome]: value, exit status or undefined behaviour;
      [run]: the same for loops on fuel), machine integers, buffers as byte lists with
      checked reads and writes, byte encodings.  [CLib]: the functions of libc the
      programs call, on strings as byte lists.  [Endian]: byte order.  [CFormat]: the
      numbers [printf] prints.
    - [Crc32], [Trx]: tools/trx/trx.c and tools/asustrx/asustrx.c.  One Section over the
      byte-order macros the two programs differ in, with the class [LE32] that states
      what the macros promise and an instance for each program.
    - [Image], [PackImage]: tools/packimage; the header layout of image.h and [check_md5].
    - [HttpPages], [RingBuffer], [HttpInput]: target/sbin/upgrade/http_input.c.
      [Upgrade]: target/sbin/upgrade/upgrade.c.  [Firmware] composes packimage with
      upgrade.
    - [TpLinkBoards], [Mktplinkfw]: contrib/mktplinkfw.  [DlinkDsr]:
      tools/make_dlink_dsr_image.  [UbntImage]: contrib/ubnt-mkfwimage.
    - [Cdevd]: target/sbin/cdevd/cdevd.c.
    - [ConfStrbuf], [ConfRegex], [ConfNode], [ConfNodeList], [ConfParsers], [ConfXml],
      [ConfMain]: the files conf_strbuf.c (the second for its [regreplace], which nothing
      calls), conf_node.c, conf_nodelist.c, conf_parsers.c with conf_conf.c,
      conf_xml.c and conf_main.c of target/sbin/conf; [ConfDump] holds the theorems
      about the commands.
    - [Ssi]: target/usr.sbin/shttpd/io_ssi_zrouter.c; [SsiPage] relates the reader to
      what it has buffered, [SsiSpec] gives pages their meaning and [SsiTotal] bounds
      the work.
    - [JsonConf]: target/bin/conf/conf.c, the editor of JSON configurations, over the
      class [JsonC] of what it calls of json-c.  [JsonEdit] relates heaps to documents
      under the laws [JsonCLaws], [JsonHeap] is an instance of both classes, [JsonMain]
      has the theorems about command lines.
    - [Hex2bin]: target/usr.bin/hex2bin.
    - [UbootCrc], [UImage], [KwbImage], [ImxImage], [Mkimage]: contrib/uboot_mkimage, the
      files lib/crc32.c, include/image.h with common/image.c and tools/default_image.c,
      tools/kwbimage.c, tools/imximage.c and tools/mkimage.c.  The registry of formats is
      a list of records of functions, as in the source.  [UImageSpec] describes images as
      lists of fields.
    - [Hash], [Sha1], [Md5]: lib/sha1.c and lib/md5.c of uboot_mkimage, and what the two
      share: buffers that absorb a message block by block.
    - [Fdt], [FdtRw]: lib/libfdt of uboot_mkimage, the files fdt.c, fdt_ro.c, fdt_wip.c,
      fdt_strerror.c and fdt_rw.c, on a tree in memory.  [FdtTree] says what trees are
      ([tree], [flat]) and that reading finds them, [FdtEdit] that changing keeps them,
      [FdtView] states both for trees as their user sees them ([view]).
    - [Fit]: the FIT images of common/image.c and tools/fit_image.c; [FitSpec]: what
      their hashes are.  [fit_handler] is what [Mkimage] takes as a parameter.
    - [DnsTypes], [DnsMappings], [DnsCodec]: contrib/spcdns/src, the files dns.h, mappings.c
      and codec.c, as they are compiled, without assertions.  The decoder works on a
      packet and a block of memory; a step fails with a code, does something undefined or
      goes on with the context ([dres]).  [DnsFormat] says what messages are, with names
      through compression pointers; [DnsTotal], [DnsEncode], [DnsDecode], [DnsRecords],
      [DnsMessage] and [DnsQuery] hold the theorems, [DnsUnsafe] those about its errors.

    - [Interact]: programs as interaction trees over events, their runs against any
      answers.  [Autossh]: contrib/autossh/autossh.c, whose events are its system calls;
      signals are asked for where they can come in.  [AutosshArgs], [AutosshRun] and
      [AutosshConn] hold the theorems on the arguments, the supervision of ssh and the
      connection test.

    Every program is translated function by function, with the source's names, guards and
    early returns.  Its state is a Record (options, the buffer, the parser, the tree), a
    heap where the code shares pointers (conf: cells at addresses, [None] once freed),
    or flat addresses where it computes with them (the string buffer of conf).  C's
    [main] is a function from the command line and an environment - files, what [malloc]
    and the devices answer - to an outcome with the bytes written.

    ** What the theorems show

    - Images: what each builder writes is well formed under the format's own check and
      holds its inputs whole at the announced places ([trx_main_image],
      [trx_main_content], [packimage_layout], [packimage_verifies],
      [tplink_build_inspect], [dsr_image_checked], [ubnt_image_layout]); the table-driven
      CRC is the bitwise one ([crc32buf_reference]); trx and asustrx agree on every host
      ([trx_asustrx_agree]); no access leaves the buffer ([trx_main_safe]).
    - Upgrade: an upload that arrives in one piece is stored exactly, or, below 256
      bytes, with what follows it ([receive_stores_firmware], on the ring buffer's
      [ring_upload_stores] and the writer's FIFO); [http_input] alone would want
      credentials ([http_input_authenticated], [http_input_wrong_key]), but the utility
      erases them ([upgrade_ignores_credentials]); with a positive block size the machine
      reboots only into a complete image ([upgrade_reboots_installed],
      [upgrade_http_installed]); images of packimage are installed
      ([packed_image_upgrades], the refinement that joins both programs).
    - cdevd: configurations round-trip through the parser and events reach exactly the
      matching handlers.
    - conf: loading XML refines an abstract loader on trees ([config_overlay]), printing
      gives the document back ([xml_defaults_print], [dump_xml_prints]), every element is
      found by its path ([conf_lookup]), values are canonical ([parseAsType_idempotent]),
      the string buffer appends and replaces as its callers expect under the conditions
      stated ([strbuf_appends], [strReplace_gsub]); [regreplace] replaces matches from the
      left when the template has no references ([regreplace_replaces]).
    - SSI: a page is what its meaning says for read buffers of any sizes from 512 bytes
      ([ssi_page_any_buffers]), with queries in one read ([ssi_page_one_read]); every
      read ends ([read_ssi_ends]); open files are closed
      ([close_ssi_closes_open_files]).
    - JSON editor: values below the top level are set, read back and deleted, nothing
      else changes ([conf_set_get], [conf_delete]); a search prints every match
      ([conf_search]); what the program does not do ([conf_never_creates],
      [conf_top_level]).
    - uboot_mkimage: what it writes it lists, on any host, unless its header passes
      for a Kirkwood one ([mkimage_listed]); components of multi-file images are found again ([mkimage_multi_components]); Kirkwood and i.MX
      headers pass their checks whatever the configuration file says
      ([kwb_image_verifies], [imx_image_verifies]); the word-wise CRC-32 is the bytewise
      one ([uboot_crc32_reference]); the command line leaves well-typed parameters or is
      refused ([mk_args_typed]).  hex2bin writes the bytes of its digits
      ([hex2bin_bytes]).
    - Digests: SHA-1 and MD5 fed in pieces give the digest of the standard of the whole
      ([sha1_chunks], [md5_chunks]).
    - Device trees: paths and properties are found as the tree has them ([fdt_lookup]),
      [fdt_setprop] sets a property and nothing else or reports that there is no room
      ([fdt_setprop_getprop]); a broken tree can keep the library in a loop
      ([looping_never_ends]).
    - FIT images: hashes are put in everywhere or the error is reported
      ([fit_set_hashes_check]), they are accepted exactly when they are right
      ([fit_check_exact]), and what -f leaves is accepted ([fit_handle_file_checks],
      [mkimage_makes_fit]).
    - autossh: there is never more than one child, restarts follow the options, the
      last child's end and the signals that end its wait, and no child is left behind ([autossh_supervises]); the
      connection test believes only its own message ([conn_test_echo]) and ends
      ([conn_test_ends]); ssh gets the arguments in order, without -f and -M
      ([autossh_arguments]).
    - DNS: a query, not for the root, is written as the format has it, or there is no room
      ([dns_encode_writes]); a packet that is a message is decoded into what it says
      ([dns_decode_message]), a query into itself ([dns_query_roundtrip]); no packet keeps
      the decoder in a loop ([dns_decode_ends]); numbers and their names correspond
      ([dns_names_correspond]).  The decoder leaves its buffers all the same
      ([dns_decode_header_only], [read_domain_overruns], [align_memory_misplaces]).
    - Bounds and errors: theorems that exhibit inputs on which the code leaves a buffer,
      loses data or ignores its own check are kept beside the ones above; their comments
      say what goes wrong.

    ** Parameters and hypotheses

    Code that is not in the repository is a parameter: MD5 (any function with 16-byte
    digests), zlib's CRC-32, Expat (a state and the events a piece of input causes, with
    the documented laws as hypotheses), the regular expressions of libc, [realloc]'s
    choice of addresses, json-c (the class [JsonC]), shttpd's string functions, the
    floating-point numbers of GPOS records (the class [Floats]), the sizes the compiler
    gives to structures ([abi]), what it puts behind [i] in the frame of packimage's main
    ([pk_behind_i]), the name the C library gives autossh, what dtc writes, autossh's system calls (any legal
    answer), the stack where the digests' buffers come to lie, files, devices and child
    processes. A theorem with such a hypothesis has a witness that instantiates the parameter.

    ** Fuel and bounds

    Loops that are not structural take fuel and answer [NoFuel] without enough. The
    theorems either give enough fuel explicitly ([strReplace] one unit more than there are
    occurrences, [read_ssi] the [cost] of the files, tree walks the number of cells, uploads
    the length of the input, names in a DNS packet 256 turns for each byte, a device tree the
    bytes of its memory) or state that
    some amount is enough and any more is as good.
    A file that is mapped is followed by zeros to the end of its page of 4096 bytes
    ([Mkimage.mapped]); accesses behind that, and stores behind the end of the file, count
    as undefined. Integers keep their width where it matters: [u32], [u64], [s32] write
    the wrap-around out; lengths are bounded by hypotheses that say which input is meant.

    ** Not modelled

    Diagnostics ([printf] to the log or console) everywhere; failure of [malloc] in
    conf, which the code does not survive; [getopt] itself (options come parsed, in order); what follows [exit(0)] in
    conf's [main]; the debug output of the JSON editor.  The imported programs
    (opensips, lua, dhcp, config(8), lzma, ProgramStore), the
    audio player target/usr.bin/ahplay, which only moves bytes between devices, and the
    makefiles are left out; so are target/usr.bin/sin, a tone generator on an audio
    device, and of uboot_mkimage the format of printed reports, which are records of the
    values here, and what is compiled for U-Boot only.  Of autossh the log, the text of
    usage and failure of [malloc] are left out.  Of spcdns the socket code
    (netsimple.c) and the Lua binding (luadns.c) are calls to libraries; the structures
    the decoder allocates are records, only their room in the block is kept. *)
From Stdlib Require Export ZArith Lia.
From stdpp Require Export base numbers list strings.

#[global] Open Scope Z_scope.

(** * Outcomes of a C computation

    [Ok a]: the code goes on with value [a].  [Exit c]: the program stops with
    exit status [c].  [UB]: the code performs an access outside the object it
    addresses (or another operation C leaves undefined), so nothing is known
    about what it does from there. *)

Inductive outcome (A : Type) : Type :=
| Ok (a : A)
| Exit (code : Z)
| UB.
Arguments Ok {A} a.
Arguments Exit {A} code.
Arguments UB {A}.

#[global] Instance outcome_ret : MRet outcome := fun A a => Ok a.
#[global] Instance outcome_bind : MBind outcome := fun A B f m =>
  match m with Ok a => f a | Exit c => Exit c | UB => UB end.
#[global] Instance outcome_fmap : FMap outcome := fun A B f m =>
  match m with Ok a => Ok (f a) | Exit c => Exit c | UB => UB end.

Lemma bind_Ok {A B} (m : outcome A) (f : A -> outcome B) (b : B) :
  (m ≫= f) = Ok b -> exists a, m = Ok a /\ f a = Ok b.
Proof. destruct m as [a| |]; cbn; intros H; eauto; discriminate. Qed.

Lemma Ok_inj {A} (a b : A) : Ok a = Ok b -> a = b.
Proof. by intros [= ->]. Qed.

(** [inv_ok H] turns a chain of binds known to succeed into the equations of
    its steps. *)
Ltac inv_ok H :=
  match type of H with
  | (_ ≫= _) = Ok _ =>
      let a := fresh "a" in let Ha := fresh "Ha" in
      apply bind_Ok in H; destruct H as (a & Ha & H); cbn beta in H
  | (if ?b then _ else _) = Ok _ =>
      let E := fresh "E" in destruct b eqn:E; try discriminate H
  | (let '(_, _) := ?x in _) = Ok _ =>
      let E := fresh "E" in destruct x eqn:E
  | match ?x with _ => _ end = Ok _ =>
      let E := fresh "E" in destruct x eqn:E; try discriminate H
  | Ok _ = Ok _ => injection H; clear H; intros; subst
  end.
Ltac inv_oks H := repeat inv_ok H.
(** Reduce binds of known outcomes, and nothing else. *)
Ltac bsimpl := cbn [mbind outcome_bind mret outcome_ret fmap outcome_fmap].
Tactic Notation "bsimpl" "in" hyp(H) :=
  cbn [mbind outcome_bind mret outcome_ret fmap outcome_fmap] in H.

(** * Results of code with unbounded loops

    A loop runs on fuel: [NoFuel] says it was not enough, which is no result of
    the code.  [Undef] is undefined behaviour. *)

Inductive run (A : Type) : Type :=
| Ret (a : A)
| NoFuel
| Undef.
Arguments Ret {A} a.
Arguments NoFuel {A}.
Arguments Undef {A}.

#[global] Instance run_bind : MBind run := fun A B f m =>
  match m with Ret a => f a | NoFuel => NoFuel | Undef => Undef end.

Lemma bind_Ret {A B} (m : run A) (f : A -> run B) (b : B) :
  (m ≫= f) = Ret b -> exists a, m = Ret a /\ f a = Ret b.
Proof. destruct m as [a| |]; cbn; intros H; eauto; discriminate. Qed.
(** Reduce binds of known runs. *)
Ltac rsimpl := cbn [mbind run_bind].

(** Linear arithmetic with division and remainder by constants. *)
Ltac dlia := Z.div_mod_to_equations; lia.

(** * Machine integers *)

Definition u8 (z : Z) : Z := z mod 2 ^ 8.
Definition u16 (z : Z) : Z := z mod 2 ^ 16.
Definition u32 (z : Z) : Z := z mod 2 ^ 32.
Definition u64 (z : Z) : Z := z mod 2 ^ 64.
(** A value converted to a 32-bit [int]. *)
Definition s32 (z : Z) : Z := (z + 2 ^ 31) mod 2 ^ 32 - 2 ^ 31.
(** The value of a [char] where [char] is signed. *)
Definition schar (z : Z) : Z := (z + 128) mod 256 - 128.

Lemma u32_range z : 0 <= u32 z < 2 ^ 32.
Proof. apply Z.mod_pos_bound. lia. Qed.
Lemma u64_range z : 0 <= u64 z < 2 ^ 64.
Proof. apply Z.mod_pos_bound. lia. Qed.
Lemma u32_small z : 0 <= z < 2 ^ 32 -> u32 z = z.
Proof. apply Z.mod_small. Qed.
Lemma u64_small z : 0 <= z < 2 ^ 64 -> u64 z = z.
Proof. apply Z.mod_small. Qed.
Lemma s32_small z : - 2 ^ 31 <= z < 2 ^ 31 -> s32 z = z.
Proof. intros H. unfold s32. rewrite Z.mod_small; lia. Qed.

Definition is_byte (b : Z) : Prop := 0 <= b < 256.
#[global] Instance is_byte_dec b : Decision (is_byte b).
Proof. unfold is_byte. apply _. Defined.

(** * Buffers: lists indexed by [Z] *)

Definition zlen {A} (l : list A) : Z := Z.of_nat (length l).
Definition ztake {A} (n : Z) (l : list A) : list A := take (Z.to_nat n) l.
Definition zdrop {A} (n : Z) (l : list A) : list A := drop (Z.to_nat n) l.
Definition zrep (n : Z) (b : Z) : list Z := replicate (Z.to_nat n) b.
Definition znth (l : list Z) (i : Z) : Z := nth (Z.to_nat i) l 0.
(** [slice o n l]: the [n] bytes of [l] from offset [o]. *)
Definition slice {A} (o n : Z) (l : list A) : list A := ztake n (zdrop o l).
(** [splice o d l]: [l] with the bytes from offset [o] replaced by [d]. *)
Definition splice {A} (o : Z) (d l : list A) : list A :=
  ztake o l ++ d ++ zdrop (o + zlen d) l.
(** A checked [memcpy (l + o, d, length d)]. *)
Definition bwrite (o : Z) (d l : list Z) : outcome (list Z) :=
  if (0 <=? o) && (o + zlen d <=? zlen l) then Ok (splice o d l) else UB.

(** A checked read of [n] bytes from offset [o]. *)
Definition bread (o n : Z) (l : list Z) : outcome (list Z) :=
  if (0 <=? o) && (0 <=? n) && (o + n <=? zlen l) then Ok (slice o n l) else UB.

Create HintDb zr discriminated.
Create Rewrite HintDb zlen.
#[export] Hint Unfold zlen ztake zdrop slice splice : zr.

Lemma zlen_nonneg {A} (l : list A) : 0 <= zlen l.
Proof. unfold zlen. lia. Qed.
Lemma zlen_0_nil {A} (l : list A) : zlen l = 0 -> l = [].
Proof. by destruct l. Qed.
Lemma zlen_nil {A} : zlen (@nil A) = 0.
Proof. reflexivity. Qed.
Lemma zlen_cons {A} (a : A) l : zlen (a :: l) = 1 + zlen l.
Proof. unfold zlen. cbn. lia. Qed.
Lemma zlen_app {A} (l1 l2 : list A) : zlen (l1 ++ l2) = zlen l1 + zlen l2.
Proof. unfold zlen. rewrite length_app. lia. Qed.
Lemma zlen_rep n b : zlen (zrep n b) = Z.max 0 n.
Proof. unfold zlen, zrep. rewrite length_replicate. lia. Qed.
Lemma zlen_take {A} n (l : list A) : zlen (ztake n l) = Z.max 0 (Z.min n (zlen l)).
Proof. unfold zlen, ztake. rewrite length_take. lia. Qed.
Lemma zlen_drop {A} n (l : list A) : zlen (zdrop n l) = zlen l - Z.max 0 (Z.min n (zlen l)).
Proof. unfold zlen, zdrop. rewrite length_drop. lia. Qed.
#[export] Hint Rewrite @zlen_nil @zlen_cons @zlen_app @zlen_rep @zlen_take @zlen_drop : zlen.
(** Length goals: rewrite with the length lemmas, then linear arithmetic. *)
Ltac zlen := autorewrite with zlen in *; try lia.

Lemma zlen_splice {A} o (d l : list A) :
  0 <= o -> o + zlen d <= zlen l -> zlen (splice o d l) = zlen l.
Proof. intros. unfold splice. pose proof (zlen_nonneg d). zlen. Qed.

Lemma bwrite_Ok o d l l' :
  bwrite o d l = Ok l' -> l' = splice o d l /\ 0 <= o /\ o + zlen d <= zlen l.
Proof.
  unfold bwrite. destruct (_ && _) eqn:E; [|done]. intros [= <-].
  apply andb_prop in E as [?%Z.leb_le ?%Z.leb_le]. done.
Qed.
Lemma bwrite_in o d l :
  0 <= o -> o + zlen d <= zlen l -> bwrite o d l = Ok (splice o d l).
Proof.
  intros. unfold bwrite.
  rewrite (proj2 (Z.leb_le 0 o)), (proj2 (Z.leb_le _ (zlen l))) by done. done.
Qed.
Lemma bwrite_out o d l : zlen l < o + zlen d -> bwrite o d l = UB.
Proof.
  intros. unfold bwrite. rewrite (proj2 (Z.leb_gt (o + zlen d) (zlen l))) by lia.
  by rewrite andb_false_r.
Qed.

Lemma bread_Ok o n l d :
  bread o n l = Ok d -> d = slice o n l /\ 0 <= o /\ 0 <= n /\ o + n <= zlen l.
Proof.
  unfold bread. destruct (_ && _) eqn:E; [|done]. intros [= <-].
  apply andb_prop in E as [E ?%Z.leb_le]. apply andb_prop in E as [?%Z.leb_le ?%Z.leb_le]. done.
Qed.
Lemma bread_in o n l : 0 <= o -> 0 <= n -> o + n <= zlen l -> bread o n l = Ok (slice o n l).
Proof.
  intros. unfold bread.
  by rewrite (proj2 (Z.leb_le 0 o)), (proj2 (Z.leb_le 0 n)), (proj2 (Z.leb_le _ (zlen l))).
Qed.

(** Reading back what a write put there, or what it left alone. *)
Lemma slice_splice_eq {A} o n (d l : list A) :
  0 <= o -> o + zlen d <= zlen l -> n = zlen d -> slice o n (splice o d l) = d.
Proof.
  intros Ho Hd ->. unfold slice, splice, ztake, zdrop, zlen in *.
  rewrite drop_app_length' by (rewrite length_take; lia).
  apply take_app_length'. lia.
Qed.
Lemma slice_splice_before {A} o n p (d l : list A) :
  0 <= o -> o + n <= p -> p + zlen d <= zlen l ->
  slice o n (splice p d l) = slice o n l.
Proof.
  intros. unfold slice, splice, ztake, zdrop, zlen in *.
  destruct (decide (0 <= n)); [|by replace (Z.to_nat n) with 0%nat by lia].
  rewrite <- (take_drop (Z.to_nat p) l) at 3.
  rewrite !drop_app_le by (rewrite length_take; lia).
  rewrite !take_app_le by (rewrite length_drop, length_take; lia).
  done.
Qed.
Lemma slice_splice_after {A} o n p (d l : list A) :
  0 <= p -> p + zlen d <= o -> p + zlen d <= zlen l ->
  slice o n (splice p d l) = slice o n l.
Proof.
  intros. unfold slice, splice, ztake, zdrop, zlen in *. f_equal.
  rewrite app_assoc, drop_app_ge by (rewrite length_app, length_take; lia).
  rewrite drop_drop. f_equal. rewrite length_app, length_take. lia.
Qed.

Lemma slice_splice_in {A} o n p (d l : list A) :
  0 <= p <= o -> 0 <= n -> o + n <= p + zlen d -> p + zlen d <= zlen l ->
  slice o n (splice p d l) = slice (o - p) n d.
Proof.
  intros. unfold slice, splice, ztake, zdrop, zlen in *.
  rewrite drop_app_ge by (rewrite length_take; lia).
  rewrite drop_app_le by (rewrite length_take; lia).
  rewrite take_app_le by (rewrite length_drop, length_take; lia).
  do 2 f_equal. rewrite length_take. lia.
Qed.
Lemma slice_splice_ne {A} o n p (d l : list A) :
  0 <= o -> 0 <= p -> p + zlen d <= zlen l -> o + n <= p \/ p + zlen d <= o ->
  slice o n (splice p d l) = slice o n l.
Proof. intros ??? [?|?]; [by apply slice_splice_before | by apply slice_splice_after]. Qed.

Lemma slice_rep o n m b : 0 <= o -> 0 <= n -> o + n <= m -> slice o n (zrep m b) = zrep n b.
Proof.
  intros. unfold slice, ztake, zdrop, zrep. rewrite drop_replicate, take_replicate.
  f_equal. lia.
Qed.
Lemma slice_ztake {A} o n m (l : list A) :
  0 <= o -> 0 <= n -> o + n <= m -> slice o n (ztake m l) = slice o n l.
Proof.
  intros. unfold slice, ztake, zdrop. rewrite skipn_firstn_comm.
  rewrite take_take. f_equal. lia.
Qed.
Lemma slice_slice {A} o n p m (l : list A) :
  0 <= o -> 0 <= n -> 0 <= p -> o + n <= m -> slice o n (slice p m l) = slice (p + o) n l.
Proof.
  intros. unfold slice at 2. rewrite slice_ztake by done.
  unfold slice, ztake, zdrop. rewrite drop_drop. do 2 f_equal. lia.
Qed.

Lemma zdrop_all {A} n (l : list A) : zlen l <= n -> zdrop n l = [].
Proof. intros. unfold zdrop, zlen in *. apply drop_ge. lia. Qed.
Lemma ztake_all {A} n (l : list A) : zlen l <= n -> ztake n l = l.
Proof. intros. unfold ztake, zlen in *. apply take_ge. lia. Qed.
Lemma slice_to_end {A} o n (l : list A) :
  0 <= o <= zlen l -> n = zlen l - o -> slice o n l = zdrop o l.
Proof. intros ? ->. apply ztake_all. rewrite zlen_drop. lia. Qed.
Lemma ztake_drop {A} n (l : list A) : ztake n l ++ zdrop n l = l.
Proof. apply take_drop. Qed.
Lemma zlen_slice {A} o n (l : list A) :
  0 <= o -> 0 <= n -> o + n <= zlen l -> zlen (slice o n l) = n.
Proof. intros. unfold slice. zlen. Qed.
Lemma slice_head (l : list Z) p n : 0 <= p < zlen l -> 0 < n -> slice p n l = znth l p :: slice (p + 1) (n - 1) l.
Proof.
  intros Hp Hn. unfold slice, ztake, zdrop, znth, zlen in *.
  replace (Z.to_nat (p + 1)) with (S (Z.to_nat p)) by lia.
  replace (Z.to_nat n) with (S (Z.to_nat (n - 1))) by lia.
  destruct (lookup_lt_is_Some_2 l (Z.to_nat p)) as [x Hx]; [lia|].
  rewrite (drop_S _ _ _ Hx). cbn [take]. by rewrite nth_lookup, Hx.
Qed.
Lemma splice_nil {A} o (l : list A) : splice o [] l = l.
Proof. unfold splice. rewrite zlen_nil, Z.add_0_r. cbn [app]. apply ztake_drop. Qed.
Lemma ztake_prefix {A} (d r : list A) : ztake (zlen d) (d ++ r) = d.
Proof. unfold ztake, zlen. by rewrite Nat2Z.id, take_app_length. Qed.
Lemma slice_prefix {A} (o n : Z) (d r : list A) : 0 <= o -> 0 <= n -> o + n <= zlen d -> slice o n (d ++ r) = slice o n d.
Proof.
  intros. unfold slice, ztake, zdrop, zlen in *. rewrite drop_app_le by lia. rewrite take_app_le; [done|]. rewrite length_drop. lia.
Qed.
Lemma slice_0 {A} n (l : list A) : slice 0 n l = ztake n l.
Proof. done. Qed.

(** The part [d] of a concatenation. *)
Lemma slice_at {A} (p d r : list A) l o n :
  l = p ++ d ++ r -> o = zlen p -> n = zlen d -> slice o n l = d.
Proof.
  intros -> -> ->. unfold slice, ztake, zdrop, zlen. by rewrite !Nat2Z.id, drop_app_length, take_app_length.
Qed.

(** The [i]-th field of a concatenation of fields. *)
Lemma slice_concat {A} (i : nat) (fields : list (list A)) d o n :
  fields !! i = Some d -> o = zlen (concat (take i fields)) -> n = zlen d -> slice o n (concat fields) = d.
Proof.
  intros Hi Ho Hn. apply (slice_at (concat (take i fields)) d (concat (drop (S i) fields))); [|done..].
  rewrite <- (take_drop_middle _ _ _ Hi) at 1. by rewrite concat_app.
Qed.

(** A record laid out as fields of the sizes [ns]. *)
Definition total (ns : list Z) : Z := foldr Z.add 0 ns.
Lemma zlen_concat {A} (fs : list (list A)) : zlen (concat fs) = total (map zlen fs).
Proof. induction fs as [|f fs IH]; [done|]. cbn [concat map]. rewrite zlen_app, IH. done. Qed.
Lemma offset_of {A} i (fs : list (list A)) ns : map zlen fs = ns -> zlen (concat (take i fs)) = total (take i ns).
Proof. intros <-. rewrite zlen_concat. f_equal. apply (fmap_take zlen). Qed.
Lemma bread_field i fs ns d o n :
  map zlen fs = ns -> fs !! i = Some d -> o = total (take i ns) -> n = zlen d -> bread o n (concat fs) = Ok d.
Proof.
  intros Hs Hi -> ->. rewrite <- (offset_of i fs ns Hs).
  assert (Hl : zlen (concat fs) = zlen (concat (take i fs)) + zlen d + zlen (concat (drop (S i) fs))).
  { rewrite <- (take_drop_middle _ _ _ Hi) at 1. rewrite concat_app. cbn [concat]. rewrite !zlen_app. lia. }
  pose proof (zlen_nonneg (concat (drop (S i) fs))). pose proof (zlen_nonneg d). pose proof (zlen_nonneg (concat (take i fs))).
  rewrite bread_in by lia. f_equal. by apply (slice_concat i).
Qed.
(** The first [k] fields. *)
Lemma bread_fields k fs ns n : map zlen fs = ns -> n = total (take k ns) -> bread 0 n (concat fs) = Ok (concat (take k fs)).
Proof.
  intros Hs ->. rewrite <- (offset_of k fs ns Hs). rewrite <- (take_drop k fs) at 2. rewrite concat_app.
  pose proof (zlen_nonneg (concat (take k fs))). pose proof (zlen_nonneg (concat (drop k fs))).
  rewrite bread_in by (rewrite ?zlen_app; lia). by rewrite slice_0, ztake_prefix.
Qed.
Lemma bwrite_field i fs ns d o :
  map zlen fs = ns -> ns !! i = Some (zlen d) -> o = total (take i ns) ->
  bwrite o d (concat fs) = Ok (concat (<[i := d]> fs)) /\ map zlen (<[i := d]> fs) = ns.
Proof.
  intros Hs Hi ->. split.
  - rewrite <- (offset_of i fs ns Hs). subst ns. change (map zlen fs) with (zlen <$> fs) in Hi.
    apply list_lookup_fmap_Some in Hi as (old & Hl & Ho).
    assert (Hf : concat fs = concat (take i fs) ++ old ++ concat (drop (S i) fs)).
    { rewrite <- (take_drop_middle _ _ _ Ho) at 1. by rewrite concat_app. }
    pose proof (zlen_nonneg (concat (drop (S i) fs))). pose proof (zlen_nonneg (concat (take i fs))). unfold bwrite.
    rewrite (proj2 (Z.leb_le 0 _)), (proj2 (Z.leb_le _ (zlen (concat fs)))) by (rewrite ?Hf, ?zlen_app; lia). cbn [andb]. f_equal.
    rewrite insert_take_drop by (by eapply lookup_lt_Some). rewrite concat_app. cbn [concat]. rewrite Hf. unfold splice.
    rewrite ztake_prefix. do 2 f_equal. unfold zdrop, zlen in *. rewrite app_assoc, drop_app_length' by (rewrite length_app; lia). done.
  - change (map zlen (<[i := d]> fs)) with (zlen <$> <[i := d]> fs). rewrite list_fmap_insert.
    rewrite <- Hs in Hi |- *. by apply list_insert_id.
Qed.

(** * Byte encodings of integers *)

Fixpoint le_bytes (n : nat) (v : Z) : list Z :=
  match n with
  | O => []
  | S n' => v mod 256 :: le_bytes n' (v / 256)
  end.
Definition be_bytes (n : nat) (v : Z) : list Z := rev (le_bytes n v).
Fixpoint le_val (l : list Z) : Z :=
  match l with
  | [] => 0
  | b :: r => b + 256 * le_val r
  end.
Definition be_val (l : list Z) : Z := le_val (rev l).
(** A value in the byte order of a host that is big-endian when [big]. *)
Definition host_bytes (big : bool) (n : nat) (v : Z) : list Z :=
  if big then be_bytes n v else le_bytes n v.
Definition host_val (big : bool) (l : list Z) : Z := if big then be_val l else le_val l.

Lemma length_le_bytes n v : length (le_bytes n v) = n.
Proof. revert v. induction n as [|n IH]; intros v; cbn [le_bytes length]; [done|]. by rewrite IH. Qed.
Lemma zlen_le_bytes n v : zlen (le_bytes n v) = Z.of_nat n.
Proof. unfold zlen. by rewrite length_le_bytes. Qed.
Lemma zlen_be_bytes n v : zlen (be_bytes n v) = Z.of_nat n.
Proof. unfold zlen, be_bytes. by rewrite length_rev, length_le_bytes. Qed.
Lemma zlen_host_bytes big n v : zlen (host_bytes big n v) = Z.of_nat n.
Proof. destruct big; [apply zlen_be_bytes | apply zlen_le_bytes]. Qed.
#[export] Hint Rewrite zlen_le_bytes zlen_be_bytes zlen_host_bytes : zlen.

Lemma le_bytes_is_byte n v : Forall is_byte (le_bytes n v).
Proof.
  revert v. induction n; intros v; cbn [le_bytes]; constructor; auto.
  apply Z.mod_pos_bound. lia.
Qed.
Lemma le_val_bytes n v : le_val (le_bytes n v) = v mod 256 ^ Z.of_nat n.
Proof.
  revert v. induction n as [|n IH]; intros v.
  - cbn [le_bytes le_val]. by rewrite Z.mod_1_r.
  - cbn [le_bytes le_val]. rewrite IH, Nat2Z.inj_succ, Z.pow_succ_r by lia.
    rewrite Z.rem_mul_r by lia. lia.
Qed.
Lemma be_val_bytes n v : be_val (be_bytes n v) = v mod 256 ^ Z.of_nat n.
Proof. unfold be_val, be_bytes. rewrite rev_involutive. apply le_val_bytes. Qed.
Lemma host_val_bytes big n v : host_val big (host_bytes big n v) = v mod 256 ^ Z.of_nat n.
Proof. destruct big; [apply be_val_bytes | apply le_val_bytes]. Qed.
Lemma le_val_range l : Forall is_byte l -> 0 <= le_val l < 256 ^ zlen l.
Proof.
  induction 1 as [|b l Hb _ IH]; cbn [le_val].
  - by cbn.
  - unfold is_byte in Hb. rewrite zlen_cons, Z.pow_add_r by (pose proof (zlen_nonneg l); lia). lia.
Qed.
Lemma le_bytes_val l : Forall is_byte l -> le_bytes (length l) (le_val l) = l.
Proof.
  induction 1 as [|b l Hb _ IH]; [done|]. unfold is_byte in Hb. cbn [length le_bytes le_val].
  rewrite (Z.mul_comm 256), Z.mod_add, Z.div_add, Z.mod_small, Z.div_small by lia.
  rewrite Z.add_0_l. by rewrite IH.
Qed.
Lemma le_bytes_mod n v : le_bytes n (v mod 256 ^ Z.of_nat n) = le_bytes n v.
Proof.
  revert v. induction n as [|n IH]; intros v; [done|].
  cbn [le_bytes]. rewrite Nat2Z.inj_succ, Z.pow_succ_r, Z.rem_mul_r by lia.
  rewrite (Z.mul_comm 256), Z.mod_add, Z.div_add, Z.mod_mod by lia.
  rewrite (Z.div_small (v mod 256)) by (apply Z.mod_pos_bound; lia).
  by rewrite Z.add_0_l, IH.
Qed.

#[global] Arguments le_bytes : simpl never.

(** A value stored in 4 bytes is its bytes, and conversely. *)
Lemma le_val_bytes32 v : le_val (le_bytes 4 v) = u32 v.
Proof. apply le_val_bytes. Qed.

(** Disjoint bits: [lor] is addition. *)
Lemma lor_add_shift a b k : 0 <= k -> 0 <= b < 2 ^ k -> Z.lor (a * 2 ^ k) b = a * 2 ^ k + b.
Proof.
  intros Hk Hb. pose proof (Z.add_lor_land (a * 2 ^ k) b) as H.
  enough (Z.land (a * 2 ^ k) b = 0) by lia. clear H. rewrite <- Z.shiftl_mul_pow2 by lia. apply Z.bits_inj'. intros n Hn.
  rewrite Z.land_spec, Z.bits_0. destruct (Z.lt_ge_cases n k).
  - by rewrite Z.shiftl_spec_low by lia.
  - replace (Z.testbit b n) with false; [by rewrite andb_false_r|].
    symmetry. rewrite <- (Z.mod_small b (2 ^ k)) by lia.
    by rewrite Z.mod_pow2_bits_high by lia.
Qed.
