(* ===== verification/CLib.v ===== *)
(** * The functions of the C standard library the programs call

    A C string is the list of its bytes before the terminating NUL.  The
    functions on strings are the C ones on such lists, in the "C" locale;
    pointers into a string are the suffix they point to. *)

From S2P Require Import Prelude.
From Stdlib Require Import Ascii.

(** The bytes of a literal. *)
Definition str (s : string) : list Z :=
  map (fun c => Z.of_N (N_of_ascii c)) (String.list_ascii_of_string s).

Definition CR : Z := 13.
Definition LF : Z := 10.
Definition QUOTE : Z := 34.

(** The string a buffer holds: its bytes up to the first NUL. *)
Fixpoint cstr (l : list Z) : list Z :=
  match l with
  | [] => []
  | b :: r => if b =? 0 then [] else b :: cstr r
  end.

(** [strcmp (a, b) == 0] *)
Definition streq (a b : list Z) : bool := bool_decide (a = b).

Definition tolower (c : Z) : Z := if (65 <=? c) && (c <=? 90) then c + 32 else c.
(** [strcasecmp (a, b) == 0] *)
Definition strcaseeq (a b : list Z) : bool := streq (map tolower a) (map tolower b).

(** [strncmp (s, p, strlen (p)) == 0] *)
Fixpoint has_prefix (p s : list Z) : bool :=
  match p, s with
  | [], _ => true
  | _ :: _, [] => false
  | a :: p', b :: s' => (a =? b) && has_prefix p' s'
  end.

Definition isspace (c : Z) : bool := (c =? 32) || ((9 <=? c) && (c <=? 13)).
Definition isdigit (c : Z) : bool := (48 <=? c) && (c <=? 57).

(** [strchr]: the suffix that starts at the first [c]. *)
Fixpoint strchr (s : list Z) (c : Z) : option (list Z) :=
  match s with
  | [] => None
  | b :: r => if b =? c then Some s else strchr r c
  end.

(** [strstr]: the suffix that starts at the first occurrence of [p]. *)
Fixpoint strstr (s p : list Z) : option (list Z) :=
  if has_prefix p s then Some s
  else match s with [] => None | _ :: r => strstr r p end.

Fixpoint skip_while (f : Z -> bool) (s : list Z) : list Z :=
  match s with
  | [] => []
  | b :: r => if f b then skip_while f r else s
  end.
Fixpoint take_while (f : Z -> bool) (s : list Z) : list Z :=
  match s with
  | [] => []
  | b :: r => if f b then b :: take_while f r else []
  end.

(** [strncpy] into an array of [n] bytes: truncated without a NUL, or padded
    with NULs. *)
Definition strncpy_field (n : Z) (s : list Z) : list Z := ztake n s ++ zrep (n - zlen s) 0.

(** ** [strtoul] *)

Definition digit_of (base c : Z) : option Z :=
  let d := if isdigit c then c - 48
           else if (97 <=? tolower c) && (tolower c <=? 122) then tolower c - 87
           else 99 in
  if d <? base then Some d else None.

(** The value of the longest run of digits, whether there was one, and the
    rest of the string. *)
Fixpoint digits (base : Z) (s : list Z) (acc : Z) (any : bool) : Z * bool * list Z :=
  match s with
  | [] => (acc, any, [])
  | c :: r =>
      match digit_of base c with
      | Some d => digits base r (acc * base + d) true
      | None => (acc, any, s)
      end
  end.

Definition ULONG_MAX : Z := 2 ^ 64 - 1.

(** The optional [0x] of base 16, skipped only when a hex digit follows it. *)
Definition hex_prefix (s : list Z) : option (list Z) :=
  match s with
  | 48 :: x :: d :: r =>
      if ((x =? 120) || (x =? 88)) && bool_decide (is_Some (digit_of 16 d))
      then Some (d :: r) else None
  | _ => None
  end.

(** [strtoul (s, &e, base)]: the value, [*e], and whether the value overflowed
    ([errno == ERANGE]).  With no digits [*e] is [s] itself. *)
Definition strtoul (s : list Z) (base : Z) : Z * list Z * bool :=
  let s1 := skip_while isspace s in
  let '(neg, s2) := match s1 with
                    | 45 :: r => (true, r)
                    | 43 :: r => (false, r)
                    | _ => (false, s1)
                    end in
  let '(base', s3) :=
    if (base =? 0) || (base =? 16) then
      match hex_prefix s2 with
      | Some r => (16, r)
      | None => if base =? 16 then (16, s2)
                else match s2 with 48 :: _ => (8, s2) | _ => (10, s2) end
      end
    else (base, s2) in
  let '(v, any, r) := digits base' s3 0 false in
  if any then
    if ULONG_MAX <? v then (ULONG_MAX, r, true)
    else (if neg then u64 (- v) else v, r, false)
  else (0, s, false).

Example strtoul_dec : strtoul (str "6268237") 10 = (6268237, [], false).
Proof. vm_compute. reflexivity. Qed.
Example strtoul_hex : strtoul (str "0x10000") 0 = (65536, [], false).
Proof. vm_compute. reflexivity. Qed.
Example strtoul_rest : strtoul (str "7.0") 10 = (7, str ".0", false).
Proof. vm_compute. reflexivity. Qed.
Example strtoul_none : strtoul (str "x1") 0 = (0, str "x1", false).
Proof. vm_compute. reflexivity. Qed.

(** ** Lemmas *)

Lemma streq_true a b : streq a b = true <-> a = b.
Proof. apply bool_decide_eq_true. Qed.
Lemma streq_false a b : streq a b = false <-> a <> b.
Proof. apply bool_decide_eq_false. Qed.
Lemma streq_refl a : streq a a = true.
Proof. by apply streq_true. Qed.

Lemma has_prefix_app p s : has_prefix p (p ++ s) = true.
Proof. induction p as [|a p IH]; cbn; [done|]. by rewrite Z.eqb_refl. Qed.
Lemma has_prefix_true p s : has_prefix p s = true -> exists r, s = p ++ r.
Proof.
  revert s. induction p as [|a p IH]; intros s H; cbn in *; [by exists s|].
  destruct s as [|b s]; [done|]. apply andb_prop in H as [->%Z.eqb_eq H].
  destruct (IH _ H) as [r ->]. by exists r.
Qed.

(** A string holds no NUL. *)
Definition nonul (s : list Z) : Prop := Forall (fun b => b <> 0) s.

Lemma cstr_nonul s : nonul (cstr s).
Proof.
  induction s as [|b s IH]; cbn; [constructor|].
  destruct (Z.eqb_spec b 0); constructor; auto.
Qed.
Lemma cstr_app s r : nonul s -> cstr (s ++ 0 :: r) = s.
Proof.
  induction 1 as [|b s Hb _ IH]; cbn; [done|].
  destruct (Z.eqb_spec b 0); [done|]. by rewrite IH.
Qed.
Lemma cstr_id s : nonul s -> cstr s = s.
Proof.
  induction 1 as [|b s Hb _ IH]; cbn; [done|].
  destruct (Z.eqb_spec b 0); [done|]. by rewrite IH.
Qed.

Lemma zlen_strncpy_field n s : 0 <= n -> zlen (strncpy_field n s) = n.
Proof. intros. unfold strncpy_field. pose proof (zlen_nonneg s). zlen. Qed.

Lemma take_while_spec f s :
  s = take_while f s ++ skip_while f s /\ Forall (fun b => f b = true) (take_while f s).
Proof.
  induction s as [|b s [IH1 IH2]]; cbn; [done|].
  destruct (f b) eqn:E; [|done]. cbn. split; [by f_equal | by constructor].
Qed.
Lemma take_while_all f s r :
  Forall (fun b => f b = true) s -> match r with [] => True | b :: _ => f b = false end ->
  take_while f (s ++ r) = s.
Proof.
  intros Hs Hr. induction Hs as [|b s Hb _ IH]; cbn.
  - destruct r as [|b r]; [done|]. cbn. by rewrite Hr.
  - by rewrite Hb, IH.
Qed.

Lemma digit_of_range base c d : digit_of base c = Some d -> 0 <= d < base.
Proof.
  unfold digit_of, isdigit. intros H. case_match eqn:Hd; [|done]. injection H as <-.
  apply Z.ltb_lt in Hd. revert Hd. repeat case_match; lia.
Qed.
Lemma digits_nonneg base s acc any v any' r :
  0 <= base -> 0 <= acc -> digits base s acc any = (v, any', r) -> 0 <= v.
Proof.
  intros Hb. revert acc any. induction s as [|c s IH]; intros acc any Ha H; cbn in H; [by simplify_eq|].
  destruct (digit_of base c) as [d|] eqn:Hd; [|by simplify_eq].
  apply digit_of_range in Hd. eapply IH; [|done]. nia.
Qed.
Lemma strtoul_range s base v e er : 0 <= base -> strtoul s base = (v, e, er) -> 0 <= v < 2 ^ 64.
Proof.
  intros Hb. unfold strtoul.
  destruct (match skip_while isspace s with [] => _ | _ => _ end) as [neg s2].
  destruct (if (base =? 0) || (base =? 16) then _ else _) as [base' s3] eqn:Hb'.
  assert (0 <= base').
  { revert Hb'. destruct (_ || _); [|intros [= <- <-]; done].
    destruct (hex_prefix s2); [intros [= <- <-]; lia|].
    destruct (base =? 16); [intros [= <- <-]; lia|].
    repeat case_match; intros [= <- <-]; lia. }
  destruct (digits base' s3 0 false) as [[w any] r] eqn:Hd. apply digits_nonneg in Hd; [|done..].
  destruct any; [|intros [= <- <- <-]; lia].
  destruct (Z.ltb_spec ULONG_MAX w); unfold ULONG_MAX in *; [intros [= <- <- <-]; lia|].
  destruct neg; intros [= <- <- <-]; [apply u64_range|lia].
Qed.
