(* ===== verification/Endian.v ===== *)
(** * Byte order: the conversions of <sys/endian.h> and word assembly

    [bswap32] and the host/little/big-endian conversions, and the lemmas that
    relate a word assembled with masks and shifts to its bytes in memory. *)

From S2P Require Import Prelude.

Definition bswap32 (x : Z) : Z := be_val (le_bytes 4 x).
Definition htole32 (big : bool) (x : Z) : Z := if big then bswap32 x else x.
Definition le32toh (big : bool) (x : Z) : Z := if big then bswap32 x else x.
(** [htonl] and [ntohl] *)
Definition htonl (big : bool) (x : Z) : Z := if big then x else bswap32 x.
Definition ntohl (big : bool) (x : Z) : Z := if big then x else bswap32 x.

Lemma be_val_le_bytes_rev l : Forall is_byte l -> be_bytes (length l) (be_val l) = l.
Proof.
  intros H. unfold be_bytes, be_val. rewrite <- (length_rev l).
  rewrite le_bytes_val; [apply rev_involutive|]. by apply Forall_rev.
Qed.
Lemma bswap32_bytes v : be_bytes 4 (bswap32 v) = le_bytes 4 v.
Proof. apply (be_val_le_bytes_rev (le_bytes 4 v)), le_bytes_is_byte. Qed.
Lemma bswap32_involutive v : 0 <= v < 2 ^ 32 -> bswap32 (be_val (le_bytes 4 v)) = v.
Proof.
  intros Hv. unfold bswap32.
  assert (forall w, be_val (le_bytes 4 w) = le_val (be_bytes 4 w)) as Hw by done.
  rewrite (Hw (be_val _)).
  pose proof (be_val_le_bytes_rev (le_bytes 4 v) (le_bytes_is_byte 4 v)) as H.
  rewrite length_le_bytes in H. rewrite H, le_val_bytes. by apply Z.mod_small.
Qed.

(** A byte extracted by a mask and a shift. *)
Lemma mask_shift v k : 0 <= k -> Z.shiftr (Z.land v (Z.shiftl 255 k)) k = v / 2 ^ k mod 256.
Proof.
  intros Hk. rewrite <- (Z.shiftr_div_pow2 v) by lia. change 256 with (2 ^ 8).
  rewrite <- Z.land_ones by lia. apply Z.bits_inj'. intros n Hn.
  rewrite Z.shiftr_spec, !Z.land_spec, Z.shiftr_spec, Z.shiftl_spec by lia.
  by replace (n + k - k) with n by lia.
Qed.

Lemma bswap32_range v : 0 <= bswap32 v < 2 ^ 32.
Proof.
  unfold bswap32, be_val.
  pose proof (le_val_range (rev (le_bytes 4 v))) as H.
  change (256 ^ zlen (rev (le_bytes 4 v))) with (2 ^ 32) in H.
  apply H, Forall_rev, le_bytes_is_byte.
Qed.

(** The word whose bytes, from the highest, are [b0] to [b3]. *)
Lemma lor_bytes4 b0 b1 b2 b3 :
  is_byte b0 -> is_byte b1 -> is_byte b2 -> is_byte b3 ->
  Z.lor (Z.lor (Z.lor (u32 (Z.shiftl b0 24)) (u32 (Z.shiftl b1 16))) (u32 (Z.shiftl b2 8))) b3
  = b0 * 2 ^ 24 + b1 * 2 ^ 16 + b2 * 2 ^ 8 + b3.
Proof.
  unfold is_byte. intros. rewrite !Z.shiftl_mul_pow2, !u32_small by lia. rewrite lor_add_shift by lia.
  replace (b0 * 2 ^ 24 + b1 * 2 ^ 16) with ((b0 * 256 + b1) * 2 ^ 16) by lia.
  rewrite lor_add_shift by lia.
  replace ((b0 * 256 + b1) * 2 ^ 16 + b2 * 2 ^ 8) with ((b0 * 2 ^ 16 + b1 * 256 + b2) * 2 ^ 8) by lia.
  rewrite lor_add_shift by lia. lia.
Qed.
Lemma bswap32_bits v :
  bswap32 v = Z.lor (Z.lor (Z.lor (u32 (Z.shiftl (v mod 2 ^ 8) 24)) (u32 (Z.shiftl (v / 2 ^ 8 mod 256) 16)))
                      (u32 (Z.shiftl (v / 2 ^ 16 mod 256) 8))) (v / 2 ^ 24 mod 256).
Proof.
  rewrite lor_bytes4 by (apply Z.mod_pos_bound; lia).
  unfold bswap32, be_val. cbv [le_bytes rev app le_val]. rewrite !Z.div_div by lia.
  change (256 * 256 * 256) with (2 ^ 24). change (256 * 256) with (2 ^ 16). change 256 with (2 ^ 8).
  change (2 ^ 8 * 2 ^ 16) with (2 ^ 24).
  generalize (v mod 2 ^ 8) (v / 2 ^ 8 mod 2 ^ 8) (v / 2 ^ 16 mod 2 ^ 8) (v / 2 ^ 24 mod 2 ^ 8). intros. lia.
Qed.
Lemma mask_byte v k : 0 <= k -> Z.land v (Z.shiftl 255 k) = (v / 2 ^ k mod 256) * 2 ^ k.
Proof.
  intros Hk. rewrite <- mask_shift, <- Z.shiftl_mul_pow2 by lia. apply Z.bits_inj'. intros n Hn.
  destruct (Z.lt_ge_cases n k).
  - by rewrite Z.land_spec, !Z.shiftl_spec_low, andb_false_r by lia.
  - rewrite Z.shiftl_spec, Z.shiftr_spec by lia. f_equal. lia.
Qed.

Lemma htonl_bytes big v : 0 <= v < 2 ^ 32 -> host_bytes big 4 (htonl big v) = be_bytes 4 v.
Proof.
  intros Hv. destruct big; [done|]. unfold host_bytes, htonl, be_bytes.
  rewrite <- (bswap32_bytes v). unfold be_bytes. by rewrite rev_involutive.
Qed.
Lemma land_lxor a b m : Z.land (Z.lxor a b) m = Z.lxor (Z.land a m) (Z.land b m).
Proof.
  apply Z.bits_inj'. intros n Hn. rewrite Z.land_spec, !Z.lxor_spec, !Z.land_spec. by destruct (Z.testbit a n), (Z.testbit b n), (Z.testbit m n).
Qed.
Lemma lxor_byte a b : is_byte a -> is_byte b -> is_byte (Z.lxor a b).
Proof.
  unfold is_byte. intros Ha Hb. rewrite <- (Z.mod_small a 256), <- (Z.mod_small b 256) by lia.
  change 256 with (2 ^ 8). rewrite <- !Z.land_ones by lia. rewrite <- land_lxor. rewrite Z.land_ones by lia.
  apply Z.mod_pos_bound. lia.
Qed.
