(* ===== verification/Crc32.v ===== *)
(** * CRC-32 of the trx tools

    [flip_endian], the table [crc_32_tab] and [crc32buf] of tools/trx/trx.c
    (tools/asustrx/asustrx.c holds the same table and routine), against the
    bit-at-a-time definition the source's comment describes. *)

From S2P Require Import Prelude.

Definition flip_endian (nValue : Z) : Z :=
  let nByte1 := Z.shiftr (Z.land nValue 0xff000000) 24 in
  let nByte2 := Z.shiftr (Z.land nValue 0x00ff0000) 16 in
  let nByte3 := Z.shiftr (Z.land nValue 0x0000ff00) 8 in
  let nByte4 := Z.land nValue 0x0ff in
  let nR := u32 (Z.shiftl nByte4 24) in
  let nR := Z.lor nR (u32 (Z.shiftl nByte3 16)) in
  let nR := Z.lor nR (u32 (Z.shiftl nByte2 8)) in
  Z.lor nR nByte1.

Definition crc_32_tab : list Z := [
  0x00000000; 0x77073096; 0xee0e612c; 0x990951ba; 0x076dc419; 0x706af48f;
  0xe963a535; 0x9e6495a3; 0x0edb8832; 0x79dcb8a4; 0xe0d5e91e; 0x97d2d988;
  0x09b64c2b; 0x7eb17cbd; 0xe7b82d07; 0x90bf1d91; 0x1db71064; 0x6ab020f2;
  0xf3b97148; 0x84be41de; 0x1adad47d; 0x6ddde4eb; 0xf4d4b551; 0x83d385c7;
  0x136c9856; 0x646ba8c0; 0xfd62f97a; 0x8a65c9ec; 0x14015c4f; 0x63066cd9;
  0xfa0f3d63; 0x8d080df5; 0x3b6e20c8; 0x4c69105e; 0xd56041e4; 0xa2677172;
  0x3c03e4d1; 0x4b04d447; 0xd20d85fd; 0xa50ab56b; 0x35b5a8fa; 0x42b2986c;
  0xdbbbc9d6; 0xacbcf940; 0x32d86ce3; 0x45df5c75; 0xdcd60dcf; 0xabd13d59;
  0x26d930ac; 0x51de003a; 0xc8d75180; 0xbfd06116; 0x21b4f4b5; 0x56b3c423;
  0xcfba9599; 0xb8bda50f; 0x2802b89e; 0x5f058808; 0xc60cd9b2; 0xb10be924;
  0x2f6f7c87; 0x58684c11; 0xc1611dab; 0xb6662d3d; 0x76dc4190; 0x01db7106;
  0x98d220bc; 0xefd5102a; 0x71b18589; 0x06b6b51f; 0x9fbfe4a5; 0xe8b8d433;
  0x7807c9a2; 0x0f00f934; 0x9609a88e; 0xe10e9818; 0x7f6a0dbb; 0x086d3d2d;
  0x91646c97; 0xe6635c01; 0x6b6b51f4; 0x1c6c6162; 0x856530d8; 0xf262004e;
  0x6c0695ed; 0x1b01a57b; 0x8208f4c1; 0xf50fc457; 0x65b0d9c6; 0x12b7e950;
  0x8bbeb8ea; 0xfcb9887c; 0x62dd1ddf; 0x15da2d49; 0x8cd37cf3; 0xfbd44c65;
  0x4db26158; 0x3ab551ce; 0xa3bc0074; 0xd4bb30e2; 0x4adfa541; 0x3dd895d7;
  0xa4d1c46d; 0xd3d6f4fb; 0x4369e96a; 0x346ed9fc; 0xad678846; 0xda60b8d0;
  0x44042d73; 0x33031de5; 0xaa0a4c5f; 0xdd0d7cc9; 0x5005713c; 0x270241aa;
  0xbe0b1010; 0xc90c2086; 0x5768b525; 0x206f85b3; 0xb966d409; 0xce61e49f;
  0x5edef90e; 0x29d9c998; 0xb0d09822; 0xc7d7a8b4; 0x59b33d17; 0x2eb40d81;
  0xb7bd5c3b; 0xc0ba6cad; 0xedb88320; 0x9abfb3b6; 0x03b6e20c; 0x74b1d29a;
  0xead54739; 0x9dd277af; 0x04db2615; 0x73dc1683; 0xe3630b12; 0x94643b84;
  0x0d6d6a3e; 0x7a6a5aa8; 0xe40ecf0b; 0x9309ff9d; 0x0a00ae27; 0x7d079eb1;
  0xf00f9344; 0x8708a3d2; 0x1e01f268; 0x6906c2fe; 0xf762575d; 0x806567cb;
  0x196c3671; 0x6e6b06e7; 0xfed41b76; 0x89d32be0; 0x10da7a5a; 0x67dd4acc;
  0xf9b9df6f; 0x8ebeeff9; 0x17b7be43; 0x60b08ed5; 0xd6d6a3e8; 0xa1d1937e;
  0x38d8c2c4; 0x4fdff252; 0xd1bb67f1; 0xa6bc5767; 0x3fb506dd; 0x48b2364b;
  0xd80d2bda; 0xaf0a1b4c; 0x36034af6; 0x41047a60; 0xdf60efc3; 0xa867df55;
  0x316e8eef; 0x4669be79; 0xcb61b38c; 0xbc66831a; 0x256fd2a0; 0x5268e236;
  0xcc0c7795; 0xbb0b4703; 0x220216b9; 0x5505262f; 0xc5ba3bbe; 0xb2bd0b28;
  0x2bb45a92; 0x5cb36a04; 0xc2d7ffa7; 0xb5d0cf31; 0x2cd99e8b; 0x5bdeae1d;
  0x9b64c2b0; 0xec63f226; 0x756aa39c; 0x026d930a; 0x9c0906a9; 0xeb0e363f;
  0x72076785; 0x05005713; 0x95bf4a82; 0xe2b87a14; 0x7bb12bae; 0x0cb61b38;
  0x92d28e9b; 0xe5d5be0d; 0x7cdcefb7; 0x0bdbdf21; 0x86d3d2d4; 0xf1d4e242;
  0x68ddb3f8; 0x1fda836e; 0x81be16cd; 0xf6b9265b; 0x6fb077e1; 0x18b74777;
  0x88085ae6; 0xff0f6a70; 0x66063bca; 0x11010b5c; 0x8f659eff; 0xf862ae69;
  0x616bffd3; 0x166ccf45; 0xa00ae278; 0xd70dd2ee; 0x4e048354; 0x3903b3c2;
  0xa7672661; 0xd06016f7; 0x4969474d; 0x3e6e77db; 0xaed16a4a; 0xd9d65adc;
  0x40df0b66; 0x37d83bf0; 0xa9bcae53; 0xdebb9ec5; 0x47b2cf7f; 0x30b5ffe9;
  0xbdbdf21c; 0xcabac28a; 0x53b39330; 0x24b4a3a6; 0xbad03605; 0xcdd70693;
  0x54de5729; 0x23d967bf; 0xb3667a2e; 0xc4614ab8; 0x5d681b02; 0x2a6f2b94;
  0xb40bbe37; 0xc30c8ea1; 0x5a05df1b; 0x2d02ef8d
].

(** [UPDC32 (octet, crc)], where [octet] is a (signed) [char] promoted to
    [int] and converted to [uint32_t]. *)
Definition UPDC32 (octet crc : Z) : Z :=
  Z.lxor (znth crc_32_tab (Z.land (Z.lxor crc (u32 (schar octet))) 0xff)) (Z.shiftr crc 8).

Definition crc32buf (buf : list Z) : Z :=
  fold_left (fun crc b => UPDC32 b crc) buf 0xFFFFFFFF.

(** ** The bit-at-a-time reference: one feedback shift of the reflected
    register with polynomial 0xedb88320, eight of them per byte. *)

Definition poly : Z := 0xedb88320.
Definition crc_shift (x : Z) : Z := Z.lxor (Z.shiftr x 1) (if Z.odd x then poly else 0).
Definition crc_byte (crc b : Z) : Z := Nat.iter 8 crc_shift (Z.lxor crc b).
Definition crc_reference (buf : list Z) : Z := fold_left crc_byte buf 0xFFFFFFFF.

(** ** Linearity of the feedback shift *)

Lemma crc_shift_lxor x y : crc_shift (Z.lxor x y) = Z.lxor (crc_shift x) (crc_shift y).
Proof.
  unfold crc_shift. rewrite Z.shiftr_lxor.
  replace (Z.odd (Z.lxor x y)) with (xorb (Z.odd x) (Z.odd y))
    by (rewrite <- !Z.bit0_odd; symmetry; apply Z.lxor_spec).
  destruct (Z.odd x), (Z.odd y); cbn [xorb]; apply Z.bits_inj'; intros n Hn;
    rewrite ?Z.lxor_spec, ?Z.bits_0;
    repeat match goal with |- context [Z.testbit ?a n] => destruct (Z.testbit a n) end; done.
Qed.

Lemma crc_shifts_lxor k x y :
  Nat.iter k crc_shift (Z.lxor x y)
  = Z.lxor (Nat.iter k crc_shift x) (Nat.iter k crc_shift y).
Proof. induction k as [|k IH]; [done|]. by rewrite !Nat.iter_succ, IH, crc_shift_lxor. Qed.

Lemma crc_shift_double y : crc_shift (2 * y) = y.
Proof.
  unfold crc_shift. rewrite Z.odd_mul. cbn [Z.odd andb].
  rewrite Z.lxor_0_r. rewrite Z.shiftr_div_pow2 by lia.
  change (2 ^ 1) with 2. rewrite (Z.mul_comm 2), Z.div_mul by lia. done.
Qed.

Lemma crc_shifts_high k y : Nat.iter k crc_shift (y * 2 ^ Z.of_nat k) = y.
Proof.
  revert y. induction k as [|k IH]; intros y; [cbn; lia|].
  rewrite Nat.iter_succ_r, Nat2Z.inj_succ, Z.pow_succ_r by lia.
  replace (y * (2 * 2 ^ Z.of_nat k)) with (2 * (y * 2 ^ Z.of_nat k)) by lia.
  by rewrite crc_shift_double, IH.
Qed.

Lemma split_low8 x : x = Z.lxor (Z.land x 255) (Z.shiftr x 8 * 2 ^ 8).
Proof.
  rewrite <- Z.shiftl_mul_pow2 by lia. change 255 with (Z.ones 8).
  apply Z.bits_inj'. intros n Hn. rewrite Z.lxor_spec, Z.land_spec.
  destruct (Z.lt_ge_cases n 8).
  - rewrite Z.shiftl_spec_low, Z.ones_spec_low by lia.
    by rewrite andb_true_r, xorb_false_r.
  - rewrite Z.shiftl_spec, Z.shiftr_spec, Z.ones_spec_high by lia.
    replace (n - 8 + 8) with n by lia. by rewrite andb_false_r, xorb_false_l.
Qed.

(** Every entry of the table is the effect of eight shifts on its index. *)
Lemma crc_32_tab_spec i : 0 <= i < 256 -> znth crc_32_tab i = Nat.iter 8 crc_shift i.
Proof.
  intros Hi.
  assert (forallb (fun j => znth crc_32_tab j =? Nat.iter 8 crc_shift j) (seqZ 0 256) = true)
    as H by (vm_compute; reflexivity).
  rewrite forallb_forall in H. apply Z.eqb_eq, H.
  apply list_elem_of_In, elem_of_seqZ. lia.
Qed.

(** ** The table-driven step is eight shifts *)

Lemma land_255 x : Z.land x 255 = x mod 256.
Proof. change 255 with (Z.ones 8). by rewrite Z.land_ones by lia. Qed.

(** Sign-extending the octet does not matter below the mask. *)
Lemma land_255_schar crc b : Z.land (Z.lxor crc (u32 (schar b))) 255 = Z.land (Z.lxor crc b) 255.
Proof.
  assert (Z.land (u32 (schar b)) 255 = Z.land b 255) as H.
  { rewrite !land_255. unfold u32, schar.
    change (2 ^ 32) with (256 * 2 ^ 24).
    rewrite Z.rem_mul_r by lia. rewrite (Z.mul_comm 256), Z.mod_add, Z.mod_mod by lia.
    rewrite Zminus_mod, Z.mod_mod, <- Zminus_mod by lia. f_equal. lia. }
  apply Z.bits_inj'. intros n Hn. apply (f_equal (fun z => Z.testbit z n)) in H.
  rewrite !Z.land_spec in H. rewrite !Z.land_spec, !Z.lxor_spec.
  destruct (Z.testbit 255 n); [|by rewrite ?andb_false_r].
  rewrite ?andb_true_r, ?andb_true_l in *. by rewrite H.
Qed.

Lemma UPDC32_spec crc b :
  is_byte b -> UPDC32 b crc = crc_byte crc b.
Proof.
  intros Hb. unfold UPDC32, crc_byte. rewrite land_255_schar.
  rewrite crc_32_tab_spec by (rewrite land_255; apply Z.mod_pos_bound; lia).
  rewrite (split_low8 (Z.lxor crc b)) at 2. rewrite crc_shifts_lxor.
  rewrite (crc_shifts_high 8). f_equal.
  rewrite Z.shiftr_lxor. unfold is_byte in Hb.
  rewrite (Z.shiftr_div_pow2 b) by lia. rewrite (Z.div_small b) by (change (2 ^ 8) with 256; lia).
  by rewrite Z.lxor_0_r.
Qed.

(** ** Injectivity of the register step *)

Lemma lxor_u32 x y : 0 <= x < 2 ^ 32 -> 0 <= y < 2 ^ 32 -> 0 <= Z.lxor x y < 2 ^ 32.
Proof.
  intros Hx Hy. split; [apply Z.lxor_nonneg; lia|].
  destruct (Z.eq_dec (Z.lxor x y) 0) as [->|Hz]; [lia|].
  assert (0 < Z.lxor x y) by (assert (0 <= Z.lxor x y) by (apply Z.lxor_nonneg; lia); lia).
  apply Z.log2_lt_pow2; [done|].
  pose proof (Z.log2_lxor x y ltac:(lia) ltac:(lia)).
  assert (forall z, 0 <= z < 2 ^ 32 -> Z.log2 z < 32) as Hl.
  { intros z Hz'. destruct (Z.eq_dec z 0) as [->|]; [cbn; lia|]. apply Z.log2_lt_pow2; lia. }
  pose proof (Hl x Hx). pose proof (Hl y Hy). lia.
Qed.

Lemma crc_shift_range x : 0 <= x < 2 ^ 32 -> 0 <= crc_shift x < 2 ^ 32.
Proof.
  intros Hx. apply lxor_u32.
  - rewrite Z.shiftr_div_pow2 by lia. change (2 ^ 1) with 2. dlia.
  - destruct (Z.odd x); unfold poly; lia.
Qed.

Lemma crc_shift_top x : 0 <= x < 2 ^ 32 -> Z.testbit (crc_shift x) 31 = Z.odd x.
Proof.
  intros Hx. unfold crc_shift. rewrite Z.lxor_spec, Z.shiftr_spec by lia.
  replace (Z.testbit x (31 + 1)) with false.
  - destruct (Z.odd x); reflexivity.
  - symmetry. change (31 + 1) with 32. destruct (Z.eq_dec x 0) as [->|]; [done|].
    apply Z.bits_above_log2; [lia|]. apply Z.log2_lt_pow2; lia.
Qed.

Lemma crc_shift_inj x y :
  0 <= x < 2 ^ 32 -> 0 <= y < 2 ^ 32 -> crc_shift x = crc_shift y -> x = y.
Proof.
  intros Hx Hy H.
  assert (Z.odd x = Z.odd y) as Ho by (rewrite <- !crc_shift_top, H by done; done).
  unfold crc_shift in H. rewrite Ho in H.
  apply (f_equal (fun z => Z.lxor z (if Z.odd y then poly else 0))) in H.
  rewrite !Z.lxor_assoc, !Z.lxor_nilpotent, !Z.lxor_0_r in H.
  rewrite !Z.shiftr_div_pow2 in H by lia. change (2 ^ 1) with 2 in H.
  rewrite (Zdiv2_odd_eqn x), (Zdiv2_odd_eqn y), !Z.div2_div, Ho, H. done.
Qed.

Lemma crc_shifts_range k x : 0 <= x < 2 ^ 32 -> 0 <= Nat.iter k crc_shift x < 2 ^ 32.
Proof. intros Hx. induction k; [done|]. rewrite Nat.iter_succ. by apply crc_shift_range. Qed.
Lemma crc_shifts_inj k x y :
  0 <= x < 2 ^ 32 -> 0 <= y < 2 ^ 32 ->
  Nat.iter k crc_shift x = Nat.iter k crc_shift y -> x = y.
Proof.
  intros Hx Hy. induction k as [|k IH]; [done|]. rewrite !Nat.iter_succ.
  intros H. apply IH. apply crc_shift_inj; [by apply crc_shifts_range..|done].
Qed.

#[global] Strategy 500 [crc_byte].
#[global] Strategy 1000 [Nat.iter].
#[global] Strategy 2000 [crc_shift].
Lemma crc_byte_range c b : 0 <= c < 2 ^ 32 -> is_byte b -> 0 <= crc_byte c b < 2 ^ 32.
Proof. intros Hc Hb. unfold crc_byte. apply crc_shifts_range, lxor_u32; [done|]. unfold is_byte in Hb. lia. Qed.

Lemma crc_byte_inj_crc c1 c2 b :
  0 <= c1 < 2 ^ 32 -> 0 <= c2 < 2 ^ 32 -> is_byte b ->
  crc_byte c1 b = crc_byte c2 b -> c1 = c2.
Proof.
  unfold is_byte. intros H1 H2 Hb H. unfold crc_byte in H.
  apply crc_shifts_inj in H; [|apply lxor_u32; lia..].
  apply (f_equal (fun z => Z.lxor z b)) in H.
  by rewrite !Z.lxor_assoc, !Z.lxor_nilpotent, !Z.lxor_0_r in H.
Qed.
Lemma crc_byte_inj_byte c b1 b2 :
  0 <= c < 2 ^ 32 -> is_byte b1 -> is_byte b2 -> crc_byte c b1 = crc_byte c b2 -> b1 = b2.
Proof.
  unfold is_byte. intros Hc H1 H2 H. unfold crc_byte in H.
  apply crc_shifts_inj in H; [|apply lxor_u32; lia..].
  apply (f_equal (Z.lxor c)) in H.
  by rewrite <- !Z.lxor_assoc, !Z.lxor_nilpotent, !Z.lxor_0_l in H.
Qed.

(** ** Folding over a buffer *)

Lemma fold_left_cons {A B} (f : A -> B -> A) b l c : fold_left f (b :: l) c = fold_left f l (f c b).
Proof. reflexivity. Qed.

Lemma crc32buf_fold l c :
  Forall is_byte l -> fold_left (fun crc b => UPDC32 b crc) l c = fold_left crc_byte l c.
Proof. intros Hl. revert c. induction Hl as [|b l Hb Hl IH]; intros c; [reflexivity|].
  rewrite !fold_left_cons, UPDC32_spec by exact Hb. apply IH. Qed.
Lemma crc_fold_range l c :
  Forall is_byte l -> 0 <= c < 2 ^ 32 -> 0 <= fold_left crc_byte l c < 2 ^ 32.
Proof. intros Hl. revert c. induction Hl as [|b l Hb Hl IH]; intros c Hc; [exact Hc|].
  rewrite fold_left_cons. apply IH, crc_byte_range; assumption.
Qed.
Lemma crc_fold_inj l c1 c2 :
  Forall is_byte l -> 0 <= c1 < 2 ^ 32 -> 0 <= c2 < 2 ^ 32 ->
  fold_left crc_byte l c1 = fold_left crc_byte l c2 -> c1 = c2.
Proof.
  intros Hl. revert c1 c2. induction Hl as [|b l Hb Hl IH]; intros c1 c2 H1 H2 H; [done|].
  rewrite !fold_left_cons in H. apply IH in H; [|apply crc_byte_range; assumption..]. by apply crc_byte_inj_crc with b.
Qed.

(** ** Properties *)

(** On bytes, the table-driven [crc32buf] computes the bit-at-a-time CRC of
    the reflected polynomial 0xedb88320 with initial register 0xffffffff. *)
Theorem crc32buf_reference (buf : list Z) :
  Forall is_byte buf -> crc32buf buf = crc_reference buf.
Proof. intros H. by apply crc32buf_fold. Qed.

Lemma crc32buf_reference_witness :
  Forall is_byte [0x31; 0xff; 0x80] /\ crc32buf [0x31; 0xff; 0x80] = crc_reference [0x31; 0xff; 0x80].
Proof.
  split; [|apply crc32buf_reference]; repeat constructor; unfold is_byte; lia.
Defined.

(** [crc32buf] detects every change of a single byte of a buffer. *)
Theorem crc32buf_detects_one_byte (p s : list Z) (a b : Z) :
  Forall is_byte (p ++ a :: s) -> is_byte b -> a <> b ->
  crc32buf (p ++ a :: s) <> crc32buf (p ++ b :: s).
Proof.
  intros H Hb Hab Heq. apply Forall_app in H as [Hp [Ha Hs]%Forall_cons].
  unfold crc32buf in Heq. rewrite !fold_left_app in Heq. cbn [fold_left] in Heq.
  rewrite !(crc32buf_fold s), !(crc32buf_fold p), !UPDC32_spec in Heq by done.
  assert (0 <= fold_left crc_byte p 0xFFFFFFFF < 2 ^ 32) by (apply crc_fold_range; [done|lia]).
  apply crc_fold_inj in Heq; [|done|by apply crc_byte_range..].
  by apply crc_byte_inj_byte in Heq.
Qed.

Lemma crc32buf_detects_one_byte_witness :
  crc32buf ([1; 2] ++ 3 :: [4]) <> crc32buf ([1; 2] ++ 7 :: [4]).
Proof.
  apply crc32buf_detects_one_byte; [repeat constructor; unfold is_byte; lia | unfold is_byte; lia | lia].
Defined.

Lemma crc32buf_range l : Forall is_byte l -> 0 <= crc32buf l < 2 ^ 32.
Proof. intros H. unfold crc32buf. rewrite crc32buf_fold by done. apply crc_fold_range; [done|lia]. Qed.
