(* ===== verification/Trx.v ===== *)
(** * The trx image builders

    tools/trx/trx.c and tools/asustrx/asustrx.c: the option loop, the buffer
    that holds the image under construction, the placement of each input file,
    the ASUS footer, the rounding and the header.  The two programs differ in
    the macros that store and read a little-endian word only, so the model is a
    Section over those macros and the byte order of the host. *)

From S2P Require Import Prelude CLib Endian Crc32.

Definition EXIT_FAILURE : Z := 1.
Definition TRX_MAGIC : Z := 0x30524448.
Definition TRX_VERSION : Z := 1.
Definition TRX_MAX_LEN : Z := 0x9A0000.

(** [struct trx_header]: offsets of the fields of its 28 bytes. *)
Definition magic_at : Z := 0.
Definition len_at : Z := 4.
Definition crc32_at : Z := 8.
Definition flag_version_at : Z := 12.
Definition offsets_at (i : Z) : Z := 16 + 4 * i.
Definition sizeof_trx_header : Z := 28.

(** What the program finds outside: the content of each readable file, which
    files can be created, which allocations and writes succeed. *)
Record env := {
  e_read : list Z -> option (list Z);
  e_creat : list Z -> bool;
  e_alloc : Z -> bool;
  e_write : bool;
}.

(** The options as [getopt] returns them, with their [optarg]. *)
Inductive opt :=
| Opt_b (optarg : list Z)
| Opt_o (optarg : list Z)
| Opt_m (optarg : list Z)
| Opt_p (optarg : list Z)
| Opt_v (optarg : list Z)
| Opt_other.

(** The locals the option loop sets.  [trxtemp] is the memory of the struct. *)
Record opts := mkOpts {
  trxtemp : list Z;
  nSegementCount : Z;
  maxlen : Z;
  prod_id : list Z;
  version : list Z;
  ofn : option (list Z);
}.

Definition opts0 : opts := {|
  trxtemp := zrep sizeof_trx_header 0;
  nSegementCount := 0;
  maxlen := TRX_MAX_LEN;
  prod_id := zrep 12 0;
  version := [1; 9; 2; 7];
  ofn := None;
|}.

(** [usage ()] does not return. *)
Definition usage {A} : outcome A := Exit EXIT_FAILURE.

(** [(e == optarg) || *e] *)
Definition illegal (e optarg : list Z) : bool := streq e optarg || negb (streq e []).

(** The [while] loop of case 'v': [k] iterations are left, [n] is the index. *)
Fixpoint version_loop (k : nat) (n : Z) (optarg ver : list Z) : list Z * list Z :=
  match k with
  | O => (optarg, ver)
  | S k' =>
      let next a := let '(v, e, _) := strtoul a 10 in
                    version_loop k' (n + 1) e (splice n [u8 v] ver) in
      if n =? 0 then next optarg
      else match optarg with
           | 46 :: ((_ :: _) as r) => next r
           | _ => (optarg, ver)
           end
  end.

(** [struct asus]: version, product id, hardware list, padding. *)
Definition asus_bytes (s : opts) : list Z :=
  version s ++ prod_id s ++ [0; 2; 2; 99] ++ zrep 12 0 ++ zrep 32 0.
Definition sizeof_asus : Z := 64.

Section Builder.
(** The host's byte order, and the macros that convert a word to and from
    little-endian. *)
Variable big : bool.
Variables STORE32 READ32 : Z -> Z.
Variable E : env.

(** [p->field = STORE32 (v)] and [READ32 (p->field)], in memory. *)
Definition put32 (o v : Z) (buf : list Z) : outcome (list Z) :=
  bwrite o (host_bytes big 4 (STORE32 (u32 v))) buf.
Definition get32 (o : Z) (buf : list Z) : Z := READ32 (host_val big (slice o 4 buf)).

(** The switch of the option loop. *)
Definition do_opt (s : opts) (o : opt) : outcome opts :=
  match o with
  | Opt_b optarg =>
      let '(v, e, _) := strtoul optarg 0 in
      t ← put32 (offsets_at (nSegementCount s)) v (trxtemp s);
      let s' := {| trxtemp := t; nSegementCount := nSegementCount s + 1;
                   maxlen := maxlen s; prod_id := prod_id s;
                   version := version s; ofn := ofn s |} in
      if illegal e optarg then usage else Ok s'
  | Opt_o optarg =>
      Ok {| trxtemp := trxtemp s; nSegementCount := nSegementCount s;
            maxlen := maxlen s; prod_id := prod_id s;
            version := version s; ofn := Some optarg |}
  | Opt_m optarg =>
      let '(v, e, erange) := strtoul optarg 0 in
      if erange || illegal e optarg then usage else
      let r := Z.land v 0xfff in
      let v' := if r =? 0 then v else u64 (v + (0x1000 - r)) in
      if v' <? 0x1000 then usage else
      Ok {| trxtemp := trxtemp s; nSegementCount := nSegementCount s;
            maxlen := v'; prod_id := prod_id s;
            version := version s; ofn := ofn s |}
  | Opt_p optarg =>
      if 12 <? zlen optarg then usage else
      Ok {| trxtemp := trxtemp s; nSegementCount := nSegementCount s;
            maxlen := maxlen s; prod_id := splice 0 optarg (zrep 12 32);
            version := version s; ofn := ofn s |}
  | Opt_v optarg =>
      let '(e, ver) := version_loop 4 0 optarg (version s) in
      if streq e [] then
        Ok {| trxtemp := trxtemp s; nSegementCount := nSegementCount s;
              maxlen := maxlen s; prod_id := prod_id s;
              version := ver; ofn := ofn s |}
      else usage
  | Opt_other => usage
  end.

Fixpoint do_opts (s : opts) (l : list opt) : outcome opts :=
  match l with
  | [] => Ok s
  | o :: r => s' ← do_opt s o; do_opts s' r
  end.

(** The buffer with the header's first fields. *)
Definition init_buf (s : opts) : outcome (list Z) :=
  buf ← bwrite 0 (trxtemp s) (zrep (maxlen s) 0);
  buf ← put32 magic_at TRX_MAGIC buf;
  put32 flag_version_at (Z.shiftl TRX_VERSION 16) buf.

(** One iteration of the loop on the input files: the file's number, its
    path, whether another follows, the length so far and the buffer. *)
Definition place_file (max : Z) (i : Z) (path : list Z) (more : bool)
    (cur_len : Z) (buf : list Z) : outcome (Z * list Z) :=
  let off := get32 (offsets_at i) buf in
  '(cur_len, buf) ←
    (if off =? 0
     then buf' ← put32 (offsets_at i) cur_len buf; Ok (cur_len, buf')
     else if off <? cur_len then Exit EXIT_FAILURE else Ok (off, buf));
  match e_read E path with
  | None => usage
  | Some data =>
      if max <? cur_len then UB else
      if zlen data <? max - cur_len then
        buf ← bwrite cur_len data buf;
        let n := zlen data in
        let r := Z.land n 3 in
        '(n, buf) ←
          (if more && negb (r =? 0)
           then buf' ← bwrite (cur_len + n) (zrep (4 - r) 0) buf; Ok (n + (4 - r), buf')
           else Ok (n, buf));
        Ok (u32 (cur_len + n), buf)
      else Exit EXIT_FAILURE
  end.

Fixpoint place_files (max : Z) (i : Z) (paths : list (list Z))
    (cur_len : Z) (buf : list Z) : outcome (Z * list Z) :=
  match paths with
  | [] => Ok (cur_len, buf)
  | path :: r =>
      '(cur_len, buf) ← place_file max i path (negb (bool_decide (r = []))) cur_len buf;
      place_files max (i + 1) r cur_len buf
  end.

(** From the reservation of the footer to the [fwrite]. *)
Definition finish (s : opts) (cur_len : Z) (buf : list Z) : outcome (list Z) :=
  let footer := negb (znth (prod_id s) 0 =? 0) in
  let cur_len := if footer then u32 (cur_len + sizeof_asus) else cur_len in
  let n := Z.land cur_len 0xfff in
  '(cur_len, buf) ←
    (if n =? 0 then Ok (cur_len, buf)
     else buf' ← bwrite cur_len (zrep (0x1000 - n) 0) buf;
          Ok (u32 (cur_len + (0x1000 - n)), buf'));
  buf ← (if footer then bwrite (cur_len - sizeof_asus) (asus_bytes s) buf else Ok buf);
  covered ← bread flag_version_at (cur_len - flag_version_at) buf;
  buf ← put32 crc32_at (crc32buf covered) buf;
  buf ← put32 len_at cur_len buf;
  out ← bread 0 cur_len buf;
  if e_write E then Ok out else Exit EXIT_FAILURE.

(** [main]: the result is what is written to the output. *)
Definition main (options : list opt) (files : list (list Z)) : outcome (list Z) :=
  s ← do_opts opts0 options;
  (if match ofn s with Some f => negb (e_creat E f) | None => false end then usage else
   if zlen files =? 0 then usage else
   if 3 <? zlen files then usage else
   if negb (e_alloc E (maxlen s)) then Exit EXIT_FAILURE else
   buf ← init_buf s;
   '(cur_len, buf) ← place_files (maxlen s) 0 files sizeof_trx_header buf;
   finish s cur_len buf).
End Builder.

(** The macros of tools/trx/trx.c: [bswap_32] on a big-endian host. *)
Definition STORE32_LE (big : bool) (x : Z) : Z := if big then flip_endian x else x.
Definition READ32_LE (big : bool) (x : Z) : Z := if big then flip_endian x else x.
Definition trx_main (big : bool) : env -> list opt -> list (list Z) -> outcome (list Z) :=
  main big (STORE32_LE big) (READ32_LE big).

(** tools/asustrx/asustrx.c uses [htole32] and [le32toh]. *)
Definition asustrx_main (big : bool) : env -> list opt -> list (list Z) -> outcome (list Z) :=
  main big (htole32 big) (le32toh big).

(** A run: two small files, an ASUS product id and a 4 KiB buffer. *)
Definition demo_env : env := {|
  e_read := fun p => if streq p (str "a") then Some [1; 2; 3; 4; 5]
                     else if streq p (str "b") then Some [9; 8; 7] else None;
  e_creat := fun _ => true; e_alloc := fun _ => true; e_write := true |}.
Example demo_run :
  match trx_main false demo_env [Opt_m (str "1"); Opt_p (str "WL500g")] [str "a"; str "b"] with
  | Ok img => zlen img = 4096 /\ slice 0 4 img = str "HDR0" /\ slice 28 5 img = [1; 2; 3; 4; 5]
              /\ slice 36 3 img = [9; 8; 7] /\ slice 4032 10 img = [1; 9; 2; 7] ++ str "WL500g"
  | _ => False
  end.
Proof. vm_compute. repeat split. Qed.

(** ** The macros agree with memory: the interface both programs implement *)

Class LE32 (big : bool) (STORE READ : Z -> Z) : Prop := {
  store_le v : 0 <= v < 2 ^ 32 -> host_bytes big 4 (STORE v) = le_bytes 4 v;
  read_le v : 0 <= v < 2 ^ 32 -> READ (host_val big (le_bytes 4 v)) = v;
}.

(** [flip_endian] reverses the four bytes of a word. *)
Lemma flip_endian_spec v : 0 <= v < 2 ^ 32 -> flip_endian v = bswap32 v.
Proof.
  intros Hv. unfold flip_endian.
  change 0xff000000 with (Z.shiftl 255 24). change 0x00ff0000 with (Z.shiftl 255 16).
  change 0x0000ff00 with (Z.shiftl 255 8). change 0x0ff with (Z.ones 8).
  rewrite !mask_shift, Z.land_ones, bswap32_bits by lia. done.
Qed.

#[export] Instance asustrx_LE32 big : LE32 big (htole32 big) (le32toh big).
Proof.
  split; intros v Hv; destruct big;
    unfold host_bytes, host_val, htole32, le32toh, STORE32_LE, READ32_LE.
  - apply bswap32_bytes.
  - done.
  - by apply bswap32_involutive.
  - rewrite le_val_bytes32. by apply u32_small.
Qed.
#[export] Instance trx_LE32 big : LE32 big (STORE32_LE big) (READ32_LE big).
Proof.
  split; intros v Hv; destruct big;
    unfold host_bytes, host_val, htole32, le32toh, STORE32_LE, READ32_LE.
  - rewrite flip_endian_spec by done. apply bswap32_bytes.
  - done.
  - rewrite flip_endian_spec by apply bswap32_range. by apply bswap32_involutive.
  - rewrite le_val_bytes32. by apply u32_small.
Qed.

(** ** The image under construction *)

Section BuilderFacts.
Context (big : bool) (STORE READ : Z -> Z) `{HLE : LE32 big STORE READ} (E : env).

Lemma put32_Ok o v buf buf' :
  put32 big STORE o v buf = Ok buf' ->
  buf' = splice o (le_bytes 4 v) buf /\ 0 <= o /\ o + 4 <= zlen buf.
Proof.
  unfold put32. rewrite store_le by apply u32_range.
  rewrite (le_bytes_mod 4 v : le_bytes 4 (u32 v) = _). intros H.
  apply bwrite_Ok in H as (-> & ? & ?). rewrite zlen_le_bytes in *. done.
Qed.
Lemma put32_in o v buf :
  0 <= o -> o + 4 <= zlen buf -> put32 big STORE o v buf = Ok (splice o (le_bytes 4 v) buf).
Proof.
  intros. unfold put32. rewrite store_le by apply u32_range.
  rewrite (le_bytes_mod 4 v : le_bytes 4 (u32 v) = _).
  apply bwrite_in; rewrite ?zlen_le_bytes; lia.
Qed.
Lemma get32_le o buf v :
  slice o 4 buf = le_bytes 4 v -> 0 <= v < 2 ^ 32 -> get32 big READ o buf = v.
Proof. intros H Hv. unfold get32. rewrite H. by apply read_le. Qed.

(** The header's slots hold words, its fixed fields are set, and the length
    so far stays inside the buffer. *)
Definition slots (buf : list Z) : Prop :=
  forall j, 0 <= j < 3 -> exists o, 0 <= o < 2 ^ 32 /\ slice (offsets_at j) 4 buf = le_bytes 4 o.
Record wf (max cur : Z) (buf : list Z) : Prop := {
  wf_len : zlen buf = max;
  wf_cur : sizeof_trx_header <= cur <= max;
  wf_slots : slots buf;
  wf_magic : slice magic_at 4 buf = le_bytes 4 TRX_MAGIC;
  wf_version : slice flag_version_at 4 buf = le_bytes 4 (Z.shiftl TRX_VERSION 16);
}.
(** File [j]'s bytes are where its slot says, before [lim]. *)
Definition placed (j : Z) (data : list Z) (lim : Z) (buf : list Z) : Prop :=
  exists o, slice (offsets_at j) 4 buf = le_bytes 4 o /\
    sizeof_trx_header <= o < 2 ^ 32 /\ o + zlen data <= lim /\ slice o (zlen data) buf = data.

Ltac offs := unfold offsets_at, magic_at, flag_version_at, crc32_at, len_at,
               sizeof_trx_header in *.

(** Writes past the header and past the placed bytes leave both alone. *)
Lemma wf_write max cur p d buf :
  wf max cur buf -> sizeof_trx_header <= p -> p + zlen d <= max -> wf max cur (splice p d buf).
Proof.
  intros [Hl Hc Hs Hm Hv] Hp Hd. pose proof (zlen_nonneg d). offs. split.
  - rewrite zlen_splice; lia.
  - done.
  - intros j Hj. destruct (Hs j Hj) as (o & Ho & He). exists o. split; [done|].
    offs. rewrite slice_splice_ne; [done|lia..].
  - offs. rewrite slice_splice_ne; [done|lia..].
  - offs. rewrite slice_splice_ne; [done|lia..].
Qed.
Lemma placed_write j data lim p d buf :
  placed j data lim buf -> 0 <= j < 3 -> lim <= p -> p + zlen d <= zlen buf ->
  placed j data lim (splice p d buf).
Proof.
  intros (o & Hs & Ho & Hl & Hd) Hj Hp Hlen. pose proof (zlen_nonneg data).
  exists o. offs. rewrite !slice_splice_ne by lia. done.
Qed.
Lemma placed_header j data lim p v buf :
  placed j data lim buf -> 0 <= j < 3 -> 0 <= p -> p + 4 <= sizeof_trx_header ->
  lim <= zlen buf -> p + 4 <= offsets_at j \/ offsets_at j + 4 <= p ->
  placed j data lim (splice p (le_bytes 4 v) buf).
Proof.
  intros (o & Hs & Ho & Hl & Hd) Hj Hp Hlen Hlim Hne. pose proof (zlen_nonneg data).
  exists o. offs. rewrite !slice_splice_ne by (rewrite ?zlen_le_bytes; lia). done.
Qed.
Lemma placed_mono j data lim lim' buf :
  placed j data lim buf -> lim <= lim' -> placed j data lim' buf.
Proof. intros (o & ? & ? & ? & ?) ?. exists o. repeat split; try done; lia. Qed.

(** The first half of an iteration: the slot of file [i] is settled. *)
Lemma settle_slot max i cur buf cur1 buf1 :
  wf max cur buf -> 0 <= i < 3 -> max < 2 ^ 32 ->
  (let off := get32 big READ (offsets_at i) buf in
   if off =? 0
   then buf' ← put32 big STORE (offsets_at i) cur buf; Ok (cur, buf')
   else if off <? cur then Exit EXIT_FAILURE else Ok (off, buf)) = Ok (cur1, buf1) ->
  zlen buf1 = max /\ slots buf1 /\ slice magic_at 4 buf1 = le_bytes 4 TRX_MAGIC /\
  slice flag_version_at 4 buf1 = le_bytes 4 (Z.shiftl TRX_VERSION 16) /\
  cur <= cur1 < 2 ^ 32 /\ slice (offsets_at i) 4 buf1 = le_bytes 4 cur1 /\
  (forall j data, 0 <= j < 3 -> j <> i -> placed j data cur buf -> placed j data cur1 buf1).
Proof.
  intros [Hl Hc Hs Hm Hv] Hi Hmax.
  destruct (Hs i Hi) as (o & Ho & Hoe).
  cbv zeta. rewrite (get32_le _ _ o Hoe Ho).
  destruct (Z.eqb_spec o 0) as [->|Hne]; intros H.
  - inv_oks H. apply put32_Ok in Ha as (-> & Hp1 & Hp2).
    offs. split_and!; try lia.
    + rewrite zlen_splice; rewrite ?zlen_le_bytes; lia.
    + intros j Hj. destruct (decide (j = i)) as [->|Hji].
      * exists cur1. split; [lia|]. apply slice_splice_eq; rewrite ?zlen_le_bytes; offs; lia.
      * destruct (Hs j Hj) as (o' & Ho' & He'). exists o'. split; [done|]. offs.
        rewrite slice_splice_ne; [done|rewrite ?zlen_le_bytes; lia..].
    + rewrite slice_splice_ne; [done|rewrite ?zlen_le_bytes; lia..].
    + rewrite slice_splice_ne; [done|rewrite ?zlen_le_bytes; lia..].
    + apply slice_splice_eq; rewrite ?zlen_le_bytes; lia.
    + intros j data Hj Hji Hpl. apply placed_header; offs; try done; lia.
  - inv_oks H. apply Z.ltb_ge in E0. split_and!; try done; try lia.
    intros j data Hj Hji Hpl. by eapply placed_mono.
Qed.

Lemma place_file_step max i path more cur buf cur' buf' :
  wf max cur buf -> 0 <= i < 3 -> max < 2 ^ 32 ->
  place_file big STORE READ E max i path more cur buf = Ok (cur', buf') ->
  wf max cur' buf' /\
  (forall data, e_read E path = Some data -> placed i data cur' buf') /\
  (forall j data, 0 <= j < 3 -> j <> i -> placed j data cur buf -> placed j data cur' buf').
Proof.
  intros Hwf Hi Hmax H. unfold place_file in H.
  apply bind_Ok in H as ([cur1 buf1] & Hset & H).
  apply (settle_slot max) in Hset as (Hl & Hs & Hm & Hv & Hc1 & Hsi & Hpl); [|done..].
  destruct (e_read E path) as [data|]; [|done].
  destruct (max <? cur1) eqn:Hc; [done|]. apply Z.ltb_ge in Hc.
  destruct (zlen data <? max - cur1) eqn:Hd; [|done]. apply Z.ltb_lt in Hd.
  pose proof (wf_cur _ _ _ Hwf) as Hcur. pose proof (zlen_nonneg data).
  assert (28 <= cur1) by (offs; lia).
  assert (wf max cur1 buf1) as Hwf1 by (split; [done|lia|done..]).
  apply bind_Ok in H as (buf2 & Hb & H). apply bwrite_Ok in Hb as (-> & _ & _).
  assert (wf max (cur1 + zlen data) (splice cur1 data buf1)) as Hwf2.
  { destruct (wf_write max cur1 cur1 data buf1 Hwf1) as [? [? ?] ? ? ?]; [lia..|].
    split; try done. lia. }
  assert (placed i data (cur1 + zlen data) (splice cur1 data buf1)) as Hpi.
  { exists cur1. offs. rewrite slice_splice_ne by lia.
    rewrite slice_splice_eq by lia. split_and!; try done; lia. }
  assert (forall j d, 0 <= j < 3 -> j <> i -> placed j d cur buf ->
            placed j d (cur1 + zlen data) (splice cur1 data buf1)) as Hpj.
  { intros j d Hj Hji Hp. apply (placed_mono j d cur1); [|lia].
    apply placed_write; auto; lia. }
  set (r := Z.land (zlen data) 3) in *. cbv zeta in H.
  destruct (more && negb (r =? 0)) eqn:Hmore.
  - apply bind_Ok in H as ([n2 buf2] & Hb & H). apply bind_Ok in Hb as (buf3 & Hb & Hn2).
    injection Hn2 as <- <-. injection H as <- <-. apply bwrite_Ok in Hb as (-> & _ & Hpad).
    rewrite zlen_rep in Hpad. rewrite (wf_len _ _ _ Hwf2) in Hpad.
    assert (0 <= r < 4) by (unfold r; change 3 with (Z.ones 2); rewrite Z.land_ones by lia;
                            apply Z.mod_pos_bound; lia).
    rewrite u32_small by lia.
    set (p := cur1 + zlen data) in *.
    assert (wf max p (splice p (zrep (4 - r) 0) (splice cur1 data buf1))) as Hwf3.
    { apply wf_write; [done|offs; unfold p; lia|rewrite zlen_rep; unfold p; lia]. }
    split_and!.
    + destruct Hwf3 as [? [? ?] ? ? ?]. split; try done. unfold p in *. lia.
    + intros d [= <-]. apply (placed_mono i data p); [|unfold p; lia].
      apply placed_write; [done..|]. rewrite zlen_rep, (wf_len _ _ _ Hwf2). unfold p in *. lia.
    + intros j d Hj Hji Hp. apply (placed_mono j d p); [|unfold p; lia].
      apply placed_write; auto; [lia|]. rewrite zlen_rep, (wf_len _ _ _ Hwf2). unfold p in *. lia.
  - injection H as <- <-. rewrite u32_small by lia. split_and!; auto.
    intros d [= <-]. done.
Qed.

(** The loop: [pre] holds the files placed so far. *)
Lemma place_files_spec max paths i cur buf cur' buf' :
  wf max cur buf -> 0 <= i -> i + zlen paths <= 3 -> max < 2 ^ 32 ->
  place_files big STORE READ E max i paths cur buf = Ok (cur', buf') ->
  wf max cur' buf' /\
  (forall j d, 0 <= j < i -> placed j d cur buf -> placed j d cur' buf') /\
  (forall k path d, paths !! k = Some path -> e_read E path = Some d ->
     placed (i + Z.of_nat k) d cur' buf').
Proof.
  revert i cur buf. induction paths as [|path paths IH]; intros i cur buf Hwf Hi Hn Hmax H.
  - cbn in H. simplify_eq. split_and!; try done.
  - cbn [place_files] in H. rewrite zlen_cons in Hn. pose proof (zlen_nonneg paths).
    apply bind_Ok in H as ([cur1 buf1] & H1 & H).
    apply place_file_step in H1 as (Hwf1 & Hp1 & Hpj); [|done|lia|done].
    apply IH in H as (Hwf' & Hold & Hnew); [|done|lia..].
    split_and!; [done| |].
    + intros j d Hj Hp. apply Hold; [lia|]. apply Hpj; [lia..|done].
    + intros [|k] p d Hk Hd; cbn in Hk.
      * simplify_eq. rewrite Z.add_0_r. apply Hold; [lia|]. by apply Hp1.
      * replace (i + Z.of_nat (S k)) with (i + 1 + Z.of_nat k) by lia. by eapply Hnew.
Qed.

(** The options leave a header of words and a page-aligned buffer size. *)
Record opts_ok (s : opts) : Prop := {
  ok_temp : zlen (trxtemp s) = sizeof_trx_header;
  ok_slots : slots (trxtemp s);
  ok_count : 0 <= nSegementCount s;
  ok_max : 0x1000 <= maxlen s;
  ok_page : maxlen s mod 0x1000 = 0;
  ok_prod : zlen (prod_id s) = 12;
  ok_ver : zlen (version s) = 4;
}.

Lemma opts0_ok : opts_ok opts0.
Proof.
  split; try done. intros j Hj. exists 0. split; [lia|]. unfold trxtemp, opts0, offsets_at.
  rewrite slice_rep by (unfold sizeof_trx_header; lia). done.
Qed.

Lemma version_loop_len k n a ver e ver' :
  0 <= n -> n + Z.of_nat k <= zlen ver -> version_loop k n a ver = (e, ver') ->
  zlen ver' = zlen ver.
Proof.
  revert n a ver. induction k as [|k IH]; intros n a ver Hn Hk H; cbn [version_loop] in H.
  { by simplify_eq. }
  assert (forall a', (let '(v, e0, _) := strtoul a' 10 in
                      version_loop k (n + 1) e0 (splice n [u8 v] ver)) = (e, ver') ->
                     zlen ver' = zlen ver) as Hnext.
  { intros a' H'. destruct (strtoul a' 10) as [[v e0] er].
    pose proof (zlen_splice n [u8 v] ver Hn) as Hl. rewrite zlen_cons, zlen_nil in Hl.
    apply IH in H'; lia. }
  destruct (n =? 0); [by eapply Hnext|].
  repeat match type of H with context [match ?x with _ => _ end] => is_var x; destruct x end;
    solve [by simplify_eq | by eapply Hnext].
Qed.

Lemma round_page v :
  let r := Z.land v 0xfff in
  let v' := if r =? 0 then v else u64 (v + (0x1000 - r)) in
  v' mod 0x1000 = 0.
Proof.
  cbv zeta. replace (Z.land v 0xfff) with (v mod 0x1000)
    by (change 0xfff with (Z.ones 12); by rewrite Z.land_ones by lia).
  destruct (Z.eqb_spec (v mod 0x1000) 0) as [?|_]; [done|].
  unfold u64. change (2 ^ 64) with (0x1000 * 2 ^ 52).
  rewrite Z.rem_mul_r, (Z.mul_comm 0x1000), Z.mod_add, Z.mod_mod by lia. dlia.
Qed.


Lemma slots_put o v t :
  slots t -> zlen t = sizeof_trx_header -> offsets_at 0 <= o -> (o - 16) mod 4 = 0 ->
  o + 4 <= sizeof_trx_header -> slots (splice o (le_bytes 4 v) t).
Proof.
  intros Hs Hl Ho Hm Ho2 j Hj. offs. destruct (decide (16 + 4 * j = o)) as [<-|Hne].
  - exists (u32 v). split; [apply u32_range|].
    rewrite slice_splice_eq by (rewrite ?zlen_le_bytes; lia).
    symmetry. apply (le_bytes_mod 4 v).
  - destruct (Hs j Hj) as (o' & Ho' & He). exists o'. split; [done|]. offs.
    rewrite slice_splice_ne; [done|rewrite ?zlen_le_bytes; dlia..].
Qed.

Lemma do_opt_ok s o s' : opts_ok s -> do_opt big STORE s o = Ok s' -> opts_ok s'.
Proof.
  intros [Ht Hs Hc Hmx Hpg Hp Hv] H. destruct o as [a|a|a|a|a|]; cbn [do_opt] in H; [| | | | |done].
  - destruct (strtoul a 0) as [[v e] er]. apply bind_Ok in H as (t & Hput & H).
    apply put32_Ok in Hput as (-> & Ho & Ho2). destruct (illegal e a); [done|].
    injection H as <-. split; cbn; try done.
    + rewrite zlen_splice by (rewrite ?zlen_le_bytes; lia). done.
    + apply slots_put; offs; try done; try lia. dlia.
    + lia.
  - injection H as <-. by split.
  - destruct (strtoul a 0) as [[v e] er]. destruct (er || illegal e a); [done|]. cbv zeta in H.
    pose proof (round_page v) as Hr. cbv zeta in Hr.
    set (v' := if Z.land v 0xfff =? 0 then v else u64 (v + (0x1000 - Z.land v 0xfff))) in *.
    destruct (v' <? 0x1000) eqn:Hlt; [done|]. apply Z.ltb_ge in Hlt.
    injection H as <-. by split.
  - destruct (12 <? zlen a) eqn:Hlt; [done|]. apply Z.ltb_ge in Hlt.
    injection H as <-. split; cbn; try done. rewrite zlen_splice; [done|lia|].
    change (zlen (zrep 12 32)) with 12. lia.
  - destruct (version_loop 4 0 a (version s)) as [e ver] eqn:Hvl. destruct (streq e []); [|done].
    injection H as <-. apply version_loop_len in Hvl; [|lia..]. split; cbn; try done. lia.
Qed.
Lemma do_opts_ok l s s' : opts_ok s -> do_opts big STORE s l = Ok s' -> opts_ok s'.
Proof.
  revert s. induction l as [|o l IH]; intros s Hs H; cbn in H; [by simplify_eq|].
  apply bind_Ok in H as (s1 & H1 & H). eauto using do_opt_ok.
Qed.

Lemma init_buf_wf s buf :
  opts_ok s -> init_buf big STORE s = Ok buf -> wf (maxlen s) sizeof_trx_header buf.
Proof.
  intros [Ht Hs Hc Hmx Hpg Hp Hv] H. unfold init_buf in H.
  apply bind_Ok in H as (b1 & H1 & H). apply bwrite_Ok in H1 as (-> & _ & Hl).
  apply bind_Ok in H as (b2 & H2 & H). apply put32_Ok in H2 as (-> & _ & Hl2).
  apply put32_Ok in H as (-> & _ & Hl3).
  rewrite zlen_rep in Hl. offs.
  set (b0 := splice 0 (trxtemp s) (zrep (maxlen s) 0)) in *.
  assert (zlen b0 = maxlen s) as Hb0 by (unfold b0; rewrite zlen_splice; rewrite ?zlen_rep; lia).
  assert (forall o, 0 <= o -> o + 4 <= 28 -> slice o 4 b0 = slice o 4 (trxtemp s)) as Hb0s.
  { intros o Ho Ho4. unfold b0.
    rewrite slice_splice_in by (rewrite ?zlen_rep; lia). by rewrite Z.sub_0_r. }
  assert (zlen (splice 0 (le_bytes 4 TRX_MAGIC) b0) = maxlen s) as Hb1
    by (rewrite zlen_splice; rewrite ?zlen_le_bytes; lia).
  split.
  - rewrite zlen_splice; rewrite ?zlen_le_bytes; lia.
  - offs. lia.
  - intros j Hj. destruct (Hs j Hj) as (o & Ho & He). exists o. split; [done|]. offs.
    rewrite !slice_splice_ne by (rewrite ?zlen_le_bytes; lia). rewrite Hb0s by lia. done.
  - offs. rewrite slice_splice_ne by (rewrite ?zlen_le_bytes; lia).
    apply slice_splice_eq; rewrite ?zlen_le_bytes; lia.
  - offs. apply slice_splice_eq; rewrite ?zlen_le_bytes; lia.
Qed.

(** What a reader of the image relies on. *)
Record trx_image (img : list Z) : Prop := {
  img_page : zlen img mod 0x1000 = 0;
  img_magic : slice magic_at 4 img = str "HDR0";
  img_len : le_val (slice len_at 4 img) = zlen img;
  img_crc : le_val (slice crc32_at 4 img) = u32 (crc32buf (zdrop flag_version_at img));
  img_version : le_val (slice flag_version_at 4 img) = Z.shiftl TRX_VERSION 16;
}.

(** [finish], step by step: the length grows to a page, the writes stay
    between the files and the end. *)
Lemma finish_steps s cur buf img :
  opts_ok s -> maxlen s < 2 ^ 32 -> wf (maxlen s) cur buf ->
  finish big STORE E s cur buf = Ok img ->
  exists cur2 buf3,
    cur <= cur2 <= maxlen s /\ cur2 mod 0x1000 = 0 /\ wf (maxlen s) cur buf3 /\
    (forall j d, 0 <= j < 3 -> placed j d cur buf -> placed j d cur buf3) /\
    img = slice 0 cur2 (splice len_at (le_bytes 4 cur2)
            (splice crc32_at (le_bytes 4 (crc32buf (slice flag_version_at (cur2 - flag_version_at) buf3))) buf3)).
Proof.
  intros Hok Hmax Hwf H. pose proof (wf_cur _ _ _ Hwf) as Hcur. pose proof (ok_page _ Hok) as Hpage.
  unfold finish in H. cbv zeta in H.
  set (footer := negb (znth (prod_id s) 0 =? 0)) in *.
  set (cur1 := if footer then u32 (cur + sizeof_asus) else cur) in *.
  assert (cur1 = if footer then cur + 64 else cur) as Hc1.
  { unfold cur1. destruct footer; [|done]. apply u32_small. unfold sizeof_asus. offs. dlia. }
  assert (Z.land cur1 0xfff = cur1 mod 0x1000) as Hn
    by (change 0xfff with (Z.ones 12); by rewrite Z.land_ones by lia).
  rewrite Hn in H. apply bind_Ok in H as ([cur2 buf2] & Hpad & H).
  assert (cur1 <= cur2 /\ cur2 mod 0x1000 = 0 /\ wf (maxlen s) cur buf2 /\
          (forall j d, 0 <= j < 3 -> placed j d cur buf -> placed j d cur buf2)) as (Hc2 & Hm2 & Hwf2 & Hp2).
  { destruct (Z.eqb_spec (cur1 mod 0x1000) 0) as [Hz|Hz].
    - injection Hpad as <- <-. split_and!; auto; lia.
    - apply bind_Ok in Hpad as (b & Hb & Hpad). injection Hpad as <- <-.
      apply bwrite_Ok in Hb as (-> & Hb1 & Hb2). pose proof (wf_len _ _ _ Hwf) as Hl.
      rewrite Hl, zlen_rep in Hb2. rewrite u32_small by dlia. split_and!; [dlia|dlia| |].
      + apply wf_write; [done|offs; destruct footer; lia|]. rewrite zlen_rep. lia.
      + intros j d Hj Hp. apply placed_write; [done..|destruct footer; lia|].
        rewrite zlen_rep. lia. }
  apply bind_Ok in H as (buf3 & Hfoot & H).
  assert (wf (maxlen s) cur buf3 /\
          (forall j d, 0 <= j < 3 -> placed j d cur buf -> placed j d cur buf3)) as [Hwf3 Hp3].
  { destruct footer; [|injection Hfoot as <-; auto].
    apply bwrite_Ok in Hfoot as (-> & Hb1 & Hb2). pose proof (wf_len _ _ _ Hwf2) as Hl.
    unfold sizeof_asus in *. split.
    - apply wf_write; [done|offs; lia|lia].
    - intros j d Hj Hp. apply placed_write; [auto|done|lia..]. }
  apply bind_Ok in H as (cov & Hcov & H). apply bread_Ok in Hcov as (-> & _ & _ & Hcov).
  apply bind_Ok in H as (b1 & H1 & H). apply put32_Ok in H1 as (-> & _ & _).
  apply bind_Ok in H as (b2 & H2 & H). apply put32_Ok in H2 as (-> & _ & _).
  apply bind_Ok in H as (o & Ho & H). apply bread_Ok in Ho as (-> & _ & _ & Ho).
  destruct (e_write E); [|done]. injection H as <-.
  exists cur2, buf3. rewrite (wf_len _ _ _ Hwf3) in Hcov. offs.
  split_and!; try done; destruct footer; lia.
Qed.

Lemma finish_image s cur buf img :
  opts_ok s -> maxlen s < 2 ^ 32 -> wf (maxlen s) cur buf ->
  finish big STORE E s cur buf = Ok img ->
  trx_image img /\ cur <= zlen img <= maxlen s /\
  (forall j d, 0 <= j < 3 -> placed j d cur buf -> placed j d cur img).
Proof.
  intros Hok Hmax Hwf H. apply finish_steps in H as (cur2 & b & Hc & Hm & Hwfb & Hp & ->); [|done..].
  set (crc := crc32buf _) in *. pose proof (wf_len _ _ _ Hwfb) as Hl.
  pose proof (wf_cur _ _ _ Hwfb) as Hcur. pose proof (wf_magic _ _ _ Hwfb) as Hmg.
  pose proof (wf_version _ _ _ Hwfb) as Hvs. offs.
  set (b1 := splice 8 (le_bytes 4 crc) b). set (b2 := splice 4 (le_bytes 4 cur2) b1).
  assert (zlen b1 = maxlen s) as Hl1 by (unfold b1; rewrite zlen_splice; rewrite ?zlen_le_bytes; lia).
  assert (zlen b2 = maxlen s) as Hl2 by (unfold b2; rewrite zlen_splice; rewrite ?zlen_le_bytes; lia).
  assert (zlen (slice 0 cur2 b2) = cur2) as Hli by (apply zlen_slice; lia).
  assert (forall o n, 0 <= o -> 0 <= n -> o + n <= cur2 ->
            slice o n (slice 0 cur2 b2) = slice o n b2) as Hs.
  { intros o n ???. rewrite slice_slice by lia. done. }
  assert (forall o n, 0 <= o -> 0 <= n -> o + n <= 4 \/ 12 <= o -> o + n <= cur2 ->
            slice o n b2 = slice o n b) as Hb.
  { intros o n ????. unfold b2, b1.
    rewrite !slice_splice_ne; rewrite ?zlen_splice; rewrite ?zlen_le_bytes; try lia; done. }
  assert (zdrop 12 (slice 0 cur2 b2) = slice 12 (cur2 - 12) b) as Hcov.
  { rewrite <- (Hb 12 (cur2 - 12)), <- (Hs 12 (cur2 - 12)) by lia.
    symmetry. apply slice_to_end; rewrite Hli; lia. }
  split_and!; [|rewrite Hli; lia..|].
  - split; offs.
    + by rewrite Hli.
    + rewrite Hs, Hb by lia. rewrite Hmg. reflexivity.
    + rewrite Hli, Hs by lia. unfold b2.
      rewrite slice_splice_eq by (rewrite ?zlen_le_bytes; lia).
      rewrite le_val_bytes32. apply u32_small. lia.
    + rewrite Hcov, Hs by lia. unfold b2, b1.
      rewrite slice_splice_ne by (rewrite ?zlen_splice; rewrite ?zlen_le_bytes; lia).
      rewrite slice_splice_eq by (rewrite ?zlen_le_bytes; lia).
      by rewrite le_val_bytes32.
    + rewrite Hs, Hb by lia. rewrite Hvs. reflexivity.
  - intros j d Hj Hpl. destruct (Hp j d Hj Hpl) as (o & Hso & Ho & Hod & Hd).
    pose proof (zlen_nonneg d). exists o. offs.
    rewrite !Hs, !Hb by lia. done.
Qed.

(** Options whose [-m] fits the 32-bit lengths of the format. *)
Definition sane_max (o : opt) : Prop :=
  match o with Opt_m a => fst (fst (strtoul a 0)) <= 2 ^ 32 - 0x1000 | _ => True end.


Lemma do_opt_max s o s' :
  sane_max o -> maxlen s < 2 ^ 32 -> do_opt big STORE s o = Ok s' -> maxlen s' < 2 ^ 32.
Proof.
  intros Hsane Hs H. destruct o as [a|a|a|a|a|]; cbn [do_opt sane_max] in *; [| | | | |done].
  - destruct (strtoul a 0) as [[v e] er]. apply bind_Ok in H as (t & _ & H).
    destruct (illegal e a); [done|]. by injection H as <-.
  - by injection H as <-.
  - destruct (strtoul a 0) as [[v e] er] eqn:Hst. apply strtoul_range in Hst; [|done].
    destruct (er || illegal e a); [done|]. cbv zeta in H. cbn [fst] in Hsane.
    assert (0 <= Z.land v 0xfff < 0x1000) as Hr
      by (change 0xfff with (Z.ones 12); rewrite Z.land_ones by lia; apply Z.mod_pos_bound; lia).
    destruct (_ <? 0x1000) in H; [done|]. injection H as <-. cbn [maxlen].
    destruct (Z.eqb_spec (Z.land v 0xfff) 0); [lia|]. rewrite u64_small; lia.
  - destruct (12 <? zlen a); [done|]. by injection H as <-.
  - destruct (version_loop 4 0 a (version s)) as [e ver]. destruct (streq e []); [|done].
    by injection H as <-.
Qed.
Lemma do_opts_max l s s' :
  Forall sane_max l -> maxlen s < 2 ^ 32 -> do_opts big STORE s l = Ok s' -> maxlen s' < 2 ^ 32.
Proof.
  intros Hl. revert s. induction Hl as [|o l Ho _ IH]; intros s Hs H; cbn in H; [by simplify_eq|].
  apply bind_Ok in H as (s1 & H1 & H). eauto using do_opt_max.
Qed.

(** A successful run, as its parts. *)
Lemma main_parts options files img :
  Forall sane_max options -> main big STORE READ E options files = Ok img ->
  exists s cur buf0 buf,
    opts_ok s /\ maxlen s < 2 ^ 32 /\ zlen files <= 3 /\
    wf (maxlen s) sizeof_trx_header buf0 /\
    place_files big STORE READ E (maxlen s) 0 files sizeof_trx_header buf0 = Ok (cur, buf) /\
    finish big STORE E s cur buf = Ok img.
Proof.
  intros Hsane H. unfold main in H. apply bind_Ok in H as (s & Hs & H).
  assert (opts_ok s) as Hok by eauto using do_opts_ok, opts0_ok.
  assert (maxlen s < 2 ^ 32) by (eapply do_opts_max; [done| |done]; done).
  destruct (match ofn s with Some _ => _ | None => _ end); [done|].
  destruct (zlen files =? 0); [done|]. destruct (3 <? zlen files) eqn:Hn; [done|].
  apply Z.ltb_ge in Hn. destruct (negb (e_alloc E (maxlen s))); [done|].
  apply bind_Ok in H as (buf0 & Hb & H). apply bind_Ok in H as ([cur buf] & Hp & H).
  exists s, cur, buf0, buf. split_and!; try done. by apply init_buf_wf.
Qed.

Lemma main_image options files img :
  Forall sane_max options -> main big STORE READ E options files = Ok img -> trx_image img.
Proof.
  intros Hsane H. apply main_parts in H as (s & cur & b0 & b & Hok & Hmax & Hn & Hwf & Hp & Hf); [|done].
  apply place_files_spec in Hp as (Hwf' & _ & _); [|done|lia..].
  by apply finish_image in Hf as (? & _ & _).
Qed.

Lemma main_content options files img :
  Forall sane_max options -> main big STORE READ E options files = Ok img ->
  forall k path d, files !! k = Some path -> e_read E path = Some d ->
  let o := le_val (slice (offsets_at (Z.of_nat k)) 4 img) in
  sizeof_trx_header <= o /\ o + zlen d <= zlen img /\ slice o (zlen d) img = d.
Proof.
  intros Hsane H k path d Hk Hd.
  apply main_parts in H as (s & cur & b0 & b & Hok & Hmax & Hn & Hwf & Hp & Hf); [|done].
  apply place_files_spec in Hp as (Hwf' & _ & Hnew); [|done|lia..].
  specialize (Hnew k path d Hk Hd). rewrite Z.add_0_l in Hnew.
  apply finish_image in Hf as (_ & Hl & Hpl); [|done..].
  apply lookup_lt_Some in Hk. unfold zlen in Hn.
  apply Hpl in Hnew as (o & Hso & Ho & Hod & Hdat); [|lia].
  cbv zeta. rewrite Hso, le_val_bytes32, u32_small by (offs; lia). offs. split_and!; try done; lia.
Qed.
End BuilderFacts.

(** ** Any two implementations of the macros build the same image *)

Lemma bind_ext {A B} (m : outcome A) (f g : A -> outcome B) :
  (forall a, m = Ok a -> f a = g a) -> (m ≫= f) = (m ≫= g).
Proof. destruct m; cbn; auto. Qed.

Section Agree.
Context (b1 b2 : bool) (S1 R1 S2 R2 : Z -> Z) `{!LE32 b1 S1 R1} `{!LE32 b2 S2 R2} (E : env).

Lemma put32_agree o v buf : put32 b1 S1 o v buf = put32 b2 S2 o v buf.
Proof. unfold put32. by rewrite !store_le by apply u32_range. Qed.
Lemma get32_agree o buf v :
  slice o 4 buf = le_bytes 4 v -> 0 <= v < 2 ^ 32 -> get32 b1 R1 o buf = get32 b2 R2 o buf.
Proof. intros H Hv. unfold get32. rewrite H. by rewrite !read_le. Qed.

Lemma do_opts_agree l s : do_opts b1 S1 s l = do_opts b2 S2 s l.
Proof.
  revert s. induction l as [|o l IH]; intros s; [done|]. cbn [do_opts].
  assert (do_opt b1 S1 s o = do_opt b2 S2 s o) as ->.
  { destruct o; cbn [do_opt]; try done.
    destruct (strtoul optarg 0) as [[v e] er]. by rewrite put32_agree. }
  apply bind_ext. auto.
Qed.
Lemma place_file_agree max i path more cur buf :
  slots buf -> 0 <= i < 3 ->
  place_file b1 S1 R1 E max i path more cur buf = place_file b2 S2 R2 E max i path more cur buf.
Proof.
  intros Hs Hi. unfold place_file. destruct (Hs i Hi) as (o & Ho & He).
  rewrite (get32_agree _ _ _ He Ho). by rewrite put32_agree.
Qed.
Lemma place_files_agree max paths i cur buf :
  wf max cur buf -> 0 <= i -> i + zlen paths <= 3 -> max < 2 ^ 32 ->
  place_files b1 S1 R1 E max i paths cur buf = place_files b2 S2 R2 E max i paths cur buf.
Proof.
  revert i cur buf. induction paths as [|p paths IH]; intros i cur buf Hwf Hi Hn Hmax; [done|].
  rewrite zlen_cons in Hn. pose proof (zlen_nonneg paths). cbn [place_files].
  rewrite place_file_agree by (try lia; apply Hwf).
  apply bind_ext. intros [c b] Hp. apply IH; [|lia..].
  by apply (place_file_step b2 S2 R2) in Hp as (? & _ & _); [|done|lia|done].
Qed.
Lemma finish_agree s cur buf : finish b1 S1 E s cur buf = finish b2 S2 E s cur buf.
Proof.
  unfold finish. apply bind_ext. intros [c b] _. apply bind_ext. intros b' _.
  apply bind_ext. intros cov _. rewrite put32_agree. apply bind_ext. intros b'' _.
  by rewrite put32_agree.
Qed.
Lemma main_agree options files :
  Forall sane_max options -> main b1 S1 R1 E options files = main b2 S2 R2 E options files.
Proof.
  intros Hsane. unfold main. rewrite do_opts_agree. apply bind_ext. intros s Hs.
  assert (opts_ok s) by exact (do_opts_ok b2 S2 R2 _ _ _ opts0_ok Hs).
  assert (maxlen s < 2 ^ 32) by exact (do_opts_max b2 S2 _ opts0 _ Hsane eq_refl Hs).
  destruct (match ofn s with Some _ => _ | None => _ end); [done|].
  destruct (zlen files =? 0); [done|]. destruct (Z.ltb_spec 3 (zlen files)) as [|Hn]; [done|].
  destruct (negb (e_alloc E (maxlen s))); [done|].
  assert (init_buf b1 S1 s = init_buf b2 S2 s) as ->.
  { unfold init_buf. apply bind_ext. intros ? _. rewrite put32_agree.
    apply bind_ext. intros ? _. apply put32_agree. }
  apply bind_ext. intros buf Hb. rewrite place_files_agree; [|by apply (init_buf_wf b2 S2 R2)|lia..].
  apply bind_ext. intros [c b] _. apply finish_agree.
Qed.
End Agree.

(** ** Memory safety *)

Section Safety.
Context (big : bool) (STORE READ : Z -> Z) `{HLE : LE32 big STORE READ} (E : env).

(** Options that neither place a segment nor add the footer. *)
Definition plain (o : opt) : Prop :=
  match o with Opt_b _ | Opt_p _ => False | _ => True end.

Lemma do_opt_plain s o :
  plain o ->
  do_opt big STORE s o <> UB /\
  (forall s', do_opt big STORE s o = Ok s' -> trxtemp s' = trxtemp s /\ prod_id s' = prod_id s).
Proof.
  intros Hpl. destruct o as [a|a|a|a|a|]; try done; cbn [do_opt].
  - split; [done|]. by intros s' [= <-].
  - destruct (strtoul a 0) as [[v e] er]. destruct (er || illegal e a); [done|]. cbv zeta.
    destruct (_ <? 0x1000); [done|]. split; [done|]. by intros s' [= <-].
  - destruct (version_loop 4 0 a (version s)) as [e ver]. destruct (streq e []); [|done].
    split; [done|]. by intros s' [= <-].
Qed.
Lemma do_opts_plain l s :
  Forall plain l ->
  do_opts big STORE s l <> UB /\
  (forall s', do_opts big STORE s l = Ok s' -> trxtemp s' = trxtemp s /\ prod_id s' = prod_id s).
Proof.
  intros Hl. revert s. induction Hl as [|o l Ho _ IH]; intros s; cbn [do_opts].
  - split; [done|]. by intros s' [= <-].
  - destruct (do_opt_plain s o Ho) as [Hub Hok].
    destruct (do_opt big STORE s o) as [s1|c|]; cbn; [|done..].
    destruct (Hok s1 eq_refl) as [Ht Hp]. destruct (IH s1) as [IHub IHok]. split; [done|].
    intros s' Hs'. destruct (IHok s' Hs'). split; congruence.
Qed.

(** The slots from [i] on are still zero. *)
Definition fresh (i : Z) (buf : list Z) : Prop :=
  forall j, i <= j < 3 -> slice (offsets_at j) 4 buf = le_bytes 4 0.

Lemma place_file_safe max i path more cur buf :
  wf max cur buf -> 0 <= i < 3 -> max < 2 ^ 32 -> max mod 4 = 0 -> cur mod 4 = 0 -> fresh i buf ->
  place_file big STORE READ E max i path more cur buf <> UB /\
  (forall cur' buf', place_file big STORE READ E max i path more cur buf = Ok (cur', buf') ->
     fresh (i + 1) buf' /\ (more = true -> cur' mod 4 = 0)).
Proof.
  intros Hwf Hi Hmax Hm4 Hc4 Hf. pose proof (wf_len _ _ _ Hwf) as Hl.
  pose proof (wf_cur _ _ _ Hwf) as Hcur. unfold place_file. cbv zeta.
  rewrite (get32_le big STORE READ _ _ 0 (Hf i ltac:(lia))) by lia. cbn [Z.eqb].
  unfold sizeof_trx_header in *.
  rewrite (put32_in big STORE READ) by (unfold offsets_at; lia). cbn.
  destruct (e_read E path) as [data|]; [|done].
  destruct (Z.ltb_spec max cur); [lia|].
  destruct (Z.ltb_spec (zlen data) (max - cur)) as [Hd|Hd]; [|done].
  pose proof (zlen_nonneg data).
  set (b1 := splice (offsets_at i) (le_bytes 4 cur) buf).
  assert (zlen b1 = max) as Hl1
    by (unfold b1; rewrite zlen_splice; unfold offsets_at; rewrite ?zlen_le_bytes; lia).
  assert (fresh (i + 1) b1) as Hf1.
  { intros j Hj. unfold b1. rewrite slice_splice_ne; unfold offsets_at in *;
      rewrite ?zlen_le_bytes; try lia. apply Hf. lia. }
  assert (forall p d b, zlen b = max -> 28 <= p -> p + zlen d <= max -> fresh (i + 1) b ->
            fresh (i + 1) (splice p d b)) as Hfw.
  { intros p d b Hb Hp Hpd Hfb j Hj. rewrite slice_splice_ne by (unfold offsets_at; lia). by apply Hfb. }
  rewrite bwrite_in by lia. cbn.
  assert (zlen (splice cur data b1) = max) as Hl2 by (rewrite zlen_splice; lia).
  assert (Z.land (zlen data) 3 = zlen data mod 4) as Hr
    by (change 3 with (Z.ones 2); by rewrite Z.land_ones by lia).
  rewrite Hr. destruct (Z.eqb_spec (zlen data mod 4) 0) as [Hz|Hz].
  - rewrite andb_false_r. cbn. split; [done|]. intros cur' buf' [= <- <-].
    split; [apply Hfw; auto; lia|]. intros _. rewrite u32_small by lia. dlia.
  - destruct more; cbn.
    + rewrite bwrite_in by (rewrite ?zlen_rep, ?Hl2; dlia). cbn. split; [done|].
      intros cur' buf' [= <- <-]. split.
      * apply Hfw; [done|lia|rewrite zlen_rep; dlia|]. apply Hfw; auto; lia.
      * intros _. rewrite u32_small by dlia. dlia.
    + split; [done|]. intros cur' buf' [= <- <-]. split; [apply Hfw; auto; lia|done].
Qed.

Lemma place_files_safe max paths i cur buf :
  wf max cur buf -> 0 <= i -> i + zlen paths <= 3 -> max < 2 ^ 32 -> max mod 4 = 0 ->
  (paths <> [] -> cur mod 4 = 0) -> fresh i buf ->
  place_files big STORE READ E max i paths cur buf <> UB.
Proof.
  revert i cur buf.
  induction paths as [|p paths IH]; intros i cur buf Hwf Hi Hn Hmax Hm4 Hc4 Hf; [done|].
  rewrite zlen_cons in Hn. pose proof (zlen_nonneg paths). cbn [place_files].
  destruct (place_file_safe max i p (negb (bool_decide (paths = []))) cur buf) as [Hub Hok];
    [done|lia|done|done|by apply Hc4|done|].
  destruct (place_file _ _ _ _ _ _ _ _ _ _) as [[c b]| |] eqn:Hp; cbn; [|done..].
  destruct (Hok c b eq_refl) as [Hf' Hc']. apply IH; try done; try lia.
  - by apply (place_file_step big STORE READ) in Hp as (? & _ & _); [|done|lia|done].
  - intros Hne. apply Hc'. by rewrite bool_decide_eq_false_2.
Qed.

Lemma init_buf_in s :
  opts_ok s -> trxtemp s = trxtemp opts0 ->
  exists buf, init_buf big STORE s = Ok buf /\ fresh 0 buf.
Proof.
  intros Hok Ht. pose proof (ok_max _ Hok). unfold init_buf.
  assert (zlen (trxtemp opts0) = 28) as Hz by done. rewrite Ht.
  rewrite bwrite_in by (rewrite ?zlen_rep; lia). bsimpl.
  set (b0 := splice 0 (trxtemp opts0) (zrep (maxlen s) 0)).
  assert (zlen b0 = maxlen s) as Hl0 by (unfold b0; rewrite zlen_splice; rewrite ?zlen_rep; lia).
  rewrite (put32_in big STORE READ) by (unfold magic_at; lia). bsimpl.
  set (b1 := splice magic_at _ b0).
  assert (zlen b1 = maxlen s) as Hl1
    by (unfold b1, magic_at; rewrite zlen_splice; rewrite ?zlen_le_bytes; lia).
  rewrite (put32_in big STORE READ) by (unfold flag_version_at; lia).
  eexists. split; [done|]. intros j Hj. unfold b1, flag_version_at, magic_at, offsets_at.
  rewrite !slice_splice_ne by (rewrite ?zlen_splice; rewrite ?zlen_le_bytes; lia).
  unfold b0. rewrite slice_splice_in by (rewrite ?zlen_rep; lia).
  unfold opts0, trxtemp. by rewrite slice_rep by (unfold sizeof_trx_header; lia).
Qed.

Lemma finish_safe s cur buf :
  opts_ok s -> maxlen s < 2 ^ 32 -> wf (maxlen s) cur buf -> prod_id s = prod_id opts0 ->
  finish big STORE E s cur buf <> UB.
Proof.
  intros Hok Hmax Hwf Hp. pose proof (wf_len _ _ _ Hwf) as Hl. pose proof (wf_cur _ _ _ Hwf) as Hcur.
  pose proof (ok_page _ Hok) as Hpg. unfold sizeof_trx_header in *.
  unfold finish. rewrite Hp. change (znth (prod_id opts0) 0) with 0. cbv zeta. cbn [Z.eqb negb].
  assert (Z.land cur 0xfff = cur mod 0x1000) as ->
    by (change 0xfff with (Z.ones 12); by rewrite Z.land_ones by lia).
  assert (forall c b, zlen b = maxlen s -> 12 <= c <= maxlen s ->
    (covered ← bread flag_version_at (c - flag_version_at) b;
     b ← put32 big STORE crc32_at (crc32buf covered) b;
     b ← put32 big STORE len_at c b;
     out ← bread 0 c b;
     if e_write E then Ok out else Exit EXIT_FAILURE) <> UB) as Htail.
  { intros c b Hb Hc. unfold flag_version_at, crc32_at, len_at.
    rewrite bread_in by lia. cbn.
    rewrite (put32_in big STORE READ) by lia. cbn.
    rewrite (put32_in big STORE READ) by (rewrite ?zlen_splice; rewrite ?zlen_le_bytes; lia). cbn.
    rewrite bread_in; [|lia..|].
    - cbn. by destruct (e_write E).
    - rewrite !zlen_splice; rewrite ?zlen_splice; rewrite ?zlen_le_bytes; lia. }
  destruct (Z.eqb_spec (cur mod 0x1000) 0) as [Hz|Hz]; bsimpl.
  - apply Htail; lia.
  - rewrite bwrite_in by (rewrite ?zlen_rep; dlia). bsimpl.
    rewrite u32_small by dlia. apply Htail; [rewrite zlen_splice; rewrite ?zlen_rep; dlia|dlia].
Qed.
End Safety.

(** ** Properties *)

(** C2: an image trx writes is a whole number of 4 KiB pages that starts with
    the magic "HDR0" and the version, whose little-endian length field is its
    length and whose CRC field is [crc32buf] of everything from [flag_version]
    on, on hosts of either byte order. *)
Theorem trx_main_image (big : bool) (E : env) (options : list opt) (files : list (list Z)) (img : list Z) :
  Forall sane_max options -> trx_main big E options files = Ok img -> trx_image img.
Proof. apply main_image, trx_LE32. Qed.

Lemma trx_main_image_witness :
  exists img, trx_main false demo_env [Opt_m (str "1")] [str "a"; str "b"] = Ok img /\ trx_image img.
Proof.
  eexists. split; [vm_compute; reflexivity|].
  eapply (trx_main_image false demo_env [Opt_m (str "1")] [str "a"; str "b"]).
  - constructor; [|constructor]. vm_compute. discriminate.
  - vm_compute. reflexivity.
Defined.

(** C7: the content of every input file is in the image trx writes, unchanged,
    at the offset the header's slot for that file holds. *)
Theorem trx_main_content (big : bool) (E : env) (options : list opt) (files : list (list Z))
    (img : list Z) (k : nat) (path d : list Z) :
  Forall sane_max options -> trx_main big E options files = Ok img ->
  files !! k = Some path -> e_read E path = Some d ->
  let o := le_val (slice (offsets_at (Z.of_nat k)) 4 img) in
  sizeof_trx_header <= o /\ o + zlen d <= zlen img /\ slice o (zlen d) img = d.
Proof.
  intros Hs H Hk Hd. exact (main_content big _ _ (HLE := trx_LE32 big) E options files img Hs H k path d Hk Hd).
Qed.

Lemma trx_main_content_witness :
  exists img, trx_main true demo_env [Opt_m (str "1"); Opt_p (str "WL")] [str "a"; str "b"] = Ok img /\
    slice (le_val (slice (offsets_at 1) 4 img)) 3 img = [9; 8; 7].
Proof.
  eexists. split; [vm_compute; reflexivity|].
  eapply (trx_main_content true demo_env [Opt_m (str "1"); Opt_p (str "WL")] [str "a"; str "b"]
            _ 1 (str "b") [9; 8; 7]).
  - constructor; [vm_compute; discriminate|]. by repeat constructor.
  - vm_compute. reflexivity.
  - reflexivity.
  - reflexivity.
Defined.

(** trx on a host of either byte order and asustrx on a host of either
    byte order behave alike: the same image, exit status or undefined
    behaviour on the same options and files. *)
Theorem trx_asustrx_agree (big big' : bool) (E : env) (options : list opt) (files : list (list Z)) :
  Forall sane_max options -> trx_main big E options files = asustrx_main big' E options files.
Proof. apply main_agree; [apply trx_LE32 | apply asustrx_LE32]. Qed.

Lemma trx_asustrx_agree_witness :
  trx_main true demo_env [Opt_b (str "32"); Opt_v (str "1.2.3.4")] [str "a"]
  = asustrx_main false demo_env [Opt_b (str "32"); Opt_v (str "1.2.3.4")] [str "a"].
Proof. apply trx_asustrx_agree. by repeat constructor. Defined.

(** without [-b] and [-p], whatever the files and the other options are,
    trx never accesses memory outside its buffers. *)
Theorem trx_main_safe (big : bool) (E : env) (options : list opt) (files : list (list Z)) :
  Forall sane_max options -> Forall plain options -> trx_main big E options files <> UB.
Proof.
  intros Hsane Hplain. unfold trx_main, main.
  destruct (do_opts_plain big (STORE32_LE big) options opts0 Hplain) as [Hub Hok].
  destruct (do_opts big (STORE32_LE big) opts0 options) as [s| |] eqn:Hs; cbn; [|done..].
  destruct (Hok s eq_refl) as [Ht Hp].
  pose proof (do_opts_ok big (STORE32_LE big) (READ32_LE big) _ _ _ opts0_ok Hs) as Hsok.
  pose proof (do_opts_max big (STORE32_LE big) _ opts0 _ Hsane eq_refl Hs) as Hmax.
  pose proof (ok_page _ Hsok).
  destruct (match ofn s with Some _ => _ | None => _ end); [done|].
  destruct (zlen files =? 0); [done|]. destruct (Z.ltb_spec 3 (zlen files)); [done|].
  destruct (negb (e_alloc E (maxlen s))); [done|].
  destruct (init_buf_in big (STORE32_LE big) (READ32_LE big) s Hsok Ht) as (buf & Hb & Hf).
  pose proof (init_buf_wf big (STORE32_LE big) (READ32_LE big) _ _ Hsok Hb) as Hwf.
  rewrite Hb. cbn.
  pose proof (place_files_safe big (STORE32_LE big) (READ32_LE big) E (maxlen s) files 0
                sizeof_trx_header buf Hwf) as Hsafe.
  destruct (place_files _ _ _ _ _ _ _ _ _) as [[cur b]| |] eqn:Hpf; cbn; [|done|].
  - apply (place_files_spec big (STORE32_LE big) (READ32_LE big)) in Hpf as (Hwf' & _ & _); [|done|lia..].
    apply (finish_safe big (STORE32_LE big) (READ32_LE big)); [done..|]. by rewrite Hp.
  - exfalso. apply Hsafe; [lia..|dlia|done|done|done].
Qed.

Lemma trx_main_safe_witness :
  trx_main false demo_env [Opt_m (str "0x1000"); Opt_o (str "out")] [str "a"; str "b"; str "c"] <> UB.
Proof. apply trx_main_safe; repeat constructor. vm_compute. discriminate. Defined.

(** the footer is not counted against the size of the buffer.  With a
    product id, when the files leave fewer than 64 bytes of a page-aligned
    buffer, trx writes past the end of the buffer. *)
Theorem trx_footer_overflow (big : bool) (E : env) (s : opts) (cur_len : Z) (buf : list Z) :
  znth (prod_id s) 0 <> 0 -> zlen buf = maxlen s -> maxlen s mod 0x1000 = 0 ->
  maxlen s < 2 ^ 32 -> maxlen s - sizeof_asus < cur_len <= maxlen s -> 0 <= cur_len ->
  finish big (STORE32_LE big) E s cur_len buf = UB.
Proof.
  unfold sizeof_asus. intros Hp Hl Hpg Hmax Hc Hc0. unfold finish.
  rewrite (proj2 (Z.eqb_neq _ _) Hp). cbn [negb]. cbv zeta. unfold sizeof_asus.
  rewrite u32_small by dlia.
  assert (Z.land (cur_len + 64) 0xfff = (cur_len + 64) mod 0x1000) as ->
    by (change 0xfff with (Z.ones 12); by rewrite Z.land_ones by lia).
  destruct (Z.eqb_spec ((cur_len + 64) mod 0x1000) 0) as [Hz|Hz]; [exfalso; dlia|].
  rewrite bwrite_out; [done|]. rewrite zlen_rep. dlia.
Qed.

(** A 4028-byte file and a product id reach it from [main]. *)
Lemma trx_footer_overflow_witness :
  finish false (STORE32_LE false) demo_env
    {| trxtemp := zrep 28 0; nSegementCount := 0; maxlen := 4096; prod_id := str "WL500g      ";
       version := [1; 9; 2; 7]; ofn := None |} 4056 (zrep 4096 0) = UB /\
  trx_main false {| e_read := fun _ => Some (zrep 4028 1); e_creat := fun _ => true;
                    e_alloc := fun _ => true; e_write := true |}
    [Opt_m (str "4096"); Opt_p (str "WL500g")] [str "f"] = UB.
Proof.
  split; [|vm_compute; reflexivity].
  apply trx_footer_overflow; cbn [prod_id maxlen]; vm_compute; repeat split; discriminate.
Defined.
