(* ===== verification/HttpPages.v ===== *)
(** * The pages of target/sbin/upgrade/http_input.c

    [http_templ] and the functions that fill it, as the bytes they print. *)

From S2P Require Import Prelude CLib.

Definition CRLF : list Z := [CR; LF].

(** The vendor and device of the build, when it defines them. *)
Section Pages.
Variable PAGE_TITLE : list Z.

Definition http_templ (status_code status hdrs title html : list Z) : list Z :=
str "HTTP/1.1 " ++ status_code ++ str " " ++ status ++ CRLF ++
str "Date: Thu, 19 Feb 2009 12:27:04 GMT" ++ CRLF ++
str "Server: upgrade utility (ZRouter.org)" ++ CRLF ++
str "Last-Modified: Wed, 18 Jun 2003 16:05:58 GMT" ++ CRLF ++
str "Content-Type: text/html" ++ CRLF ++ hdrs ++ str "Connection: close" ++ CRLF ++ CRLF ++
str "<!DOCTYPE html PUBLIC " ++ [QUOTE] ++ str "-//W3C//DTD XHTML 1.0 Strict//EN" ++
[QUOTE] ++ str " " ++ [QUOTE] ++ str "http://www.w3.org/TR/xhtml1/DTD/xhtml1-strict.dtd" ++
[QUOTE] ++ str ">" ++ CRLF ++ str "<html xmlns=" ++ [QUOTE] ++
str "http://www.w3.org/1999/xhtml" ++ [QUOTE] ++ str " xml:lang=" ++ [QUOTE] ++ str "en" ++
[QUOTE] ++ str " " ++ str "lang=" ++ [QUOTE] ++ str "en" ++ [QUOTE] ++ str ">" ++ CRLF ++
str "  <head>" ++ CRLF ++ str "    <title>" ++ title ++ str "</title>" ++ CRLF ++
str "    <meta http-equiv=" ++ [QUOTE] ++ str "Content-Type" ++ [QUOTE] ++ str " content=" ++
[QUOTE] ++ str "text/html; " ++ str "charset=utf-8" ++ [QUOTE] ++ str " />" ++ CRLF ++
str "    <link rel=" ++ [QUOTE] ++ str "Help" ++ [QUOTE] ++ str " href=" ++ [QUOTE] ++
str "http://www.zrouter.org/" ++ [QUOTE] ++ str " />" ++ CRLF ++ str "    <style type=" ++
[QUOTE] ++ str "text/css" ++ [QUOTE] ++ str ">" ++ CRLF ++ str "/*<![CDATA[*/" ++ CRLF ++
str "BODY {" ++ CRLF ++ str "    color: black;" ++ CRLF ++ str "    background: white;" ++
CRLF ++ str "}" ++ CRLF ++ CRLF ++ str "P.error {" ++ CRLF ++ str "    color: red;" ++
CRLF ++ str "}" ++ CRLF ++ CRLF ++ str "/*]]>*/" ++ CRLF ++ str "    </style>" ++ CRLF ++
str "  </head>" ++ CRLF ++ str "  <body>" ++ CRLF ++ str "    <center>" ++ CRLF ++ html ++
CRLF ++ str "    </center>" ++ CRLF ++ str "  </body>" ++ CRLF ++ str "</html>" ++ CRLF.

Definition http_index : list Z :=
http_templ (str "200") (str "OK") [] PAGE_TITLE (
str "<h1>" ++ PAGE_TITLE ++ str "</h1>" ++ CRLF ++
str "<p>Select file with Firmware image.</p>" ++ CRLF ++ str "<form method=" ++ [QUOTE] ++
str "POST" ++ [QUOTE] ++ str " enctype=" ++ [QUOTE] ++ str "multipart/form-data" ++
[QUOTE] ++ str ">" ++ CRLF ++ str "  <input type=" ++ [QUOTE] ++ str "file" ++ [QUOTE] ++
str " name=" ++ [QUOTE] ++ str "firmware" ++ [QUOTE] ++ str ">" ++ CRLF ++
str "  <input type=" ++ [QUOTE] ++ str "submit" ++ [QUOTE] ++ str ">" ++ CRLF ++
str "</form>" ++ CRLF).

Definition http_ok : list Z :=
http_templ (str "200") (str "OK") [] PAGE_TITLE (
str "<h1>" ++ PAGE_TITLE ++ str "</h1>" ++ CRLF ++
str "<p>Firmware image transferred successfully.</p>" ++ CRLF ++
str "<p>Update procedure started.</p>" ++ CRLF).

(** [snprintf] into 255 bytes keeps at most 254 characters. *)
Definition WWW_Auth (realm : list Z) : list Z :=
ztake 254 (
str "WWW-Authenticate: Basic realm=" ++ [QUOTE] ++ realm ++ [QUOTE] ++ CRLF).

Definition http_unauth (realm : list Z) : list Z :=
http_templ (str "401") (str "Unauthorized") (WWW_Auth realm) PAGE_TITLE (
str "<h1>" ++ PAGE_TITLE ++ str "</h1>" ++ CRLF ++ str "<p>Authorization required.</p>" ++
CRLF ++ str "<p>Specify correct username and password.</p>" ++ CRLF).

Definition http_fail : list Z :=
http_templ (str "200") (str "OK") [] PAGE_TITLE (
str "<h1>" ++ PAGE_TITLE ++ str "</h1>" ++ CRLF ++
str "<p>Firmware image transferr failed.</p>" ++ CRLF ++ str "<p>Please try again.</p>" ++
CRLF).

Definition http_error (msg : list Z) : list Z :=
http_templ (str "200") (str "OK") [] PAGE_TITLE msg.
End Pages.
