(* ===== verification/RingBuffer.v ===== *)
(** * The upload window of target/sbin/upgrade/http_input.c

    [local_write] and [local_close] (the 1 KiB write buffer in front of the
    output descriptor) and the 256-byte ring buffer that holds back the end of
    the upload until the closing boundary marker is recognised.  Every write on
    the descriptor is taken to be complete. *)

From S2P Require Import Prelude CLib.

Definition WRB_SIZE : Z := 1024.
Definition RING_BUFFER_SIZE : Z := 256.

(** [wrbuf] up to [wrb_p], and what the output descriptor has received. *)
Record writer := mkWriter { wrb : list Z; fd_out : list Z }.
Definition wrb_p (w : writer) : Z := zlen (wrb w).

Definition flush (w : writer) : writer := {| wrb := []; fd_out := fd_out w ++ wrb w |}.

(** [local_write (fd, buf, count)], [buf] holding [count] bytes. *)
Definition local_write (buf : list Z) (w : writer) : writer :=
  if 1 <? zlen buf then
    let w := if 0 <? wrb_p w then flush w else w in
    {| wrb := wrb w; fd_out := fd_out w ++ buf |}
  else
    let w := if wrb_p w =? WRB_SIZE then flush w else w in
    {| wrb := wrb w ++ [znth buf 0]; fd_out := fd_out w |}.

Definition local_close (w : writer) : writer := flush w.

Record rbuffer := mkRb {
  curr : Z;
  total : Z;
  matched : Z;
  boundary_len : Z;
  rb_filesize : Z;
  rb_buf : list Z;
  rb_boundary : list Z;
}.

Definition DASH : Z := 45.

(** [ring_buffer_init], its two allocations succeeding or not. *)
Definition ring_buffer_init (alloc1 alloc2 : bool) (boundary : list Z) : option rbuffer :=
  if alloc1 && alloc2 then
    Some {| curr := 0; total := 0; matched := 0; rb_filesize := 0;
            rb_buf := zrep RING_BUFFER_SIZE 0;
            boundary_len := zlen boundary + 2;
            rb_boundary := DASH :: DASH :: boundary ++ [0] |}
  else None.

(** One step of the comparison with the marker. *)
Definition match_step (marker : list Z) (m ch : Z) : Z :=
  if ch =? znth marker m then m + 1 else 0.

Definition ring_buffer_append (rb : rbuffer) (ch : Z) (w : writer) : bool * rbuffer * writer :=
  let curr' := (curr rb + 1) mod RING_BUFFER_SIZE in
  let full := RING_BUFFER_SIZE <=? total rb in
  let filesize' := if full then u32 (rb_filesize rb + 1) else rb_filesize rb in
  let w' := if full then local_write [znth (rb_buf rb) curr'] w else w in
  let matched' := match_step (rb_boundary rb) (matched rb) ch in
  let rb' := {| curr := curr'; total := u32 (total rb + 1); matched := matched';
                boundary_len := boundary_len rb; rb_filesize := filesize';
                rb_buf := splice curr' [ch] (rb_buf rb);
                rb_boundary := rb_boundary rb |} in
  (matched' =? boundary_len rb, rb', w').

Definition ring_buffer_get_filesize (rb : rbuffer) : Z := rb_filesize rb.

(** The [for] loop of [ring_buffer_drain], at most [k] iterations; [None] when
    they do not suffice. *)
Fixpoint drain_loop (k : nat) (buf : list Z) (i last fs : Z) (w : writer) : option (Z * writer) :=
  if i =? last then Some (fs, w)
  else match k with
       | O => None
       | S k' => drain_loop k' buf ((i + 1) mod RING_BUFFER_SIZE) last (u32 (fs + 1))
                   (local_write [znth buf i] w)
       end.

Definition ring_buffer_drain (rb : rbuffer) (w : writer) : option (rbuffer * writer) :=
  let last := (curr rb + RING_BUFFER_SIZE - boundary_len rb) mod RING_BUFFER_SIZE in
  let prev := (last + RING_BUFFER_SIZE - 1) mod RING_BUFFER_SIZE in
  let last := if znth (rb_buf rb) prev =? CR then prev else last in
  let done_with fs w :=
    ({| curr := curr rb; total := total rb; matched := matched rb;
        boundary_len := boundary_len rb; rb_filesize := fs;
        rb_buf := rb_buf rb; rb_boundary := rb_boundary rb |}, w) in
  if total rb <? RING_BUFFER_SIZE then
    Some (done_with (u32 (rb_filesize rb + total rb)) (local_write (slice 1 (total rb) (rb_buf rb)) w))
  else
    match drain_loop 256 (rb_buf rb) ((curr rb + 1) mod RING_BUFFER_SIZE) last (rb_filesize rb) w with
    | Some (fs, w) => Some (done_with fs w)
    | None => None
    end.

(** ** The writer is a FIFO *)

(** Everything handed to the writer so far, in order. *)
Definition stream (w : writer) : list Z := fd_out w ++ wrb w.
Definition writer_ok (w : writer) : Prop := wrb_p w <= WRB_SIZE.

Lemma local_write_ok buf w : writer_ok w -> writer_ok (local_write buf w).
Proof.
  unfold writer_ok, local_write, flush, wrb_p, WRB_SIZE. intros H.
  destruct (1 <? zlen buf).
  - destruct (Z.ltb_spec 0 (zlen (wrb w))); cbn [wrb]; [rewrite zlen_nil|]; lia.
  - destruct (Z.eqb_spec (zlen (wrb w)) 1024); cbn [wrb]; zlen.
Qed.
Lemma local_write_stream buf w : buf <> [] -> stream (local_write buf w) = stream w ++ buf.
Proof.
  intros Hb. unfold stream, local_write, flush, wrb_p. destruct (Z.ltb_spec 1 (zlen buf)) as [Hl|Hl].
  - destruct (Z.ltb_spec 0 (zlen (wrb w))) as [Hw|Hw]; cbn [wrb fd_out].
    + by rewrite app_nil_r.
    + destruct (wrb w) as [|b r]; [by rewrite !app_nil_r|].
      rewrite zlen_cons in Hw. pose proof (zlen_nonneg r). lia.
  - destruct buf as [|b [|b' r]]; [done| |rewrite !zlen_cons in Hl; pose proof (zlen_nonneg r); lia].
    destruct (Z.eqb_spec (zlen (wrb w)) WRB_SIZE); cbn [wrb fd_out app]; by rewrite ?app_assoc.
Qed.
Lemma local_close_out w : fd_out (local_close w) = stream w.
Proof. done. Qed.

(** ** The ring holds the last 256 bytes *)

(** [rb] and [w] after the bytes [s] were appended to an empty ring in front
    of a writer whose stream was [out]. *)
Record holds (out s : list Z) (rb : rbuffer) (w : writer) : Prop := {
  h_curr : curr rb = zlen s mod 256;
  h_total : total rb = zlen s;
  h_len : zlen (rb_buf rb) = 256;
  h_win : forall i, Z.max 0 (zlen s - 256) <= i < zlen s ->
          znth (rb_buf rb) ((i + 1) mod 256) = znth s i;
  h_fs : rb_filesize rb = Z.max 0 (zlen s - 256);
  h_stream : stream w = out ++ ztake (zlen s - 256) s;
}.

Lemma znth_splice l i j x :
  0 <= i < zlen l -> 0 <= j -> znth (splice i [x] l) j = if j =? i then x else znth l j.
Proof.
  intros Hi Hj. assert (splice i [x] l = <[Z.to_nat i := x]> l) as ->.
  { unfold splice, ztake, zdrop, zlen in *. cbn [length].
    replace (Z.to_nat (i + Z.of_nat 1)) with (S (Z.to_nat i)) by lia.
    symmetry. apply insert_take_drop. lia. }
  unfold znth, zlen in *. rewrite !nth_lookup. destruct (Z.eqb_spec j i) as [->|Hne].
  - by rewrite list_lookup_insert_eq by lia.
  - by rewrite list_lookup_insert_ne by lia.
Qed.
Lemma znth_app l1 l2 i : 0 <= i -> znth (l1 ++ l2) i = if i <? zlen l1 then znth l1 i else znth l2 (i - zlen l1).
Proof.
  intros Hi. unfold znth, zlen in *. destruct (Z.ltb_spec i (Z.of_nat (length l1))).
  - apply app_nth1. lia.
  - rewrite app_nth2 by lia. f_equal. lia.
Qed.
Lemma ztake_succ l i : 0 <= i < zlen l -> ztake (i + 1) l = ztake i l ++ [znth l i].
Proof.
  intros Hi. unfold ztake, znth, zlen in *.
  replace (Z.to_nat (i + 1)) with (S (Z.to_nat i)) by lia.
  rewrite (take_S_r _ _ (nth (Z.to_nat i) l 0)); [done|].
  rewrite nth_lookup. destruct (l !! Z.to_nat i) eqn:E; [done|].
  apply lookup_ge_None in E. lia.
Qed.
Lemma ztake_app_le {A} i (l1 l2 : list A) : i <= zlen l1 -> ztake i (l1 ++ l2) = ztake i l1.
Proof. intros. unfold ztake, zlen in *. apply take_app_le. lia. Qed.
Lemma ztake_neg {A} i (l : list A) : i <= 0 -> ztake i l = [].
Proof. intros. unfold ztake. by replace (Z.to_nat i) with 0%nat by lia. Qed.

Lemma holds_init al1 al2 boundary rb w :
  ring_buffer_init al1 al2 boundary = Some rb -> holds (stream w) [] rb w.
Proof.
  unfold ring_buffer_init. destruct (al1 && al2); [|done]. intros [= <-].
  split; try done.
  - intros i Hi. unfold zlen in Hi. cbn [length] in Hi. lia.
  - unfold ztake. by rewrite take_nil, app_nil_r.
Qed.

Lemma append_holds out s rb w ch found rb' w' :
  holds out s rb w -> zlen s < 2 ^ 32 - 1 ->
  ring_buffer_append rb ch w = (found, rb', w') ->
  holds out (s ++ [ch]) rb' w'.
Proof.
  intros [Hc Ht Hl Hw Hf Hs] Hlen H. unfold ring_buffer_append, RING_BUFFER_SIZE in H.
  injection H as _ <- <-. pose proof (zlen_nonneg s).
  assert (zlen (s ++ [ch]) = zlen s + 1) as Hn by (rewrite zlen_app, zlen_cons, zlen_nil; lia).
  assert ((curr rb + 1) mod 256 = (zlen s + 1) mod 256) as Hc'
    by (rewrite Hc; dlia).
  split; cbn [curr total rb_buf rb_filesize]; rewrite ?Hn, ?Hc'.
  - done.
  - rewrite Ht. apply u32_small. lia.
  - rewrite zlen_splice; rewrite ?zlen_cons, ?zlen_nil; dlia.
  - intros i Hi. rewrite znth_splice by dlia. rewrite znth_app by lia.
    destruct (Z.ltb_spec i (zlen s)).
    + rewrite (proj2 (Z.eqb_neq _ _)) by dlia. apply Hw. lia.
    + replace i with (zlen s) by lia. rewrite Z.eqb_refl, Z.sub_diag. done.
  - rewrite Ht, Hf. destruct (Z.leb_spec 256 (zlen s)); [rewrite u32_small|]; lia.
  - rewrite Ht. destruct (Z.leb_spec 256 (zlen s)) as [Hfull|Hnf].
    + rewrite local_write_stream by done. rewrite Hs, <- app_assoc. f_equal.
      replace (zlen s + 1 - 256) with (zlen s - 256 + 1) by lia.
      rewrite ztake_app_le by lia. rewrite ztake_succ by lia. do 2 f_equal.
      rewrite <- (Hw (zlen s - 256)) by lia. f_equal. dlia.
    + rewrite Hs. rewrite !ztake_neg by lia. done.
Qed.

(** ** What the drain writes *)

Lemma drain_loop_spec (k : nat) buf s i j fs w :
  (forall p, i <= p < j -> znth buf ((p + 1) mod 256) = znth s p) ->
  0 <= i <= j -> j <= zlen s -> j - i <= Z.of_nat k -> j - i < 256 -> 0 <= fs -> fs + (j - i) < 2 ^ 32 ->
  exists w', drain_loop k buf ((i + 1) mod 256) ((j + 1) mod 256) fs w = Some (fs + (j - i), w') /\
             stream w' = stream w ++ slice i (j - i) s /\ (writer_ok w -> writer_ok w').
Proof.
  revert i fs w. induction k as [|k IH]; intros i fs w Hbuf Hij Hj Hk Hd Hfs Hfs2; cbn [drain_loop].
  - replace j with i by lia. rewrite Z.eqb_refl. exists w.
    replace (fs + (i - i)) with fs by lia. unfold slice. rewrite ztake_neg by lia.
    by rewrite app_nil_r.
  - destruct (Z.eqb_spec ((i + 1) mod 256) ((j + 1) mod 256)) as [He|He].
    + assert (i = j) as -> by dlia. exists w. replace (fs + (j - j)) with fs by lia.
      unfold slice. rewrite ztake_neg by lia. by rewrite app_nil_r.
    + assert (i < j) by (destruct (Z.eq_dec i j) as [->|]; [done|lia]).
      unfold RING_BUFFER_SIZE. replace (((i + 1) mod 256 + 1) mod 256) with ((i + 1 + 1) mod 256) by dlia.
      rewrite u32_small by lia.
      destruct (IH (i + 1) (fs + 1) (local_write [znth buf ((i + 1) mod 256)] w)) as (w' & Hw' & Hst & Hok);
        [intros p Hp; apply Hbuf; lia|lia..|].
      exists w'. split_and!.
      * rewrite Hw'. do 2 f_equal. lia.
      * rewrite Hst, local_write_stream, <- app_assoc by done. f_equal.
        rewrite Hbuf by lia. unfold slice.
        replace (ztake (j - i) (zdrop i s)) with (ztake (j - i) (znth s i :: zdrop (i + 1) s)).
        -- unfold ztake. replace (Z.to_nat (j - i)) with (S (Z.to_nat (j - (i + 1)))) by lia. done.
        -- f_equal. unfold zdrop, znth, zlen in *.
           replace (Z.to_nat (i + 1)) with (S (Z.to_nat i)) by lia.
           symmetry. apply drop_S. rewrite nth_lookup.
           destruct (s !! Z.to_nat i) eqn:E; [done|]. apply lookup_ge_None in E. lia.
      * intros ?. by apply Hok, local_write_ok.
Qed.

(** ** The file size never exceeds what was written *)

Record counted (rb : rbuffer) (w : writer) : Prop := {
  ct_fs : 0 <= rb_filesize rb <= zlen (stream w);
  ct_total : 0 <= total rb;
  ct_len : zlen (rb_buf rb) = RING_BUFFER_SIZE;
}.

Lemma counted_init boundary rb w : ring_buffer_init true true boundary = Some rb -> counted rb w.
Proof. intros [= <-]. split; cbn; [pose proof (zlen_nonneg (stream w)); lia|done|done]. Qed.

Lemma u32_le x : 0 <= x -> 0 <= u32 x <= x.
Proof. intros. unfold u32. split; [apply Z.mod_pos_bound; lia|by apply Z.mod_le]. Qed.

Lemma local_write_1 c w : zlen (stream (local_write [c] w)) = zlen (stream w) + 1.
Proof. rewrite local_write_stream by done. by rewrite zlen_app. Qed.

Lemma counted_append rb ch w found rb' w' :
  counted rb w -> ring_buffer_append rb ch w = (found, rb', w') -> counted rb' w'.
Proof.
  intros [Hf Ht Hl] [= <- <- <-]. split; cbn [rb_filesize total rb_buf].
  - destruct (RING_BUFFER_SIZE <=? total rb); [|done]. rewrite local_write_1. pose proof (u32_le (rb_filesize rb + 1)). lia.
  - apply u32_le. lia.
  - unfold RING_BUFFER_SIZE in *. rewrite zlen_splice; rewrite ?zlen_cons, ?zlen_nil; dlia.
Qed.

Lemma counted_drain_loop k buf i last fs w fs' w' :
  drain_loop k buf i last fs w = Some (fs', w') -> 0 <= fs <= zlen (stream w) -> 0 <= fs' <= zlen (stream w').
Proof.
  revert i fs w. induction k as [|k IH]; intros i fs w H Hf; cbn [drain_loop] in H.
  - destruct (i =? last); [by injection H as <- <-|done].
  - destruct (i =? last); [by injection H as <- <-|]. apply IH in H; [done|].
    rewrite local_write_1. pose proof (u32_le (fs + 1)). lia.
Qed.

Lemma counted_drain rb w rb' w' :
  counted rb w -> ring_buffer_drain rb w = Some (rb', w') -> 0 <= ring_buffer_get_filesize rb' <= zlen (stream w').
Proof.
  intros [Hf Ht Hl] H. unfold ring_buffer_drain in H. destruct (Z.ltb_spec (total rb) RING_BUFFER_SIZE) as [Hs|_].
  - injection H as <- <-. cbn [ring_buffer_get_filesize rb_filesize].
    pose proof (u32_le (rb_filesize rb + total rb)). destruct (Z.eqb_spec (total rb) 0) as [H0|H0].
    + rewrite H0 in *. assert (zlen (stream w) <= zlen (stream (local_write (slice 1 0 (rb_buf rb)) w))); [|lia].
      unfold slice. rewrite ztake_neg by lia. unfold stream, local_write, flush.
      rewrite zlen_nil. cbn [Z.ltb Z.compare]. destruct (_ =? _); cbn [fd_out wrb]; zlen.
    + assert (zlen (slice 1 (total rb) (rb_buf rb)) = total rb) as Hz
        by (unfold slice, RING_BUFFER_SIZE in *; rewrite zlen_take, zlen_drop; lia).
      rewrite local_write_stream, zlen_app; [lia|]. intros Hn. rewrite Hn, zlen_nil in Hz. lia.
  - destruct (drain_loop _ _ _ _ _ _) as [[fs w1]|] eqn:Hd; [|done]. injection H as <- <-.
    by eapply counted_drain_loop.
Qed.

(** ** Recognising the marker *)

(** The automaton of [matched] over a string, from state [m]. *)
Definition match_run (b : list Z) (m : Z) (s : list Z) : Z := fold_left (match_step b) s m.

(** No prefix of [s] ends in a recognised marker. *)
Definition quiet (marker s : list Z) : Prop :=
  forall p r, s = p ++ r -> p <> [] -> match_run (marker ++ [0]) 0 p <> zlen marker.

Definition quietb (marker s : list Z) : bool :=
  forallb (fun k => negb (match_run (marker ++ [0]) 0 (take k s) =? zlen marker)) (seq 1 (length s)).
Lemma quietb_quiet marker s : quietb marker s = true -> quiet marker s.
Proof.
  unfold quietb, quiet. rewrite forallb_forall. intros H p r -> Hp.
  assert (In (length p) (seq 1 (length (p ++ r)))) as Hin.
  { apply in_seq. rewrite length_app. destruct p; [done|]. cbn [length]. lia. }
  specialize (H _ Hin). rewrite take_app_length in H.
  by apply negb_true_iff, Z.eqb_neq in H.
Qed.

(** Appending a string byte by byte until the marker is recognised: whether it
    was, what is left of the string, and the resulting state. *)
Fixpoint feed (s : list Z) (rb : rbuffer) (w : writer) : bool * list Z * rbuffer * writer :=
  match s with
  | [] => (false, [], rb, w)
  | c :: r =>
      let '(found, rb, w) := ring_buffer_append rb c w in
      if found then (true, r, rb, w) else feed r rb w
  end.

Record live (marker out s : list Z) (rb : rbuffer) (w : writer) : Prop := {
  l_holds : holds out s rb w;
  l_matched : matched rb = match_run (marker ++ [0]) 0 s;
  l_blen : boundary_len rb = zlen marker;
  l_bnd : rb_boundary rb = marker ++ [0];
  l_ok : writer_ok w;
}.

Definition marker_of (boundary : list Z) : list Z := DASH :: DASH :: boundary.

Lemma live_init boundary w rb :
  writer_ok w -> ring_buffer_init true true boundary = Some rb ->
  live (marker_of boundary) (stream w) [] rb w.
Proof.
  intros Hw H. pose proof (holds_init _ _ _ _ w H) as Hh. injection H as <-.
  split; try done. unfold marker_of. cbn [boundary_len]. rewrite !zlen_cons. lia.
Qed.

Lemma live_append marker out s rb w ch :
  live marker out s rb w -> zlen s < 2 ^ 32 - 1 ->
  exists rb' w', ring_buffer_append rb ch w
                   = (match_run (marker ++ [0]) 0 (s ++ [ch]) =? zlen marker, rb', w') /\
                 live marker out (s ++ [ch]) rb' w'.
Proof.
  intros [Hh Hm Hb Hbd Hok] Hlen.
  destruct (ring_buffer_append rb ch w) as [[found rb'] w'] eqn:H.
  exists rb', w'. pose proof (append_holds _ _ _ _ _ _ _ _ Hh Hlen H) as Hh'.
  unfold ring_buffer_append in H. injection H as <- <- <-.
  assert (match_step (rb_boundary rb) (matched rb) ch = match_run (marker ++ [0]) 0 (s ++ [ch])) as Hstep.
  { unfold match_run. by rewrite fold_left_app, Hm, Hbd. }
  split; [by rewrite Hstep, Hb|]. split; try done.
  destruct (_ <=? _); [by apply local_write_ok|done].
Qed.

(** A quiet string passes through. *)
Lemma feed_quiet marker out s0 s r rb w :
  live marker out s0 rb w -> zlen (s0 ++ s) < 2 ^ 32 -> quiet marker (s0 ++ s) ->
  exists rb' w', feed (s ++ r) rb w = feed r rb' w' /\ live marker out (s0 ++ s) rb' w'.
Proof.
  revert s0 rb w. induction s as [|c s IH]; intros s0 rb w Hl Hlen Hq.
  - exists rb, w. by rewrite app_nil_r.
  - rewrite zlen_app, zlen_cons in Hlen. pose proof (zlen_nonneg s).
    destruct (live_append marker out s0 rb w c Hl ltac:(lia)) as (rb1 & w1 & H1 & Hl1).
    rewrite (cons_middle c s0 s), app_assoc in *.
    destruct (IH (s0 ++ [c]) rb1 w1 Hl1) as (rb' & w' & Hf & Hl');
      [rewrite !zlen_app, zlen_cons, zlen_nil; lia|done|].
    exists rb', w'. split; [|done]. cbn [app feed]. rewrite H1.
    rewrite (proj2 (Z.eqb_neq _ _)); [done|]. apply (Hq _ s); [done|].
    intros Hnil. by apply app_nil in Hnil as [_ ?].
Qed.

Lemma match_run_app b m s t : match_run b m (s ++ t) = match_run b (match_run b m s) t.
Proof. apply fold_left_app. Qed.

(** From state 0 the marker is recognised at its end, and not before. *)
Lemma match_step_marker marker pre c suf :
  marker = pre ++ c :: suf -> match_step (marker ++ [0]) (zlen pre) c = zlen (pre ++ [c]).
Proof.
  intros ->. pose proof (zlen_nonneg pre). unfold match_step. rewrite <- app_assoc, znth_app by lia.
  rewrite Z.ltb_irrefl, Z.sub_diag. cbn [app znth nth Z.to_nat]. rewrite Z.eqb_refl.
  rewrite zlen_app, zlen_cons, zlen_nil. lia.
Qed.
Lemma match_run_proper marker pre suf :
  marker = pre ++ suf -> match_run (marker ++ [0]) 0 pre = zlen pre.
Proof.
  revert suf. induction pre as [|c pre IH] using rev_ind; intros suf Hmk; [done|].
  rewrite <- app_assoc in Hmk. rewrite match_run_app, (IH _ Hmk).
  cbn [match_run fold_left]. by eapply match_step_marker.
Qed.

(** A byte that does not occur in the marker resets the automaton. *)
Lemma match_step_reset marker m c :
  0 <= m -> Forall (fun b => b <> c) marker -> c <> 0 -> match_step (marker ++ [0]) m c = 0.
Proof.
  intros Hm Hf Hc. unfold match_step. destruct (Z.eqb_spec c (znth (marker ++ [0]) m)) as [He|]; [|done].
  exfalso. unfold znth in He. rewrite nth_lookup in He.
  destruct ((marker ++ [0]) !! Z.to_nat m) as [x|] eqn:E; cbn in He; [|done]. subst x.
  apply list_elem_of_lookup_2, elem_of_app in E as [E|E].
  - rewrite Forall_forall in Hf. by apply (Hf c).
  - apply list_elem_of_singleton in E. done.
Qed.
Lemma match_run_nonneg b m s : 0 <= m -> 0 <= match_run b m s.
Proof.
  revert m. induction s as [|c s IH]; intros m Hm; cbn; [done|]. apply IH.
  unfold match_step. destruct (c =? _); lia.
Qed.

(** Past a line end, the marker is recognised exactly at its last byte. *)
Lemma feed_marker marker out s pre suf tail rb w :
  live marker out (s ++ pre) rb w -> marker = pre ++ suf -> suf <> [] ->
  match_run (marker ++ [0]) 0 s = 0 -> zlen (s ++ marker) < 2 ^ 32 ->
  exists rb' w', feed (suf ++ tail) rb w = (true, tail, rb', w') /\ live marker out (s ++ marker) rb' w'.
Proof.
  revert pre rb w. induction suf as [|c suf IH]; intros pre rb w Hl Hmk Hne H0 Hlen; [done|].
  assert (zlen (s ++ pre) + 1 + zlen suf < 2 ^ 32) as Hlen'.
  { rewrite Hmk in Hlen. rewrite !zlen_app, zlen_cons in *. lia. }
  pose proof (zlen_nonneg suf).
  destruct (live_append _ _ _ _ _ c Hl ltac:(lia)) as (rb1 & w1 & H1 & Hl1).
  assert (match_run (marker ++ [0]) 0 ((s ++ pre) ++ [c]) = zlen pre + 1) as Hrun.
  { rewrite <- app_assoc, match_run_app, H0.
    rewrite (match_run_proper marker (pre ++ [c]) suf)
      by (rewrite Hmk; by rewrite <- app_assoc).
    rewrite zlen_app, zlen_cons, zlen_nil. lia. }
  cbn [app feed]. rewrite H1, Hrun.
  assert (zlen marker = zlen pre + 1 + zlen suf) as Hzm by (rewrite Hmk, zlen_app, zlen_cons; lia).
  rewrite <- app_assoc in Hl1. destruct suf as [|c' suf].
  - rewrite zlen_nil in Hzm. rewrite (proj2 (Z.eqb_eq _ _)) by lia.
    exists rb1, w1. split; [done|].
    by replace (s ++ marker) with (s ++ pre ++ [c]) by (by rewrite Hmk).
  - rewrite zlen_cons in Hzm. pose proof (zlen_nonneg suf). rewrite (proj2 (Z.eqb_neq _ _)) by lia.
    apply (IH (pre ++ [c])); try done. by rewrite Hmk, <- app_assoc.
Qed.

(** ** The drain, and the whole upload *)

Lemma quiet_end marker s :
  Forall (fun b => b <> LF) marker -> match_run (marker ++ [0]) 0 (s ++ [LF]) = 0.
Proof.
  intros Hf. rewrite match_run_app. cbn [match_run fold_left].
  apply match_step_reset; [by apply match_run_nonneg|done|done].
Qed.

(** The index the drain stops at: that of the CR in front of the marker. *)
Lemma drain_last marker out content rb w :
  live marker out (content ++ [CR; LF] ++ marker) rb w -> 2 <= zlen marker <= 72 ->
  let last := (curr rb + RING_BUFFER_SIZE - boundary_len rb) mod RING_BUFFER_SIZE in
  let prev := (last + RING_BUFFER_SIZE - 1) mod RING_BUFFER_SIZE in
  (if znth (rb_buf rb) prev =? CR then prev else last) = (zlen content + 1) mod 256.
Proof.
  intros [[Hc Ht Hl Hw _ _] _ Hb _ _] Hm. cbv zeta. unfold RING_BUFFER_SIZE. rewrite Hc, Hb.
  pose proof (zlen_nonneg content).
  assert (zlen (content ++ [CR; LF] ++ marker) = zlen content + 2 + zlen marker) as Hn
    by (rewrite !zlen_app, !zlen_cons, zlen_nil; lia).
  rewrite Hn in *.
  assert ((((zlen content + 2 + zlen marker) mod 256 + 256 - zlen marker) mod 256 + 256 - 1) mod 256
          = (zlen content + 1) mod 256) as -> by dlia.
  rewrite Hw by lia. rewrite znth_app, Z.ltb_irrefl, Z.sub_diag by lia. done.
Qed.

Lemma ztake_slice_app {A} a n (l : list A) :
  0 <= n -> ztake a l ++ slice (Z.max 0 a) n l = ztake (Z.max 0 a + n) l.
Proof.
  intros Hn. unfold slice, ztake, zdrop.
  replace (Z.to_nat (Z.max 0 a + n)) with (Z.to_nat a + Z.to_nat n)%nat by lia.
  replace (Z.to_nat (Z.max 0 a)) with (Z.to_nat a) by lia.
  by rewrite take_take_drop.
Qed.

Lemma drain_full marker out content rb w :
  live marker out (content ++ [CR; LF] ++ marker) rb w -> 2 <= zlen marker <= 72 ->
  zlen content < 2 ^ 32 -> 256 <= zlen content + 2 + zlen marker ->
  exists rb' w', ring_buffer_drain rb w = Some (rb', w') /\ stream w' = out ++ content /\
    ring_buffer_get_filesize rb' = zlen content.
Proof.
  intros Hl Hm Hlen Hbig. pose proof (drain_last _ _ _ _ _ Hl Hm) as Hlast. cbv zeta in Hlast.
  destruct Hl as [[Hc Ht Hrl Hw Hf Hs] _ _ _ _]. pose proof (zlen_nonneg content).
  unfold ring_buffer_drain. rewrite Hlast. set (s := content ++ [CR; LF] ++ marker) in *.
  assert (zlen s = zlen content + 2 + zlen marker) as Hn
    by (unfold s; rewrite !zlen_app, !zlen_cons, zlen_nil; lia).
  rewrite Ht, Hn, Hc, Hf, Hn. unfold RING_BUFFER_SIZE.
  destruct (Z.ltb_spec (zlen content + 2 + zlen marker) 256); [lia|].
  destruct (drain_loop_spec 256 (rb_buf rb) s (zlen s - 256) (zlen content)
              (Z.max 0 (zlen content + 2 + zlen marker - 256)) w) as (w' & Hd & Hst & _);
    [|lia..|].
  { intros p Hp. apply Hw. lia. }
  replace (((zlen content + 2 + zlen marker) mod 256 + 1) mod 256)
    with ((zlen s - 256 + 1) mod 256) by (rewrite Hn; dlia).
  rewrite Hd. do 2 eexists. split; [done|]. split.
  - rewrite Hst, Hs, <- app_assoc. f_equal.
    replace (slice (zlen s - 256) (zlen content - (zlen s - 256)) s)
      with (slice (Z.max 0 (zlen s - 256)) (zlen content - (zlen s - 256)) s) by (f_equal; lia).
    rewrite ztake_slice_app by lia. replace (Z.max 0 _ + _) with (zlen content) by lia.
    unfold s, ztake, zlen. rewrite Nat2Z.id. apply take_app_length.
  - cbn [ring_buffer_get_filesize rb_filesize]. lia.
Qed.

Lemma slice_1_win buf s :
  zlen buf = 256 -> zlen s < 256 -> (forall i, 0 <= i < zlen s -> znth buf ((i + 1) mod 256) = znth s i) ->
  slice 1 (zlen s) buf = s.
Proof.
  intros Hb Hs Hw. apply list_eq. intros i. unfold slice, ztake, zdrop.
  destruct (decide (i < length s)%nat) as [Hi|Hi].
  - rewrite lookup_take_lt by (unfold zlen; lia). rewrite lookup_drop.
    specialize (Hw (Z.of_nat i)). unfold znth, zlen in *.
    rewrite Z.mod_small in Hw by lia. specialize (Hw ltac:(lia)).
    rewrite !nth_lookup in Hw. replace (Z.to_nat (Z.of_nat i + 1)) with (Z.to_nat 1 + i)%nat in Hw by lia.
    rewrite Nat2Z.id in Hw.
    destruct (lookup_lt_is_Some_2 s i Hi) as [x Hx].
    destruct (lookup_lt_is_Some_2 buf (Z.to_nat 1 + i)) as [y Hy]; [lia|].
    rewrite Hx, Hy in Hw. cbn in Hw. congruence.
  - rewrite lookup_take_ge by (unfold zlen; lia). symmetry. apply lookup_ge_None. lia.
Qed.

Lemma drain_small marker out s rb w :
  live marker out s rb w -> s <> [] -> zlen s < 256 ->
  exists rb' w', ring_buffer_drain rb w = Some (rb', w') /\ stream w' = out ++ s /\
    ring_buffer_get_filesize rb' = zlen s.
Proof.
  intros [[Hc Ht Hrl Hw Hf Hs] _ _ _ _] Hne Hsm. unfold ring_buffer_drain. rewrite Ht.
  unfold RING_BUFFER_SIZE. destruct (Z.ltb_spec (zlen s) 256); [|lia].
  do 2 eexists. split; [done|].
  assert (slice 1 (zlen s) (rb_buf rb) = s) as ->.
  { apply slice_1_win; try done. intros i Hi. apply Hw. lia. }
  rewrite local_write_stream by done. rewrite Hs, ztake_neg, app_nil_r by lia. split; [done|].
  cbn [ring_buffer_get_filesize rb_filesize]. pose proof (zlen_nonneg s). rewrite Hf, Z.max_l by lia. apply u32_small. lia.
Qed.

(** What is left of a body, filling the ring or not. *)
Lemma drain_body boundary out content rb w :
  live (marker_of boundary) out (content ++ [CR; LF] ++ marker_of boundary) rb w ->
  boundary <> [] -> zlen boundary <= 70 -> zlen content + zlen boundary + 4 < 2 ^ 32 ->
  let exact := 256 <=? zlen content + zlen boundary + 4 in
  exists rb' w', ring_buffer_drain rb w = Some (rb', w') /\
    stream w' = out ++ (if exact then content else content ++ [CR; LF] ++ [DASH; DASH] ++ boundary) /\
    ring_buffer_get_filesize rb' = zlen content + (if exact then 0 else zlen boundary + 4).
Proof.
  intros Hl Hne Hb Hlen exact. unfold exact.
  assert (zlen (marker_of boundary) = zlen boundary + 2) as Hmn by (unfold marker_of; rewrite !zlen_cons; lia).
  pose proof (zlen_nonneg boundary). pose proof (zlen_nonneg content).
  destruct (Z.leb_spec 256 (zlen content + zlen boundary + 4)) as [Hbig|Hsm].
  - rewrite Z.add_0_r. eapply drain_full; [exact Hl|lia..].
  - replace (zlen content + (zlen boundary + 4)) with (zlen (content ++ [CR; LF] ++ marker_of boundary))
      by (rewrite !zlen_app, !zlen_cons, zlen_nil; lia).
    eapply drain_small; [exact Hl|by destruct content|].
    rewrite !zlen_app, !zlen_cons, zlen_nil. lia.
Qed.

(** A body: the content, a line end, the marker, and whatever follows. *)
Lemma feed_body boundary content tail rb w :
  writer_ok w -> ring_buffer_init true true boundary = Some rb -> boundary <> [] ->
  Forall (fun b => b <> LF) boundary -> quiet (marker_of boundary) (content ++ [CR; LF]) ->
  zlen content + zlen boundary + 4 < 2 ^ 32 ->
  exists rb' w', feed (content ++ [CR; LF] ++ marker_of boundary ++ tail) rb w = (true, tail, rb', w') /\
    live (marker_of boundary) (stream w) (content ++ [CR; LF] ++ marker_of boundary) rb' w'.
Proof.
  intros Hw Hi Hne Hlf Hq Hlen. pose proof (live_init _ _ _ Hw Hi) as Hl.
  assert (zlen (content ++ [CR; LF]) = zlen content + 2) as Hn
    by (rewrite zlen_app, !zlen_cons, zlen_nil; lia).
  assert (zlen (marker_of boundary) = zlen boundary + 2) as Hmn
    by (unfold marker_of; rewrite !zlen_cons; lia).
  pose proof (zlen_nonneg boundary).
  rewrite (app_assoc content [CR; LF]).
  destruct (feed_quiet _ _ [] (content ++ [CR; LF]) (marker_of boundary ++ tail) rb w Hl)
    as (rb1 & w1 & Hf1 & Hl1); [cbn [app]; lia|done|]. cbn [app] in Hl1.
  rewrite Hf1.
  destruct (feed_marker (marker_of boundary) (stream w) (content ++ [CR; LF]) [] (marker_of boundary)
              tail rb1 w1) as (rb2 & w2 & Hf2 & Hl2).
  - by rewrite app_nil_r.
  - done.
  - done.
  - replace (content ++ [CR; LF]) with ((content ++ [CR]) ++ [LF]) by (by rewrite <- app_assoc).
    apply quiet_end. unfold marker_of. by repeat constructor.
  - rewrite zlen_app. lia.
  - exists rb2, w2. split; [done|]. by rewrite (app_assoc content).
Qed.

(** ** Properties *)

(** whatever is written, in whatever pieces, and however the 1 KiB buffer
    fills, closing the writer leaves exactly the bytes written, in order, on
    the descriptor. *)
Theorem writer_fifo (pieces : list (list Z)) (w : writer) :
  Forall (fun p => p <> []) pieces ->
  fd_out (local_close (fold_left (fun w p => local_write p w) pieces w))
  = stream w ++ concat pieces.
Proof.
  intros Hp. rewrite local_close_out. revert w.
  induction Hp as [|p ps Hne _ IH]; intros w; cbn [fold_left concat]; [by rewrite app_nil_r|].
  by rewrite IH, local_write_stream, <- app_assoc by done.
Qed.

Lemma writer_fifo_witness :
  fd_out (local_close (fold_left (fun w p => local_write p w) [[1]; [2; 3]; [4]] (mkWriter [] [])))
  = stream (mkWriter [] []) ++ concat [[1]; [2; 3]; [4]].
Proof. apply writer_fifo. by repeat constructor. Defined.

(** C11: an upload (content, line end, marker, anything behind it) with no
    earlier occurrence of the marker is recognised at the last byte of the
    marker.  If content, line end and marker together are at least 256 bytes,
    exactly the content goes to the output and its length is the file size;
    if they are shorter, the line end and the marker are written too, and
    counted.  The boundary has 1 to 70 bytes, none of them a line feed. *)
Theorem ring_upload_stores (boundary content tail : list Z) (rb : rbuffer) (w : writer) :
  writer_ok w -> ring_buffer_init true true boundary = Some rb -> boundary <> [] ->
  zlen boundary <= 70 -> Forall (fun b => b <> LF) boundary ->
  quiet (marker_of boundary) (content ++ [CR; LF]) ->
  zlen content + zlen boundary + 4 < 2 ^ 32 ->
  exists rb1 w1 rb2 w2,
    feed (content ++ [CR; LF] ++ marker_of boundary ++ tail) rb w = (true, tail, rb1, w1) /\
    ring_buffer_drain rb1 w1 = Some (rb2, w2) /\
    fd_out (local_close w2) = stream w ++
      (if 256 <=? zlen content + zlen boundary + 4 then content
       else content ++ [CR; LF] ++ [DASH; DASH] ++ boundary) /\
    ring_buffer_get_filesize rb2 =
      zlen content + (if 256 <=? zlen content + zlen boundary + 4 then 0 else zlen boundary + 4).
Proof.
  intros Hw Hi Hne Hb Hlf Hq Hlen.
  destruct (feed_body boundary content tail rb w Hw Hi Hne Hlf Hq Hlen) as (rb1 & w1 & Hf & Hl).
  destruct (drain_body _ _ _ _ _ Hl Hne Hb Hlen) as (rb2 & w2 & Hd & Hs & Hfs).
  exists rb1, w1, rb2, w2. by rewrite local_close_out.
Qed.

Lemma ring_upload_stores_witness :
  exists rb, ring_buffer_init true true (str "Asrf456BGe4h") = Some rb /\
  exists rb1 w1 rb2 w2,
    feed (zrep 300 7 ++ [CR; LF] ++ marker_of (str "Asrf456BGe4h") ++ str "--") rb (mkWriter [] [])
      = (true, str "--", rb1, w1) /\
    ring_buffer_drain rb1 w1 = Some (rb2, w2) /\
    fd_out (local_close w2) = stream (mkWriter [] []) ++ zrep 300 7 /\
    ring_buffer_get_filesize rb2 = zlen (zrep 300 7) + 0.
Proof.
  eexists. split; [reflexivity|].
  apply (ring_upload_stores (str "Asrf456BGe4h") (zrep 300 7) (str "--")).
  - vm_compute. discriminate.
  - reflexivity.
  - discriminate.
  - vm_compute. discriminate.
  - repeat constructor; discriminate.
  - apply quietb_quiet. vm_compute. reflexivity.
  - vm_compute. reflexivity.
Defined.
