(* ===== verification/HttpInput.v ===== *)
(** * The HTTP front end of target/sbin/upgrade: http_input.c

    Reading the request ([local_read], [read_line]), its header lines
    ([parse_boundary], [parse_len], [parse_hash]), the multipart part headers
    ([test_part_header]) and [http_input], which stores the firmware part.

    Pointers into the line buffer are the suffix of the line they point to.
    The NULs [strsep] stores over the separators it finds are not modelled:
    the line is not read again before [read_line] overwrites it, except
    through the token [strsep] returns.  The log on [console] is not
    modelled. *)

From S2P Require Import Prelude CLib HttpPages RingBuffer.

Definition LINE_BUFFER_LEN : Z := 256.
Definition INPUT_BUFFER_SIZE : Z := 1024.

(** [enum http_input_status] *)
Definition HTTP_INPUT_READY : Z := 0.
Definition HTTP_INPUT_SHOW_INDEX : Z := 1.
Definition HTTP_INPUT_AUTH_FAIL : Z := 2.
Definition HTTP_INPUT_BAD_MULTIPART : Z := 3.
Definition HTTP_INPUT_CANT_OPEN_OFILE : Z := 4.
Definition HTTP_INPUT_FW_PART_REQUIRED : Z := 5.
Definition HTTP_INPUT_METHOD_ERR : Z := 6.
Definition HTTP_INPUT_RB_INIT_ERR : Z := 7.
Definition HTTP_INPUT_READ_ERR : Z := 8.

(** ** The descriptor: what successive [read]s find there *)

Inductive rd := Data (bs : list Z) | RdErr.

(** [read (fd, buf, count)]: the result, the bytes stored, what is left. *)
Definition sys_read (count : Z) (inp : list rd) : Z * list Z * list rd :=
  match inp with
  | [] => (0, [], [])
  | RdErr :: r => (-1, [], r)
  | Data bs :: r =>
      if zlen bs <=? count then (zlen bs, bs, r)
      else (count, ztake count bs, Data (zdrop count bs) :: r)
  end.

(** [struct args].  [filename] is the 255 bytes of the array and the byte
    behind them, which is padding in front of the aligned [filesize]. *)
Record args := mkArgs {
  fd : list rd;
  len : Z;
  counter_value : Z;
  enable_counter : bool;
  key : option (list Z);
  realm : option (list Z);
  outfile : list Z;
  filename : list Z;
  filesize : Z;
  inbuf_p : Z;
  inbuf_l : Z;
  inbuf : list Z;
}.

Definition set_fd x a := {| fd := x; len := len a; counter_value := counter_value a;
  enable_counter := enable_counter a; key := key a; realm := realm a; outfile := outfile a;
  filename := filename a; filesize := filesize a;
  inbuf_p := inbuf_p a; inbuf_l := inbuf_l a; inbuf := inbuf a |}.
Definition set_inbuf p l b a := {| fd := fd a; len := len a; counter_value := counter_value a;
  enable_counter := enable_counter a; key := key a; realm := realm a; outfile := outfile a;
  filename := filename a; filesize := filesize a;
  inbuf_p := p; inbuf_l := l; inbuf := b |}.
Definition set_counter x a := {| fd := fd a; len := len a; counter_value := x;
  enable_counter := enable_counter a; key := key a; realm := realm a; outfile := outfile a;
  filename := filename a; filesize := filesize a;
  inbuf_p := inbuf_p a; inbuf_l := inbuf_l a; inbuf := inbuf a |}.
Definition set_enable x a := {| fd := fd a; len := len a; counter_value := counter_value a;
  enable_counter := x; key := key a; realm := realm a; outfile := outfile a;
  filename := filename a; filesize := filesize a;
  inbuf_p := inbuf_p a; inbuf_l := inbuf_l a; inbuf := inbuf a |}.
Definition set_len x a := {| fd := fd a; len := x; counter_value := counter_value a;
  enable_counter := enable_counter a; key := key a; realm := realm a; outfile := outfile a;
  filename := filename a; filesize := filesize a;
  inbuf_p := inbuf_p a; inbuf_l := inbuf_l a; inbuf := inbuf a |}.
Definition set_filename x a := {| fd := fd a; len := len a; counter_value := counter_value a;
  enable_counter := enable_counter a; key := key a; realm := realm a; outfile := outfile a;
  filename := x; filesize := filesize a;
  inbuf_p := inbuf_p a; inbuf_l := inbuf_l a; inbuf := inbuf a |}.
Definition set_filesize x a := {| fd := fd a; len := len a; counter_value := counter_value a;
  enable_counter := enable_counter a; key := key a; realm := realm a; outfile := outfile a;
  filename := filename a; filesize := x;
  inbuf_p := inbuf_p a; inbuf_l := inbuf_l a; inbuf := inbuf a |}.

(** ** Reading *)

(** The refill of the input buffer, when all of it was used. *)
Definition refill (a : args) : args :=
  let m := Z.min INPUT_BUFFER_SIZE (u32 (len a - counter_value a)) in
  let '(ret, bs, r) := sys_read m (fd a) in
  set_inbuf (inbuf_p a) (u32 ret) (splice 0 bs (inbuf a)) (set_fd r a).

(** [local_read]: its result, the bytes stored in [buf], the state. *)
Definition local_read (a : args) (count : Z) : Z * list Z * args :=
  let '(ret, bs, a) :=
    if negb (enable_counter a) || (1 <? count) then
      let '(ret, bs, r) := sys_read count (fd a) in (ret, bs, set_fd r a)
    else
      let p := inbuf_p a mod INPUT_BUFFER_SIZE in
      let a := set_inbuf p (inbuf_l a) (inbuf a) a in
      let a := if p =? 0 then refill a else a in
      if p <? inbuf_l a then (1, [znth (inbuf a) p], set_inbuf (p + 1) (inbuf_l a) (inbuf a) a)
      else (0, [], set_inbuf 0 (inbuf_l a) (inbuf a) a) in
  (ret, bs, if enable_counter a then set_counter (s32 (counter_value a + ret)) a else a).

(** [read_line (args, line, LINE_BUFFER_LEN)]: [k] iterations are left. *)
Fixpoint read_line_loop (k : nat) (i : Z) (a : args) (line : list Z) : Z * list Z * args :=
  match k with
  | O => (0, splice (LINE_BUFFER_LEN - 1) [0] line, a)
  | S k' =>
      let '(ret, bs, a) := local_read a 1 in
      if negb (ret =? 1) then (1, line, a) else
      let c := znth bs 0 in
      if c =? CR then read_line_loop k' (i + 1) a (splice i [0] line)
      else if c =? LF then (0, splice i [0] line, a)
      else read_line_loop k' (i + 1) a (splice i [c] line)
  end.
Definition read_line (a : args) (line : list Z) : Z * list Z * args := read_line_loop 256 0 a line.

(** ** The header lines of the request *)

Definition separator (c : Z) : bool := (c =? 32) || (c =? 9) || (c =? CR) || (c =? LF).
(** The token up to the first separator, as [strsep] leaves it. *)
Definition token (s : list Z) : list Z := take_while (fun c => negb (separator c)) s.

(** [parse_boundary]: the new content of [boundary[71]]. *)
Definition parse_boundary (buf boundary : list Z) : run (list Z) :=
  let s := cstr buf in
  match strstr (zdrop (zlen (str "Content-Type:")) s) (str "boundary=") with
  | Some p =>
      match strstr s (str "multipart/form-data") with
      | None => Ret boundary
      | Some _ =>
          let t := token (zdrop (zlen (str "boundary=")) p) in
          if zlen t <? 1 then Ret boundary
          else if 70 <? zlen t then Undef
          else Ret t
      end
  | None => Ret boundary
  end.

(** [parse_len]: the new value of [*len]. *)
Definition parse_len (buf : list Z) (l : Z) : Z :=
  let lenp := skip_while isspace (zdrop (zlen (str "Content-Length:")) (cstr buf)) in
  if zlen lenp <? 1 then l
  else let '(v, elenp, _) := strtoul lenp 10 in
       if streq elenp [] then u32 v else 0.

(** [parse_hash]: the new content of [hash[256]]. *)
Definition parse_hash (buf hash : list Z) : list Z :=
  match strstr (zdrop (zlen (str "Authorization:")) (cstr buf)) (str "Basic") with
  | Some p =>
      let hashp := token (skip_while isspace (zdrop (zlen (str "Basic")) p)) in
      if zlen hashp <? 2 then hash else hashp
  | None => hash
  end.

(** The [for (;;)] on the header lines.  [None] is the failing [read_line]. *)
Fixpoint read_headers (fuel : nat) (a : args) (buf boundary hash : list Z)
    : run (option (list Z * list Z) * list Z * args) :=
  match fuel with
  | O => NoFuel
  | S f =>
      let '(rc, buf, a) := read_line a buf in
      if negb (rc =? 0) then Ret (None, buf, a) else
      boundary ← (if streq boundary [] && has_prefix (str "Content-Type:") (cstr buf)
                  then parse_boundary buf boundary else Ret boundary);
      let a := if (len a =? 0) && has_prefix (str "Content-Length:") (cstr buf)
               then set_len (parse_len buf (len a)) a else a in
      let hash := if streq hash [] && has_prefix (str "Authorization:") (cstr buf)
                  then parse_hash buf hash else hash in
      if streq (cstr buf) [] then Ret (Some (boundary, hash), buf, a)
      else read_headers f a buf boundary hash
  end.

(** ** The part headers *)

(** The [for] on the parameters of Content-Disposition: [k] iterations are
    left; [Some match] or, for an empty file name, [None]. *)
Fixpoint disposition (k : nat) (p : list Z) (mtch : Z) : run (option Z) :=
  match k with
  | O => Ret (Some mtch)
  | S k' =>
      match strchr p 59 with
      | None | Some [] | Some [_] => Ret (Some mtch)
      | Some (_ :: p) =>
          let p := skip_while (fun c => (c =? 32) || (c =? 9)) p in
          let m1 := if has_prefix (str "name=" ++ [QUOTE] ++ str "firmware" ++ [QUOTE]) p
                    then mtch + 1 else mtch in
          if has_prefix (str "filename=" ++ [QUOTE]) p then
            let p := zdrop 10 p in
            match strchr p QUOTE with
            | None => Undef
            | Some q =>
                if zlen p - zlen q =? 0 then Ret None
                else if m1 + 1 =? 2 then Ret (Some (m1 + 1)) else disposition k' p (m1 + 1)
            end
          else if m1 =? 2 then Ret (Some m1) else disposition k' p m1
      end
  end.

(** Skip the part's header lines up to the empty one. *)
Fixpoint skip_lines (fuel : nat) (a : args) (buf : list Z) : run (list Z * args) :=
  match fuel with
  | O => NoFuel
  | S f =>
      let '(rc, buf, a) := read_line a buf in
      if negb (rc =? 0) then Ret (buf, a)
      else if streq (cstr buf) [] then Ret (buf, a) else skip_lines f a buf
  end.

(** The search for the next boundary line: [true] when the form is over. *)
Fixpoint next_part (fuel : nat) (a : args) (boundary buf : list Z) : run (bool * list Z * args) :=
  match fuel with
  | O => NoFuel
  | S f =>
      let '(r1, c1, a) := local_read a 1 in
      if negb (r1 =? 1) then Ret (false, buf, a) else
      if negb (znth c1 0 =? LF) then next_part f a boundary buf else
      let '(r2, c2, a) := local_read a 1 in
      if negb ((r2 =? 1) && (znth c2 0 =? DASH)) then next_part f a boundary buf else
      let '(r3, c3, a) := local_read a 1 in
      if negb ((r3 =? 1) && (znth c3 0 =? DASH)) then next_part f a boundary buf else
      let '(rc, buf, a) := read_line a buf in
      if negb (rc =? 0) then Ret (true, buf, a) else
      if has_prefix boundary (cstr buf) then
        let p := zdrop (zlen boundary) buf in
        if (znth p 0 =? DASH) && (znth p 1 =? DASH) then Ret (true, buf, a)
        else Ret (false, buf, a)
      else next_part f a boundary buf
  end.

(** [test_part_header]: 2 when the firmware part's data follows.  The NUL
    stored at [filename[255]] is behind the array, on the padding byte. *)
Fixpoint test_part_header (fuel : nat) (a : args) (boundary buf : list Z) : run (Z * list Z * args) :=
  match fuel with
  | O => NoFuel
  | S f =>
      let a := set_filename (splice 0 [0] (splice 255 [0] (filename a))) a in
      let '(rc, buf, a) := read_line a buf in
      if negb (rc =? 0) then Ret (1, buf, a) else
      let finish mtch :=
        '(buf, a) ← skip_lines fuel a buf;
        if mtch =? 2 then Ret (2, buf, a) else
        '(over, buf, a) ← next_part fuel a boundary buf;
        if (over : bool) then Ret (1, buf, a) else test_part_header f a boundary buf in
      if has_prefix (str "Content-Disposition:") (cstr buf) then
        let p := skip_while isspace (zdrop (zlen (str "Content-Disposition:")) (cstr buf)) in
        if has_prefix (str "form-data") p then
          m ← disposition 8 (zdrop (zlen (str "form-data")) p) 0;
          match m with None => Ret (1, buf, a) | Some mtch => finish mtch end
        else Ret (0, buf, a)
      else finish 0
  end.

(** ** Storing the firmware *)

(** Whether the output file opens and the two allocations succeed. *)
Record sys := mkSys { open_ok : bool; alloc1 : bool; alloc2 : bool }.

(** [for (; args->counter_value != args->len; ) local_read (args, buf, 1);] *)
Fixpoint drain_socket (fuel : nat) (a : args) : run args :=
  if u32 (counter_value a) =? len a then Ret a
  else match fuel with
       | O => NoFuel
       | S f => let '(_, _, a) := local_read a 1 in drain_socket f a
       end.

(** The [for] that feeds the ring buffer; [true] when the marker was found. *)
Fixpoint upload (fuel : nat) (i : Z) (a : args) (rb : rbuffer) (w : writer)
    : run (bool * args * rbuffer * writer) :=
  if u32 i <? len a then
    match fuel with
    | O => NoFuel
    | S f =>
        let '(ret, bs, a) := local_read a 1 in
        if negb (ret =? 1) then Ret (false, a, rb, w) else
        let '(found, rb, w) := ring_buffer_append rb (znth bs 0) w in
        if found then
          match ring_buffer_drain rb w with
          | None => NoFuel
          | Some (rb, w) =>
              a ← drain_socket f (set_filesize (ring_buffer_get_filesize rb) a);
              Ret (true, a, rb, w)
          end
        else upload f (i + 1) a rb w
    end
  else Ret (false, a, rb, w).

Section HttpInput.
Variable PAGE_TITLE : list Z.
Variable S : sys.

Definition font_error (msg : list Z) : list Z :=
  http_error PAGE_TITLE (str "<font class=" ++ [QUOTE] ++ str "red" ++ [QUOTE] ++ str ">" ++ CRLF ++
    msg ++ CRLF ++ str "</font>" ++ CRLF).

(** From the [open] of the output file to the end of [http_input]. *)
Definition receive (fuel : nat) (a : args) (boundary : list Z) (w : writer)
    : run (Z * args * writer * list Z) :=
  if negb (open_ok S) then Ret (HTTP_INPUT_CANT_OPEN_OFILE, a, w, []) else
  match ring_buffer_init (alloc1 S) (alloc2 S) boundary with
  | None => Ret (HTTP_INPUT_RB_INIT_ERR, a, local_close w, [])
  | Some rb =>
      '(found, a, rb, w) ← upload fuel (counter_value a) a rb w;
      if (found : bool) then Ret (HTTP_INPUT_READY, a, local_close w, http_ok PAGE_TITLE)
      else Ret (1, a, local_close w, http_fail PAGE_TITLE)
  end.

(** What follows the authentication. *)
Definition http_authorized (fuel : nat) (a : args) (boundary buf : list Z) (w : writer) (post : bool)
    : run (Z * args * writer * list Z) :=
  if negb post then Ret (HTTP_INPUT_SHOW_INDEX, a, w, http_index PAGE_TITLE) else
  if streq boundary [] || (len a =? 0) then
    Ret (HTTP_INPUT_BAD_MULTIPART, a, w, font_error
      (str "  Multipart form must have both boundary marker and " ++ str "Content-Length defined.")) else
  let '(rc, buf, a) := read_line a buf in
  if negb (rc =? 0) then
    Ret (HTTP_INPUT_READ_ERR, a, w, font_error (str "Failed to parse form data.")) else
  if has_prefix (marker_of boundary) (cstr buf) then
    '(r, buf, a) ← test_part_header fuel a boundary buf;
    if negb (r =? 2) then
      Ret (HTTP_INPUT_FW_PART_REQUIRED, a, w, font_error (str "No Firmware image in posted data."))
    else receive fuel a boundary w
  else receive fuel a boundary w.

(** [http_input]: the status, the state, the output and the page sent.
    [buf] is the line buffer as it is on entry. *)
Definition http_input (fuel : nat) (a : args) (buf : list Z) (w : writer)
    : run (Z * args * writer * list Z) :=
  let '(rc, buf, a) := read_line a buf in
  if negb (rc =? 0) then
    Ret (HTTP_INPUT_READ_ERR, a, w, http_error PAGE_TITLE (str "Can't accept methods other than GET or POST")) else
  let get := has_prefix (str "GET") (cstr buf) in
  let post := has_prefix (str "POST") (cstr buf) in
  if negb (get || post) then
    Ret (HTTP_INPUT_METHOD_ERR, a, w, http_error PAGE_TITLE (str "Can't accept methods other than GET or POST")) else
  '(h, buf, a) ← read_headers fuel a buf [] [];
  match h with
  | None => Ret (HTTP_INPUT_READ_ERR, a, w, [])
  | Some (boundary, hash) =>
      let a := set_enable true a in
      match key a, realm a with
      | Some k, Some r =>
          if streq hash k then http_authorized fuel a boundary buf w (negb get)
          else Ret (HTTP_INPUT_AUTH_FAIL, a, w, http_unauth PAGE_TITLE r)
      | _, _ => http_authorized fuel a boundary buf w (negb get)
      end
  end.
End HttpInput.

(** ** What the reading functions leave alone *)

(** [a'] differs from [a] only in what reading changes. *)
Definition same_conf (a a' : args) : Prop :=
  key a' = key a /\ realm a' = realm a /\ outfile a' = outfile a.

#[global] Instance same_conf_preorder : PreOrder same_conf.
Proof. split; [by intros a|]. intros a b c (?&?&?) (?&?&?). unfold same_conf. split_and!; congruence. Qed.

Lemma same_conf_refl a : same_conf a a.
Proof. reflexivity. Qed.
#[export] Hint Resolve same_conf_refl : zr.

Lemma local_read_conf a n : same_conf a (local_read a n).2.
Proof.
  unfold local_read, refill. destruct a as [f l c e k r o fi fs p il ib]. cbn.
  destruct (negb e || (1 <? n)).
  - destruct (sys_read n f) as [[ret bs] rest]. cbn. by destruct e.
  - destruct (p mod INPUT_BUFFER_SIZE =? 0).
    + destruct (sys_read _ f) as [[ret bs] rest]. cbn. destruct (_ <? _); cbn; by destruct e.
    + cbn. destruct (_ <? _); cbn; by destruct e.
Qed.

Lemma read_line_loop_conf k i a line : same_conf a (read_line_loop k i a line).2.
Proof.
  revert i a line. induction k as [|k IH]; intros i a line; cbn [read_line_loop]; [reflexivity|].
  pose proof (local_read_conf a 1) as H. destruct (local_read a 1) as [[ret bs] a1]. cbn [snd] in H.
  destruct (negb (ret =? 1)); [done|]. rewrite H.
  destruct (_ =? CR); [apply IH|]. destruct (_ =? LF); [done|apply IH].
Qed.
#[local] Strategy 1000 [read_line_loop].
Lemma read_line_conf a line rc line' a' : read_line a line = (rc, line', a') -> same_conf a a'.
Proof. intros H. pose proof (read_line_loop_conf 256 0 a line) as Hc. unfold read_line in H. rewrite H in Hc. exact Hc. Qed.
#[global] Opaque read_line.

Lemma read_headers_conf fuel a buf bnd hash h buf' a' :
  read_headers fuel a buf bnd hash = Ret (h, buf', a') -> same_conf a a'.
Proof.
  revert a buf bnd hash. induction fuel as [|f IH]; intros a buf bnd hash H; [done|].
  cbn [read_headers] in H. destruct (read_line a buf) as [[rc buf1] a1] eqn:Hr.
  apply read_line_conf in Hr. destruct (negb (rc =? 0)); [by injection H as <- <- <-|].
  apply bind_Ret in H as (b & _ & H).
  match type of H with context [set_len ?v a1] => set (a2 := set_len v a1) in H end.
  assert (same_conf a1 (if (len a1 =? 0) && has_prefix (str "Content-Length:") (cstr buf1) then a2 else a1))
    as Hc.
  { destruct ((len a1 =? 0) && has_prefix (str "Content-Length:") (cstr buf1)); by split_and!. }
  etransitivity; [exact Hr|]. etransitivity; [exact Hc|].
  destruct (streq (cstr buf1) []); [by injection H as <- <- <-|by eapply IH].
Qed.

(** The reported size is never more than what was written. *)
Lemma local_read_filesize a n : filesize (local_read a n).2 = filesize a.
Proof.
  unfold local_read, refill. destruct a as [f l c e k r o fi fs p il ib]. cbn.
  destruct (negb e || (1 <? n)).
  - destruct (sys_read n f) as [[ret bs] rest]. cbn. by destruct e.
  - destruct (p mod INPUT_BUFFER_SIZE =? 0).
    + destruct (sys_read _ f) as [[ret bs] rest]. cbn. destruct (_ <? _); cbn; by destruct e.
    + cbn. destruct (_ <? _); cbn; by destruct e.
Qed.
Lemma drain_socket_filesize fuel a a' : drain_socket fuel a = Ret a' -> filesize a' = filesize a.
Proof.
  revert a. induction fuel as [|f IH]; intros a H; cbn [drain_socket] in H.
  - destruct (_ =? _); [by injection H as <-|done].
  - destruct (_ =? _); [by injection H as <-|]. pose proof (local_read_filesize a 1) as Hr.
    destruct (local_read a 1) as [[ret bs] a1]. apply IH in H. cbn [snd] in Hr. congruence.
Qed.
Lemma upload_filesize fuel i a rb w a' rb' w' :
  counted rb w -> upload fuel i a rb w = Ret (true, a', rb', w') -> filesize a' <= zlen (fd_out (local_close w')).
Proof.
  revert i a rb w. induction fuel as [|f IH]; intros i a rb w Hc H; cbn [upload] in H; [by destruct (_ <? _)|].
  destruct (_ <? _); [|done]. destruct (local_read a 1) as [[ret bs] a1]. destruct (negb _); [done|].
  destruct (ring_buffer_append rb _ w) as [[found rb1] w1] eqn:Ha. pose proof (counted_append _ _ _ _ _ _ Hc Ha) as Hc1.
  destruct found; [|by eapply IH]. destruct (ring_buffer_drain rb1 w1) as [[rb2 w2]|] eqn:Hd; [|done].
  apply bind_Ret in H as (a2 & Hs & H). injection H as <- <- <-. apply drain_socket_filesize in Hs.
  apply counted_drain in Hd; [|done]. rewrite Hs. cbn [filesize set_filesize]. rewrite local_close_out. lia.
Qed.

(** The statuses are those of the enumeration. *)
Lemma receive_status T S fuel a bnd w st a' w' page :
  receive T S fuel a bnd w = Ret (st, a', w', page) -> 0 <= st <= HTTP_INPUT_READ_ERR.
Proof.
  unfold receive, HTTP_INPUT_READ_ERR. destruct (open_ok S); cbn [negb]; [|intros [= <- _ _ _]; by split].
  destruct (ring_buffer_init _ _ _); [|intros [= <- _ _ _]; by split].
  intros H. apply bind_Ret in H as ([[[[] a1] rb1] w1] & _ & H); injection H as <- _ _ _; by split.
Qed.
Lemma http_input_status T S fuel a buf w st a' w' page :
  http_input T S fuel a buf w = Ret (st, a', w', page) -> 0 <= st <= HTTP_INPUT_READ_ERR.
Proof.
  assert (forall bnd buf a post, http_authorized T S fuel a bnd buf w post = Ret (st, a', w', page) ->
          0 <= st <= HTTP_INPUT_READ_ERR) as Hauth.
  { intros bnd b1 a1 post H. unfold http_authorized in H.
    destruct post; cbn [negb] in H; [|injection H as <- _ _ _; by split].
    destruct (_ || _); [injection H as <- _ _ _; by split|].
    destruct (read_line a1 b1) as [[rc b2] a2].
    destruct (negb (rc =? 0)); [injection H as <- _ _ _; by split|].
    destruct (has_prefix _ _); [|by eapply receive_status].
    apply bind_Ret in H as ([[r b3] a3] & _ & H).
    destruct (negb (r =? 2)); [injection H as <- _ _ _; by split|by eapply receive_status]. }
  intros H. unfold http_input in H. destruct (read_line a buf) as [[rc line] a1].
  destruct (negb (rc =? 0)); [injection H as <- _ _ _; by split|].
  destruct (negb _); [injection H as <- _ _ _; by split|].
  apply bind_Ret in H as ([[h buf2] a2] & _ & H).
  destruct h as [[bnd hash]|]; [|injection H as <- _ _ _; by split].
  destruct (key _) as [k|]; [|by eapply Hauth]. destruct (realm _) as [r|]; [|by eapply Hauth].
  destruct (streq hash k); [by eapply Hauth|injection H as <- _ _ _; by split].
Qed.

Lemma receive_filesize T S fuel a bnd w a' w' page :
  receive T S fuel a bnd w = Ret (HTTP_INPUT_READY, a', w', page) -> filesize a' <= zlen (fd_out w').
Proof.
  unfold receive. destruct (open_ok S); cbn [negb]; [|done].
  destruct (alloc1 S) eqn:H1; [|done]. destruct (alloc2 S) eqn:H2; [|done].
  destruct (ring_buffer_init _ _ _) as [rb|] eqn:Hi; [|done]. intros H.
  apply bind_Ret in H as ([[[[] a1] rb1] w1] & Hu & H); [|done]. injection H as <- <- _.
  eapply upload_filesize; [by eapply counted_init|exact Hu].
Qed.
Lemma http_input_filesize T S fuel a buf w a' w' page :
  http_input T S fuel a buf w = Ret (HTTP_INPUT_READY, a', w', page) -> filesize a' <= zlen (fd_out w').
Proof.
  assert (forall bnd buf a post, http_authorized T S fuel a bnd buf w post = Ret (HTTP_INPUT_READY, a', w', page) ->
          filesize a' <= zlen (fd_out w')) as Hauth.
  { intros bnd b1 a1 post H. unfold http_authorized in H.
    destruct post; cbn [negb] in H; [|done]. destruct (_ || _); [done|].
    destruct (read_line a1 b1) as [[rc b2] a2]. destruct (negb (rc =? 0)); [done|].
    destruct (has_prefix _ _); [|by eapply receive_filesize].
    apply bind_Ret in H as ([[r b3] a3] & _ & H). destruct (negb (r =? 2)); [done|by eapply receive_filesize]. }
  intros H. unfold http_input in H. destruct (read_line a buf) as [[rc line] a1].
  destruct (negb (rc =? 0)); [done|]. destruct (negb _); [done|].
  apply bind_Ret in H as ([[h buf2] a2] & _ & H).
  destruct h as [[bnd hash]|]; [|done].
  destruct (key _) as [k|]; [|by eapply Hauth]. destruct (realm _) as [r|]; [|by eapply Hauth].
  destruct (streq hash k); [by eapply Hauth|done].
Qed.

(** ** Reading the body *)

(** The descriptor of a body that arrives in one piece. *)
Definition fd_of (s : list Z) : list rd := match s with [] => [] | _ => [Data s] end.

(** [a] is in the body, of which [s] is still to be read: first from the
    input buffer, then from the descriptor. *)
Record serving (a : args) (s : list Z) : Prop := {
  sv_on : enable_counter a = true;
  sv_buf : zlen (inbuf a) = INPUT_BUFFER_SIZE;
  sv_cnt : 0 <= counter_value a;
  sv_len : counter_value a + zlen s = len a;
  sv_max : len a < 2 ^ 31;
  sv_p : 0 <= inbuf_p a <= INPUT_BUFFER_SIZE;
  sv_data : exists pend rest, s = pend ++ rest /\ fd a = fd_of rest /\
      (pend = [] /\ inbuf_p a mod INPUT_BUFFER_SIZE = 0 \/
       inbuf_p a + zlen pend = inbuf_l a /\ inbuf_l a <= INPUT_BUFFER_SIZE /\ 0 < inbuf_p a < INPUT_BUFFER_SIZE /\
       pend = slice (inbuf_p a) (zlen pend) (inbuf a) /\
       (inbuf_l a < INPUT_BUFFER_SIZE -> rest = []));
}.

(** Reduce projections and updates of [args]. *)
Ltac args_simpl :=
  cbn [fd len counter_value enable_counter key realm outfile filename filesize inbuf_p inbuf_l inbuf
       set_fd set_inbuf set_counter set_enable set_len set_filename set_filesize].

(** The buffer is empty: a read fills it. *)
Lemma local_read_refill a c s :
  serving a (c :: s) -> inbuf_p a mod INPUT_BUFFER_SIZE = 0 -> fd a = fd_of (c :: s) ->
  exists a', local_read a 1 = (1, [c], a') /\ serving a' s /\
             counter_value a' = counter_value a + 1 /\ len a' = len a /\ filesize a' = filesize a.
Proof.
  intros [Hon Hb Hc0 Hlen Hmax Hp _] Hp0 Hfd.
  destruct a as [f l cv e k r o fi fs p il ib].
  cbn [enable_counter inbuf counter_value len inbuf_p inbuf_l fd] in *. subst e.
  rewrite zlen_cons in Hlen. pose proof (zlen_nonneg s) as Hzs. unfold INPUT_BUFFER_SIZE in *.
  unfold local_read, INPUT_BUFFER_SIZE.
  args_simpl. cbn [negb orb]. change (1 <? 1) with false. cbn iota.
  rewrite Hp0. change (0 =? 0) with true. cbn iota.
  unfold refill, INPUT_BUFFER_SIZE. args_simpl.
  rewrite u32_small by lia. replace (l - cv) with (zlen (c :: s)) by (rewrite zlen_cons; lia).
  rewrite Hfd. cbn [fd_of sys_read].
  assert (znth (c :: s) 0 = c) as Hh by done.
  destruct (Z.leb_spec (zlen (c :: s)) (Z.min 1024 (zlen (c :: s)))) as [Hle|Hgt].
  - rewrite zlen_cons in Hle. rewrite zlen_cons. rewrite u32_small by lia. args_simpl.
    rewrite (proj2 (Z.ltb_lt _ _)) by lia.
    assert (znth (splice 0 (c :: s) ib) 0 = c) as -> by done.
    args_simpl. rewrite s32_small by lia.
    eexists. split; [reflexivity|]. split; [|args_simpl; lia].
    split; args_simpl; unfold INPUT_BUFFER_SIZE; try lia; try done.
    { rewrite zlen_splice; rewrite ?zlen_cons; lia. }
    exists s, []. rewrite app_nil_r. split_and!; [done|done|]. right. split_and!; try lia; [|done].
    replace (slice (0 + 1) (zlen s) (splice 0 (c :: s) ib)) with (slice 1 (zlen s) (c :: s)).
    * symmetry. apply slice_to_end; rewrite ?zlen_cons; lia.
    * symmetry. apply slice_splice_in; rewrite ?zlen_cons; lia.
  - rewrite zlen_cons in Hgt. rewrite zlen_cons. replace (Z.min 1024 (1 + zlen s)) with 1024 by lia.
    rewrite u32_small by lia. args_simpl.
    change (0 <? 1024) with true. cbn iota.
    assert (znth (splice 0 (ztake 1024 (c :: s)) ib) 0 = c) as -> by done.
    args_simpl. rewrite s32_small by lia.
    eexists. split; [reflexivity|]. split; [|args_simpl; lia].
    assert (zlen (ztake 1024 (c :: s)) = 1024) as Ht by (rewrite zlen_take, zlen_cons; lia).
    split; args_simpl; unfold INPUT_BUFFER_SIZE; try lia; try done.
    { rewrite zlen_splice; lia. }
    exists (ztake 1023 s), (zdrop 1023 s). split_and!.
    * by rewrite ztake_drop.
    * replace (zdrop 1024 (c :: s)) with (zdrop 1023 s) by done.
      pose proof (zlen_drop 1023 s) as Hd. unfold fd_of. destruct (zdrop 1023 s); [|done].
      rewrite zlen_nil in Hd. lia.
    * right. rewrite zlen_take. split_and!; try lia.
      rewrite slice_splice_in by lia. replace (0 + 1 - 0) with 1 by lia.
      rewrite slice_ztake by lia. unfold slice. replace (zdrop 1 (c :: s)) with s by done.
      f_equal. lia.
Qed.
(** The byte is in the buffer. *)
Lemma local_read_buffered a c s pend rest :
  serving a (c :: s) -> c :: s = pend ++ rest -> fd a = fd_of rest ->
  inbuf_p a + zlen pend = inbuf_l a -> inbuf_l a <= INPUT_BUFFER_SIZE -> 0 < inbuf_p a < INPUT_BUFFER_SIZE ->
  pend = slice (inbuf_p a) (zlen pend) (inbuf a) -> (inbuf_l a < INPUT_BUFFER_SIZE -> rest = []) ->
  exists a', local_read a 1 = (1, [c], a') /\ serving a' s /\
             counter_value a' = counter_value a + 1 /\ len a' = len a /\ filesize a' = filesize a.
Proof.
  intros [Hon Hb Hc0 Hlen Hmax Hp _] Hs Hfd Hl Hl2 Hp1 Hpend Hrest.
  destruct a as [f l cv e k r o fi fs p il ib].
  cbn [enable_counter inbuf counter_value len inbuf_p inbuf_l fd] in *. subst e.
  rewrite zlen_cons in Hlen. pose proof (zlen_nonneg s) as Hzs. unfold INPUT_BUFFER_SIZE in *.
  unfold local_read, INPUT_BUFFER_SIZE.
  args_simpl. cbn [negb orb]. change (1 <? 1) with false. cbn iota.
  rewrite (Z.mod_small p) by lia. rewrite (proj2 (Z.eqb_neq p 0)) by lia.
  args_simpl.
  destruct pend as [|c' pend].
  - rewrite zlen_nil in Hl. rewrite Hrest in Hs by lia. done.
  - rewrite zlen_cons in *. pose proof (zlen_nonneg pend). injection Hs as <- ->.
    rewrite (proj2 (Z.ltb_lt _ _)) by lia.
    rewrite slice_head in Hpend by lia. injection Hpend as Hcz Hpz. rewrite <- Hcz.
    args_simpl. rewrite s32_small by lia.
    eexists. split; [reflexivity|]. split; [|args_simpl; lia]. rewrite zlen_app in *.
    split; args_simpl; unfold INPUT_BUFFER_SIZE; rewrite ?zlen_app; try lia; try done.
    exists pend, rest. split_and!; [done..|].
    destruct (Z.eq_dec (p + 1) 1024) as [He|He].
    * left. rewrite He. split; [|done]. apply (f_equal zlen) in Hpz. destruct pend; [done|].
      rewrite zlen_cons in *. pose proof (zlen_nonneg pend). lia.
    * right. split_and!; try lia; [|done]. rewrite Hpz at 1. f_equal. lia.
Qed.
(** One byte of the body. *)
Lemma local_read_serving a c s :
  serving a (c :: s) ->
  exists a', local_read a 1 = (1, [c], a') /\ serving a' s /\
             counter_value a' = counter_value a + 1 /\ len a' = len a /\ filesize a' = filesize a.
Proof.
  intros Hsv. destruct (sv_data _ _ Hsv) as (pend & rest & Hs & Hfd & [[-> Hp0]|(Hl & Hl2 & Hp1 & Hpend & Hrest)]).
  - cbn [app] in Hs. subst rest. by apply local_read_refill.
  - by eapply local_read_buffered.
Qed.

(** The socket is drained to the end of the body. *)
Lemma drain_socket_serving s fuel a :
  serving a s -> (length s <= fuel)%nat ->
  exists a', drain_socket fuel a = Ret a' /\ serving a' [] /\ len a' = len a /\ filesize a' = filesize a.
Proof.
  revert a fuel. induction s as [|c s IH]; intros a fuel Hs Hf.
  - exists a. split; [|done]. pose proof (sv_len _ _ Hs) as Hl. pose proof (sv_max _ _ Hs). pose proof (sv_cnt _ _ Hs).
    rewrite zlen_nil in Hl. assert (u32 (counter_value a) = len a) as He by (rewrite u32_small; lia).
    destruct fuel; cbn [drain_socket]; by rewrite He, Z.eqb_refl.
  - destruct fuel as [|fuel]; [cbn in Hf; lia|].
    pose proof (sv_len _ _ Hs) as Hl. pose proof (sv_max _ _ Hs). pose proof (sv_cnt _ _ Hs).
    rewrite zlen_cons in Hl. pose proof (zlen_nonneg s).
    destruct (local_read_serving _ _ _ Hs) as (a1 & Hr & Hs1 & _ & Hl1 & Hf1).
    destruct (IH a1 fuel Hs1) as (a2 & Hd & Hs2 & Hl2 & Hf2); [cbn in Hf; lia|].
    exists a2. cbn [drain_socket]. rewrite u32_small, (proj2 (Z.eqb_neq _ _)), Hr by lia.
    split; [done|]. split; [done|]. split; congruence.
Qed.

Lemma serving_set_filesize x a s : serving a s -> serving (set_filesize x a) s.
Proof. intros [??????]. split; done. Qed.

(** The loop of [http_input] feeds the ring with the body, then drains. *)
Lemma upload_serving s tail rb w rb1 w1 rb2 w2 fuel a :
  serving a s -> feed s rb w = (true, tail, rb1, w1) -> ring_buffer_drain rb1 w1 = Some (rb2, w2) ->
  (length s < fuel)%nat ->
  exists a', upload fuel (counter_value a) a rb w = Ret (true, a', rb2, w2) /\ serving a' [] /\
             len a' = len a /\ filesize a' = ring_buffer_get_filesize rb2.
Proof.
  revert a rb w fuel. induction s as [|c s IH]; intros a rb w fuel Hs Hfeed Hd Hf; [done|].
  destruct fuel as [|fuel]; [lia|].
  pose proof (sv_len _ _ Hs) as Hl. pose proof (sv_max _ _ Hs). pose proof (sv_cnt _ _ Hs).
  rewrite zlen_cons in Hl. pose proof (zlen_nonneg s). cbn in Hf.
  destruct (local_read_serving _ _ _ Hs) as (a1 & Hr & Hs1 & Hc1 & Hl1 & Hf1).
  cbn [upload]. rewrite u32_small, (proj2 (Z.ltb_lt _ _)), Hr by lia. cbn [Z.eqb negb Pos.eqb].
  change (znth [c] 0) with c. cbn [feed] in Hfeed.
  destruct (ring_buffer_append rb c w) as [[found rb'] w'] eqn:Ha. destruct found.
  - injection Hfeed as <- <- <-. rewrite Hd.
    destruct (drain_socket_serving s fuel (set_filesize (ring_buffer_get_filesize rb2) a1))
      as (a2 & Hd2 & Hs2 & Hl2 & Hf2); [by apply serving_set_filesize|lia|].
    exists a2. rewrite Hd2. rsimpl. split; [done|]. cbn in Hl2, Hf2. split; [done|]. split; congruence.
  - destruct (IH a1 rb' w' fuel Hs1 Hfeed Hd) as (a2 & Hu & Hs2 & Hl2 & Hf2); [lia|].
    exists a2. rewrite <- Hc1, Hu. split; [done|]. split; [done|]. split; congruence.
Qed.

(** ** Properties *)

(** C3: a body in front of which the part headers have been read, whose data
    is [content], a line end, the boundary marker and anything, with nothing
    after it, no earlier occurrence of the marker, a boundary of 1 to 70 bytes
    without a line feed, and a length below 2^31, that arrives in one piece,
    is received with success: the whole body is consumed and the success page
    is sent.  If content, line end and marker fill the ring of 256 bytes, the
    output is exactly [content] and the file size its length; if they do not,
    the line end and the marker are stored, and counted, too.  The fuel needed
    is the length of the body. *)
Theorem receive_stores_firmware (PAGE_TITLE boundary content tail : list Z) (a : args) (w : writer) (fuel : nat) :
  serving a (content ++ [CR; LF] ++ marker_of boundary ++ tail) -> writer_ok w ->
  boundary <> [] -> zlen boundary <= 70 -> Forall (fun b => b <> LF) boundary ->
  quiet (marker_of boundary) (content ++ [CR; LF]) ->
  (length (content ++ [CR; LF] ++ marker_of boundary ++ tail) < fuel)%nat ->
  let exact := 256 <=? zlen content + zlen boundary + 4 in
  exists a' w',
    receive PAGE_TITLE (mkSys true true true) fuel a boundary w
      = Ret (HTTP_INPUT_READY, a', w', http_ok PAGE_TITLE) /\
    fd_out w' = stream w ++ (if exact then content else content ++ [CR; LF] ++ [DASH; DASH] ++ boundary) /\
    filesize a' = zlen content + (if exact then 0 else zlen boundary + 4) /\
    counter_value a' = len a /\ fd a' = [].
Proof.
  intros Hs Hw Hne Hb Hlf Hq Hfuel exact. unfold receive. cbn [open_ok alloc1 alloc2 negb].
  destruct (ring_buffer_init true true boundary) as [rb|] eqn:Hi; [|done].
  pose proof (sv_len _ _ Hs) as Hl. pose proof (sv_max _ _ Hs). pose proof (sv_cnt _ _ Hs).
  unfold marker_of in Hl. rewrite !zlen_app, !zlen_cons, zlen_nil in Hl. pose proof (zlen_nonneg tail).
  destruct (feed_body boundary content tail rb w Hw Hi Hne Hlf Hq ltac:(lia)) as (rb1 & w1 & Hf & Hlv).
  destruct (drain_body _ _ _ _ _ Hlv Hne Hb ltac:(lia)) as (rb2 & w2 & Hd & Hst & Hfs).
  destruct (upload_serving _ _ _ _ _ _ _ _ fuel a Hs Hf Hd Hfuel) as (a' & Hu & Hs' & Hl' & Hf').
  exists a', (local_close w2). rewrite Hu. rsimpl. split; [done|]. rewrite local_close_out, Hst.
  split; [done|]. split; [by rewrite Hf', Hfs|].
  destruct Hs' as [_ _ _ Hl2 _ _ (pend & rest & Hnil & Hfd & _)]. rewrite zlen_nil in Hl2.
  split; [lia|]. symmetry in Hnil. apply app_nil in Hnil as [_ ->]. done.
Qed.

(** The state in front of a body [s] of which nothing has been read. *)
Definition body_state (s : list Z) : args :=
  {| fd := [Data s]; len := zlen s; counter_value := 0; enable_counter := true; key := None; realm := None;
     outfile := str "/dev/map/upgrade"; filename := zrep 256 0; filesize := 0; inbuf_p := 0; inbuf_l := 0;
     inbuf := zrep 1024 0 |}.
Definition demo_body : list Z := zrep 300 7 ++ [CR; LF] ++ marker_of (str "Asrf456BGe4h") ++ str "--" ++ [CR; LF].

Lemma receive_stores_firmware_witness :
  exists a' w',
    receive (str "T") (mkSys true true true) 400 (body_state demo_body) (str "Asrf456BGe4h") (mkWriter [] [])
      = Ret (HTTP_INPUT_READY, a', w', http_ok (str "T")) /\
    fd_out w' = stream (mkWriter [] []) ++ zrep 300 7 /\ filesize a' = zlen (zrep 300 7) + 0 /\
    counter_value a' = len (body_state demo_body) /\ fd a' = [].
Proof.
  apply (receive_stores_firmware (str "T") (str "Asrf456BGe4h") (zrep 300 7) (str "--" ++ [CR; LF])).
  - split; try (vm_compute; split; discriminate); try (vm_compute; first [reflexivity|discriminate]).
    exists [], demo_body. split; [reflexivity|]. split; [reflexivity|]. left. split; reflexivity.
  - vm_compute. discriminate.
  - discriminate.
  - vm_compute. discriminate.
  - repeat constructor; discriminate.
  - apply quietb_quiet. vm_compute. reflexivity.
  - vm_compute. lia.
Defined.

(** A read that brings less than [local_read] asks for ends the upload: the
    same body in two pieces fails, its first bytes in the output. *)
Example short_read_fails :
  match receive (str "T") (mkSys true true true) 400
          (set_fd [Data (ztake 290 demo_body); Data (zdrop 290 demo_body)] (body_state demo_body))
          (str "Asrf456BGe4h") (mkWriter [] []) with
  | Ret (st, a', w', page) => st = 1 /\ page = http_fail (str "T") /\ fd_out w' = zrep 34 7
  | _ => False
  end.
Proof. vm_compute. repeat split. Qed.

(** with a key and a realm configured, whatever the client sends, the
    output is touched, or success reported, only when the request is a POST
    whose headers carried exactly the configured credentials. *)
Theorem http_input_authenticated PAGE_TITLE S fuel a buf w st a' w' page k r :
  key a = Some k -> realm a = Some r ->
  http_input PAGE_TITLE S fuel a buf w = Ret (st, a', w', page) -> st = HTTP_INPUT_READY \/ w' <> w ->
  exists line a1 boundary buf2 a2,
    read_line a buf = (0, line, a1) /\ has_prefix (str "POST") (cstr line) = true /\
    read_headers fuel a1 line [] [] = Ret (Some (boundary, k), buf2, a2).
Proof.
  intros Hk Hr H Hout. unfold http_input in H. destruct (read_line a buf) as [[rc line] a1] eqn:Hl.
  destruct (Z.eqb_spec rc 0) as [->|]; cbn [negb] in H;
    [|injection H as <- <- <- <-; by destruct Hout as [[=]|]].
  apply read_line_conf in Hl as (Hk1 & Hr1 & _).
  destruct (has_prefix (str "GET") (cstr line)) eqn:Hg, (has_prefix (str "POST") (cstr line)) eqn:Hp;
    cbn [orb negb] in H; try (injection H as <- <- <- <-; by destruct Hout as [[=]|]).
  all: apply bind_Ret in H as ([[h buf2] a2] & Hh & H); pose proof (read_headers_conf _ _ _ _ _ _ _ _ Hh) as (Hk2 & Hr2 & _).
  all: destruct h as [[boundary hash]|]; [|injection H as <- <- <- <-; by destruct Hout as [[=]|]].
  all: cbn [set_enable key realm] in H; rewrite Hk2, Hk1, Hk, Hr2, Hr1, Hr in H.
  all: destruct (streq hash k) eqn:Hs; [|injection H as <- <- <- <-; by destruct Hout as [[=]|]].
  all: apply streq_true in Hs; subst hash.
  1, 2: cbn in H; injection H as <- <- <- <-; by destruct Hout as [[=]|].
  by exists line, a1, boundary, buf2, a2.
Qed.

(** with a key and a realm configured, a request whose headers carry other
    credentials (or none) is answered with the 401 page and leaves the output
    untouched. *)
Theorem http_input_wrong_key PAGE_TITLE S fuel a buf w k r line a1 boundary hash buf2 a2 :
  key a = Some k -> realm a = Some r -> read_line a buf = (0, line, a1) ->
  has_prefix (str "GET") (cstr line) = true \/ has_prefix (str "POST") (cstr line) = true ->
  read_headers fuel a1 line [] [] = Ret (Some (boundary, hash), buf2, a2) -> hash <> k ->
  http_input PAGE_TITLE S fuel a buf w
    = Ret (HTTP_INPUT_AUTH_FAIL, set_enable true a2, w, http_unauth PAGE_TITLE r).
Proof.
  intros Hk Hr Hl Hm Hh Hne. unfold http_input. rewrite Hl. cbn [Z.eqb negb].
  apply read_line_conf in Hl as (Hk1 & Hr1 & _).
  destruct (read_headers_conf _ _ _ _ _ _ _ _ Hh) as (Hk2 & Hr2 & _).
  replace (has_prefix (str "GET") (cstr line) || has_prefix (str "POST") (cstr line)) with true
    by (symmetry; by apply orb_true_iff).
  cbn [negb]. rewrite Hh. rsimpl. cbn [set_enable key realm].
  rewrite Hk2, Hk1, Hk, Hr2, Hr1, Hr. by rewrite (proj2 (streq_false _ _)).
Qed.

(** [parse_boundary] copies the token into the 71-byte array of
    [http_input] without looking at its length: a Content-Type line with a
    boundary of more than 70 characters overruns it. *)
Theorem parse_boundary_overflow (tok boundary : list Z) :
  70 < zlen tok -> Forall (fun c => separator c = false /\ c <> 0) tok ->
  parse_boundary (str "Content-Type: multipart/form-data; boundary=" ++ tok ++ [0]) boundary = Undef.
Proof.
  intros Hlen Htok. unfold parse_boundary.
  assert (nonul (str "Content-Type: multipart/form-data; boundary=" ++ tok)) as Hn.
  { apply Forall_app_2; [repeat constructor; discriminate|]. eapply Forall_impl; [exact Htok|]. by intros c [_ ?]. }
  rewrite app_assoc, cstr_app by exact Hn.
  assert (strstr (zdrop (zlen (str "Content-Type:")) (str "Content-Type: multipart/form-data; boundary=" ++ tok))
            (str "boundary=") = Some (str "boundary=" ++ tok)) as -> by reflexivity.
  assert (strstr (str "Content-Type: multipart/form-data; boundary=" ++ tok) (str "multipart/form-data")
          = Some (str "multipart/form-data; boundary=" ++ tok)) as -> by reflexivity.
  assert (zdrop (zlen (str "boundary=")) (str "boundary=" ++ tok) = tok) as -> by reflexivity.
  assert (token tok = tok) as ->.
  { unfold token. rewrite <- (app_nil_r tok) at 1. apply take_while_all; [|done].
    eapply Forall_impl; [exact Htok|]. by intros c [-> _]. }
  rewrite (proj2 (Z.ltb_ge _ _)), (proj2 (Z.ltb_lt _ _)) by lia. done.
Qed.

(** A whole request, credentials included. *)
Definition demo_request : list Z :=
  str "POST /upgrade HTTP/1.1" ++ CRLF ++ str "Authorization: Basic YWRtaW46YWRtaW4=" ++ CRLF ++
  str "Content-Type: multipart/form-data; boundary=Asrf456BGe4h" ++ CRLF ++
  str "Content-Length: 408" ++ CRLF ++ CRLF ++ str "--Asrf456BGe4h" ++ CRLF ++
  str "Content-Disposition: form-data; name=" ++ [QUOTE] ++ str "firmware" ++ [QUOTE] ++
  str "; filename=" ++ [QUOTE] ++ str "a.zimage" ++ [QUOTE] ++ CRLF ++ CRLF ++ demo_body.
Definition request_state (k : option (list Z)) (s : list Z) : args :=
  {| fd := [Data s]; len := 0; counter_value := 0; enable_counter := false;
     key := k; realm := Some (str "zrouter"); outfile := str "/dev/map/upgrade"; filename := zrep 256 0; filesize := 0;
     inbuf_p := 0; inbuf_l := 0; inbuf := zrep 1024 0 |}.

Example http_input_demo :
  match http_input (str "T") (mkSys true true true) 500
          (request_state (Some (str "YWRtaW46YWRtaW4=")) demo_request) (zrep 256 0) (mkWriter [] []) with
  | Ret (st, a', w', page) => st = HTTP_INPUT_READY /\ fd_out w' = zrep 300 7 /\ filesize a' = 300
  | _ => False
  end.
Proof. vm_compute. repeat split. Qed.

Lemma http_input_authenticated_witness :
  exists line a1 boundary buf2 a2,
    read_line (request_state (Some (str "YWRtaW46YWRtaW4=")) demo_request) (zrep 256 0) = (0, line, a1) /\
    has_prefix (str "POST") (cstr line) = true /\
    read_headers 500 a1 line [] [] = Ret (Some (boundary, str "YWRtaW46YWRtaW4="), buf2, a2).
Proof.
  eapply (http_input_authenticated (str "T") (mkSys true true true) 500
            (request_state (Some (str "YWRtaW46YWRtaW4=")) demo_request) (zrep 256 0) (mkWriter [] [])).
  - reflexivity.
  - reflexivity.
  - vm_compute. reflexivity.
  - left. reflexivity.
Defined.

Lemma http_input_wrong_key_witness :
  exists a2, http_input (str "T") (mkSys true true true) 500 (request_state (Some (str "other")) demo_request)
               (zrep 256 0) (mkWriter [] [])
             = Ret (HTTP_INPUT_AUTH_FAIL, set_enable true a2, mkWriter [] [], http_unauth (str "T") (str "zrouter")).
Proof.
  eexists. eapply (http_input_wrong_key (str "T") (mkSys true true true) 500
            (request_state (Some (str "other")) demo_request) (zrep 256 0) (mkWriter [] []) (str "other") (str "zrouter")).
  - reflexivity.
  - reflexivity.
  - vm_compute. reflexivity.
  - right. reflexivity.
  - vm_compute. reflexivity.
  - discriminate.
Defined.

Lemma parse_boundary_overflow_witness :
  parse_boundary (str "Content-Type: multipart/form-data; boundary=" ++ zrep 71 65 ++ [0]) [] = Undef.
Proof.
  apply parse_boundary_overflow; [vm_compute; reflexivity|].
  repeat constructor; discriminate.
Defined.
