(* ===== verification/Image.v ===== *)
(** * Firmware images: image.h, and check_md5 of target/sbin/upgrade/upgrade.c

    The layout of [struct image_header] and [struct image_split_header], the
    block-wise reading of a file, and the check of the digest an image carries.
    The MD5 functions of libmd are a parameter: [md5 s] is the digest that
    [MD5Init], any [MD5Update]s whose data concatenate to [s], and [MD5Final]
    produce. *)

From S2P Require Import Prelude CLib.

(** Offsets in [struct image_header]. *)
Definition image_name_at : Z := 0x00.
Definition magic_kernel_at : Z := 0x20.
Definition magic_rootfs_at : Z := 0x24.
Definition image_size_at : Z := 0x28.
Definition image_offset_at : Z := 0x2c.
Definition image_device_at : Z := 0x30.
Definition image_digest_at : Z := 0x50.
Definition sizeof_image_header : Z := 0x60.

Definition DIR_320_DEFAULT_IMAGE_NAME : list Z := str "wrgg27_dlwbr_dir320".
Definition DIR_320_DEFAULT_MAGIC : Z := 0x20040220.
Definition DIR_320_DEFAULT_DEVICE : list Z := str "/dev/mtdblock/2".
Definition DIR_320_DEFAULT_SPLIT_SIGNATURE : list Z := str "--PaCkImGs--".

(** ** Reading a file block by block *)

(** What successive [fread (buf, 1, blocksize, fh)] return, up to the first
    that returns 0. *)
Fixpoint freads_fuel (k : nat) (blocksize : Z) (data : list Z) : list (list Z) :=
  match k with
  | O => []
  | S k' =>
      let c := ztake blocksize data in
      if zlen c =? 0 then [] else c :: freads_fuel k' blocksize (zdrop blocksize data)
  end.
Definition freads (blocksize : Z) (data : list Z) : list (list Z) :=
  freads_fuel (length data) blocksize data.

(** A block, zero-filled to the block size: [buf] was cleared before. *)
Definition pad_block (blocksize : Z) (c : list Z) : list Z := c ++ zrep (blocksize - zlen c) 0.

Lemma freads_fuel_concat k bs data :
  0 < bs -> (length data <= k)%nat -> concat (freads_fuel k bs data) = data.
Proof.
  intros Hbs. revert data. induction k as [|k IH]; intros data Hk; cbn [freads_fuel].
  - destruct data; [done|cbn in Hk; lia].
  - destruct (Z.eqb_spec (zlen (ztake bs data)) 0) as [He|He].
    + destruct data as [|b data]; [done|]. rewrite zlen_take, zlen_cons in He. pose proof (zlen_nonneg data). lia.
    + cbn [concat]. rewrite IH; [apply ztake_drop|]. unfold zdrop. rewrite length_drop.
      rewrite zlen_take in He. unfold zlen in He. lia.
Qed.
Lemma freads_concat bs data : 0 < bs -> concat (freads bs data) = data.
Proof. intros. by apply freads_fuel_concat. Qed.
Lemma freads_0 bs data : bs <= 0 -> freads bs data = [].
Proof.
  intros. unfold freads. destruct data as [|b data]; [done|]. cbn [length freads_fuel].
  rewrite zlen_take. rewrite (proj2 (Z.eqb_eq _ _)); [done|]. pose proof (zlen_nonneg (b :: data)). lia.
Qed.

(** All blocks but the last are full; together they are as long as the data
    rounded up to the block size. *)
Lemma freads_fuel_padded k bs data :
  0 < bs -> (length data <= k)%nat ->
  concat (map (pad_block bs) (freads_fuel k bs data)) = data ++ zrep ((- zlen data) mod bs) 0.
Proof.
  intros Hbs. revert data. induction k as [|k IH]; intros data Hk; cbn [freads_fuel].
  - destruct data; [|cbn in Hk; lia]. cbn [map concat app zlen length]. change (- Z.of_nat 0) with 0.
    by rewrite Z.mod_0_l by lia.
  - destruct (Z.eqb_spec (zlen (ztake bs data)) 0) as [He|He]; rewrite zlen_take in He.
    + destruct data as [|b data]; [|rewrite zlen_cons in He; pose proof (zlen_nonneg data); lia].
      cbn [map concat app]. change (- zlen []) with 0. by rewrite Z.mod_0_l by lia.
    + cbn [map concat]. unfold zlen in He.
      rewrite IH by (unfold zdrop; rewrite length_drop; lia). fold (zlen data) in He. unfold pad_block. rewrite zlen_take, zlen_drop.
      destruct (Z.le_gt_cases bs (zlen data)) as [Hl|Hl].
      * replace (bs - Z.max 0 (Z.min bs (zlen data))) with 0 by lia. cbn [zrep Z.to_nat replicate].
        rewrite app_nil_r, app_assoc, ztake_drop. do 2 f_equal.
        replace (- (zlen data - _)) with (- zlen data + 1 * bs) by lia. by rewrite Z.mod_add by lia.
      * rewrite ztake_all, zdrop_all by lia. cbn [app].
        replace (Z.max 0 (Z.min bs (zlen data))) with (zlen data) by lia. rewrite Z.sub_diag.
        change (- 0) with 0. rewrite Z.mod_0_l by lia. rewrite app_nil_r. do 2 f_equal.
        apply (Z.mod_unique_pos _ _ (-1)); lia.
Qed.
Lemma freads_padded bs data :
  0 < bs -> concat (map (pad_block bs) (freads bs data)) = data ++ zrep ((- zlen data) mod bs) 0.
Proof. intros. by apply freads_fuel_padded. Qed.

(** ** check_md5 *)

Section Md5.
Variable md5 : list Z -> list Z.
(** The byte order of the host. *)
Variable big : bool.

(** The [for] on the image data: what has been given to [MD5Update], [acc]
    included.  A negative [size] is an enormous [count], on which [read]
    fails and [MD5Update] is given the length -1. *)
Fixpoint md5_loop (k : nat) (size blocksize : Z) (data acc : list Z) : run (list Z) :=
  let n := if blocksize <? size then blocksize else size in
  if n <? 0 then Undef else
  let i := Z.min n (zlen data) in
  if i =? 0 then Ret acc
  else match k with
       | O => NoFuel
       | S k' => md5_loop k' (size - i) blocksize (zdrop i data) (acc ++ ztake i data)
       end.

(** [check_md5], on a descriptor whose file holds [data]. *)
Definition check_md5 (malloc_ok : bool) (data : list Z) (blocksize : Z) : run Z :=
  if negb malloc_ok then Ret 1 else
  if zlen data <? sizeof_image_header then Ret 1 else
  let context := slice image_offset_at 4 data ++ slice image_device_at 32 data in
  let size := s32 (host_val big (slice image_size_at 4 data)) in
  context ← md5_loop (length data) size blocksize (zdrop sizeof_image_header data) context;
  Ret (if streq (md5 context) (slice image_digest_at 16 data) then 0 else 1).

(** What an intact image is: its digest is that of the offset, the device
    and [image_size] bytes of data (or what there is). *)
Definition image_size (data : list Z) : Z := host_val big (slice image_size_at 4 data).
Definition image_intact (data : list Z) : Prop :=
  sizeof_image_header <= zlen data /\
  md5 (slice image_offset_at 36 data ++ slice sizeof_image_header (image_size data) data)
  = slice image_digest_at 16 data.

Lemma md5_loop_spec k size bs data acc :
  0 < bs -> 0 <= size -> (length data <= k)%nat ->
  md5_loop k size bs data acc = Ret (acc ++ ztake size data).
Proof.
  intros Hbs. revert size data acc. induction k as [|k IH]; intros size data acc Hs Hk.
  - destruct data; [|cbn in Hk; lia]. cbn [md5_loop]. change (zlen []) with 0.
    destruct (Z.ltb_spec (if bs <? size then bs else size) 0) as [Hn|Hn]; [destruct (bs <? size); lia|].
    rewrite Z.min_r by lia. cbn [Z.eqb].
    unfold ztake. by rewrite take_nil, app_nil_r.
  - cbn [md5_loop]. set (n := if bs <? size then bs else size).
    assert (n = Z.min bs size) as -> by (unfold n; destruct (Z.ltb_spec bs size); lia).
    rewrite (proj2 (Z.ltb_ge _ _)) by lia.
    destruct (Z.eqb_spec (Z.min (Z.min bs size) (zlen data)) 0) as [He|He]; pose proof (zlen_nonneg data).
    + assert (ztake size data = []) as ->; [|by rewrite app_nil_r].
      apply zlen_0_nil. rewrite zlen_take. lia.
    + rewrite IH; [|lia|unfold zdrop; rewrite length_drop; unfold zlen in *; lia].
      rewrite <- app_assoc. do 2 f_equal. unfold ztake, zdrop. rewrite take_take_drop. f_equal. lia.
Qed.

Lemma slice_app {A} o n m (l : list A) :
  0 <= o -> 0 <= n -> 0 <= m -> slice o n l ++ slice (o + n) m l = slice o (n + m) l.
Proof.
  intros. unfold slice, ztake, zdrop. replace (Z.to_nat (n + m)) with (Z.to_nat n + Z.to_nat m)%nat by lia.
  rewrite <- take_take_drop. do 2 f_equal. rewrite drop_drop. f_equal. lia.
Qed.

Lemma check_md5_intact bs data :
  0 < bs -> 0 <= image_size data < 2 ^ 31 ->
  exists r, check_md5 true data bs = Ret r /\ (r = 0 \/ r = 1) /\ (r = 0 <-> image_intact data).
Proof.
  intros Hbs Hsz. unfold check_md5, image_intact, image_size in *. cbn [negb].
  destruct (Z.ltb_spec (zlen data) sizeof_image_header) as [Hl|Hl].
  { exists 1. split; [done|]. split; [by right|]. split; [done|lia]. }
  rewrite s32_small by lia. rewrite md5_loop_spec; [|done|lia|unfold zdrop; rewrite length_drop; lia].
  rsimpl. change image_device_at with (image_offset_at + 4). rewrite slice_app by (unfold image_offset_at; lia).
  change (ztake (host_val big (slice image_size_at 4 data)) (zdrop sizeof_image_header data))
    with (slice sizeof_image_header (host_val big (slice image_size_at 4 data)) data).
  change (4 + 32) with 36. destruct (streq _ _) eqn:Hd.
  - apply streq_true in Hd. exists 0. split; [done|]. split; [by left|]. done.
  - apply streq_false in Hd. exists 1. split; [done|]. split; [by right|]. split; [done|]. by intros [_ ?].
Qed.

(** The check never runs out of the fuel it is given: it gives a verdict, or
    the size field is negative as an [int]. *)
Lemma check_md5_total ok data bs : check_md5 ok data bs <> NoFuel.
Proof.
  assert (forall k size dat acc, (length dat <= k)%nat -> md5_loop k size bs dat acc <> NoFuel) as Hloop.
  { induction k as [|k IH]; intros size dat acc Hk; cbn [md5_loop]; destruct (_ <? 0) eqn:Hn; try done;
      destruct (Z.eqb_spec (Z.min (if bs <? size then bs else size) (zlen dat)) 0) as [He|He]; try done.
    - apply Z.ltb_ge in Hn. unfold zlen in He. lia.
    - apply IH. unfold zdrop. rewrite length_drop. apply Z.ltb_ge in Hn. unfold zlen in *. lia. }
  unfold check_md5. destruct ok; [|done]. cbn [negb]. destruct (_ <? _); [done|].
  destruct (md5_loop _ _ _ _ _) eqn:E; rsimpl; try done. exfalso. eapply Hloop; [|exact E].
  unfold zdrop. rewrite length_drop. lia.
Qed.
End Md5.
