(* ===== verification/PackImage.v ===== *)
(** * tools/packimage/packimage.c

    Packs a kernel and a root file system into one image: the kernel padded to
    the block size, the split header, the root file system, behind an image
    header with the digest that [check_md5] of the upgrade utility verifies.
    The temporary file is its content; a stream's pending data is what it
    holds.  Messages are not modelled. *)

From S2P Require Import Prelude CLib Endian Image.

(** What [getopt] returns. *)
Inductive pk_opt :=
| Pk_k (optarg : list Z)
| Pk_o (optarg : list Z)
| Pk_q
| Pk_r (optarg : list Z)
| Pk_s (optarg : list Z)
| Pk_other.

Record pk_opts := mkPkOpts {
  pk_kernel : option (list Z);
  pk_outfile : list Z;
  pk_rootfs : option (list Z);
  pk_blocksize : Z;
}.
Definition DEFAULT_OUTFILE : list Z := str "DIR-320_FBSD.img".
Definition pk_opts0 : pk_opts :=
  {| pk_kernel := None; pk_outfile := DEFAULT_OUTFILE; pk_rootfs := None; pk_blocksize := 0x10000 |}.

Definition pk_usage {A} : outcome A := Exit 1.

Definition pk_do_opt (s : pk_opts) (o : pk_opt) : outcome pk_opts :=
  match o with
  | Pk_k a => Ok {| pk_kernel := Some a; pk_outfile := pk_outfile s; pk_rootfs := pk_rootfs s;
                    pk_blocksize := pk_blocksize s |}
  | Pk_o a => Ok {| pk_kernel := pk_kernel s; pk_outfile := a; pk_rootfs := pk_rootfs s;
                    pk_blocksize := pk_blocksize s |}
  | Pk_q => Ok s
  | Pk_r a => Ok {| pk_kernel := pk_kernel s; pk_outfile := pk_outfile s; pk_rootfs := Some a;
                    pk_blocksize := pk_blocksize s |}
  | Pk_s a => Ok {| pk_kernel := pk_kernel s; pk_outfile := pk_outfile s; pk_rootfs := pk_rootfs s;
                    pk_blocksize := s32 (strtoul a 0).1.1 |}
  | Pk_other => pk_usage
  end.
Fixpoint pk_do_opts (s : pk_opts) (l : list pk_opt) : outcome pk_opts :=
  match l with
  | [] => Ok s
  | o :: r => s' ← pk_do_opt s o; pk_do_opts s' r
  end.

(** The last [fgetpos] stores eight bytes at the address of the 4-byte [i].  What the
    compiler has put into the four bytes behind it: nothing that is used any more,
    [exitcode], or a part of a pointer that error_exit uses. *)
Inductive pk_slot := Slot_dead | Slot_exitcode | Slot_pointer.

(** The files that can be read, whether the allocation, the temporary file and
    the output (opened twice) succeed, and how many of the [i] items the [c]-th
    [fwrite] on the temporary file, the header's and the [c]-th one on the
    output accept; the place behind [i]. *)
Record pk_env := mkPkEnv {
  pk_read : list Z -> option (list Z);
  pk_malloc : bool;
  pk_fdopen : bool;
  pk_fopen1 : bool;
  pk_fopen2 : bool;
  pk_fwrite_tmp : nat -> Z -> Z;
  pk_fwrite_hdr : Z -> Z;
  pk_fwrite_out : nat -> Z -> Z;
  pk_behind_i : pk_slot;
}.

Section Pack.
Variable md5 : list Z -> list Z.
Variable big : bool.
Variable E : pk_env.

(** Write blocks on the temporary file, [c] being the number of writes
    before: the file and the count, or exit status 4. *)
Fixpoint write_tmp (c : nat) (blocks : list (list Z)) (tmp : list Z) : outcome (nat * list Z) :=
  match blocks with
  | [] => Ok (c, tmp)
  | b :: r =>
      if negb (pk_fwrite_tmp E c (zlen b) =? zlen b) then Exit 4
      else write_tmp (S c) r (tmp ++ b)
  end.

(** The data loop on the output goes on after a short write. *)
Fixpoint write_out (c : nat) (blocks : list (list Z)) (out : list Z) (exitcode : Z) : Z * list Z :=
  match blocks with
  | [] => (exitcode, out)
  | b :: r =>
      let n := pk_fwrite_out E c (zlen b) in
      write_out (S c) r (out ++ ztake n b) (if negb (n =? zlen b) then 4 else exitcode)
  end.

(** The byte swap of [split.image_size]. *)
Definition swap32 (v : Z) : Z :=
  Z.lor (Z.lor (Z.lor (u32 (Z.shiftl (Z.land v 0x000000ff) 24)) (u32 (Z.shiftl (Z.land v 0x0000ff00) 8)))
               (Z.shiftr (Z.land v 0x00ff0000) 8)) (Z.shiftr (Z.land v 0xff000000) 24).

(** [struct image_split_header] for a root file system of [size] bytes:
    [fgetpos] stores eight bytes over [image_size] and [image_offset], then
    [image_size] is swapped. *)
Definition split_header (size : Z) : list Z :=
  let pos := host_bytes big 8 size in
  strncpy_field 16 DIR_320_DEFAULT_SPLIT_SIGNATURE ++
  host_bytes big 4 (swap32 (host_val big (ztake 4 pos))) ++ zdrop 4 pos ++ zrep 8 0.
Definition sizeof_image_split_header : Z := 32.

(** [struct image_header] in front of [size] bytes, [image_offset] being
    overwritten by the high half of the position. *)
Definition image_header (size : Z) (digest : list Z) : list Z :=
  strncpy_field 32 DIR_320_DEFAULT_IMAGE_NAME ++
  host_bytes big 4 DIR_320_DEFAULT_MAGIC ++ host_bytes big 4 DIR_320_DEFAULT_MAGIC ++
  host_bytes big 8 size ++ strncpy_field 32 DIR_320_DEFAULT_DEVICE ++ digest.

Definition UPGRADEFS_SIZE : Z := (64 - 6) * 0x10000.

(** The last [fgetpos] and the check behind it: the exit status, from the one so far and
    the position.  With a corrupted pointer the closing calls are undefined. *)
Definition store_pos (exitcode pos : Z) : outcome Z :=
  let bytes := host_bytes big 8 pos in
  let i := s32 (host_val big (ztake 4 bytes)) in
  let behind := s32 (host_val big (zdrop 4 bytes)) in
  exitcode ← (match pk_behind_i E with Slot_dead => Ok exitcode | Slot_exitcode => Ok behind | Slot_pointer => UB end);
  Ok (if UPGRADEFS_SIZE <? i then 5 else exitcode).
(** [main]: the exit status and the output file. *)
Definition pack (s : pk_opts) : outcome (Z * list Z) :=
  match pk_kernel s, pk_rootfs s with
  | Some kernel, Some rootfs =>
      let blocksize := pk_blocksize s in
      if negb (pk_malloc E && (0 <=? blocksize)) then Exit 2 else
      if negb (pk_fdopen E) then Exit 3 else
      match pk_read E kernel with
      | None => Exit 3
      | Some kdata =>
          '(c, tmp) ← write_tmp 0 (map (pad_block blocksize) (freads blocksize kdata)) [];
          match pk_read E rootfs with
          | None => Exit 3
          | Some rdata =>
              '(c, tmp) ← write_tmp c [split_header (zlen rdata)] tmp;
              '(c, tmp) ← write_tmp c (freads blocksize rdata) tmp;
              if negb (pk_fopen1 E) then Exit 3 else
              let pos := host_bytes big 8 (zlen tmp) in
              let digest := md5 (zdrop 4 pos ++ strncpy_field 32 DIR_320_DEFAULT_DEVICE ++
                                 concat (freads blocksize tmp)) in
              if negb (pk_fopen2 E) then Exit 3 else
              let header := image_header (zlen tmp) digest in
              if negb (pk_fwrite_hdr E (zlen header) =? zlen header) then Exit 4 else
              let '(exitcode, out) := write_out 0 (freads blocksize tmp) header 0 in
              exitcode ← store_pos exitcode (zlen out);
              Ok (exitcode, out)
          end
      end
  | _, _ => pk_usage
  end.

Definition packimage_main (opts : list pk_opt) : outcome (Z * list Z) :=
  s ← pk_do_opts pk_opts0 opts; pack s.

(** ** What a successful run leaves *)

Lemma write_tmp_Ok c blocks tmp c' tmp' :
  write_tmp c blocks tmp = Ok (c', tmp') -> tmp' = tmp ++ concat blocks.
Proof.
  revert c tmp. induction blocks as [|b r IH]; intros c tmp H; cbn [write_tmp concat] in *.
  - injection H as <- <-. by rewrite app_nil_r.
  - destruct (negb _); [done|]. apply IH in H as ->. by rewrite <- app_assoc.
Qed.
Lemma write_out_code c blocks out e : (write_out c blocks out e).1 = e \/ (write_out c blocks out e).1 = 4.
Proof.
  revert c out e. induction blocks as [|b r IH]; intros c out e; cbn [write_out]; [by left|].
  destruct (negb _); [|apply IH]. right. destruct (IH (S c) (out ++ ztake (pk_fwrite_out E c (zlen b)) b) 4); done.
Qed.
Lemma write_out_clean c blocks out out' :
  write_out c blocks out 0 = (0, out') -> out' = out ++ concat blocks.
Proof.
  revert c out. induction blocks as [|b r IH]; intros c out H; cbn [write_out concat] in *.
  - injection H as <-. by rewrite app_nil_r.
  - destruct (Z.eqb_spec (pk_fwrite_out E c (zlen b)) (zlen b)) as [He|]; cbn [negb] in H.
    + apply IH in H as ->. rewrite He, ztake_all, <- app_assoc by lia. done.
    + destruct (write_out_code (S c) r (out ++ ztake (pk_fwrite_out E c (zlen b)) b) 4) as [H'|H'];
        rewrite H in H'; done.
Qed.
End Pack.

Lemma swap32_spec v : 0 <= v < 2 ^ 32 -> swap32 v = bswap32 v.
Proof.
  intros Hv. unfold swap32. rewrite bswap32_bits.
  change 0xff000000 with (Z.shiftl 255 24). change 0x00ff0000 with (Z.shiftl 255 16).
  change 0x0000ff00 with (Z.shiftl 255 8). change 0x000000ff with (Z.ones 8).
  rewrite mask_shift, !mask_byte, Z.land_ones by lia.
  assert (0 <= v / 2 ^ 16 mod 256 < 256) by (apply Z.mod_pos_bound; lia).
  rewrite !Z.shiftl_mul_pow2, Z.shiftr_div_pow2 by lia. do 2 f_equal.
  - do 2 f_equal. lia.
  - rewrite u32_small by lia. change (2 ^ 16) with (2 ^ 8 * 2 ^ 8). rewrite Z.mul_assoc, Z.div_mul by lia. done.
Qed.

Lemma le_bytes_8 v : 0 <= v < 2 ^ 32 -> ztake 4 (le_bytes 8 v) = le_bytes 4 v /\ zdrop 4 (le_bytes 8 v) = zrep 4 0.
Proof.
  intros Hv. split; [done|]. unfold zdrop, zrep. cbv [le_bytes Z.to_nat Pos.to_nat Pos.iter_op Nat.add drop replicate].
  rewrite !Z.div_div by lia. rewrite !(Z.div_small v) by lia. done.
Qed.

(** On a little-endian host: the split header of [size] bytes holds the size
    big-endian. *)
Lemma split_header_le size :
  0 <= size < 2 ^ 32 ->
  split_header false size
  = strncpy_field 16 DIR_320_DEFAULT_SPLIT_SIGNATURE ++ be_bytes 4 size ++ zrep 12 0.
Proof.
  intros Hs. unfold split_header, host_bytes, host_val. destruct (le_bytes_8 size Hs) as [-> ->].
  rewrite le_val_bytes32, u32_small, swap32_spec by done.
  change (le_bytes 4 (bswap32 size)) with (host_bytes false 4 (htonl false size)).
  by rewrite htonl_bytes.
Qed.

(** The pieces of a run with exit status 0. *)
Lemma pack_Ok md5 big E s out :
  pack md5 big E s = Ok (0, out) -> 0 < pk_blocksize s -> pk_behind_i E = Slot_dead ->
  exists kernel rootfs kdata rdata,
    pk_kernel s = Some kernel /\ pk_rootfs s = Some rootfs /\
    pk_read E kernel = Some kdata /\ pk_read E rootfs = Some rdata /\
    let data := kdata ++ zrep ((- zlen kdata) mod pk_blocksize s) 0 ++ split_header big (zlen rdata) ++ rdata in
    out = image_header big (zlen data)
            (md5 (zdrop 4 (host_bytes big 8 (zlen data)) ++ strncpy_field 32 DIR_320_DEFAULT_DEVICE ++ data)) ++ data.
Proof.
  intros H Hbs Hi. unfold pack in H. destruct (pk_kernel s) as [kernel|]; [|done].
  destruct (pk_rootfs s) as [rootfs|]; [|done]. inv_ok H. inv_ok H.
  destruct (pk_read E kernel) as [kdata|] eqn:Hk; [|done].
  apply bind_Ok in H as ([c tmp] & H1 & H). destruct (pk_read E rootfs) as [rdata|] eqn:Hr; [|done].
  apply bind_Ok in H as ([c2 tmp2] & H2 & H). apply bind_Ok in H as ([c3 tmp3] & H3 & H).
  apply write_tmp_Ok in H1, H2, H3. rewrite freads_padded in H1 by done.
  rewrite freads_concat in H3 by done. cbn [concat app] in H1, H2. rewrite app_nil_r in H2.
  assert (tmp3 = kdata ++ zrep ((- zlen kdata) mod pk_blocksize s) 0 ++ split_header big (zlen rdata) ++ rdata) as Ht
    by (subst; by rewrite <- !app_assoc).
  inv_ok H. inv_ok H. inv_ok H. destruct (write_out _ _ _ _ _) as [e o] eqn:Hw. unfold store_pos in H. rewrite Hi in H. bsimpl in H. injection H as He <-.
  destruct (_ <? _); [done|]. subst e. apply write_out_clean in Hw. rewrite freads_concat in Hw by done.
  exists kernel, rootfs, kdata, rdata. do 4 (split; [done|]). cbv zeta. by rewrite <- Ht, Hw.
Qed.

Lemma image_header_fields big size digest :
  zlen digest = 16 ->
  let h := image_header big size digest in
  zlen h = sizeof_image_header /\ slice image_size_at 8 h = host_bytes big 8 size /\
  slice image_device_at 32 h = strncpy_field 32 DIR_320_DEFAULT_DEVICE /\ slice image_digest_at 16 h = digest.
Proof.
  intros Hd h. set (name := strncpy_field 32 DIR_320_DEFAULT_IMAGE_NAME).
  set (dev := strncpy_field 32 DIR_320_DEFAULT_DEVICE). set (magic := host_bytes big 4 DIR_320_DEFAULT_MAGIC).
  set (pos := host_bytes big 8 size).
  assert (h = name ++ magic ++ magic ++ pos ++ dev ++ digest) as -> by done.
  assert (zlen name = 32) by done. assert (zlen dev = 32) by done.
  assert (zlen magic = 4) by (apply zlen_host_bytes). assert (zlen pos = 8) by (apply zlen_host_bytes).
  clearbody name dev magic pos. unfold sizeof_image_header, image_size_at, image_device_at, image_digest_at.
  split_and!.
  - zlen.
  - apply (slice_at (name ++ magic ++ magic) _ (dev ++ digest)); [by rewrite <- !app_assoc|zlen..].
  - apply (slice_at (name ++ magic ++ magic ++ pos) _ digest); [by rewrite <- !app_assoc|zlen..].
  - apply (slice_at (name ++ magic ++ magic ++ pos ++ dev) _ []); [by rewrite app_nil_r, <- !app_assoc|zlen..].
Qed.

(** A packed image is intact. *)
Lemma image_header_intact md5 size data :
  (forall x, zlen (md5 x) = 16) -> zlen data = size -> size < 2 ^ 32 ->
  let digest := md5 (zdrop 4 (le_bytes 8 size) ++ strncpy_field 32 DIR_320_DEFAULT_DEVICE ++ data) in
  let img := image_header false size digest ++ data in
  image_size false img = size /\ image_intact md5 false img.
Proof.
  intros Hmd Hz Hsz digest img. pose proof (zlen_nonneg data).
  destruct (image_header_fields false size digest (Hmd _)) as (Hl & Hpos & Hdev & Hdig).
  destruct (le_bytes_8 size ltac:(lia)) as [Hlo Hhi]. cbv zeta in *. set (h := image_header false size digest) in *.
  unfold sizeof_image_header, image_size_at, image_offset_at, image_device_at, image_digest_at in *.
  assert (slice 0x28 4 img = le_bytes 4 size) as Hsize.
  { unfold img, image_size_at. rewrite slice_prefix by lia. rewrite <- Hlo, <- Hpos at 1.
    rewrite <- slice_0, slice_slice by lia. done. }
  assert (image_size false img = size) as Hs.
  { unfold image_size, image_size_at. rewrite Hsize. cbn [host_val]. rewrite le_val_bytes32. apply u32_small. lia. }
  split; [done|]. unfold image_intact, sizeof_image_header, image_offset_at, image_digest_at. rewrite Hs.
  split; [unfold img; rewrite zlen_app; lia|].
  assert (slice 0x2c 36 h = zdrop 4 (le_bytes 8 size) ++ strncpy_field 32 DIR_320_DEFAULT_DEVICE) as Hctx.
  { change 36 with (4 + 32). rewrite <- slice_app by lia. by f_equal. }
  assert (slice 0x60 size img = data) as Hdat by (apply (slice_at h data []); [by rewrite app_nil_r|lia..]).
  rewrite Hdat. unfold img. rewrite (slice_prefix 0x2c), (slice_prefix 0x50), Hdig, Hctx by lia.
  unfold digest. by rewrite <- app_assoc.
Qed.

Lemma packimage_intact md5 E options out s :
  (forall x, zlen (md5 x) = 16) ->
  pk_do_opts pk_opts0 options = Ok s -> 0 < pk_blocksize s -> pk_behind_i E = Slot_dead ->
  packimage_main md5 false E options = Ok (0, out) -> zlen out < 2 ^ 32 ->
  image_size false out = zlen out - sizeof_image_header /\ image_intact md5 false out.
Proof.
  intros Hmd Ho Hbs Hi H Hlen. unfold packimage_main in H. rewrite Ho in H. bsimpl in H.
  apply pack_Ok in H as (kernel & rootfs & kdata & rdata & ? & ? & ? & ? & Hout); [|done..]. cbv zeta in Hout.
  set (data := kdata ++ _) in Hout. set (dg := md5 _) in Hout.
  destruct (image_header_fields false (zlen data) dg (Hmd _)) as (Hl & _ & _ & _). cbv zeta in Hl.
  assert (zlen out = sizeof_image_header + zlen data) as Hlo by (rewrite Hout, zlen_app, Hl; done).
  unfold sizeof_image_header in *.
  destruct (image_header_intact md5 (zlen data) data Hmd eq_refl ltac:(lia)) as [Hsz Hin].
  cbv zeta in Hsz, Hin. change (le_bytes 8 (zlen data)) with (host_bytes false 8 (zlen data)) in Hsz, Hin.
  fold dg in Hsz, Hin. rewrite <- Hout in Hsz, Hin. split; [lia|done].
Qed.

(** ** Properties *)

(** on a little-endian host, where nothing in use is behind [i], a run that exits with status 0 leaves an image
    made of the 96-byte header, the kernel zero-padded to the block size, the
    split header with the big-endian size of the root file system, and the
    root file system. *)
Theorem packimage_layout md5 E options out s :
  (forall x, zlen (md5 x) = 16) ->
  pk_do_opts pk_opts0 options = Ok s -> 0 < pk_blocksize s -> pk_behind_i E = Slot_dead ->
  packimage_main md5 false E options = Ok (0, out) -> zlen out < 2 ^ 32 ->
  exists kernel rootfs kdata rdata,
    pk_kernel s = Some kernel /\ pk_rootfs s = Some rootfs /\
    pk_read E kernel = Some kdata /\ pk_read E rootfs = Some rdata /\
    zdrop sizeof_image_header out
    = kdata ++ zrep ((- zlen kdata) mod pk_blocksize s) 0 ++
      (strncpy_field 16 (str "--PaCkImGs--") ++ be_bytes 4 (zlen rdata) ++ zrep 12 0) ++ rdata.
Proof.
  intros Hmd Ho Hbs Hi H Hlen. unfold packimage_main in H. rewrite Ho in H. bsimpl in H.
  apply pack_Ok in H as (kernel & rootfs & kdata & rdata & ? & ? & ? & ? & Hout); [|done..].
  exists kernel, rootfs, kdata, rdata. do 4 (split; [done|]). cbv zeta in Hout.
  set (data := kdata ++ _) in Hout. set (dg := md5 _) in Hout.
  destruct (image_header_fields false (zlen data) dg (Hmd _)) as (Hl & _ & _ & _). cbv zeta in Hl.
  rewrite Hout in Hlen |- *. rewrite zlen_app, Hl in Hlen. unfold data, sizeof_image_header in Hlen.
  rewrite !zlen_app in Hlen. pose proof (zlen_nonneg kdata). pose proof (zlen_nonneg (split_header false (zlen rdata))).
  pose proof (zlen_nonneg (zrep ((- zlen kdata) mod pk_blocksize s) 0)).
  assert (zdrop sizeof_image_header (image_header false (zlen data) dg ++ data) = data) as ->.
  { rewrite <- Hl. unfold zdrop, zlen at 1. by rewrite Nat2Z.id, drop_app_length. }
  unfold data. rewrite split_header_le by (pose proof (zlen_nonneg rdata); lia). done.
Qed.

(** C13: on a little-endian host, with a positive block size and a compiler that keeps
    nothing it still uses behind [i] in the frame of [main], an image below 2 GiB packed
    with exit status 0 passes [check_md5] of the upgrade utility, whatever positive block
    size that uses. *)
Theorem packimage_verifies md5 E options out s bs :
  (forall x, zlen (md5 x) = 16) ->
  pk_do_opts pk_opts0 options = Ok s -> 0 < pk_blocksize s -> pk_behind_i E = Slot_dead ->
  packimage_main md5 false E options = Ok (0, out) -> zlen out < 2 ^ 31 -> 0 < bs ->
  check_md5 md5 false true out bs = Ret 0.
Proof.
  intros Hmd Ho Hbs Hi H Hlen Hbs2.
  destruct (packimage_intact md5 E options out s Hmd Ho Hbs Hi H ltac:(lia)) as [Hsz Hin].
  pose proof Hin as [Hl _]. unfold sizeof_image_header in *.
  destruct (check_md5_intact md5 false bs out Hbs2) as (r & Hr & _ & Hiff); [lia|].
  rewrite Hr. f_equal. by apply Hiff.
Qed.

(** A run with a stand-in digest: the sum of the bytes, in 16 bytes. *)
Definition sum_digest (x : list Z) : list Z := le_bytes 16 (fold_left Z.add x 0).
Definition pk_demo_env : pk_env := {|
  pk_read := fun p => if streq p (str "k") then Some [1; 2; 3] else if streq p (str "r") then Some [9; 8] else None;
  pk_malloc := true; pk_fdopen := true; pk_fopen1 := true; pk_fopen2 := true;
  pk_fwrite_tmp := fun _ n => n; pk_fwrite_hdr := fun n => n; pk_fwrite_out := fun _ n => n; pk_behind_i := Slot_dead |}.
Definition pk_demo_opts : list pk_opt := [Pk_k (str "k"); Pk_r (str "r"); Pk_s (str "8")].
Lemma sum_digest_len x : zlen (sum_digest x) = 16.
Proof. apply zlen_le_bytes. Qed.

Lemma packimage_layout_witness :
  exists out s, packimage_main sum_digest false pk_demo_env pk_demo_opts = Ok (0, out) /\
  exists kernel rootfs kdata rdata,
    pk_kernel s = Some kernel /\ pk_rootfs s = Some rootfs /\
    pk_read pk_demo_env kernel = Some kdata /\ pk_read pk_demo_env rootfs = Some rdata /\
    zdrop sizeof_image_header out
    = kdata ++ zrep ((- zlen kdata) mod pk_blocksize s) 0 ++
      (strncpy_field 16 (str "--PaCkImGs--") ++ be_bytes 4 (zlen rdata) ++ zrep 12 0) ++ rdata.
Proof.
  eexists _, _. split; [vm_compute; reflexivity|].
  eapply (packimage_layout sum_digest pk_demo_env pk_demo_opts).
  - apply sum_digest_len.
  - vm_compute. reflexivity.
  - vm_compute. reflexivity.
  - reflexivity.
  - vm_compute. reflexivity.
  - vm_compute. reflexivity.
Defined.

Lemma packimage_verifies_witness :
  exists out, packimage_main sum_digest false pk_demo_env pk_demo_opts = Ok (0, out) /\
              check_md5 sum_digest false true out 5 = Ret 0.
Proof.
  eexists. split; [vm_compute; reflexivity|].
  eapply (packimage_verifies sum_digest pk_demo_env pk_demo_opts).
  - apply sum_digest_len.
  - vm_compute. reflexivity.
  - vm_compute. reflexivity.
  - reflexivity.
  - vm_compute. reflexivity.
  - vm_compute. reflexivity.
  - lia.
Defined.

(** With [exitcode] behind [i] a failed write is forgotten: exit status 0, and the image does
    not pass the check. *)
Definition pk_broken_env (slot : pk_slot) : pk_env := {|
  pk_read := pk_read pk_demo_env; pk_malloc := true; pk_fdopen := true; pk_fopen1 := true; pk_fopen2 := true;
  pk_fwrite_tmp := fun _ n => n; pk_fwrite_hdr := fun n => n; pk_fwrite_out := fun _ n => n - 1; pk_behind_i := slot |}.
Example packimage_masks_errors :
  match packimage_main sum_digest false (pk_broken_env Slot_exitcode) pk_demo_opts, packimage_main sum_digest false (pk_broken_env Slot_dead) pk_demo_opts with
  | Ok (e1, out1), Ok (e2, out2) => e1 = 0 /\ e2 = 4 /\ out1 = out2 /\ check_md5 sum_digest false true out1 5 <> Ret 0
  | _, _ => False
  end.
Proof. vm_compute. split_and!; done. Qed.
