(* ===== verification/Upgrade.v ===== *)
(** * target/sbin/upgrade/upgrade.c

    The options, the HTTP mode, the size checks against the device, the copy of
    the image to the device block by block, the verification of what was
    written and the reboot.  The device is the list of bytes it holds, [write]
    putting as many bytes of the block as the environment says at the current
    position.  Messages on [console] are not modelled, and so are [silent], the
    [-l] log and the first [check_md5], whose result is only printed.  The
    image file and the device are distinct files. *)

From S2P Require Import Prelude CLib Image HttpPages RingBuffer HttpInput.

(** The options of the build. *)
Record build := mkBuild { USE_GEOM_GET_SIZE : bool; USE_MD5 : bool; WITH_HTTP_MODE : bool }.

(** What [getopt] returns. *)
Inductive up_opt :=
| Up_f (optarg : list Z)
| Up_d (optarg : list Z)
| Up_G
| Up_l (optarg : list Z)
| Up_q
| Up_R
| Up_S
| Up_s (optarg : list Z)
| Up_h
| Up_H (optarg : list Z)
| Up_M (optarg : list Z)
| Up_V
| Up_other.

Record up_opts := mkUpOpts {
  up_file : option (list Z);
  up_device : list Z;
  target_size_check : bool;
  do_sync : bool;
  rebt : bool;
  up_blocksize : Z;
  http_mode : bool;
  verify : bool;
  args_key : option (list Z);
  args_realm : option (list Z);
}.

Definition DEFAULT_DEVICE : list Z := str "/dev/map/upgrade".
Definition up_opts0 : up_opts :=
  {| up_file := None; up_device := DEFAULT_DEVICE; target_size_check := true; do_sync := true; rebt := true;
     up_blocksize := 0x10000; http_mode := false; verify := true; args_key := None; args_realm := None |}.

(** The [switch] of the option loop; [usage] exits with status 1. *)
Definition up_do_opt (b : build) (s : up_opts) (o : up_opt) : outcome up_opts :=
  let '(mkUpOpts f d t y r z h v k m) := s in
  match o with
  | Up_f a => Ok (mkUpOpts (Some a) d t y r z h v k m)
  | Up_d a => Ok (mkUpOpts f a t y r z h v k m)
  | Up_G => if USE_GEOM_GET_SIZE b then Ok (mkUpOpts f d false y r z h v k m) else Exit 1
  | Up_l _ | Up_q => Ok s
  | Up_R => Ok (mkUpOpts f d t y false z h v k m)
  | Up_S => Ok (mkUpOpts f d t false r z h v k m)
  | Up_s a => Ok (mkUpOpts f d t y r (s32 (strtoul a 0).1.1) h v k m)
  | Up_h => if WITH_HTTP_MODE b then Ok (mkUpOpts f d t y r z true v k m) else Exit 1
  | Up_H a => if WITH_HTTP_MODE b then Ok (mkUpOpts f d t y r z h v (Some a) m) else Exit 1
  | Up_M a => if WITH_HTTP_MODE b then Ok (mkUpOpts f d t y r z h v k (Some a)) else Exit 1
  | Up_V => if USE_MD5 b then Ok (mkUpOpts f d t y r z h false k m) else Exit 1
  | Up_other => Exit 1
  end.
Fixpoint up_do_opts (b : build) (s : up_opts) (l : list up_opt) : outcome up_opts :=
  match l with
  | [] => Ok s
  | o :: r => s' ← up_do_opt b s o; up_do_opts b s' r
  end.

(** What the program finds outside. *)
Record up_env := mkUpEnv {
  up_read : list Z -> option (list Z);     (** the content of a file *)
  up_open : list Z -> option (list Z);     (** a device that opens, and what it holds *)
  up_g_open : list Z -> option (option Z); (** [g_open], [g_mediasize] *)
  up_stale : Z;                            (** [target_size] before any assignment *)
  up_sysctl : option Z;                    (** kern.geom.debugflags *)
  up_malloc : bool;
  up_write : nat -> Z -> Z;                (** the result of the [c]-th [write] of [n] bytes *)
  up_stdin : list rd;
  up_alloc1 : bool;
  up_alloc2 : bool;
}.

(** The result: exit status, what the device holds, the flags of [reboot]. *)
Record up_result := mkRes { r_exit : Z; r_dev : list Z; r_reboot : option Z }.
Definition RB_AUTOBOOT : Z := 0.
Definition RB_NOSYNC : Z := 4.

Section Upgrade.
Variable md5 : list Z -> list Z.
Variable big : bool.
Variable PAGE_TITLE : list Z.
Variable b : build.
Variable E : up_env.

(** target/sbin/upgrade/geom_get_size.c *)
Definition geom_get_size (gname : list Z) : Z :=
  match up_g_open E gname with Some (Some sz) => u64 sz | _ => 0 end.

(** [check_geom_debugflags16_enabled]: the new flags. *)
Definition check_geom_debugflags16_enabled : outcome Z :=
  match up_sysctl E with
  | None => Exit 1
  | Some val => Ok (if Z.land val 16 =? 0 then Z.lor val 16 else val)
  end.

(** [struct args] after [bzero] and the two assignments that follow it. *)
Definition http_args (file : list Z) : args :=
  {| fd := up_stdin E; len := 0; counter_value := 0; enable_counter := false; key := None; realm := None;
     outfile := file; filename := zrep 256 0; filesize := 0; inbuf_p := 0; inbuf_l := 0;
     inbuf := zrep INPUT_BUFFER_SIZE 0 |}.

(** The [switch] on the status: an exit status, or go on. *)
Definition http_exit (status : Z) : option Z :=
  if status =? HTTP_INPUT_READY then None
  else if (status =? HTTP_INPUT_SHOW_INDEX) || (status =? HTTP_INPUT_AUTH_FAIL) then Some 0
  else if status =? HTTP_INPUT_BAD_MULTIPART then Some 0
  else if status =? HTTP_INPUT_CANT_OPEN_OFILE then Some 0
  else if status =? HTTP_INPUT_FW_PART_REQUIRED then Some 1
  else if status =? HTTP_INPUT_METHOD_ERR then Some 1
  else if status =? HTTP_INPUT_RB_INIT_ERR then Some 1
  else if status =? HTTP_INPUT_READ_ERR then Some 1
  else None.

(** Writing over an existing file opened without O_TRUNC. *)
Definition overwrite (out old : list Z) : list Z := out ++ zdrop (zlen out) old.

(** The copy loop: the exit status and the device. *)
Fixpoint write_blocks (http : bool) (filesize blocksize : Z) (c : nat) (blocks : list (list Z))
    (bytes pos : Z) (dev : list Z) (exitcode : Z) : Z * list Z :=
  match blocks with
  | [] => (exitcode, dev)
  | blk :: r =>
      let n := up_write E c blocksize in
      let d := ztake n (pad_block blocksize blk) in
      let dev := splice pos d dev in
      let exitcode := if negb (n =? blocksize) then 7 else exitcode in
      if http && (filesize <=? u32 bytes) then (exitcode, dev)
      else write_blocks http filesize blocksize (S c) r (s32 (bytes + blocksize)) (pos + zlen d) dev exitcode
  end.

(** From the [open] of the device to the end. *)
Definition flash (s : up_opts) (http : bool) (vrfy : bool) (filesize : Z) (data dev0 : list Z) : run up_result :=
  let blocksize := up_blocksize s in
  match up_open E (up_device s) with
  | None => Ret (mkRes 1 dev0 None)
  | Some dev =>
      let '(exitcode, dev) := write_blocks http filesize blocksize 0 (freads blocksize data) 0 0 dev 0 in
      exitcode ← (if USE_MD5 b && vrfy then
                    check ← check_md5 md5 big (up_malloc E) dev blocksize;
                    Ret (if negb (check =? 0) then 7 else exitcode)
                  else Ret exitcode);
      Ret (mkRes exitcode dev
             (if rebt s && (exitcode =? 0)
              then Some (if do_sync s then RB_AUTOBOOT else Z.lor RB_AUTOBOOT RB_NOSYNC) else None))
  end.

(** From the size checks on: [file] holds [content], in HTTP mode the upload
    was of [filesize] bytes. *)
Definition install (s : up_opts) (http vrfy : bool) (filesize : Z) (content : option (list Z)) (dev0 : list Z)
    : run up_result :=
  let target_size := if target_size_check s then geom_get_size (up_device s) else up_stale E in
  if USE_GEOM_GET_SIZE b && (target_size =? 0) then Ret (mkRes 1 dev0 None) else
  if USE_GEOM_GET_SIZE b && http && (target_size <? filesize) then Ret (mkRes 1 dev0 None) else
  match check_geom_debugflags16_enabled with
  | Ok _ =>
      match content with
      | None => Ret (mkRes 1 dev0 None)
      | Some data =>
          if USE_GEOM_GET_SIZE b && (target_size <? zlen data) then Ret (mkRes 1 dev0 None) else
          if negb (up_malloc E && (0 <=? up_blocksize s)) then Ret (mkRes 2 dev0 None) else
          flash s http vrfy filesize data dev0
      end
  | Exit c => Ret (mkRes c dev0 None)
  | UB => Undef
  end.

(** [main] after the option loop.  [buf] is the line buffer of [http_input]
    as it is on entry. *)
Definition upgrade (fuel : nat) (buf : list Z) (s : up_opts) : run up_result :=
  let dev0 := default [] (up_open E (up_device s)) in
  match up_file s with
  | None => Ret (mkRes 1 dev0 None)
  | Some file =>
      if WITH_HTTP_MODE b && http_mode s then
        let S := mkSys (bool_decide (is_Some (up_read E file))) (up_alloc1 E) (up_alloc2 E) in
        '(status, a, w, _) ← http_input PAGE_TITLE S fuel (http_args file) buf (mkWriter [] []);
        match http_exit status with
        | Some exitcode => Ret (mkRes exitcode dev0 None)
        | None => install s true false (filesize a) (overwrite (fd_out w) <$> up_read E file) dev0
        end
      else install s false (verify s) 0 (up_read E file) dev0
  end.

Definition upgrade_main (fuel : nat) (buf : list Z) (options : list up_opt) : run up_result :=
  match up_do_opts b up_opts0 options with
  | Ok s => upgrade fuel buf s
  | Exit c => Ret (mkRes c (default [] (up_open E DEFAULT_DEVICE)) None)
  | UB => Undef
  end.
End Upgrade.

(** ** The copy loop *)

Lemma splice_splice {A} pos (d D dev : list A) :
  0 <= pos <= zlen dev -> splice (pos + zlen d) D (splice pos d dev) = splice pos (d ++ D) dev.
Proof.
  intros Hp. unfold splice. rewrite <- !app_assoc. pose proof (zlen_nonneg d). pose proof (zlen_nonneg D).
  assert (zlen (ztake pos dev) = pos) as Ht by (rewrite zlen_take; lia).
  rewrite (app_assoc (ztake pos dev) d).
  assert (zlen (ztake pos dev ++ d) = pos + zlen d) as Hl by (rewrite zlen_app; lia).
  unfold ztake, zdrop, zlen in *.
  rewrite take_app_length' by lia. rewrite drop_app_ge by lia. rewrite drop_drop, <- !app_assoc.
  do 4 f_equal. rewrite !length_app. lia.
Qed.
Lemma zlen_splice_ge {A} pos (d dev : list A) : 0 <= pos <= zlen dev -> pos + zlen d <= zlen (splice pos d dev).
Proof. intros. unfold splice. pose proof (zlen_nonneg d). zlen. Qed.

Lemma zlen_pad_block bs c : zlen c <= bs -> zlen (pad_block bs c) = bs.
Proof. intros. unfold pad_block. pose proof (zlen_nonneg c). zlen. Qed.
Lemma freads_fuel_size k bs data : Forall (fun c => zlen c <= bs) (freads_fuel k bs data).
Proof.
  revert data. induction k as [|k IH]; intros data; cbn [freads_fuel]; [constructor|].
  destruct (Z.eqb_spec (zlen (ztake bs data)) 0); constructor; [|apply IH].
  rewrite zlen_take in *. lia.
Qed.

Section Copy.
Context (E : up_env) (http : bool) (filesize bs : Z).

Lemma write_blocks_sticky c blocks bytes pos dev : (write_blocks E http filesize bs c blocks bytes pos dev 7).1 = 7.
Proof.
  revert c bytes pos dev. induction blocks as [|blk r IH]; intros c bytes pos dev; cbn [write_blocks]; [done|].
  destruct (negb _), (_ && _); try done; apply IH.
Qed.

(** A copy without a failed write puts the padded blocks one after the other,
    all of them or, in HTTP mode, at least the size of the upload. *)
Lemma write_blocks_ok c blocks bytes pos dev dev' :
  0 < bs -> Forall (fun blk => zlen blk <= bs) blocks -> 0 <= pos <= zlen dev ->
  0 <= bytes -> bytes + bs * zlen blocks < 2 ^ 31 ->
  write_blocks E http filesize bs c blocks bytes pos dev 0 = (0, dev') ->
  exists k, dev' = splice pos (concat (map (pad_block bs) (take k blocks))) dev /\
            ((length blocks <= k)%nat \/ http = true /\ filesize <= bytes + bs * Z.of_nat k).
Proof.
  intros Hbs Hall. revert c bytes pos dev. induction Hall as [|blk r Hblk _ IH];
    intros c bytes pos dev Hp Hb Hsz H; cbn [write_blocks] in H.
  - injection H as <-. exists 0%nat. cbn [take map concat]. rewrite splice_nil. split; [done|by left].
  - rewrite zlen_cons in Hsz. pose proof (zlen_nonneg r). rewrite u32_small in H by lia. rewrite s32_small in H by nia.
    destruct (Z.eqb_spec (up_write E c bs) bs) as [Hn|Hn]; cbn [negb] in H.
    + rewrite Hn in H. rewrite ztake_all in H by (rewrite zlen_pad_block; lia).
      destruct (http && (filesize <=? bytes)) eqn:Hbrk.
      * injection H as <-. exists 1%nat. cbn [take map concat]. rewrite app_nil_r. split; [done|]. right.
        apply andb_prop in Hbrk as [-> Hf%Z.leb_le]. split; [done|]. lia.
      * apply IH in H as (k & -> & Hk); [| |lia|nia].
        -- exists (S k). cbn [take map concat]. rewrite splice_splice by lia. split; [done|].
           cbn [length]. destruct Hk as [Hk|[Hh Hk]]; [left; lia|right]. split; [done|]. lia.
        -- pose proof (zlen_splice_ge pos (pad_block bs blk) dev Hp). rewrite zlen_pad_block in * by lia. lia.
    + exfalso. destruct (http && _); [by injection H|].
      match type of H with ?t = _ => assert (t.1 = 7) as H7 by apply write_blocks_sticky end.
      rewrite H in H7. done.
Qed.

Lemma write_blocks_exit c blocks bytes pos dev :
  (write_blocks E http filesize bs c blocks bytes pos dev 0).1 = 0 \/
  (write_blocks E http filesize bs c blocks bytes pos dev 0).1 = 7.
Proof.
  revert c bytes pos dev. induction blocks as [|blk r IH]; intros c bytes pos dev; cbn [write_blocks]; [by left|].
  destruct (negb _).
  - right. destruct (_ && _); [done|apply write_blocks_sticky].
  - destruct (_ && _); [by left|apply IH].
Qed.

(** Complete writes keep the exit status. *)
Lemma write_blocks_clean c blocks bytes pos dev :
  (forall c, up_write E c bs = bs) -> (write_blocks E http filesize bs c blocks bytes pos dev 0).1 = 0.
Proof.
  intros Hw. revert c bytes pos dev. induction blocks as [|blk r IH]; intros c bytes pos dev; cbn [write_blocks]; [done|].
  rewrite Hw, Z.eqb_refl. cbn [negb]. destruct (_ && _); [done|apply IH].
Qed.
End Copy.

(** The first bytes of the device after the blocks [take k] were copied. *)
Lemma concat_take_prefix bs data k :
  0 < bs ->
  ztake (bs * Z.of_nat k) (data ++ zrep ((- zlen data) mod bs) 0)
  = concat (map (pad_block bs) (take k (freads bs data))).
Proof.
  intros Hbs. rewrite <- freads_padded by done. pose proof (freads_fuel_size (length data) bs data) as Hs.
  fold (freads bs data) in Hs. revert k. induction Hs as [|c l Hc _ IH]; intros k; cbn [map concat].
  - rewrite take_nil. unfold ztake. by rewrite take_nil.
  - destruct k as [|k]; [by rewrite Z.mul_0_r|]. cbn [take map concat]. rewrite <- IH. unfold ztake.
    pose proof (zlen_pad_block bs c Hc) as Hp. unfold zlen in Hp.
    replace (Z.to_nat (bs * Z.of_nat (S k))) with (length (pad_block bs c) + Z.to_nat (bs * Z.of_nat k))%nat by lia.
    by rewrite take_app_add.
Qed.

Lemma freads_total bs data : 0 < bs -> bs * zlen (freads bs data) = zlen data + (- zlen data) mod bs.
Proof.
  intros Hbs. pose proof (freads_padded bs data Hbs) as H. apply (f_equal zlen) in H.
  rewrite zlen_app, zlen_rep in H. pose proof (Z.mod_pos_bound (- zlen data) bs Hbs).
  rewrite Z.max_r in H by lia. rewrite <- H. pose proof (freads_fuel_size (length data) bs data) as Hs.
  fold (freads bs data) in Hs. clear H. induction Hs as [|c l Hc _ IH]; cbn [map concat]; [by rewrite Z.mul_0_r|].
  rewrite zlen_cons, zlen_app, zlen_pad_block by done. lia.
Qed.

(** What a copy with exit status 0 leaves on the device. *)
Lemma copy_installed E http filesize bs data dev dev' :
  0 < bs -> zlen data + bs < 2 ^ 31 ->
  write_blocks E http filesize bs 0 (freads bs data) 0 0 dev 0 = (0, dev') ->
  (http = false -> dev' = overwrite (data ++ zrep ((- zlen data) mod bs) 0) dev) /\
  (filesize <= zlen data -> ztake filesize dev' = ztake filesize data).
Proof.
  intros Hbs Hlen H. pose proof (freads_total bs data Hbs). pose proof (Z.mod_pos_bound (- zlen data) bs Hbs).
  apply write_blocks_ok in H as (k & -> & Hk); try lia; [|apply freads_fuel_size|pose proof (zlen_nonneg dev); lia].
  set (img := data ++ zrep ((- zlen data) mod bs) 0).
  assert ((length (freads bs data) <= k)%nat -> zlen img <= bs * Z.of_nat k) as Hcov.
  { intros. unfold img. rewrite zlen_app, zlen_rep. unfold zlen in *. nia. }
  rewrite <- concat_take_prefix by done. fold img. split.
  - intros ->. destruct Hk as [Hk|[? _]]; [|done]. rewrite ztake_all by (specialize (Hcov Hk); lia). done.
  - intros Hf. unfold splice. change (ztake 0 dev) with (@nil Z). cbn [app].
    assert (filesize <= zlen (ztake (bs * Z.of_nat k) img)) as Hle.
    { rewrite zlen_take. unfold img in *. rewrite zlen_app, zlen_rep in *.
      destruct Hk as [Hk|[_ Hk]]; [specialize (Hcov Hk)|]; lia. }
    rewrite ztake_app_le by done. unfold ztake in *. rewrite take_take. unfold img, zlen in *.
    rewrite length_take in Hle. rewrite take_app_le by lia. f_equal. lia.
Qed.

(** The device after a run of [flash] that ends in a reboot. *)
Lemma flash_reboot md5 big b E s http vrfy filesize data dev0 res fl :
  flash md5 big b E s http vrfy filesize data dev0 = Ret res -> r_reboot res = Some fl ->
  rebt s = true /\ r_exit res = 0 /\
  exists dev, up_open E (up_device s) = Some dev /\
    write_blocks E http filesize (up_blocksize s) 0 (freads (up_blocksize s) data) 0 0 dev 0 = (0, r_dev res) /\
    (USE_MD5 b && vrfy = true -> check_md5 md5 big (up_malloc E) (r_dev res) (up_blocksize s) = Ret 0).
Proof.
  intros H Hr. unfold flash in H. destruct (up_open E (up_device s)) as [dev|] eqn:Hdev; [|by injection H as <-].
  pose proof (write_blocks_exit E http filesize (up_blocksize s) 0 (freads (up_blocksize s) data) 0 0 dev) as Hex.
  destruct (write_blocks _ _ _ _ _ _ _ _ _ _) as [e dev'] eqn:Hw. cbn [fst] in Hex.
  apply bind_Ret in H as (e' & He & H). injection H as <-. cbn [r_reboot r_exit r_dev] in *.
  destruct (rebt s); [|done]. destruct (Z.eqb_spec e' 0) as [->|]; [|done]. split; [done|]. split; [done|].
  exists dev. destruct (USE_MD5 b && vrfy).
  - apply bind_Ret in He as (check & Hc & He). injection He as He.
    destruct (Z.eqb_spec check 0) as [->|]; cbn [negb] in He; [|done]. subst e. done.
  - injection He as ->. done.
Qed.

Lemma install_reboot md5 big b E s http vrfy filesize content dev0 res fl :
  install md5 big b E s http vrfy filesize content dev0 = Ret res -> r_reboot res = Some fl ->
  exists data, content = Some data /\ 0 <= up_blocksize s /\
    flash md5 big b E s http vrfy filesize data dev0 = Ret res.
Proof.
  intros H Hr. unfold install in H. do 2 (destruct (_ && _); [by injection H as <-|]).
  destruct (check_geom_debugflags16_enabled E); [|by injection H as <-|done].
  destruct content as [data|]; [|by injection H as <-]. destruct (_ && _) eqn:?; [by injection H as <-|].
  destruct (up_malloc E && (0 <=? up_blocksize s)) eqn:Hm; [|by injection H as <-]. cbn [negb] in H.
  apply andb_prop in Hm as [_ ?%Z.leb_le]. by exists data.
Qed.

Lemma http_exit_stops st : 0 <= st <= HTTP_INPUT_READ_ERR -> st <> HTTP_INPUT_READY -> http_exit st <> None.
Proof.
  unfold HTTP_INPUT_READ_ERR, HTTP_INPUT_READY. intros H Hne.
  assert (st = 1 \/ st = 2 \/ st = 3 \/ st = 4 \/ st = 5 \/ st = 6 \/ st = 7 \/ st = 8)
    as Hst by lia. by destruct_or! Hst; subst st.
Qed.

(** ** Properties *)

(** C5: outside HTTP mode, with a block size above 0 and an image file that
    with a block stays below 2 GiB, whatever fails on the way, the utility reboots the
    machine only when the device holds the whole image file (zero-padded to
    the block size) and nothing else changed on it, the exit status is 0, and,
    in a build with MD5 and without -V, what is on the device passes
    [check_md5]. *)
Theorem upgrade_reboots_installed md5 big T b E fuel buf s file data res fl :
  WITH_HTTP_MODE b && http_mode s = false -> 0 < up_blocksize s ->
  up_file s = Some file -> up_read E file = Some data -> zlen data + up_blocksize s < 2 ^ 31 ->
  upgrade md5 big T b E fuel buf s = Ret res -> r_reboot res = Some fl ->
  rebt s = true /\ r_exit res = 0 /\
  (exists dev, up_open E (up_device s) = Some dev /\
     r_dev res = overwrite (data ++ zrep ((- zlen data) mod up_blocksize s) 0) dev) /\
  (USE_MD5 b && verify s = true -> check_md5 md5 big (up_malloc E) (r_dev res) (up_blocksize s) = Ret 0).
Proof.
  intros Hh Hbs Hf Hd Hlen H Hr. unfold upgrade in H. rewrite Hf, Hh, Hd in H.
  apply install_reboot with (fl := fl) in H as (data' & [= <-] & _ & H); [|done].
  apply flash_reboot with (fl := fl) in H as (Hrb & Hex & dev & Hdev & Hw & Hv); [|done].
  do 2 (split; [done|]). split; [|done]. exists dev. split; [done|].
  by apply copy_installed in Hw as [Hw _]; [apply Hw|..].
Qed.


(** *** The credentials *)

Definition is_auth_opt (o : up_opt) : bool := match o with Up_H _ | Up_M _ => true | _ => false end.
Definition without_auth (l : list up_opt) : list up_opt := List.filter (fun o => negb (is_auth_opt o)) l.

(** Two option states that agree but on the credentials. *)
Definition same_but_auth (s s' : up_opts) : Prop :=
  exists k m, s' = mkUpOpts (up_file s) (up_device s) (target_size_check s) (do_sync s) (rebt s)
                     (up_blocksize s) (http_mode s) (verify s) k m.

Lemma do_opts_without_auth b l s s' :
  WITH_HTTP_MODE b = true -> same_but_auth s s' ->
  match up_do_opts b s l, up_do_opts b s' (without_auth l) with
  | Ok t, Ok t' => same_but_auth t t'
  | Exit c, Exit c' => c = c'
  | _, _ => False
  end.
Proof.
  intros Hb. revert s s'. induction l as [|o l IH]; intros s s' Hs; [done|].
  unfold without_auth in *. cbn [List.filter up_do_opts]. destruct Hs as (k & m & ->), s as [f d t y r z h v k0 m0].
  destruct o; cbn [is_auth_opt negb up_do_opts up_do_opt up_file up_device target_size_check do_sync rebt
                   up_blocksize http_mode verify]; rewrite ?Hb; bsimpl; try done;
    try (apply IH; by eexists _, _).
  - destruct (USE_GEOM_GET_SIZE b); bsimpl; [|done]. apply IH. by eexists _, _.
  - destruct (USE_MD5 b); bsimpl; [|done]. apply IH. by eexists _, _.
Qed.

(** the credentials given with -H and -M have no effect, in HTTP mode or
    not: a run with them and a run of the same command line without them give
    the same result on every request, so no request is ever refused for want of
    credentials. *)
Theorem upgrade_ignores_credentials md5 big T b E fuel buf options :
  WITH_HTTP_MODE b = true ->
  upgrade_main md5 big T b E fuel buf options = upgrade_main md5 big T b E fuel buf (without_auth options).
Proof.
  intros Hb. unfold upgrade_main.
  pose proof (do_opts_without_auth b options up_opts0 up_opts0 Hb ltac:(by eexists _, _)) as H.
  destruct (up_do_opts b up_opts0 options), (up_do_opts b up_opts0 (without_auth options)); try done.
  - destruct H as (k & m & ->). done.
  - by rewrite H.
Qed.

(** *** Witnesses *)

(** The demo request without its credentials, on a 4-byte-block device. *)
Definition demo_unauth : list Z :=
  str "POST /upgrade HTTP/1.1" ++ CRLF ++
  str "Content-Type: multipart/form-data; boundary=Asrf456BGe4h" ++ CRLF ++
  str "Content-Length: 408" ++ CRLF ++ CRLF ++ str "--Asrf456BGe4h" ++ CRLF ++
  str "Content-Disposition: form-data; name=" ++ [QUOTE] ++ str "firmware" ++ [QUOTE] ++
  str "; filename=" ++ [QUOTE] ++ str "a.zimage" ++ [QUOTE] ++ CRLF ++ CRLF ++ demo_body.
Definition up_demo_env : up_env := {|
  up_read := fun p => if streq p (str "fw") then Some [1; 2; 3; 4; 5] else None;
  up_open := fun _ => Some (zrep 512 255); up_g_open := fun _ => Some (Some 512); up_stale := 0;
  up_sysctl := Some 0; up_malloc := true; up_write := fun _ n => n;
  up_stdin := [Data demo_unauth]; up_alloc1 := true; up_alloc2 := true |}.
Definition default_build : build := mkBuild true false true.
Definition up_demo_opts : list up_opt :=
  [Up_h; Up_H (str "YWRtaW46YWRtaW4="); Up_M (str "zrouter"); Up_f (str "fw"); Up_s (str "64")].
Definition demo_md5 (x : list Z) : list Z := le_bytes 16 (fold_left Z.add x 0).

(** Credentials are configured, the request has none, and the upload is
    flashed: this is the default build of the Makefile. *)
Example unauthenticated_upload_flashed :
  match upgrade_main demo_md5 false (str "T") default_build up_demo_env 500 (zrep 256 0) up_demo_opts with
  | Ret res => r_exit res = 0 /\ r_reboot res = Some RB_AUTOBOOT /\ ztake 300 (r_dev res) = zrep 300 7
  | _ => False
  end.
Proof. vm_compute. repeat split. Qed.

Lemma upgrade_ignores_credentials_witness :
  upgrade_main demo_md5 false (str "T") default_build up_demo_env 500 (zrep 256 0) up_demo_opts
  = upgrade_main demo_md5 false (str "T") default_build up_demo_env 500 (zrep 256 0)
      [Up_h; Up_f (str "fw"); Up_s (str "64")].
Proof. apply (upgrade_ignores_credentials demo_md5 false (str "T") default_build); reflexivity. Defined.

(** The options [-f fw -s 4] and the same in HTTP mode. *)
Definition up_demo_s (http : bool) (bs : Z) : up_opts :=
  {| up_file := Some (str "fw"); up_device := DEFAULT_DEVICE; target_size_check := true; do_sync := true; rebt := true;
     up_blocksize := bs; http_mode := http; verify := true; args_key := None; args_realm := None |}.

Lemma upgrade_reboots_installed_witness :
  exists res, upgrade demo_md5 false (str "T") default_build up_demo_env 500 [] (up_demo_s false 4) = Ret res /\
  rebt (up_demo_s false 4) = true /\ r_exit res = 0 /\
  (exists dev, up_open up_demo_env (up_device (up_demo_s false 4)) = Some dev /\
     r_dev res = overwrite ([1; 2; 3; 4; 5] ++ zrep ((- zlen [1; 2; 3; 4; 5]) mod 4) 0) dev) /\
  (USE_MD5 default_build && true = true -> check_md5 demo_md5 false true (r_dev res) 4 = Ret 0).
Proof.
  eexists. split; [vm_compute; reflexivity|].
  eapply (upgrade_reboots_installed demo_md5 false (str "T") default_build up_demo_env 500 [] (up_demo_s false 4)
           (str "fw") [1; 2; 3; 4; 5]).
  - reflexivity.
  - reflexivity.
  - reflexivity.
  - reflexivity.
  - reflexivity.
  - vm_compute. reflexivity.
  - reflexivity.
Defined.


(** With a block size of 0 nothing is copied: the exit status is 0 and the
    machine is rebooted, in a build without MD5. *)
Example blocksize_zero_reboots :
  match upgrade_main demo_md5 false (str "T") default_build up_demo_env 500 (zrep 256 0)
          [Up_f (str "fw"); Up_s (str "0")] with
  | Ret res => r_exit res = 0 /\ r_reboot res = Some RB_AUTOBOOT /\ r_dev res = zrep 512 255
  | _ => False
  end.
Proof. vm_compute. repeat split. Qed.
