(* ===== verification/Firmware.v ===== *)
(** * From the image builder to the flash

    tools/packimage on the build host and target/sbin/upgrade on the router
    agree on the image format: an image the first one built is installed,
    verified and booted by the second. *)

From S2P Require Import Prelude CLib Image HttpPages RingBuffer HttpInput PackImage Upgrade.

(** The digest does not cover what follows the image. *)
Lemma image_intact_app md5 out r :
  image_intact md5 false out -> image_size false out = zlen out - sizeof_image_header ->
  image_size false (out ++ r) = image_size false out /\ image_intact md5 false (out ++ r).
Proof.
  intros [Hl Hd] Hs. unfold sizeof_image_header in *.
  assert (image_size false (out ++ r) = image_size false out) as Hsz.
  { unfold image_size, image_size_at. by rewrite slice_prefix by lia. }
  split; [done|]. split; [rewrite zlen_app; pose proof (zlen_nonneg r); unfold sizeof_image_header; lia|].
  rewrite Hsz. unfold sizeof_image_header, image_offset_at, image_digest_at in *.
  by rewrite (slice_prefix 0x2c), (slice_prefix 0x60), (slice_prefix 0x50) by lia.
Qed.

(** A run of the utility outside HTTP mode, verifying and rebooting, on a
    device [dev] that is big enough for the image [img] and takes every write. *)
Record good_run (b : build) (E : up_env) (s : up_opts) (img dev : list Z) : Prop := {
  gr_mode : WITH_HTTP_MODE b && http_mode s = false;
  gr_md5 : USE_MD5 b = true;
  gr_verify : verify s = true;
  gr_rebt : rebt s = true;
  gr_sync : do_sync s = true;
  gr_check : target_size_check s = true;
  gr_bs : 0 < up_blocksize s;
  gr_len : zlen img + up_blocksize s < 2 ^ 31;
  gr_file : exists file, up_file s = Some file /\ up_read E file = Some img;
  gr_fits : zlen img <= geom_get_size E (up_device s);
  gr_dev : up_open E (up_device s) = Some dev;
  gr_sysctl : is_Some (up_sysctl E);
  gr_malloc : up_malloc E = true;
  gr_write : forall c, up_write E c (up_blocksize s) = up_blocksize s;
}.

(** ** Properties *)

(** C1: an image that packimage built with exit status 0 on a little-endian host (with a
    positive block size and nothing in use behind [i] in its frame) is installed from a
    file by a little-endian upgrade utility built with MD5 and run without -V: when the
    device is big enough and takes every write, the utility verifies what it wrote, exits
    with status 0 and reboots, the device starting with the image. *)
Theorem packed_image_upgrades md5 PE popts ps out T b E fuel buf s dev :
  (forall x, zlen (md5 x) = 16) ->
  pk_do_opts pk_opts0 popts = Ok ps -> 0 < pk_blocksize ps -> pk_behind_i PE = Slot_dead ->
  packimage_main md5 false PE popts = Ok (0, out) -> good_run b E s out dev ->
  upgrade md5 false T b E fuel buf s
  = Ret (mkRes 0 (overwrite (out ++ zrep ((- zlen out) mod up_blocksize s) 0) dev) (Some RB_AUTOBOOT)).
Proof.
  intros Hmd Hpo Hpb Hpi Hp [Hh Hm Hv Hrb Hsy Htc Hbs Hlen (file & Hf & Hrd) Hg Hdev [val Hsc] Hma Hwr].
  destruct (packimage_intact md5 PE popts out ps Hmd Hpo Hpb Hpi Hp ltac:(lia)) as [Hsz Hin].
  pose proof Hin as [Hl _]. unfold sizeof_image_header in Hl, Hsz.
  unfold upgrade. rewrite Hf, Hh, Hrd, Hv. unfold install. rewrite Htc.
  rewrite (proj2 (Z.eqb_neq (geom_get_size E (up_device s)) 0)), !andb_false_r by lia. cbn [andb].
  unfold check_geom_debugflags16_enabled. rewrite Hsc.
  rewrite (proj2 (Z.ltb_ge _ _)), andb_false_r, Hma, (proj2 (Z.leb_le _ _)) by lia. cbn [andb negb].
  unfold flash. rewrite Hdev.
  pose proof (write_blocks_clean E false 0 (up_blocksize s) 0 (freads (up_blocksize s) out) 0 0 dev Hwr) as Hc.
  destruct (write_blocks _ _ _ _ _ _ _ _ _ _) as [e dev'] eqn:Hw. cbn [fst] in Hc. subst e.
  apply copy_installed in Hw as [Hw _]; [|done..]. specialize (Hw eq_refl).
  destruct (image_intact_app md5 out (zrep ((- zlen out) mod up_blocksize s) 0 ++
     zdrop (zlen (out ++ zrep ((- zlen out) mod up_blocksize s) 0)) dev) Hin Hsz) as [Hsz' Hin'].
  rewrite app_assoc in Hsz', Hin'. change ((out ++ _) ++ zdrop _ dev) with
    (overwrite (out ++ zrep ((- zlen out) mod up_blocksize s) 0) dev) in Hsz', Hin'. rewrite <- Hw in Hsz', Hin'.
  destruct (check_md5_intact md5 false (up_blocksize s) dev' Hbs) as (r & Hr & _ & Hiff); [lia|].
  rewrite Hm, Hma, Hr, (proj2 Hiff Hin'). cbn [andb]. rsimpl. cbn [Z.eqb negb]. rewrite Hrb, Hsy, <- Hw. done.
Qed.

(** The packed demo image on a 4 KiB device. *)
Definition fw_env (img : list Z) : up_env := {|
  up_read := fun p => if streq p (str "fw") then Some img else None;
  up_open := fun _ => Some (zrep 256 255); up_g_open := fun _ => Some (Some 256); up_stale := 0;
  up_sysctl := Some 16; up_malloc := true; up_write := fun _ n => n;
  up_stdin := []; up_alloc1 := true; up_alloc2 := true |}.

Lemma packed_image_upgrades_witness :
  exists out, packimage_main sum_digest false pk_demo_env pk_demo_opts = Ok (0, out) /\
  upgrade sum_digest false (str "T") (mkBuild true true true) (fw_env out) 0 [] (up_demo_s false 64)
  = Ret (mkRes 0 (overwrite (out ++ zrep ((- zlen out) mod 64) 0) (zrep 256 255)) (Some RB_AUTOBOOT)).
Proof.
  eexists. split; [vm_compute; reflexivity|].
  eapply (packed_image_upgrades sum_digest pk_demo_env pk_demo_opts).
  - apply sum_digest_len.
  - vm_compute. reflexivity.
  - vm_compute. reflexivity.
  - reflexivity.
  - vm_compute. reflexivity.
  - split; try reflexivity; try (vm_compute; reflexivity); try (vm_compute; discriminate).
    + exists (str "fw"). split; reflexivity.
    + eexists. reflexivity.
Defined.
