(* ===== verification/TpLinkBoards.v ===== *)
(** * The tables of contrib/mktplinkfw/mktplinkfw.c

    The TP-Link boards and flash layouts the image builder knows, the
    functions that search them, and their consistency. *)

From S2P Require Import Prelude CLib.

Definition HWID_GS_OOLITE_V1 : Z := 0x3C000101.
Definition HWID_TL_MR10U_V1 : Z := 0x00100101.
Definition HWID_TL_MR13U_V1 : Z := 0x00130101.
Definition HWID_TL_MR3020_V1 : Z := 0x30200001.
Definition HWID_TL_MR3220_V1 : Z := 0x32200001.
Definition HWID_TL_MR3220_V2 : Z := 0x32200002.
Definition HWID_TL_MR3420_V1 : Z := 0x34200001.
Definition HWID_TL_MR3420_V2 : Z := 0x34200002.
Definition HWID_TL_WA701N_V1 : Z := 0x07010001.
Definition HWID_TL_WA7510N_V1 : Z := 0x75100001.
Definition HWID_TL_WA801ND_V1 : Z := 0x08010001.
Definition HWID_TL_WA830RE_V1 : Z := 0x08300010.
Definition HWID_TL_WA830RE_V2 : Z := 0x08300002.
Definition HWID_TL_WA801ND_V2 : Z := 0x08010002.
Definition HWID_TL_WA901ND_V1 : Z := 0x09010001.
Definition HWID_TL_WA901ND_V2 : Z := 0x09010002.
Definition HWID_TL_WDR4300_V1_IL : Z := 0x43008001.
Definition HWID_TL_WDR4900_V1 : Z := 0x49000001.
Definition HWID_TL_WR703N_V1 : Z := 0x07030101.
Definition HWID_TL_WR720N_V3 : Z := 0x07200103.
Definition HWID_TL_WR741ND_V1 : Z := 0x07410001.
Definition HWID_TL_WR741ND_V4 : Z := 0x07410004.
Definition HWID_TL_WR740N_V1 : Z := 0x07400001.
Definition HWID_TL_WR740N_V3 : Z := 0x07400003.
Definition HWID_TL_WR743ND_V1 : Z := 0x07430001.
Definition HWID_TL_WR743ND_V2 : Z := 0x07430002.
Definition HWID_TL_WR841N_V1_5 : Z := 0x08410002.
Definition HWID_TL_WR841ND_V3 : Z := 0x08410003.
Definition HWID_TL_WR841ND_V5 : Z := 0x08410005.
Definition HWID_TL_WR841ND_V7 : Z := 0x08410007.
Definition HWID_TL_WR941ND_V2 : Z := 0x09410002.
Definition HWID_TL_WR941ND_V4 : Z := 0x09410004.
Definition HWID_TL_WR1043ND_V1 : Z := 0x10430001.
Definition HWID_TL_WR1043ND_V2 : Z := 0x10430002.
Definition HWID_TL_WR1041N_V2 : Z := 0x10410002.
Definition HWID_TL_WR2543N_V1 : Z := 0x25430001.

Record flash_layout := mkLayout {
  l_id : list Z;
  l_fw_max_len : Z;
  l_kernel_la : Z;
  l_kernel_ep : Z;
  l_rootfs_ofs : Z;
}.
Record board_info := mkBoard {
  b_id : list Z;
  b_hw_id : Z;
  b_hw_rev : Z;
  b_layout_id : list Z;
}.

Definition layouts : list flash_layout := [
  mkLayout (str "4M") 0x3c0000 0x80060000 0x80060000 0x140000;
  mkLayout (str "4Mlzma") 0x3c0000 0x80060000 0x80060000 0x100000;
  mkLayout (str "8M") 0x7c0000 0x80060000 0x80060000 0x140000;
  mkLayout (str "8Mlzma") 0x7c0000 0x80060000 0x80060000 0x100000;
  mkLayout (str "16M") 0xf80000 0x80060000 0x80060000 0x140000;
  mkLayout (str "16Mlzma") 0xf80000 0x80060000 0x80060000 0x100000;
  mkLayout (str "16Mppc") 0xf80000 0x00000000 0xc0000000 0x2a0000
].

Definition boards : list board_info := [
  mkBoard (str "TL-MR10Uv1") HWID_TL_MR10U_V1 1 (str "4Mlzma");
  mkBoard (str "TL-MR13Uv1") HWID_TL_MR13U_V1 1 (str "4Mlzma");
  mkBoard (str "TL-MR3020v1") HWID_TL_MR3020_V1 1 (str "4Mlzma");
  mkBoard (str "TL-MR3220v1") HWID_TL_MR3220_V1 1 (str "4M");
  mkBoard (str "TL-MR3220v2") HWID_TL_MR3220_V2 1 (str "4Mlzma");
  mkBoard (str "TL-MR3420v1") HWID_TL_MR3420_V1 1 (str "4M");
  mkBoard (str "TL-MR3420v2") HWID_TL_MR3420_V2 1 (str "4Mlzma");
  mkBoard (str "TL-WA701Nv1") HWID_TL_WA701N_V1 1 (str "4M");
  mkBoard (str "TL-WA7510N") HWID_TL_WA7510N_V1 1 (str "4M");
  mkBoard (str "TL-WA801NDv1") HWID_TL_WA801ND_V1 1 (str "4M");
  mkBoard (str "TL-WA830REv1") HWID_TL_WA830RE_V1 1 (str "4M");
  mkBoard (str "TL-WA830REv2") HWID_TL_WA830RE_V2 1 (str "4M");
  mkBoard (str "TL-WA801NDv2") HWID_TL_WA801ND_V2 1 (str "4Mlzma");
  mkBoard (str "TL-WA901NDv1") HWID_TL_WA901ND_V1 1 (str "4M");
  mkBoard (str "TL-WA901NDv2") HWID_TL_WA901ND_V2 1 (str "4M");
  mkBoard (str "TL-WDR4300v1") HWID_TL_WDR4300_V1_IL 1 (str "8Mlzma");
  mkBoard (str "TL-WDR4900v1") HWID_TL_WDR4900_V1 1 (str "16Mppc");
  mkBoard (str "TL-WR741NDv1") HWID_TL_WR741ND_V1 1 (str "4M");
  mkBoard (str "TL-WR741NDv4") HWID_TL_WR741ND_V4 1 (str "4Mlzma");
  mkBoard (str "TL-WR740Nv1") HWID_TL_WR740N_V1 1 (str "4M");
  mkBoard (str "TL-WR740Nv3") HWID_TL_WR740N_V3 1 (str "4M");
  mkBoard (str "TL-WR743NDv1") HWID_TL_WR743ND_V1 1 (str "4M");
  mkBoard (str "TL-WR743NDv2") HWID_TL_WR743ND_V2 1 (str "4Mlzma");
  mkBoard (str "TL-WR841Nv1.5") HWID_TL_WR841N_V1_5 2 (str "4M");
  mkBoard (str "TL-WR841NDv3") HWID_TL_WR841ND_V3 3 (str "4M");
  mkBoard (str "TL-WR841NDv5") HWID_TL_WR841ND_V5 1 (str "4M");
  mkBoard (str "TL-WR841NDv7") HWID_TL_WR841ND_V7 1 (str "4M");
  mkBoard (str "TL-WR941NDv2") HWID_TL_WR941ND_V2 2 (str "4M");
  mkBoard (str "TL-WR941NDv4") HWID_TL_WR941ND_V4 1 (str "4M");
  mkBoard (str "TL-WR1041Nv2") HWID_TL_WR1041N_V2 1 (str "4Mlzma");
  mkBoard (str "TL-WR1043NDv1") HWID_TL_WR1043ND_V1 1 (str "8M");
  mkBoard (str "TL-WR1043NDv2") HWID_TL_WR1043ND_V2 1 (str "8Mlzma");
  mkBoard (str "TL-WR2543Nv1") HWID_TL_WR2543N_V1 1 (str "8Mlzma");
  mkBoard (str "TL-WR703Nv1") HWID_TL_WR703N_V1 1 (str "4Mlzma");
  mkBoard (str "TL-WR720Nv3") HWID_TL_WR720N_V3 1 (str "4Mlzma");
  mkBoard (str "GS-OOLITEv1") HWID_GS_OOLITE_V1 1 (str "16Mlzma")
].

(** The loops stop at the terminating entry, the end of the list. *)
Fixpoint find_board_in (l : list board_info) (id : list Z) : option board_info :=
  match l with
  | [] => None
  | b :: r => if strcaseeq id (b_id b) then Some b else find_board_in r id
  end.
Definition find_board (id : list Z) : option board_info := find_board_in boards id.

Fixpoint find_board_by_hwid_in (l : list board_info) (hw_id : Z) : option board_info :=
  match l with
  | [] => None
  | b :: r => if hw_id =? b_hw_id b then Some b else find_board_by_hwid_in r hw_id
  end.
Definition find_board_by_hwid (hw_id : Z) : option board_info := find_board_by_hwid_in boards hw_id.

Fixpoint find_layout_in (l : list flash_layout) (id : list Z) : option flash_layout :=
  match l with
  | [] => None
  | b :: r => if strcaseeq id (l_id b) then Some b else find_layout_in r id
  end.
Definition find_layout (id : list Z) : option flash_layout := find_layout_in layouts id.

(** ** Consistency *)

#[global] Instance board_info_eq_dec : EqDecision board_info.
Proof. solve_decision. Defined.
#[global] Instance flash_layout_eq_dec : EqDecision flash_layout.
Proof. solve_decision. Defined.

Lemma find_layout_in_elem l id lay : find_layout_in l id = Some lay -> lay ∈ l /\ strcaseeq id (l_id lay) = true.
Proof.
  induction l as [|x l IH]; cbn; [done|]. destruct (strcaseeq id (l_id x)) eqn:E.
  - intros [= <-]. split; [apply list_elem_of_here|done].
  - intros H. destruct (IH H). split; [by apply list_elem_of_further|done].
Qed.
Lemma find_board_in_elem l id b : find_board_in l id = Some b -> b ∈ l /\ strcaseeq id (b_id b) = true.
Proof.
  induction l as [|x l IH]; cbn; [done|]. destruct (strcaseeq id (b_id x)) eqn:E.
  - intros [= <-]. split; [apply list_elem_of_here|done].
  - intros H. destruct (IH H). split; [by apply list_elem_of_further|done].
Qed.

(** What a layout must satisfy for an image to fit it. *)
Definition layout_okb (l : flash_layout) : bool :=
  (512 <=? l_rootfs_ofs l) && (l_rootfs_ofs l <? l_fw_max_len l) && (l_fw_max_len l <? 2 ^ 31) &&
  (Z.land (l_rootfs_ofs l) 0xffff =? 0) && (Z.land (l_fw_max_len l) 0xffff =? 0) &&
  (0 <=? l_kernel_la l) && (l_kernel_la l <? 2 ^ 32) && (0 <=? l_kernel_ep l) && (l_kernel_ep l <? 2 ^ 32).
Lemma layouts_ok l : l ∈ layouts -> layout_okb l = true.
Proof.
  intros H. apply list_elem_of_In in H.
  assert (forallb layout_okb layouts = true) as Hall by (vm_compute; reflexivity).
  rewrite forallb_forall in Hall. by apply Hall.
Qed.

(** The search depends on the letters of the name, not on their case. *)
Lemma find_board_in_case l id id' : strcaseeq id id' = true -> find_board_in l id = find_board_in l id'.
Proof.
  intros H. apply streq_true in H. induction l as [|x l IH]; cbn; [done|].
  unfold strcaseeq. by rewrite H, IH.
Qed.

(** ** Properties *)

(** The tables are consistent: each board is found by its name in whatever
    case, and by its hardware id, which no other board has; its layout exists,
    starts the root file system past the header, in the image, on a 64 KiB
    boundary, and has addresses that fit their 32-bit fields. *)
Theorem tplink_tables_consistent (b : board_info) (id : list Z) :
  b ∈ boards -> strcaseeq id (b_id b) = true ->
  find_board id = Some b /\ find_board_by_hwid (b_hw_id b) = Some b /\
  exists l, find_layout (b_layout_id b) = Some l /\ layout_okb l = true.
Proof.
  intros Hb Hid. unfold find_board. rewrite (find_board_in_case _ _ _ Hid).
  assert (forallb (fun b => bool_decide (find_board_in boards (b_id b) = Some b /\
                      find_board_by_hwid (b_hw_id b) = Some b /\ is_Some (find_layout (b_layout_id b)))) boards = true)
    as Hall by (vm_compute; reflexivity).
  apply list_elem_of_In in Hb. rewrite forallb_forall in Hall. specialize (Hall _ Hb).
  apply bool_decide_eq_true in Hall as (? & ? & [l Hl]). do 2 (split; [done|]). exists l. split; [done|].
  apply find_layout_in_elem in Hl as [Hl _]. by apply layouts_ok.
Qed.

Lemma tplink_tables_consistent_witness :
  find_board (str "tl-wdr4300V1") = Some (mkBoard (str "TL-WDR4300v1") HWID_TL_WDR4300_V1_IL 1 (str "8Mlzma")) /\
  find_board_by_hwid HWID_TL_WDR4300_V1_IL = Some (mkBoard (str "TL-WDR4300v1") HWID_TL_WDR4300_V1_IL 1 (str "8Mlzma")) /\
  exists l, find_layout (str "8Mlzma") = Some l /\ layout_okb l = true.
Proof.
  apply (tplink_tables_consistent (mkBoard (str "TL-WDR4300v1") HWID_TL_WDR4300_V1_IL 1 (str "8Mlzma"))).
  - vm_compute. repeat (first [apply list_elem_of_here | apply list_elem_of_further]).
  - vm_compute. reflexivity.
Defined.
