(* ===== verification/Mktplinkfw.v ===== *)
(** * contrib/mktplinkfw/mktplinkfw.c

    The builder and the inspector of TP-Link firmware images: options and
    globals, [check_options], the image ([build_fw], [fill_header],
    [pad_jffs2]) and [inspect_fw] with its report and the files it extracts.
    The MD5 functions are a parameter.  [size_t] has 64 bits; error messages
    are not modelled. *)

From S2P Require Import Prelude CLib TpLinkBoards.

Definition HEADER_VERSION_V1 : Z := 0x01000000.
Definition MD5SUM_LEN : Z := 16.
Definition sizeof_fw_header : Z := 512.

(** Offsets in [struct fw_header]. *)
Definition fw_version_at : Z := 28.
Definition hw_id_at : Z := 64.
Definition hw_rev_at : Z := 68.
Definition unk1_at : Z := 72.
Definition md5sum1_at : Z := 76.
Definition unk2_at : Z := 92.
Definition md5sum2_at : Z := 96.
Definition unk3_at : Z := 112.
Definition kernel_la_at : Z := 116.
Definition kernel_ep_at : Z := 120.
Definition fw_length_at : Z := 124.
Definition kernel_ofs_at : Z := 128.
Definition kernel_len_at : Z := 132.
Definition rootfs_ofs_at : Z := 136.
Definition rootfs_len_at : Z := 140.
Definition boot_ofs_at : Z := 144.
Definition boot_len_at : Z := 148.

Definition md5salt_normal : list Z :=
  [0xdc; 0xd7; 0x3a; 0xa5; 0xc3; 0x95; 0x98; 0xfb; 0xdd; 0xf9; 0xe7; 0xf4; 0x0e; 0xae; 0x47; 0x38].
Definition md5salt_boot : list Z :=
  [0x8c; 0xef; 0x33; 0x5b; 0xd5; 0xc5; 0xce; 0xfa; 0xa7; 0x9c; 0x28; 0xda; 0xb2; 0xe9; 0x0f; 0x42].
Definition jffs2_eof_mark : list Z := [0xde; 0xad; 0xc0; 0xde].

(** [ALIGN (x, a)] on [uint32_t]. *)
Definition ALIGN (x a : Z) : Z := Z.land (u32 (x + a - 1)) (u32 (Z.lnot (a - 1))).

(** ** The globals the options set *)

Record globals := mkGlobals {
  ofname : option (list Z);
  vendor : list Z;
  fwversion : list Z;
  fw_ver : list Z;
  board_id : option (list Z);
  layout_id : option (list Z);
  opt_hw_id : option (list Z);
  opt_hw_rev : option (list Z);
  g_kernel_la : Z;
  g_kernel_ep : Z;
  kernel_name : option (list Z);
  rootfs_name : option (list Z);
  g_rootfs_ofs : Z;
  rootfs_align : Z;
  combined : bool;
  strip_padding : bool;
  add_jffs2_eof : bool;
  reserved_space : Z;
  inspect_name : option (list Z);
  extract : bool;
}.
Definition globals0 : globals :=
  mkGlobals None (str "TP-LINK Technologies") (str "ver. 1.0") (str "0.0.0") None None None None 0 0 None None 0 0
    false false false 0 None false.

(** [sscanf (s, "0x%x", &v)]: the new value of [v]. *)
Definition sscanf_0x (s : list Z) (v : Z) : Z :=
  match s with
  | 48 :: 120 :: r => let '(n, e, _) := strtoul r 16 in if streq e r then v else u32 n
  | _ => v
  end.

(** One [%d]: the value stored and the rest of the input. *)
Definition scan_d (s : list Z) : option (Z * list Z) :=
  let s := skip_while isspace s in
  let '(neg, s) := match s with 45 :: r => (true, r) | 43 :: r => (false, r) | _ => (false, s) end in
  let '(v, any, r) := digits 10 s 0 false in
  if any then
    let v := if neg : bool then Z.max (- 2 ^ 63) (- v) else Z.min (2 ^ 63 - 1) v in Some (s32 v, r)
  else None.
(** [sscanf (s, "%d.%d.%d", ...)] returning 3. *)
Definition sscanf_ver (s : list Z) : option (Z * Z * Z) :=
  match scan_d s with
  | Some (hi, 46 :: s) =>
      match scan_d s with
      | Some (mid, 46 :: s) =>
          match scan_d s with Some (lo, _) => Some (hi, mid, lo) | None => None end
      | _ => None
      end
  | _ => None
  end.

Inductive tp_opt :=
| Tp_a (s : list Z) | Tp_B (s : list Z) | Tp_H (s : list Z) | Tp_E (s : list Z) | Tp_F (s : list Z)
| Tp_W (s : list Z) | Tp_L (s : list Z) | Tp_V (s : list Z) | Tp_v (s : list Z) | Tp_N (s : list Z)
| Tp_c | Tp_k (s : list Z) | Tp_r (s : list Z) | Tp_R (s : list Z) | Tp_o (s : list Z) | Tp_s
| Tp_i (s : list Z) | Tp_j | Tp_x | Tp_h | Tp_X (s : list Z) | Tp_other.

(** The [switch] of [main]. *)
Definition tp_do_opt (g : globals) (o : tp_opt) : outcome globals :=
  let '(mkGlobals f vn ve fv bi li hi hr la ep kn rn ro ra cb sp aj rs ins ex) := g in
  match o with
  | Tp_a s => Ok (mkGlobals f vn ve fv bi li hi hr la ep kn rn ro (sscanf_0x s ra) cb sp aj rs ins ex)
  | Tp_B s => Ok (mkGlobals f vn ve fv (Some s) li hi hr la ep kn rn ro ra cb sp aj rs ins ex)
  | Tp_H s => Ok (mkGlobals f vn ve fv bi li (Some s) hr la ep kn rn ro ra cb sp aj rs ins ex)
  | Tp_E s => Ok (mkGlobals f vn ve fv bi li hi hr la (sscanf_0x s ep) kn rn ro ra cb sp aj rs ins ex)
  | Tp_F s => Ok (mkGlobals f vn ve fv bi (Some s) hi hr la ep kn rn ro ra cb sp aj rs ins ex)
  | Tp_W s => Ok (mkGlobals f vn ve fv bi li hi (Some s) la ep kn rn ro ra cb sp aj rs ins ex)
  | Tp_L s => Ok (mkGlobals f vn ve fv bi li hi hr (sscanf_0x s la) ep kn rn ro ra cb sp aj rs ins ex)
  | Tp_V s => Ok (mkGlobals f vn s fv bi li hi hr la ep kn rn ro ra cb sp aj rs ins ex)
  | Tp_v s => Ok (mkGlobals f vn ve s bi li hi hr la ep kn rn ro ra cb sp aj rs ins ex)
  | Tp_N s => Ok (mkGlobals f s ve fv bi li hi hr la ep kn rn ro ra cb sp aj rs ins ex)
  | Tp_c => Ok (mkGlobals f vn ve fv bi li hi hr la ep kn rn ro ra true sp aj rs ins ex)
  | Tp_k s => Ok (mkGlobals f vn ve fv bi li hi hr la ep (Some s) rn ro ra cb sp aj rs ins ex)
  | Tp_r s => Ok (mkGlobals f vn ve fv bi li hi hr la ep kn (Some s) ro ra cb sp aj rs ins ex)
  | Tp_R s => Ok (mkGlobals f vn ve fv bi li hi hr la ep kn rn (sscanf_0x s ro) ra cb sp aj rs ins ex)
  | Tp_o s => Ok (mkGlobals (Some s) vn ve fv bi li hi hr la ep kn rn ro ra cb sp aj rs ins ex)
  | Tp_s => Ok (mkGlobals f vn ve fv bi li hi hr la ep kn rn ro ra cb true aj rs ins ex)
  | Tp_i s => Ok (mkGlobals f vn ve fv bi li hi hr la ep kn rn ro ra cb sp aj rs (Some s) ex)
  | Tp_j => Ok (mkGlobals f vn ve fv bi li hi hr la ep kn rn ro ra cb sp true rs ins ex)
  | Tp_x => Ok (mkGlobals f vn ve fv bi li hi hr la ep kn rn ro ra cb sp aj rs ins true)
  | Tp_h => Exit 0
  | Tp_X s => Ok (mkGlobals f vn ve fv bi li hi hr la ep kn rn ro ra cb sp aj (sscanf_0x s rs) ins ex)
  | Tp_other => Exit 1
  end.
Fixpoint tp_do_opts (g : globals) (l : list tp_opt) : outcome globals :=
  match l with
  | [] => Ok g
  | o :: r => g' ← tp_do_opt g o; tp_do_opts g' r
  end.

(** What the program finds outside: the files, which of them open for reading,
    and whether the allocation and the output succeed. *)
Record tp_env := mkTpEnv {
  tp_file : list Z -> option (list Z);
  tp_fopen : list Z -> bool;
  tp_malloc : Z -> bool;
  tp_fwrite : bool;
}.

(** What [check_options] settles. *)
Record config := mkConfig {
  c_layout : flash_layout;
  c_hw_id : Z;
  c_hw_rev : Z;
  c_kernel_la : Z;
  c_kernel_ep : Z;
  c_rootfs_ofs : Z;
  c_fw_max_len : Z;
  c_kernel : list Z;
  c_kernel_size : Z;
  c_kernel_len : Z;
  c_rootfs : list Z;
  c_rootfs_size : Z;
  c_ver : Z * Z * Z;
}.

(** [get_file_stat]: [st_size] in a [uint32_t]. *)
Definition get_file_stat (E : tp_env) (name : list Z) : outcome Z :=
  match tp_file E name with
  | None => Exit 255
  | Some data => Ok (u32 (zlen data))
  end.

(** The board, or the hardware options, and the layout. *)
Definition check_hw (g : globals) : outcome (Z * Z * list Z) :=
  match board_id g with
  | Some id =>
      match find_board id with
      | None => Exit 255
      | Some b => Ok (b_hw_id b, b_hw_rev b, default (b_layout_id b) (layout_id g))
      end
  | None =>
      match opt_hw_id g, layout_id g with
      | None, _ | _, None => Exit 255
      | Some h, Some l =>
          Ok (u32 (strtoul h 0).1.1,
              match opt_hw_rev g with Some r => u32 (strtoul r 0).1.1 | None => 1 end, l)
      end
  end.

(** The sizes: the length of the kernel in the image and the root file
    system's. *)
Definition check_sizes (E : tp_env) (g : globals) (fw_max_len rootfs_ofs kernel_size : Z)
    : outcome (Z * list Z * Z) :=
  if combined g then
    if u64 (fw_max_len - sizeof_fw_header) <? kernel_size then Exit 255 else Ok (kernel_size, [], 0)
  else
    match rootfs_name g with
    | None => Exit 255
    | Some rn =>
        rootfs_size ← get_file_stat E rn;
        if negb (rootfs_align g =? 0) then
          let kernel_len := u32 (kernel_size + sizeof_fw_header) in
          let kernel_len := ALIGN kernel_len (rootfs_align g) in
          let kernel_len := u32 (kernel_len - sizeof_fw_header) in
          if u64 (fw_max_len - sizeof_fw_header) <? u32 (kernel_len + rootfs_size) then Exit 255
          else Ok (kernel_len, rn, rootfs_size)
        else
          if u64 (rootfs_ofs - sizeof_fw_header) <? kernel_size then Exit 255 else
          if u32 (fw_max_len - rootfs_ofs) <? rootfs_size then Exit 255
          else Ok (kernel_size, rn, rootfs_size)
    end.

(** [check_options], when no image is to be inspected. *)
Definition check_options (E : tp_env) (g : globals) : outcome config :=
  if extract g then Exit 255 else
  '(hw_id, hw_rev, lid) ← check_hw g;
  match find_layout lid with
  | None => Exit 255
  | Some layout =>
      let kernel_la := if g_kernel_la g =? 0 then l_kernel_la layout else g_kernel_la g in
      let kernel_ep := if g_kernel_ep g =? 0 then l_kernel_ep layout else g_kernel_ep g in
      let rootfs_ofs := if g_rootfs_ofs g =? 0 then l_rootfs_ofs layout else g_rootfs_ofs g in
      if l_fw_max_len layout <? reserved_space g then Exit 255 else
      let fw_max_len := u32 (l_fw_max_len layout - reserved_space g) in
      match kernel_name g with
      | None => Exit 255
      | Some kn =>
          kernel_size ← get_file_stat E kn;
          '(kernel_len, rn, rootfs_size) ← check_sizes E g fw_max_len rootfs_ofs kernel_size;
          match ofname g, sscanf_ver (fw_ver g) with
          | Some _, Some ver =>
              Ok (mkConfig layout hw_id hw_rev kernel_la kernel_ep rootfs_ofs fw_max_len kn kernel_size kernel_len
                    rn rootfs_size ver)
          | _, _ => Exit 255
          end
      end
  end.

(** ** Building an image *)

Section Build.
Variable md5 : list Z -> list Z.
Variable E : tp_env.
Variable g : globals.

(** [read_to_buf]: the first [size] bytes of the file, at [buf + off]. *)
Definition read_to_buf (name : list Z) (size off : Z) (buf : list Z) : outcome (list Z) :=
  match tp_file E name with
  | Some data => if tp_fopen E name then bwrite off (ztake size data) buf else Exit 1
  | None => Exit 1
  end.

(** [struct fw_header] as [fill_header] leaves it, [sum1] in [md5sum1].  The
    size of the boot loader is never set, so the normal salt is used. *)
Definition fw_header (c : config) (sum1 : list Z) : list (list Z) :=
  let '(hi, mid, lo) := c_ver c in
  [ be_bytes 4 HEADER_VERSION_V1; strncpy_field 24 (vendor g); strncpy_field 36 (fwversion g);
    be_bytes 4 (c_hw_id c); be_bytes 4 (c_hw_rev c); zrep 4 0; sum1; zrep 4 0; zrep 16 0; zrep 4 0;
    be_bytes 4 (c_kernel_la c); be_bytes 4 (c_kernel_ep c); be_bytes 4 (l_fw_max_len (c_layout c));
    be_bytes 4 sizeof_fw_header; be_bytes 4 (c_kernel_len c);
    (if combined g then zrep 4 0 else be_bytes 4 (c_rootfs_ofs c));
    (if combined g then zrep 4 0 else be_bytes 4 (c_rootfs_size c));
    zrep 4 0; zrep 4 0; be_bytes 2 hi; be_bytes 2 mid; be_bytes 2 lo; zrep 354 0 ].

Definition fill_header (c : config) (buf : list Z) (len : Z) : outcome (list Z) :=
  buf ← bwrite 0 (concat (fw_header c md5salt_normal)) buf;
  data ← bread 0 len buf;
  bwrite md5sum1_at (md5 data) buf.

(** The two searches on the masks [1 << 10] to [1 << 31] in [pad_jffs2]. *)
Fixpoint first_mask (k : nat) (i pad_mask : Z) : Z :=
  let mask := u32 (Z.shiftl 1 i) in
  match k with
  | O => mask
  | S k' => if negb (Z.land pad_mask mask =? 0) then mask else first_mask k' (i + 1) pad_mask
  end.
Fixpoint clear_masks (k : nat) (i len pad_mask : Z) : Z :=
  match k with
  | O => pad_mask
  | S k' =>
      let mask := u32 (Z.shiftl 1 i) in
      clear_masks k' (i + 1) len
        (if Z.land (u32 len) (mask - 1) =? 0 then Z.land pad_mask (Z.lnot mask) else pad_mask)
  end.

(** The [while] of [pad_jffs2], at most [k] iterations. *)
Fixpoint pad_loop (k : nat) (fw_max len pad_mask : Z) (buf : list Z) : outcome (Z * list Z) :=
  if (u32 len <? fw_max) && negb (pad_mask =? 0) then
    match k with
    | O => UB
    | S k' =>
        let mask := first_mask 21 10 pad_mask in
        let len := s32 (ALIGN (u32 len) mask) in
        let pad_mask := clear_masks 22 10 len pad_mask in
        buf ← bwrite len jffs2_eof_mark buf;
        pad_loop k' fw_max (s32 (len + 4)) pad_mask buf
    end
  else Ok (len, buf).
Definition pad_jffs2 (fw_max : Z) (buf : list Z) (currlen : Z) : outcome (Z * list Z) :=
  pad_loop 1 fw_max currlen (64 * 1024) buf.

(** The root file system, and what is written so far. *)
Definition place_rootfs (c : config) (writelen : Z) (buf : list Z) : outcome (Z * list Z) :=
  if combined g then Ok (writelen, buf) else
  let align := negb (rootfs_align g =? 0) in
  buf ← read_to_buf (c_rootfs c) (c_rootfs_size c) (if align then writelen else c_rootfs_ofs c) buf;
  let writelen := if align then s32 (writelen + c_rootfs_size c)
                  else s32 (c_rootfs_ofs c + c_rootfs_size c) in
  if add_jffs2_eof g then pad_jffs2 (l_fw_max_len (c_layout c)) buf writelen else Ok (writelen, buf).

(** [build_fw] and [write_fw]: the output file. *)
Definition build_fw (c : config) : outcome (list Z) :=
  let buflen := l_fw_max_len (c_layout c) in
  if negb (tp_malloc E buflen) then Exit 1 else
  buf ← read_to_buf (c_kernel c) (c_kernel_size c) sizeof_fw_header (zrep buflen 0xff);
  '(writelen, buf) ← place_rootfs c (s32 (sizeof_fw_header + c_kernel_len c)) buf;
  let writelen := if strip_padding g then writelen else buflen in
  buf ← fill_header c buf writelen;
  if tp_fwrite E then bread 0 writelen buf else Exit 1.
End Build.

(** ** Inspecting an image *)

(** [%x] and [%u] with the widths the reports use. *)
Definition hex_digit (d : Z) : Z := if d <? 10 then 48 + d else 87 + d.
Fixpoint hex_of (k : nat) (v : Z) : list Z :=
  match k with O => [] | S k' => hex_of k' (v / 16) ++ [hex_digit (v mod 16)] end.
Fixpoint dec_of (k : nat) (v : Z) : list Z :=
  match k with
  | O => []
  | S k' => (if v / 10 =? 0 then [] else dec_of k' (v / 10)) ++ [48 + v mod 10]
  end.
Definition label (s : list Z) : list Z := s ++ zrep (23 - zlen s) 32 ++ str ":".
Definition hex8 (v : Z) : list Z := str " 0x" ++ hex_of 8 v.
Definition dec8 (v : Z) : list Z := let d := dec_of 10 v in zrep (8 - zlen d) 32 ++ d.

Definition inspect_fw_pstr (l s : list Z) : list Z := label l ++ str " " ++ s ++ [LF].
Definition inspect_fw_phex (l : list Z) (v : Z) : list Z := label l ++ hex8 v ++ [LF].
Definition inspect_fw_phexpost (l : list Z) (v : Z) (post : list Z) : list Z :=
  label l ++ hex8 v ++ str " (" ++ post ++ str ")" ++ [LF].
Definition inspect_fw_phexdef (l : list Z) (v defval : Z) : list Z :=
  label l ++ hex8 v ++ zrep 18 32 ++
  (if v =? defval then str "(== OpenWrt default)" ++ [LF]
   else str "(OpenWrt default:" ++ hex8 defval ++ str ")" ++ [LF]).
Definition inspect_fw_phexexp (l : list Z) (v expval : Z) : list Z :=
  label l ++ hex8 v ++ str " " ++
  (if v =? expval then str "(ok)" ++ [LF] else str "(expected:" ++ hex8 expval ++ str ")" ++ [LF]).
Definition inspect_fw_phexdec (l : list Z) (v : Z) : list Z :=
  label l ++ hex8 v ++ str " / " ++ dec8 v ++ str " bytes" ++ [LF].
Definition inspect_fw_phexdecdef (l : list Z) (v defval : Z) : list Z :=
  label l ++ hex8 v ++ str " / " ++ dec8 v ++ str " bytes " ++
  (if v =? defval then str "(== OpenWrt default)" ++ [LF]
   else str "(OpenWrt default:" ++ hex8 defval ++ str ")" ++ [LF]).
Definition inspect_fw_pmd5sum (l val text : list Z) : list Z :=
  label l ++ concat (map (fun b => str " " ++ hex_of 2 b) (ztake MD5SUM_LEN val)) ++ str " " ++ text ++ [LF].

Section Inspect.
Variable md5 : list Z -> list Z.
Variable big : bool.

(** [ntohl (hdr->field)] *)
Definition field (buf : list Z) (o : Z) : Z := be_val (slice o 4 buf).
Definition unknown (name : string) (buf : list Z) (o : Z) : list Z :=
  if field buf o =? 0 then [] else inspect_fw_phexdec (str name) (host_val big (slice o 4 buf)).

(** The check of the first digest: what the header holds, and the buffer
    with the computed digest in its place. *)
Definition inspect_md5 (buf : list Z) : list Z * list Z :=
  let md5sum := slice md5sum1_at MD5SUM_LEN buf in
  let salt := if field buf boot_len_at =? 0 then md5salt_normal else md5salt_boot in
  (md5sum, splice md5sum1_at (md5 (splice md5sum1_at salt buf)) (splice md5sum1_at salt buf)).
Definition md5_report (md5sum computed : list Z) : list Z :=
  if streq md5sum computed then inspect_fw_pmd5sum (str "Header MD5Sum1") md5sum (str "(ok)")
  else inspect_fw_pmd5sum (str "Header MD5Sum1") md5sum (str "(*ERROR*)") ++
       inspect_fw_pmd5sum (str "          --> expected") computed [].

(** The part of the report that depends on the board. *)
Definition board_report (buf : list Z) : list Z * list Z :=
  let hw_id := field buf hw_id_at in
  match find_board_by_hwid hw_id with
  | Some b =>
      let d f := match find_layout (b_layout_id b) with Some l => f l | None => 0xffffffff end in
      (inspect_fw_phexpost (str "Hardware ID") hw_id (b_id b) ++
       inspect_fw_phexexp (str "Hardware Revision") (field buf hw_rev_at) (b_hw_rev b),
       inspect_fw_phexdef (str "Kernel load address") (field buf kernel_la_at) (d l_kernel_la) ++
       inspect_fw_phexdef (str "Kernel entry point") (field buf kernel_ep_at) (d l_kernel_ep) ++
       inspect_fw_phexdecdef (str "Rootfs data offset") (field buf rootfs_ofs_at) (d l_rootfs_ofs))
  | None =>
      (inspect_fw_phexpost (str "Hardware ID") hw_id (str "unknown") ++
       inspect_fw_phex (str "Hardware Revision") (field buf hw_rev_at),
       inspect_fw_phex (str "Kernel load address") (field buf kernel_la_at) ++
       inspect_fw_phex (str "Kernel entry point") (field buf kernel_ep_at) ++
       inspect_fw_phexdec (str "Rootfs data offset") (field buf rootfs_ofs_at))
  end.

(** What an inspection produces: the report up to the extraction, and the
    two files. *)
Record report := mkReport { rp_text : list Z; rp_files : option (list Z * list Z) }.

(** [inspect_fw] on a file that holds [data].  The exit status is 0 also
    when the header is not of version 1. *)
Definition inspect_fw (name : list Z) (extr : bool) (data : list Z) : outcome report :=
  let size := u32 (zlen data) in
  let buf := ztake size data in
  let head := inspect_fw_pstr (str "File name") name ++ inspect_fw_phexdec (str "File size") size in
  version ← bread 0 4 buf;
  if negb (be_val version =? HEADER_VERSION_V1) then Ok (mkReport head None) else
  _ ← bread 0 sizeof_fw_header buf;
  let '(md5sum, buf) := inspect_md5 buf in
  let '(board1, board2) := board_report buf in
  let text :=
    head ++ inspect_fw_phexdec (str "Version 1 Header size") sizeof_fw_header ++
    unknown "Unknown value 1" buf unk1_at ++ md5_report md5sum (slice md5sum1_at MD5SUM_LEN buf) ++
    unknown "Unknown value 2" buf unk2_at ++
    inspect_fw_pmd5sum (str "Header MD5Sum2") (slice md5sum2_at MD5SUM_LEN buf)
      (str "(purpose yet unknown, unchecked here)") ++
    unknown "Unknown value 3" buf unk3_at ++ [LF] ++
    inspect_fw_pstr (str "Vendor name") (cstr (zdrop 4 buf)) ++
    inspect_fw_pstr (str "Firmware version") (cstr (zdrop fw_version_at buf)) ++ board1 ++ [LF] ++
    inspect_fw_phexdec (str "Kernel data offset") (field buf kernel_ofs_at) ++
    inspect_fw_phexdec (str "Kernel data length") (field buf kernel_len_at) ++ board2 ++
    inspect_fw_phexdec (str "Rootfs data length") (field buf rootfs_len_at) ++
    inspect_fw_phexdec (str "Boot loader data offset") (field buf boot_ofs_at) ++
    inspect_fw_phexdec (str "Boot loader data length") (field buf boot_len_at) ++
    inspect_fw_phexdec (str "Total firmware length") (field buf fw_length_at) in
  if extr then
    kernel ← bread (field buf kernel_ofs_at) (field buf kernel_len_at) buf;
    rootfs ← bread (field buf rootfs_ofs_at) (field buf rootfs_len_at) buf;
    Ok (mkReport text (Some (kernel, rootfs)))
  else Ok (mkReport text None).

(** [main]: an image, or a report. *)
Definition mktplinkfw_main (E : tp_env) (options : list tp_opt) : outcome (list Z + report) :=
  g ← tp_do_opts globals0 options;
  match inspect_name g with
  | Some name =>
      match tp_file E name with
      | None => Exit 255
      | Some data =>
          if negb (tp_malloc E (u32 (zlen data)) && tp_fopen E name) then Exit 1 else
          inr <$> inspect_fw name (extract g) data
      end
  | None => c ← check_options E g; inl <$> build_fw md5 E g c
  end.
End Inspect.

(** ** Splices and prefixes *)

Lemma ztake_splice {A} n o (d l : list A) :
  0 <= o -> o + zlen d <= n -> n <= zlen l -> ztake n (splice o d l) = splice o d (ztake n l).
Proof.
  intros Ho Hd Hn. unfold splice, ztake, zdrop, zlen in *.
  rewrite take_app_ge by (rewrite length_take; lia). rewrite take_app_ge by (rewrite length_take; lia).
  rewrite take_take, skipn_firstn_comm, length_take.
  f_equal; [f_equal; lia|]. do 2 f_equal. lia.
Qed.
Lemma splice_undo {A} o (s m l : list A) :
  0 <= o -> zlen m = zlen s -> o + zlen s <= zlen l -> slice o (zlen s) l = s -> splice o s (splice o m l) = l.
Proof.
  intros Ho Hm Hl Hs.
  assert (splice o s (splice o m l) = splice o s l) as ->.
  { unfold splice. f_equal; [|f_equal].
    - unfold ztake, zlen in *. rewrite take_app_length' by (rewrite length_take; lia). done.
    - rewrite <- Hm. unfold ztake, zdrop, zlen in *.
      rewrite app_assoc, drop_app_length' by (rewrite length_app, length_take; lia). done. }
  unfold splice. rewrite <- (ztake_drop o l) at 3. f_equal.
  rewrite <- (ztake_drop (zlen s) (zdrop o l)). change (ztake (zlen s) (zdrop o l)) with (slice o (zlen s) l).
  rewrite Hs. f_equal. unfold zdrop, zlen in *. rewrite drop_drop. f_equal. lia.
Qed.

(** ** The image [build_fw] makes *)

Lemma zlen_fw_header g c sum1 : zlen sum1 = 16 -> zlen (concat (fw_header g c sum1)) = 512.
Proof.
  intros Hs. unfold fw_header. destruct (c_ver c) as [[hi mid] lo]. cbn [concat]. rewrite !zlen_app.
  rewrite !zlen_strncpy_field by lia. change (zlen []) with 0.
  rewrite !zlen_be_bytes, !zlen_rep, Hs.
  destruct (combined g); rewrite ?zlen_rep, ?zlen_be_bytes; lia.
Qed.

(** The header's fields, by their index in the structure. *)
Lemma fw_header_field g c sum1 (i : nat) d :
  zlen sum1 = 16 -> fw_header g c sum1 !! i = Some d ->
  slice (zlen (concat (take i (fw_header g c sum1)))) (zlen d) (concat (fw_header g c sum1)) = d.
Proof. intros Hs Hi. by apply (slice_concat i). Qed.

(** A build without padding marks, alignment or combined kernel: the digested
    bytes, of which the output differs in the digest only. *)
Record built (g : globals) (c : config) (kdata rdata data : list Z) : Prop := {
  bt_len : 512 <= zlen data < 2 ^ 32;
  bt_hdr : ztake 512 data = concat (fw_header g c md5salt_normal);
  bt_kernel : slice 512 (zlen kdata) data = kdata;
  bt_rootfs : slice (c_rootfs_ofs c) (zlen rdata) data = rdata;
  bt_fits : 512 + zlen kdata <= zlen data /\ 512 <= c_rootfs_ofs c /\ c_rootfs_ofs c + zlen rdata <= zlen data;
}.

Section Built.
Context (md5 : list Z -> list Z) (md5_len : forall x, zlen (md5 x) = 16).
Context (E : tp_env) (g : globals) (c : config) (kdata rdata : list Z).
Context (Hcomb : combined g = false) (Halign : rootfs_align g = 0) (Hjffs : add_jffs2_eof g = false).
Context (Hk : tp_file E (c_kernel c) = Some kdata) (Hr : tp_file E (c_rootfs c) = Some rdata).
Context (Hko : tp_fopen E (c_kernel c) = true) (Hro : tp_fopen E (c_rootfs c) = true).
Context (Hmal : forall n, tp_malloc E n = true) (Hfw : tp_fwrite E = true).
Context (Hks : c_kernel_size c = zlen kdata) (Hrs : c_rootfs_size c = zlen rdata).
Context (Hofs : 512 + zlen kdata <= c_rootfs_ofs c)
        (Hfit : c_rootfs_ofs c + zlen rdata <= l_fw_max_len (c_layout c)) (Hmax : l_fw_max_len (c_layout c) < 2 ^ 31).

Definition final_len : Z := if strip_padding g then c_rootfs_ofs c + zlen rdata else l_fw_max_len (c_layout c).

Lemma build_fw_spec :
  exists data, build_fw md5 E g c = Ok (splice md5sum1_at (md5 data) data) /\
               built g c kdata rdata data /\ zlen data = final_len.
Proof.
  pose proof (zlen_nonneg kdata). pose proof (zlen_nonneg rdata).
  unfold build_fw. rewrite Hmal. cbn [negb]. set (n := l_fw_max_len (c_layout c)) in *.
  unfold read_to_buf at 1. rewrite Hk, Hko, Hks, ztake_all by lia.
  assert (zlen (zrep n 255) = n) as Hn by (rewrite zlen_rep; lia).
  rewrite bwrite_in by (unfold sizeof_fw_header; lia). bsimpl.
  set (buf1 := splice sizeof_fw_header kdata (zrep n 255)).
  assert (zlen buf1 = n) as Hb1 by (unfold buf1; rewrite zlen_splice; unfold sizeof_fw_header; lia).
  unfold place_rootfs, read_to_buf. rewrite Hcomb, Halign, Hr, Hro, Hrs, ztake_all by lia. cbn [Z.eqb negb].
  rewrite bwrite_in by lia. bsimpl. rewrite Hjffs. bsimpl. rewrite s32_small by lia.
  set (buf2 := splice (c_rootfs_ofs c) rdata buf1).
  assert (zlen buf2 = n) as Hb2 by (unfold buf2; rewrite zlen_splice; lia).
  change (if strip_padding g then c_rootfs_ofs c + zlen rdata else n) with final_len.
  assert (c_rootfs_ofs c + zlen rdata <= final_len <= n) as Hfl
    by (unfold final_len, n; destruct (strip_padding g); lia).
  set (hb := concat (fw_header g c md5salt_normal)). assert (zlen hb = 512) as HH by (by apply zlen_fw_header).
  unfold fill_header. fold hb. rewrite bwrite_in by lia. bsimpl. set (buf3 := splice 0 hb buf2).
  assert (zlen buf3 = n) as Hb3 by (unfold buf3; rewrite zlen_splice; lia).
  rewrite bread_in by lia. bsimpl. rewrite slice_0. set (data := ztake final_len buf3).
  rewrite bwrite_in by (rewrite ?md5_len; unfold md5sum1_at; lia). bsimpl. rewrite Hfw.
  rewrite bread_in by (rewrite ?zlen_splice; rewrite ?md5_len; unfold md5sum1_at; lia).
  rewrite slice_0. exists data. split; [|split].
  - rewrite ztake_splice; [done|unfold md5sum1_at; lia|rewrite md5_len; unfold md5sum1_at; lia|lia].
  - assert (zlen data = final_len) as Hd by (unfold data; rewrite zlen_take; lia).
    split; rewrite ?Hd; try lia.
    + unfold data. rewrite <- slice_0, slice_ztake by lia. unfold buf3.
      rewrite slice_splice_eq; [done|lia|lia|by rewrite HH].
    + unfold data. rewrite slice_ztake by lia. unfold buf3. rewrite slice_splice_after by lia.
      unfold buf2. rewrite slice_splice_before by lia. unfold buf1, sizeof_fw_header.
      apply slice_splice_eq; lia.
    + unfold data. rewrite slice_ztake by lia. unfold buf3. rewrite slice_splice_after by lia.
      unfold buf2. apply slice_splice_eq; lia.
  - unfold data. rewrite zlen_take. lia.
Qed.
End Built.

(** The offset of a field: the lengths of those in front of it. *)
Ltac hdr_ofs :=
  cbn [take concat]; rewrite ?zlen_app; rewrite ?zlen_strncpy_field by lia;
  change (zlen []) with 0; change (zlen md5salt_normal) with 16;
  rewrite ?zlen_be_bytes, ?zlen_rep; try reflexivity; lia.

Section Inspected.
Context (md5 : list Z -> list Z) (md5_len : forall x, zlen (md5 x) = 16).
Context (g : globals) (c : config) (kdata rdata data : list Z).
Context (Hb : built g c kdata rdata data) (Hcomb : combined g = false).
Context (Hkl : c_kernel_len c = zlen kdata) (Hrs : c_rootfs_size c = zlen rdata).

Abbreviation img := (splice md5sum1_at (md5 data) data).

Lemma img_len : zlen img = zlen data.
Proof. destruct Hb as [Hl _ _ _ _]. rewrite zlen_splice; rewrite ?md5_len; unfold md5sum1_at; lia. Qed.

Lemma data_field (i : nat) o n d :
  fw_header g c md5salt_normal !! i = Some d -> o = zlen (concat (take i (fw_header g c md5salt_normal))) ->
  n = zlen d -> 0 <= o -> 0 <= n -> o + n <= 512 -> slice o n data = d.
Proof.
  intros Hi Ho Hn H1 H2 H3. rewrite <- (slice_ztake o n 512) by lia. rewrite (bt_hdr _ _ _ _ _ Hb).
  by apply (slice_concat i).
Qed.
Lemma img_field (i : nat) o v :
  fw_header g c md5salt_normal !! i = Some (be_bytes 4 v) ->
  o = zlen (concat (take i (fw_header g c md5salt_normal))) -> 0 <= o ->
  o + 4 <= 76 \/ 92 <= o -> o + 4 <= 512 -> field img o = u32 v.
Proof.
  intros Hi Ho H0 H1 H2. unfold field. destruct Hb as [Hl _ _ _ _].
  rewrite slice_splice_ne by (rewrite ?md5_len; unfold md5sum1_at; lia).
  rewrite (data_field i o 4 (be_bytes 4 v)); [apply be_val_bytes|done|done|by rewrite zlen_be_bytes|lia..].
Qed.

(** The digest of the header is that of the image with the salt in its place. *)
Lemma img_md5 : slice md5sum1_at MD5SUM_LEN img = md5 data /\ inspect_md5 md5 img = (md5 data, img).
Proof.
  destruct Hb as [Hl Hh Hk Hr Hf].
  assert (slice md5sum1_at MD5SUM_LEN img = md5 data) as Hs
    by (apply slice_splice_eq; rewrite ?md5_len; unfold md5sum1_at, MD5SUM_LEN; lia).
  split; [done|]. unfold inspect_md5. rewrite Hs.
  assert (field img boot_len_at = 0) as ->.
  { change 0 with (u32 0) at 1. apply (img_field 18); unfold boot_len_at; try lia;
      unfold fw_header; destruct (c_ver c) as [[hi mid] lo]; [reflexivity|rewrite Hcomb; hdr_ofs]. }
  cbn [Z.eqb]. assert (zlen md5salt_normal = 16) as Hsalt by done.
  assert (splice md5sum1_at md5salt_normal img = data) as Hback; [|by rewrite Hback].
  apply splice_undo; [unfold md5sum1_at; lia|by rewrite md5_len|unfold md5sum1_at; lia|].
  apply (data_field 6); rewrite ?Hsalt; try (unfold md5sum1_at; lia);
    unfold fw_header; destruct (c_ver c) as [[hi mid] lo]; [reflexivity|unfold md5sum1_at; hdr_ofs].
Qed.

Lemma inspect_built big name :
  exists text, inspect_fw md5 big name true img = Ok (mkReport text (Some (kdata, rdata))).
Proof.
  pose proof img_len as Hil. pose proof img_md5 as [_ Hm]. pose proof Hb as [Hl Hh Hk Hr Hf].
  pose proof (zlen_nonneg kdata). pose proof (zlen_nonneg rdata).
  assert (field img 0 = HEADER_VERSION_V1) as Hv.
  { change HEADER_VERSION_V1 with (u32 HEADER_VERSION_V1). apply (img_field 0); try lia;
      unfold fw_header; by destruct (c_ver c) as [[hi mid] lo]. }
  assert (field img kernel_ofs_at = 512) as Hko.
  { change 512 with (u32 sizeof_fw_header). apply (img_field 13); unfold kernel_ofs_at; try lia;
      unfold fw_header; destruct (c_ver c) as [[hi mid] lo]; [reflexivity|hdr_ofs]. }
  assert (field img kernel_len_at = zlen kdata) as Hkn.
  { rewrite <- Hkl, <- (u32_small (c_kernel_len c)) by lia. apply (img_field 14); unfold kernel_len_at; try lia;
      unfold fw_header; destruct (c_ver c) as [[hi mid] lo]; [reflexivity|hdr_ofs]. }
  assert (field img rootfs_ofs_at = c_rootfs_ofs c) as Hro.
  { rewrite <- (u32_small (c_rootfs_ofs c)) by lia. apply (img_field 15); unfold rootfs_ofs_at; try lia;
      unfold fw_header; destruct (c_ver c) as [[hi mid] lo]; rewrite Hcomb; [reflexivity|hdr_ofs]. }
  assert (field img rootfs_len_at = zlen rdata) as Hrn.
  { rewrite <- Hrs, <- (u32_small (c_rootfs_size c)) by lia. apply (img_field 16); unfold rootfs_len_at; try lia;
      unfold fw_header; destruct (c_ver c) as [[hi mid] lo]; rewrite Hcomb; [reflexivity|hdr_ofs]. }
  unfold inspect_fw. cbv zeta. rewrite Hil, u32_small by lia. rewrite (ztake_all (zlen data) img) by lia.
  rewrite (bread_in 0 4 img) by lia. bsimpl. change (be_val (slice 0 4 img)) with (field img 0). rewrite Hv, Z.eqb_refl. cbn [negb].
  rewrite (bread_in 0 sizeof_fw_header img) by (unfold sizeof_fw_header; lia). bsimpl. rewrite Hm.
  destruct (board_report img) as [board1 board2]. rewrite Hko, Hkn, Hro, Hrn.
  rewrite (bread_in 512 (zlen kdata) img), (bread_in (c_rootfs_ofs c) (zlen rdata) img) by lia. bsimpl.
  rewrite (slice_splice_ne 512), (slice_splice_ne (c_rootfs_ofs c)) by (rewrite ?md5_len; unfold md5sum1_at; lia).
  rewrite Hk, Hr. by eexists.
Qed.
End Inspected.

(** ** What [check_options] accepts *)

Lemma sscanf_0x_range s v : 0 <= v < 2 ^ 32 -> 0 <= sscanf_0x s v < 2 ^ 32.
Proof.
  intros Hv. unfold sscanf_0x. repeat case_match; try done. apply u32_range.
Qed.
Definition globals_ok (g : globals) : Prop := 0 <= reserved_space g < 2 ^ 32 /\ 0 <= g_rootfs_ofs g < 2 ^ 32.
Lemma globals0_ok : globals_ok globals0.
Proof. split; done. Qed.
Lemma tp_do_opts_ok l g g' : globals_ok g -> tp_do_opts g l = Ok g' -> globals_ok g'.
Proof.
  revert g. induction l as [|o l IH]; intros g Hg H; cbn [tp_do_opts] in H; [by injection H as <-|].
  apply bind_Ok in H as (g1 & H1 & H). apply (IH g1); [|done]. clear H IH. destruct Hg as [Hr Ho].
  destruct g as [f vn ve fv bi li hi hr la ep kn rn ro ra cb sp aj rs ins ex]. cbn in Hr, Ho.
  destruct o; cbn in H1; try done; injection H1 as <-; split; cbn; try done; by apply sscanf_0x_range.
Qed.

Record plain_config (E : tp_env) (c : config) (kdata rdata : list Z) : Prop := {
  pc_layout : c_layout c ∈ layouts;
  pc_max : c_fw_max_len c <= l_fw_max_len (c_layout c) < 2 ^ 31;
  pc_kernel : tp_file E (c_kernel c) = Some kdata;
  pc_rootfs : tp_file E (c_rootfs c) = Some rdata;
  pc_ksize : c_kernel_size c = u32 (zlen kdata);
  pc_klen : c_kernel_len c = c_kernel_size c;
  pc_rsize : c_rootfs_size c = u32 (zlen rdata);
  pc_kfits : c_kernel_size c <= u64 (c_rootfs_ofs c - 512);
  pc_rfits : c_rootfs_size c <= u32 (c_fw_max_len c - c_rootfs_ofs c);
}.

Lemma get_file_stat_Ok E name n :
  get_file_stat E name = Ok n -> exists data, tp_file E name = Some data /\ n = u32 (zlen data).
Proof. unfold get_file_stat. destruct (tp_file E name) as [data|]; [|done]. intros [= <-]. by exists data. Qed.

Lemma check_options_plain E g c :
  globals_ok g -> check_options E g = Ok c -> combined g = false -> rootfs_align g = 0 ->
  exists kdata rdata, plain_config E c kdata rdata.
Proof.
  intros [Hrs _] H Hc Ha. unfold check_options in H. destruct (extract g); [done|].
  apply bind_Ok in H as ([[hw_id hw_rev] lid] & _ & H). destruct (find_layout lid) as [layout|] eqn:Hl; [|done].
  apply find_layout_in_elem in Hl as [Hl _]. pose proof (layouts_ok _ Hl) as Hok.
  destruct (Z.ltb_spec (l_fw_max_len layout) (reserved_space g)); [done|].
  destruct (kernel_name g) as [kn|]; [|done]. apply bind_Ok in H as (ks & Hks & H).
  apply get_file_stat_Ok in Hks as (kdata & Hkd & ->).
  apply bind_Ok in H as ([[kl rn] rs] & Hsz & H). unfold check_sizes in Hsz. rewrite Hc, Ha in Hsz. cbn [Z.eqb negb] in Hsz.
  destruct (rootfs_name g) as [rn'|]; [|done]. apply bind_Ok in Hsz as (rs' & Hrs' & Hsz).
  apply get_file_stat_Ok in Hrs' as (rdata & Hrd & ->).
  destruct (Z.ltb_spec (u64 ((if g_rootfs_ofs g =? 0 then l_rootfs_ofs layout else g_rootfs_ofs g) - sizeof_fw_header))
    (u32 (zlen kdata))) as [|Hkf]; [done|].
  destruct (Z.ltb_spec (u32 (u32 (l_fw_max_len layout - reserved_space g) -
    (if g_rootfs_ofs g =? 0 then l_rootfs_ofs layout else g_rootfs_ofs g))) (u32 (zlen rdata))) as [|Hrf]; [done|].
  injection Hsz as <- <- <-. destruct (ofname g); [|done]. destruct (sscanf_ver (fw_ver g)); [|done].
  injection H as <-. exists kdata, rdata.
  unfold layout_okb in Hok. repeat (apply andb_prop in Hok as [Hok ?]).
  split; cbn [c_layout c_fw_max_len c_kernel c_rootfs c_kernel_size c_kernel_len c_rootfs_size c_rootfs_ofs]; try done.
  rewrite u32_small by lia. lia.
Qed.

(** ** The JFFS2 end marker *)

Lemma clear_masks_0 k i len : clear_masks k i len 0 = 0.
Proof. revert i. induction k as [|k IH]; intros i; cbn [clear_masks]; [done|]. rewrite Z.land_0_l. destruct (_ =? 0); apply IH. Qed.
Lemma clear_masks_64k len : Z.land (u32 len) 0xffff = 0 -> clear_masks 22 10 len 65536 = 0.
Proof.
  intros H. assert (forall i, 10 <= i < 16 -> Z.land 65536 (Z.lnot (u32 (Z.shiftl 1 i))) = 65536) as Hlow.
  { intros i Hi. assert (i = 10 \/ i = 11 \/ i = 12 \/ i = 13 \/ i = 14 \/ i = 15) as Hc by lia.
    by destruct_or! Hc; subst i. }
  assert (forall k i, 10 <= i < 16 -> clear_masks (S k) i len 65536 = clear_masks k (i + 1) len 65536) as Hstep.
  { intros k i Hi. cbn [clear_masks]. by destruct (_ =? 0); rewrite ?Hlow by lia. }
  do 6 (rewrite Hstep by lia). change (10 + 1 + 1 + 1 + 1 + 1 + 1) with 16.
  assert (forall k, clear_masks (S k) 16 len 65536 = clear_masks k 17 len 0) as Hlast.
  { intros k. cbn [clear_masks]. change (u32 (Z.shiftl 1 16) - 1) with 0xffff. by rewrite H. }
  rewrite Hlast. apply clear_masks_0.
Qed.
Lemma ALIGN_64k x : 0 <= x -> x + 0xffff < 2 ^ 32 -> ALIGN x 65536 = (x + 0xffff) / 65536 * 65536.
Proof.
  intros H0 H. unfold ALIGN. rewrite u32_small by lia. replace (x + 65536 - 1) with (x + 0xffff) by lia.
  change (u32 (Z.lnot (65536 - 1))) with (Z.shiftl (Z.ones 16) 16). change 65536 with (2 ^ 16).
  rewrite <- Z.shiftr_div_pow2, <- Z.shiftl_mul_pow2 by lia. apply Z.bits_inj'. intros n Hn.
  rewrite Z.land_spec. destruct (Z.lt_ge_cases n 16) as [Hl|Hl].
  - by rewrite !Z.shiftl_spec_low, andb_false_r by lia.
  - rewrite !Z.shiftl_spec, Z.shiftr_spec by lia. replace (n - 16 + 16) with n by lia.
    destruct (Z.lt_ge_cases n 32).
    + by rewrite Z.ones_spec_low, andb_true_r by lia.
    + rewrite Z.ones_spec_high, andb_false_r by lia. symmetry.
      rewrite <- (Z.mod_small (x + 0xffff) (2 ^ 32)) by lia. by apply Z.mod_pow2_bits_high.
Qed.

(** ** Properties *)

(** with a layout of whole 64 KiB blocks, [pad_jffs2] puts the
    end-of-filesystem mark at the next 64 KiB boundary and runs its loop once;
    for an image that ends in the last block of the layout that boundary is the
    end of the buffer, and the mark is written past it. *)
Theorem pad_jffs2_spec (fw_max len : Z) (buf : list Z) :
  0 <= len < fw_max -> fw_max + 0xffff < 2 ^ 31 -> zlen buf = fw_max -> fw_max mod 65536 = 0 ->
  let at64k := (len + 0xffff) / 65536 * 65536 in
  pad_jffs2 fw_max buf len
  = if at64k <? fw_max then Ok (at64k + 4, splice at64k jffs2_eof_mark buf) else UB.
Proof.
  intros Hl Hm Hb Hmod at64k. unfold pad_jffs2. cbn [pad_loop].
  rewrite u32_small, (proj2 (Z.ltb_lt _ _)) by lia. change (64 * 1024 =? 0) with false. cbn [andb negb].
  change (first_mask 21 10 (64 * 1024)) with 65536. rewrite ALIGN_64k by lia. fold at64k.
  assert (0 <= at64k <= fw_max) as Ha by (unfold at64k; dlia).
  rewrite (s32_small at64k) by lia.
  rewrite clear_masks_64k; [|rewrite u32_small by lia; change 0xffff with (Z.ones 16); rewrite Z.land_ones by lia;
                             unfold at64k; change 65536 with (2 ^ 16); by rewrite Z.mod_mul].
  change (zlen jffs2_eof_mark) with 4 in *. destruct (Z.ltb_spec at64k fw_max) as [Hlt|Hge].
  - assert (at64k + 65536 <= fw_max) by (unfold at64k in *; dlia).
    rewrite bwrite_in by (change (zlen jffs2_eof_mark) with 4; lia). bsimpl.
    change (0 =? 0) with true. cbn [negb]. rewrite andb_false_r. by rewrite s32_small by lia.
  - rewrite bwrite_out by (change (zlen jffs2_eof_mark) with 4; lia). done.
Qed.
Lemma pad_jffs2_spec_witness :
  pad_jffs2 131072 (zrep 131072 255) 5 = (let at64k := (5 + 0xffff) / 65536 * 65536 in
    if at64k <? 131072 then Ok (at64k + 4, splice at64k jffs2_eof_mark (zrep 131072 255)) else UB).
Proof. apply pad_jffs2_spec; [lia|lia|apply zlen_rep|reflexivity]. Defined.

(** C4: options that [check_options] accepts (separate kernel and root file
    system, no alignment, no JFFS2 mark, a root file system offset past the
    header and inside the image) give an image, without any access outside the
    buffer; inspecting it finds the digest right and extracts exactly the
    kernel and the root file system that went in. *)
Theorem tplink_build_inspect md5 big E options g c kdata rdata name :
  (forall x, zlen (md5 x) = 16) ->
  tp_do_opts globals0 options = Ok g -> check_options E g = Ok c ->
  combined g = false -> rootfs_align g = 0 -> add_jffs2_eof g = false ->
  512 <= c_rootfs_ofs c <= c_fw_max_len c ->
  tp_file E (c_kernel c) = Some kdata -> zlen kdata < 2 ^ 32 ->
  tp_file E (c_rootfs c) = Some rdata -> zlen rdata < 2 ^ 32 ->
  tp_fopen E (c_kernel c) = true -> tp_fopen E (c_rootfs c) = true ->
  (forall n, tp_malloc E n = true) -> tp_fwrite E = true ->
  exists img text digest,
    build_fw md5 E g c = Ok img /\
    zlen img = (if strip_padding g then c_rootfs_ofs c + zlen rdata else l_fw_max_len (c_layout c)) /\
    slice md5sum1_at MD5SUM_LEN img = digest /\ inspect_md5 md5 img = (digest, img) /\
    inspect_fw md5 big name true img = Ok (mkReport text (Some (kdata, rdata))).
Proof.
  intros Hmd Ho Hc Hcomb Hal Hj Hofs Hk Hkl Hr Hrl Hko Hro Hma Hfw.
  assert (globals_ok g) as Hg by (exact (tp_do_opts_ok _ _ _ globals0_ok Ho)).
  destruct (check_options_plain E g c Hg Hc Hcomb Hal) as (kd & rd & [Hl Hmax Hk' Hr' Hks Hkn Hrs Hkf Hrf]).
  rewrite Hk in Hk'. rewrite Hr in Hr'. injection Hk' as <-. injection Hr' as <-.
  pose proof (zlen_nonneg kdata). pose proof (zlen_nonneg rdata).
  rewrite u32_small in Hks, Hrs by lia. rewrite u64_small in Hkf by lia. rewrite u32_small in Hrf by lia.
  destruct (build_fw_spec md5 Hmd E g c kdata rdata) as (data & Hb & Hbt & Hlen); try done; try lia.
  exists (splice md5sum1_at (md5 data) data).
  destruct (inspect_built md5 Hmd g c kdata rdata data Hbt Hcomb ltac:(lia) Hrs big name) as [text Hi].
  destruct (img_md5 md5 Hmd g c kdata rdata data Hbt Hcomb) as [Hs Hm].
  exists text, (md5 data). split; [done|]. split; [|done].
  rewrite (img_len md5 Hmd g c kdata rdata data Hbt). apply Hlen.
Qed.

(** The options [-B TL-MR3020v1 -k k -r r -o out -s]. *)
Definition tp_demo_opts : list tp_opt :=
  [Tp_B (str "TL-MR3020v1"); Tp_k (str "k"); Tp_r (str "r"); Tp_o (str "out"); Tp_s; Tp_v (str "1.2.3")].
Definition tp_demo_env : tp_env := {|
  tp_file := fun p => if streq p (str "k") then Some [1; 2; 3] else if streq p (str "r") then Some [9; 8] else None;
  tp_fopen := fun _ => true; tp_malloc := fun _ => true; tp_fwrite := true |}.
Definition tp_digest (x : list Z) : list Z := le_bytes 16 (fold_left Z.add x 0).

Lemma tplink_build_inspect_witness :
  exists g c, tp_do_opts globals0 tp_demo_opts = Ok g /\ check_options tp_demo_env g = Ok c /\
  exists img text digest,
    build_fw tp_digest tp_demo_env g c = Ok img /\
    zlen img = (if strip_padding g then c_rootfs_ofs c + zlen [9; 8] else l_fw_max_len (c_layout c)) /\
    slice md5sum1_at MD5SUM_LEN img = digest /\ inspect_md5 tp_digest img = (digest, img) /\
    inspect_fw tp_digest false (str "out") true img = Ok (mkReport text (Some ([1; 2; 3], [9; 8]))).
Proof.
  eexists _, _. split; [vm_compute; reflexivity|]. split; [vm_compute; reflexivity|].
  eapply (tplink_build_inspect tp_digest false tp_demo_env tp_demo_opts).
  - intros x. apply zlen_le_bytes.
  - vm_compute. reflexivity.
  - vm_compute. reflexivity.
  - reflexivity.
  - reflexivity.
  - reflexivity.
  - vm_compute. split; discriminate.
  - reflexivity.
  - vm_compute. reflexivity.
  - reflexivity.
  - vm_compute. reflexivity.
  - reflexivity.
  - reflexivity.
  - reflexivity.
  - reflexivity.
Defined.

(** With [-a] the root file system is placed behind the aligned kernel, but the
    header keeps the offset of the layout: inspection extracts other bytes. *)
Example aligned_rootfs_not_found :
  match tp_do_opts globals0 (tp_demo_opts ++ [Tp_a (str "0x1000")]) with
  | Ok g => match check_options tp_demo_env g with
            | Ok c => match build_fw tp_digest tp_demo_env g c with
                      | Ok img => slice 0x1000 2 img = [9; 8] /\ slice (c_rootfs_ofs c) 2 img <> [9; 8]
                      | _ => False
                      end
            | _ => False
            end
  | _ => False
  end.
Proof. vm_compute. split; [reflexivity|discriminate]. Qed.

(** nothing bounds the root file system offset: one past the layout makes
    the size check wrap around and pass, and the root file system is read
    beyond the image buffer. *)
Theorem tplink_rootfs_offset_overflow md5 E options g c kdata rdata :
  tp_do_opts globals0 options = Ok g -> check_options E g = Ok c ->
  combined g = false -> rootfs_align g = 0 ->
  l_fw_max_len (c_layout c) < c_rootfs_ofs c ->
  tp_file E (c_kernel c) = Some kdata -> 512 + zlen kdata <= l_fw_max_len (c_layout c) ->
  tp_file E (c_rootfs c) = Some rdata -> zlen rdata < 2 ^ 32 ->
  tp_fopen E (c_kernel c) = true -> tp_fopen E (c_rootfs c) = true -> (forall n, tp_malloc E n = true) ->
  build_fw md5 E g c = UB.
Proof.
  intros Ho Hc Hcomb Hal Hofs Hk Hkl Hr Hrl Hko Hro Hma.
  assert (globals_ok g) as Hg by (exact (tp_do_opts_ok _ _ _ globals0_ok Ho)).
  destruct (check_options_plain E g c Hg Hc Hcomb Hal) as (kd & rd & [Hl Hmax Hk' Hr' Hks Hkn Hrs Hkf Hrf]).
  rewrite Hk in Hk'. rewrite Hr in Hr'. injection Hk' as <-. injection Hr' as <-.
  pose proof (zlen_nonneg kdata). pose proof (zlen_nonneg rdata). rewrite u32_small in Hks, Hrs by lia.
  unfold build_fw. rewrite Hma. cbn [negb]. unfold read_to_buf. rewrite Hk, Hko, Hks, ztake_all by lia.
  rewrite bwrite_in by (rewrite ?zlen_rep; unfold sizeof_fw_header; lia). bsimpl.
  unfold place_rootfs, read_to_buf. rewrite Hcomb, Hal, Hr, Hro, Hrs, ztake_all by lia. cbn [Z.eqb negb].
  rewrite bwrite_out; [done|]. rewrite zlen_splice; rewrite ?zlen_rep; unfold sizeof_fw_header; lia.
Qed.

(** [-R 0x500000] with the 4 MB layout. *)
Lemma tplink_rootfs_offset_overflow_witness :
  exists g c, tp_do_opts globals0 (Tp_R (str "0x500000") :: tp_demo_opts) = Ok g /\
              check_options tp_demo_env g = Ok c /\ build_fw tp_digest tp_demo_env g c = UB.
Proof.
  eexists _, _. split; [vm_compute; reflexivity|]. split; [vm_compute; reflexivity|].
  eapply (tplink_rootfs_offset_overflow tp_digest tp_demo_env (Tp_R (str "0x500000") :: tp_demo_opts)).
  - vm_compute. reflexivity.
  - vm_compute. reflexivity.
  - reflexivity.
  - reflexivity.
  - vm_compute. reflexivity.
  - reflexivity.
  - vm_compute. discriminate.
  - reflexivity.
  - vm_compute. reflexivity.
  - reflexivity.
  - reflexivity.
  - reflexivity.
Defined.
