(* ===== verification/DlinkDsr.v ===== *)
(** * tools/make_dlink_dsr_image/make_dlink_dsr_image.c

    Puts a 512-byte header in front of a kernel and root file system for the
    D-Link DSR routers: names, size and a byte sum over the whole image. *)

From S2P Require Import Prelude CLib Image.

(** [argv[i]]: a string, the NULL at the end, or past it. *)
Definition argv_at (argv : list (list Z)) (i : nat) : outcome (option (list Z)) :=
  match argv !! i with
  | Some s => Ok (Some s)
  | None => if (i =? length argv)%nat then Ok None else UB
  end.
(** A string the code dereferences. *)
Definition deref (s : option (list Z)) : outcome (list Z) := match s with Some s => Ok s | None => UB end.

(** The arguments, in the order the code takes them. *)
Record dsr_args := mkDsrArgs {
  outimage : option (list Z);
  inimage : list Z;
  hw_name : list Z;
  fw_release : list Z;
  hw_version : list Z;
  hw_vername : list Z;
  country : list Z;
}.
Definition parse_args (argv : list (list Z)) : outcome dsr_args :=
  if (length argv <? 5)%nat then Exit 1 else
  a1 ← argv_at argv 1; a1 ← deref a1;
  '(outimage, i) ← (if streq a1 (str "-o") then o ← argv_at argv 2; Ok (o, 3%nat) else Ok (None, 1%nat));
  inimage ← argv_at argv i; hw_name ← argv_at argv (i + 1); fw_release ← argv_at argv (i + 2);
  hw_version ← argv_at argv (i + 3); hw_vername ← argv_at argv (i + 4); country ← argv_at argv (i + 5);
  inimage ← deref inimage; hw_name ← deref hw_name; fw_release ← deref fw_release;
  hw_version ← deref hw_version; hw_vername ← deref hw_vername;
  Ok (mkDsrArgs outimage inimage hw_name fw_release hw_version hw_vername (default (str "WW") country)).

(** [mksum] in a 32-bit [int]. *)
Definition mksum (buf : list Z) : Z := fold_left (fun sum b => s32 (sum + b)) buf 0.

(** [CHECK_FIELD_LENGTH]: a field of [n] bytes. *)
Definition check_field (n : Z) (s : list Z) : outcome (list Z) :=
  if n - 1 <? zlen s then Exit 1 else Ok (strncpy_field n s).

Definition sum_at : Z := 20.
Definition size_at : Z := 16.
Definition sizeof_dsr_header : Z := 512.

(** Whether the input opens (and what it holds), the output opens, and how many
    of the [n] bytes of the [c]-th [fwrite] get there; [date] is what [ctime]
    returns. *)
Record dsr_env := mkDsrEnv {
  dsr_read : list Z -> option (list Z);
  dsr_creat : list Z -> bool;
  dsr_fwrite : nat -> Z -> Z;
  dsr_date : list Z;
}.

Section Dsr.
Variable big : bool.
Variable E : dsr_env.

(** [struct header] with [sum] in its field.  [hdr.sign[3]] is [hdrsize]. *)
Definition img_name (a : dsr_args) : list Z :=
  hw_name a ++ str "_" ++ hw_vername a ++ str "_FW" ++ fw_release a ++ str "_" ++ country a.
Definition dsr_header (a : dsr_args) (insize sum : Z) : outcome (list (list Z)) :=
  f ← check_field 0x0c (fw_release a);
  n ← check_field 0x20 (hw_name a);
  v ← check_field 0x0c (hw_version a);
  Ok [ host_bytes big 4 0x00000000; host_bytes big 4 0x7a1d0100; host_bytes big 4 0xabe6e6c3;
       be_bytes 4 0x94; be_bytes 4 (insize + sizeof_dsr_header); be_bytes 4 sum; be_bytes 4 1;
       f; v; n; strncpy_field 0x20 (dsr_date E);
       ztake 0x8b (img_name a) ++ zrep (0x8c - zlen (ztake 0x8b (img_name a))) 0; zrep 0x100 0 ].

(** The copy of the input behind the header: failed writes are reported and
    the run goes on. *)
Fixpoint copy_out (c : nat) (blocks : list (list Z)) (out : list Z) : list Z :=
  match blocks with
  | [] => out
  | b :: r => copy_out (S c) r (out ++ ztake (dsr_fwrite E c (zlen b)) b)
  end.

(** The sum over the header and the blocks of the input. *)
Definition image_sum (hdr : list Z) (blocks : list (list Z)) : Z :=
  fold_left (fun sum b => s32 (sum + mksum b)) blocks (mksum hdr).

(** [main]: the name and the content of the output. *)
Definition dsr_main (argv : list (list Z)) : outcome (list Z * list Z) :=
  a ← parse_args argv;
  h0 ← dsr_header a 0 0;
  let out := default (ztake 0x8b (img_name a)) (outimage a) in
  match dsr_read E (inimage a) with
  | None => Exit 2
  | Some data =>
      h1 ← dsr_header a (zlen data) 0;
      h ← dsr_header a (zlen data) (image_sum (concat h1) (freads 512 data));
      if negb (dsr_creat E out) then Exit 2 else
      Ok (out, copy_out 1 (freads 512 data) (ztake (dsr_fwrite E 0 512) (concat h)))
  end.
End Dsr.

(** ** The sum *)

Lemma s32_s32_add x y : s32 (s32 x + y) = s32 (x + y).
Proof.
  unfold s32. f_equal. replace ((x + 2 ^ 31) mod 2 ^ 32 - 2 ^ 31 + y + 2 ^ 31) with ((x + 2 ^ 31) mod 2 ^ 32 + y) by lia.
  rewrite Zplus_mod_idemp_l. f_equal. lia.
Qed.
(** The sum of the bytes, as an integer. *)
Definition byte_sum (l : list Z) : Z := fold_left Z.add l 0.
Lemma fold_add_shift l a : fold_left Z.add l a = a + byte_sum l.
Proof.
  unfold byte_sum. revert a. induction l as [|b l IH]; intros a; cbn [fold_left]; [lia|].
  rewrite IH, (IH (0 + b)). lia.
Qed.
Lemma byte_sum_app l1 l2 : byte_sum (l1 ++ l2) = byte_sum l1 + byte_sum l2.
Proof. unfold byte_sum at 1. rewrite fold_left_app, fold_add_shift. done. Qed.
Lemma mksum_spec l : mksum l = s32 (byte_sum l).
Proof.
  unfold mksum. assert (forall a, fold_left (fun sum b => s32 (sum + b)) l (s32 a) = s32 (fold_left Z.add l a)) as H.
  { induction l as [|b l IH]; intros a; cbn [fold_left]; [done|]. rewrite s32_s32_add. apply IH. }
  apply (H 0).
Qed.
Lemma image_sum_spec hdr blocks : image_sum hdr blocks = s32 (byte_sum hdr + byte_sum (concat blocks)).
Proof.
  unfold image_sum. rewrite mksum_spec. revert hdr.
  assert (forall a, fold_left (fun sum b => s32 (sum + mksum b)) blocks (s32 a) = s32 (a + byte_sum (concat blocks))) as H.
  { induction blocks as [|b r IH]; intros a; cbn [fold_left concat]; [by rewrite Z.add_0_r|].
    rewrite mksum_spec, s32_s32_add. rewrite (Z.add_comm a), s32_s32_add, IH, byte_sum_app. f_equal. lia. }
  intros hdr. apply H.
Qed.

Lemma copy_out_full E c blocks out :
  (forall c n, dsr_fwrite E c n = n) -> copy_out E c blocks out = out ++ concat blocks.
Proof.
  intros Hw. revert c out. induction blocks as [|b r IH]; intros c out; cbn [copy_out concat]; [by rewrite app_nil_r|].
  rewrite IH, Hw, ztake_all, <- app_assoc by lia. done.
Qed.

Lemma check_field_len n s f : check_field n s = Ok f -> 0 <= n -> zlen f = n.
Proof. intros H Hn. revert H. unfold check_field. destruct (_ <? _); [done|]. intros [= <-]. by apply zlen_strncpy_field. Qed.

(** The header's fields. *)
Lemma dsr_header_fields big E a insize sum h :
  dsr_header big E a insize sum = Ok h ->
  zlen (concat h) = 512 /\ slice size_at 4 (concat h) = be_bytes 4 (insize + 512) /\
  slice sum_at 4 (concat h) = be_bytes 4 sum /\
  (forall sum', dsr_header big E a insize sum' = Ok (<[5%nat := be_bytes 4 sum']> h)) /\
  byte_sum (concat h) = byte_sum (concat (<[5%nat := be_bytes 4 0]> h)) + byte_sum (be_bytes 4 sum).
Proof.
  unfold dsr_header. intros H. apply bind_Ok in H as (f & Hf & H). apply bind_Ok in H as (n & Hn & H).
  apply bind_Ok in H as (v & Hv & H). injection H as <-.
  pose proof (check_field_len _ _ _ Hf ltac:(lia)). pose proof (check_field_len _ _ _ Hn ltac:(lia)).
  pose proof (check_field_len _ _ _ Hv ltac:(lia)).
  assert (zlen (ztake 0x8b (img_name a) ++ zrep (0x8c - zlen (ztake 0x8b (img_name a))) 0) = 0x8c) as Hi.
  { rewrite zlen_app, zlen_rep, zlen_take. pose proof (zlen_nonneg (img_name a)). lia. }
  assert (zlen (strncpy_field 0x20 (dsr_date E)) = 0x20) as Hd by (by apply zlen_strncpy_field).
  set (nm := ztake 0x8b (img_name a) ++ _) in *. clearbody nm.
  split_and!.
  - cbn [concat]. rewrite !zlen_app, !zlen_host_bytes, !zlen_be_bytes, Hi, Hd, zlen_rep. change (zlen []) with 0. lia.
  - apply (slice_concat 4); [done| |by rewrite zlen_be_bytes].
    cbn [take concat]. rewrite !zlen_app, !zlen_host_bytes, zlen_be_bytes. reflexivity.
  - apply (slice_concat 5); [done| |by rewrite zlen_be_bytes].
    cbn [take concat]. rewrite !zlen_app, !zlen_host_bytes, !zlen_be_bytes. reflexivity.
  - intros sum'. rewrite Hf, Hn, Hv. done.
  - cbn [concat insert list_insert]. rewrite !byte_sum_app. change (byte_sum (be_bytes 4 0)) with 0. lia.
Qed.

(** ** Properties *)

(** when every write succeeds, the output is the header and the input; its
    size field is the length of the whole file, and its sum field the sum of
    all bytes of the file, taken with the sum field zero, modulo 2^32. *)
Theorem dsr_image_checked big E argv a data name out :
  (forall c n, dsr_fwrite E c n = n) ->
  parse_args argv = Ok a -> dsr_read E (inimage a) = Some data -> zlen data + 512 < 2 ^ 32 ->
  dsr_main big E argv = Ok (name, out) ->
  zlen out = 512 + zlen data /\ zdrop 512 out = data /\
  be_val (slice size_at 4 out) = zlen out /\
  be_val (slice sum_at 4 out) = u32 (byte_sum (splice sum_at (zrep 4 0) out)).
Proof.
  intros Hw Ha Hd Hlen H. unfold dsr_main in H. rewrite Ha in H. bsimpl in H.
  apply bind_Ok in H as (h0 & _ & H). rewrite Hd in H.
  apply bind_Ok in H as (h1 & H1 & H). apply bind_Ok in H as (h & Hh & H).
  destruct (dsr_creat E _); [|done]. cbn [negb] in H. injection H as _ <-.
  destruct (dsr_header_fields _ _ _ _ _ _ H1) as (Hl1 & _ & _ & Hset & _).
  destruct (dsr_header_fields _ _ _ _ _ _ Hh) as (Hl & Hsz & Hsm & _ & _).
  rewrite copy_out_full, Hw, ztake_all, freads_concat by (done || lia).
  pose proof (zlen_nonneg data). rewrite zlen_app, Hl. split; [done|]. unfold size_at, sum_at in *.
  assert (forall o, 0 <= o -> o + 4 <= 512 -> slice o 4 (concat h ++ data) = slice o 4 (concat h)) as Hin.
  { intros o H0 H4. rewrite <- (slice_ztake o 4 512) by lia. f_equal. unfold ztake, zlen in *.
    apply take_app_length'. lia. }
  split.
  { unfold zdrop, zlen in *. apply drop_app_length'. lia. }
  rewrite !Hin, Hsz, Hsm, !be_val_bytes by lia. split; [rewrite Z.mod_small; lia|].
  rewrite image_sum_spec, freads_concat by done.
  assert (concat h1 ++ data = splice 20 (zrep 4 0) (concat h ++ data)) as He.
  { rewrite Hset in Hh. injection Hh as <-. clear -Hl1 Hl H1.
    unfold dsr_header in H1. apply bind_Ok in H1 as (f & _ & H1). apply bind_Ok in H1 as (n & _ & H1).
    apply bind_Ok in H1 as (v & _ & H1). injection H1 as <-. cbn [insert list_insert concat]. rewrite <- !app_assoc.
    destruct big; done. }
  rewrite <- He, byte_sum_app. unfold s32, u32. change (256 ^ Z.of_nat 4) with (2 ^ 32).
  rewrite Zminus_mod_idemp_l. f_equal. lia.
Qed.

(** The arguments of a DSR-1000N image without a country. *)
Definition dsr_demo_argv : list (list Z) :=
  [str "make_dlink_dsr_image"; str "kr"; str "DSR-1000N"; str "9.0Z03"; str "0.1"; str "A1"].
Definition dsr_demo_env : dsr_env := {|
  dsr_read := fun p => if streq p (str "kr") then Some [1; 2; 3; 255] else None;
  dsr_creat := fun _ => true; dsr_fwrite := fun _ n => n; dsr_date := str "Mon Jul 26 22:49:27 2010" ++ [LF] |}.

Lemma dsr_image_checked_witness :
  exists name out, dsr_main false dsr_demo_env dsr_demo_argv = Ok (name, out) /\
  zlen out = 512 + zlen [1; 2; 3; 255] /\ zdrop 512 out = [1; 2; 3; 255] /\
  be_val (slice size_at 4 out) = zlen out /\
  be_val (slice sum_at 4 out) = u32 (byte_sum (splice sum_at (zrep 4 0) out)).
Proof.
  eexists _, _. split; [vm_compute; reflexivity|].
  eapply (dsr_image_checked false dsr_demo_env dsr_demo_argv).
  - reflexivity.
  - vm_compute. reflexivity.
  - reflexivity.
  - vm_compute. reflexivity.
  - vm_compute. reflexivity.
Defined.

(** the check on the number of arguments is too weak: with exactly the four
    that it asks for (and no -o), the code goes on to read [argv] past the NULL
    that ends it. *)
Theorem dsr_argv_overrun big E prog inimg name rel ver :
  inimg <> str "-o" -> dsr_main big E [prog; inimg; name; rel; ver] = UB.
Proof.
  intros Hne. unfold dsr_main, parse_args. cbn [length Nat.ltb Nat.leb]. unfold argv_at.
  cbn [lookup list_lookup length Nat.eqb Nat.add]. bsimpl. cbn [deref]. bsimpl.
  rewrite (proj2 (streq_false inimg (str "-o"))) by done. reflexivity.
Qed.
Lemma dsr_argv_overrun_witness :
  dsr_main false dsr_demo_env [str "m"; str "kr"; str "DSR-1000N"; str "9.0Z03"; str "0.1"] = UB.
Proof. apply dsr_argv_overrun. discriminate. Defined.

(** The signature is documented big-endian and written in the order of the
    host: it is right on a little-endian host only. *)
Example dsr_signature_host : concat [host_bytes false 4 0x7a1d0100; host_bytes false 4 0xabe6e6c3]
  = be_bytes 4 0x00011d7a ++ be_bytes 4 0xc3e6e6ab /\
  concat [host_bytes true 4 0x7a1d0100; host_bytes true 4 0xabe6e6c3] <> be_bytes 4 0x00011d7a ++ be_bytes 4 0xc3e6e6ab.
Proof. vm_compute. split; [reflexivity|discriminate]. Qed.
