(* ===== verification/UbntImage.v ===== *)
(** * contrib/ubnt-mkfwimage: mkfwimage.c and fw.h

    Builds an image for Ubiquiti boards: a header, the kernel and root file
    system partitions, each with its CRC, and a signature.  [crc32] is zlib's,
    a parameter. *)

From S2P Require Import Prelude CLib.

Definition MAGIC_HEADER : list Z := str "OPEN".
Definition MAGIC_PART : list Z := str "PART".
Definition MAGIC_END : list Z := str "END.".
Definition sizeof_header_t : Z := 268.
Definition sizeof_part_t : Z := 56.
Definition sizeof_part_crc_t : Z := 8.
Definition sizeof_signature_t : Z := 12.
Definition MAX_SECTIONS : Z := 8.
Definition PATH_MAX : Z := 1024.

Record part_data := mkPart {
  partition_name : list Z;
  partition_index : Z;
  partition_baseaddr : Z;
  partition_memaddr : Z;
  partition_entryaddr : Z;
  partition_length : Z;
  p_filename : list Z;
  p_data : list Z;   (** the file, once [stat] found it; its length is [st_size] *)
}.

(** The options; [kern_entry] is not initialised.  [ub_version] is the field of
    256 bytes up to its first NUL, all of it when there is none. *)
Record ub_opts := mkUbOpts {
  ub_version : list Z;
  ub_outputfile : list Z;
  kernelfile : list Z;
  rootfsfile : list Z;
  kern_start : Z;
  kern_load : Z;
  kern_entry : Z;
  firmware_max_length : Z;
}.
Inductive ub_opt :=
| Ub_v (s : list Z) | Ub_o (s : list Z) | Ub_h | Ub_k (s : list Z) | Ub_r (s : list Z) | Ub_s (s : list Z)
| Ub_e (s : list Z) | Ub_l (s : list Z) | Ub_m (s : list Z) | Ub_other.

(** Files that can be read, and of those which map; whether memory and the
    output are to be had; what [kern_entry] holds before any assignment. *)
Record ub_env := mkUbEnv {
  ub_file : list Z -> option (list Z);
  ub_mmap : list Z -> bool;
  ub_calloc : bool;
  ub_fopen : bool;
  ub_fwrite : bool;
  ub_stale : Z;
}.
Definition ub_opts0 (E : ub_env) : ub_opts :=
  mkUbOpts (str "UNKNOWN") (str "firmware-image.bin") [] [] 0 0 (ub_stale E) 0.

(** [strncpy] into a path buffer leaves no string when the name fills it. *)
Definition path (s : list Z) : outcome (list Z) := if zlen s <? PATH_MAX then Ok s else UB.
Definition num (s : list Z) : Z := u32 (strtoul s 0).1.1.

Definition ub_do_opt (s : ub_opts) (o : ub_opt) : outcome ub_opts :=
  let '(mkUbOpts v f k r st l e m) := s in
  match o with
  | Ub_v a => Ok (mkUbOpts (ztake 256 a) f k r st l e m)
  | Ub_o a => f' ← path a; Ok (mkUbOpts v f' k r st l e m)
  | Ub_h => Exit 255
  | Ub_k a => k' ← path a; Ok (mkUbOpts v f k' r st l e m)
  | Ub_r a => r' ← path a; Ok (mkUbOpts v f k r' st l e m)
  | Ub_s a => Ok (mkUbOpts v f k r (num a) l e m)
  | Ub_e a => Ok (mkUbOpts v f k r st l (num a) m)
  | Ub_l a => Ok (mkUbOpts v f k r st (num a) e m)
  | Ub_m a => Ok (mkUbOpts v f k r st l e (num a))
  | Ub_other => Ok s
  end.
Fixpoint ub_do_opts (s : ub_opts) (l : list ub_opt) : outcome ub_opts :=
  match l with
  | [] => Ok s
  | o :: r => s' ← ub_do_opt s o; ub_do_opts s' r
  end.

Section Ubnt.
Variable crc32 : list Z -> Z.
Variable E : ub_env.

(** [filelength] returns -1 as an unsigned word for a missing file. *)
Definition filelength (file : list Z) : Z :=
  match ub_file E file with Some d => u32 (s32 (zlen d)) | None => u32 (-1) end.

(** [create_image_layout]: the two partitions, or its error code.  The test
    for a negative length is on an unsigned value and never holds. *)
Definition create_image_layout (s : ub_opts) : Z + list part_data :=
  let klen := filelength (kernelfile s) in
  if firmware_max_length s <? u32 (filelength (rootfsfile s) + klen) then inl (-2) else
  inr [ mkPart (str "kernel") 1 (kern_start s) (kern_load s) (kern_entry s) klen (kernelfile s) [];
        mkPart (str "rootfs") 2 (u32 (kern_start s + klen)) 0 0 (u32 (firmware_max_length s - klen))
          (rootfsfile s) [] ].

(** [validate_image_layout] on one partition, then on all. *)
Definition validate_part (d : part_data) : Z + part_data :=
  let len := zlen (partition_name d) in
  if (len =? 0) || (16 <? len) then inl (-1) else
  match ub_file E (p_filename d) with
  | None => inl (-2)
  | Some data =>
      if zlen data =? 0 then inl (-3) else
      if partition_length d <? zlen data then inl (-4) else
      inr (mkPart (partition_name d) (partition_index d) (partition_baseaddr d) (partition_memaddr d)
             (partition_entryaddr d) (partition_length d) (p_filename d) data)
  end.
Fixpoint validate_parts (l : list part_data) : Z + list part_data :=
  match l with
  | [] => inr []
  | d :: r =>
      match validate_part d with
      | inl e => inl e
      | inr d' => match validate_parts r with inl e => inl e | inr r' => inr (d' :: r') end
      end
  end.
Definition validate_image_layout (l : list part_data) : Z + list part_data :=
  if (zlen l =? 0) || (MAX_SECTIONS <? zlen l) then inl (-1) else validate_parts l.

(** The three writers, on memory [calloc] cleared. *)
Definition header_bytes (version : list Z) : list Z :=
  let h := MAGIC_HEADER ++ strncpy_field 256 version in h ++ be_bytes 4 (crc32 h) ++ zrep 4 0.
Definition write_header (mem version : list Z) : outcome (list Z) := bwrite 0 (header_bytes version) mem.

Definition part_bytes (d : part_data) : list Z :=
  let p := MAGIC_PART ++ strncpy_field 16 (partition_name d) ++ zrep 12 0 ++
           be_bytes 4 (partition_memaddr d) ++ be_bytes 4 (partition_index d) ++
           be_bytes 4 (partition_baseaddr d) ++ be_bytes 4 (partition_entryaddr d) ++
           be_bytes 4 (zlen (p_data d)) ++ be_bytes 4 (partition_length d) in
  p ++ p_data d ++ be_bytes 4 (crc32 (p ++ p_data d)) ++ zrep 4 0.
Definition part_size (d : part_data) : Z := sizeof_part_t + zlen (p_data d) + sizeof_part_crc_t.
(** A file that does not map leaves its partition empty. *)
Definition write_part (mem : list Z) (ptr : Z) (d : part_data) : outcome (list Z) :=
  if ub_mmap E (p_filename d) then bwrite ptr (part_bytes d) mem else Ok mem.
Fixpoint write_parts (mem : list Z) (ptr : Z) (l : list part_data) : outcome (list Z) :=
  match l with
  | [] => Ok mem
  | d :: r => mem ← write_part mem ptr d; write_parts mem (ptr + part_size d) r
  end.

Definition write_signature (mem : list Z) (sig_offset : Z) : outcome (list Z) :=
  data ← bread 0 sig_offset mem;
  bwrite sig_offset (MAGIC_END ++ be_bytes 4 (crc32 data) ++ zrep 4 0) mem.

(** [build_image]: the output, or its error code as the exit status of the
    program. *)
Definition mem_size (l : list part_data) : Z :=
  fold_left (fun m d => u32 (m + part_size d)) l (sizeof_header_t + sizeof_signature_t).
Definition build_image (version : list Z) (l : list part_data) : outcome (list Z) :=
  if negb (ub_calloc E) then Exit 251 else
  mem ← write_header (zrep (mem_size l) 0) version;
  mem ← write_parts mem sizeof_header_t l;
  mem ← write_signature mem (u32 (mem_size l - sizeof_signature_t));
  if ub_fopen E && ub_fwrite E then Ok mem else Exit 251.

Definition mkfwimage_main (options : list ub_opt) : outcome (list Z) :=
  s ← ub_do_opts (ub_opts0 E) options;
  if (kern_start s =? 0) || (kern_load s =? 0) || (firmware_max_length s =? 0) then Exit 254 else
  let s := mkUbOpts (ub_version s) (ub_outputfile s) (kernelfile s) (rootfsfile s) (kern_start s) (kern_load s)
             (if kern_entry s =? 0 then kern_load s else kern_entry s) (firmware_max_length s) in
  if streq (rootfsfile s) [] then Exit 254 else
  match create_image_layout s with
  | inl _ => Exit 253
  | inr l =>
      match validate_image_layout l with
      | inl _ => Exit 252
      | inr l =>
          (* [print_image_info] prints the version as a string *)
          if zlen (ub_version s) <? 256 then build_image (ub_version s) l else UB
      end
  end.
End Ubnt.

(** ** The memory image *)

Lemma zlen_header_bytes crc v : zlen (header_bytes crc v) = sizeof_header_t.
Proof.
  unfold header_bytes. rewrite !zlen_app, !zlen_be_bytes, zlen_rep, zlen_strncpy_field by lia. reflexivity.
Qed.
Lemma zlen_part_bytes crc d : zlen (part_bytes crc d) = part_size d.
Proof.
  unfold part_bytes, part_size. rewrite !zlen_app, !zlen_be_bytes, !zlen_rep, zlen_strncpy_field by lia.
  change (zlen MAGIC_PART) with 4. unfold sizeof_part_t, sizeof_part_crc_t. lia.
Qed.

Definition parts_size (l : list part_data) : Z := fold_right (fun d m => part_size d + m) 0 l.
Lemma part_size_pos d : 64 <= part_size d.
Proof. unfold part_size, sizeof_part_t, sizeof_part_crc_t. pose proof (zlen_nonneg (p_data d)). lia. Qed.
Lemma parts_size_nonneg l : 0 <= parts_size l.
Proof.
  induction l as [|d l IH]; [done|]. change (parts_size (d :: l)) with (part_size d + parts_size l).
  pose proof (part_size_pos d). lia.
Qed.
Lemma mem_size_spec l : 280 + parts_size l < 2 ^ 32 -> mem_size l = 280 + parts_size l.
Proof.
  intros Hlt. unfold mem_size. change (sizeof_header_t + sizeof_signature_t) with 280.
  assert (forall m, 0 <= m -> m + parts_size l < 2 ^ 32 ->
          fold_left (fun m d => u32 (m + part_size d)) l m = m + parts_size l) as H; [clear Hlt|apply H; lia].
  induction l as [|d l IH]; intros m Hm Hs; [cbn; lia|].
  change (parts_size (d :: l)) with (part_size d + parts_size l) in *. cbn [fold_left]. pose proof (part_size_pos d). pose proof (parts_size_nonneg l).
  rewrite u32_small, IH by lia. lia.
Qed.

(** Filling cleared memory from the front. *)
Lemma fill_next p d n :
  0 <= n -> zlen d <= n -> splice (zlen p) d (p ++ zrep n 0) = (p ++ d) ++ zrep (n - zlen d) 0.
Proof.
  intros Hn Hd. unfold splice. rewrite <- app_assoc. unfold ztake, zdrop, zlen, zrep in *.
  rewrite take_app_length' by lia. do 2 f_equal. rewrite drop_app_ge by lia. rewrite drop_replicate. f_equal. lia.
Qed.

Lemma write_parts_spec crc E l p n :
  (forall d, d ∈ l -> ub_mmap E (p_filename d) = true) -> parts_size l <= n ->
  write_parts crc E (p ++ zrep n 0) (zlen p) l
  = Ok (p ++ concat (map (part_bytes crc) l) ++ zrep (n - parts_size l) 0).
Proof.
  revert p n. induction l as [|d l IH]; intros p n Hm Hn.
  - cbn [write_parts map concat parts_size fold_right app]. by rewrite Z.sub_0_r.
  - change (parts_size (d :: l)) with (part_size d + parts_size l) in *. cbn [write_parts map concat]. pose proof (part_size_pos d). pose proof (parts_size_nonneg l).
    unfold write_part. rewrite Hm by apply list_elem_of_here.
    rewrite bwrite_in; [|apply zlen_nonneg|rewrite zlen_app, zlen_rep, zlen_part_bytes; lia]. bsimpl.
    rewrite fill_next by (rewrite ?zlen_part_bytes; lia). rewrite zlen_part_bytes.
    replace (zlen p + part_size d) with (zlen (p ++ part_bytes crc d)) by (rewrite zlen_app, zlen_part_bytes; lia).
    rewrite IH; [|intros d' Hd'; apply Hm; by apply list_elem_of_further|lia].
    rewrite <- !app_assoc. do 4 f_equal. by rewrite Z.sub_add_distr.
Qed.

(** What [build_image] writes. *)
Definition body (crc : list Z -> Z) (version : list Z) (l : list part_data) : list Z :=
  header_bytes crc version ++ concat (map (part_bytes crc) l).
Lemma build_image_spec crc E version l :
  (forall d, d ∈ l -> ub_mmap E (p_filename d) = true) -> 280 + parts_size l < 2 ^ 32 ->
  ub_calloc E = true -> ub_fopen E = true -> ub_fwrite E = true ->
  build_image crc E version l
  = Ok (body crc version l ++ MAGIC_END ++ be_bytes 4 (crc (body crc version l)) ++ zrep 4 0).
Proof.
  intros Hm Hs Hc Ho Hw. unfold build_image. rewrite Hc. cbn [negb]. rewrite mem_size_spec by done.
  pose proof (parts_size_nonneg l). unfold write_header.
  pose proof (zlen_header_bytes crc version) as Hh. unfold sizeof_header_t in Hh.
  rewrite bwrite_in by (rewrite ?zlen_rep, ?Hh; lia). bsimpl.
  pose proof (fill_next [] (header_bytes crc version) (280 + parts_size l)) as Hf. cbn [app] in Hf.
  change (zlen []) with 0 in Hf. rewrite Hf by lia. rewrite Hh.
  pose proof (write_parts_spec crc E l (header_bytes crc version) (280 + parts_size l - 268) Hm ltac:(lia)) as Hp.
  rewrite Hh in Hp. change sizeof_header_t with 268. rewrite Hp. bsimpl.
  replace (280 + parts_size l - 268 - parts_size l) with 12 by lia. rewrite app_assoc. fold (body crc version l).
  assert (zlen (body crc version l) = 268 + parts_size l) as Hb.
  { unfold body. rewrite zlen_app, Hh. f_equal. clear. induction l as [|d l IH]; [done|]. cbn [map concat].
    rewrite zlen_app, zlen_part_bytes, IH. done. }
  unfold sizeof_signature_t. rewrite u32_small by lia. replace (280 + parts_size l - 12) with (zlen (body crc version l)) by lia.
  unfold write_signature. rewrite bread_in by (rewrite ?zlen_app, ?zlen_rep; lia). bsimpl.
  assert (slice 0 (zlen (body crc version l)) (body crc version l ++ zrep 12 0) = body crc version l) as ->.
  { unfold slice, ztake, zdrop, zlen. rewrite Nat2Z.id. apply take_app_length. }
  set (sg := MAGIC_END ++ _). assert (zlen sg = 12) as Hsg by (unfold sg; rewrite !zlen_app, zlen_be_bytes, zlen_rep; reflexivity).
  rewrite bwrite_in by (rewrite ?zlen_app, ?zlen_rep; lia). bsimpl. rewrite fill_next by lia.
  rewrite Ho, Hw, Hsg. cbn [andb]. change (12 - 12) with 0. cbn [zrep Z.to_nat replicate]. by rewrite app_nil_r.
Qed.

(** ** Properties *)

Lemma filelength_small E f d : ub_file E f = Some d -> zlen d < 2 ^ 31 -> filelength E f = zlen d.
Proof.
  intros Hf Hd. unfold filelength. rewrite Hf. pose proof (zlen_nonneg d). rewrite s32_small by lia. apply u32_small. lia.
Qed.

(** What an image holds at [o]: a partition's header, its data and the CRC of
    both.  Numbers are in network order. *)
Record ub_part_at (crc32 : list Z -> Z) (img : list Z) (o : Z) (name : list Z)
    (memaddr index baseaddr entryaddr part_size : Z) (data : list Z) : Prop := {
  pa_magic : slice o 4 img = str "PART";
  pa_name : slice (o + 4) 16 img = name ++ zrep (16 - zlen name) 0;
  pa_pad : slice (o + 20) 12 img = zrep 12 0;
  pa_memaddr : slice (o + 32) 4 img = be_bytes 4 memaddr;
  pa_index : slice (o + 36) 4 img = be_bytes 4 index;
  pa_baseaddr : slice (o + 40) 4 img = be_bytes 4 baseaddr;
  pa_entryaddr : slice (o + 44) 4 img = be_bytes 4 entryaddr;
  pa_data_size : slice (o + 48) 4 img = be_bytes 4 (zlen data);
  pa_part_size : slice (o + 52) 4 img = be_bytes 4 part_size;
  pa_data : slice (o + 56) (zlen data) img = data;
  pa_crc : slice (o + 56 + zlen data) 4 img = be_bytes 4 (crc32 (slice o (56 + zlen data) img));
  pa_end : slice (o + 56 + zlen data + 4) 4 img = zrep 4 0;
}.
Record ub_header_at (crc32 : list Z -> Z) (img version : list Z) : Prop := {
  ha_magic : slice 0 4 img = str "OPEN";
  ha_version : slice 4 256 img = version ++ zrep (256 - zlen version) 0;
  ha_crc : slice 260 4 img = be_bytes 4 (crc32 (slice 0 260 img));
  ha_end : slice 264 4 img = zrep 4 0;
}.
Record ub_signature_at (crc32 : list Z -> Z) (img : list Z) (o : Z) : Prop := {
  sa_magic : slice o 4 img = str "END.";
  sa_crc : slice (o + 4) 4 img = be_bytes 4 (crc32 (slice 0 o img));
  sa_pad : slice (o + 8) 4 img = zrep 4 0;
  sa_end : zlen img = o + 12;
}.

Lemma slice_field {A} (pre : list A) fields post i d l o n :
  l = pre ++ concat fields ++ post -> fields !! i = Some d -> o = zlen pre + zlen (concat (take i fields)) -> n = zlen d ->
  slice o n l = d.
Proof.
  intros -> Hi -> ->. apply (slice_at (pre ++ concat (take i fields)) d (concat (drop (S i) fields) ++ post)); [|by rewrite zlen_app|done].
  rewrite <- (take_drop_middle _ _ _ Hi) at 1. rewrite concat_app. cbn [concat]. by rewrite <- !app_assoc.
Qed.
Lemma strncpy_field_short n s : zlen s <= n -> strncpy_field n s = s ++ zrep (n - zlen s) 0.
Proof. intros. unfold strncpy_field. by rewrite ztake_all. Qed.

Lemma part_bytes_at crc pre d post img : zlen (partition_name d) <= 16 -> img = pre ++ part_bytes crc d ++ post ->
  ub_part_at crc img (zlen pre) (partition_name d) (partition_memaddr d) (partition_index d) (partition_baseaddr d)
    (partition_entryaddr d) (partition_length d) (p_data d).
Proof.
  intros Hn Himg. set (name := partition_name d ++ zrep (16 - zlen (partition_name d)) 0).
  set (hd := [str "PART"; name; zrep 12 0; be_bytes 4 (partition_memaddr d); be_bytes 4 (partition_index d);
    be_bytes 4 (partition_baseaddr d); be_bytes 4 (partition_entryaddr d); be_bytes 4 (zlen (p_data d)); be_bytes 4 (partition_length d); p_data d]).
  set (fields := hd ++ [be_bytes 4 (crc (concat hd)); zrep 4 0]).
  assert (Hname : zlen name = 16) by (unfold name; pose proof (zlen_nonneg (partition_name d)); zlen).
  assert (Hf : img = pre ++ concat fields ++ post).
  { rewrite Himg. f_equal. f_equal. unfold part_bytes, fields, hd. rewrite strncpy_field_short by done. fold name. cbn [app concat].
    rewrite !app_nil_r. unfold MAGIC_PART. rewrite <- !app_assoc. done. }
  assert (Hhd : zlen (concat hd) = 56 + zlen (p_data d))
    by (rewrite zlen_concat; cbn [hd map total foldr]; rewrite Hname, !zlen_be_bytes, zlen_rep; change (zlen (str "PART")) with 4; lia).
  assert (Hcov : slice (zlen pre) (56 + zlen (p_data d)) img = concat hd).
  { apply (slice_at pre (concat hd) (concat [be_bytes 4 (crc (concat hd)); zrep 4 0] ++ post)); [|done..].
    rewrite Hf. unfold fields. rewrite concat_app, <- !app_assoc. done. }
  assert (Hzs : zlen (str "PART") = 4) by done. assert (Hz12 : zlen (zrep 12 0) = 12) by done. assert (Hz4 : zlen (zrep 4 0) = 4) by done.
  assert (Hall : forall (i : nat) x o n, fields !! i = Some x -> o = zlen pre + total (map zlen (take i fields)) -> n = zlen x -> slice o n img = x).
  { intros i x o n Hi Ho Hx. apply (slice_field pre fields post i x img); [done|done| |done]. by rewrite zlen_concat. }
  split; [apply (Hall 0%nat)|apply (Hall 1%nat)|apply (Hall 2%nat)|apply (Hall 3%nat)|apply (Hall 4%nat)|apply (Hall 5%nat)|apply (Hall 6%nat)
    |apply (Hall 7%nat)|apply (Hall 8%nat)|apply (Hall 9%nat)|rewrite Hcov; apply (Hall 10%nat)|apply (Hall 11%nat)];
    try reflexivity; fold name; unfold fields, hd; cbn [app take map total foldr]; rewrite ?Hname, ?zlen_be_bytes, ?Hzs, ?Hz12, ?Hz4; lia.
Qed.
Lemma header_bytes_at crc version post img : zlen version <= 256 -> img = header_bytes crc version ++ post -> ub_header_at crc img version.
Proof.
  intros Hv Himg. set (v := version ++ zrep (256 - zlen version) 0). set (h := str "OPEN" ++ v).
  assert (Hvl : zlen v = 256) by (unfold v; pose proof (zlen_nonneg version); zlen).
  set (fields := [str "OPEN"; v; be_bytes 4 (crc h); zrep 4 0]).
  assert (Hf : img = [] ++ concat fields ++ post).
  { rewrite Himg. unfold header_bytes, fields, h. rewrite strncpy_field_short by done. fold v. cbn [app concat]. unfold MAGIC_HEADER.
    rewrite app_nil_r, <- !app_assoc. done. }
  assert (Hcov : slice 0 260 img = h).
  { apply (slice_at [] h (be_bytes 4 (crc h) ++ zrep 4 0 ++ post)); [|done|unfold h; rewrite zlen_app, Hvl; done].
    rewrite Hf. unfold fields, h. cbn [app concat]. by rewrite app_nil_r, <- !app_assoc. }
  assert (Hall : forall (i : nat) x o n, fields !! i = Some x -> o = total (map zlen (take i fields)) -> n = zlen x -> slice o n img = x).
  { intros i x o n Hi Ho Hx. apply (slice_field [] fields post i x img); [done|done| |done]. by rewrite zlen_concat. }
  split; [apply (Hall 0%nat)|apply (Hall 1%nat)|rewrite Hcov; apply (Hall 2%nat)|apply (Hall 3%nat)];
    try reflexivity; fold v; unfold fields; cbn [take map total foldr]; rewrite ?Hvl, ?zlen_be_bytes; reflexivity.
Qed.
Lemma signature_bytes_at crc b img : img = b ++ MAGIC_END ++ be_bytes 4 (crc b) ++ zrep 4 0 -> ub_signature_at crc img (zlen b).
Proof.
  intros Himg. set (fields := [str "END."; be_bytes 4 (crc b); zrep 4 0]).
  assert (Hf : img = b ++ concat fields ++ []) by (rewrite Himg; unfold fields, MAGIC_END; cbn [concat]; by rewrite !app_nil_r).
  assert (Hcov : slice 0 (zlen b) img = b) by (apply (slice_at [] b (concat fields)); [by rewrite Hf, app_nil_r|done|done]).
  assert (Hall : forall (i : nat) x o n, fields !! i = Some x -> o = zlen b + total (map zlen (take i fields)) -> n = zlen x -> slice o n img = x).
  { intros i x o n Hi Ho Hx. apply (slice_field b fields [] i x img); [done|done| |done]. by rewrite zlen_concat. }
  split; [apply (Hall 0%nat)|rewrite Hcov; apply (Hall 1%nat)|apply (Hall 2%nat)|
    rewrite Himg, !zlen_app, zlen_be_bytes; change (zlen MAGIC_END) with 4; change (zlen (zrep 4 0)) with 4; lia];
    try reflexivity; unfold fields; cbn [take map total foldr]; rewrite ?zlen_be_bytes; change (zlen (str "END.")) with 4; lia.
Qed.

(** The values of the options a run goes by. *)
Definition ub_entry (s : ub_opts) : Z := if kern_entry s =? 0 then kern_load s else kern_entry s.

(** C34: a run that succeeds, on two files that can be mapped, writes an image
    whose bytes are: the header with the version and its CRC; at 268 the kernel
    partition, whose load, base and entry addresses are those of the options,
    and whose length is the file's; behind it the root file system partition,
    which starts behind the kernel in flash and takes the rest of the maximal
    size; each with all of its file and the CRC of header and file; and the
    signature, with the CRC of everything in front of it.  The files fit the
    maximal size.  (A file that cannot be mapped leaves zeros instead, see
    [ubnt_unmapped_parts].) *)
Theorem ubnt_image_layout crc32 E options s kdata rdata img :
  ub_do_opts (ub_opts0 E) options = Ok s ->
  ub_file E (kernelfile s) = Some kdata -> zlen kdata < 2 ^ 31 ->
  ub_file E (rootfsfile s) = Some rdata -> zlen rdata < 2 ^ 31 - 2 ^ 10 ->
  ub_mmap E (kernelfile s) = true -> ub_mmap E (rootfsfile s) = true ->
  mkfwimage_main crc32 E options = Ok img ->
  let max := firmware_max_length s in
  let rootfs := 268 + 64 + zlen kdata in
  ub_header_at crc32 img (ub_version s) /\
  ub_part_at crc32 img 268 (str "kernel") (kern_load s) 1 (kern_start s) (ub_entry s) (zlen kdata) kdata /\
  ub_part_at crc32 img rootfs (str "rootfs") 0 2 (u32 (kern_start s + zlen kdata)) 0 (u32 (max - zlen kdata)) rdata /\
  ub_signature_at crc32 img (rootfs + 64 + zlen rdata) /\
  zlen kdata + zlen rdata <= max.
Proof.
  intros Ho Hk Hkl Hr Hrl Hmk Hmr H. unfold mkfwimage_main in H. rewrite Ho in H. bsimpl in H.
  destruct (_ || _); [done|]. cbn [rootfsfile] in H. destruct (streq _ _); [done|].
  pose proof (zlen_nonneg kdata). pose proof (zlen_nonneg rdata).
  unfold create_image_layout in H.
  cbn [kernelfile rootfsfile firmware_max_length kern_start kern_load kern_entry ub_version] in H.
  rewrite (filelength_small E _ _ Hk), (filelength_small E _ _ Hr) in H by lia.
  rewrite u32_small in H by lia. destruct (Z.ltb_spec (firmware_max_length s) (zlen rdata + zlen kdata)) as [|Hfit]; [done|].
  unfold validate_image_layout in H. cbn [zlen length Z.of_nat] in H. cbn [Z.eqb Z.ltb Z.compare orb] in H.
  unfold MAX_SECTIONS in H. destruct (_ || _) in H; [done|].
  cbn [validate_parts] in H. unfold validate_part in H.
  cbn [partition_name p_filename partition_length partition_index partition_baseaddr partition_memaddr
       partition_entryaddr] in H. rewrite Hk, Hr in H.
  repeat match type of H with context [if ?b then inl _ else _] => destruct b; [done|] end.
  destruct (Z.ltb_spec (zlen (ub_version s)) 256) as [Hv|]; [|done].
  assert (ub_calloc E = true /\ ub_fopen E = true /\ ub_fwrite E = true) as (Hc & Hf & Hw).
  { unfold build_image in H. destruct (ub_calloc E); [|done]. cbn [negb] in H. inv_oks H.
    by apply andb_prop in E0 as [-> ->]. }
  fold (ub_entry s) in H. set (k := mkPart (str "kernel") _ _ _ _ _ _ _) in H. set (r := mkPart (str "rootfs") _ _ _ _ _ _ _) in H.
  rewrite build_image_spec in H; [| | |done..].
  2:{ intros d Hd. apply list_elem_of_In in Hd as [<-|[<-|[]]]; done. }
  2:{ unfold parts_size. cbn [fold_right]. unfold part_size, sizeof_part_t, sizeof_part_crc_t. cbn [k r p_data]. lia. }
  apply Ok_inj in H. set (b := body crc32 (ub_version s) [k; r]) in H.
  pose proof (zlen_header_bytes crc32 (ub_version s)) as Zh. pose proof (zlen_part_bytes crc32 k) as Zk. pose proof (zlen_part_bytes crc32 r) as Zr.
  unfold part_size, sizeof_header_t, sizeof_part_t, sizeof_part_crc_t in Zh, Zk, Zr. cbn [k r p_data] in Zk, Zr. fold k r in Zk, Zr.
  assert (Hb : b = header_bytes crc32 (ub_version s) ++ part_bytes crc32 k ++ part_bytes crc32 r) by (unfold b, body; cbn [map concat]; by rewrite app_nil_r).
  set (sg := MAGIC_END ++ _) in H. cbv zeta. split_and!.
  - apply (header_bytes_at crc32 (ub_version s) (part_bytes crc32 k ++ part_bytes crc32 r ++ sg)); [lia|].
    rewrite <- H, Hb. by rewrite <- !app_assoc.
  - pose proof (part_bytes_at crc32 (header_bytes crc32 (ub_version s)) k (part_bytes crc32 r ++ sg) img ltac:(done)
      ltac:(rewrite <- H, Hb; by rewrite <- !app_assoc)) as P. by rewrite Zh in P.
  - pose proof (part_bytes_at crc32 (header_bytes crc32 (ub_version s) ++ part_bytes crc32 k) r sg img ltac:(done)
      ltac:(rewrite <- H, Hb; by rewrite <- !app_assoc)) as P. rewrite zlen_app, Zh, Zk in P.
    replace (268 + 64 + zlen kdata) with (268 + (56 + zlen kdata + 8)) by lia. exact P.
  - pose proof (signature_bytes_at crc32 b img (eq_sym H)) as P. rewrite Hb, !zlen_app, Zh, Zk, Zr in P.
    replace (268 + 64 + zlen kdata + 64 + zlen rdata) with (268 + (56 + zlen kdata + 8 + (56 + zlen rdata + 8))) by lia. exact P.
  - lia.
Qed.

(** a partition whose file cannot be opened or mapped does not stop the
    build: the image is written, with exit status 0, with zeros in its place
    and a signature over them. *)
Theorem ubnt_unmapped_parts crc32 E version l :
  (forall f, ub_mmap E f = false) -> 280 + parts_size l < 2 ^ 32 ->
  ub_calloc E = true -> ub_fopen E = true -> ub_fwrite E = true ->
  exists sig, build_image crc32 E version l = Ok (header_bytes crc32 version ++ zrep (parts_size l) 0 ++ sig) /\
              ztake 4 sig = MAGIC_END.
Proof.
  intros Hm Hs Hc Ho Hw. unfold build_image. rewrite Hc. cbn [negb]. rewrite mem_size_spec by done.
  pose proof (parts_size_nonneg l). unfold write_header.
  pose proof (zlen_header_bytes crc32 version) as Hh. unfold sizeof_header_t in Hh.
  rewrite bwrite_in by (rewrite ?zlen_rep, ?Hh; lia). bsimpl.
  pose proof (fill_next [] (header_bytes crc32 version) (280 + parts_size l)) as Hf. cbn [app] in Hf.
  change (zlen []) with 0 in Hf. rewrite Hf by lia. rewrite Hh.
  assert (forall mem ptr, write_parts crc32 E mem ptr l = Ok mem) as Hp.
  { clear -Hm. induction l as [|d l IH]; intros mem ptr; cbn [write_parts]; [done|].
    unfold write_part. rewrite Hm. bsimpl. apply IH. }
  rewrite Hp. bsimpl. unfold sizeof_signature_t. rewrite u32_small by lia.
  assert (zrep (280 + parts_size l - 268) 0 = zrep (parts_size l) 0 ++ zrep 12 0) as ->.
  { unfold zrep. rewrite <- replicate_add. f_equal. lia. }
  rewrite app_assoc. set (b := header_bytes crc32 version ++ zrep (parts_size l) 0).
  assert (zlen b = 268 + parts_size l) as Hb by (unfold b; rewrite zlen_app, zlen_rep; lia).
  unfold write_signature. replace (280 + parts_size l - 12) with (zlen b) by lia.
  rewrite bread_in by (rewrite ?zlen_app, ?zlen_rep; lia). bsimpl.
  set (sg := MAGIC_END ++ _). assert (zlen sg = 12) as Hsg by (unfold sg; rewrite !zlen_app, zlen_be_bytes, zlen_rep; reflexivity).
  rewrite bwrite_in by (rewrite ?zlen_app, ?zlen_rep; lia). bsimpl. rewrite fill_next by lia.
  rewrite Ho, Hw, Hsg. cbn [andb]. change (12 - 12) with 0. cbn [zrep Z.to_nat replicate]. rewrite app_nil_r.
  exists sg. unfold b. by rewrite <- app_assoc.
Qed.

(** A run with a stand-in checksum. *)
Definition ub_crc (x : list Z) : Z := u32 (fold_left Z.add x 0).
Definition ub_demo_env (maps : bool) : ub_env := {|
  ub_file := fun p => if streq p (str "k") then Some [1; 2; 3] else if streq p (str "r") then Some [9; 8] else None;
  ub_mmap := fun _ => maps; ub_calloc := true; ub_fopen := true; ub_fwrite := true; ub_stale := 0 |}.
Definition ub_demo_opts : list ub_opt :=
  [Ub_v (str "XS5.v1"); Ub_k (str "k"); Ub_r (str "r"); Ub_s (str "0xbf030000"); Ub_l (str "0x80041000");
   Ub_m (str "0x3b0000")].

Lemma ubnt_image_layout_witness :
  exists s img, ub_do_opts (ub_opts0 (ub_demo_env true)) ub_demo_opts = Ok s /\
  mkfwimage_main ub_crc (ub_demo_env true) ub_demo_opts = Ok img /\
  ub_header_at ub_crc img (str "XS5.v1") /\
  ub_part_at ub_crc img 268 (str "kernel") 0x80041000 1 0xbf030000 0x80041000 3 [1; 2; 3] /\
  ub_part_at ub_crc img 335 (str "rootfs") 0 2 0xbf030003 0 0x3afffd [9; 8] /\ ub_signature_at ub_crc img 401.
Proof.
  eexists _, _. split; [vm_compute; reflexivity|]. split; [vm_compute; reflexivity|].
  match goal with |- ub_header_at _ ?i _ /\ _ => set (img := i) end.
  destruct (ub_do_opts (ub_opts0 (ub_demo_env true)) ub_demo_opts) as [s| |] eqn:Es; [|vm_compute in Es; discriminate Es..].
  pose proof (ubnt_image_layout ub_crc (ub_demo_env true) ub_demo_opts s [1; 2; 3] [9; 8] img Es) as P.
  vm_compute in Es. injection Es as <-.
  destruct P as (P1 & P2 & P3 & P4 & _); [reflexivity|vm_compute; reflexivity|reflexivity|vm_compute; reflexivity|reflexivity|reflexivity|vm_compute; reflexivity|].
  split; [exact P1|]. split; [exact P2|]. split; [exact P3|exact P4].
Defined.

(** A version of 256 bytes leaves no NUL, and printing it reads behind it. *)
Example version_unterminated : mkfwimage_main ub_crc (ub_demo_env true) (ub_demo_opts ++ [Ub_v (zrep 256 65)]) = UB.
Proof. vm_compute. reflexivity. Qed.

Lemma ubnt_unmapped_parts_witness :
  exists sig, build_image ub_crc (ub_demo_env false) (str "v1")
                [mkPart (str "kernel") 1 0 0 0 3 (str "k") [1; 2; 3]]
              = Ok (header_bytes ub_crc (str "v1") ++
                    zrep (parts_size [mkPart (str "kernel") 1 0 0 0 3 (str "k") [1; 2; 3]]) 0 ++ sig) /\
              ztake 4 sig = MAGIC_END.
Proof.
  apply ubnt_unmapped_parts; [reflexivity|vm_compute; reflexivity|reflexivity..].
Defined.
