(* ===== verification/Cdevd.v ===== *)
(** * target/sbin/cdevd/cdevd.c

    The device event daemon: the configuration (a regular expression and a
    handler per line), the dispatch of an event to the handlers whose
    expression matches, and the event loop.  The regular expressions of libc
    are a parameter; messages, [daemon] and the memory [regcomp] allocates are
    not modelled. *)

From S2P Require Import Prelude CLib.

Definition SLASH : Z := 47.
Definition HASH : Z := 35.

(** [struct config_line], [next] being the next element of the list.  [None] is
    a field that was not assigned. *)
Record config_line := mkLine { cl_regex : option (list Z); cl_handler : option (list Z) }.

(** ** Reading the configuration *)

(** [*strchr (buf, c) = '\0'], when there is one. *)
Definition cut (c : Z) (s : list Z) : list Z := take_while (fun b => negb (b =? c)) s.

(** [fgets (buf, 1024, fh)]: what is stored, and the rest of the file. *)
Fixpoint fgets (k : nat) (s : list Z) : list Z * list Z :=
  match k, s with
  | O, _ | _, [] => ([], s)
  | S k', b :: r => if b =? LF then ([b], r) else let '(l, rest) := fgets k' r in (b :: l, rest)
  end.

Section Cdevd.
(** [regcomp] and [regexec] with REG_EXTENDED: [None] for an expression that
    does not compile or an error of the evaluation. *)
Variable regex : list Z -> list Z -> option bool.

Definition reg_match (regexp line : list Z) : Z :=
  match regex regexp line with Some true => 1 | Some false => 0 | None => -1 end.

(** What the loop of [parse_config] does with one line: skip it, add an entry
    and go on, or add an entry, perhaps incomplete, and return 1. *)
Inductive line_result := Skip | Add (e : config_line) | Bad (e : config_line).
Definition parse_line (buf : list Z) : line_result :=
  let buf := cut CR (cut LF (cut HASH (cstr buf))) in
  match skip_while isspace buf with
  | [] => Skip
  | _ :: _ =>
      match strchr buf SLASH with
      | Some (_ :: re) =>
          match strchr re SLASH with
          | Some (_ :: m) =>
              let r := Some (cut SLASH re) in
              match m with
              | c :: m =>
                  if isspace c then
                    match skip_while isspace m with
                    | [] => Bad (mkLine r None)
                    | h => if reg_match (cut SLASH re) [] =? -1 then Bad (mkLine r (Some h))
                           else Add (mkLine r (Some h))
                    end
                  else Bad (mkLine r None)
              | [] => Bad (mkLine r None)
              end
          | _ => Bad (mkLine (Some re) None)
          end
      | _ => Bad (mkLine None None)
      end
  end.

(** The [while] on the lines: the result and the entries; [k] bounds the
    number of lines. *)
Fixpoint parse_lines (k : nat) (text : list Z) (acc : list config_line) : run (Z * list config_line) :=
  match text with
  | [] => Ret (0, acc)
  | _ =>
      match k with
      | O => NoFuel
      | S k' =>
          let '(buf, rest) := fgets 1023 text in
          match parse_line buf with
          | Skip => parse_lines k' rest acc
          | Add e => parse_lines k' rest (acc ++ [e])
          | Bad e => Ret (1, acc ++ [e])
          end
      end
  end.
(** [parse_config] on the two places the file is looked for. *)
Definition parse_config (conf conf_cwd : option (list Z)) : run (Z * list config_line) :=
  match conf with
  | Some text => parse_lines (length text) text []
  | None => match conf_cwd with
            | Some text => parse_lines (length text) text []
            | None => Ret (1, [])
            end
  end.

(** ** Events *)

(** Whether [execve] of a handler succeeds. *)
Variable execve : list Z -> bool.

(** A handler started: its name and environment. *)
Definition started : Type := list Z * list Z.
Definition handler_env (line : list Z) : list Z := ztake 1023 (str "CDEVD_EVENT=" ++ line).

(** [process_event]: the handlers started, and how many processes are left
    waiting: when [execve] fails the child goes on as a copy of the daemon,
    for which its parent waits. *)
Fixpoint process_event (l : list config_line) (buffer : list Z) : run (list started * nat) :=
  match l with
  | [] => Ret ([], 0%nat)
  | e :: r =>
      match cl_regex e with
      | None => Undef
      | Some re =>
          if reg_match re buffer =? 1 then
            match cl_handler e with
            | None => Undef
            | Some h =>
                '(rs, n) ← process_event r buffer;
                if execve h then Ret ((h, handler_env buffer) :: rs, n) else Ret (rs, S n)
            end
          else process_event r buffer
      end
  end.

(** [while (buffer[--rv] == '\n') buffer[rv] = '\0';] reads before the buffer
    when all of it is newlines. *)
Definition strip_newlines (bs : list Z) : run (list Z) :=
  let r := skip_while (fun b => b =? LF) (rev bs) in
  match r with [] => Undef | _ => Ret (rev r) end.

(** What the loop meets at [select] and [read]. *)
Inductive loop_input :=
| Signalled
| SelectError
| NotReady
| ReadData (bs : list Z)
| ReadInterrupted
| ReadError.

(** The [while (1)] of [event_loop] on a sequence of inputs: the exit status
    once it ends ([None] while it goes on), the handlers started and the
    processes left waiting. *)
Fixpoint event_loop (l : list config_line) (inputs : list loop_input) : run (option Z * list started * nat) :=
  match inputs with
  | [] => Ret (None, [], 0%nat)
  | i :: r =>
      match i with
      | Signalled => Ret (Some 0, [], 0%nat)
      | SelectError => Ret (Some 1, [], 0%nat)
      | NotReady | ReadInterrupted => event_loop l r
      | ReadError | ReadData [] => Ret (Some 0, [], 0%nat)
      | ReadData ((_ :: _) as bs) =>
          buffer ← strip_newlines (ztake 1024 bs);
          '(rs, n) ← process_event l (cstr buffer);
          '(ex, rs', n') ← event_loop l r;
          Ret (ex, rs ++ rs', (n + n')%nat)
      end
  end.

(** [check_devd_enabled]: the new value of hw.bus.devctl_disable. *)
Definition check_devd_enabled (devctl_disable : option Z) : outcome Z :=
  match devctl_disable with None => Exit 1 | Some _ => Ok 0 end.

(** [main] ignores the result of [parse_config]. *)
Definition cdevd_main (conf conf_cwd : option (list Z)) (devctl_disable : option Z) (inputs : list loop_input)
    : run (option Z * list started * nat) :=
  '(_, l) ← parse_config conf conf_cwd;
  match check_devd_enabled devctl_disable with
  | Ok _ => event_loop l inputs
  | Exit c => Ret (Some c, [], 0%nat)
  | UB => Undef
  end.
End Cdevd.

(** ** Lines *)

Definition free_of (cs : list Z) (s : list Z) : Prop := Forall (fun b => Forall (fun c => b <> c) cs) s.

Lemma cut_app c s r : free_of [c] s -> match r with [] => True | b :: _ => b = c end -> cut c (s ++ r) = s.
Proof.
  intros Hs Hr. apply take_while_all.
  - eapply Forall_impl; [exact Hs|]. intros b Hb. inversion_clear Hb. by apply negb_true_iff, Z.eqb_neq.
  - destruct r as [|b r]; [done|]. subst b. by rewrite Z.eqb_refl.
Qed.
Lemma cut_free c s : free_of [c] s -> cut c s = s.
Proof. intros Hs. rewrite <- (app_nil_r s) at 1. by apply cut_app. Qed.
Lemma free_of_weaken cs c s : c ∈ cs -> free_of cs s -> free_of [c] s.
Proof.
  intros Hc Hs. eapply Forall_impl; [exact Hs|]. intros b Hb. constructor; [|constructor].
  rewrite Forall_forall in Hb. by apply Hb.
Qed.
Lemma free_of_app cs s t : free_of cs s -> free_of cs t -> free_of cs (s ++ t).
Proof. apply Forall_app_2. Qed.
Lemma free_of_nonul cs s : 0 ∈ cs -> free_of cs s -> nonul s.
Proof.
  intros Hc Hs. eapply Forall_impl; [exact Hs|]. intros b Hb. rewrite Forall_forall in Hb. by apply Hb.
Qed.
Lemma strchr_app s c r : free_of [c] s -> strchr (s ++ c :: r) c = Some (c :: r).
Proof.
  induction 1 as [|b s Hb _ IH]; cbn; [by rewrite Z.eqb_refl|]. inversion_clear Hb.
  destruct (Z.eqb_spec b c); [done|apply IH].
Qed.
Lemma fgets_line k s r :
  free_of [LF] s -> (length s < k)%nat -> fgets k (s ++ LF :: r) = (s ++ [LF], r).
Proof.
  revert k. induction s as [|b s IH]; intros k Hs Hk; (destruct k as [|k]; [cbn in Hk; lia|]); cbn [app fgets].
  - by rewrite Z.eqb_refl.
  - inversion_clear Hs as [|? ? Hb Hs']. inversion_clear Hb. destruct (Z.eqb_spec b LF); [done|].
    rewrite IH; [done|done|cbn in Hk; lia].
Qed.

(** The characters a line's parts may not contain. *)
Definition reserved : list Z := [0; LF; CR; HASH].
Ltac in_reserved := unfold reserved; rewrite !elem_of_cons; tauto.
Record good_entry (regex : list Z -> list Z -> option bool) (re h : list Z) : Prop := {
  ge_re : free_of (SLASH :: reserved) re;
  ge_h : free_of reserved h;
  ge_start : match h with [] => False | b :: _ => isspace b = false end;
  ge_len : (length re + length h + 4 <= 1023)%nat;
  ge_reg : is_Some (regex re []);
}.
Definition render (e : list Z * list Z) : list Z := str "/" ++ e.1 ++ str "/ " ++ e.2 ++ [LF].

Lemma parse_line_good regex re h :
  good_entry regex re h -> parse_line regex (render (re, h)) = Add (mkLine (Some re) (Some h)).
Proof.
  intros [Hre Hh Hst Hlen Hreg]. unfold parse_line, render. cbn [fst snd].
  assert (free_of reserved re) as Hre'.
  { eapply Forall_impl; [exact Hre|]. intros b Hb. by inversion_clear Hb. }
  set (line := str "/" ++ re ++ str "/ " ++ h).
  assert (free_of reserved line) as Hl.
  { unfold line. repeat apply free_of_app; try done; repeat constructor; done. }
  replace (str "/" ++ re ++ str "/ " ++ h ++ [LF]) with (line ++ [LF]) by (unfold line; by rewrite <- !app_assoc).
  assert (nonul (line ++ [LF])) as Hn.
  { apply Forall_app_2; [|by repeat constructor]. by apply (free_of_nonul reserved); [apply list_elem_of_here|]. }
  rewrite (cstr_id _ Hn).
  rewrite (cut_free HASH).
  2: { apply free_of_app; [|by repeat constructor]. apply (free_of_weaken reserved); [|done].
       in_reserved. }
  rewrite (cut_app LF); [|apply (free_of_weaken reserved); [in_reserved|done]|done].
  rewrite (cut_free CR) by (apply (free_of_weaken reserved); [in_reserved|done]).
  assert (line = SLASH :: re ++ SLASH :: 32 :: h) as -> by done.
  assert (forall x, skip_while isspace (SLASH :: x) = SLASH :: x) as -> by done.
  assert (forall x, strchr (SLASH :: x) SLASH = Some (SLASH :: x)) as -> by done.
  assert (free_of [SLASH] re) as Hsl by (apply (free_of_weaken (SLASH :: reserved)); [apply list_elem_of_here|done]).
  rewrite (strchr_app re SLASH (32 :: h)) by done. change (isspace 32) with true. cbn iota.
  rewrite (cut_app SLASH re (SLASH :: 32 :: h)) by done.
  destruct h as [|b h]; [done|]. cbn [skip_while]. rewrite Hst. unfold reg_match. destruct Hreg as [v ->]. by destruct v.
Qed.

Definition entry (e : list Z * list Z) : config_line := mkLine (Some e.1) (Some e.2).

Lemma fgets_render re h rest :
  free_of reserved re -> free_of reserved h -> (length re + length h + 4 <= 1023)%nat ->
  fgets 1023 (render (re, h) ++ rest) = (render (re, h), rest).
Proof.
  intros Hre Hh Hlen. unfold render. cbn [fst snd]. set (line := str "/" ++ re ++ str "/ " ++ h).
  replace (str "/" ++ re ++ str "/ " ++ h ++ [LF]) with (line ++ [LF]) by (unfold line; by rewrite <- !app_assoc).
  rewrite <- app_assoc. apply fgets_line.
  - apply (free_of_weaken reserved); [in_reserved|].
    unfold line. repeat apply free_of_app; try done; repeat constructor; done.
  - unfold line. rewrite !length_app. cbn [str length map String.list_ascii_of_string]. lia.
Qed.

(** Good lines are read one by one. *)
Lemma parse_lines_app regex es k text acc :
  Forall (fun e => good_entry regex e.1 e.2) es ->
  parse_lines regex (length es + k) (concat (map render es) ++ text) acc
  = parse_lines regex k text (acc ++ map entry es).
Proof.
  intros Hes. revert acc. induction Hes as [|[re h] es He _ IH]; intros acc.
  - cbn [map concat app length Nat.add]. by rewrite app_nil_r.
  - cbn [map concat fst snd length Nat.add] in *. rewrite <- app_assoc.
    destruct (render (re, h) ++ concat (map render es) ++ text) as [|b t] eqn:Ht; [done|].
    cbn [parse_lines]. rewrite <- Ht. rewrite fgets_render, parse_line_good; [|done| |apply He|apply He].
    2: { eapply Forall_impl; [apply He|]. intros x Hx. by inversion_clear Hx. }
    rewrite IH. by rewrite <- app_assoc.
Qed.
Lemma length_render es : (length es <= length (concat (map render es)))%nat.
Proof.
  induction es as [|e es IH]; cbn [map concat]; [done|]. rewrite length_app. cbn [length].
  unfold render at 1. cbn [app length str map String.list_ascii_of_string]. lia.
Qed.

(** A line without a slash. *)
Lemma fgets_eof k s : free_of [LF] s -> (length s <= k)%nat -> fgets k s = (s, []).
Proof.
  revert s. induction k as [|k IH]; intros [|c s] Hs Hk; try done; [cbn in Hk; lia|].
  inversion_clear Hs as [|? ? Hc Hs']. inversion_clear Hc. cbn [fgets]. destruct (Z.eqb_spec c LF); [done|].
  rewrite IH; [done|done|cbn in Hk; lia].
Qed.
Lemma strchr_none c s : free_of [c] s -> strchr s c = None.
Proof.
  induction 1 as [|b s Hb _ IH]; [done|]. inversion_clear Hb. cbn. destruct (Z.eqb_spec b c); [done|apply IH].
Qed.
Lemma parse_line_bad regex bad :
  free_of (SLASH :: reserved) bad -> match bad with [] => False | b :: _ => isspace b = false end ->
  parse_line regex bad = Bad (mkLine None None).
Proof.
  intros Hbad Hst.
  assert (forall c, c ∈ SLASH :: reserved -> free_of [c] bad) as Hf by (intros c Hc; by apply (free_of_weaken (SLASH :: reserved))).
  unfold parse_line. rewrite cstr_id by (apply (free_of_nonul (SLASH :: reserved)); [in_reserved|done]).
  rewrite (cut_free HASH), (cut_free LF), (cut_free CR) by (apply Hf; in_reserved). rewrite strchr_none by (apply Hf; in_reserved).
  destruct bad as [|b bad]; [done|]. cbn [skip_while]. by rewrite Hst.
Qed.

(** Every line consumes at least one byte: the fuel is enough. *)
Lemma fgets_rest k s : (length (fgets k s).2 <= length s)%nat.
Proof.
  revert s. induction k as [|k IH]; intros [|b s]; cbn [fgets]; try done.
  destruct (b =? LF); [cbn [snd length]; lia|]. specialize (IH s). destruct (fgets k s). cbn [snd length] in *. lia.
Qed.
Lemma fgets_eats k b s : (length (fgets (S k) (b :: s)).2 <= length s)%nat.
Proof.
  cbn [fgets]. destruct (b =? LF); [done|]. pose proof (fgets_rest k s). destruct (fgets k s). done.
Qed.
Lemma parse_lines_total regex k text acc : (length text <= k)%nat -> parse_lines regex k text acc <> NoFuel.
Proof.
  revert text acc. induction k as [|k IH]; intros text acc Hk; (destruct text as [|b text]; [done|]); [cbn in Hk; lia|].
  cbn [parse_lines]. pose proof (fgets_eats 1022 b text) as Hf. cbn [length] in Hk.
  destruct (fgets 1023 (b :: text)) as [buf rest]. cbn [snd] in Hf.
  destruct (parse_line regex buf); [apply IH; lia..|done].
Qed.

(** ** Properties *)

(** C8: a configuration written as one [/expression/ handler] line per entry
    (lines of at most 1023 characters, expressions that compile and contain no
    slash, handlers that start with no space) is read back as exactly those
    entries, in order. *)
Theorem cdevd_config_roundtrip regex es cwd :
  Forall (fun e => good_entry regex e.1 e.2) es ->
  parse_config regex (Some (concat (map render es))) cwd = Ret (0, map entry es).
Proof.
  intros Hes. unfold parse_config. pose proof (length_render es) as Hl.
  replace (length (concat (map render es))) with (length es + (length (concat (map render es)) - length es))%nat by lia.
  rewrite <- (app_nil_r (concat _)) at 2. rewrite parse_lines_app by done.
  by destruct (length (concat (map render es)) - length es)%nat.
Qed.

(** The handlers of the entries that match, in the order of the file. *)
Definition matching (regex : list Z -> list Z -> option bool) (es : list (list Z * list Z)) (ev : list Z) : list (list Z) :=
  map snd (List.filter (fun e => reg_match regex e.1 ev =? 1) es).

(** with a complete configuration, an event starts exactly the executable
    handlers whose expression matches it, each once, in the order of the file,
    with the event (cut to 1023 bytes) in CDEVD_EVENT; each handler that
    cannot be executed leaves one process waiting. *)
Theorem cdevd_dispatch regex execve es ev :
  process_event regex execve (map entry es) ev
  = Ret (map (fun h => (h, handler_env ev)) (List.filter execve (matching regex es ev)),
         length (List.filter (fun h => negb (execve h)) (matching regex es ev))).
Proof.
  induction es as [|[re h] es IH]; [done|]. cbn [map process_event entry cl_regex cl_handler fst snd].
  unfold matching in *. cbn [List.filter fst]. destruct (reg_match regex re ev =? 1); [|apply IH].
  rewrite IH. rsimpl. cbn [map snd List.filter]. by destruct (execve h).
Qed.

(** a malformed last line is reported, but its entry stays in the list with
    the fields the parser had not reached unset, and the daemon goes on: the
    first event makes it use them. *)
Theorem cdevd_malformed_line regex execve es bad ev inputs :
  Forall (fun e => good_entry regex e.1 e.2) es ->
  free_of (SLASH :: reserved) bad -> match bad with [] => False | b :: _ => isspace b = false end ->
  (length bad < 1023)%nat -> strip_newlines ev = Ret ev -> (length ev <= 1024)%nat ->
  cdevd_main regex execve (Some (concat (map render es) ++ bad)) None (Some 0) (ReadData ev :: inputs) = Undef.
Proof.
  intros Hes Hbad Hst Hlen Hev Hl. unfold cdevd_main, parse_config. pose proof (length_render es).
  assert (length (concat (map render es) ++ bad)
          = (length es + S (length (concat (map render es)) - length es + (length bad - 1)))%nat) as ->.
  { rewrite length_app. destruct bad; [done|]. cbn [length]. lia. }
  rewrite parse_lines_app by done. cbn [parse_lines].
  rewrite fgets_eof by (done || lia || (apply (free_of_weaken (SLASH :: reserved)); [in_reserved|done])).
  rewrite parse_line_bad by done. destruct bad as [|b bad]; [done|]. rsimpl. cbn [check_devd_enabled event_loop app].
  destruct ev as [|c ev]; [done|]. rewrite (ztake_all 1024) by (unfold zlen; cbn [length] in *; lia). rewrite Hev. rsimpl.
  assert (forall l, process_event regex execve (map entry l ++ [mkLine None None]) (cstr (c :: ev)) = Undef) as Hpe.
  { clear. induction l as [|[re h] l IH]; [done|]. cbn [map app process_event entry cl_regex cl_handler fst snd].
    rewrite IH. by destruct (_ =? 1). }
  by rewrite Hpe.
Qed.

(** Expressions that are searched for literally, [(] not compiling. *)
Definition demo_regex (re line : list Z) : option bool :=
  if has_prefix (str "(") re then None
  else Some (match strstr line re with Some _ => true | None => false end).
Definition demo_entries : list (list Z * list Z) :=
  [(str "subsystem=USB", str "/etc/usb.sh"); (str "IFNET", str "/etc/net.sh")].

Lemma cdevd_config_roundtrip_witness :
  parse_config demo_regex (Some (concat (map render demo_entries))) None = Ret (0, map entry demo_entries).
Proof.
  apply cdevd_config_roundtrip. repeat constructor; try discriminate; try (cbn; lia); cbn; eexists; reflexivity.
Defined.
Lemma cdevd_malformed_line_witness :
  cdevd_main demo_regex (fun _ => true) (Some (concat (map render demo_entries) ++ str "oops")) None (Some 0)
    [ReadData (str "!system=IFNET")] = Undef.
Proof.
  apply cdevd_malformed_line.
  - repeat constructor; try discriminate; try (cbn; lia); cbn; eexists; reflexivity.
  - repeat constructor; discriminate.
  - reflexivity.
  - cbn. lia.
  - reflexivity.
  - cbn. lia.
Defined.
