(* ===== verification/ConfStrbuf.v ===== *)
(** * The growing string buffer of sbin/conf (conf_strbuf.c)

    A [Strbuf] keeps three C values: the address [buf] of a block from
    [malloc], the address [end] where the next string goes, and the block's
    [size].  Addresses are numbers here, as they are on the machine, because
    the code computes with them: [strReplaceOne] stores a length in [end].  The
    block's bytes are options: a byte [malloc] or [realloc] has handed out and
    nothing has written is [None], and a read of it is undefined.

    [realloc] is a parameter: [realloc_at n] is the address the [n]-th growth of
    the buffer gets, 0 when it fails. *)

From S2P Require Import Prelude CLib.

Definition mem : Type := list (option Z).

(** The string at the start of a block. *)
Fixpoint mstr (m : mem) : outcome (list Z) :=
  match m with
  | Some b :: r => if b =? 0 then Ok [] else s ← mstr r; Ok (b :: s)
  | _ => UB
  end.
(** A store of [d] at offset [o], and [memmove] inside a block. *)
Definition mwrite (o : Z) (d : mem) (m : mem) : outcome mem :=
  if (0 <=? o) && (o + zlen d <=? zlen m) then Ok (splice o d m) else UB.
Definition mmove (dst src n : Z) (m : mem) : outcome mem :=
  if (0 <=? src) && (0 <=? n) && (src + n <=? zlen m) then mwrite dst (slice src n m) m else UB.

Definition STRBUF_BLOCKSIZE : Z := 4096.

Record strbuf : Type := Strbuf {
  sb_buf : Z;
  sb_end : Z;
  sb_size : Z;
  sb_mem : mem;      (* the live block at [sb_buf]; empty when it is NULL *)
  sb_grown : nat     (* calls of [realloc] so far *)
}.

Definition fresh_bytes (n : Z) : mem := replicate (Z.to_nat n) None.

(** ** Lemmas on blocks *)

Lemma mwrite_in o d m : 0 <= o -> o + zlen d <= zlen m -> mwrite o d m = Ok (splice o d m).
Proof.
  intros. unfold mwrite. by rewrite (proj2 (Z.leb_le 0 o)), (proj2 (Z.leb_le _ (zlen m))).
Qed.
Lemma mwrite_out o d m : o < 0 \/ zlen m < o + zlen d -> mwrite o d m = UB.
Proof.
  unfold mwrite. intros [?|?].
  - by rewrite (proj2 (Z.leb_gt 0 o)).
  - rewrite (proj2 (Z.leb_gt (o + zlen d) _)) by done. by rewrite andb_false_r.
Qed.
Lemma zlen_fmap_some (l : list Z) : zlen (Some <$> l) = zlen l.
Proof. unfold zlen. by rewrite length_fmap. Qed.
Lemma zlen_fresh n : 0 <= n -> zlen (fresh_bytes n) = n.
Proof. intros. unfold zlen, fresh_bytes. rewrite length_replicate. lia. Qed.
#[export] Hint Rewrite zlen_fmap_some : zlen.
Lemma mstr_app t r : nonul t -> mstr ((Some <$> t) ++ Some 0 :: r) = Ok t.
Proof.
  induction 1 as [|b t Hb _ IH]; cbn; [done|].
  destruct (Z.eqb_spec b 0); [done|]. by rewrite IH.
Qed.
Lemma mstr_Ok m t : mstr m = Ok t -> nonul t /\ exists r, m = (Some <$> t) ++ Some 0 :: r.
Proof.
  revert t. induction m as [|[b|] m IH]; intros t H; cbn in H; [done| |done].
  destruct (Z.eqb_spec b 0) as [->|Hb].
  - injection H as <-. split; [constructor | by exists m].
  - inv_oks H. destruct (IH _ Ha) as [Hn [r ->]]. split; [by constructor | by exists r].
Qed.
(** A string and its NUL, as [strncpy] with room for both writes them. *)
Lemma strncpy_field_nul u : zlen u < 2 ^ 31 -> strncpy_field (u64 (zlen u + 1)) u = u ++ [0].
Proof.
  intros H. pose proof (zlen_nonneg u). rewrite u64_small by lia.
  unfold strncpy_field. rewrite ztake_all by lia. by replace (zlen u + 1 - zlen u) with 1 by lia.
Qed.
Lemma strncpy_field_exact u : zlen u < 2 ^ 31 -> strncpy_field (u64 (zlen u)) u = u.
Proof.
  intros H. pose proof (zlen_nonneg u). rewrite u64_small by lia.
  unfold strncpy_field. rewrite ztake_all, Z.sub_diag by lia. apply app_nil_r.
Qed.
Lemma zdrop_app_length {A} (q l : list A) : zdrop (zlen q) (q ++ l) = l.
Proof. unfold zdrop, zlen. by rewrite Nat2Z.id, drop_app_length. Qed.
(** A write at the end of a known prefix. *)
Lemma splice_prefix {A} (p d r : list A) o :
  o = zlen p -> splice o d (p ++ r) = p ++ d ++ zdrop (zlen d) r.
Proof.
  intros ->. unfold splice, ztake, zdrop, zlen.
  rewrite take_app_length' by lia. do 2 f_equal.
  rewrite drop_app_ge by lia. f_equal. lia.
Qed.

(** [old] replaced by [new] behind [p]: the tail with its NUL is moved, then [new] is
    stored in front of it. *)
Lemma move_and_put m p old r x new :
  m = (Some <$> p ++ old ++ r) ++ Some 0 :: x -> zlen (p ++ new ++ r) < zlen m ->
  exists m1 y, mmove (zlen p + zlen new) (zlen p + zlen old) (zlen r + 1) m = Ok m1 /\
    mwrite (zlen p) (Some <$> new) m1 = Ok ((Some <$> p ++ new ++ r) ++ Some 0 :: y) /\
    zlen ((Some <$> p ++ new ++ r) ++ Some 0 :: y) = zlen m.
Proof.
  intros -> Hfit. pose proof (zlen_nonneg p). pose proof (zlen_nonneg old). pose proof (zlen_nonneg new).
  pose proof (zlen_nonneg r). pose proof (zlen_nonneg x).
  unfold mmove. rewrite (proj2 (Z.leb_le _ _)), (proj2 (Z.leb_le _ _)), (proj2 (Z.leb_le _ _)) by zlen. cbn [andb].
  rewrite (slice_at (Some <$> p ++ old) ((Some <$> r) ++ [Some 0]) x);
    [| rewrite !fmap_app, <- !app_assoc; done | zlen | zlen].
  rewrite mwrite_in by zlen. unfold splice at 1. set (y := zdrop _ _).
  assert (Ht : exists q, ztake (zlen p + zlen new) ((Some <$> p ++ old ++ r) ++ Some 0 :: x) = (Some <$> p) ++ q /\ zlen q = zlen new).
  { rewrite !fmap_app, <- !app_assoc. exists (ztake (zlen new) ((Some <$> old) ++ (Some <$> r) ++ Some 0 :: x)). split.
    - unfold ztake. rewrite take_app_ge by (rewrite length_fmap; unfold zlen; lia).
      do 2 f_equal. rewrite length_fmap. unfold zlen. lia.
    - zlen. }
  destruct Ht as (q & -> & Hq). eexists _, y. split; [done|]. rewrite <- !app_assoc.
  rewrite mwrite_in; [|lia|assert (0 <= zlen y) by apply zlen_nonneg; zlen].
  rewrite splice_prefix by zlen. rewrite zlen_fmap_some, <- Hq, zdrop_app_length. rewrite !fmap_app, <- !app_assoc.
  split; [done|]. subst y. zlen.
Qed.

(** ** Substitution, as the callers of [strReplace] expect it *)

(** Every occurrence of [old], from the left and without overlap, becomes
    [new]; [skip] bytes of a match are still to be passed. *)
Fixpoint gsub_skip (skip : nat) (old new s : list Z) : list Z :=
  match s with
  | [] => []
  | b :: r =>
      match skip with
      | S k => gsub_skip k old new r
      | O => if has_prefix old s then new ++ gsub_skip (length old - 1) old new r
             else b :: gsub_skip 0 old new r
      end
  end.
Definition gsub : list Z -> list Z -> list Z -> list Z := gsub_skip 0.
Fixpoint occurrences_skip (skip : nat) (old s : list Z) : nat :=
  match s with
  | [] => 0
  | _ :: r =>
      match skip with
      | S k => occurrences_skip k old r
      | O => if has_prefix old s then S (occurrences_skip (length old - 1) old r)
             else occurrences_skip 0 old r
      end
  end.
Definition occurrences : list Z -> list Z -> nat := occurrences_skip 0.

Lemma gsub_skip_app old new m r k : length m = k -> gsub_skip k old new (m ++ r) = gsub_skip 0 old new r.
Proof. intros <-. induction m as [|b m IH]; [done|]. cbn. apply IH. Qed.
Lemma occurrences_skip_app old m r k : length m = k -> occurrences_skip k old (m ++ r) = occurrences_skip 0 old r.
Proof. intros <-. induction m as [|b m IH]; [done|]. cbn. apply IH. Qed.

(** [new] cannot be part of an occurrence of [old]. *)
Definition unrelated (old new : list Z) : Prop :=
  old <> [] /\ new <> [] /\ forall b, b ∈ new -> b ∉ old.

(** An occurrence that ends in [new ++ r] would use a byte of [new]. *)
Lemma has_prefix_unrelated old new p w r :
  unrelated old new -> has_prefix old (p ++ w) = false -> has_prefix old (p ++ new ++ r) = false.
Proof.
  intros (Ho & Hn & Hd) H. destruct (has_prefix old (p ++ new ++ r)) eqn:E; [|done]. exfalso.
  apply has_prefix_true in E as [x E].
  destruct new as [|n new]; [done|]. cbn [app] in E.
  destruct (decide (length old <= length p)%nat) as [Hle|Hgt].
  - apply (f_equal (take (length old))) in E.
    rewrite take_app_length, take_app_le in E by done.
    rewrite <- (take_drop (length old) p), E, <- app_assoc, has_prefix_app in H. done.
  - apply (Hd n); [constructor|]. apply list_elem_of_lookup. exists (length p).
    rewrite <- (lookup_app_l old x) by lia. rewrite <- E, lookup_app_r, Nat.sub_diag by done. done.
Qed.

(** Passing over a prefix that holds no start of an occurrence. *)
Lemma gsub_pass old new p w :
  (forall i, (i < length p)%nat -> has_prefix old (drop i p ++ w) = false) ->
  gsub old new (p ++ w) = p ++ gsub old new w /\ occurrences old (p ++ w) = occurrences old w.
Proof.
  unfold gsub, occurrences. induction p as [|b p IH]; intros H; [done|].
  cbn [app gsub_skip occurrences_skip]. pose proof (H 0%nat (Nat.lt_0_succ _)) as H0. cbn [drop app] in H0. rewrite H0.
  destruct IH as [IH1 IH2]; [intros i Hi; apply (H (S i)); cbn; lia|]. by rewrite IH1, IH2.
Qed.
Lemma gsub_match old new r :
  old <> [] -> gsub old new (old ++ r) = new ++ gsub old new r /\
  occurrences old (old ++ r) = S (occurrences old r).
Proof.
  intros Ho. unfold gsub, occurrences. pose proof (has_prefix_app old r) as H.
  destruct old as [|a old]; [done|]. cbn [app gsub_skip occurrences_skip] in *. rewrite H.
  by rewrite gsub_skip_app, occurrences_skip_app by (cbn; lia).
Qed.

(** What [strstr] finds is the first occurrence. *)
Lemma strstr_first t old suf :
  strstr t old = Some suf -> exists p r, t = p ++ old ++ r /\ suf = old ++ r /\
    forall i, (i < length p)%nat -> has_prefix old (drop i p ++ old ++ r) = false.
Proof.
  induction t as [|b t IH]; cbn [strstr]; destruct (has_prefix old _) eqn:E; intros H; try done.
  - injection H as <-. apply has_prefix_true in E as [r ->]. exists [], r. repeat split. intros i Hi. cbn in Hi. lia.
  - injection H as <-. apply has_prefix_true in E as [r E]. exists [], r. repeat split; [done..|]. intros i Hi. cbn in Hi. lia.
  - destruct (IH H) as (p & r & -> & -> & Hi). exists (b :: p), r. repeat split.
    intros [|i] Hlt; [done|]. cbn in *. apply Hi. lia.
Qed.
Lemma strstr_none t old : old <> [] -> strstr t old = None -> forall new, gsub old new t = t /\ occurrences old t = 0%nat.
Proof.
  intros Ho H new. unfold gsub, occurrences.
  induction t as [|b t IH]; [done|]. cbn [strstr] in H. destruct (has_prefix old _) eqn:E; [done|].
  cbn [gsub_skip occurrences_skip]. rewrite E. destruct (IH H) as [-> ->]. done.
Qed.

(** One replacement is one step of the substitution. *)
Lemma gsub_step old new p r :
  unrelated old new ->
  (forall i, (i < length p)%nat -> has_prefix old (drop i p ++ old ++ r) = false) ->
  gsub old new (p ++ old ++ r) = gsub old new (p ++ new ++ r) /\
  occurrences old (p ++ old ++ r) = S (occurrences old (p ++ new ++ r)).
Proof.
  intros Hu Hp. pose proof Hu as (Ho & Hn & Hd).
  destruct (gsub_pass old new p (old ++ r) Hp) as [-> ->].
  destruct (gsub_match old new r Ho) as [-> ->].
  destruct (gsub_pass old new p (new ++ r)) as [-> ->].
  { intros i Hi. eapply has_prefix_unrelated; [done|]. by apply Hp. }
  destruct (gsub_pass old new new r) as [-> ->]; [|done].
  intros i Hi. destruct old as [|a old]; [done|].
  destruct (drop i new) as [|n l] eqn:E; [apply (f_equal length) in E; rewrite length_drop in E; cbn in E; lia|].
  cbn. destruct (Z.eqb_spec a n) as [->|]; [|done]. exfalso. apply (Hd n); [|constructor].
  apply list_elem_of_lookup. exists i. by rewrite <- (Nat.add_0_r i), <- lookup_drop, E.
Qed.

Section strbuf.
Context (realloc_at : nat -> Z).

(** [s->size += STRBUF_BLOCKSIZE; s->buf = realloc(s->buf, s->size)] *)
Definition grow (s : strbuf) : strbuf :=
  let size := u64 (sb_size s + STRBUF_BLOCKSIZE) in
  let p := realloc_at (sb_grown s) in
  Strbuf p (sb_end s) size
    (if p =? 0 then [] else ztake size (sb_mem s) ++ fresh_bytes (size - zlen (sb_mem s)))
    (S (sb_grown s)).

(** [strncpy(s->end, str, len+1); s->end += len] *)
Definition append_at_end (s : strbuf) (string : list Z) (len : Z) : outcome strbuf :=
  m ← mwrite (sb_end s - sb_buf s) (Some <$> strncpy_field (u64 (len + 1)) string) (sb_mem s);
  Ok (Strbuf (sb_buf s) (sb_end s + len) (sb_size s) m (sb_grown s)).

Definition strAppend (s : strbuf) (string : list Z) : outcome strbuf :=
  let len := s32 (zlen string) in
  if sb_size s <? u64 (sb_end s - sb_buf s + len + 1) then
    let s := grow s in
    if sb_buf s =? 0 then Ok s else append_at_end s string len
  else append_at_end s string len.

(** The moves of [strReplaceOne] after the buffer was made large enough. *)
Definition replace_match (s : strbuf) (old new : list Z) (len nlen olen : Z) : outcome (Z * strbuf) :=
  cur ← mstr (sb_mem s);
  match strstr cur old with
  | None => UB (* match is NULL *)
  | Some suffix =>
      let at_ := zlen cur - zlen suffix in
      m1 ← mmove (at_ + nlen) (at_ + olen) (len - at_ - olen + 1) (sb_mem s);
      m2 ← mwrite at_ (Some <$> strncpy_field (u64 nlen) new) m1;
      Ok (1, Strbuf (sb_buf s) (len - olen + nlen) (sb_size s) m2 (sb_grown s))
  end.

Definition strReplaceOne (s : strbuf) (old new : list Z) : outcome (Z * strbuf) :=
  cur ← mstr (sb_mem s);
  match strstr cur old with
  | None => Ok (0, s)
  | Some _ =>
      let nlen := s32 (zlen new) in
      let olen := s32 (zlen old) in
      let len := s32 (zlen cur) in
      if sb_size s <? u64 (sb_end s - sb_buf s + (nlen - olen) + 1) then
        let s := grow s in
        if sb_buf s =? 0 then Ok (-1, s) else replace_match s old new len nlen olen
      else replace_match s old new len nlen olen
  end.

(** The loop of [strReplace] on fuel: [None] when it was not enough. *)
Fixpoint strReplace_loop (fuel : nat) (s : strbuf) (old new : list Z) (count : Z)
  : outcome (option (Z * strbuf)) :=
  match fuel with
  | O => Ok None
  | S fuel =>
      r ← strReplaceOne s old new;
      let '(ret, s) := r in
      if ret =? 0 then Ok (Some (count, s))
      else if 0 <? ret then strReplace_loop fuel s old new (count + ret)
      else Ok (Some (ret, s))
  end.
Definition strReplace (fuel : nat) (s : strbuf) (old new : list Z) : outcome (option (Z * strbuf)) :=
  strReplace_loop fuel s old new 0.

(** [strInit] with the address its second [malloc] returns. *)
Definition strInit (p : Z) : strbuf :=
  Strbuf p p STRBUF_BLOCKSIZE (if p =? 0 then [] else fresh_bytes STRBUF_BLOCKSIZE) 0.

Definition strReset (s : strbuf) : outcome strbuf :=
  m ← mwrite 0 [Some 0] (sb_mem s);
  Ok (Strbuf (sb_buf s) (sb_buf s) (sb_size s) m (sb_grown s)).

(** The block is released: nothing in it can be accessed again. *)
Definition strFree (s : strbuf) : strbuf := Strbuf (sb_buf s) (sb_end s) (sb_size s) [] (sb_grown s).
(** The string [strGet] points to. *)
Definition strGet (s : strbuf) : outcome (list Z) := mstr (sb_mem s).

(** The buffer after a sequence of appends. *)
Fixpoint appends (s : strbuf) (l : list (list Z)) : outcome strbuf :=
  match l with
  | [] => Ok s
  | a :: r => s ← strAppend s a; appends s r
  end.

(** ** Well-formed buffers *)

(** The block is live, has [size] bytes and addresses that do not wrap. *)
Definition sb_ok (s : strbuf) : Prop :=
  0 < sb_buf s < 2 ^ 48 /\ zlen (sb_mem s) = sb_size s /\ STRBUF_BLOCKSIZE <= sb_size s.
(** [t] is written at the start of the block, with room for its NUL. *)
Definition written (s : strbuf) (t : list Z) : Prop :=
  sb_ok s /\ sb_end s = sb_buf s + zlen t /\ zlen t < sb_size s /\ exists r, sb_mem s = (Some <$> t) ++ r.
(** The block holds the string [t]. *)
Definition holds (s : strbuf) (t : list Z) : Prop :=
  sb_ok s /\ nonul t /\ exists r, sb_mem s = (Some <$> t) ++ Some 0 :: r.

Lemma grow_ok s :
  sb_ok s -> sb_size s < 2 ^ 62 -> 0 < realloc_at (sb_grown s) < 2 ^ 48 ->
  sb_ok (grow s) /\ sb_size (grow s) = sb_size s + STRBUF_BLOCKSIZE /\
  sb_mem (grow s) = sb_mem s ++ fresh_bytes STRBUF_BLOCKSIZE.
Proof.
  intros (Hb & Hm & Hs) H62 Hp. unfold STRBUF_BLOCKSIZE in *.
  assert (Hmem : sb_mem (grow s) = sb_mem s ++ fresh_bytes 4096).
  { unfold grow, STRBUF_BLOCKSIZE. cbn [sb_mem]. rewrite u64_small by lia.
    destruct (Z.eqb_spec (realloc_at (sb_grown s)) 0); [lia|].
    rewrite ztake_all by lia. do 2 f_equal. lia. }
  assert (Hsz : sb_size (grow s) = sb_size s + 4096).
  { unfold grow, STRBUF_BLOCKSIZE. cbn [sb_size]. apply u64_small. lia. }
  split; [|done]. unfold sb_ok, STRBUF_BLOCKSIZE. rewrite Hmem, Hsz, zlen_app, zlen_fresh by lia.
  unfold grow. cbn [sb_buf]. lia.
Qed.
#[local] Arguments grow : simpl never.

(** [strncpy] at the end of what is written. *)
Lemma append_at_end_ok s t u :
  written s t -> zlen u < 2 ^ 31 -> zlen t + zlen u < sb_size s ->
  exists s' r, append_at_end s u (zlen u) = Ok s' /\ written s' (t ++ u) /\
    sb_mem s' = (Some <$> t ++ u) ++ Some 0 :: r /\
    sb_buf s' = sb_buf s /\ sb_size s' = sb_size s /\ sb_grown s' = sb_grown s.
Proof.
  intros ((Hb & Hm & Hs) & He & Ht & r & Hr) Hu Hfit. pose proof (zlen_nonneg t). pose proof (zlen_nonneg u).
  unfold append_at_end. rewrite strncpy_field_nul by done.
  rewrite mwrite_in by (rewrite ?zlen_fmap_some, ?zlen_app; change (zlen [0]) with 1; lia). bsimpl.
  rewrite Hr, splice_prefix by (rewrite zlen_fmap_some; lia).
  rewrite (fmap_app _ u [0]), <- !app_assoc, app_assoc, <- fmap_app. cbn [fmap list_fmap app].
  set (r' := zdrop _ r).
  assert (Hl : zlen ((Some <$> t ++ u) ++ Some 0 :: r') = zlen (sb_mem s)).
  { rewrite Hr. unfold r'. rewrite Hr in Hm. zlen. }
  eexists _, r'. split; [done|]. cbn [sb_mem sb_buf sb_size sb_grown].
  split; [|done]. repeat split; cbn [sb_mem sb_buf sb_size sb_end]; try lia.
  - rewrite zlen_app. lia.
  - rewrite zlen_app. lia.
  - by eexists.
Qed.

Lemma written_grow s t :
  written s t -> sb_size s < 2 ^ 62 -> realloc_at (sb_grown s) = sb_buf s -> written (grow s) t.
Proof.
  intros (Hok & He & Ht & r & Hr) H62 Hp.
  destruct (grow_ok s Hok H62) as (Hok' & Hs & Hm); [rewrite Hp; apply Hok|].
  unfold written. rewrite Hs, Hm, Hr. unfold STRBUF_BLOCKSIZE.
  split; [done|]. split; [unfold grow; cbn; lia|]. split; [lia|].
  exists (r ++ fresh_bytes 4096). by rewrite app_assoc.
Qed.

(** The room [strAppend] needs: the string fits, or it fits after the one block
    the code adds, which must not move. *)
Definition room (s : strbuf) (t u : list Z) : Prop :=
  zlen t + zlen u < sb_size s \/
  (realloc_at (sb_grown s) = sb_buf s /\ zlen t + zlen u < sb_size s + STRBUF_BLOCKSIZE).

Lemma strAppend_ok s t u :
  written s t -> zlen u < 2 ^ 31 -> sb_size s < 2 ^ 62 -> room s t u ->
  exists s' r, strAppend s u = Ok s' /\ written s' (t ++ u) /\
    sb_mem s' = (Some <$> t ++ u) ++ Some 0 :: r /\ sb_buf s' = sb_buf s /\
    sb_size s' = (if sb_size s <=? zlen t + zlen u then sb_size s + STRBUF_BLOCKSIZE else sb_size s).
Proof.
  intros W Hu H62 Hroom. pose proof W as ((Hb & Hm & Hs) & He & Ht & _).
  pose proof (zlen_nonneg t). pose proof (zlen_nonneg u).
  unfold strAppend. rewrite s32_small, He by lia.
  replace (sb_buf s + zlen t - sb_buf s + zlen u + 1) with (zlen t + zlen u + 1) by lia.
  rewrite u64_small by lia.
  destruct (Z.ltb_spec (sb_size s) (zlen t + zlen u + 1)), (Z.leb_spec (sb_size s) (zlen t + zlen u)); try lia.
  - destruct Hroom as [?|[Hp Hfit]]; [lia|].
    destruct (grow_ok s (proj1 W) H62) as (Hok' & Hgs & _); [rewrite Hp; lia|].
    assert (Hgb : sb_buf (grow s) = sb_buf s) by done.
    destruct (Z.eqb_spec (sb_buf (grow s)) 0); [lia|].
    destruct (append_at_end_ok (grow s) t u) as (s' & r & E & W' & Hm' & Hb' & Hs' & _);
      [by apply written_grow | done | lia|].
    exists s', r. by rewrite Hb', Hs', Hgb, Hgs.
  - destruct (append_at_end_ok s t u) as (s' & r & E & W' & Hm' & Hb' & Hs' & _); [done | done | lia|].
    exists s', r. by rewrite Hb', Hs'.
Qed.

(** What every append of a sequence needs. *)
Definition appendable (u : list Z) : Prop := nonul u /\ zlen u <= STRBUF_BLOCKSIZE.

(** Appending strings of at most a block to a buffer that [realloc] leaves in
    place: the written string grows by each of them. *)
Lemma appends_written s t l :
  (forall n, realloc_at n = sb_buf s) -> written s t -> sb_size s <= zlen t + STRBUF_BLOCKSIZE ->
  Forall appendable l -> zlen t + zlen (concat l) < 2 ^ 61 ->
  exists s', appends s l = Ok s' /\ written s' (t ++ concat l) /\ sb_buf s' = sb_buf s /\
    sb_size s' <= zlen (t ++ concat l) + STRBUF_BLOCKSIZE /\
    (l <> [] -> exists r, sb_mem s' = (Some <$> t ++ concat l) ++ Some 0 :: r).
Proof.
  intros Hre W Hsz Hl. revert s t Hre W Hsz.
  induction Hl as [|u l [Hu Hu'] Hl IH]; intros s t Hre W Hsz Htot; cbn [appends concat] in *.
  - rewrite app_nil_r. by exists s.
  - pose proof (zlen_nonneg t). pose proof (zlen_nonneg u). pose proof (zlen_nonneg (concat l)).
    rewrite zlen_app in Htot. unfold STRBUF_BLOCKSIZE in *.
    destruct (strAppend_ok s t u) as (s1 & r & E & W1 & Hm & Hb & Hs1);
      [done | lia | lia | destruct W as (_ & _ & ? & _); unfold room, STRBUF_BLOCKSIZE; right; split; [done|lia] |].
    rewrite E. bsimpl. unfold STRBUF_BLOCKSIZE in Hs1.
    destruct (IH s1 (t ++ u)) as (s' & E' & W' & Hb' & Hsz' & Hm').
    + intros n. by rewrite Hb.
    + done.
    + rewrite Hs1, zlen_app. destruct (Z.leb_spec (sb_size s) (zlen t + zlen u)); lia.
    + rewrite zlen_app. lia.
    + exists s'. rewrite app_assoc. repeat (split; [congruence || done|]). intros _.
      destruct l as [|v l]; [|by apply Hm'].
      cbn [appends] in E'. injection E' as <-. cbn [concat]. rewrite app_nil_r. by exists r.
Qed.

(** One match replaced in a block that has room for the result. *)
Lemma replace_match_ok s p old r new x :
  sb_ok s -> nonul (p ++ old ++ r) -> nonul new ->
  sb_mem s = (Some <$> p ++ old ++ r) ++ Some 0 :: x ->
  strstr (p ++ old ++ r) old = Some (old ++ r) ->
  zlen new < 2 ^ 31 -> zlen (p ++ new ++ r) < sb_size s ->
  exists s', replace_match s old new (zlen (p ++ old ++ r)) (zlen new) (zlen old) = Ok (1, s') /\
    holds s' (p ++ new ++ r) /\ sb_end s' = zlen (p ++ new ++ r) /\
    sb_buf s' = sb_buf s /\ sb_size s' = sb_size s /\ sb_grown s' = sb_grown s.
Proof.
  intros (Hb & Hlen & Hs) Hn Hnew Hm Hst H31 Hfit.
  pose proof (zlen_nonneg p). pose proof (zlen_nonneg old). pose proof (zlen_nonneg new).
  pose proof (zlen_nonneg r). pose proof (zlen_nonneg x).
  unfold replace_match. rewrite Hm, mstr_app by done. bsimpl. rewrite Hst.
  replace (zlen (p ++ old ++ r) - zlen (old ++ r)) with (zlen p) by zlen.
  assert (Hn1 : zlen (p ++ old ++ r) - zlen p - zlen old + 1 = zlen r + 1) by zlen. rewrite Hn1.
  destruct (move_and_put (sb_mem s) p old r x new Hm) as (m1 & y & E1 & E2 & Hy); [lia|].
  rewrite <- Hm, E1. bsimpl. rewrite strncpy_field_exact, E2 by done. bsimpl.
  eexists. split; [done|]. cbn [sb_end sb_buf sb_size sb_grown].
  split; [|split; [zlen | done]].
  split; [|split].
  - split; [done|]. split; [|done]. cbn [sb_mem sb_size]. by rewrite Hy.
  - unfold nonul in *. rewrite !Forall_app in *. tauto.
  - by exists y.
Qed.

(** [end] before a replacement: the end of the string, or the length an earlier
    replacement left there. *)
Definition end_before (s : strbuf) (t : list Z) : Prop :=
  sb_end s = sb_buf s + zlen t \/ sb_end s = zlen t.
(** Blocks are above the first 64 KiB of the address space. *)
Definition high_blocks : Prop := forall n, 2 ^ 16 < realloc_at n < 2 ^ 48.

(** The test for room: when it is false the result fits. *)
Lemma replace_room s t (d : Z) :
  2 ^ 16 < sb_buf s < 2 ^ 48 -> sb_size s < 2 ^ 62 -> end_before s t ->
  0 <= zlen t + d < 2 ^ 16 - 1 -> (sb_size s <? u64 (sb_end s - sb_buf s + d + 1)) = false ->
  zlen t + d < sb_size s.
Proof.
  intros Hb Hs Hend Hlt E%Z.ltb_ge. pose proof (zlen_nonneg t). destruct Hend as [He|He]; rewrite He in E.
  - rewrite u64_small in E by lia. lia.
  - exfalso. unfold u64 in E. rewrite <- (Z.mod_add _ 1), Z.mod_small in E by lia. lia.
Qed.

Lemma strReplaceOne_ok s p old r new :
  high_blocks -> 2 ^ 16 < sb_buf s -> sb_size s < 2 ^ 62 ->
  holds s (p ++ old ++ r) -> end_before s (p ++ old ++ r) -> nonul new ->
  strstr (p ++ old ++ r) old = Some (old ++ r) ->
  zlen (p ++ old ++ r) < 2 ^ 16 -> zlen (p ++ new ++ r) < 2 ^ 16 - 1 -> zlen new - zlen old <= STRBUF_BLOCKSIZE ->
  exists s', strReplaceOne s old new = Ok (1, s') /\ holds s' (p ++ new ++ r) /\
    sb_end s' = zlen (p ++ new ++ r) /\ 2 ^ 16 < sb_buf s' /\ sb_size s' <= sb_size s + STRBUF_BLOCKSIZE.
Proof.
  intros Hre Hbuf H62 (Hok & Hn & x & Hm) Hend Hnew Hst Hlt Hlt' Hd. pose proof Hok as (Hb & Hsz & Hs).
  pose proof (zlen_nonneg p). pose proof (zlen_nonneg old). pose proof (zlen_nonneg new).
  pose proof (zlen_nonneg r). pose proof (zlen_nonneg x). unfold STRBUF_BLOCKSIZE in *.
  assert (Hin : zlen (p ++ old ++ r) < sb_size s) by (rewrite Hm in Hsz; zlen).
  unfold strReplaceOne. rewrite Hm, mstr_app by done. bsimpl. rewrite Hst.
  rewrite !s32_small by zlen.
  destruct (sb_size s <? _) eqn:E.
  - pose proof (Hre (sb_grown s)).
    destruct (grow_ok s Hok H62) as (Hok' & Hs' & Hm'); [lia|]. unfold STRBUF_BLOCKSIZE in *.
    destruct (replace_match_ok (grow s) p old r new (x ++ fresh_bytes 4096))
      as (s' & -> & Hh & He & Hb' & Hs'' & _); try done.
    + rewrite Hm', Hm, <- app_assoc. done.
    + zlen.
    + rewrite Hs'. zlen.
    + assert (Hgb : sb_buf (grow s) = realloc_at (sb_grown s)) by done.
      destruct (Z.eqb_spec (sb_buf (grow s)) 0); [lia|].
      exists s'. rewrite He, Hb', Hs'', Hgb, Hs'. split_and!; [done|done|done|lia|lia].
  - apply (replace_room s (p ++ old ++ r)) in E; [|zlen..|done|zlen].
    destruct (replace_match_ok s p old r new x) as (s' & -> & Hh & He & Hb' & Hs'' & _); try done.
    + zlen.
    + zlen.
    + exists s'. rewrite He, Hb', Hs''. split_and!; [done|done|done|lia|lia].
Qed.

(** The loop, from any buffer that holds a string. *)
Lemma strReplace_loop_ok old new :
  high_blocks -> unrelated old new -> nonul new -> zlen new - zlen old <= STRBUF_BLOCKSIZE ->
  forall n s t count fuel,
  2 ^ 16 < sb_buf s -> sb_size s + Z.of_nat n * STRBUF_BLOCKSIZE < 2 ^ 62 -> holds s t -> end_before s t ->
  occurrences old t = n -> zlen t + Z.of_nat n * zlen new < 2 ^ 16 - 1 -> (n < fuel)%nat ->
  exists s', strReplace_loop fuel s old new count = Ok (Some (count + Z.of_nat n, s')) /\ holds s' (gsub old new t) /\
    2 ^ 16 < sb_buf s' /\ sb_size s' < 2 ^ 62 /\
    (sb_end s = zlen t \/ (0 < n)%nat -> sb_end s' = zlen (gsub old new t)).
Proof.
  intros Hre Hun Hnew Hd. unfold STRBUF_BLOCKSIZE in *.
  induction n as [|n IH]; intros s t count fuel Hb Hsz Hh Hend Hocc Hlen Hfuel; (destruct fuel as [|fuel]; [lia|]);
    cbn [strReplace_loop].
  all: destruct Hh as (Hok & Hn & x & Hm); pose proof (zlen_nonneg old); pose proof (zlen_nonneg new).
  all: destruct (strstr t old) as [suf|] eqn:E.
  - exfalso. apply strstr_first in E as (p & r & -> & -> & Hp).
    destruct (gsub_step old new p r Hun Hp). lia.
  - unfold strReplaceOne. rewrite Hm, mstr_app by done. bsimpl. rewrite E. bsimpl. cbn [Z.eqb].
    destruct (strstr_none t old (proj1 Hun) E new) as [-> _].
    exists s. split; [do 3 f_equal; lia|].
    split; [split; [done|]; split; [done|]; by exists x|]. split; [done|]. split; [lia|]. intros [?|?]; [done|lia].
  - pose proof (strstr_first _ _ _ E) as (p & r & -> & -> & Hp).
    destruct (gsub_step old new p r Hun Hp) as [-> Ho].
    assert (zlen new * Z.of_nat (S n) = zlen new * Z.of_nat n + zlen new) by lia.
    pose proof (zlen_nonneg r). pose proof (zlen_nonneg p).
    destruct (strReplaceOne_ok s p old r new) as (s' & -> & Hh' & He' & Hb' & Hs'); try done; try (zlen; nia).
    { split; [done|]. split; [done|]. by exists x. }
    bsimpl. cbn [Z.eqb Z.ltb Z.compare].
    destruct (IH s' (p ++ new ++ r) (count + 1) fuel) as (s'' & -> & Hh'' & Hb'' & Hs'' & He''); try done; try lia.
    + unfold STRBUF_BLOCKSIZE in *. lia.
    + by right.
    + zlen; nia.
    + exists s''. split; [do 3 f_equal; lia|]. split_and!; [done|done|done|]. intros _. apply He''. by left.
  - exfalso. destruct (strstr_none t old (proj1 Hun) E new). lia.
Qed.

End strbuf.

(** A buffer from [strInit] is ready for appends. *)
Lemma strInit_written p : 0 < p < 2 ^ 48 -> written (strInit p) [].
Proof.
  intros Hp. unfold written, sb_ok, strInit. cbn [sb_buf sb_end sb_size sb_mem].
  destruct (Z.eqb_spec p 0); [lia|]. rewrite zlen_fresh by (unfold STRBUF_BLOCKSIZE; lia).
  change (zlen []) with 0. split_and!; try (unfold STRBUF_BLOCKSIZE; lia). by exists (fresh_bytes STRBUF_BLOCKSIZE).
Qed.
Lemma written_app_nul s t r : nonul t -> sb_mem s = (Some <$> t) ++ Some 0 :: r -> strGet s = Ok t.
Proof. intros Hn Hm. unfold strGet. rewrite Hm. by apply mstr_app. Qed.
Lemma holds_strGet s t : holds s t -> strGet s = Ok t.
Proof. intros (_ & Hn & r & Hr). by eapply written_app_nul. Qed.
Lemma nonul_concat l : Forall appendable l -> nonul (concat l).
Proof. induction 1 as [|u l [Hu _] _ IH]; cbn; [constructor|]. by apply Forall_app. Qed.

(** strings of at most a block each, appended to a fresh buffer that [realloc]
    grows in place, read back as their concatenation, however many blocks that
    takes. *)
Theorem strbuf_appends realloc_at p l :
  0 < p < 2 ^ 48 -> (forall n, realloc_at n = p) -> Forall appendable l -> l <> [] -> zlen (concat l) < 2 ^ 61 ->
  exists s, appends realloc_at (strInit p) l = Ok s /\ strGet s = Ok (concat l).
Proof.
  intros Hp Hre Hl Hne Hlen.
  destruct (appends_written realloc_at (strInit p) [] l) as (s & E & _ & _ & _ & Hm); try done.
  - by apply strInit_written.
  - destruct (Hm Hne) as [r Hr]. exists s. split; [done|]. eapply written_app_nul; [|done]. by apply nonul_concat.
Qed.
Lemma strbuf_appends_witness :
  exists s, appends (fun _ => 65536) (strInit 65536) [zrep 4000 97; zrep 4000 98; str "c"] = Ok s /\
    strGet s = Ok (concat [zrep 4000 97; zrep 4000 98; str "c"]).
Proof.
  assert (Hrep : forall b, b <> 0 -> appendable (zrep 4000 b)).
  { intros b Hb. split; [apply Forall_replicate; done|]. rewrite zlen_rep. unfold STRBUF_BLOCKSIZE. lia. }
  apply (strbuf_appends (fun _ => 65536) 65536 [zrep 4000 97; zrep 4000 98; str "c"]).
  - lia.
  - reflexivity.
  - apply Forall_cons. split; [apply Hrep; lia|]. apply Forall_cons. split; [apply Hrep; lia|].
    apply Forall_cons. split; [|apply Forall_nil; exact I].
    split; [vm_compute; repeat constructor; discriminate | vm_compute; discriminate].
  - discriminate.
  - cbn [concat]. rewrite !zlen_app, !zlen_rep. vm_compute. reflexivity.
Defined.

(** a string that does not fit makes [strAppend] grow the buffer by one block
    and write at the old [end].  Where [realloc] has moved the block, or the
    string is longer than the block that was added, the write is outside the
    buffer. *)
Theorem strAppend_overrun realloc_at s t u :
  written s t -> zlen u < 2 ^ 31 -> sb_size s < 2 ^ 62 -> sb_size s <= zlen t + zlen u ->
  let q := realloc_at (sb_grown s) in
  0 < q < 2 ^ 48 ->
  sb_end s < q \/ q + sb_size s + STRBUF_BLOCKSIZE <= sb_end s \/
  (q = sb_buf s /\ sb_size s + STRBUF_BLOCKSIZE <= zlen t + zlen u) ->
  strAppend realloc_at s u = UB.
Proof.
  intros (Hok & He & Ht & _) Hu H62 Hfull q Hq Hbad. pose proof Hok as (Hb & Hm & Hs).
  pose proof (zlen_nonneg t). pose proof (zlen_nonneg u). unfold STRBUF_BLOCKSIZE in *.
  destruct (grow_ok realloc_at s Hok H62 Hq) as ((_ & Hgm & _) & Hgs & _). unfold STRBUF_BLOCKSIZE in *.
  unfold strAppend. rewrite s32_small by lia. rewrite u64_small by lia.
  destruct (Z.ltb_spec (sb_size s) (sb_end s - sb_buf s + zlen u + 1)); [|lia].
  change (sb_buf (grow realloc_at s)) with q. destruct (Z.eqb_spec q 0); [lia|].
  unfold append_at_end. change (sb_buf (grow realloc_at s)) with q.
  change (sb_end (grow realloc_at s)) with (sb_end s).
  rewrite strncpy_field_nul by done. rewrite mwrite_out; [done|].
  rewrite zlen_fmap_some, zlen_app, Hgm, Hgs. change (zlen [0]) with 1. lia.
Qed.
Lemma strAppend_overrun_witness :
  strAppend (fun _ => 65536) (strInit 65536) (zrep 9000 97) = UB /\
  strAppend (fun _ => 262144) (strInit 65536) (zrep 5000 97) = UB.
Proof.
  split.
  - apply (strAppend_overrun (fun _ => 65536) (strInit 65536) [] (zrep 9000 97)); try done.
    + by apply strInit_written.
    + right. right. done.
  - apply (strAppend_overrun (fun _ => 262144) (strInit 65536) [] (zrep 5000 97)); try done.
    + by apply strInit_written.
    + by left.
Defined.

(** What a call of [strReplace] needs: a buffer as appends leave it, in which the
    result has room, and an [old] and a [new] that share no byte. *)
Record replace_pre (realloc_at : nat -> Z) (s : strbuf) (t old new : list Z) : Prop := {
  rp_blocks : high_blocks realloc_at;
  rp_buf : 2 ^ 16 < sb_buf s;
  rp_size : sb_size s < 2 ^ 48;
  rp_holds : holds s t;
  rp_end : sb_end s = sb_buf s + zlen t;
  rp_unrelated : unrelated old new;
  rp_new : nonul new;
  rp_growth : zlen new - zlen old <= STRBUF_BLOCKSIZE;
  rp_length : zlen t + Z.of_nat (occurrences old t) * zlen new < 2 ^ 16 - 1
}.

Lemma strReplace_ok realloc_at s t old new :
  replace_pre realloc_at s t old new ->
  exists s', strReplace realloc_at (S (occurrences old t)) s old new
      = Ok (Some (Z.of_nat (occurrences old t), s')) /\
    holds s' (gsub old new t) /\ 2 ^ 16 < sb_buf s' /\ sb_size s' < 2 ^ 62 /\
    ((0 < occurrences old t)%nat -> sb_end s' = zlen (gsub old new t)).
Proof.
  intros [Hre Hb Hs Hh He Hun Hn Hd Hlen].
  assert (1 <= zlen new).
  { destruct Hun as (_ & Hne & _). destruct new; [done|]. rewrite zlen_cons. pose proof (zlen_nonneg new). lia. }
  pose proof (zlen_nonneg t).
  destruct (strReplace_loop_ok realloc_at old new Hre Hun Hn Hd (occurrences old t) s t 0 (S (occurrences old t)))
    as (s' & E & Hh' & Hb' & Hs' & He'); try done.
  - unfold STRBUF_BLOCKSIZE. nia.
  - by left.
  - lia.
  - exists s'. split_and!; try done. intros. apply He'. by right.
Qed.

(** An append where [end] is a small number. *)
Lemma strAppend_low realloc_at s u :
  high_blocks realloc_at -> sb_ok s -> 2 ^ 16 < sb_buf s -> sb_size s < 2 ^ 62 ->
  0 <= sb_end s -> sb_end s + zlen u < 2 ^ 16 -> strAppend realloc_at s u = UB.
Proof.
  intros Hre (Hb & _) Hb' Hs He Hlt. pose proof (zlen_nonneg u). pose proof (Hre (sb_grown s)).
  unfold strAppend. rewrite s32_small by lia.
  destruct (Z.ltb_spec (sb_size s) (u64 (sb_end s - sb_buf s + zlen u + 1))) as [_|E].
  - change (sb_buf (grow realloc_at s)) with (realloc_at (sb_grown s)).
    destruct (Z.eqb_spec (realloc_at (sb_grown s)) 0); [lia|].
    unfold append_at_end. rewrite mwrite_out; [done|]. left. cbn [grow sb_end sb_buf]. lia.
  - exfalso. unfold u64 in E. rewrite <- (Z.mod_add _ 1), Z.mod_small in E by lia. lia.
Qed.

(** The command line of [main]'s own test of the substitution. *)
Definition test_line : list Z := str "event ${TEST} ${TEST} value ${TEST} ${TEST} value".
Definition test_strbuf : strbuf :=
  Strbuf 65537 (65537 + zlen test_line) STRBUF_BLOCKSIZE
    ((Some <$> test_line) ++ Some 0 :: fresh_bytes (STRBUF_BLOCKSIZE - 1 - zlen test_line)) 0.

Lemma test_replace_pre realloc_at :
  high_blocks realloc_at -> replace_pre realloc_at test_strbuf test_line (str "${TEST}") (str "test").
Proof.
  intros Hre. constructor; try done.
  - split; [|split].
    + split; [done|]. split; [|done]. vm_compute. reflexivity.
    + vm_compute. repeat constructor; discriminate.
    + eexists. reflexivity.
  - split; [done|]. split; [done|]. apply Forall_forall. apply (bool_decide_unpack _). vm_compute. exact I.
  - vm_compute. repeat constructor; discriminate.
Qed.

(** C39: [strReplace] substitutes: with a non-empty [old] and a non-empty [new]
    that share no byte, and a result that fits below 64 KiB and grows by at most
    a block at a time, the loop ends after one round more than there are
    occurrences, returns their number and leaves the string with each of them
    replaced, wherever [realloc] moves the block.  (With an [old] inside [new]
    it does not end, see [replace_never_ends].) *)
Theorem strReplace_gsub realloc_at s t old new :
  replace_pre realloc_at s t old new ->
  exists s', strReplace realloc_at (S (occurrences old t)) s old new
      = Ok (Some (Z.of_nat (occurrences old t), s')) /\
    strGet s' = Ok (gsub old new t).
Proof.
  intros H. destruct (strReplace_ok _ _ _ _ _ H) as (s' & E & Hh & _). eauto using holds_strGet.
Qed.
Lemma strReplace_gsub_witness :
  exists s', strReplace (fun n => 65537 + 65536 * Z.of_nat (n mod 2)) 5 test_strbuf (str "${TEST}") (str "test")
      = Ok (Some (4, s')) /\ strGet s' = Ok (str "event test test value test test value").
Proof.
  replace 5%nat with (S (occurrences (str "${TEST}") test_line)) by (vm_compute; reflexivity).
  replace 4 with (Z.of_nat (occurrences (str "${TEST}") test_line)) by (vm_compute; reflexivity).
  replace (str "event test test value test test value") with (gsub (str "${TEST}") (str "test") test_line)
    by (vm_compute; reflexivity).
  apply strReplace_gsub, test_replace_pre. intros n. pose proof (Nat.mod_upper_bound n 2). lia.
Defined.

(** What is put in is looked through again: a hundred rounds do not end the
    replacement of TEST by xTEST. *)
Example replace_never_ends :
  strReplace (fun n => 65537 + 65536 * Z.of_nat (n mod 2)) 100 test_strbuf (str "TEST") (str "xTEST") = Ok None.
Proof. vm_compute. reflexivity. Qed.

(** a replacement leaves a length in [end], where [strAppend] expects an
    address: the next append writes at that number, outside every block. *)
Theorem strReplace_then_append realloc_at s t old new u :
  replace_pre realloc_at s t old new ->
  (0 < occurrences old t)%nat -> zlen (gsub old new t) + zlen u < 2 ^ 16 ->
  exists s', strReplace realloc_at (S (occurrences old t)) s old new
      = Ok (Some (Z.of_nat (occurrences old t), s')) /\
    strAppend realloc_at s' u = UB.
Proof.
  intros H Hocc Hu. destruct (strReplace_ok _ _ _ _ _ H) as (s' & E & (Hok & _) & Hb & Hs & He).
  exists s'. split; [done|]. apply strAppend_low; try done; rewrite ?He by done.
  - apply H.
  - apply zlen_nonneg.
  - done.
Qed.
Lemma strReplace_then_append_witness :
  exists s', strReplace (fun _ => 131072) 5 test_strbuf (str "${TEST}") (str "test") = Ok (Some (4, s')) /\
    strAppend (fun _ => 131072) s' (str "x") = UB.
Proof.
  replace 5%nat with (S (occurrences (str "${TEST}") test_line)) by (vm_compute; reflexivity).
  replace 4 with (Z.of_nat (occurrences (str "${TEST}") test_line)) by (vm_compute; reflexivity).
  apply strReplace_then_append.
  - apply test_replace_pre. intros n. lia.
  - vm_compute. lia.
  - vm_compute. reflexivity.
Defined.
