(* ===== verification/ConfRegex.v ===== *)
(** * Replacing by regular expressions (target/sbin/conf/conf_strbuf.c)

    [regreplace] and [regreplace_single], on the block that holds the text and the block
    that holds the replacement, which both are rewritten in place.  [regexec] is a
    parameter: the places of the match and of its groups in a string. *)

From S2P Require Import Prelude CLib ConfStrbuf.

(** A read of [n] bytes, all of them initialised. *)
Definition mread (o n : Z) (m : mem) : outcome (list Z) :=
  if (0 <=? o) && (0 <=? n) && (o + n <=? zlen m) then match mapM id (slice o n m) with Some l => Ok l | None => UB end else UB.
(** The string at [o]. *)
Definition mstr_at (o : Z) (m : mem) : outcome (list Z) := if 0 <=? o then mstr (zdrop o m) else UB.
Definition DOLLAR : Z := 36.

Section Regex.
Context (regexec : list Z -> option (list (Z * Z))).

(** [pmatch[i]]. *)
Definition pmatch (pm : list (Z * Z)) (i : nat) : Z * Z := nth i pm (-1, -1).
(** The loop over [replace]: what the groups matched is put in the place of [$1] to [$9].
    On the left the block, on the right what is returned at once. *)
Fixpoint expand (fuel : nat) (pos : Z) (replace buf : mem) (pm : list (Z * Z)) (size repllen : Z) : outcome (option (mem + Z)) :=
  match fuel with
  | O => Ok None
  | S fuel' =>
      c ← mread pos 1 replace;
      if znth c 0 =? 0 then Ok (Some (inl replace)) else
      d ← (if znth c 0 =? DOLLAR then mread (pos + 1) 1 replace else Ok [0]);
      if (48 <? znth d 0) && (znth d 0 <=? 57) then
        let '(so, eo) := pmatch pm (Z.to_nat (znth d 0 - 48)) in
        let n := eo - so in
        if (so <? 0) || (size <? repllen + n - 1) then Ok (Some (inr 1)) else
        s ← mstr_at pos replace;
        replace ← mmove (pos + n) (pos + 2) (zlen s - 1) replace;
        group ← mread so n buf;
        replace ← mwrite pos (Some <$> group) replace;
        expand fuel' (pos + n - 2 + 1) replace buf pm size repllen
      else expand fuel' (pos + 1) replace buf pm size repllen
  end.
(** The loop over the matches. *)
Fixpoint substitute (fuel : nat) (pos : Z) (replace buf : mem) (size repllen sub : Z) : outcome (option (Z * mem)) :=
  match fuel with
  | O => Ok None
  | S fuel' =>
      s ← mstr_at pos buf;
      match regexec s with
      | None => Ok (Some (0, buf))
      | Some pm =>
          let '(so, eo) := pmatch pm 0 in
          let n := eo - so in
          let pos := pos + so in
          whole ← mstr buf;
          if u64 size <? u64 (zlen whole - n + repllen + 1) then Ok (Some (1, buf)) else
          s ← mstr_at pos buf;
          buf ← mmove (pos + repllen) (pos + n) (zlen s - n + 1) buf;
          r ← mread 0 repllen replace;
          buf ← mwrite pos (Some <$> r) buf;
          if 0 <=? sub then Ok (Some (0, buf)) else substitute fuel' (pos + repllen) replace buf size repllen sub
      end
  end.
(** What is returned, and both blocks. *)
Definition regreplace (fuel : nat) (buf : mem) (size : Z) (replace : mem) : outcome (option (Z * mem * mem)) :=
  r ← mstr replace;
  let repllen := s32 (zlen r) in
  s ← mstr buf;
  match regexec s with
  | None => Ok (Some (0, buf, replace))
  | Some pm =>
      e ← expand fuel 0 replace buf pm size repllen;
      match e with
      | None => Ok None
      | Some (inr ret) => Ok (Some (ret, buf, replace))
      | Some (inl replace) =>
          x ← substitute fuel 0 replace buf size repllen (fst (pmatch pm 1));
          match x with Some (ret, buf) => Ok (Some (ret, buf, replace)) | None => Ok None end
      end
  end.
End Regex.
(** The expression is compiled first; the size that is passed on is not the caller's. *)
Definition regreplace_single (regcomp : list Z -> option (list Z -> option (list (Z * Z)))) (fuel : nat) (string : mem) (size : Z)
    (regex : list Z) (replace : mem) : outcome (option (Z * mem * mem)) :=
  match regcomp regex with
  | None => Ok (Some (0, string, replace))
  | Some re => regreplace re fuel string 1024 replace
  end.

(** ** What is meant *)

(** The text with matches replaced from the left, each search beginning behind the last
    replacement; with groups in the expression the first match only.  When a result would
    not fit into [size], what is done so far stays, and 1 is returned. *)
Fixpoint replaced (fuel : nat) (regexec : list Z -> option (list (Z * Z))) (r : list Z) (size sub : Z) (done todo : list Z) : Z * list Z :=
  match fuel with
  | O => (0, done ++ todo)
  | S fuel' =>
      match regexec todo with
      | None => (0, done ++ todo)
      | Some pm =>
          let '(so, eo) := pmatch pm 0 in
          let before := done ++ ztake so todo in
          if size <? zlen (before ++ r ++ zdrop eo todo) + 1 then (1, done ++ todo)
          else if 0 <=? sub then (0, before ++ r ++ zdrop eo todo)
          else replaced fuel' regexec r size sub (before ++ r) (zdrop eo todo)
      end
  end.
(** Matches are in the string, and not empty. *)
Definition matcher (regexec : list Z -> option (list (Z * Z))) : Prop :=
  forall s pm, regexec s = Some pm -> 0 <= fst (pmatch pm 0) < snd (pmatch pm 0) /\ snd (pmatch pm 0) <= zlen s.
(** A block with a string. *)
Definition block_of (t : list Z) (n : Z) (m : mem) : Prop := nonul t /\ zlen m = n /\ exists x, m = (Some <$> t) ++ Some 0 :: x.

Lemma mapM_some (l : list Z) : mapM id (Some <$> l) = Some l.
Proof. induction l as [|b l IH]; [done|]. cbn. by rewrite IH. Qed.
Lemma mread_at p d x m o n : m = (Some <$> p ++ d) ++ x -> o = zlen p -> n = zlen d -> mread o n m = Ok d.
Proof.
  intros -> -> ->. pose proof (zlen_nonneg p). pose proof (zlen_nonneg d). pose proof (zlen_nonneg x). unfold mread.
  rewrite (proj2 (Z.leb_le 0 (zlen p))), (proj2 (Z.leb_le 0 (zlen d))), (proj2 (Z.leb_le _ (zlen _))) by zlen. cbn [andb].
  rewrite (slice_at (Some <$> p) (Some <$> d) x) by (zlen || by rewrite fmap_app, <- app_assoc). by rewrite mapM_some.
Qed.
Lemma mstr_at_mid p t n m : block_of (p ++ t) n m -> mstr_at (zlen p) m = Ok t.
Proof.
  intros (Hn & _ & x & ->). pose proof (zlen_nonneg p). unfold mstr_at. rewrite (proj2 (Z.leb_le _ _)) by done.
  rewrite fmap_app, <- app_assoc. replace (zlen p) with (zlen (Some <$> p)) by zlen. rewrite zdrop_app_length.
  apply Forall_app in Hn as [_ Hn]. by apply mstr_app.
Qed.

Section Plain.
Context (regexec : list Z -> option (list (Z * Z))) (r : list Z) (size cap : Z) (replace : mem).
Context (Hmatch : matcher regexec) (Hsize : 0 <= size <= cap) (Hcap : cap < 2 ^ 31).
Context (Hr : block_of r (zlen replace) replace) (Hplain : Forall (fun c => c <> DOLLAR) r) (Hr31 : zlen r < 2 ^ 31).

(** A template without references stays as it is. *)
Lemma expand_plain buf pm repllen l : forall fuel p, r = p ++ l -> (length l < fuel)%nat ->
  expand fuel (zlen p) replace buf pm size repllen = Ok (Some (inl replace)).
Proof.
  destruct Hr as (Hn & _ & x & Hx). induction l as [|c l IH]; intros fuel p E Hf; (destruct fuel as [|fuel]; [cbn [length] in Hf; lia|]); cbn [expand].
  - rewrite app_nil_r in E. subst p. rewrite (mread_at r [0] x replace (zlen r) 1); [done| |done|done].
    by rewrite Hx, fmap_app, <- app_assoc.
  - rewrite (mread_at p [c] ((Some <$> l) ++ Some 0 :: x) replace (zlen p) 1); [|by rewrite Hx, E, !fmap_app, <- !app_assoc|done|done]. bsimpl.
    change (znth [c] 0) with c. rewrite E in Hn, Hplain. apply Forall_app in Hn as [_ [Hc _]%Forall_cons]. apply Forall_app in Hplain as [_ [Hd _]%Forall_cons].
    rewrite (proj2 (Z.eqb_neq _ _) Hc), (proj2 (Z.eqb_neq _ _) Hd). bsimpl. change (znth [0] 0) with 0. cbn [Z.ltb Z.compare andb].
    replace (zlen p + 1) with (zlen (p ++ [c])) by zlen. apply IH; [by rewrite E, <- app_assoc | cbn [length] in Hf; lia].
Qed.
Lemma substitute_spec sub fuel : forall done todo buf, block_of (done ++ todo) cap buf -> (length todo < fuel)%nat ->
  exists buf', substitute regexec fuel (zlen done) replace buf size (zlen r) sub = Ok (Some (fst (replaced fuel regexec r size sub done todo), buf')) /\
    block_of (snd (replaced fuel regexec r size sub done todo)) cap buf'.
Proof.
  induction fuel as [|fuel IH]; intros done todo buf Hb Hf; [lia|]. pose proof Hb as (Hn & Hz & x & Hx). cbn [substitute replaced].
  rewrite (mstr_at_mid done todo cap buf Hb). bsimpl. destruct (regexec todo) as [pm|] eqn:Em; [|by exists buf].
  pose proof (Hmatch _ _ Em) as [Hs He]. destruct (pmatch pm 0) as [so eo]. cbn [fst snd] in Hs, He.
  assert (exists a b c, todo = a ++ b ++ c /\ zlen a = so /\ zlen b = eo - so /\ ztake so todo = a /\ zdrop eo todo = c) as (a & b & c & Et & Ha & Hbl & E1 & E2).
  { exists (ztake so todo), (slice so (eo - so) todo), (zdrop eo todo). split_and!; [|zlen|unfold slice; zlen|done|done].
    rewrite <- (ztake_drop so todo) at 1. f_equal. unfold slice. rewrite <- (ztake_drop (eo - so) (zdrop so todo)) at 1. f_equal.
    unfold zdrop. rewrite drop_drop. f_equal. lia. }
  rewrite E1, E2. rewrite Hx, mstr_app by done. bsimpl. rewrite <- Hx.
  assert (zlen (done ++ todo) < cap) as Hl by (rewrite <- Hz, Hx; pose proof (zlen_nonneg x); zlen).
  pose proof (zlen_nonneg a). pose proof (zlen_nonneg c). pose proof (zlen_nonneg done). pose proof (zlen_nonneg r).
  subst todo. assert (zlen (done ++ a ++ b ++ c) - (eo - so) + zlen r + 1 = zlen ((done ++ a) ++ r ++ c) + 1) as -> by zlen.
  rewrite !u64_small by zlen. destruct (Z.ltb_spec size (zlen ((done ++ a) ++ r ++ c) + 1)) as [|Hfit]; [by exists buf|].
  replace (zlen done + so) with (zlen (done ++ a)) by zlen.
  rewrite (mstr_at_mid (done ++ a) (b ++ c) cap buf) by (by rewrite <- !app_assoc). bsimpl.
  destruct (move_and_put buf (done ++ a) b c x r) as (m1 & y & M1 & M2 & M3); [by rewrite Hx, <- !app_assoc | lia|].
  replace (zlen (b ++ c) - (eo - so) + 1) with (zlen c + 1) by zlen. rewrite <- Hbl, M1. bsimpl.
  destruct Hr as (Hrn & _ & z & Hrx). rewrite (mread_at [] r (Some 0 :: z) replace) by done. bsimpl. rewrite M2. bsimpl.
  assert (block_of ((done ++ a) ++ r ++ c) cap ((Some <$> (done ++ a) ++ r ++ c) ++ Some 0 :: y)) as Hb'.
  { split; [|split; [by rewrite M3 | by exists y]]. unfold nonul in *. rewrite !Forall_app in *. tauto. }
  destruct (0 <=? sub); [by eexists|]. replace (zlen (done ++ a) + zlen r) with (zlen ((done ++ a) ++ r)) by zlen.
  apply IH; [by rewrite <- app_assoc|]. rewrite !length_app in Hf. unfold zlen in *. lia.
Qed.
End Plain.

(** With a template that has no references, regreplace replaces every match from the left,
    or the first one only when the expression has groups, as long as the result fits; the
    loop ends, since every match takes something away from what is left. *)
Theorem regreplace_replaces regexec r t size buf replace : matcher regexec -> 0 <= size <= zlen buf -> zlen buf < 2 ^ 31 ->
  block_of r (zlen replace) replace -> Forall (fun c => c <> DOLLAR) r -> zlen r < 2 ^ 31 -> block_of t (zlen buf) buf ->
  let fuel := S (Nat.max (length t) (length r)) in
  let sub := match regexec t with Some pm => fst (pmatch pm 1) | None => -1 end in
  exists buf', regreplace regexec fuel buf size replace = Ok (Some (fst (replaced fuel regexec r size sub [] t), buf', replace)) /\
    block_of (snd (replaced fuel regexec r size sub [] t)) (zlen buf) buf'.
Proof.
  intros Hm Hs Hc Hr Hp Hr31 Ht. cbv zeta. set (fuel := S _). pose proof Hr as (Hrn & _ & x & Hrx). pose proof Ht as (Htn & _ & y & Hty).
  unfold regreplace. assert (mstr replace = Ok r) as -> by (rewrite Hrx; by apply mstr_app). assert (mstr buf = Ok t) as -> by (rewrite Hty; by apply mstr_app).
  bsimpl. pose proof (zlen_nonneg r). rewrite s32_small by lia.
  destruct (regexec t) as [pm|] eqn:Em.
  - pose proof (expand_plain r size replace Hr Hp buf pm (zlen r) r fuel [] eq_refl ltac:(unfold fuel; lia)) as X. change (zlen []) with 0 in X.
    rewrite X. bsimpl. clear X.
    destruct (substitute_spec regexec r size (zlen buf) replace Hm Hs Hc Hr Hr31 (fst (pmatch pm 1)) fuel [] t buf Ht) as (buf' & E & B); [unfold fuel; lia|].
    change (zlen []) with 0 in E. rewrite E. bsimpl. by exists buf'.
  - exists buf. unfold fuel. cbn [replaced]. rewrite Em. done.
Qed.

(** ** Templates with references *)

(** An expression like (b+) on letters: the first run of b, as the match and as its group. *)
Definition run_of_b (s : list Z) : option (list (Z * Z)) :=
  let a := take_while (fun c => negb (c =? 98)) s in
  let b := take_while (fun c => c =? 98) (zdrop (zlen a) s) in
  if zlen b =? 0 then None else Some [(zlen a, zlen a + zlen b); (zlen a, zlen a + zlen b)].
Definition string_block (t : list Z) (n : Z) : mem := (Some <$> t) ++ Some 0 :: fresh_bytes (n - zlen t - 1).
(** [repllen] is not brought up to date: of [<$1>] with a group of three characters only four
    of the five get into the text; and a group that is empty moves back in front of the
    template. *)
Example regreplace_cuts :
  match regreplace run_of_b 20 (string_block (str "abbbc") 64) 64 (string_block (str "<$1>") 16) with
  | Ok (Some (ret, buf, replace)) => ret = 0 /\ mstr replace = Ok (str "<bbb>") /\ mstr buf = Ok (str "a<bbbc")
  | _ => False
  end.
Proof. by vm_compute. Qed.
Example regreplace_empty_group :
  regreplace (fun s => if bool_decide (s = []) then None else Some [(0, 1); (0, 0)]) 20 (string_block (str "x") 64) 64 (string_block (str "$1") 16) = UB.
Proof. by vm_compute. Qed.
(** The size is taken to be 1024 whatever the block has. *)
Example regreplace_single_overruns :
  regreplace_single (fun _ => Some (fun s => if bool_decide (s = str "x") then Some [(0, 1)] else None)) 20 (string_block (str "x") 4) 4 (str "x")
    (string_block (str "yyyyyy") 8) = UB.
Proof. by vm_compute. Qed.
