(* ===== verification/CFormat.v ===== *)
(** * Numbers printed by [printf]

    The conversions [%d] and [%08x] on the integers the programs pass, and the
    digits read back. *)

From S2P Require Import Prelude CLib.

Definition digit_char (d : Z) : Z := if d <? 10 then 48 + d else 87 + d.

(** The digits of [v], at most [k], without leading zeros, before [acc]. *)
Fixpoint print_digits (k : nat) (base v : Z) (acc : list Z) : list Z :=
  match k with
  | O => acc
  | S k =>
      let acc := digit_char (v mod base) :: acc in
      if v / base =? 0 then acc else print_digits k base (v / base) acc
  end.
(** [%d] on an [int]: ten digits are enough. *)
Definition print_d (v : Z) : list Z :=
  if v <? 0 then 45 :: print_digits 10 10 (- v) [] else print_digits 10 10 v [].
(** [%08x] on an [unsigned int]. *)
Definition print_08x (v : Z) : list Z :=
  let d := print_digits 8 16 v [] in zrep (8 - zlen d) 48 ++ d.

Example print_d_neg : print_d (-2147483648) = str "-2147483648".
Proof. vm_compute. reflexivity. Qed.
Example print_08x_mask : print_08x 4294967040 = str "ffffff00".
Proof. vm_compute. reflexivity. Qed.

(** The digits of [v] are read back, whatever stops the reader after them. *)
Lemma digit_char_of base d : 0 <= d < base -> base <= 16 -> digit_of base (digit_char d) = Some d.
Proof.
  intros Hd Hb. unfold digit_of, digit_char, isdigit. destruct (Z.ltb_spec d 10).
  - rewrite (proj2 (Z.leb_le 48 (48 + d))), (proj2 (Z.leb_le (48 + d) 57)) by lia. cbn [andb].
    rewrite (proj2 (Z.ltb_lt (48 + d - 48) base)) by lia. f_equal. lia.
  - assert (Ht : tolower (87 + d) = 87 + d).
    { unfold tolower. rewrite (proj2 (Z.leb_gt (87 + d) 90)) by lia. by rewrite andb_false_r. }
    rewrite Ht, (proj2 (Z.leb_gt (87 + d) 57)), andb_false_r by lia.
    rewrite (proj2 (Z.leb_le 97 (87 + d))), (proj2 (Z.leb_le (87 + d) 122)) by lia. cbn [andb].
    rewrite (proj2 (Z.ltb_lt (87 + d - 87) base)) by lia. f_equal. lia.
Qed.

Lemma print_digits_read base : 2 <= base <= 16 -> forall k v acc a any,
  0 <= v < base ^ Z.of_nat k -> (0 < k)%nat ->
  exists n, 0 <= n /\ (v <> 0 -> base ^ n <= v) /\
    digits base (print_digits k base v acc) a any = digits base acc (a * base ^ (n + 1) + v) true.
Proof.
  intros Hb. induction k as [|k IH]; intros v acc a any Hv Hk; [lia|]. cbn [print_digits].
  pose proof (Z.mod_pos_bound v base ltac:(lia)) as Hm. pose proof (Z.div_mod v base ltac:(lia)) as Hdm.
  destruct (Z.eqb_spec (v / base) 0) as [E|E].
  - exists 0. split; [lia|]. split; [intros; rewrite Z.pow_0_r; lia|].
    cbn [digits]. rewrite digit_char_of by lia. rewrite Z.add_0_l, Z.pow_1_r. f_equal. rewrite E in Hdm. lia.
  - assert (Hq : 0 <= v / base < base ^ Z.of_nat k).
    { split; [apply Z.div_pos; lia|]. apply Z.div_lt_upper_bound; [lia|].
      rewrite <- Z.pow_succ_r by lia. rewrite <- Nat2Z.inj_succ. lia. }
    destruct k as [|k]; [cbn in Hq; lia|].
    destruct (IH (v / base) (digit_char (v mod base) :: acc) a any Hq ltac:(lia)) as (n & Hn & Hle & ->).
    exists (n + 1). split; [lia|]. split.
    + intros _. rewrite Z.pow_add_r, Z.pow_1_r by lia. specialize (Hle E). nia.
    + cbn [digits]. rewrite digit_char_of by lia. f_equal.
      rewrite (Z.pow_add_r base (n + 1) 1), Z.pow_1_r by lia. lia.
Qed.

Lemma print_digits_length base k : forall v acc, zlen (print_digits k base v acc) <= zlen acc + Z.of_nat k.
Proof.
  induction k as [|k IH]; intros v acc; cbn [print_digits]; [lia|].
  destruct (_ =? _); [rewrite zlen_cons; lia|]. specialize (IH (v / base) (digit_char (v mod base) :: acc)).
  rewrite zlen_cons in IH. lia.
Qed.
Lemma print_d_length v : 0 <= v -> zlen (print_d v) <= 10.
Proof.
  intros Hv. unfold print_d. destruct (Z.ltb_spec v 0); [lia|].
  pose proof (print_digits_length 10 10 v []). change (zlen []) with 0 in *. lia.
Qed.

(** What [%d] prints, [strtoul] reads in base 10. *)
Lemma print_digits_nonul k base v acc : 2 <= base <= 16 -> nonul acc -> nonul (print_digits k base v acc).
Proof.
  intros Hb. revert v acc. induction k as [|k IH]; intros v acc Ha; cbn [print_digits]; [done|].
  assert (nonul (digit_char (v mod base) :: acc)).
  { constructor; [|done]. unfold digit_char. pose proof (Z.mod_pos_bound v base ltac:(lia)).
    destruct (_ <? _); lia. }
  destruct (_ =? _); auto.
Qed.
