(* ===== verification/ConfNode.v ===== *)
(** * The configuration tree of sbin/conf (conf_node.c, conf_node.h)

    Nodes and attributes are heap cells of one C type, linked by the pointers
    [firstAttr], [parent], [prev], [next] and [firstChild].  The heap is a list of
    cells, an address is an index of it and a freed cell is [None]; [malloc]
    extends the list, so addresses are never reused.  The operations follow
    conf_node.c, with fuel for the loops along [next] and for the recursions.

    [tree] is the tree such a heap stands for, labelled with the addresses of its
    cells, and [rep] says that a heap holds it. *)

From S2P Require Import Prelude CLib.
From stdpp Require Import sets.
#[local] Open Scope Z_scope.

(** ** Cells *)

Definition NODE_TYPE_NODE : Z := 1.
Definition NODE_TYPE_ATTRBUTE : Z := 2.

(** A [const char *] kept in a cell: a string from [strdup], which the cell owns, or
    a pointer the caller lent ([applyAttr] keeps its argument). *)
Inductive strval : Type :=
| Own (s : list Z)
| Lent (s : list Z).

(** A pointer to a cell; [None] is NULL. *)
Abbreviation ptr := (option nat).

Record node : Type := Node {
  n_type : Z;
  n_name : list Z;
  n_value : option strval;
  n_desc : option (list Z);
  n_firstAttr : ptr;
  n_parent : ptr;
  n_prev : ptr;
  n_next : ptr;
  n_firstChild : ptr
}.

Abbreviation heap := (list (option node)).

#[global] Instance strval_eq_dec : EqDecision strval.
Proof. solve_decision. Defined.
#[global] Instance node_eq_dec : EqDecision node.
Proof. solve_decision. Defined.

(** Stores to one field of a cell. *)
Definition with_value (v : option strval) (n : node) : node :=
  Node (n_type n) (n_name n) v (n_desc n) (n_firstAttr n) (n_parent n) (n_prev n) (n_next n) (n_firstChild n).
Definition with_desc (d : option (list Z)) (n : node) : node :=
  Node (n_type n) (n_name n) (n_value n) d (n_firstAttr n) (n_parent n) (n_prev n) (n_next n) (n_firstChild n).
Definition with_type (ty : Z) (n : node) : node :=
  Node ty (n_name n) (n_value n) (n_desc n) (n_firstAttr n) (n_parent n) (n_prev n) (n_next n) (n_firstChild n).
Definition with_firstAttr (p : ptr) (n : node) : node :=
  Node (n_type n) (n_name n) (n_value n) (n_desc n) p (n_parent n) (n_prev n) (n_next n) (n_firstChild n).
Definition with_parent (p : ptr) (n : node) : node :=
  Node (n_type n) (n_name n) (n_value n) (n_desc n) (n_firstAttr n) p (n_prev n) (n_next n) (n_firstChild n).
Definition with_prev (p : ptr) (n : node) : node :=
  Node (n_type n) (n_name n) (n_value n) (n_desc n) (n_firstAttr n) (n_parent n) p (n_next n) (n_firstChild n).
Definition with_next (p : ptr) (n : node) : node :=
  Node (n_type n) (n_name n) (n_value n) (n_desc n) (n_firstAttr n) (n_parent n) (n_prev n) p (n_firstChild n).
Definition with_firstChild (p : ptr) (n : node) : node :=
  Node (n_type n) (n_name n) (n_value n) (n_desc n) (n_firstAttr n) (n_parent n) (n_prev n) (n_next n) p.

(** Reads and writes of a cell: undefined unless it is live. *)
Definition load (h : heap) (a : nat) : run node :=
  match h !! a with Some (Some n) => Ret n | _ => Undef end.
Definition modify (a : nat) (f : node -> node) (h : heap) : run heap :=
  n ← load h a; Ret (<[a := Some (f n)]> h).
Definition malloc (n : node) (h : heap) : nat * heap := (length h, h ++ [Some n]).

(** ** Creating cells *)

(** [bzero], [strdup (name)], [firstAttr] and the type. *)
Definition newNode (h : heap) (name : option (list Z)) (firstAttr : ptr) : ptr * heap :=
  match name with
  | None => (None, h)
  | Some name =>
      let '(a, h) := malloc (Node NODE_TYPE_NODE name None None firstAttr None None None None) h in
      (Some a, h)
  end.

(** Dereference of a pointer just computed. *)
Definition deref (p : ptr) : run nat := match p with Some a => Ret a | None => Undef end.

(** [if (node->desc)] tests the field [newNode] has just cleared. *)
Definition newNodeNVD (h : heap) (name : option (list Z)) (value : list Z) (desc : list Z) : run (ptr * heap) :=
  let '(p, h) := newNode h name None in
  a ← deref p;
  h ← modify a (with_value (Some (Own value))) h;
  n ← load h a;
  match n_desc n with
  | Some _ => h ← modify a (with_desc (Some desc)) h; Ret (p, h)
  | None => Ret (p, h)
  end.

Definition newNodeDescr (h : heap) (name desc : option (list Z)) (firstAttr : ptr) : run (ptr * heap) :=
  match name, desc with
  | Some _, Some d =>
      let '(p, h) := newNode h name firstAttr in
      a ← deref p;
      h ← modify a (with_desc (Some d)) h;
      Ret (p, h)
  | _, _ => Ret (None, h)
  end.

Definition newAttr (h : heap) (name : option (list Z)) (value : option (list Z)) : run (ptr * heap) :=
  match name with
  | None => Ret (None, h)
  | Some _ =>
      let '(p, h) := newNode h name None in
      a ← deref p;
      h ← modify a (with_type NODE_TYPE_ATTRBUTE) h;
      match value with
      | Some v => h ← modify a (with_value (Some (Own v))) h; Ret (p, h)
      | None => Ret (p, h)
      end
  end.

(** ** Siblings *)

(** [for (node = p; node; node = node->next) if (f (node)) return node] *)
Fixpoint find_sibling (fuel : nat) (h : heap) (p : ptr) (f : node -> bool) : run ptr :=
  match p with
  | None => Ret None
  | Some a =>
      match fuel with
      | O => NoFuel
      | S fuel => n ← load h a; if f n then Ret (Some a) else find_sibling fuel h (n_next n) f
      end
  end.
(** The last cell of a non-empty list. *)
Fixpoint last_sibling (fuel : nat) (h : heap) (a : nat) : run nat :=
  match fuel with
  | O => NoFuel
  | S fuel =>
      n ← load h a;
      match n_next n with None => Ret a | Some b => last_sibling fuel h b end
  end.

Definition named (name : list Z) (n : node) : bool := streq (n_name n) name.

Definition appendChild (fuel : nat) (h : heap) (parent : nat) (new : ptr) : run (ptr * heap) :=
  p ← load h parent;
  match n_firstChild p with
  | None =>
      h ← modify parent (with_firstChild new) h;
      a ← deref new;
      h ← modify a (with_parent (Some parent)) h;
      Ret (new, h)
  | Some c =>
      l ← last_sibling fuel h c;
      h ← modify l (with_next new) h;
      a ← deref new;
      h ← modify a (with_parent (Some parent)) h;
      h ← modify a (with_prev (Some l)) h;
      Ret (new, h)
  end.

Definition appendNewChild (fuel : nat) (h : heap) (parent : nat) (name : option (list Z)) (firstAttr : ptr)
  : run (ptr * heap) :=
  let '(new, h) := newNode h name firstAttr in appendChild fuel h parent new.

Definition appendNewChildDescr (fuel : nat) (h : heap) (parent : nat) (name : option (list Z)) (desc : list Z)
    (firstAttr : ptr) : run (ptr * heap) :=
  r ← appendNewChild fuel h parent name firstAttr;
  let '(new, h) := r in
  a ← deref new;
  h ← modify a (with_desc (Some desc)) h;
  Ret (new, h).

Definition applyNode (fuel : nat) (h : heap) (parent : ptr) (name : list Z) : run (ptr * heap) :=
  match parent with
  | None => Ret (None, h)
  | Some parent =>
      p ← load h parent;
      m ← find_sibling fuel h (n_firstChild p) (named name);
      match m with
      | Some a => Ret (Some a, h)
      | None =>
          let '(new, h) := newNode h (Some name) None in
          r ← appendChild fuel h parent new;
          Ret (new, r.2)
      end
  end.

(** ** Attributes *)

Definition nodeSetAttr (h : heap) (a : nat) (attr : ptr) : run heap := modify a (with_firstAttr attr) h.
Definition nodeGetAttrs (h : heap) (a : nat) : run ptr := n ← load h a; Ret (n_firstAttr n).

(** The value of the first attribute of that name; NULL when there is none. *)
Definition nodeGetAttr (fuel : nat) (h : heap) (a : nat) (name : list Z) : run (option strval) :=
  p ← nodeGetAttrs h a;
  m ← find_sibling fuel h p (named name);
  match m with
  | Some b => n ← load h b; Ret (n_value n)
  | None => Ret None
  end.

Definition addAttr (h : heap) (p new : ptr) : run (ptr * heap) :=
  match p, new with
  | Some a, Some b =>
      n ← load h a;
      let topAttr := n_firstAttr n in
      h ← modify a (with_firstAttr (Some b)) h;
      h ← modify b (with_next topAttr) h;
      match topAttr with
      | Some t => h ← modify t (with_prev (Some b)) h; Ret (Some a, h)
      | None => Ret (Some a, h)
      end
  | _, _ => Ret (None, h)
  end.

(** [free (value)]: undefined on a string the cell does not own. *)
Definition free_value (v : option strval) : run unit :=
  match v with Some (Lent _) => Undef | _ => Ret tt end.

(** The value of a matched attribute becomes the caller's pointer itself; a new
    attribute gets a copy. *)
Definition applyAttr (fuel : nat) (h : heap) (parent : ptr) (name value : list Z) : run heap :=
  match parent with
  | None => Ret h
  | Some a =>
      p ← nodeGetAttrs h a;
      m ← find_sibling fuel h p (named name);
      match m with
      | Some b =>
          n ← load h b;
          _ ← free_value (n_value n);
          modify b (with_value (Some (Lent value))) h
      | None =>
          r ← newAttr h (Some name) (Some value);
          let '(new, h) := r in
          r ← addAttr h (Some a) new;
          Ret r.2
      end
  end.

(** The string behind a value the code reads: a NULL or a pointer that was only lent
    must not be read. *)
Definition read_value (v : option strval) : run (list Z) :=
  match v with Some (Own s) => Ret s | _ => Undef end.

(** The count of attributes of that name, and of that value unless NULL, case
    ignored. *)
Fixpoint count_attrs (fuel : nat) (h : heap) (p : ptr) (attrName : list Z) (attrValue : option (list Z)) (ret : Z)
  : run Z :=
  match p with
  | None => Ret ret
  | Some a =>
      match fuel with
      | O => NoFuel
      | S fuel =>
          n ← load h a;
          ret ← (if strcaseeq (n_name n) attrName then
                   match attrValue with
                   | Some v => s ← read_value (n_value n); Ret (if strcaseeq s v then ret + 1 else ret)
                   | None => Ret (ret + 1)
                   end
                 else Ret ret);
          count_attrs fuel h (n_next n) attrName attrValue ret
      end
  end.
Definition nodeHasAttrVal (fuel : nat) (h : heap) (p : ptr) (attrName attrValue : option (list Z)) : run Z :=
  match p, attrName with
  | Some a, Some name => q ← nodeGetAttrs h a; count_attrs fuel h q name attrValue 0
  | _, _ => Ret 0
  end.
Definition nodeHasAttr (fuel : nat) (h : heap) (p : ptr) (attrName : option (list Z)) : run Z :=
  nodeHasAttrVal fuel h p attrName None.

(** ** Walks over the tree *)

Fixpoint nodeGetLevel (fuel : nat) (h : heap) (a : nat) : run Z :=
  match fuel with
  | O => NoFuel
  | S fuel =>
      n ← load h a;
      match n_parent n with
      | Some p => l ← nodeGetLevel fuel h p; Ret (l + 1)
      | None => Ret 0
      end
  end.

(** Children first, then the siblings that follow, then the cell; the attribute
    cells are not freed. *)
Fixpoint freeNode (fuel : nat) (h : heap) (a : nat) : run heap :=
  match fuel with
  | O => NoFuel
  | S fuel =>
      n ← load h a;
      h ← match n_firstChild n with Some c => freeNode fuel h c | None => Ret h end;
      n ← load h a;
      h ← match n_next n with Some c => freeNode fuel h c | None => Ret h end;
      n ← load h a;
      _ ← free_value (n_value n);
      Ret (<[a := None]> h)
  end.

(** The name before the first dot of a path, and what follows the dot. *)
Fixpoint split_path (path : list Z) : list Z * option (list Z) :=
  match path with
  | [] => ([], None)
  | 46 :: r => ([], Some r)
  | b :: r => let '(name, sub) := split_path r in (b :: name, sub)
  end.

(** The loop of [findNodePath] over the siblings: [find_child] searches the children
    for the rest of the path, [find_attr] the attributes of the first sibling. *)
Fixpoint path_loop (k : nat) (h : heap) (find_child : ptr -> run ptr) (find_attr : unit -> run ptr)
    (name : list Z) (leaf : bool) (p : ptr) : run ptr :=
  match p with
  | None => find_attr tt
  | Some a =>
      match k with
      | O => NoFuel
      | S k =>
          n ← load h a;
          if named name n then
            new ← match n_firstChild n with Some c => find_child (Some c) | None => Ret None end;
            match new with
            | Some _ => Ret new
            | None => if leaf then Ret (Some a) else path_loop k h find_child find_attr name leaf (n_next n)
            end
          else path_loop k h find_child find_attr name leaf (n_next n)
      end
  end.

Fixpoint findNodePath (fuel : nat) (h : heap) (root : ptr) (path : option (list Z)) : run ptr :=
  match root, path with
  | Some root, Some path =>
      match fuel with
      | O => NoFuel
      | S fuel =>
          r ← load h root;
          if named path r then Ret (Some root)
          else
            let '(name, subpath) := split_path path in
            path_loop fuel h (fun c => findNodePath fuel h c subpath)
              (fun _ => match n_firstAttr r with
                        | Some at_ => findNodePath fuel h (Some at_) subpath
                        | None => Ret None
                        end)
              name (match subpath with None => true | Some _ => false end) (Some root)
      end
  | _, _ => Ret None
  end.

(** ** Trees *)

Record attr : Type := Attr { at_addr : nat; at_name : list Z; at_value : option strval }.
Record label : Type := Label {
  l_addr : nat;
  l_name : list Z;
  l_value : option strval;
  l_desc : option (list Z);
  l_attrs : list attr
}.
#[warnings="-register-all"]
Inductive tree : Type := T (l : label) (kids : list tree).

Definition t_label (t : tree) : label := match t with T l _ => l end.
Definition t_kids (t : tree) : list tree := match t with T _ ks => ks end.
Definition t_addr (t : tree) : nat := l_addr (t_label t).
Definition t_name (t : tree) : list Z := l_name (t_label t).

Lemma tree_ind' (P : tree -> Prop) : (forall l ks, Forall P ks -> P (T l ks)) -> forall t, P t.
Proof.
  intros H. fix IH 1. intros [l ks]. apply H. induction ks as [|k ks IHks]; constructor; [apply IH | apply IHks].
Qed.

(** The addresses of the cells of a tree. *)
Fixpoint addrs (t : tree) : list nat :=
  match t with T l ks => l_addr l :: map at_addr (l_attrs l) ++ flat_map addrs ks end.
Definition kids_addrs (ks : list tree) : list nat := flat_map addrs ks.

(** A list of siblings in the heap, each cell given by the one before and after:
    [prev] is the cell before the first, [next] the cell after the last. *)
Section rep_list.
Context {A : Type} (addr : A -> nat) (R : ptr -> ptr -> A -> Prop).
Definition head_addr (l : list A) (next : ptr) : ptr :=
  match l with [] => next | x :: _ => Some (addr x) end.
Fixpoint last_addr (prev : ptr) (l : list A) : ptr :=
  match l with [] => prev | x :: r => last_addr (Some (addr x)) r end.
Fixpoint rep_list (prev : ptr) (l : list A) (next : ptr) : Prop :=
  match l with
  | [] => True
  | x :: r => R prev (head_addr r next) x /\ rep_list (Some (addr x)) r next
  end.

Lemma rep_list_app prev l1 l2 next :
  rep_list prev (l1 ++ l2) next <->
  rep_list prev l1 (head_addr l2 next) /\ rep_list (last_addr prev l1) l2 next.
Proof.
  revert prev. induction l1 as [|x l1 IH]; intros prev; cbn; [tauto|].
  rewrite IH. destruct l1; cbn; tauto.
Qed.
Lemma last_addr_app prev l1 l2 : last_addr prev (l1 ++ l2) = last_addr (last_addr prev l1) l2.
Proof. revert prev. induction l1; intros prev; cbn; auto. Qed.
End rep_list.

Lemma rep_list_impl {A} (addr : A -> nat) (R R' : ptr -> ptr -> A -> Prop) prev l next :
  (forall x pv nx, x ∈ l -> R pv nx x -> R' pv nx x) -> rep_list addr R prev l next -> rep_list addr R' prev l next.
Proof.
  revert prev. induction l as [|x l IH]; intros prev H; cbn; [done|]. intros [Hx Hl]. split.
  - apply H; [constructor | done].
  - apply IH; [|done]. intros y pv nx Hy. apply H. by constructor.
Qed.

Definition attr_cell (prev next : ptr) (a : attr) : node :=
  Node NODE_TYPE_ATTRBUTE (at_name a) (at_value a) None None None prev next None.
Definition tree_cell (parent prev next : ptr) (l : label) (ks : list tree) : node :=
  Node NODE_TYPE_NODE (l_name l) (l_value l) (l_desc l) (head_addr at_addr (l_attrs l) None)
    parent prev next (head_addr t_addr ks None).

Definition cell (h : heap) (a : nat) (n : node) : Prop := h !! a = Some (Some n).

Definition rep_attr (h : heap) (prev next : ptr) (a : attr) : Prop := cell h (at_addr a) (attr_cell prev next a).
Fixpoint rep (h : heap) (parent prev next : ptr) (t : tree) : Prop :=
  match t with
  | T l ks =>
      cell h (l_addr l) (tree_cell parent prev next l ks) /\
      rep_list at_addr (rep_attr h) None (l_attrs l) None /\
      rep_list t_addr (fun pv nx k => rep h (Some (l_addr l)) pv nx k) None ks None
  end.
Definition rep_kids (h : heap) (parent : nat) (prev : ptr) (ks : list tree) (next : ptr) : Prop :=
  rep_list t_addr (rep h (Some parent)) prev ks next.
Definition rep_attrs (h : heap) (l : list attr) : Prop := rep_list at_addr (rep_attr h) None l None.

(** Distinct cells, all allocated. *)
Definition tree_ok (h : heap) (t : tree) : Prop := NoDup (addrs t) /\ Forall (fun a => (a < length h)%nat) (addrs t).

(** The heaps agree on [l]. *)
Definition agree (l : list nat) (h h' : heap) : Prop := forall a, a ∈ l -> h' !! a = h !! a.

(** ** Heap lemmas *)

Lemma load_cell h a n : cell h a n -> load h a = Ret n.
Proof. unfold load, cell. by intros ->. Qed.
Lemma modify_cell h a n f : cell h a n -> modify a f h = Ret (<[a := Some (f n)]> h).
Proof. intros H. unfold modify. by rewrite (load_cell _ _ _ H). Qed.
Lemma cell_lt h a n : cell h a n -> (a < length h)%nat.
Proof. unfold cell. apply lookup_lt_Some. Qed.
Lemma cell_insert_eq h a n m : cell h a n -> cell (<[a := Some m]> h) a m.
Proof. intros H. unfold cell. by apply list_lookup_insert_eq, (cell_lt _ _ n). Qed.
Lemma cell_insert_ne h a b n x : a <> b -> cell h a n -> cell (<[b := x]> h) a n.
Proof. intros Hab H. unfold cell. by rewrite list_lookup_insert_ne. Qed.
Lemma cell_app h l a n : cell h a n -> cell (h ++ l) a n.
Proof. apply lookup_app_l_Some. Qed.
Lemma cell_new h n : cell (h ++ [Some n]) (length h) n.
Proof. unfold cell. by rewrite lookup_app_r, Nat.sub_diag. Qed.

Lemma agree_refl l h : agree l h h.
Proof. by intros a _. Qed.
Lemma agree_trans l h1 h2 h3 : agree l h1 h2 -> agree l h2 h3 -> agree l h1 h3.
Proof. intros H1 H2 a Ha. rewrite H2, H1; done. Qed.
Lemma agree_sub l l' h h' : (forall a, a ∈ l' -> a ∈ l) -> agree l h h' -> agree l' h h'.
Proof. intros Hl H a Ha. apply H. auto. Qed.
Lemma agree_insert l h a x : a ∉ l -> agree l h (<[a := x]> h).
Proof. intros Ha b Hb. apply list_lookup_insert_ne. intros ->. done. Qed.
Lemma agree_app l h r : Forall (fun a => (a < length h)%nat) l -> agree l h (h ++ r).
Proof. intros Hl a Ha. rewrite Forall_forall in Hl. apply lookup_app_l. auto. Qed.

Lemma addrs_T l ks : addrs (T l ks) = l_addr l :: map at_addr (l_attrs l) ++ kids_addrs ks.
Proof. done. Qed.
Lemma t_addr_in t : t_addr t ∈ addrs t.
Proof. destruct t. rewrite addrs_T. constructor. Qed.
Lemma kids_addrs_in k ks a : k ∈ ks -> a ∈ addrs k -> a ∈ kids_addrs ks.
Proof.
  intros Hk Ha. unfold kids_addrs. induction Hk; cbn; apply elem_of_app; [by left|right; auto].
Qed.
Lemma kids_addrs_app ks1 ks2 : kids_addrs (ks1 ++ ks2) = kids_addrs ks1 ++ kids_addrs ks2.
Proof. apply flat_map_app. Qed.

(** ** The frame: what the heap holds depends on the cells of the tree only *)

Lemma rep_attrs_agree h h' prev l next :
  agree (map at_addr l) h h' -> rep_list at_addr (rep_attr h) prev l next -> rep_list at_addr (rep_attr h') prev l next.
Proof.
  intros Hag. apply rep_list_impl. intros x pv nx Hx Hr. unfold rep_attr, cell in *. rewrite Hag; [done|].
  apply list_elem_of_In, in_map. by apply list_elem_of_In.
Qed.
Lemma rep_agree h h' t : forall parent prev next,
  agree (addrs t) h h' -> rep h parent prev next t -> rep h' parent prev next t.
Proof.
  induction t as [l ks IH] using tree_ind'. intros parent prev next Hag (Hc & Ha & Hk). cbn [rep].
  rewrite addrs_T in Hag. split; [|split].
  - unfold cell in *. rewrite Hag; [done | constructor].
  - eapply rep_attrs_agree; [|done]. eapply agree_sub; [|done]. set_solver.
  - eapply rep_list_impl; [|done]. cbn. intros k pv nx Hin. rewrite Forall_forall in IH.
    apply IH; [done|]. eapply agree_sub; [|done]. intros a Hin'.
    pose proof (kids_addrs_in k ks a Hin Hin'). set_solver.
Qed.
Lemma rep_kids_agree h h' parent prev ks next :
  agree (kids_addrs ks) h h' -> rep_kids h parent prev ks next -> rep_kids h' parent prev ks next.
Proof.
  intros Hag. apply rep_list_impl. intros k pv nx Hk. apply rep_agree.
  eapply agree_sub; [|done]. intros a. by apply kids_addrs_in.
Qed.

(** ** Searching siblings *)

Section siblings.
Context {A : Type} (addr : A -> nat) (name : A -> list Z) (R : ptr -> ptr -> A -> Prop) (h : heap).
Hypothesis R_cell : forall pv nx x, R pv nx x -> exists n, cell h (addr x) n /\ n_next n = nx /\ n_name n = name x.

Lemma find_sibling_list nm : forall l prev fuel,
  rep_list addr R prev l None -> (length l <= fuel)%nat ->
  find_sibling fuel h (head_addr addr l None) (named nm) = Ret (addr <$> List.find (fun x => streq (name x) nm) l).
Proof.
  induction l as [|x l IH]; intros prev fuel Hr Hf; [by destruct fuel|].
  destruct Hr as [Hx Hl]. destruct fuel as [|fuel]; [cbn in Hf; lia|].
  destruct (R_cell _ _ _ Hx) as (n & Hc & Hn & Hnm). cbn [head_addr find_sibling List.find].
  rewrite (load_cell _ _ _ Hc). rsimpl. unfold named. rewrite Hnm. destruct (streq (name x) nm); [done|].
  rewrite Hn. eapply IH; [done|]. cbn in Hf. lia.
Qed.
Lemma last_sibling_list : forall l x prev fuel,
  rep_list addr R prev (l ++ [x]) None -> (length l < fuel)%nat ->
  forall a, head_addr addr (l ++ [x]) None = Some a -> last_sibling fuel h a = Ret (addr x).
Proof.
  induction l as [|y l IH]; intros x prev fuel Hr Hf a Ha; injection Ha as <-; (destruct fuel as [|fuel]; [lia|]).
  - destruct Hr as [Hx _]. destruct (R_cell _ _ _ Hx) as (n & Hc & Hn & _).
    cbn. rewrite (load_cell _ _ _ Hc). rsimpl. cbn in Hn. by rewrite Hn.
  - destruct Hr as [Hy Hl]. destruct (R_cell _ _ _ Hy) as (n & Hc & Hn & _).
    cbn [last_sibling]. rewrite (load_cell _ _ _ Hc). rsimpl. rewrite Hn.
    change (head_addr addr _ None) with (head_addr addr (l ++ [x]) None) at 1.
    destruct (head_addr addr (l ++ [x]) None) as [b|] eqn:E; [|by destruct l].
    eapply IH; [exact Hl | cbn in Hf; lia | done].
Qed.
End siblings.

Lemma rep_attr_cell h pv nx a :
  rep_attr h pv nx a -> exists n, cell h (at_addr a) n /\ n_next n = nx /\ n_name n = at_name a.
Proof. intros H. by eexists. Qed.
Lemma rep_cell h p pv nx t :
  rep h p pv nx t -> cell h (t_addr t) (tree_cell p pv nx (t_label t) (t_kids t)).
Proof. destruct t. by intros [H _]. Qed.
Lemma rep_kid_cell h p pv nx t :
  rep h p pv nx t -> exists n, cell h (t_addr t) n /\ n_next n = nx /\ n_name n = t_name t.
Proof. intros H. eexists. split; [by eapply rep_cell | done]. Qed.

(** The first attribute, or child, of a name. *)
Definition find_attr (nm : list Z) (l : list attr) : option attr := List.find (fun x => streq (at_name x) nm) l.
Definition find_kid (nm : list Z) (ks : list tree) : option tree := List.find (fun k => streq (t_name k) nm) ks.

(** The number of cells bounds the length of every list of siblings. *)
Lemma length_kids_addrs ks : (length ks <= length (kids_addrs ks))%nat.
Proof.
  unfold kids_addrs. induction ks as [|[l k] ks IH]; [done|]. cbn [flat_map length]. rewrite length_app, addrs_T. cbn. lia.
Qed.
Lemma tree_ok_length h t : tree_ok h t -> (length (addrs t) <= length h)%nat.
Proof.
  intros [Hnd Hlt]. rewrite <- (length_seq (length h) 0). apply NoDup_incl_length; [by apply NoDup_ListNoDup|].
  intros a Ha. apply in_seq. rewrite Forall_forall in Hlt. apply list_elem_of_In, Hlt in Ha. lia.
Qed.
Lemma tree_ok_bounds h l ks :
  tree_ok h (T l ks) -> (length (l_attrs l) < length h)%nat /\ (length ks < length h)%nat.
Proof.
  intros H%tree_ok_length. rewrite addrs_T in H. cbn in H. rewrite length_app, length_map in H.
  pose proof (length_kids_addrs ks). lia.
Qed.

Lemma find_attr_ok h fuel l prev nm :
  rep_list at_addr (rep_attr h) prev l None -> (length l <= fuel)%nat ->
  find_sibling fuel h (head_addr at_addr l None) (named nm) = Ret (at_addr <$> find_attr nm l).
Proof. apply find_sibling_list. apply rep_attr_cell. Qed.
Lemma find_kid_ok h fuel p ks prev nm :
  rep_kids h p prev ks None -> (length ks <= fuel)%nat ->
  find_sibling fuel h (head_addr t_addr ks None) (named nm) = Ret (t_addr <$> find_kid nm ks).
Proof. apply find_sibling_list. apply rep_kid_cell. Qed.

(** ** What an operation on a subtree leaves alone *)

(** Cells are only added, and outside the subtree none changes. *)
Definition frame (t : tree) (h h' : heap) : Prop :=
  (length h <= length h')%nat /\ forall b, (b < length h)%nat -> b ∉ addrs t -> h' !! b = h !! b.

Lemma frame_refl t h : frame t h h.
Proof. by split. Qed.
Lemma frame_agree t h h' l :
  frame t h h' -> Forall (fun a => (a < length h)%nat) l -> (forall a, a ∈ l -> a ∉ addrs t) -> agree l h h'.
Proof. intros [_ Hf] Hl Hd a Ha. rewrite Forall_forall in Hl. apply Hf; auto. Qed.

(** The distinctness of the cells of a node, its attributes and its children. *)
Lemma NoDup_T l ks :
  NoDup (addrs (T l ks)) <->
  l_addr l ∉ map at_addr (l_attrs l) /\ l_addr l ∉ kids_addrs ks /\ NoDup (map at_addr (l_attrs l)) /\
  (forall a, a ∈ map at_addr (l_attrs l) -> a ∉ kids_addrs ks) /\ NoDup (kids_addrs ks).
Proof. rewrite addrs_T, NoDup_cons, not_elem_of_app, NoDup_app. tauto. Qed.
Lemma Forall_T (P : nat -> Prop) l ks :
  Forall P (addrs (T l ks)) <-> P (l_addr l) /\ Forall P (map at_addr (l_attrs l)) /\ Forall P (kids_addrs ks).
Proof. rewrite addrs_T, Forall_cons, Forall_app. tauto. Qed.

(** [malloc] and the stores around it keep the length in step. *)
Lemma length_insert_heap (h : heap) a x : length (<[a := x]> h) = length h.
Proof. apply length_insert. Qed.
Lemma length_malloc (h : heap) (n : node) : length (h ++ [Some n]) = S (length h).
Proof. rewrite length_app. cbn. lia. Qed.

(** ** Attributes *)

Definition with_attrs (attrs : list attr) (l : label) : label :=
  Label (l_addr l) (l_name l) (l_value l) (l_desc l) attrs.

(** What [applyAttr] does to the list, with the address of a new cell. *)
Fixpoint set_attr (nm : list Z) (v : option strval) (l : list attr) : list attr :=
  match l with
  | [] => []
  | x :: r => if streq (at_name x) nm then Attr (at_addr x) (at_name x) v :: r else x :: set_attr nm v r
  end.
Definition apply_attr (new : nat) (nm value : list Z) (l : list attr) : list attr :=
  match find_attr nm l with
  | Some _ => set_attr nm (Some (Lent value)) l
  | None => Attr new nm (Some (Own value)) :: l
  end.

Lemma find_attr_in nm l x : find_attr nm l = Some x -> x ∈ l /\ at_name x = nm.
Proof. intros [H Hn]%find_some. split; [by apply list_elem_of_In | by apply streq_true]. Qed.
Lemma map_addr_set nm v l : map at_addr (set_attr nm v l) = map at_addr l.
Proof. induction l as [|x l IH]; [done|]. cbn. destruct (streq _ _); cbn; by rewrite ?IH. Qed.
Lemma head_addr_set nm v l next : head_addr at_addr (set_attr nm v l) next = head_addr at_addr l next.
Proof. destruct l as [|x l]; [done|]. cbn. by destruct (streq _ _). Qed.

Lemma set_attr_rep h nm v : forall l prev x,
  rep_list at_addr (rep_attr h) prev l None -> NoDup (map at_addr l) -> find_attr nm l = Some x ->
  exists n, cell h (at_addr x) n /\ n_value n = at_value x /\
    rep_list at_addr (rep_attr (<[at_addr x := Some (with_value v n)]> h)) prev (set_attr nm v l) None.
Proof.
  unfold find_attr. induction l as [|y l IH]; intros prev x Hr Hnd Hf; [done|].
  destruct Hr as [Hy Hl]. cbn [map] in Hnd. apply NoDup_cons in Hnd as [Hni Hnd]. cbn [List.find set_attr] in *.
  destruct (streq (at_name y) nm).
  - injection Hf as <-. eexists. split; [exact Hy|]. split; [done|]. split.
    + unfold rep_attr. eapply cell_insert_eq. exact Hy.
    + eapply rep_attrs_agree; [|exact Hl]. by apply agree_insert.
  - destruct (IH _ x Hl Hnd Hf) as (n & Hc & Hv & Hr). exists n. split_and!; [done..|]. split.
    + rewrite head_addr_set. unfold rep_attr. apply cell_insert_ne; [|done].
      apply find_attr_in in Hf as [Hf _]. intros E. apply Hni. rewrite E.
      by apply list_elem_of_In, in_map, list_elem_of_In.
    + done.
Qed.

Lemma find_attr_addr nm l x : find_attr nm l = Some x -> at_addr x ∈ map at_addr l.
Proof. intros [H _]%find_attr_in. by apply list_elem_of_In, in_map, list_elem_of_In. Qed.

(** A matched attribute takes the caller's pointer. *)
Lemma applyAttr_match h fuel p pv nx l ks nm value x :
  tree_ok h (T l ks) -> rep h p pv nx (T l ks) -> (length h <= fuel)%nat ->
  find_attr nm (l_attrs l) = Some x -> (forall s, at_value x <> Some (Lent s)) ->
  let l' := with_attrs (apply_attr (length h) nm value (l_attrs l)) l in
  exists h', applyAttr fuel h (Some (l_addr l)) nm value = Ret h' /\
    rep h' p pv nx (T l' ks) /\ tree_ok h' (T l' ks) /\ frame (T l ks) h h' /\ length h' = length h.
Proof.
  intros Hok (Hc & Ha & Hk) Hfuel Hf Hv l'. pose proof Hok as [Hnd Hlt].
  pose proof (tree_ok_bounds _ _ _ Hok) as [Hb _].
  apply NoDup_T in Hnd as (Hn1 & Hn2 & Hn3 & Hn4 & Hn5).
  unfold applyAttr, nodeGetAttrs. rewrite (load_cell _ _ _ Hc). rsimpl. cbn [tree_cell n_firstAttr].
  rewrite (find_attr_ok _ _ _ None) by (done || lia). rewrite Hf. rsimpl. cbn [fmap option_fmap option_map].
  destruct (set_attr_rep h nm (Some (Lent value)) (l_attrs l) None x Ha Hn3 Hf) as (n & Hcx & Hnv & Hr).
  pose proof (find_attr_addr _ _ _ Hf) as Hin.
  rewrite (load_cell _ _ _ Hcx). rsimpl. rewrite Hnv. unfold free_value.
  replace (match at_value x with Some (Lent _) => Undef | _ => Ret tt end) with (Ret tt)
    by (destruct (at_value x) as [[?|?]|]; [done| by exfalso; eapply Hv | done]).
  rsimpl. rewrite (modify_cell _ _ _ _ Hcx).
  eexists. split; [done|]. unfold l', apply_attr. rewrite Hf. split; [|split; [|split]].
  - split; [|split].
    + unfold with_attrs, tree_cell. cbn [l_addr l_attrs l_name l_value l_desc]. rewrite head_addr_set.
      apply cell_insert_ne; [|done]. intros E. apply Hn1. by rewrite E.
    + done.
    + eapply rep_kids_agree; [|done]. apply agree_insert. by apply Hn4.
  - unfold tree_ok. rewrite addrs_T. cbn [with_attrs l_addr l_attrs]. rewrite map_addr_set, length_insert_heap. done.
  - split; [by rewrite length_insert_heap|]. intros b Hb' Hni. apply list_lookup_insert_ne. intros <-.
    apply Hni. rewrite addrs_T. set_solver.
  - apply length_insert_heap.
Qed.

Lemma insert_new (h : heap) x y : <[length h := y]> (h ++ [x]) = h ++ [y].
Proof. by rewrite insert_app_r_alt, Nat.sub_diag by lia. Qed.

Lemma newAttr_ok h nm v :
  newAttr h (Some nm) v =
  Ret (Some (length h), h ++ [Some (Node NODE_TYPE_ATTRBUTE nm (Own <$> v) None None None None None None)]).
Proof.
  unfold newAttr, newNode, malloc. cbn [deref]. rsimpl.
  rewrite (modify_cell _ _ _ _ (cell_new _ _)). rsimpl. rewrite insert_new.
  destruct v as [v|]; [|done]. rewrite (modify_cell _ _ _ _ (cell_new _ _)). rsimpl. by rewrite insert_new.
Qed.

(** Stores to old cells and to the new one. *)
Lemma agree_grow h h' l :
  Forall (fun a => (a < length h)%nat) l ->
  (forall a, (a < length h)%nat -> a ∈ l -> h' !! a = h !! a) -> agree l h h'.
Proof. intros Hl H a Ha. rewrite Forall_forall in Hl. auto. Qed.

(** A new cell as first attribute keeps the cells distinct. *)
Lemma tree_ok_cons_attr h h' l ks nm v :
  tree_ok h (T l ks) -> length h' = S (length h) ->
  tree_ok h' (T (with_attrs (Attr (length h) nm v :: l_attrs l) l) ks).
Proof.
  intros [Hnd Hlt] Hl'. apply NoDup_T in Hnd as (Hn1 & Hn2 & Hn3 & Hn4 & Hn5). apply Forall_T in Hlt as (Hl1 & Hl2 & Hl3).
  split.
  - apply NoDup_T. cbn [with_attrs l_addr l_attrs map at_addr]. rewrite Forall_forall in Hl2, Hl3.
    split_and!; [| done | | | done].
    + apply not_elem_of_cons. split; [lia | done].
    + apply NoDup_cons. split; [intros ?%Hl2; lia | done].
    + intros a [->|Ha']%elem_of_cons; [intros ?%Hl3; lia | by apply Hn4].
  - apply Forall_T. rewrite Hl'. cbn [with_attrs l_addr l_attrs map at_addr]. rewrite Forall_cons.
    split_and!; [lia | lia | |]; (eapply Forall_impl; [done|]); cbn; intros; lia.
Qed.

(** [addAttr] puts a new attribute in front. *)
Lemma addAttr_new h p pv nx l ks nm v :
  tree_ok h (T l ks) -> rep h p pv nx (T l ks) ->
  let n := length h in
  let l' := with_attrs (Attr n nm v :: l_attrs l) l in
  exists h', addAttr (h ++ [Some (Node NODE_TYPE_ATTRBUTE nm v None None None None None None)])
      (Some (l_addr l)) (Some n) = Ret (Some (l_addr l), h') /\
    rep h' p pv nx (T l' ks) /\ tree_ok h' (T l' ks) /\ frame (T l ks) h h' /\ length h' = S (length h).
Proof.
  intros Hok (Hc & Ha & Hk) n l'. pose proof Hok as [Hnd Hlt].
  apply NoDup_T in Hnd as (Hn1 & Hn2 & Hn3 & Hn4 & Hn5). apply Forall_T in Hlt as (Hl1 & Hl2 & Hl3).
  set (x := Node NODE_TYPE_ATTRBUTE nm v None None None None None None).
  assert (Hfresh : forall a, (a < length h)%nat -> a <> n) by (intros; subst n; lia).
  unfold addAttr. rewrite (load_cell _ _ _ (cell_app _ _ _ _ Hc)). rsimpl. cbn [tree_cell n_firstAttr].
  rewrite (modify_cell _ _ _ _ (cell_app _ _ _ _ Hc)). rsimpl.
  set (c1 := with_firstAttr _ _). set (h1 := <[l_addr l := Some c1]> (h ++ [Some x])).
  assert (Hn : cell h1 n x) by (apply cell_insert_ne; [by apply not_eq_sym, Hfresh | apply cell_new]).
  rewrite (modify_cell _ _ _ _ Hn). rsimpl. set (x2 := with_next _ x). set (h2 := <[n := Some x2]> h1).
  assert (Hlen : length h2 = S (length h)) by (unfold h2, h1; by rewrite !length_insert_heap, length_malloc).
  (* the heap before the last store, away from the node *)
  assert (Hold : forall a, (a < length h)%nat -> a <> l_addr l -> h2 !! a = h !! a).
  { intros a Hlt Hne. unfold h2, h1. rewrite list_lookup_insert_ne by (by apply not_eq_sym, Hfresh).
    rewrite list_lookup_insert_ne by done. by apply lookup_app_l. }
  assert (Hc2 : cell h2 (l_addr l) c1).
  { apply cell_insert_ne; [by apply Hfresh|]. eapply cell_insert_eq. by apply cell_app. }
  assert (Hx2 : cell h2 n x2) by (by eapply cell_insert_eq).
  assert (Hok' : forall h', length h' = S (length h) -> tree_ok h' (T l' ks)) by (intros; by eapply tree_ok_cons_attr).
  destruct (l_attrs l) as [|top rest] eqn:El; cbn [head_addr].
  - exists h2. split; [done|]. split_and!; [| by apply Hok' | | done].
    + split; [done|]. split; [done|]. eapply rep_kids_agree; [|done].
      apply agree_grow; [done|]. intros a Hal Hin. apply Hold; [done|]. intros ->. done.
    + split; [lia|]. intros b Hb Hni. apply Hold; [done|]. intros ->. apply Hni. rewrite addrs_T. constructor.
  - destruct Ha as [Htop Hrest]. cbn [map] in *. apply Forall_cons in Hl2 as [Hlt Hl2].
    assert (Hne : l_addr l <> at_addr top) by set_solver.
    assert (Htop2 : cell h2 (at_addr top) (attr_cell None (head_addr at_addr rest None) top)).
    { unfold cell. rewrite Hold by (done || by apply not_eq_sym). exact Htop. }
    rewrite (modify_cell _ _ _ _ Htop2). rsimpl. eexists. split; [done|].
    apply NoDup_cons in Hn3 as [Hn3 Hn3'].
    split_and!; [| apply Hok'; by rewrite length_insert_heap | | by rewrite length_insert_heap].
    + split; [by apply cell_insert_ne|]. split.
      * split; [apply cell_insert_ne; [by apply not_eq_sym, Hfresh | done]|].
        split; [by eapply cell_insert_eq|].
        eapply rep_attrs_agree; [|exact Hrest]. eapply agree_trans; [|by apply agree_insert].
        apply agree_grow; [done|]. intros a Hal Hin. apply Hold; [done|]. set_solver.
      * eapply rep_kids_agree; [|done]. eapply agree_trans; [|apply agree_insert; apply Hn4; set_solver].
        apply agree_grow; [done|]. intros a Hal Hin. apply Hold; [done|]. intros ->. done.
    + split; [rewrite length_insert_heap; lia|]. intros b Hb Hni. rewrite addrs_T, El in Hni.
      rewrite list_lookup_insert_ne by (cbn in Hni; set_solver). apply Hold; [done|]. set_solver.
Qed.

Lemma applyAttr_new h fuel p pv nx l ks nm value :
  tree_ok h (T l ks) -> rep h p pv nx (T l ks) -> (length h <= fuel)%nat ->
  find_attr nm (l_attrs l) = None ->
  let l' := with_attrs (apply_attr (length h) nm value (l_attrs l)) l in
  exists h', applyAttr fuel h (Some (l_addr l)) nm value = Ret h' /\
    rep h' p pv nx (T l' ks) /\ tree_ok h' (T l' ks) /\ frame (T l ks) h h' /\ length h' = S (length h).
Proof.
  intros Hok Hr Hfuel Hf l'. pose proof Hr as (Hc & Ha & Hk). pose proof (tree_ok_bounds _ _ _ Hok) as [Hb _].
  destruct (addAttr_new h p pv nx l ks nm (Some (Own value)) Hok Hr) as (h' & E & H).
  unfold applyAttr, nodeGetAttrs. rewrite (load_cell _ _ _ Hc). rsimpl. cbn [tree_cell n_firstAttr].
  rewrite (find_attr_ok _ _ _ None) by (done || lia). rewrite Hf. rsimpl. cbn [fmap option_fmap option_map].
  rewrite newAttr_ok. rsimpl. cbn [fmap option_fmap option_map]. rewrite E. exists h'.
  unfold l', apply_attr. by rewrite Hf.
Qed.

(** ** Children *)

(** A new node, before anything is attached to it. *)
Definition leaf (a : nat) (nm : list Z) : tree := T (Label a nm None None []) [].
Definition new_cell (nm : list Z) : node := Node NODE_TYPE_NODE nm None None None None None None None.

Lemma rep_set_next h p pv nx nx' k :
  rep h p pv nx k -> NoDup (addrs k) ->
  exists n, cell h (t_addr k) n /\ rep (<[t_addr k := Some (with_next nx' n)]> h) p pv nx' k.
Proof.
  destruct k as [l ks]. intros (Hc & Ha & Hk) (Hn1 & Hn2 & _)%NoDup_T. unfold t_addr. cbn [t_label].
  eexists. split; [exact Hc|]. split; [by eapply cell_insert_eq|]. split.
  - eapply rep_attrs_agree; [|done]. by apply agree_insert.
  - eapply rep_kids_agree; [|done]. by apply agree_insert.
Qed.

Lemma tree_ok_snoc h h' l ks nm :
  tree_ok h (T l ks) -> length h' = S (length h) -> tree_ok h' (T l (ks ++ [leaf (length h) nm])).
Proof.
  intros [Hnd Hlt] Hl'. apply NoDup_T in Hnd as (Hn1 & Hn2 & Hn3 & Hn4 & Hn5). apply Forall_T in Hlt as (Hl1 & Hl2 & Hl3).
  split.
  - apply NoDup_T. rewrite kids_addrs_app. cbn. rewrite Forall_forall in Hl2, Hl3.
    split_and!; [done | | done | |].
    + rewrite not_elem_of_app, list_elem_of_singleton. split; [done | lia].
    + intros a Ha. rewrite not_elem_of_app, list_elem_of_singleton. split; [by apply Hn4|]. apply Hl2 in Ha. lia.
    + apply NoDup_app. split; [done|]. split; [|apply NoDup_singleton].
      intros a Ha%Hl3. rewrite list_elem_of_singleton. lia.
  - apply Forall_T. rewrite Hl', kids_addrs_app, Forall_app. cbn. rewrite Forall_singleton.
    split_and!; [lia | | | lia]; (eapply Forall_impl; [done|]); cbn; intros; lia.
Qed.

(** The children before an append, after the last of them got its successor. *)
Lemma rep_kids_link h parent ks k n :
  rep_kids h parent None (ks ++ [k]) None -> NoDup (kids_addrs (ks ++ [k])) ->
  exists c, cell h (t_addr k) c /\
    rep_kids (<[t_addr k := Some (with_next (Some n) c)]> h) parent None (ks ++ [k]) (Some n).
Proof.
  unfold rep_kids. rewrite rep_list_app, kids_addrs_app, NoDup_app. intros (Hks & Hk & _) (_ & Hd & Hnd).
  unfold kids_addrs at 1 in Hnd. cbn [flat_map] in Hnd. rewrite app_nil_r in Hnd.
  destruct (rep_set_next _ _ _ _ (Some n) _ Hk Hnd) as (c & Hc & Hr). exists c. split; [done|].
  rewrite rep_list_app. split; [|by split]. eapply rep_kids_agree; [|exact Hks].
  apply agree_insert. intros Hin%Hd. apply Hin. cbn. rewrite app_nil_r. apply t_addr_in.
Qed.

Lemma leaf_rep h parent prev n nm :
  cell h n (with_prev prev (with_parent (Some parent) (new_cell nm))) -> rep h (Some parent) prev None (leaf n nm).
Proof. intros H. split; [exact H | by split]. Qed.

Lemma last_addr_snoc ks k prev : last_addr t_addr prev (ks ++ [k]) = Some (t_addr k).
Proof. by rewrite last_addr_app. Qed.

(** [appendChild] of a new node: the first child. *)
Lemma appendChild_first h fuel p pv nx l nm :
  tree_ok h (T l []) -> rep h p pv nx (T l []) ->
  let n := length h in
  exists h', appendChild fuel (h ++ [Some (new_cell nm)]) (l_addr l) (Some n) = Ret (Some n, h') /\
    rep h' p pv nx (T l [leaf n nm]) /\ frame (T l []) h h' /\ length h' = S (length h).
Proof.
  intros [Hnd Hlt] (Hc & Ha & _) n.
  apply NoDup_T in Hnd as (Hn1 & _). apply Forall_T in Hlt as (Hl1 & Hl2 & _).
  assert (Hfresh : n <> l_addr l) by (subst n; lia).
  pose proof (cell_app h [Some (new_cell nm)] _ _ Hc) as Hc0. pose proof (cell_new h (new_cell nm)) as Hx. fold n in Hx.
  pose proof (length_malloc h (new_cell nm)) as Hlen0.
  set (h0 := h ++ [Some (new_cell nm)]) in *.
  unfold appendChild. rewrite (load_cell _ _ _ Hc0). rsimpl. cbn [tree_cell n_firstChild head_addr].
  rewrite (modify_cell _ _ _ _ Hc0). rsimpl. set (h1 := <[l_addr l := _]> h0). cbn [deref]. rsimpl.
  assert (Hx1 : cell h1 n (new_cell nm)) by (by apply cell_insert_ne).
  rewrite (modify_cell _ _ _ _ Hx1). rsimpl. set (h2 := <[n := _]> h1). exists h2. split; [done|].
  assert (Hold : forall a, (a < length h)%nat -> a <> l_addr l -> h2 !! a = h !! a).
  { intros a Hal Hne. unfold h2, h1. rewrite !list_lookup_insert_ne by (done || (subst n; lia)). by apply lookup_app_l. }
  split_and!; [| |by unfold h2, h1; rewrite !length_insert_heap].
  - split; [|split].
    + apply cell_insert_ne; [done|]. by eapply cell_insert_eq.
    + eapply rep_attrs_agree; [|done]. apply agree_grow; [done|]. intros a Hal Hin. apply Hold; [done|]. by intros ->.
    + split; [|done]. apply leaf_rep. by eapply cell_insert_eq.
  - split; [unfold h2, h1; rewrite !length_insert_heap; lia|].
    intros b Hbl Hni. apply Hold; [done|]. intros ->. apply Hni. constructor.
Qed.

(** [appendChild] of a new node after the last child [k]. *)
Lemma appendChild_last h fuel p pv nx l ks k nm :
  tree_ok h (T l (ks ++ [k])) -> rep h p pv nx (T l (ks ++ [k])) -> (length h <= fuel)%nat ->
  let n := length h in
  exists h', appendChild fuel (h ++ [Some (new_cell nm)]) (l_addr l) (Some n) = Ret (Some n, h') /\
    rep h' p pv nx (T l ((ks ++ [k]) ++ [leaf n nm])) /\ frame (T l (ks ++ [k])) h h' /\ length h' = S (length h).
Proof.
  intros Hok (Hc & Ha & Hk) Hfuel n. pose proof Hok as [Hnd Hlt]. pose proof (tree_ok_bounds _ _ _ Hok) as [_ Hb].
  apply NoDup_T in Hnd as (Hn1 & Hn2 & Hn3 & Hn4 & Hn5). apply Forall_T in Hlt as (Hl1 & Hl2 & Hl3).
  pose proof (cell_app h [Some (new_cell nm)] _ _ Hc) as Hc0. pose proof (cell_new h (new_cell nm)) as Hx. fold n in Hx.
  pose proof (length_malloc h (new_cell nm)) as Hlen0. pose proof (agree_app _ _ [Some (new_cell nm)] Hl3) as Hag.
  set (h0 := h ++ [Some (new_cell nm)]) in *.
  assert (Hk0 : rep_kids h0 (l_addr l) None (ks ++ [k]) None) by (by eapply rep_kids_agree).
  assert (Hin : t_addr k ∈ kids_addrs (ks ++ [k])) by (eapply kids_addrs_in, t_addr_in; set_solver).
  assert (Hnk : n <> t_addr k) by (rewrite Forall_forall in Hl3; apply Hl3 in Hin; subst n; lia).
  destruct (rep_kids_link h0 (l_addr l) ks k n Hk0 Hn5) as (c & Hck & Hr).
  assert (Hhead : exists c0, head_addr t_addr (ks ++ [k]) None = Some c0) by (destruct ks; cbn; eauto).
  destruct Hhead as [c0 Hhead].
  unfold appendChild. rewrite (load_cell _ _ _ Hc0). rsimpl. cbn [tree_cell n_firstChild]. rewrite Hhead.
  rewrite (last_sibling_list t_addr t_name _ h0 (rep_kid_cell h0 (Some (l_addr l))) ks k None fuel Hk0)
    by (done || (rewrite length_app in Hb; cbn in Hb; lia)).
  rsimpl. rewrite (modify_cell _ _ _ _ Hck). rsimpl. set (h1 := <[t_addr k := _]> h0) in *. cbn [deref]. rsimpl.
  assert (Hx1 : cell h1 n (new_cell nm)) by (by apply cell_insert_ne).
  rewrite (modify_cell _ _ _ _ Hx1). rsimpl. set (h2 := <[n := _]> h1).
  assert (Hx2 : cell h2 n (with_parent (Some (l_addr l)) (new_cell nm))) by (by eapply cell_insert_eq).
  rewrite (modify_cell _ _ _ _ Hx2). rsimpl. set (h3 := <[n := _]> h2). exists h3. split; [done|].
  assert (Hold1 : forall a, (a < length h)%nat -> h3 !! a = h1 !! a).
  { intros a Hal. unfold h3, h2. by rewrite !list_lookup_insert_ne by (subst n; lia). }
  assert (Hold : forall a, (a < length h)%nat -> a <> t_addr k -> h3 !! a = h !! a).
  { intros a Hal Hne. rewrite Hold1 by done. unfold h1. rewrite list_lookup_insert_ne by done. by apply lookup_app_l. }
  split_and!; [| |by unfold h3, h2, h1; rewrite !length_insert_heap].
  - split; [|split].
    + unfold cell. rewrite Hold; [|done|intros E; apply Hn2; by rewrite E].
      unfold cell in Hc. rewrite Hc. unfold tree_cell. do 3 f_equal. by destruct ks.
    + eapply rep_attrs_agree; [|done]. apply agree_grow; [done|]. intros a Hal Hin'. apply Hold; [done|].
      intros ->. by apply (Hn4 (t_addr k)).
    + apply rep_list_app. split.
      * eapply rep_kids_agree; [|exact Hr]. intros a Ha'. apply Hold1. rewrite Forall_forall in Hl3. by apply Hl3.
      * rewrite last_addr_snoc. split; [|done]. apply leaf_rep. by eapply cell_insert_eq.
  - split; [unfold h3, h2, h1; rewrite !length_insert_heap; lia|].
    intros b Hbl Hni. apply Hold; [done|]. intros ->. apply Hni. rewrite addrs_T. set_solver.
Qed.

(** [appendNewChild] puts a new node last. *)
Lemma appendNewChild_ok h fuel p pv nx l ks nm :
  tree_ok h (T l ks) -> rep h p pv nx (T l ks) -> (length h <= fuel)%nat ->
  let n := length h in
  let t' := T l (ks ++ [leaf n nm]) in
  exists h', appendNewChild fuel h (l_addr l) (Some nm) None = Ret (Some n, h') /\
    rep h' p pv nx t' /\ tree_ok h' t' /\ frame (T l ks) h h' /\ length h' = S (length h).
Proof.
  intros Hok Hr Hfuel n t'. unfold appendNewChild, newNode, malloc.
  enough (exists h', appendChild fuel (h ++ [Some (new_cell nm)]) (l_addr l) (Some n) = Ret (Some n, h') /\
    rep h' p pv nx t' /\ frame (T l ks) h h' /\ length h' = S (length h)) as (h' & E & Hr' & Hf & Hl).
  { exists h'. split; [exact E|]. split_and!; try done. by apply tree_ok_snoc. }
  destruct ks as [|k ks _] using rev_ind; [by apply appendChild_first | by apply appendChild_last].
Qed.

(** [applyNode] finds the child of that name, or appends one. *)
Lemma applyNode_ok h fuel p pv nx l ks nm :
  tree_ok h (T l ks) -> rep h p pv nx (T l ks) -> (length h <= fuel)%nat ->
  match find_kid nm ks with
  | Some k => applyNode fuel h (Some (l_addr l)) nm = Ret (Some (t_addr k), h)
  | None =>
      let t' := T l (ks ++ [leaf (length h) nm]) in
      exists h', applyNode fuel h (Some (l_addr l)) nm = Ret (Some (length h), h') /\
        rep h' p pv nx t' /\ tree_ok h' t' /\ frame (T l ks) h h' /\ length h' = S (length h)
  end.
Proof.
  intros Hok Hr Hfuel. pose proof Hr as (Hc & _ & Hk). pose proof (tree_ok_bounds _ _ _ Hok) as [_ Hb].
  unfold applyNode. rewrite (load_cell _ _ _ Hc). rsimpl. cbn [tree_cell n_firstChild].
  rewrite (find_kid_ok _ _ (l_addr l) _ None) by (done || lia).
  destruct (find_kid nm ks) as [k|]; cbn [fmap option_fmap option_map]; rsimpl; [done|].
  destruct (appendNewChild_ok h fuel p pv nx l ks nm Hok Hr Hfuel) as (h' & E & H).
  unfold appendNewChild in E. unfold newNode, malloc in *. rewrite E. rsimpl. by exists h'.
Qed.

(** ** Evolution of a subtree

    [t] in heap [h] has become [t'] in [h']: the root cell is the same, other
    cells of [t'] are cells of [t] or new, and nothing outside [t] changed. *)
Record evolves (h : heap) (t : tree) (h' : heap) (t' : tree) (p pv nx : ptr) : Prop := {
  ev_rep : rep h' p pv nx t';
  ev_ok : tree_ok h' t';
  ev_frame : frame t h h';
  ev_addr : t_addr t' = t_addr t;
  ev_addrs : forall a, a ∈ addrs t' -> a ∈ addrs t \/ (length h <= a)%nat
}.

Lemma evolves_refl h t p pv nx : rep h p pv nx t -> tree_ok h t -> evolves h t h t p pv nx.
Proof. intros. constructor; auto using frame_refl. Qed.
Lemma evolves_trans h t h1 t1 h2 t2 p pv nx :
  evolves h t h1 t1 p pv nx -> evolves h1 t1 h2 t2 p pv nx -> evolves h t h2 t2 p pv nx.
Proof.
  intros [_ _ [Hl1 Hf1] Ha1 Hs1] [Hr Hok [Hl2 Hf2] Ha2 Hs2]. constructor; try done.
  - split; [lia|]. intros b Hb Hni. rewrite Hf2; [by apply Hf1 | lia |].
    intros [?|?]%Hs1; [done|lia].
  - congruence.
  - intros a [Ha|Ha]%Hs2; [by apply Hs1 | right; lia].
Qed.

Lemma evolves_append h fuel p pv nx l ks nm :
  tree_ok h (T l ks) -> rep h p pv nx (T l ks) -> (length h <= fuel)%nat ->
  let n := length h in
  exists h', appendNewChild fuel h (l_addr l) (Some nm) None = Ret (Some n, h') /\
    evolves h (T l ks) h' (T l (ks ++ [leaf n nm])) p pv nx /\ length h' = S (length h).
Proof.
  intros Hok Hr Hfuel n. destruct (appendNewChild_ok h fuel p pv nx l ks nm Hok Hr Hfuel) as (h' & E & ? & ? & ? & ?).
  exists h'. split_and!; [done| |done]. constructor; try done. intros a. rewrite !addrs_T, kids_addrs_app. cbn.
  rewrite !elem_of_cons, !elem_of_app, list_elem_of_singleton. subst n. intuition lia.
Qed.

(** One attribute of an element, as [applyAttr] treats it. [None]: the value it
    frees is not the cell's own. *)
Definition put_attr (nm value : list Z) (st : nat * list attr) : option (nat * list attr) :=
  let '(n, l) := st in
  match find_attr nm l with
  | Some x => match at_value x with
              | Some (Lent _) => None
              | _ => Some (n, set_attr nm (Some (Lent value)) l)
              end
  | None => Some (S n, Attr n nm (Some (Own value)) :: l)
  end.

Lemma evolves_attr h fuel p pv nx l ks nm value n al :
  tree_ok h (T l ks) -> rep h p pv nx (T l ks) -> (length h <= fuel)%nat ->
  put_attr nm value (length h, l_attrs l) = Some (n, al) ->
  exists h', applyAttr fuel h (Some (l_addr l)) nm value = Ret h' /\
    evolves h (T l ks) h' (T (with_attrs al l) ks) p pv nx /\ length h' = n.
Proof.
  intros Hok Hr Hfuel. unfold put_attr. destruct (find_attr nm (l_attrs l)) as [x|] eqn:Hf; intros Hput.
  - assert (Hv : forall s, at_value x <> Some (Lent s)) by (intros s E; by rewrite E in Hput).
    assert (Hput' : Some (length h, set_attr nm (Some (Lent value)) (l_attrs l)) = Some (n, al))
      by (destruct (at_value x) as [[]|]; done).
    injection Hput' as <- <-.
    destruct (applyAttr_match h fuel p pv nx l ks nm value x Hok Hr Hfuel Hf Hv) as (h' & E & Hr' & Hok' & Hfr & Hl).
    unfold apply_attr in Hr', Hok'. rewrite Hf in Hr', Hok'. exists h'. split_and!; [done| |done].
    constructor; try done. intros a. rewrite !addrs_T. cbn [with_attrs l_addr l_attrs]. rewrite map_addr_set. auto.
  - injection Hput as <- <-.
    destruct (applyAttr_new h fuel p pv nx l ks nm value Hok Hr Hfuel Hf) as (h' & E & Hr' & Hok' & Hfr & Hl).
    unfold apply_attr in Hr', Hok'. rewrite Hf in Hr', Hok'. exists h'. split_and!; [done| |done].
    constructor; try done. intros a. rewrite !addrs_T. cbn [with_attrs l_addr l_attrs map at_addr].
    rewrite !elem_of_cons, !elem_of_app, !elem_of_cons. intuition lia.
Qed.

(** A child in the middle: its place, its cells apart from the others'. *)
Lemma rep_kid h p pv nx l pre k post :
  rep h p pv nx (T l (pre ++ k :: post)) ->
  rep h (Some (l_addr l)) (last_addr t_addr None pre) (head_addr t_addr post None) k.
Proof. intros (_ & _ & Hk). apply rep_list_app in Hk as [_ [Hk _]]. exact Hk. Qed.
Lemma tree_ok_kid h l pre k post : tree_ok h (T l (pre ++ k :: post)) -> tree_ok h k.
Proof.
  intros [(_ & _ & _ & _ & Hnd)%NoDup_T (_ & _ & Hlt)%Forall_T].
  rewrite kids_addrs_app in *. unfold kids_addrs in *. cbn [flat_map] in *.
  rewrite !NoDup_app, !Forall_app in *. split; tauto.
Qed.
Lemma kids_addrs_mid pre k post a :
  a ∈ kids_addrs (pre ++ k :: post) <-> a ∈ kids_addrs pre \/ a ∈ addrs k \/ a ∈ kids_addrs post.
Proof. rewrite kids_addrs_app. unfold kids_addrs. cbn [flat_map]. rewrite !elem_of_app. tauto. Qed.
Lemma kid_disjoint l pre k post a :
  NoDup (addrs (T l (pre ++ k :: post))) -> a ∈ addrs k ->
  a <> l_addr l /\ a ∉ map at_addr (l_attrs l) /\ a ∉ kids_addrs pre /\ a ∉ kids_addrs post.
Proof.
  intros (H1 & H2 & _ & H4 & Hnd)%NoDup_T Ha. rewrite kids_addrs_mid in H2.
  assert (Hin : a ∈ kids_addrs (pre ++ k :: post)) by (rewrite kids_addrs_mid; tauto).
  split; [intros ->; tauto|]. split; [intros Hin'; by apply (H4 a)|].
  rewrite kids_addrs_app, NoDup_app in Hnd. destruct Hnd as (_ & Hd & Hnd).
  unfold kids_addrs in *. cbn [flat_map] in *. rewrite NoDup_app in Hnd. split.
  - intros Hp%Hd. rewrite elem_of_app in Hp. tauto.
  - destruct Hnd as (_ & Hd' & _). by apply Hd'.
Qed.

(** Another subtree in the place of a child. *)
Lemma NoDup_replace_kid l pre k post k' :
  NoDup (addrs (T l (pre ++ k :: post))) -> NoDup (addrs k') ->
  (forall a, a ∈ addrs k' -> a ∈ addrs (T l (pre ++ k :: post)) -> a ∈ addrs k) ->
  NoDup (addrs (T l (pre ++ k' :: post))).
Proof.
  intros Hnd Hnd' Hsub. pose proof (fun a => kid_disjoint l pre k post a Hnd) as Hdis.
  setoid_rewrite addrs_T in Hsub. setoid_rewrite elem_of_cons in Hsub. setoid_rewrite elem_of_app in Hsub.
  setoid_rewrite kids_addrs_mid in Hsub.
  apply NoDup_T in Hnd as (H1 & H2 & H3 & H4 & H5). apply NoDup_T. rewrite kids_addrs_mid in *.
  assert (H4' : forall a, a ∈ map at_addr (l_attrs l) -> a ∉ kids_addrs pre /\ a ∉ kids_addrs post).
  { intros a Ha. apply H4 in Ha. rewrite kids_addrs_mid in Ha. tauto. }
  split_and!; [done | | done | |].
  - intros [?|[Hin|?]]; [tauto| |tauto]. pose proof (Hsub _ Hin (or_introl eq_refl)) as Hk. apply Hdis in Hk. tauto.
  - intros a Ha. rewrite kids_addrs_mid. intros [?|[Hin|?]].
    + destruct (H4' a Ha); tauto.
    + pose proof (Hsub _ Hin) as Hk. assert (Hk' : a ∈ addrs k) by tauto. apply Hdis in Hk'. tauto.
    + destruct (H4' a Ha); tauto.
  - rewrite kids_addrs_app in *. unfold kids_addrs in *. cbn [flat_map] in *. rewrite !NoDup_app in *.
    destruct H5 as (N1 & D1 & N2 & D2 & N3). split_and!; try done.
    + intros a Ha. specialize (D1 a Ha). rewrite elem_of_app in *. intros [Hin|?]; [|tauto].
      assert (Hk' : a ∈ addrs k) by (apply (Hsub a Hin); tauto). tauto.
    + intros a Ha Hin. assert (Hk' : a ∈ addrs k) by (apply (Hsub a Ha); tauto). by apply (D2 a).
Qed.

(** A child that evolves takes the tree with it. *)
Lemma evolves_kid h p pv nx l pre k post h' k' :
  tree_ok h (T l (pre ++ k :: post)) -> rep h p pv nx (T l (pre ++ k :: post)) ->
  evolves h k h' k' (Some (l_addr l)) (last_addr t_addr None pre) (head_addr t_addr post None) ->
  evolves h (T l (pre ++ k :: post)) h' (T l (pre ++ k' :: post)) p pv nx.
Proof.
  intros [Hnd Hlt] (Hc & Ha & Hk) [Hr' [Hnd' Hlt'] Hf Hadd Hsub]. pose proof Hf as [Hlen Hf'].
  pose proof Hnd as (H1 & H2 & H3 & H4 & H5)%NoDup_T. pose proof Hlt as (L1 & L2 & L3)%Forall_T.
  (* cells of the others are not cells of k', nor did they change *)
  assert (Hout : forall a, (a < length h)%nat -> a ∉ addrs k -> a ∉ addrs k')
    by (intros a Hal Hni [?|?]%Hsub; [done | lia]).
  assert (Hag : forall l', Forall (fun a => (a < length h)%nat) l' ->
    (forall a, a ∈ l' -> a ∈ addrs k -> False) -> agree l' h h').
  { intros l' Hl' Hd. eapply frame_agree; [done | done |]. intros a Hin Hin'. by eapply Hd. }
  assert (Hdis := fun a => kid_disjoint l pre k post a Hnd).
  rewrite kids_addrs_app, Forall_app in L3. unfold kids_addrs in L3. cbn [flat_map] in L3.
  rewrite Forall_app in L3. destruct L3 as (Lpre & Lk & Lpost). fold (kids_addrs pre) in Lpre. fold (kids_addrs post) in Lpost.
  constructor; try done.
  - split; [|split].
    + unfold cell. rewrite Hf'; [|done|intros Hin; apply Hdis in Hin; tauto].
      unfold cell in Hc. rewrite Hc. unfold tree_cell. do 3 f_equal. destruct pre; cbn; congruence.
    + eapply rep_attrs_agree; [|done]. apply Hag; [done|]. intros a Hin Hin'. apply Hdis in Hin'. tauto.
    + apply rep_list_app in Hk as [Hkpre [_ Hkpost]]. apply rep_list_app. cbn [head_addr rep_list] in *. rewrite Hadd.
      split; [|split]; [|exact Hr'|].
      * eapply rep_kids_agree; [|exact Hkpre]. apply Hag; [done|]. intros a Hin Hin'. apply Hdis in Hin'. tauto.
      * eapply rep_kids_agree; [|exact Hkpost]. apply Hag; [done|]. intros a Hin Hin'. apply Hdis in Hin'. tauto.
  - split.
    + eapply NoDup_replace_kid; [done..|]. intros a [?|?]%Hsub; [done|].
      intros Hin. rewrite Forall_forall in Hlt. apply Hlt in Hin. lia.
    + apply Forall_T. rewrite kids_addrs_app, Forall_app. unfold kids_addrs. cbn [flat_map]. rewrite Forall_app.
      split_and!; try done; [lia|..]; (eapply Forall_impl; [done|]); cbn; intros; lia.
  - split; [done|]. intros b Hb Hni. apply Hf'; [done|]. intros Hin. apply Hni. rewrite addrs_T, elem_of_cons, elem_of_app, kids_addrs_mid. tauto.
  - intros a. rewrite !addrs_T, !elem_of_cons, !elem_of_app, !kids_addrs_mid. intros [?|[?|[?|[[?|?]%Hsub|?]]]]; tauto.
Qed.
