(* ===== verification/ConfXml.v ===== *)
(** * Loading and printing XML (conf_xml.c)

    Expat is a parameter: [XML_Parse] takes a parser state, a piece of the document
    and whether it is the last, and gives the new state, the handler calls it makes
    in that piece, and whether it reports an error.  The handlers are the code's.
    A document's structure is an [xml] tree; [events] are the calls Expat documents
    for it. *)

From S2P Require Import Prelude CLib CFormat ConfNode.
From stdpp Require Import sets.
#[local] Open Scope Z_scope.

(** ** The handlers *)

Record xml_state : Type := XmlState {
  xs_level : Z;
  xs_root : ptr;
  xs_last : ptr;
  xs_conf_id : Z
}.

Inductive xml_event : Type :=
| StartElement (el : list Z) (attr : list (list Z * list Z))
| EndElement (el : list Z)
| Characters (ch : list Z).

(** [sprintf (attrname, "value%d", conf_id)] into 16 bytes. *)
Definition value_name (conf_id : Z) : list Z := str "value" ++ print_d conf_id.
Definition sprintf_value (conf_id : Z) : run (list Z) :=
  if zlen (value_name conf_id) + 1 <=? 16 then Ret (value_name conf_id) else Undef.

(** The loop over the attributes, which an empty name ends. *)
Fixpoint apply_attrs (fuel : nat) (h : heap) (conf_id : Z) (last : ptr) (attr : list (list Z * list Z)) : run heap :=
  match attr with
  | [] => Ret h
  | (name, value) :: r =>
      match name with
      | [] => Ret h
      | _ =>
          h ← (if conf_id =? 1 then applyAttr fuel h last name value
               else if streq name (str "value") then
                 attrname ← sprintf_value conf_id;
                 applyAttr fuel h last attrname value
               else Ret h);
          apply_attrs fuel h conf_id last r
      end
  end.

Definition startElement (fuel : nat) (xst : xml_state) (h : heap) (el : list Z) (attr : list (list Z * list Z))
  : run (xml_state * heap) :=
  r ← (if xs_conf_id xst =? 1 then l ← deref (xs_last xst); appendNewChild fuel h l (Some el) None
       else applyNode fuel h (xs_last xst) el);
  let '(node, h) := r in
  match node with
  | None => Ret (xst, h) (* ERROR: no target node *)
  | Some _ =>
      h ← apply_attrs fuel h (xs_conf_id xst) node attr;
      Ret (XmlState (xs_level xst + 1) (xs_root xst) node (xs_conf_id xst), h)
  end.

Definition endElement (xst : xml_state) (h : heap) : run xml_state :=
  let level := xs_level xst - 1 in
  if bool_decide (xs_last xst = xs_root xst) then
    Ret (XmlState level (xs_root xst) (xs_last xst) (xs_conf_id xst))
  else
    l ← deref (xs_last xst);
    n ← load h l;
    Ret (XmlState level (xs_root xst) (n_parent n) (xs_conf_id xst)).

(** One handler call; [characters] does nothing. *)
Definition handle (fuel : nat) (st : xml_state * heap) (e : xml_event) : run (xml_state * heap) :=
  let '(xst, h) := st in
  match e with
  | StartElement el attr => startElement fuel xst h el attr
  | EndElement _ => xst ← endElement xst h; Ret (xst, h)
  | Characters _ => Ret (xst, h)
  end.
Fixpoint handle_all (fuel : nat) (st : xml_state * heap) (es : list xml_event) : run (xml_state * heap) :=
  match es with
  | [] => Ret st
  | e :: r => st ← handle fuel st e; handle_all fuel st r
  end.

(** ** [load_xml] and [load_xml_buf] *)

Definition BUFFSIZE : Z := 1024.
Definition EIO : Z := 5.
Definition ENXIO : Z := 6.

Section expat.
Context {P : Type} (XML_ParserCreate : P) (XML_Parse : P -> list Z -> bool -> P * list xml_event * bool).

(** [*newroot ? *newroot : newNode("root", 0)] *)
Definition root_or_new (h : heap) (newroot : ptr) : ptr * heap :=
  match newroot with Some r => (Some r, h) | None => newNode h (Some (str "root")) None end.

(** The pieces [fread] gives: each but the last is full. *)
Fixpoint fread_loop (k : nat) (fuel : nat) (st : xml_state * heap) (parser : P) (rest : list Z)
  : run ((xml_state * heap) * bool) :=
  match k with
  | O => NoFuel
  | S k =>
      let buf : list Z := ztake BUFFSIZE rest in
      let eof : bool := zlen buf <? BUFFSIZE in
      let '(parser, es, ok) := XML_Parse parser buf eof in
      st ← handle_all fuel st es;
      if ok then if eof then Ret (st, true) else fread_loop k fuel st parser (zdrop BUFFSIZE rest)
      else Ret (st, false)
  end.

(** The result code, [*newroot] and the heap. *)
Definition load_xml (fuel : nat) (h : heap) (newroot : ptr) (file : option (list Z)) (conf_id : Z)
  : run (Z * ptr * heap) :=
  let '(root, h) := root_or_new h newroot in
  let xst := XmlState 0 root root conf_id in
  match file with
  | None => Ret (EIO, newroot, h)
  | Some content =>
      r ← fread_loop fuel fuel (xst, h) XML_ParserCreate content;
      let '((xst, h), ok) := r in
      if (ok : bool) then Ret (0, xs_root xst, h) else Ret (ENXIO, newroot, h)
  end.

Definition load_xml_buf (fuel : nat) (h : heap) (newroot : ptr) (buf : list Z) (conf_id : Z) : run (Z * ptr * heap) :=
  let '(root, h) := root_or_new h newroot in
  let xst := XmlState 0 root root conf_id in
  let '(_, es, ok) := XML_Parse XML_ParserCreate buf true in
  r ← handle_all fuel (xst, h) es;
  let '(xst, h) := r in
  if ok then Ret (0, xs_root xst, h) else Ret (ENXIO, newroot, h).

End expat.

(** ** Printing *)

Definition INDENT : list Z := [9].

Definition print_indent (l : Z) : list Z := concat (replicate (Z.to_nat l) INDENT).

(** What is printed for the attributes from [p]. *)
Fixpoint XMLattrdump (fuel : nat) (h : heap) (p : ptr) : run (list Z) :=
  match p with
  | None => Ret []
  | Some a =>
      match fuel with
      | O => NoFuel
      | S fuel =>
          n ← load h a;
          s ← match n_value n with
              | Some _ => v ← read_value (n_value n); Ret (str " " ++ n_name n ++ str "=" ++ [QUOTE] ++ v ++ [QUOTE])
              | None => Ret (str " " ++ n_name n ++ str "=" ++ [QUOTE] ++ str "true" ++ [QUOTE])
              end;
          r ← XMLattrdump fuel h (n_next n);
          Ret (s ++ r)
      end
  end.

(** The loop over the children, each printed by [dump]. *)
Fixpoint dump_siblings (k : nat) (h : heap) (dump : nat -> run (list Z)) (p : ptr) : run (list Z) :=
  match p with
  | None => Ret []
  | Some a =>
      match k with
      | O => NoFuel
      | S k =>
          s ← dump a;
          n ← load h a;
          r ← dump_siblings k h dump (n_next n);
          Ret (s ++ r)
      end
  end.

Fixpoint XMLdumpL (fuel : nat) (h : heap) (top : nat) (l : Z) : run (list Z) :=
  match fuel with
  | O => NoFuel
  | S fuel =>
      n ← load h top;
      attrs ← match n_firstAttr n with Some a => XMLattrdump fuel h (Some a) | None => Ret [] end;
      kids ← dump_siblings fuel h (fun a => XMLdumpL fuel h a (l + 1)) (n_firstChild n);
      let br := match n_firstChild n with Some _ => [LF] | None => [] end in
      let ind := match n_firstChild n with Some _ => print_indent l | None => [] end in
      Ret (print_indent l ++ str "<" ++ n_name n ++ attrs ++ str ">" ++ br ++ kids ++ ind ++
           str "</" ++ n_name n ++ str ">" ++ [LF])
  end.
Definition XMLdump (fuel : nat) (h : heap) (first : nat) : run (list Z) := XMLdumpL fuel h first 0.

(** ** What loading a document does to the tree *)

#[warnings="-register-all"]
Inductive xml : Type := Elem (el : list Z) (attr : list (list Z * list Z)) (kids : list xml).

Lemma xml_ind' (P : xml -> Prop) : (forall el attr kids, Forall P kids -> P (Elem el attr kids)) -> forall e, P e.
Proof.
  intros H. fix IH 1. intros [el attr kids]. apply H. induction kids as [|k ks IHks]; constructor; [apply IH | apply IHks].
Qed.

(** The handler calls for an element. *)
Fixpoint events (e : xml) : list xml_event :=
  match e with Elem el attr kids => StartElement el attr :: flat_map events kids ++ [EndElement el] end.
Definition structure (es : list xml_event) : list xml_event :=
  List.filter (fun e => match e with Characters _ => false | _ => true end) es.

Section ofold.
Context {S A : Type} (f : A -> S -> option S).
Fixpoint ofold (l : list A) (s : S) : option S :=
  match l with [] => Some s | a :: r => match f a s with Some s => ofold r s | None => None end end.
End ofold.

(** The attribute a loaded attribute is stored in: itself when the defaults are
    loaded, [value<n>] for the value of another configuration. *)
Definition target (conf_id : Z) (name : list Z) : option (list Z) :=
  if conf_id =? 1 then Some name
  else if streq name (str "value") then Some (value_name conf_id) else None.

(** Loading on trees, with the address the next cell gets.  [None]: the code frees
    a string it does not own. *)
Fixpoint load_attrs (conf_id : Z) (attr : list (list Z * list Z)) (st : nat * list ConfNode.attr)
  : option (nat * list ConfNode.attr) :=
  match attr with
  | [] => Some st
  | (name, value) :: r =>
      match name with
      | [] => Some st
      | _ => match (match target conf_id name with Some t => put_attr t value st | None => Some st end) with
             | Some st => load_attrs conf_id r st
             | None => None
             end
      end
  end.

(** The child an element goes to: for the defaults a new one, else the first of its
    name if there is one. *)
Fixpoint split_kid (nm : list Z) (ks : list tree) : option (list tree * tree * list tree) :=
  match ks with
  | [] => None
  | k :: r =>
      if streq (t_name k) nm then Some ([], k, r)
      else match split_kid nm r with Some (pre, k', post) => Some (k :: pre, k', post) | None => None end
  end.
Definition place (conf_id : Z) (el : list Z) (n : nat) (ks : list tree) : list tree * tree * list tree * nat :=
  match (if conf_id =? 1 then None else split_kid el ks) with
  | Some (pre, k, post) => (pre, k, post, n)
  | None => (ks, leaf n el, [], S n)
  end.

Fixpoint load_elem (conf_id : Z) (e : xml) (st : nat * tree) : option (nat * tree) :=
  match e with
  | Elem el attr kids =>
      let '(n, T l ks) := st in
      let '(pre, T lk kk, post, n) := place conf_id el n ks in
      match load_attrs conf_id attr (n, l_attrs lk) with
      | Some (n, al) =>
          match ofold (load_elem conf_id) kids (n, T (with_attrs al lk) kk) with
          | Some (n, k) => Some (n, T l (pre ++ k :: post))
          | None => None
          end
      | None => None
      end
  end.

(** ** The handlers do that on the heap *)

Lemma split_kid_spec nm ks :
  match split_kid nm ks with
  | Some (pre, k, post) => ks = pre ++ k :: post /\ find_kid nm ks = Some k /\ find_kid nm pre = None
  | None => find_kid nm ks = None
  end.
Proof.
  unfold find_kid. induction ks as [|k ks IH]; [done|]. cbn [split_kid List.find].
  destruct (streq (t_name k) nm) eqn:Ek; [done|]. destruct (split_kid nm ks) as [[[pre k'] post]|]; [|done].
  destruct IH as (-> & E & E'). rewrite E. cbn [List.find]. by rewrite Ek, E'.
Qed.

Lemma put_attr_mono nm v n al n' al' : put_attr nm v (n, al) = Some (n', al') -> (n <= n')%nat.
Proof. unfold put_attr. repeat case_match; intros; simplify_eq; lia. Qed.
Lemma load_attrs_mono id attr : forall n al n' al', load_attrs id attr (n, al) = Some (n', al') -> (n <= n')%nat.
Proof.
  induction attr as [|[name value] attr IH]; cbn [load_attrs]; intros n al n' al' H; [by simplify_eq|].
  destruct name; [by simplify_eq|]. destruct (target _ _).
  - destruct (put_attr _ _ _) as [[n1 al1]|] eqn:E; [|done]. apply put_attr_mono in E. apply IH in H. lia.
  - by apply IH in H.
Qed.

Lemma with_attrs_same l : with_attrs (l_attrs l) l = l.
Proof. by destruct l. Qed.

(** The configurations whose attribute name fits the buffer. *)
Definition id_ok (conf_id : Z) : Prop := zlen (value_name conf_id) <= 15.

Lemma id_ok_pos conf_id : 0 <= conf_id -> id_ok conf_id.
Proof.
  intros H%print_d_length. unfold id_ok, value_name. rewrite zlen_app. change (zlen (str "value")) with 5. lia.
Qed.

Section simulation.
Context (fuel : nat) (id : Z) (Hid : id_ok id).

Lemma load_attrs_ok p pv nx ks : forall attr h l n al,
  tree_ok h (T l ks) -> rep h p pv nx (T l ks) ->
  load_attrs id attr (length h, l_attrs l) = Some (n, al) -> (n <= fuel)%nat ->
  exists h', apply_attrs fuel h id (Some (l_addr l)) attr = Ret h' /\
    evolves h (T l ks) h' (T (with_attrs al l) ks) p pv nx /\ length h' = n.
Proof.
  assert (Hnone : forall h l, tree_ok h (T l ks) -> rep h p pv nx (T l ks) ->
    evolves h (T l ks) h (T (with_attrs (l_attrs l) l) ks) p pv nx).
  { intros h l Hok Hr. rewrite with_attrs_same. by apply evolves_refl. }
  induction attr as [|[name value] attr IH]; cbn [load_attrs apply_attrs]; intros h l n al Hok Hr Hl Hf.
  - injection Hl as <- <-. exists h. auto.
  - destruct name as [|c name]; [injection Hl as <- <-; exists h; auto|].
    set (nm := c :: name) in *.
    assert (Hput : forall t n1 al1, target id nm = Some t -> put_attr t value (length h, l_attrs l) = Some (n1, al1) ->
      (n1 <= fuel)%nat ->
      exists h1, (if id =? 1 then applyAttr fuel h (Some (l_addr l)) nm value
         else if streq nm (str "value") then a ← sprintf_value id; applyAttr fuel h (Some (l_addr l)) a value
         else Ret h) = Ret h1 /\
        evolves h (T l ks) h1 (T (with_attrs al1 l) ks) p pv nx /\ length h1 = n1).
    { intros t n1 al1 Ht Hp Hn1. pose proof (put_attr_mono _ _ _ _ _ _ Hp) as Hm.
      destruct (evolves_attr h fuel p pv nx l ks t value n1 al1 Hok Hr) as (h1 & E & Hev & Hlen); [lia | done|].
      exists h1. split; [|done]. unfold target in Ht. destruct (id =? 1); [by injection Ht as <-|].
      destruct (streq nm (str "value")); [|done]. injection Ht as <-.
      unfold sprintf_value. rewrite (proj2 (Z.leb_le _ _)) by (unfold id_ok in Hid; lia). exact E. }
    destruct (target id nm) as [t|] eqn:Ht.
    + destruct (put_attr t value _) as [[n1 al1]|] eqn:Hp; [|done].
      pose proof (load_attrs_mono _ _ _ _ _ _ Hl) as Hm.
      destruct (Hput t n1 al1 eq_refl Hp) as (h1 & -> & Hev & <-); [lia|]. rsimpl.
      destruct (IH h1 (with_attrs al1 l) n al) as (h2 & E2 & Hev2 & Hlen2); [apply Hev | apply Hev | done | done |].
      exists h2. split; [exact E2|]. split; [|done]. eapply evolves_trans; [done|exact Hev2].
    + unfold target in Ht. destruct (id =? 1); [done|]. destruct (streq nm (str "value")); [done|]. rsimpl. by apply IH.
Qed.

(** The calls [es] turn a tree into what [f] makes of it, and leave the parser's
    position where it was: at the root of that tree. *)
Definition simulates (es : list xml_event) (f : nat * tree -> option (nat * tree)) : Prop :=
  forall h p pv nx t n' t' lvl r,
  f (length h, t) = Some (n', t') -> tree_ok h t -> rep h p pv nx t -> (n' <= fuel)%nat ->
  (r < length h)%nat -> r = t_addr t \/ r ∉ addrs t ->
  exists h', handle_all fuel (XmlState lvl (Some r) (Some (t_addr t)) id, h) es =
      Ret (XmlState lvl (Some r) (Some (t_addr t)) id, h') /\
    evolves h t h' t' p pv nx /\ length h' = n'.

Lemma handle_all_app st es1 es2 :
  handle_all fuel st (es1 ++ es2) = (st ← handle_all fuel st es1; handle_all fuel st es2).
Proof.
  revert st. induction es1 as [|e es1 IH]; intros st; [done|]. cbn [app handle_all].
  destruct (handle fuel st e); rsimpl; [apply IH|done..].
Qed.
(** The node [startElement] chooses. *)
Lemma place_ok h p pv nx l ks el pre k post n :
  tree_ok h (T l ks) -> rep h p pv nx (T l ks) -> (length h <= fuel)%nat ->
  place id el (length h) ks = (pre, k, post, n) ->
  exists h', (if id =? 1 then a ← deref (Some (l_addr l)); appendNewChild fuel h a (Some el) None
              else applyNode fuel h (Some (l_addr l)) el) = Ret (Some (t_addr k), h') /\
    evolves h (T l ks) h' (T l (pre ++ k :: post)) p pv nx /\ length h' = n.
Proof.
  intros Hok Hr Hf Hp. unfold place in Hp.
  assert (Happ : (ks, leaf (length h) el, [], S (length h)) = (pre, k, post, n) ->
    exists h', appendNewChild fuel h (l_addr l) (Some el) None = Ret (Some (t_addr k), h') /\
      evolves h (T l ks) h' (T l (pre ++ k :: post)) p pv nx /\ length h' = n).
  { intros [= <- <- <- <-]. by apply evolves_append. }
  destruct (id =? 1); [by apply Happ|].
  pose proof (applyNode_ok h fuel p pv nx l ks el Hok Hr Hf) as Hn. pose proof (split_kid_spec el ks) as Hs.
  destruct (split_kid el ks) as [[[pre' k'] post']|].
  - destruct Hs as (-> & Hfk & _). injection Hp as <- <- <- <-. rewrite Hfk in Hn. exists h. split; [done|].
    split; [by apply evolves_refl | done].
  - rewrite Hs in Hn. destruct (Happ Hp) as (h' & E & Hev & Hlen). exists h'. split; [|done].
    destruct Hn as (h2 & E2 & _). injection Hp as <- <- <- <-. cbn. 
    unfold applyNode in *. pose proof Hr as (Hc & _ & Hk). pose proof (tree_ok_bounds _ _ _ Hok) as [_ Hb].
    rewrite (load_cell _ _ _ Hc) in *. rsimpl. cbn [tree_cell n_firstChild] in *.
    rewrite (find_kid_ok _ _ (l_addr l) _ None) in * by (done || lia). rewrite Hs in *. rsimpl.
    cbn [fmap option_fmap option_map] in *. unfold appendNewChild in E. unfold newNode, malloc in *. by rewrite E.
Qed.

Lemma load_elem_mono e : forall n t n' t', load_elem id e (n, t) = Some (n', t') -> (n <= n')%nat.
Proof.
  induction e as [el attr kids IH] using xml_ind'. intros n [l ks] n' t' H. cbn [load_elem] in H.
  destruct (place id el n ks) as [[[pre [lk kk]] post] n1] eqn:Ep.
  assert (n <= n1)%nat.
  { unfold place in Ep. destruct (if id =? 1 then None else split_kid el ks) as [[[? ?] ?]|]; simplify_eq; lia. }
  destruct (load_attrs id attr (n1, l_attrs lk)) as [[n2 al]|] eqn:Ea; [|done]. apply load_attrs_mono in Ea.
  assert (Hk : forall s s', ofold (load_elem id) kids s = Some s' -> (s.1 <= s'.1)%nat).
  { clear H. induction IH as [|e kids He _ IHk]; cbn [ofold]; intros s s' Hs; [by simplify_eq|].
    destruct (load_elem id e s) as [s1|] eqn:E1; [|done]. destruct s as [m t], s1 as [m1 t1].
    apply He in E1. apply IHk in Hs. cbn in *. lia. }
  destruct (ofold (load_elem id) kids _) as [[n3 k]|] eqn:Eo; [|done]. apply Hk in Eo. cbn in Eo. simplify_eq. lia.
Qed.
Lemma ofold_mono kids : forall n t n' t', ofold (load_elem id) kids (n, t) = Some (n', t') -> (n <= n')%nat.
Proof.
  induction kids as [|e kids IH]; cbn [ofold]; intros n t n' t' H; [by simplify_eq|].
  destruct (load_elem id e (n, t)) as [[n1 t1]|] eqn:E; [|done]. apply load_elem_mono in E. apply IH in H. lia.
Qed.

(** The root of the parse stays at or outside the subtree. *)
Lemma root_outside h t h' t' p pv nx r :
  evolves h t h' t' p pv nx -> (r < length h)%nat -> r = t_addr t \/ r ∉ addrs t -> r = t_addr t' \/ r ∉ addrs t'.
Proof.
  intros [_ _ _ Ha Hs] Hlt [->|Hni]; [by left|]. right. intros [?|?]%Hs; [done|lia].
Qed.

Lemma simulates_kids kids :
  Forall (fun e => simulates (events e) (load_elem id e)) kids ->
  simulates (flat_map events kids) (ofold (load_elem id) kids).
Proof.
  induction 1 as [|e kids He _ IH]; intros h p pv nx t n' t' lvl r Hl Hok Hr Hf Hlt Hroot; cbn [ofold flat_map] in *.
  - injection Hl as <- <-. exists h. split; [done|]. split; [by apply evolves_refl | done].
  - destruct (load_elem id e (length h, t)) as [[n1 t1]|] eqn:E; [|done].
    pose proof (ofold_mono _ _ _ _ _ Hl) as Hm. pose proof (load_elem_mono _ _ _ _ _ E) as Hm'.
    destruct (He h p pv nx t n1 t1 lvl r E Hok Hr) as (h1 & E1 & Hev & <-); [lia|done..|].
    destruct (IH h1 p pv nx t1 n' t' lvl r Hl) as (h2 & E2 & Hev2 & Hlen);
      [apply Hev | apply Hev | done | lia | by eapply root_outside |].
    exists h2. rewrite handle_all_app, E1. rsimpl. rewrite (ev_addr _ _ _ _ _ _ _ Hev) in E2.
    split; [exact E2|]. split; [by eapply evolves_trans | done].
Qed.

Lemma simulates_elem e : simulates (events e) (load_elem id e).
Proof.
  induction e as [el attr kids IH] using xml_ind'. apply simulates_kids in IH.
  intros h p pv nx [l ks] n' t' lvl r Hl Hok Hr Hf Hlt Hroot. cbn [load_elem events] in *.
  destruct (place id el (length h) ks) as [[[pre [lk kk]] post] n1] eqn:Ep.
  destruct (load_attrs id attr (n1, l_attrs lk)) as [[n2 al]|] eqn:Ea; [|done].
  destruct (ofold (load_elem id) kids _) as [[n3 k3]|] eqn:Eo; [|done]. injection Hl as <- <-.
  pose proof (load_attrs_mono _ _ _ _ _ _ Ea) as Hm. pose proof (ofold_mono _ _ _ _ _ Eo) as Hm'.
  destruct (place_ok h p pv nx l ks el pre (T lk kk) post n1 Hok Hr) as (h1 & E1 & Hev1 & <-); [|done|].
  { unfold place in Ep. destruct (if id =? 1 then None else split_kid el ks) as [[[? ?] ?]|]; simplify_eq; lia. }
  (* inside the node *)
  pose proof (ev_ok _ _ _ _ _ _ _ Hev1) as Hok1. pose proof (ev_rep _ _ _ _ _ _ _ Hev1) as Hr1.
  pose proof (rep_kid _ _ _ _ _ _ _ _ Hr1) as Hrk. pose proof (tree_ok_kid _ _ _ _ _ Hok1) as Hokk.
  destruct (load_attrs_ok _ _ _ kk attr h1 lk n2 al Hokk Hrk Ea) as (h2 & E2 & Hev2 & <-); [lia|].
  assert (Hroot1 : r ∉ addrs (T lk kk)).
  { pose proof (root_outside _ _ _ _ _ _ _ r Hev1 Hlt Hroot) as [->|Hni].
    - intros Hin. destruct Hok1 as [Hnd _]. pose proof (kid_disjoint _ _ _ _ _ Hnd Hin). tauto.
    - intros Hin. apply Hni. rewrite addrs_T, elem_of_cons, elem_of_app, kids_addrs_mid. tauto. }
  assert (Hlt1 : (r < length h1)%nat) by (pose proof (ev_frame _ _ _ _ _ _ _ Hev1) as [? _]; lia).
  assert (Hlt2 : (r < length h2)%nat) by (pose proof (ev_frame _ _ _ _ _ _ _ Hev2) as [? _]; lia).
  pose proof (root_outside _ _ _ _ _ _ _ r Hev2 Hlt1 (or_intror Hroot1)) as Hroot2.
  destruct (IH h2 _ _ _ _ n3 k3 (lvl + 1) r Eo (ev_ok _ _ _ _ _ _ _ Hev2) (ev_rep _ _ _ _ _ _ _ Hev2))
    as (h3 & E3 & Hev3 & <-); [lia|done..|].
  pose proof (evolves_trans _ _ _ _ _ _ _ _ _ Hev2 Hev3) as Hevk.
  pose proof (evolves_kid _ _ _ _ _ _ _ _ _ _ Hok1 Hr1 Hevk) as Hevl.
  (* the way back *)
  assert (Hne : r <> t_addr k3).
  { rewrite (ev_addr _ _ _ _ _ _ _ Hevk). intros ->. apply Hroot1, t_addr_in. }
  pose proof (rep_cell _ _ _ _ _ (ev_rep _ _ _ _ _ _ _ Hevk)) as Hck.
  exists h3. split; [|split; [by eapply evolves_trans|done]].
  cbn [handle_all handle]. unfold startElement. cbn [xs_conf_id xs_last xs_level xs_root].
  change (t_addr (T l ks)) with (l_addr l). rewrite E1. rsimpl. change (t_addr (T lk kk)) with (l_addr lk).
  rewrite E2. rsimpl. change (l_addr lk) with (t_addr (T (with_attrs al lk) kk)). rewrite handle_all_app, E3. rsimpl.
  cbn [handle_all handle]. unfold endElement. cbn [xs_conf_id xs_last xs_level xs_root].
  rewrite <- (ev_addr _ _ _ _ _ _ _ Hev3), bool_decide_eq_false_2 by congruence. cbn [deref]. rsimpl.
  rewrite (load_cell _ _ _ Hck). rsimpl. cbn [tree_cell n_parent]. by replace (lvl + 1 - 1) with lvl by lia.
Qed.
End simulation.

(** ** Whole documents *)

Section documents.
Context {P : Type} (XML_ParserCreate : P) (XML_Parse : P -> list Z -> bool -> P * list xml_event * bool).

(** Expat fed with pieces, the last marked as such: the handler calls it makes,
    [None] when it reports an error. *)
Fixpoint feed (p : P) (pieces : list (list Z)) : option (list xml_event) :=
  match pieces with
  | [] => None
  | [b] => let '(_, es, ok) := XML_Parse p b true in if ok then Some es else None
  | b :: r =>
      let '(p, es, ok) := XML_Parse p b false in
      if ok then match feed p r with Some es' => Some (es ++ es') | None => None end else None
  end.

(** [content] is the document [e]: parsed in any pieces, the element calls are
    those of [e]. *)
Definition is_document (content : list Z) (e : xml) : Prop :=
  forall pieces, pieces <> [] -> concat pieces = content ->
  exists es, feed XML_ParserCreate pieces = Some es /\ structure es = events e.

Lemma handle_all_structure fuel es : forall st, handle_all fuel st es = handle_all fuel st (structure es).
Proof.
  induction es as [|[el attr|el|ch] es IH]; intros [xst h]; cbn [structure List.filter handle_all handle]; [done| | |].
  - destruct (startElement _ _ _ _ _); rsimpl; [apply IH|done..].
  - destruct (endElement _ _); rsimpl; [apply IH|done..].
  - rsimpl. apply IH.
Qed.

(** The file is read in pieces whose concatenation it is. *)
Lemma fread_loop_feed fuel : forall k rest p,
  (length rest < k)%nat ->
  exists pieces, pieces <> [] /\ concat pieces = rest /\ forall es st, feed p pieces = Some es ->
    fread_loop XML_Parse k fuel st p rest = (st ← handle_all fuel st es; Ret (st, true)).
Proof.
  assert (Hrec : forall k rest p, exists pieces, pieces <> [] /\ ((length rest < k)%nat -> concat pieces = rest /\
    forall es st, feed p pieces = Some es ->
    fread_loop XML_Parse k fuel st p rest = (st ← handle_all fuel st es; Ret (st, true)))).
  { induction k as [|k IH]; intros rest p; [by exists [[]]; split; [|lia]|]. cbn [fread_loop].
    pose proof (zlen_take BUFFSIZE rest) as Hz. pose proof (zlen_nonneg rest). unfold BUFFSIZE in *.
    destruct (Z.ltb_spec (zlen (ztake 1024 rest)) 1024).
    - exists [ztake 1024 rest]. split; [done|]. intros _. split; [cbn; rewrite app_nil_r; apply ztake_all; lia|].
      intros es st. cbn [feed]. destruct (XML_Parse p _ true) as [[p' es'] []]; [|done]. by intros [= ->].
    - destruct (XML_Parse p (ztake 1024 rest) false) as [[p' es'] ok] eqn:E.
      destruct (IH (zdrop 1024 rest) p') as (pieces & Hne & Hp). exists (ztake 1024 rest :: pieces).
      split; [done|]. intros Hlen. destruct Hp as [Hc Hp].
      { unfold zdrop, zlen in *. rewrite length_drop. lia. }
      split; [cbn; rewrite Hc; apply ztake_drop|]. intros es st. cbn [feed].
      destruct pieces as [|b pieces]; [done|]. rewrite E. destruct ok; [|done].
      destruct (feed p' (b :: pieces)) as [es''|]; [|done]. intros [= <-].
      rewrite handle_all_app. destruct (handle_all fuel st es') as [st'| |]; rsimpl; [|done..]. by apply Hp. }
  intros k rest p Hk. destruct (Hrec k rest p) as (pieces & Hne & H). exists pieces. split; [done|]. by apply H.
Qed.

(** [load_xml] of a document into the tree of the root it was given or made. *)
Lemma load_xml_ok fuel h0 newroot h t content e id n' t' :
  root_or_new h0 newroot = (Some (t_addr t), h) ->
  is_document content e -> id_ok id -> rep h None None None t -> tree_ok h t ->
  load_elem id e (length h, t) = Some (n', t') -> (n' <= fuel)%nat -> (length content < fuel)%nat ->
  exists h', load_xml XML_ParserCreate XML_Parse fuel h0 newroot (Some content) id = Ret (0, Some (t_addr t), h') /\
    evolves h t h' t' None None None /\ length h' = n'.
Proof.
  intros Hroot Hdoc Hid Hr Hok Hl Hf Hc.
  destruct (fread_loop_feed fuel fuel content XML_ParserCreate Hc) as (pieces & Hne & Hcat & Hloop).
  destruct (Hdoc pieces Hne Hcat) as (es & Hfeed & Hes).
  destruct (simulates_elem fuel id Hid e h None None None t n' t' 0 (t_addr t) Hl Hok Hr Hf) as (h' & E & Hev & Hlen).
  { destruct Hok as [_ Hlt]. rewrite Forall_forall in Hlt. apply Hlt, t_addr_in. }
  { by left. }
  exists h'. split; [|done]. unfold load_xml. rewrite Hroot, (Hloop es _ Hfeed).
  rewrite handle_all_structure, Hes, E. rsimpl. done.
Qed.
End documents.

(** ** The defaults read back *)

Definition value_string (v : option strval) : list Z :=
  match v with Some (Own s) | Some (Lent s) => s | None => [] end.
Definition attr_pair (a : ConfNode.attr) : list Z * list Z := (at_name a, value_string (at_value a)).
(** The document a tree stands for: [addAttr] keeps the attributes last first. *)
Fixpoint document (t : tree) : xml :=
  match t with T l ks => Elem (l_name l) (rev (map attr_pair (l_attrs l))) (map document ks) end.

Definition owned_attr (a : ConfNode.attr) : Prop := exists s, at_value a = Some (Own s).
(** Every attribute has a value of its own. *)
#[warnings="-register-all"]
Inductive owned : tree -> Prop :=
| owned_T l ks : Forall owned_attr (l_attrs l) -> Forall owned ks -> owned (T l ks).

(** Well-formed: attribute names are not empty, nor repeated in an element. *)
#[warnings="-register-all"]
Inductive xml_ok : xml -> Prop :=
| xml_ok_Elem el attr kids :
    NoDup (map fst attr) -> Forall (fun a => a.1 <> []) attr -> Forall xml_ok kids -> xml_ok (Elem el attr kids).

Lemma find_attr_None nm al : find_attr nm al = None <-> nm ∉ map at_name al.
Proof.
  unfold find_attr. induction al as [|a al IH]; cbn; [split; [intros _; set_solver | done]|].
  rewrite elem_of_cons. destruct (streq (at_name a) nm) eqn:E.
  - apply streq_true in E. split; [done|]. intros H. exfalso. apply H. by left.
  - apply streq_false in E. rewrite IH. split; [|tauto]. intros H [?|?]; [congruence|done].
Qed.

(** Attributes that are all new go in front one by one. *)
Lemma load_attrs_new attr : forall n al,
  NoDup (map fst attr) -> Forall (fun a => a.1 <> []) attr ->
  (forall a, a ∈ map fst attr -> a ∉ map at_name al) ->
  exists n' new, load_attrs 1 attr (n, al) = Some (n', new ++ al) /\
    rev (map attr_pair new) = attr /\ Forall owned_attr new.
Proof.
  induction attr as [|[nm v] attr IH]; intros n al Hnd Hne Hdis; [by exists n, []|].
  cbn [map fst] in *. apply NoDup_cons in Hnd as [Hni Hnd]. apply Forall_cons in Hne as [Hne1 Hne].
  cbn [load_attrs]. destruct nm as [|c nm]; [done|]. set (name := c :: nm) in *.
  change (target 1 name) with (Some name). unfold put_attr.
  rewrite (proj2 (find_attr_None name al)) by (apply Hdis; set_solver).
  destruct (IH (S n) (Attr n name (Some (Own v)) :: al) Hnd Hne) as (n' & new & E & Hrev & How).
  { intros a Ha. cbn [map at_name]. apply not_elem_of_cons. split; [by intros ->|]. apply Hdis. set_solver. }
  exists n', (new ++ [Attr n name (Some (Own v))]). rewrite <- app_assoc. split; [exact E|].
  rewrite map_app, rev_app_distr, Hrev. split; [done|]. apply Forall_app. split; [done|]. constructor; [by eexists | done].
Qed.

Lemma load_elem_new e : xml_ok e -> forall n l ks,
  exists n' k, load_elem 1 e (n, T l ks) = Some (n', T l (ks ++ [k])) /\ document k = e /\ owned k.
Proof.
  induction e as [el attr kids IH] using xml_ind'. intros Hok n l ks. inversion Hok as [? ? ? Hnd Hne Hk]; subst.
  cbn [load_elem]. change (place 1 el n ks) with (ks, leaf n el, @nil tree, S n). cbn [leaf l_attrs].
  destruct (load_attrs_new attr (S n) [] Hnd Hne) as (n1 & new & -> & Hrev & How); [intros; set_solver|].
  rewrite app_nil_r. set (lk := with_attrs new _).
  assert (Hfold : forall n ks0, Forall owned ks0 -> exists n' ks', ofold (load_elem 1) kids (n, T lk ks0) =
    Some (n', T lk (ks0 ++ ks')) /\ map document ks' = kids /\ Forall owned ks').
  { clear Hok. induction IH as [|e kids He _ IHk]; intros m ks0 Hks0; [exists m, []; by rewrite app_nil_r|].
    apply Forall_cons in Hk as [Hk1 Hk]. cbn [ofold].
    destruct (He Hk1 m lk ks0) as (m1 & k & -> & <- & Hok1).
    destruct (IHk Hk m1 (ks0 ++ [k])) as (m2 & ks' & E & <- & Hks').
    { apply Forall_app. split; [done|]. by constructor. }
    exists m2, (k :: ks'). rewrite E, <- app_assoc. split; [done|]. split; [done|]. by constructor. }
  destruct (Hfold n1 [] (Forall_nil_2 _)) as (n2 & ks' & -> & Hdoc & Hks'). cbn [app].
  exists n2, (T lk ks'). split; [done|]. split; [|by constructor].
  cbn [document lk with_attrs l_name l_attrs]. by rewrite Hrev, Hdoc.
Qed.

(** ** Printing reads the tree *)

Definition print_attr (a : list Z * list Z) : list Z := str " " ++ a.1 ++ str "=" ++ [QUOTE] ++ a.2 ++ [QUOTE].
(** The text of a document, indented from level [l], attributes last first. *)
Fixpoint serialize (l : Z) (e : xml) : list Z :=
  match e with
  | Elem el attr kids =>
      print_indent l ++ str "<" ++ el ++ flat_map print_attr (rev attr) ++ str ">" ++
      match kids with
      | [] => []
      | _ => [LF] ++ flat_map (serialize (l + 1)) kids ++ print_indent l
      end ++ str "</" ++ el ++ str ">" ++ [LF]
  end.

Lemma XMLattrdump_ok h : forall al prev fuel,
  rep_list at_addr (rep_attr h) prev al None -> Forall owned_attr al -> (length al <= fuel)%nat ->
  XMLattrdump fuel h (head_addr at_addr al None) = Ret (flat_map print_attr (map attr_pair al)).
Proof.
  induction al as [|a al IH]; intros prev fuel Hr Ho Hf; [by destruct fuel|].
  destruct Hr as [Ha Hr]. apply Forall_cons in Ho as [[s Hs] Ho]. destruct fuel as [|fuel]; [cbn in Hf; lia|].
  cbn [head_addr XMLattrdump]. rewrite (load_cell _ _ _ Ha). rsimpl. cbn [attr_cell n_value n_name n_next].
  rewrite Hs. cbn [read_value]. rsimpl. rewrite (IH _ fuel Hr Ho) by (cbn in Hf; lia). rsimpl.
  cbn [map flat_map].
  assert (Hp : print_attr (attr_pair a) = str " " ++ at_name a ++ str "=" ++ [QUOTE] ++ s ++ [QUOTE])
    by (unfold print_attr, attr_pair; by rewrite Hs).
  by rewrite Hp, <- !app_assoc.
Qed.

Lemma XMLdumpL_ok h : forall fuel t p pv nx l,
  rep h p pv nx t -> owned t -> (length (addrs t) < fuel)%nat ->
  XMLdumpL fuel h (t_addr t) l = Ret (serialize l (document t)).
Proof.
  induction fuel as [|fuel IH]; intros [lb ks] p pv nx l (Hc & Ha & Hk) Ho Hf; [lia|].
  inversion Ho as [? ? Hoa Hok]; subst. rewrite addrs_T in Hf. cbn [length] in Hf.
  rewrite length_app, length_map in Hf. pose proof (length_kids_addrs ks) as Hlk.
  change (t_addr (T lb ks)) with (l_addr lb). cbn [XMLdumpL]. rewrite (load_cell _ _ _ Hc). rsimpl.
  cbn [tree_cell n_name n_firstAttr n_firstChild].
  assert (Hattr : match head_addr at_addr (l_attrs lb) None with
    | Some a => XMLattrdump fuel h (Some a) | None => Ret [] end
    = Ret (flat_map print_attr (map attr_pair (l_attrs lb)))).
  { destruct (head_addr at_addr (l_attrs lb) None) as [a|] eqn:E; [|by destruct (l_attrs lb)].
    rewrite <- E. eapply XMLattrdump_ok; [done..|lia]. }
  rewrite Hattr. rsimpl.
  assert (Hkids : forall ks' prev k, rep_list t_addr (rep h (Some (l_addr lb))) prev ks' None -> Forall owned ks' ->
    (length (kids_addrs ks') < fuel)%nat -> (length ks' <= k)%nat ->
    dump_siblings k h (fun a => XMLdumpL fuel h a (l + 1)) (head_addr t_addr ks' None) =
    Ret (flat_map (serialize (l + 1)) (map document ks'))).
  { induction ks' as [|kd ks' IHk]; intros prev k Hr Ho' Hlen Hfk; [by destruct k|].
    destruct Hr as [Hkd Hr]. apply Forall_cons in Ho' as [Ho1 Ho']. destruct k as [|k]; [cbn in Hfk; lia|].
    unfold kids_addrs in Hlen. cbn [flat_map] in Hlen. rewrite length_app in Hlen. fold (kids_addrs ks') in Hlen.
    cbn [head_addr dump_siblings]. rewrite (IH kd _ _ _ (l + 1) Hkd Ho1) by lia. rsimpl.
    pose proof (rep_cell _ _ _ _ _ Hkd) as Hcd. rewrite (load_cell _ _ _ Hcd). rsimpl. cbn [tree_cell n_next].
    rewrite (IHk _ k Hr Ho') by (lia || (cbn in Hfk; lia)). rsimpl. done. }
  rewrite (Hkids ks None fuel Hk Hok) by lia. rsimpl. cbn [document serialize]. rewrite rev_involutive. f_equal.
  destruct ks as [|kd ks]; cbn [head_addr map]; [done|]. by rewrite <- !app_assoc.
Qed.

(** ** Configurations lie over the defaults *)

(** The node a path of names leads to, through the first child of each name, and
    an attribute there. *)
Fixpoint follow (path : list (list Z)) (t : tree) : option tree :=
  match path with
  | [] => Some t
  | nm :: r => match find_kid nm (t_kids t) with Some k => follow r k | None => None end
  end.
Definition attr_of (nm : list Z) (t : tree) : option strval :=
  match find_attr nm (l_attrs (t_label t)) with Some a => at_value a | None => None end.
Definition get_attr (path : list (list Z)) (nm : list Z) (t : tree) : option strval :=
  match follow path t with Some k => attr_of nm k | None => None end.

(** The attribute a document gives at a path. *)
Definition el_name (e : xml) : list Z := match e with Elem el _ _ => el end.
Definition find_el (nm : list Z) (es : list xml) : option xml := List.find (fun e => streq (el_name e) nm) es.
Fixpoint assoc (nm : list Z) (attr : list (list Z * list Z)) : option (list Z) :=
  match attr with [] => None | (a, v) :: r => if streq a nm then Some v else assoc nm r end.
Fixpoint doc_attr (a : list Z) (path : list (list Z)) (e : xml) : option (list Z) :=
  match e with
  | Elem _ attr kids =>
      match path with
      | [] => assoc a attr
      | nm :: r => match find_el nm kids with Some k => doc_attr a r k | None => None end
      end
  end.

(** Names are distinct among siblings too. *)
#[warnings="-register-all"]
Inductive siblings_ok : xml -> Prop :=
| siblings_ok_Elem el attr kids :
    NoDup (map el_name kids) -> Forall siblings_ok kids -> siblings_ok (Elem el attr kids).

(** No attribute of that name anywhere. *)
#[warnings="-register-all"]
Inductive clean (nm : list Z) : tree -> Prop :=
| clean_T l ks : find_attr nm (l_attrs l) = None -> Forall (clean nm) ks -> clean nm (T l ks).

Lemma find_kid_app nm ks1 ks2 :
  find_kid nm (ks1 ++ ks2) = match find_kid nm ks1 with Some k => Some k | None => find_kid nm ks2 end.
Proof. unfold find_kid. induction ks1 as [|k ks1 IH]; [done|]. cbn. by destruct (streq _ _). Qed.
Lemma find_kid_name nm ks k : find_kid nm ks = Some k -> t_name k = nm /\ k ∈ ks.
Proof. intros [H E]%find_some. split; [by apply streq_true | by apply list_elem_of_In]. Qed.

(** Replacing or adding the child of one name leaves the others. *)
Lemma find_kid_replace el nm pre post (k' : tree) :
  find_kid el pre = None -> t_name k' = el ->
  find_kid nm (pre ++ k' :: post) = if streq el nm then Some k' else
    match find_kid nm pre with Some x => Some x | None => find_kid nm post end.
Proof.
  intros Hpre Hk'. rewrite find_kid_app. unfold find_kid at 2. cbn [List.find]. rewrite Hk'.
  destruct (streq el nm) eqn:E; [|done]. apply streq_true in E as <-. by rewrite Hpre.
Qed.

Section overlay.
Context (id : Z) (Hid : id <> 1).
Let vn := value_name id.

(** [k'] is [old], if there was one, with the values of [e] over it. *)
Definition overlay (e : xml) (old : option tree) (k' : tree) : Prop :=
  forall path, get_attr path vn k' = Own <$> doc_attr (str "value") path e /\
    forall nm, nm <> vn -> get_attr path nm k' = match old with Some k => get_attr path nm k | None => None end.

Lemma load_attrs_value attr : forall n al,
  find_attr vn al = None -> NoDup (map fst attr) -> Forall (fun a => a.1 <> []) attr ->
  exists n' al', load_attrs id attr (n, al) = Some (n', al') /\
    (forall l ks, attr_of vn (T (with_attrs al' l) ks) = Own <$> assoc (str "value") attr) /\
    (forall nm, nm <> vn -> find_attr nm al' = find_attr nm al).
Proof.
  assert (Htarget : forall nm, target id nm = if streq nm (str "value") then Some vn else None).
  { intros nm. unfold target. by rewrite (proj2 (Z.eqb_neq id 1) Hid). }
  (* once the value is stored no other attribute is looked at *)
  assert (Hrest : forall attr st, str "value" ∉ map fst attr -> Forall (fun a => a.1 <> []) attr ->
    load_attrs id attr st = Some st).
  { intros attr'. induction attr' as [|[nm v] attr' IH]; intros st Hni Hne; [done|].
    cbn [map fst] in Hni. apply not_elem_of_cons in Hni as [Hn Hni]. apply Forall_cons in Hne as [Hne1 Hne].
    cbn [load_attrs]. destruct nm as [|c nm]; [done|]. rewrite Htarget.
    rewrite (proj2 (streq_false (c :: nm) (str "value"))) by congruence. by apply IH. }
  induction attr as [|[nm v] attr IH]; intros n al Hf Hnd Hne.
  - exists n, al. split; [done|]. split; [|done]. intros l ks. unfold attr_of. cbn [t_label with_attrs l_attrs]. by rewrite Hf.
  - cbn [map fst] in Hnd. apply NoDup_cons in Hnd as [Hni Hnd]. apply Forall_cons in Hne as [Hne1 Hne].
    cbn [load_attrs assoc]. destruct nm as [|c nm]; [done|]. set (name := c :: nm) in *. rewrite Htarget.
    destruct (streq name (str "value")) eqn:E; [|by apply IH].
    apply streq_true in E. unfold put_attr. rewrite Hf. rewrite Hrest by (done || by rewrite <- E).
    eexists _, _. split; [done|]. split.
    + intros l ks. unfold attr_of, find_attr. cbn [t_label with_attrs l_attrs List.find at_name]. by rewrite streq_refl.
    + intros nm' Hnm'. unfold find_attr. cbn [List.find at_name]. by rewrite (proj2 (streq_false vn nm')) by congruence.
Qed.

Lemma clean_get nm k : clean nm k -> forall path, get_attr path nm k = None.
Proof.
  induction k as [l ks IH] using tree_ind'. intros Hc path. inversion Hc as [? ? Ha Hk]; subst.
  unfold get_attr. destruct path as [|a path]; cbn [follow].
  - unfold attr_of. cbn [t_label]. by rewrite Ha.
  - cbn [t_kids]. destruct (find_kid a ks) as [k|] eqn:E; [|done]. apply find_kid_name in E as [_ Hin].
    rewrite Forall_forall in IH, Hk. by apply (IH k Hin (Hk k Hin) path).
Qed.
Lemma get_attr_cons nm path a l ks :
  get_attr (nm :: path) a (T l ks) = match find_kid nm ks with Some k => get_attr path a k | None => None end.
Proof. unfold get_attr. cbn [follow t_kids]. by destruct (find_kid nm ks). Qed.

(** The node an element goes to, and what was there. *)
Lemma place_overlay el n ks :
  (forall k, find_kid el ks = Some k -> clean vn k) ->
  exists pre lk kk post n1, place id el n ks = (pre, T lk kk, post, n1) /\ l_name lk = el /\
    find_attr vn (l_attrs lk) = None /\ Forall (clean vn) kk /\
    (forall k' nm, t_name k' = el -> find_kid nm (pre ++ k' :: post) = if streq el nm then Some k' else find_kid nm ks) /\
    (forall path nm, get_attr path nm (T lk kk) =
      match find_kid el ks with Some k => get_attr path nm k | None => None end).
Proof.
  intros Hclean. unfold place. rewrite (proj2 (Z.eqb_neq id 1) Hid). pose proof (split_kid_spec el ks) as Hsp.
  destruct (split_kid el ks) as [[[pre [lk kk]] post]|] eqn:Esp.
  - destruct Hsp as (-> & Hfk & Hpre). pose proof (Hclean _ Hfk) as Hc. inversion Hc; subst.
    pose proof (find_kid_name _ _ _ Hfk) as [Hnm _].
    exists pre, lk, kk, post, n. split_and!; try done; [|by rewrite Hfk].
    intros k' nm Hk'. rewrite (find_kid_replace el), (find_kid_replace el nm pre post (T lk kk)) by done.
    by destruct (streq el nm).
  - exists ks, (Label n el None None []), [], [], (S n). split_and!; try done.
    + intros k' nm Hk'. rewrite (find_kid_replace el) by done. destruct (streq el nm); [done|]. by destruct (find_kid nm ks).
    + intros path nm. rewrite Hsp. destruct path; [done|]. by rewrite get_attr_cons.
Qed.

Definition loads_over (e : xml) : Prop :=
  forall n l ks, (forall k, find_kid (el_name e) ks = Some k -> clean vn k) ->
  exists n' ks' k', load_elem id e (n, T l ks) = Some (n', T l ks') /\
    (forall nm, find_kid nm ks' = if streq (el_name e) nm then Some k' else find_kid nm ks) /\
    overlay e (find_kid (el_name e) ks) k'.

(** Children of distinct names, one after the other. *)
Lemma ofold_overlay l kids : Forall loads_over kids -> NoDup (map el_name kids) -> forall n ks,
  (forall nm k, nm ∈ map el_name kids -> find_kid nm ks = Some k -> clean vn k) ->
  exists n' ks', ofold (load_elem id) kids (n, T l ks) = Some (n', T l ks') /\
    forall nm, match find_el nm kids with
               | Some e => exists k', find_kid nm ks' = Some k' /\ overlay e (find_kid nm ks) k'
               | None => find_kid nm ks' = find_kid nm ks
               end.
Proof.
  induction 1 as [|e kids He _ IH]; intros Hnd n ks Hclean; [by exists n, ks|].
  cbn [map] in *. apply NoDup_cons in Hnd as [Hni Hnd]. cbn [ofold].
  destruct (He n l ks) as (n1 & ks1 & k1 & -> & Hks1 & Hov); [intros k; apply Hclean; constructor|].
  destruct (IH Hnd n1 ks1) as (n2 & ks2 & -> & Hks2).
  { intros nm k Hin Hk. rewrite Hks1 in Hk. rewrite (proj2 (streq_false (el_name e) nm)) in Hk by (by intros <-).
    eapply Hclean; [|done]. by constructor. }
  exists n2, ks2. split; [done|]. intros nm. specialize (Hks2 nm). unfold find_el in *. cbn [List.find].
  destruct (streq (el_name e) nm) eqn:E.
  - apply streq_true in E as <-.
    destruct (List.find _ kids) as [e'|] eqn:Ef.
    + exfalso. apply Hni. apply find_some in Ef as [Hin Hn]. apply streq_true in Hn. rewrite <- Hn.
      by apply list_elem_of_In, in_map.
    + exists k1. rewrite Hks2, Hks1, streq_refl. done.
  - rewrite Hks1, E in Hks2. exact Hks2.
Qed.

Lemma load_elem_overlay e : xml_ok e -> siblings_ok e -> loads_over e.
Proof.
  induction e as [el attr kids IH] using xml_ind'. intros Hx Hs n l ks Hclean.
  inversion Hx as [? ? ? Hnd Hne Hxk]; inversion Hs as [? ? ? Hndk Hsk]; subst. cbn [el_name] in *. cbn [load_elem].
  destruct (place_overlay el n ks Hclean) as (pre & lk & kk & post & n1 & -> & Hlk & Hfa & Hck & Hfind & Hold).
  destruct (load_attrs_value attr n1 (l_attrs lk) Hfa Hnd Hne) as (n2 & al & -> & Hval & Hother).
  set (lk' := with_attrs al lk).
  assert (Hkids : Forall loads_over kids).
  { rewrite Forall_forall in *. intros e He. by apply IH; auto. }
  destruct (ofold_overlay lk' kids Hkids Hndk n2 kk) as (n3 & kk' & -> & Hkk').
  { intros nm k _ Hk. apply find_kid_name in Hk as [_ Hin]. rewrite Forall_forall in Hck. by apply Hck. }
  exists n3, (pre ++ T lk' kk' :: post), (T lk' kk'). split; [done|]. split; [intros nm; by apply Hfind|].
  intros path. split; [|intros nm Hnm; rewrite <- (Hold path nm)]; (destruct path as [|a path]; [|rewrite ?get_attr_cons]).
  - apply (Hval lk kk').
  - specialize (Hkk' a). cbn [doc_attr]. destruct (find_el a kids) as [e|].
    + destruct Hkk' as (k' & -> & Hov). apply (Hov path).
    + rewrite Hkk'. destruct (find_kid a kk) as [k|] eqn:Ek; [|done]. apply find_kid_name in Ek as [_ Hin].
      rewrite Forall_forall in Hck. by apply clean_get, Hck.
  - unfold get_attr. cbn [follow]. unfold attr_of. cbn [t_label lk' with_attrs l_attrs]. by rewrite Hother.
  - specialize (Hkk' a). destruct (find_el a kids) as [e|]; [|by rewrite Hkk'].
    destruct Hkk' as (k' & -> & Hov). by apply (Hov path).
Qed.
End overlay.

(** ** What the heap answers after loading *)

Lemma rep_follow h : forall path p pv nx t k, rep h p pv nx t -> tree_ok h t -> follow path t = Some k ->
  exists p' pv' nx', rep h p' pv' nx' k /\ tree_ok h k.
Proof.
  induction path as [|nm path IH]; cbn [follow]; intros p pv nx t k Hr Hok Hf; [injection Hf as <-; eauto 6|].
  destruct t as [l ks]. cbn [t_kids] in Hf. pose proof (split_kid_spec nm ks) as Hs.
  destruct (split_kid nm ks) as [[[pre k1] post]|]; [|by rewrite Hs in Hf].
  destruct Hs as (-> & E & _). rewrite E in Hf. by eapply IH; [eapply rep_kid | eapply tree_ok_kid |].
Qed.
Lemma nodeGetAttr_ok h fuel p pv nx t nm :
  rep h p pv nx t -> (length (l_attrs (t_label t)) <= fuel)%nat ->
  nodeGetAttr fuel h (t_addr t) nm = Ret (attr_of nm t).
Proof.
  destruct t as [l ks]. intros (Hc & Ha & _) Hf. cbn [t_label] in Hf. unfold nodeGetAttr, nodeGetAttrs, t_addr, attr_of.
  cbn [t_label]. rewrite (load_cell _ _ _ Hc). rsimpl. cbn [tree_cell n_firstAttr].
  rewrite (find_attr_ok _ _ _ None) by done. rsimpl.
  destruct (find_attr nm (l_attrs l)) as [a|] eqn:E; cbn [fmap option_fmap option_map]; [|done].
  apply find_attr_in in E as [Hin _]. apply list_elem_of_In, in_split in Hin as (l1 & l2 & El). rewrite El in Ha.
  apply rep_list_app in Ha as [_ [Ha _]]. by rewrite (load_cell _ _ _ Ha).
Qed.
(** The same, anywhere in a tree whose cells the fuel covers. *)
Lemma nodeGetAttr_follow h fuel t path k nm :
  rep h None None None t -> tree_ok h t -> (length h <= fuel)%nat -> follow path t = Some k ->
  nodeGetAttr fuel h (t_addr k) nm = Ret (get_attr path nm t).
Proof.
  intros Hr Hok Hf Hk. destruct (rep_follow h path _ _ _ t k Hr Hok Hk) as (p & pv & nx & Hrk & Hokk).
  unfold get_attr. rewrite Hk. apply (nodeGetAttr_ok h fuel p pv nx); [done|].
  destruct k as [l ks]. pose proof (tree_ok_bounds _ _ _ Hokk). cbn [t_label]. lia.
Qed.

(** No element has an attribute of that name. *)
#[warnings="-register-all"]
Inductive no_attr (nm : list Z) : xml -> Prop :=
| no_attr_Elem el attr kids : nm ∉ map fst attr -> Forall (no_attr nm) kids -> no_attr nm (Elem el attr kids).

Lemma clean_document nm t : no_attr nm (document t) -> clean nm t.
Proof.
  induction t as [l ks IH] using tree_ind'. intros H. inversion H as [? ? ? Ha Hk]; subst. constructor.
  - apply find_attr_None. intros Hin. apply Ha. rewrite map_rev, map_map. apply list_elem_of_In.
    rewrite <- in_rev. apply list_elem_of_In in Hin. erewrite map_ext; [exact Hin | done].
  - rewrite Forall_map in Hk. rewrite Forall_forall in *. intros k Hin. by apply IH, Hk.
Qed.

Lemma find_attr_perm nm al a : NoDup (map at_name al) -> a ∈ al -> at_name a = nm -> find_attr nm al = Some a.
Proof.
  unfold find_attr. intros Hnd Hin Hn. induction al as [|b al IH]; [by apply not_elem_of_nil in Hin|].
  cbn [map List.find] in *. apply NoDup_cons in Hnd as [Hni Hnd]. apply elem_of_cons in Hin as [->|Hin].
  - by rewrite Hn, streq_refl.
  - rewrite (proj2 (streq_false (at_name b) nm)); [by apply IH|]. intros E. apply Hni. rewrite E, <- Hn.
    by apply list_elem_of_In, in_map, list_elem_of_In.
Qed.
Lemma assoc_Some nm attr v : assoc nm attr = Some v -> (nm, v) ∈ attr.
Proof.
  induction attr as [|[a w] attr IH]; cbn; [done|]. rewrite elem_of_cons.
  destruct (streq a nm) eqn:E; [apply streq_true in E as ->; intros [= ->]; by left | right; auto].
Qed.
Lemma assoc_None nm attr : assoc nm attr = None -> nm ∉ map fst attr.
Proof.
  induction attr as [|[a w] attr IH]; cbn; [intros _; apply not_elem_of_nil|]. rewrite not_elem_of_cons.
  destruct (streq a nm) eqn:E; [done|]. apply streq_false in E. split; [congruence | auto].
Qed.

(** What a tree answers is what its document says. *)
Lemma get_attr_document t : owned t -> xml_ok (document t) -> forall path nm,
  get_attr path nm t = Own <$> doc_attr nm path (document t).
Proof.
  induction t as [l ks IH] using tree_ind'. intros Ho Hx path nm.
  inversion Ho as [? ? Hoa Hok]; inversion Hx as [? ? ? Hnd Hne Hxk]; subst. destruct path as [|a path].
  - unfold get_attr. cbn [follow doc_attr document]. unfold attr_of. cbn [t_label].
    assert (Hnames : map fst (map attr_pair (l_attrs l)) = map at_name (l_attrs l)) by (rewrite map_map; by apply map_ext).
    rewrite map_rev, Hnames in Hnd.
    assert (Hnd' : NoDup (map at_name (l_attrs l))) 
      by (apply NoDup_ListNoDup; rewrite <- (rev_involutive (map at_name (l_attrs l))); apply List.NoDup_rev, NoDup_ListNoDup; exact Hnd).
    destruct (assoc nm _) as [v|] eqn:E.
    + apply assoc_Some, list_elem_of_In in E. rewrite <- in_rev in E. apply in_map_iff in E as (x & Hx' & Hin).
      apply list_elem_of_In in Hin. injection Hx' as Hnm Hv. rewrite (find_attr_perm nm _ x) by done.
      rewrite Forall_forall in Hoa. destruct (Hoa x Hin) as [s Hs]. rewrite Hs in *. cbn in Hv. by subst.
    + apply assoc_None in E. rewrite map_rev, Hnames in E. rewrite (proj2 (find_attr_None nm (l_attrs l))); [done|].
      intros Hin. apply E. apply list_elem_of_In. rewrite <- in_rev. by apply list_elem_of_In.
  - rewrite get_attr_cons. cbn [doc_attr document].
    assert (Hfind : find_el a (map document ks) = document <$> find_kid a ks).
    { unfold find_el, find_kid. clear. induction ks as [|[lk kk] ks IH]; [done|].
      cbn [map List.find document el_name]. change (t_name (T lk kk)) with (l_name lk).
      rewrite IH. by destruct (streq (l_name lk) a). }
    rewrite Hfind. destruct (find_kid a ks) as [k|] eqn:E; cbn [fmap option_fmap option_map]; [|done].
    apply find_kid_name in E as [_ Hin]. rewrite Forall_map in Hxk. rewrite Forall_forall in *. by apply IH; auto.
Qed.

(** ** The library's promise: load, read back, lay over *)

Definition root_label : label := Label 0 (str "root") None None [].

Section promise.
Context {P : Type} (XML_ParserCreate : P) (XML_Parse : P -> list Z -> bool -> P * list xml_event * bool).

Lemma load_defaults content d :
  is_document XML_ParserCreate XML_Parse content d -> xml_ok d ->
  exists n k, document k = d /\ owned k /\
    forall fuel, (n <= fuel)%nat -> (length content < fuel)%nat ->
    exists h, load_xml XML_ParserCreate XML_Parse fuel [] None (Some content) 1 = Ret (0, Some 0%nat, h) /\
      rep h None None None (T root_label [k]) /\ tree_ok h (T root_label [k]) /\ length h = n.
Proof.
  intros Hdoc Hx. destruct (load_elem_new d Hx 1%nat root_label []) as (n & k & E & Hk & Ho).
  exists n, k. split; [done|]. split; [done|]. intros fuel Hn Hc.
  destruct (load_xml_ok XML_ParserCreate XML_Parse fuel [] None [Some (new_cell (str "root"))] (T root_label [])
    content d 1 n (T root_label [k])) as (h & Eh & [Hr Hok _ _ _] & Hlen);
    [done | done | apply id_ok_pos; lia | done | | done | done | done |].
  - split; [apply NoDup_singleton | constructor; [cbn; lia|constructor]].
  - by exists h.
Qed.

(** C12: the defaults of a document, loaded into a fresh tree, are the document: the
    load succeeds and [XMLdump] prints it back under the root node, with the
    attributes of every element last first. Fuel beyond the number of cells and the
    size of the file is enough. *)
Theorem xml_defaults_print content d :
  is_document XML_ParserCreate XML_Parse content d -> xml_ok d ->
  exists n, forall fuel, (n <= fuel)%nat ->
  exists h, load_xml XML_ParserCreate XML_Parse fuel [] None (Some content) 1 = Ret (0, Some 0%nat, h) /\
    XMLdump fuel h 0 = Ret (serialize 0 (Elem (str "root") [] [d])).
Proof.
  intros Hdoc Hx. destruct (load_defaults content d Hdoc Hx) as (n & k & Hk & Ho & H).
  exists (S (n + length content))%nat. intros fuel Hf.
  destruct (H fuel) as (h & E & Hr & Hok & Hlen); [lia|lia|]. exists h. split; [done|].
  pose proof (tree_ok_length _ _ Hok) as Hl.
  pose proof (XMLdumpL_ok h fuel (T root_label [k]) _ _ _ 0 Hr) as Hd.
  assert (Hdoc' : document (T root_label [k]) = Elem (str "root") [] [d]) by (cbn; by rewrite Hk).
  rewrite Hdoc' in Hd. apply Hd; [|lia]. constructor; [constructor|]. by constructor.
Qed.

(** C9: a configuration lies over the defaults. After the defaults [d] and then the
    configuration [c], numbered [id], are loaded, [nodeGetAttr] at every node
    gives for [value<id>] the [value] that [c] has at that path, and for every other
    attribute what [d] has there, also at nodes only [c] has. *)
Theorem config_overlay dtext d ctext c id :
  is_document XML_ParserCreate XML_Parse dtext d -> is_document XML_ParserCreate XML_Parse ctext c ->
  xml_ok d -> xml_ok c -> siblings_ok c -> 1 < id -> no_attr (value_name id) d ->
  exists n, forall fuel, (n <= fuel)%nat ->
  exists h1 h2 t, load_xml XML_ParserCreate XML_Parse fuel [] None (Some dtext) 1 = Ret (0, Some 0%nat, h1) /\
    load_xml XML_ParserCreate XML_Parse fuel h1 (Some 0%nat) (Some ctext) id = Ret (0, Some 0%nat, h2) /\
    rep h2 None None None t /\ t_addr t = 0%nat /\
    forall path k, follow path t = Some k ->
      nodeGetAttr fuel h2 (t_addr k) (value_name id) =
        Ret (Own <$> doc_attr (str "value") path (Elem (str "root") [] [c])) /\
      forall nm, nm <> value_name id ->
        nodeGetAttr fuel h2 (t_addr k) nm = Ret (Own <$> doc_attr nm path (Elem (str "root") [] [d])).
Proof.
  intros Hd Hc Hxd Hxc Hsc Hid Hno. set (vn := value_name id).
  destruct (load_defaults dtext d Hd Hxd) as (n1 & k & Hk & Ho & H).
  assert (Hclean : clean vn k) by (apply clean_document; by rewrite Hk).
  destruct (load_elem_overlay id ltac:(lia) c Hxc Hsc n1 root_label [k]) as (n2 & ks & k' & El & Hks & Hov).
  { intros x Hx. apply find_kid_name in Hx as [_ ->%list_elem_of_singleton]. done. }
  exists (S (n1 + n2 + length dtext + length ctext))%nat. intros fuel Hf.
  destruct (H fuel) as (h1 & E1 & Hr1 & Hok1 & Hlen1); [lia|lia|]. rewrite <- Hlen1 in El.
  destruct (load_xml_ok XML_ParserCreate XML_Parse fuel h1 (Some 0%nat) h1 (T root_label [k]) ctext c id n2 (T root_label ks))
    as (h2 & E2 & Hev & Hlen2); [done | done | apply id_ok_pos; lia | done | done | done | lia | lia |].
  exists h1, h2, (T root_label ks). split; [done|]. split; [done|]. split; [apply Hev|]. split; [done|].
  intros path kp Hkp. 
  assert (Hget : forall nm, nodeGetAttr fuel h2 (t_addr kp) nm = Ret (get_attr path nm (T root_label ks)))
    by (intros nm; apply nodeGetAttr_follow; [apply Hev | apply Hev | lia | done]).
  setoid_rewrite Hget.
  assert (Hdoc : forall nm, get_attr path nm (T root_label [k]) = Own <$> doc_attr nm path (Elem (str "root") [] [d])).
  { intros nm. assert (Hdoc' : document (T root_label [k]) = Elem (str "root") [] [d]) by (cbn; by rewrite Hk).
    rewrite <- Hdoc'. apply get_attr_document.
    - constructor; [constructor | by constructor].
    - rewrite Hdoc'. constructor; [constructor | constructor | by constructor]. }
  destruct path as [|a path]; [split; [done|]; intros nm _; f_equal; apply (Hdoc nm)|].
  specialize (Hov path). destruct Hov as [Hv Ho']. subst vn.
  split; [rewrite get_attr_cons, Hks | intros nm Hnm; f_equal; rewrite <- Hdoc, !get_attr_cons, Hks].
  - cbn [doc_attr]. unfold find_el. cbn [List.find]. destruct (streq (el_name c) a); [by rewrite Hv|].
    destruct (find_kid a [k]) as [x|] eqn:E; [|done]. apply find_kid_name in E as [_ ->%list_elem_of_singleton].
    by rewrite clean_get.
  - destruct (streq (el_name c) a) eqn:E; [|done]. apply streq_true in E as <-. by rewrite (Ho' nm Hnm).
Qed.
End promise.

(** ** A parser for examples: it waits for the last piece and knows some documents *)

Fixpoint known (docs : list (list Z * xml)) (text : list Z) : option xml :=
  match docs with [] => None | (t, e) :: r => if streq t text then Some e else known r text end.
Definition buffered (docs : list (list Z * xml)) (p b : list Z) (final : bool) : list Z * list xml_event * bool :=
  if final then match known docs (p ++ b) with Some e => (p ++ b, events e, true) | None => (p ++ b, [], false) end
  else (p ++ b, [], true).

Lemma structure_app es1 es2 : structure (es1 ++ es2) = structure es1 ++ structure es2.
Proof. apply List.filter_app. Qed.
Lemma structure_events e : structure (events e) = events e.
Proof.
  induction e as [el attr kids IH] using xml_ind'. cbn [events structure List.filter]. f_equal.
  fold (structure (flat_map events kids ++ [EndElement el])). rewrite structure_app. f_equal.
  induction IH as [|e kids He _ IHk]; [done|]. cbn [flat_map]. by rewrite structure_app, He, IHk.
Qed.
Lemma buffered_document docs text e : known docs text = Some e -> is_document [] (buffered docs) text e.
Proof.
  intros Hk. unfold is_document.
  assert (H : forall pieces p, pieces <> [] -> p ++ concat pieces = text -> feed (buffered docs) p pieces = Some (events e)).
  { induction pieces as [|b pieces IH]; intros p Hne Hc; [done|]. cbn [concat] in Hc. rewrite app_assoc in Hc. cbn [feed].
    destruct pieces as [|b' pieces].
    - cbn [concat] in Hc. rewrite app_nil_r in Hc. unfold buffered. by rewrite Hc, Hk.
    - unfold buffered at 1. by rewrite (IH (p ++ b)). }
  intros pieces Hne Hc. exists (events e). split; [by apply H | apply structure_events].
Qed.

(** [<a type="BOOL" value="1"><b value="x"/></a>] and a second document. *)
Definition sample_defaults : xml :=
  Elem (str "a") [(str "type", str "BOOL"); (str "value", str "1")] [Elem (str "b") [(str "value", str "x")] []].
Definition sample_config : xml := Elem (str "a") [(str "value", str "0")] [Elem (str "c") [(str "value", str "y")] []].
Definition sample_docs : list (list Z * xml) := [(str "D", sample_defaults); (str "C", sample_config)].

Ltac names_ok := repeat constructor; first [discriminate | set_solver].
Lemma sample_defaults_ok : xml_ok sample_defaults.
Proof. names_ok. Qed.
Lemma sample_config_ok : xml_ok sample_config /\ siblings_ok sample_config.
Proof. split; names_ok. Qed.

Lemma xml_defaults_print_witness :
  exists n, forall fuel, (n <= fuel)%nat ->
  exists h, load_xml [] (buffered sample_docs) fuel [] None (Some (str "D")) 1 = Ret (0, Some 0%nat, h) /\
    XMLdump fuel h 0 = Ret (serialize 0 (Elem (str "root") [] [sample_defaults])).
Proof.
  apply xml_defaults_print.
  - apply buffered_document. vm_compute. reflexivity.
  - apply sample_defaults_ok.
Defined.

Lemma config_overlay_witness :
  exists n, forall fuel, (n <= fuel)%nat ->
  exists h1 h2 t, load_xml [] (buffered sample_docs) fuel [] None (Some (str "D")) 1 = Ret (0, Some 0%nat, h1) /\
    load_xml [] (buffered sample_docs) fuel h1 (Some 0%nat) (Some (str "C")) 2 = Ret (0, Some 0%nat, h2) /\
    rep h2 None None None t /\ t_addr t = 0%nat /\
    forall path k, follow path t = Some k ->
      nodeGetAttr fuel h2 (t_addr k) (value_name 2) =
        Ret (Own <$> doc_attr (str "value") path (Elem (str "root") [] [sample_config])) /\
      forall nm, nm <> value_name 2 ->
        nodeGetAttr fuel h2 (t_addr k) nm = Ret (Own <$> doc_attr nm path (Elem (str "root") [] [sample_defaults])).
Proof.
  apply config_overlay.
  - apply buffered_document. vm_compute. reflexivity.
  - apply buffered_document. vm_compute. reflexivity.
  - apply sample_defaults_ok.
  - apply sample_config_ok.
  - apply sample_config_ok.
  - lia.
  - repeat constructor; cbn; set_solver.
Defined.

(** The text printed for the sample. *)
Example sample_printed :
  serialize 0 (Elem (str "root") [] [sample_defaults]) =
  str "<root>" ++ [LF] ++ [9] ++ str "<a value=" ++ [QUOTE] ++ str "1" ++ [QUOTE] ++ str " type=" ++ [QUOTE] ++ str "BOOL"
  ++ [QUOTE] ++ str ">" ++ [LF] ++ [9; 9] ++ str "<b value=" ++ [QUOTE] ++ str "x" ++ [QUOTE] ++ str "></b>" ++ [LF] ++
  [9] ++ str "</a>" ++ [LF] ++ str "</root>" ++ [LF].
Proof. vm_compute. reflexivity. Qed.
