(* ===== verification/ConfMain.v ===== *)
(** * The commands of sbin/conf (conf_main.c)

    The program keeps a [Config]: the tree the XML files are loaded into and the
    nodes of it where events and commands are described.  A command line is split
    into words, the words are looked up under [commands], and the [handler]
    attribute of the node found names the function to call.

    Expat, the files and the addresses [malloc] and [realloc] give to string buffers
    are parameters.  Standard output is the list of bytes the dumps print; the
    diagnostics of the loaders are left out. *)

From S2P Require Import Prelude CLib CFormat ConfStrbuf ConfNode ConfXml.
From stdpp Require Import sets.
#[local] Open Scope Z_scope.

Definition EINVAL : Z := 22.
Definition MAX_CMD_PATH : nat := 8.

Record config : Type := Config {
  c_tree : ptr;
  c_root : ptr;
  c_events : ptr;
  c_commands : ptr
}.
Definition with_tree (t : ptr) (c : config) : config := Config t (c_root c) (c_events c) (c_commands c).

(** The heap, the configuration and what was printed. *)
Record state : Type := State { s_heap : heap; s_config : config; s_out : list Z }.
Definition print (s : list Z) (st : state) : state := State (s_heap st) (s_config st) (s_out st ++ s).

(** A buffer operation as a step of the program. *)
Definition lift {A} (m : outcome A) : run A := match m with Ok a => Ret a | _ => Undef end.

(** ** [strtol] *)

Definition LONG_MAX : Z := 2 ^ 63 - 1.
Definition LONG_MIN : Z := - 2 ^ 63.

(** The value and the rest of the string, the string itself when it has no digits. *)
Definition strtol (s : list Z) (base : Z) : Z * list Z :=
  let s1 := skip_while isspace s in
  let '(neg, s2) := match s1 with 45 :: r => (true, r) | 43 :: r => (false, r) | _ => (false, s1) end in
  let '(base', s3) :=
    if (base =? 0) || (base =? 16) then
      match hex_prefix s2 with
      | Some r => (16, r)
      | None => if base =? 16 then (16, s2) else match s2 with 48 :: _ => (8, s2) | _ => (10, s2) end
      end
    else (base, s2) in
  let '(v, any, r) := digits base' s3 0 false in
  if any then (Z.max LONG_MIN (Z.min LONG_MAX (if neg then - v else v)), r) else (0, s).

(** ** Dumps *)

(** [printf] with [%s]: the string must be there. *)
Definition read_desc (d : option (list Z)) : run (list Z) := match d with Some s => Ret s | None => Undef end.

(** [newpp = malloc (strlen (prepend)+5); sprintf (newpp, "    +%s", prepend)] *)
Definition newpp (prepend : list Z) : run (list Z) :=
  let s : list Z := str "    +" ++ prepend in
  if zlen s + 1 <=? zlen prepend + 5 then Ret s else Undef.

Fixpoint dump (fuel : nat) (h : heap) (top : ptr) (prepend : list Z) : run (list Z) :=
  match top with
  | None => Ret []
  | Some top =>
      match fuel with
      | O => NoFuel
      | S fuel =>
          n ← load h top;
          v ← match n_value n with
              | Some _ =>
                  s ← read_value (n_value n);
                  d ← read_desc (n_desc n);
                  Ret (str "=" ++ s ++ [9; QUOTE] ++ d ++ [QUOTE])
              | None => Ret []
              end;
          let below a := (pp ← newpp prepend; dump fuel h (Some a) pp) in
          attrs ← match n_firstAttr n with
                  | Some a =>
                      l ← dump_siblings fuel h below (Some a);
                      Ret ([LF] ++ prepend ++ str "Attrs: {" ++ [LF] ++ l ++ prepend ++ str "}")
                  | None => Ret []
                  end;
          kids ← dump_siblings fuel h below (n_firstChild n);
          Ret (prepend ++ n_name n ++ v ++ attrs ++ [LF] ++ kids)
      end
  end.

(** The attribute is printed for [root] only, then the loop descends into the first
    child of each sibling. *)
Fixpoint dump_nodes_attr (fuel : nat) (h : heap) (root : ptr) (name : list Z) : run (list Z) :=
  match root with
  | None => Ret []
  | Some r =>
      match fuel with
      | O => NoFuel
      | S fuel =>
          has ← nodeHasAttr fuel h root (Some name);
          line ← (if has =? 0 then Ret [] else
                    l ← nodeGetLevel fuel h r;
                    n ← load h r;
                    v ← nodeGetAttr fuel h r name;
                    s ← read_value v;
                    Ret (print_indent l ++ n_name n ++ str " = " ++ s ++ [LF]));
          rest ← dump_siblings fuel h
                   (fun a => n ← load h a; dump_nodes_attr fuel h (n_firstChild n) name) root;
          Ret (line ++ rest)
      end
  end.

(** [(conf_id > 1)?name:"value"] *)
Definition attr_name (conf_id : Z) : list Z := if 1 <? conf_id then value_name conf_id else str "value".

Definition dump_text (fuel : nat) (st : state) (root : ptr) (conf_id : Z) : run state :=
  s ← dump_nodes_attr fuel (s_heap st) root (attr_name conf_id);
  Ret (print s st).

Section conf.
Context (strbuf_at : Z) (realloc_at : nat -> Z).

Definition append (s : strbuf) (string : list Z) : run strbuf := lift (strAppend realloc_at s string).
(** [for (i = 0; i < nodeGetLevel(root); i++) strAppend(s, INDENT)] *)
Fixpoint append_indent (k : nat) (s : strbuf) : run strbuf :=
  match k with O => Ret s | S k => s ← append s INDENT; append_indent k s end.

Fixpoint append_siblings (k : nat) (h : heap) (f : strbuf -> nat -> run strbuf) (s : strbuf) (p : ptr) : run strbuf :=
  match p with
  | None => Ret s
  | Some a =>
      match k with
      | O => NoFuel
      | S k => s ← f s a; n ← load h a; append_siblings k h f s (n_next n)
      end
  end.

Fixpoint dump_xml_nodes_attr (fuel : nat) (h : heap) (s : strbuf) (root : ptr) (name : list Z) : run strbuf :=
  match root with
  | None => Ret s
  | Some r =>
      match fuel with
      | O => NoFuel
      | S fuel =>
          l ← nodeGetLevel fuel h r;
          s ← append_indent (Z.to_nat l) s;
          n ← load h r;
          s ← append s (str "<");
          s ← append s (n_name n);
          has ← nodeHasAttr fuel h root (Some name);
          s ← (if has =? 0 then Ret s else
                 s ← append s (str " value=" ++ [QUOTE]);
                 v ← nodeGetAttr fuel h r name;
                 v ← read_value v;
                 s ← append s v;
                 append s [QUOTE]);
          s ← append s (str ">");
          s ← match n_firstChild n with
              | Some c =>
                  s ← append s [LF];
                  s ← append_siblings fuel h (fun s a => dump_xml_nodes_attr fuel h s (Some a) name) s (Some c);
                  append_indent (Z.to_nat l) s
              | None => Ret s
              end;
          s ← append s (str "</");
          s ← append s (n_name n);
          append s (str ">" ++ [LF])
      end
  end.

Definition dump_xml (fuel : nat) (st : state) (root : ptr) (conf_id : Z) : run (Z * state) :=
  s ← dump_xml_nodes_attr fuel (s_heap st) (strInit strbuf_at) root (attr_name conf_id);
  text ← lift (strGet s);
  Ret (0, print (str "dump_xml(" ++ [QUOTE; LF] ++ text ++ [LF] ++ str ")" ++ [LF]) st).
(** ** Command lines *)

(** The word up to the first blank and what follows it. *)
Fixpoint split_space (p : list Z) : list Z * option (list Z) :=
  match p with
  | [] => ([], None)
  | b :: r => if b =? 32 then ([], Some r) else let '(w, t) := split_space r in (b :: w, t)
  end.
(** The words stored from [argv[i]] on, with [slots] slots to go, and the last [i]. *)
Fixpoint tokenize (slots i : nat) (p : list Z) : list (list Z) * nat :=
  match slots, p with
  | S slots, _ :: _ =>
      match split_space p with
      | (w, None) => ([w], i)
      | (w, Some r) => let '(ws, i) := tokenize slots (S i) (skip_while isspace r) in (w :: ws, i)
      end
  | _, _ => ([], i)
  end.
(** [argv] has [MAX_CMD_PATH] slots; those not stored are indeterminate. *)
Definition argv_of (cmdline : list Z) : list (list Z) := (tokenize MAX_CMD_PATH 0 cmdline).1.
Definition argc_of (cmdline : list Z) : nat := S (tokenize MAX_CMD_PATH 0 cmdline).2.
Definition arg (argv : list (list Z)) (i : nat) : run (list Z) :=
  match argv !! i with Some w => Ret w | None => Undef end.

(** The longest path of words looked up: the loop ends at a [pseudo] command. *)
Fixpoint find_command (slots : nat) (fuel : nat) (h : heap) (cmds : nat) (s : strbuf) (argv : list (list Z)) (i : nat)
    (node : ptr) : run (ptr * nat) :=
  match slots with
  | O => Ret (node, i)
  | S slots =>
      s ← append s (str ".");
      w ← arg argv i;
      s ← append s w;
      path ← lift (strGet s);
      node ← findNodePath fuel h (Some cmds) (Some path);
      pseudo ← match node with
               | Some _ => nodeHasAttrVal fuel h node (Some (str "command")) (Some (str "pseudo"))
               | None => Ret 0
               end;
      if pseudo =? 0 then find_command slots fuel h cmds s argv (S i) node else Ret (node, i)
  end.

Inductive handler : Type := Load_default | Load_config | Show_config | Event.
Definition handler_of (name : list Z) : option handler :=
  if streq name (str "load_default") then Some Load_default
  else if streq name (str "load_config") then Some Load_config
  else if streq name (str "show_config") then Some Show_config
  else if streq name (str "event") then Some Event
  else None.

(** ** Handlers

    [argv] is the argument vector from [level] on. *)

Context {P : Type} (XML_ParserCreate : P) (XML_Parse : P -> list Z -> bool -> P * list xml_event * bool).
Context (files : list Z -> option (list Z)).

Definition load_tree (fuel : nat) (st : state) (file : list Z) (conf_id : Z) : run (Z * state) :=
  r ← load_xml XML_ParserCreate XML_Parse fuel (s_heap st) (c_tree (s_config st)) (files file) conf_id;
  let '(ret, t, h) := r in
  Ret (ret, State h (with_tree t (s_config st)) (s_out st)).

Definition load_default (fuel : nat) (st : state) (argc : Z) (argv : list (list Z)) : run (Z * state) :=
  if argc <? 2 then Ret (EINVAL, st)
  else
    a0 ← arg argv 0;
    if streq a0 (str "xml") then a1 ← arg argv 1; load_tree fuel st a1 1
    else Ret (EINVAL, st).

Definition load_config (fuel : nat) (st : state) (argc : Z) (argv : list (list Z)) : run (Z * state) :=
  if argc <? 2 then Ret (EINVAL, st)
  else
    r ← (if argc =? 3 then
           a0 ← arg argv 0;
           let '(v, e) := strtol a0 0 in
           Ret (match e with [] => Some (s32 v, tail argv) | _ => None end)
         else Ret (Some (2, argv)));
    match r with
    | None => Ret (EINVAL, st)
    | Some (conf_id, argv) =>
        a0 ← arg argv 0;
        if streq a0 (str "xml") then a1 ← arg argv 1; load_tree fuel st a1 conf_id
        else Ret (EINVAL, st)
    end.

(** [argv[0]] is compared with ["text"] before [argc] is looked at. [dump_text]
    returns no value; 0 stands for it. *)
Definition show_config (fuel : nat) (st : state) (argc : Z) (argv : list (list Z)) : run (Z * state) :=
  r ← (if 0 <? argc then
         a0 ← arg argv 0;
         let '(v, e) := strtol a0 0 in
         Ret (match e with [] => Some (s32 v, argc - 1, tail argv) | _ => None end)
       else Ret (Some (0, argc, argv)));
  match r with
  | None => Ret (EINVAL, st)
  | Some (conf_id, argc, argv) =>
      a0 ← arg argv 0;
      if streq a0 (str "text") || (argc =? 0) then
        st ← dump_text fuel st (c_tree (s_config st)) conf_id; Ret (0, st)
      else if streq a0 (str "xml") then dump_xml fuel st (c_tree (s_config st)) conf_id
      else Ret (EINVAL, st)
  end.

(** Whether some sibling from [p] has a [value]. *)
Fixpoint match_any (k fuel : nat) (h : heap) (p : ptr) (matched : bool) : run bool :=
  match p with
  | None => Ret matched
  | Some a =>
      match k with
      | O => NoFuel
      | S k =>
          has ← nodeHasAttr fuel h p (Some (str "value"));
          n ← load h a;
          match_any k fuel h (n_next n) (matched || negb (has =? 0))
      end
  end.

Section event.
Context (docmd : state -> list Z -> run (Z * state)).

(** The commands of a matched event. *)
Fixpoint run_commands (k fuel : nat) (st : state) (p : ptr) : run state :=
  match p with
  | None => Ret st
  | Some a =>
      match k with
      | O => NoFuel
      | S k =>
          has ← nodeHasAttr fuel (s_heap st) p (Some (str "value"));
          st ← (if has =? 0 then Ret st else
                  v ← nodeGetAttr fuel (s_heap st) a (str "value");
                  cmdline ← read_value v;
                  r ← docmd st cmdline;
                  Ret r.2);
          n ← load (s_heap st) a;
          run_commands k fuel st (n_next n)
      end
  end.

Fixpoint run_events (k fuel : nat) (st : state) (p : ptr) : run state :=
  match p with
  | None => Ret st
  | Some a =>
      match k with
      | O => NoFuel
      | S k =>
          n ← load (s_heap st) a;
          matched ← match n_firstChild n with
                    | Some m =>
                        c ← load (s_heap st) m;
                        if streq (n_name c) (str "match") then match_any fuel fuel (s_heap st) (n_firstChild c) false
                        else Ret false
                    | None => Ret false
                    end;
          st ← (if (matched : bool) then
                  cmds ← findNodePath fuel (s_heap st) (Some a) (Some (str "event.do"));
                  match cmds with
                  | Some d => n ← load (s_heap st) d; run_commands fuel fuel st (n_firstChild n)
                  | None => Ret st
                  end
                else Ret st);
          n ← load (s_heap st) a;
          run_events k fuel st (n_next n)
      end
  end.

Definition event (fuel : nat) (st : state) : run (Z * state) :=
  match c_events (s_config st) with
  | None => Ret (1, st)
  | Some e =>
      n ← load (s_heap st) e;
      match n_firstChild n with
      | None => Ret (1, st)
      | Some c => st ← run_events fuel fuel st (Some c); Ret (0, st)
      end
  end.
End event.

Fixpoint docmd (fuel : nat) (st : state) (cmdline : list Z) : run (Z * state) :=
  match fuel with
  | O => NoFuel
  | S fuel =>
      let argv := argv_of cmdline in
      let argc := argc_of cmdline in
      match c_commands (s_config st) with
      | None => Ret (1, st)
      | Some cmds =>
          s ← append (strInit strbuf_at) (str "commands");
          r ← find_command argc fuel (s_heap st) cmds s argv 0 None;
          let '(node, i) := r in
          match node with
          | None => Ret (0, st)
          | Some a =>
              let level : nat := S i in
              hname ← nodeGetAttr fuel (s_heap st) a (str "handler");
              match hname with
              | None => Ret (0, st)
              | Some _ =>
                  name ← read_value hname;
                  let argc' := Z.of_nat argc - Z.of_nat level in
                  let argv' : list (list Z) := drop level argv in
                  r ← match handler_of name with
                      | Some Load_default => load_default fuel st argc' argv'
                      | Some Load_config => load_config fuel st argc' argv'
                      | Some Show_config => show_config fuel st argc' argv'
                      | Some Event => event (docmd fuel) fuel st
                      | None => Ret (0, st)
                      end;
                  Ret (0, r.2)
              end
          end
      end
  end.

(** ** Start *)

Definition default_file : list Z := str "./conf_defaults.xml".
(** The last [-f] of the options [getopt] returned. *)
Fixpoint defaults_file (opts : list (Z * list Z)) (file : list Z) : list Z :=
  match opts with
  | [] => file
  | (ch, optarg) :: r => defaults_file r (if ch =? 102 then optarg else file)
  end.

Definition init_defaults (fuel : nat) (opts : list (Z * list Z)) : run (Z * state) :=
  let file := defaults_file opts default_file in
  let '(tree, h) := newNode [] (Some (str "root")) None in
  r ← load_default fuel (State h (Config tree None None None) []) 2 [str "xml"; file];
  let '(error, st) := r in
  if negb (error =? 0) then Ret (error, st)
  else
    t ← deref (c_tree (s_config st));
    n ← load (s_heap st) t;
    let root := n_firstChild n in
    events ← findNodePath fuel (s_heap st) root (Some (str "root.events"));
    commands ← findNodePath fuel (s_heap st) root (Some (str "root.commands"));
    Ret (0, State (s_heap st) (Config (c_tree (s_config st)) root events commands) (s_out st)).

Definition event_handler (fuel : nat) (st : state) (args : list Z) : run (Z * state) :=
  s ← append (strInit strbuf_at) (str "event ");
  s ← append s args;
  line ← lift (strGet s);
  docmd fuel st line.

(** The exit status and what was printed. Nothing after [exit(0)] runs. *)
Definition main (fuel : nat) (opts : list (Z * list Z)) : run (Z * list Z) :=
  r ← init_defaults fuel opts;
  let '(error, st) := r in
  if negb (error =? 0) then Ret (1, s_out st)
  else
    s ← append (strInit strbuf_at) (str "event ${TEST} ${TEST} value ${TEST} ${TEST} value");
    r ← lift (strReplace realloc_at fuel s (str "${TEST}") (str "test"));
    match r with
    | None => NoFuel
    | Some (_, s) =>
        text ← lift (strGet s);
        Ret (0, s_out st ++ text ++ [LF])
    end.

End conf.
