(* ===== verification/ConfDump.v ===== *)
(** * What the commands print and answer

    Theorems about conf_main.c: the XML and text dumps of a tree, and the program as
    it starts. *)

From S2P Require Import Prelude CLib CFormat ConfStrbuf ConfNode ConfXml ConfMain.
From stdpp Require Import sets.
#[local] Open Scope Z_scope.

(** ** Levels *)

(** [nodeGetLevel] at [a] is [d], with fuel beyond it. *)
Definition level_at (h : heap) (a d : nat) : Prop :=
  forall fuel, (d < fuel)%nat -> nodeGetLevel fuel h a = Ret (Z.of_nat d).

Lemma level_root h pv nx t : rep h None pv nx t -> level_at h (t_addr t) 0.
Proof.
  intros Hr%rep_cell [|fuel] Hf; [lia|]. cbn [nodeGetLevel]. by rewrite (load_cell _ _ _ Hr).
Qed.
Lemma level_kid h p pv nx t d : rep h (Some p) pv nx t -> level_at h p d -> level_at h (t_addr t) (S d).
Proof.
  intros Hr%rep_cell Hp [|fuel] Hf; [lia|]. cbn [nodeGetLevel]. rewrite (load_cell _ _ _ Hr). rsimpl.
  cbn [tree_cell n_parent]. rewrite Hp by lia. rsimpl. f_equal. lia.
Qed.

(** ** Attributes by name, case ignored *)

(** No attribute of the tree has the name in another case. *)
#[warnings="-register-all"]
Inductive exact_names (nm : list Z) : tree -> Prop :=
| exact_names_T l ks :
    Forall (fun a => strcaseeq (at_name a) nm = true -> at_name a = nm) (l_attrs l) ->
    Forall (exact_names nm) ks -> exact_names nm (T l ks).

Lemma strcaseeq_refl s : strcaseeq s s = true.
Proof. apply streq_refl. Qed.

Lemma count_attrs_none h nm : forall al prev fuel ret,
  rep_list at_addr (rep_attr h) prev al None -> (length al <= fuel)%nat ->
  count_attrs fuel h (head_addr at_addr al None) nm None ret =
  Ret (ret + Z.of_nat (length (List.filter (fun a => strcaseeq (at_name a) nm) al))).
Proof.
  induction al as [|a al IH]; intros prev fuel ret Hr Hf; [destruct fuel; cbn; f_equal; lia|].
  destruct Hr as [Ha Hr]. destruct fuel as [|fuel]; [cbn in Hf; lia|]. cbn [head_addr count_attrs List.filter].
  rewrite (load_cell _ _ _ Ha). rsimpl. cbn [attr_cell n_name n_next].
  destruct (strcaseeq (at_name a) nm); rsimpl; rewrite (IH _ _ _ Hr) by (cbn in Hf; lia); f_equal; cbn [length]; lia.
Qed.

Lemma nodeHasAttr_ok h fuel p pv nx l ks nm :
  rep h p pv nx (T l ks) -> (length (l_attrs l) <= fuel)%nat ->
  Forall (fun a => strcaseeq (at_name a) nm = true -> at_name a = nm) (l_attrs l) ->
  exists c, nodeHasAttr fuel h (Some (l_addr l)) (Some nm) = Ret c /\
    (c =? 0) = match find_attr nm (l_attrs l) with Some _ => false | None => true end.
Proof.
  intros (Hc & Ha & _) Hf Hex. unfold nodeHasAttr, nodeHasAttrVal, nodeGetAttrs.
  rewrite (load_cell _ _ _ Hc). rsimpl. cbn [tree_cell n_firstAttr].
  rewrite (count_attrs_none h nm _ None) by done. eexists. split; [done|]. rewrite Z.add_0_l.
  unfold find_attr. clear Ha Hf. induction (l_attrs l) as [|a al IH]; [done|]. apply Forall_cons in Hex as [Ha Hex].
  cbn [List.filter List.find]. destruct (strcaseeq (at_name a) nm) eqn:E.
  - rewrite Ha, streq_refl by done. apply Z.eqb_neq. cbn [length]. lia.
  - rewrite (proj2 (streq_false (at_name a) nm)); [by apply IH|]. intros En. by rewrite En, strcaseeq_refl in E.
Qed.

(** ** The XML dump *)

(** The document of the tree in which every node shows the attribute [nm] as its
    [value]. *)
Fixpoint value_document (nm : list Z) (t : tree) : xml :=
  match t with
  | T l ks =>
      Elem (l_name l)
        match find_attr nm (l_attrs l) with
        | Some a => [(str "value", value_string (at_value a))]
        | None => []
        end (map (value_document nm) ks)
  end.

(** The strings [dump_xml_nodes_attr] appends. *)
Fixpoint pieces (nm : list Z) (d : nat) (t : tree) : list (list Z) :=
  match t with
  | T l ks =>
      replicate d INDENT ++ [str "<"; l_name l] ++
      match find_attr nm (l_attrs l) with
      | Some a => [str " value=" ++ [QUOTE]; value_string (at_value a); [QUOTE]]
      | None => []
      end ++ [str ">"] ++
      match ks with
      | [] => []
      | _ => [LF] :: flat_map (pieces nm (S d)) ks ++ replicate d INDENT
      end ++ [str "</"; l_name l; str ">" ++ [LF]]
  end.

Lemma concat_pieces nm t : forall d, concat (pieces nm d t) = serialize (Z.of_nat d) (value_document nm t).
Proof.
  induction t as [l ks IH] using tree_ind'. intros d. cbn [pieces serialize value_document].
  assert (Hks : concat (flat_map (pieces nm (S d)) ks) = flat_map (serialize (Z.of_nat d + 1)) (map (value_document nm) ks)).
  { induction IH as [|k ks' Hk _ IHk]; [done|]. cbn [flat_map map]. rewrite concat_app, Hk, IHk. do 2 f_equal. lia. }
  assert (Hmid : concat match ks with [] => [] | _ => [LF] :: flat_map (pieces nm (S d)) ks ++ replicate d INDENT end =
    match map (value_document nm) ks with
    | [] => []
    | _ => [LF] ++ flat_map (serialize (Z.of_nat d + 1)) (map (value_document nm) ks) ++ print_indent (Z.of_nat d)
    end).
  { rewrite <- Hks. destruct ks as [|k ks]; [done|]. cbn [map]. cbn [concat]. rewrite concat_app.
    unfold print_indent. by rewrite Nat2Z.id. }
  unfold print_indent at 1. rewrite Nat2Z.id, !concat_app, Hmid.
  destruct (find_attr nm (l_attrs l)) as [a|]; cbn [concat rev app flat_map]; unfold print_attr; cbn [fst snd];
    rewrite ?app_nil_r, <- ?app_assoc; reflexivity.
Qed.

Section dump_xml.
Context (realloc_at : nat -> Z).

(** A sequence of appends as a step of the program. *)
Definition apps (s : strbuf) (l : list (list Z)) : run strbuf := lift (appends realloc_at s l).

Lemma apps_cons s a l : apps s (a :: l) = (s ← append realloc_at s a; apps s l).
Proof. unfold apps, append. cbn [appends]. by destruct (strAppend realloc_at s a). Qed.
Lemma apps_app s l1 l2 : apps s (l1 ++ l2) = (s ← apps s l1; apps s l2).
Proof.
  revert s. induction l1 as [|a l1 IH]; intros s; [done|]. cbn [app]. rewrite !apps_cons.
  destruct (append realloc_at s a); rsimpl; [apply IH|done..].
Qed.
Lemma append_indent_apps k : forall s, append_indent realloc_at k s = apps s (replicate k INDENT).
Proof.
  induction k as [|k IH]; intros s; [done|]. cbn [append_indent replicate]. rewrite apps_cons.
  destruct (append realloc_at s INDENT); rsimpl; [apply IH|done..].
Qed.

(** The same append on both sides. *)
Ltac step_append :=
  rewrite ?apps_cons;
  match goal with
  | |- context [append realloc_at ?s ?a] =>
      let s' := fresh "s" in destruct (append realloc_at s a) as [s'| |]; rsimpl; [|done|done]
  end.
Lemma apps_nil s : apps s [] = Ret s.
Proof. done. Qed.

(** The part with the value. *)
Definition value_pieces (nm : list Z) (l : label) : list (list Z) :=
  match find_attr nm (l_attrs l) with
  | Some a => [str " value=" ++ [QUOTE]; value_string (at_value a); [QUOTE]]
  | None => []
  end.
Lemma append_value_ok h fuel p pv nx l ks nm s :
  rep h p pv nx (T l ks) -> (length (l_attrs l) <= fuel)%nat -> Forall owned_attr (l_attrs l) ->
  (if match find_attr nm (l_attrs l) with Some _ => false | None => true end then Ret s else
     s ← append realloc_at s (str " value=" ++ [QUOTE]);
     v ← nodeGetAttr fuel h (l_addr l) nm; v ← read_value v; s ← append realloc_at s v; append realloc_at s [QUOTE]) =
  apps s (value_pieces nm l).
Proof.
  intros Hr Hf Hoa. pose proof (nodeGetAttr_ok h fuel p pv nx (T l ks) nm Hr Hf) as Hget.
  change (t_addr (T l ks)) with (l_addr l) in Hget. rewrite Hget. unfold attr_of, value_pieces. cbn [t_label].
  destruct (find_attr nm (l_attrs l)) as [a|] eqn:E; [|done].
  apply find_attr_in in E as [Hin _]. rewrite Forall_forall in Hoa. destruct (Hoa a Hin) as [v Hv]. rewrite Hv.
  cbn [value_string]. step_append. cbn [read_value]. rsimpl. step_append. by step_append.
Qed.

(** The siblings, each dumped by its pieces. *)
Lemma append_siblings_ok h nm d f parent : forall ks prev k s,
  rep_kids h parent prev ks None ->
  (forall t s, t ∈ ks -> f s (t_addr t) = apps s (pieces nm d t)) -> (length ks <= k)%nat ->
  append_siblings k h f s (head_addr t_addr ks None) = apps s (flat_map (pieces nm d) ks).
Proof.
  induction ks as [|t ks IH]; intros prev k s Hr Hf Hk; [by destruct k|].
  destruct Hr as [Ht Hr]. destruct k as [|k]; [cbn in Hk; lia|].
  cbn [head_addr append_siblings flat_map]. rewrite Hf by constructor. rewrite apps_app.
  destruct (apps s (pieces nm d t)) as [s1| |]; rsimpl; [|done|done].
  rewrite (load_cell _ _ _ (rep_cell _ _ _ _ _ Ht)). rsimpl. cbn [tree_cell n_next].
  eapply IH; [exact Hr | | cbn in Hk; lia]. intros. apply Hf. by constructor.
Qed.

Lemma dump_xml_nodes_attr_ok h nm : forall fuel t p pv nx d s,
  rep h p pv nx t -> owned t -> exact_names nm t -> level_at h (t_addr t) d ->
  (d + 2 * length (addrs t) < fuel)%nat ->
  dump_xml_nodes_attr realloc_at fuel h s (Some (t_addr t)) nm = apps s (pieces nm d t).
Proof.
  induction fuel as [|fuel IH]; intros [l ks] p pv nx d s Hr Ho Hex Hlv Hf; [lia|].
  pose proof Hr as (Hc & Ha & Hk). inversion Ho as [? ? Hoa Hok]; inversion Hex as [? ? Hexa Hexk]; subst.
  rewrite addrs_T in Hf. cbn [length] in Hf. rewrite length_app, length_map in Hf.
  pose proof (length_kids_addrs ks) as Hlk. change (t_addr (T l ks)) with (l_addr l) in *.
  assert (Hgf : (length (l_attrs l) <= fuel)%nat) by lia.
  destruct (nodeHasAttr_ok h fuel p pv nx l ks nm Hr Hgf Hexa) as (c & Hhas & Hc0).
  cbn [dump_xml_nodes_attr pieces]. rewrite Hlv by lia. rsimpl. rewrite Nat2Z.id, append_indent_apps, apps_app.
  destruct (apps s (replicate d INDENT)) as [s1| |]; rsimpl; [|done|done].
  rewrite (load_cell _ _ _ Hc). rsimpl. cbn [tree_cell n_name n_firstChild].
  rewrite (apps_app _ [str "<"; l_name l]). step_append. step_append. rewrite Hhas. rsimpl. rewrite apps_nil. rsimpl.
  fold (value_pieces nm l). rewrite Hc0, apps_app, (append_value_ok h fuel p pv nx l ks nm _ Hr Hgf Hoa).
  destruct (apps _ (value_pieces nm l)) as [s6| |]; rsimpl; [|done|done].
  rewrite (apps_app s6 [str ">"]). step_append. rewrite apps_nil. rsimpl. rewrite apps_app.
  assert (Hkids : forall s, append_siblings fuel h
    (fun s a => dump_xml_nodes_attr realloc_at fuel h s (Some a) nm) s (head_addr t_addr ks None) =
    apps s (flat_map (pieces nm (S d)) ks)).
  { intros s'. apply (append_siblings_ok h nm (S d) _ (l_addr l) ks None); [exact Hk | | lia].
    intros t s8 Hin. apply list_elem_of_In, in_split in Hin as (pre & post & ->).
    pose proof (rep_kid _ _ _ _ _ _ _ _ Hr) as Hrk.
    rewrite Forall_forall in Hok, Hexk. assert (Hin : t ∈ pre ++ t :: post) by set_solver.
    apply (IH t _ _ _ (S d) s8 Hrk); [by apply Hok | by apply Hexk | by eapply level_kid |].
    rewrite kids_addrs_app, length_app in Hf. unfold kids_addrs at 2 in Hf. cbn [flat_map] in Hf.
    rewrite length_app in Hf. lia. }
  assert (Hmid : forall s7, match head_addr t_addr ks None with
    | Some c => s ← append realloc_at s7 [LF];
                s ← append_siblings fuel h (fun s a => dump_xml_nodes_attr realloc_at fuel h s (Some a) nm) s (Some c);
                append_indent realloc_at d s
    | None => Ret s7 end =
    apps s7 match ks with [] => [] | _ => [LF] :: flat_map (pieces nm (S d)) ks ++ replicate d INDENT end).
  { intros s7. destruct ks as [|k ks]; [done|]. cbn [head_addr] in *. step_append. rewrite apps_app, Hkids.
    destruct (apps _ (flat_map _ _)) as [s9| |]; rsimpl; [|done|done]. apply append_indent_apps. }
  rewrite Hmid. destruct (apps _ (match ks with [] => _ | _ => _ end)) as [s8| |]; rsimpl; [|done|done].
  step_append. step_append. by step_append.
Qed.
End dump_xml.

(** Names and values a buffer takes block by block. *)
#[warnings="-register-all"]
Inductive printable : tree -> Prop :=
| printable_T l ks :
    appendable (l_name l) -> Forall (fun a => appendable (value_string (at_value a))) (l_attrs l) ->
    Forall printable ks -> printable (T l ks).

Lemma appendable_short s : forallb (fun b => negb (b =? 0)) s && (zlen s <=? 4096) = true -> appendable s.
Proof.
  intros [H1 H2%Z.leb_le]%andb_prop. split; [|done]. unfold nonul. apply Forall_forall. intros b Hb.
  rewrite forallb_forall in H1. apply list_elem_of_In, H1, negb_true_iff, Z.eqb_neq in Hb. done.
Qed.
Ltac appendable_lit := apply appendable_short; vm_compute; reflexivity.

Lemma pieces_appendable nm t : printable t -> forall d, Forall appendable (pieces nm d t).
Proof.
  induction t as [l ks IH] using tree_ind'. intros Hp d. inversion Hp as [? ? Hn Ha Hk]; subst. cbn [pieces].
  assert (Hind : Forall appendable (replicate d INDENT)) by (apply Forall_replicate; appendable_lit).
  repeat (apply Forall_app; split); try done.
  - apply Forall_cons_2; [appendable_lit|]. apply Forall_cons_2; [exact Hn | constructor].
  - destruct (find_attr nm (l_attrs l)) as [a|] eqn:E; [|constructor]. apply find_attr_in in E as [Hin _].
    rewrite Forall_forall in Ha. repeat apply Forall_cons_2; [appendable_lit | by apply Ha | appendable_lit | constructor].
  - apply Forall_cons_2; [appendable_lit | constructor].
  - destruct ks as [|k ks]; [constructor|]. apply Forall_cons_2; [appendable_lit|]. apply Forall_app. split; [|done].
    revert IH Hk. generalize (k :: ks). intros ks' IH Hk. induction IH as [|t ks' Ht _ IHks]; [constructor|].
    apply Forall_cons in Hk as [Hk1 Hk]. cbn [flat_map]. apply Forall_app. auto.
  - apply Forall_cons_2; [appendable_lit|]. apply Forall_cons_2; [done|]. apply Forall_cons_2; [appendable_lit | constructor].
Qed.

(** the XML dump of a configuration is XML: every node as an element whose
    [value] is the node's [value] (for a configuration number above 1, its
    [value<n>]), nested and indented as [XMLdump] does, for buffers that grow in
    place. *)
Theorem dump_xml_prints p realloc_at fuel st t id :
  0 < p < 2 ^ 48 -> (forall n, realloc_at n = p) ->
  rep (s_heap st) None None None t -> owned t -> printable t -> exact_names (attr_name id) t ->
  let text := serialize 0 (value_document (attr_name id) t) in
  zlen text < 2 ^ 61 -> (2 * length (addrs t) < fuel)%nat ->
  dump_xml p realloc_at fuel st (Some (t_addr t)) id =
  Ret (0, print (str "dump_xml(" ++ [QUOTE; LF] ++ text ++ [LF] ++ str ")" ++ [LF]) st).
Proof.
  intros Hp Hre Hr Ho Hpr Hex text Hlen Hf. unfold dump_xml.
  rewrite (dump_xml_nodes_attr_ok realloc_at _ _ fuel t None None None 0) by (done || lia || by eapply level_root).
  pose proof (concat_pieces (attr_name id) t 0) as Hc. change (Z.of_nat 0) with 0 in Hc. fold text in Hc.
  pose proof (pieces_appendable (attr_name id) t Hpr 0) as Happ.
  destruct (appends_written realloc_at (strInit p) [] (pieces (attr_name id) 0 t)) as (s & E & _ & _ & _ & Hm);
    [done | by apply strInit_written | done | done | by rewrite Hc |].
  destruct Hm as [r Hm]; [by destruct t |].
  unfold apps. rewrite E. cbn [lift]. rsimpl.
  rewrite (written_app_nul s (concat (pieces (attr_name id) 0 t)) r), Hc; [done | by apply nonul_concat | exact Hm].
Qed.

(** A node with a value, its cells at 0 and 1. *)
Definition sample_tree : tree := T (Label 0 (str "a") None None [Attr 1 (str "value") (Some (Own (str "1")))]) [].
Definition sample_state : state :=
  State [Some (tree_cell None None None (t_label sample_tree) []);
         Some (attr_cell None None (Attr 1 (str "value") (Some (Own (str "1")))))]
    (Config (Some 0%nat) (Some 0%nat) None None) [].

Lemma sample_rep : rep (s_heap sample_state) None None None sample_tree.
Proof. repeat split. Qed.

Lemma dump_xml_prints_witness :
  dump_xml 65536 (fun _ => 65536) 9 sample_state (Some 0%nat) 0 =
  Ret (0, print (str "dump_xml(" ++ [QUOTE; LF] ++ serialize 0 (Elem (str "a") [(str "value", str "1")] []) ++
                 [LF] ++ str ")" ++ [LF]) sample_state).
Proof.
  apply (dump_xml_prints 65536 (fun _ => 65536) 9 sample_state sample_tree 0).
  - lia.
  - reflexivity.
  - apply sample_rep.
  - repeat constructor. by eexists.
  - repeat constructor; try discriminate; done.
  - repeat constructor.
  - vm_compute. reflexivity.
  - cbn. lia.
Defined.

(** ** Paths *)

(** The dotted path of a list of names. *)
Fixpoint join (names : list (list Z)) : list Z :=
  match names with [] => [] | [n] => n | n :: r => n ++ 46 :: join r end.
Definition no_dot (n : list Z) : Prop := Forall (fun b => b <> 46) n.

Lemma split_path_no_dot n : no_dot n -> split_path n = (n, None).
Proof.
  induction 1 as [|b n Hb _ IH]; [done|]. cbn [split_path]. rewrite IH.
  destruct b as [|p|p]; try done. do 6 (destruct p as [p|p|]; try done).
Qed.
Lemma split_path_dot n r : no_dot n -> split_path (n ++ 46 :: r) = (n, Some r).
Proof.
  induction 1 as [|b n Hb _ IH]; [done|]. cbn [app split_path]. rewrite IH.
  destruct b as [|p|p]; try done. do 6 (destruct p as [p|p|]; try done).
Qed.
Lemma split_join n names :
  no_dot n -> split_path (join (n :: names)) = (n, match names with [] => None | _ => Some (join names) end).
Proof. intros Hn. destruct names as [|m names]; [by apply split_path_no_dot | by apply split_path_dot]. Qed.

(** A name without dots is the whole path only when it is its one name. *)
Lemma join_eq m n names : no_dot m -> m = join (n :: names) -> names = [] /\ m = n.
Proof.
  intros Hm E. destruct names as [|n' names]; [done|]. exfalso. cbn in E.
  unfold no_dot in Hm. rewrite E in Hm. apply Forall_app in Hm as [_ Hm]. by apply Forall_cons in Hm as [? _].
Qed.

#[warnings="-register-all"]
Inductive no_dots : tree -> Prop :=
| no_dots_T l ks : no_dot (l_name l) -> Forall no_dots ks -> no_dots (T l ks).

(** The loop passes the siblings of other names. *)
Lemma path_loop_skip h parent fc fa nm leaf : forall ks prev nx k fuel,
  rep_list t_addr (rep h (Some parent)) prev ks nx -> (length ks <= fuel)%nat ->
  find_kid nm ks = Some k ->
  exists fuel', (fuel <= fuel' + length ks)%nat /\
    path_loop fuel h fc fa nm leaf (head_addr t_addr ks nx) =
    path_loop (S fuel') h fc fa nm leaf (Some (t_addr k)) /\ exists pv nx', rep h (Some parent) pv nx' k.
Proof.
  unfold find_kid. induction ks as [|t ks IH]; intros prev nx k fuel Hr Hf Hk; [done|].
  destruct Hr as [Ht Hr]. destruct fuel as [|fuel]; [cbn in Hf; lia|]. cbn [List.find] in Hk.
  destruct (streq (t_name t) nm) eqn:E.
  - injection Hk as <-. exists fuel. cbn [head_addr length]. split; [lia|]. split; [done|]. eauto.
  - destruct (IH _ nx k fuel Hr ltac:(cbn in Hf; lia) Hk) as (fuel' & Hle & Hp & Hrep).
    exists fuel'. cbn [length]. split; [lia|]. split; [|done]. rewrite <- Hp.
    cbn [head_addr]. destruct t as [l kk]. pose proof (rep_cell _ _ _ _ _ Ht) as Hc.
    cbn [path_loop]. rewrite (load_cell _ _ _ Hc). rsimpl. unfold named. cbn [tree_cell n_name n_next].
    change (l_name (t_label (T l kk))) with (t_name (T l kk)). by rewrite E.
Qed.

(** Among siblings: the first child of the first name, and so on. *)
Lemma findNodePath_siblings h : forall names parent prev nx ks k x fuel,
  rep_list t_addr (rep h (Some parent)) prev ks nx -> Forall no_dots ks -> Forall no_dot names ->
  find_kid (hd [] names) ks = Some k -> follow (tail names) k = Some x -> names <> [] ->
  (length names + length (kids_addrs ks) < fuel)%nat ->
  findNodePath fuel h (head_addr t_addr ks nx) (Some (join names)) = Ret (Some (t_addr x)).
Proof.
  induction names as [|nm names IH]; intros parent prev nx ks k x fuel Hr Hnd Hn Hk Hfo Hne Hf; [done|].
  clear Hne. cbn [hd tail] in *. apply Forall_cons in Hn as [Hn1 Hn].
  destruct fuel as [|fuel]; [lia|]. pose proof (length_kids_addrs ks) as Hlk.
  destruct ks as [|k0 ks0] eqn:Eks; [done|]. rewrite <- Eks in *. destruct k0 as [l0 kk0].
  assert (Hr0 := Hr). rewrite Eks in Hr0. destruct Hr0 as [Hr0 _]. pose proof (rep_cell _ _ _ _ _ Hr0) as Hc0.
  assert (Hhead : head_addr t_addr ks nx = Some (l_addr l0)) by (by rewrite Eks).
  destruct (find_kid_name _ _ _ Hk) as [Hkn Hkin]. rewrite Hhead.
  cbn [findNodePath]. unfold t_addr in Hc0. cbn [t_label t_kids] in Hc0.
  rewrite (load_cell _ _ _ Hc0). rsimpl. unfold named at 1. cbn [tree_cell n_name n_firstAttr].
  destruct (streq (l_name l0) (join (nm :: names))) eqn:E.
  - (* one name, which the first sibling has *)
    apply streq_true in E. assert (Hnd0 : no_dot (l_name l0)).
    { rewrite Eks in Hnd. apply Forall_cons in Hnd as [Hnd _]. by inversion Hnd. }
    destruct (join_eq _ _ _ Hnd0 E) as [-> En]. rewrite Eks in Hk. unfold find_kid in Hk. cbn [List.find] in Hk.
    change (t_name (T l0 kk0)) with (l_name l0) in Hk. rewrite En, streq_refl in Hk. injection Hk as <-.
    cbn in Hfo. by injection Hfo as <-.
  - clear E. rewrite split_join by done. rewrite <- Hhead.
    edestruct (path_loop_skip h parent) as (fuel' & Hle & -> & pv & nx' & Hrk); [exact Hr | | exact Hk |].
    { lia. }
    destruct k as [lk kk]. pose proof (rep_cell _ _ _ _ _ Hrk) as Hck. unfold t_addr in Hck. cbn [t_label t_kids] in Hck.
    change (t_addr (T lk kk)) with (l_addr lk). cbn [path_loop]. rewrite (load_cell _ _ _ Hck). rsimpl.
    unfold named. cbn [tree_cell n_name n_firstChild]. change (t_name (T lk kk)) with (l_name lk) in Hkn.
    rewrite Hkn, streq_refl. destruct names as [|nm2 names].
    + cbn [follow] in Hfo. injection Hfo as <-. destruct (head_addr t_addr kk None); [|done].
      by destruct fuel.
    + cbn [follow t_kids] in Hfo. destruct (find_kid nm2 kk) as [k2|] eqn:E2; [|done].
      destruct kk as [|k3 kk3] eqn:Ekk; [done|]. cbn [head_addr]. rewrite <- Ekk in *.
      assert (Hnk : no_dots (T lk kk)) by (rewrite Forall_forall in Hnd; by apply Hnd).
      inversion Hnk; subst lk kk.
      destruct Hrk as (_ & _ & Hkk).
      assert (Hlen : (length (kids_addrs (k3 :: kk3)) < length (kids_addrs ks))%nat).
      { apply list_elem_of_In, in_split in Hkin as (pre & post & Ek). rewrite Ek, kids_addrs_app, length_app.
        unfold kids_addrs at 3. cbn [flat_map]. rewrite length_app, addrs_T. cbn [length]. rewrite length_app. lia. }
      cbn [length] in *.
      pose proof (IH _ _ _ _ k2 x fuel Hkk ltac:(done) Hn E2 Hfo ltac:(done) ltac:(cbn [length]; lia)) as HI.
      cbn [head_addr] in HI. rewrite HI. by rsimpl.
Qed.

(** From a node, the path that starts with its own name. *)
Lemma findNodePath_ok h fuel p pv nx k names x :
  rep h p pv nx k -> no_dots k -> Forall no_dot names -> follow names k = Some x ->
  (length names + length (addrs k) < fuel)%nat ->
  findNodePath fuel h (Some (t_addr k)) (Some (join (t_name k :: names))) = Ret (Some (t_addr x)).
Proof.
  intros Hr Hnd Hn Hfo Hf. destruct fuel as [|fuel]; [lia|]. destruct k as [l ks].
  pose proof (rep_cell _ _ _ _ _ Hr) as Hc. inversion Hnd as [? ? Hl Hks]; subst. unfold t_addr in Hc. cbn [t_label t_kids] in Hc.
  change (t_addr (T l ks)) with (l_addr l). change (t_name (T l ks)) with (l_name l).
  cbn [findNodePath]. rewrite (load_cell _ _ _ Hc). rsimpl. unfold named at 1. cbn [tree_cell n_name n_firstAttr].
  destruct (streq (l_name l) (join (l_name l :: names))) eqn:E.
  - apply streq_true in E. destruct (join_eq _ _ _ Hl E) as [-> _]. by injection Hfo as <-.
  - clear E. rewrite split_join by done. destruct fuel as [|fuel]; [rewrite addrs_T in Hf; cbn in Hf; lia|].
    cbn [path_loop]. rewrite (load_cell _ _ _ Hc). rsimpl. unfold named. cbn [tree_cell n_name n_firstChild].
    rewrite streq_refl. destruct names as [|nm names].
    + injection Hfo as <-. by destruct (head_addr t_addr ks None).
    + destruct Hr as (_ & _ & Hk). cbn [follow t_kids] in Hfo. destruct (find_kid nm ks) as [k|] eqn:Ek; [|done].
      rewrite addrs_T in Hf. cbn [length] in Hf. rewrite length_app in Hf.
      pose proof (findNodePath_siblings h (nm :: names) _ _ _ _ k x (S fuel) Hk Hks Hn Ek Hfo ltac:(done) ltac:(cbn [length]; lia)) as HI.
      destruct ks as [|k1 ks]; [done|]. cbn [head_addr] in *. rewrite HI. by rsimpl.
Qed.

(** ** From the document to the answer *)

#[warnings="-register-all"]
Inductive no_dots_xml : xml -> Prop :=
| no_dots_Elem el attr kids : no_dot el -> Forall no_dots_xml kids -> no_dots_xml (Elem el attr kids).

(** The element a path leads to. *)
Fixpoint doc_at (path : list (list Z)) (e : xml) : option xml :=
  match path with
  | [] => Some e
  | nm :: r => match e with Elem _ _ kids => match find_el nm kids with Some k => doc_at r k | None => None end end
  end.

Lemma no_dots_document t : no_dots_xml (document t) -> no_dots t.
Proof.
  induction t as [l ks IH] using tree_ind'. intros H. inversion H as [? ? ? Hl Hk]; subst. constructor; [done|].
  rewrite Forall_map in Hk. rewrite Forall_forall in *. auto.
Qed.
Lemma find_el_document a ks : find_el a (map document ks) = document <$> find_kid a ks.
Proof.
  unfold find_el, find_kid. induction ks as [|[l kk] ks IH]; [done|]. cbn [map List.find document el_name].
  change (t_name (T l kk)) with (l_name l). rewrite IH. by destruct (streq (l_name l) a).
Qed.
Lemma follow_document : forall path t e, doc_at path (document t) = Some e -> exists k, follow path t = Some k /\ document k = e.
Proof.
  induction path as [|nm path IH]; cbn [doc_at follow]; intros [l ks] e H; [injection H as <-; eauto|].
  cbn [document t_kids] in *. rewrite find_el_document in H.
  destruct (find_kid nm ks) as [k|]; cbn in H; [by apply IH | done].
Qed.
Lemma doc_at_no_dot path : forall e x, no_dots_xml e -> doc_at path e = Some x -> Forall no_dot path.
Proof.
  induction path as [|nm path IH]; intros [el attr kids] x Hn H; [constructor|]. cbn [doc_at] in H.
  destruct (find_el nm kids) as [k|] eqn:E; [|done]. apply find_some in E as [Hin Hnm]. apply streq_true in Hnm.
  inversion Hn as [? ? ? _ Hk]; subst. rewrite Forall_forall in Hk. apply list_elem_of_In in Hin. specialize (Hk k Hin).
  constructor; [by inversion Hk | by eapply IH].
Qed.

Section lookup.
Context {P : Type} (XML_ParserCreate : P) (XML_Parse : P -> list Z -> bool -> P * list xml_event * bool).

(** The state after the defaults: the tree, its first child [r], and the path search
    from there. *)
Lemma defaults_lookup content d :
  is_document XML_ParserCreate XML_Parse content d -> xml_ok d -> no_dots_xml d ->
  exists n k, forall fuel, (n <= fuel)%nat -> exists h,
    load_xml XML_ParserCreate XML_Parse fuel [] None (Some content) 1 = Ret (0, Some 0%nat, h) /\
    rep h None None None (T root_label [k]) /\ tree_ok h (T root_label [k]) /\ (length h <= n)%nat /\
    forall path e, doc_at path d = Some e -> (n + length path <= fuel)%nat ->
    exists x, findNodePath fuel h (Some (t_addr k)) (Some (join (el_name d :: path))) = Ret (Some (t_addr x)) /\
      forall nm, nodeGetAttr fuel h (t_addr x) nm = Ret (Own <$> doc_attr nm path d).
Proof.
  intros Hdoc Hx Hnd. destruct (load_defaults XML_ParserCreate XML_Parse content d Hdoc Hx) as (n & k & Hk & Ho & H).
  exists (S (S (n + length content))), k. intros fuel Hf. destruct (H fuel) as (h & E & Hr & Hok & Hlen); [lia|lia|].
  exists h. split; [done|]. split; [done|]. split; [done|]. split; [lia|]. intros path e He Hfp.
  rewrite <- Hk in He. destruct (follow_document _ _ _ He) as (x & Hfo & Hxe). exists x.
  pose proof (rep_kid h None None None root_label [] k [] Hr) as Hrk.
  pose proof (tree_ok_kid h root_label [] k [] Hok) as Hokk. pose proof (tree_ok_length _ _ Hokk).
  split.
  - assert (Hel : el_name d = t_name k) by (rewrite <- Hk; by destruct k). rewrite Hel.
    eapply findNodePath_ok; [done | apply no_dots_document; by rewrite Hk | | done | lia].
    eapply doc_at_no_dot; [exact Hnd|]. by rewrite <- Hk.
  - intros nm. destruct (rep_follow h path _ _ _ k x Hrk Hokk Hfo) as (p & pv & nx & Hrx & Hokx).
    rewrite (nodeGetAttr_ok h fuel p pv nx x nm Hrx).
    + f_equal. pose proof (get_attr_document k Ho ltac:(by rewrite Hk) path nm) as Hg. unfold get_attr in Hg.
      by rewrite Hfo, Hk in Hg.
    + destruct x as [l ks]. pose proof (tree_ok_bounds _ _ _ Hokx). cbn [t_label]. lia.
Qed.

(** C35: the defaults answer path queries: after a document is loaded, [findNodePath]
    from the first child of the tree, with the dotted path of any element of the
    document, finds a node at which [nodeGetAttr] gives every attribute the document
    has there, and NULL for the others. *)
Theorem conf_lookup content d :
  is_document XML_ParserCreate XML_Parse content d -> xml_ok d -> no_dots_xml d ->
  exists n, forall fuel path e, doc_at path d = Some e -> (n + length path <= fuel)%nat ->
  exists h r x, load_xml XML_ParserCreate XML_Parse fuel [] None (Some content) 1 = Ret (0, Some 0%nat, h) /\
    load h 0 = Ret r /\
    findNodePath fuel h (n_firstChild r) (Some (join (el_name d :: path))) = Ret (Some x) /\
    forall nm, nodeGetAttr fuel h x nm = Ret (Own <$> doc_attr nm path d).
Proof.
  intros Hdoc Hx Hnd. destruct (defaults_lookup content d Hdoc Hx Hnd) as (n & k & H). exists n.
  intros fuel path e He Hf. destruct (H fuel) as (h & E & (Hc & _) & _ & _ & Hl); [lia|].
  destruct (Hl path e He Hf) as (x & Hfind & Hget). exists h, (tree_cell None None None root_label [k]), (t_addr x).
  split; [done|]. split; [by apply load_cell | done].
Qed.
End lookup.

Lemma conf_lookup_witness :
  exists n, forall fuel, (n + 1 <= fuel)%nat ->
  exists h r x, load_xml [] (buffered sample_docs) fuel [] None (Some (str "D")) 1 = Ret (0, Some 0%nat, h) /\
    load h 0 = Ret r /\
    findNodePath fuel h (n_firstChild r) (Some (str "a.b")) = Ret (Some x) /\
    nodeGetAttr fuel h x (str "value") = Ret (Some (Own (str "x"))).
Proof.
  destruct (conf_lookup [] (buffered sample_docs) (str "D") sample_defaults) as (n & H).
  - apply buffered_document. vm_compute. reflexivity.
  - apply sample_defaults_ok.
  - repeat constructor; discriminate.
  - exists n. intros fuel Hf. destruct (H fuel [str "b"] (Elem (str "b") [(str "value", str "x")] []) eq_refl Hf)
      as (h & r & x & E & Er & Ef & Eg).
    exists h, r, x. split; [exact E|]. split; [exact Er|]. split; [exact Ef|]. apply (Eg (str "value")).
Defined.

(** ** The program *)

Lemma load_xml_root {P} (c : P) parse fuel content h id :
  load_xml c parse fuel [] None (Some content) id = Ret (0, Some 0%nat, h) ->
  load_xml c parse fuel [Some (new_cell (str "root"))] (Some 0%nat) (Some content) id = Ret (0, Some 0%nat, h).
Proof.
  unfold load_xml. cbn [root_or_new newNode malloc length app].
  change (Node NODE_TYPE_NODE (str "root") None None None None None None None) with (new_cell (str "root")).
  destruct (fread_loop parse fuel fuel _ c content) as [[[xst h'] []]| |]; rsimpl; done.
Qed.

(** The substitution [main] tries on a fresh buffer. *)
Lemma test_substitution p realloc_at fuel :
  2 ^ 16 < p < 2 ^ 48 -> high_blocks realloc_at -> (4 < fuel)%nat ->
  exists s s', append realloc_at (strInit p) test_line = Ret s /\
    strReplace realloc_at fuel s (str "${TEST}") (str "test") = Ok (Some (4, s')) /\
    strGet s' = Ok (str "event test test value test test value").
Proof.
  intros Hp Hre Hf. assert (Hz : zlen test_line = 49) by reflexivity.
  destruct (strAppend_ok realloc_at (strInit p) [] test_line) as (s & r & E & W & Hm & Hb & Hs).
  { apply strInit_written. lia. }
  { rewrite Hz. lia. }
  { cbn. unfold STRBUF_BLOCKSIZE. lia. }
  { left. rewrite Hz. done. }
  cbn [app] in *. destruct W as (Hok & He & Hlt & _).
  assert (Hpre : replace_pre realloc_at s test_line (str "${TEST}") (str "test")).
  { pose proof (test_replace_pre realloc_at Hre) as [? _ _ [_ [Hn _]] _ ? ? ? ?].
    constructor; try done.
    - rewrite Hb. cbn. lia.
    - rewrite Hs. change (sb_size (strInit p)) with 4096. change (zlen []) with 0. rewrite Hz. done.
    - split; [done|]. split; [done|]. by exists r. }
  destruct Hpre as [? Hbuf Hsz Hh Hend Hun Hnn Hgr Hlen].
  destruct (strReplace_loop_ok realloc_at (str "${TEST}") (str "test") Hre Hun Hnn Hgr 4 s test_line 0 fuel)
    as (s' & E' & Hh' & _); try done.
  - unfold STRBUF_BLOCKSIZE. lia.
  - by left.
  - exists s, s'. split; [unfold append; by rewrite E|]. split; [exact E'|].
    rewrite (holds_strGet _ _ Hh'). f_equal. 
Qed.

(** [conf] loads its defaults and exits. Given a defaults document with [events] and
    [commands] under a [root] element, the program ends with status 0 having printed
    the line of its built-in substitution test and nothing else, whatever the
    document's events and commands are: the STARTUP event after the test is not
    reached. *)
Theorem main_output {P} (c : P) parse files opts p realloc_at content d ev cm :
  files (defaults_file opts default_file) = Some content -> is_document c parse content d ->
  xml_ok d -> no_dots_xml d -> el_name d = str "root" ->
  doc_at [str "events"] d = Some ev -> doc_at [str "commands"] d = Some cm ->
  2 ^ 16 < p < 2 ^ 48 -> high_blocks realloc_at ->
  exists n, forall fuel, (n <= fuel)%nat ->
  main p realloc_at c parse files fuel opts = Ret (0, str "event test test value test test value" ++ [LF]).
Proof.
  intros Hfile Hdoc Hx Hnd Hel Hev Hcm Hp Hre.
  destruct (defaults_lookup c parse content d Hdoc Hx Hnd) as (n & k & H). exists (n + 5)%nat. intros fuel Hf.
  destruct (H fuel) as (h & E & (Hc & _) & _ & _ & Hl); [lia|].
  destruct (Hl [str "events"] ev Hev) as (xe & Ee & _); [cbn; lia|].
  destruct (Hl [str "commands"] cm Hcm) as (xc & Ec & _); [cbn; lia|].
  destruct (test_substitution p realloc_at fuel Hp Hre) as (s & s' & Es & Er & Eg); [lia|].
  rewrite Hel in Ee, Ec. unfold main, init_defaults. cbn [newNode malloc length app].
  change (Node NODE_TYPE_NODE (str "root") None None None None None None None) with (new_cell (str "root")).
  unfold load_default. cbn [Z.ltb Z.compare Pos.compare Pos.compare_cont arg lookup list_lookup]. rsimpl.
  rewrite streq_refl. unfold load_tree. cbn [s_heap s_config c_tree]. rewrite Hfile, (load_xml_root _ _ _ _ _ _ E). rsimpl.
  cbn [negb Z.eqb s_heap s_config c_tree with_tree c_root c_events c_commands deref]. rsimpl.
  change (l_addr root_label) with 0%nat in Hc. rewrite (load_cell _ _ _ Hc). rsimpl.
  cbn [tree_cell n_firstChild head_addr].
  change (str "root.events") with (join [str "root"; str "events"]).
  change (str "root.commands") with (join [str "root"; str "commands"]). rewrite Ee. rsimpl. rewrite Ec. rsimpl.
  cbn [negb Z.eqb s_out]. change (str "event ${TEST} ${TEST} value ${TEST} ${TEST} value") with test_line.
  rewrite Es. rsimpl. rewrite Er. cbn [lift]. rsimpl. rewrite Eg. cbn [lift]. rsimpl. done.
Qed.

Definition sample_main : xml := Elem (str "root") [] [Elem (str "events") [] []; Elem (str "commands") [] []].
Definition sample_files (name : list Z) : option (list Z) :=
  if streq name default_file then Some (str "R") else None.

Lemma main_output_witness :
  exists n, forall fuel, (n <= fuel)%nat ->
  main 131072 (fun _ => 131072) [] (buffered [(str "R", sample_main)]) sample_files fuel [] =
  Ret (0, str "event test test value test test value" ++ [LF]).
Proof.
  apply (main_output [] (buffered [(str "R", sample_main)]) sample_files [] 131072 (fun _ => 131072) (str "R") sample_main
    (Elem (str "events") [] []) (Elem (str "commands") [] [])).
  - vm_compute. reflexivity.
  - apply buffered_document. vm_compute. reflexivity.
  - repeat constructor.
  - repeat constructor; discriminate.
  - reflexivity.
  - vm_compute. reflexivity.
  - vm_compute. reflexivity.
  - lia.
  - intros n. lia.
Defined.

(** The same by running the program. *)
Example main_runs :
  main 131072 (fun _ => 131072) [] (buffered [(str "R", sample_main)]) sample_files 40 [] =
  Ret (0, str "event test test value test test value" ++ [LF]).
Proof. vm_compute. reflexivity. Qed.
