(* ===== verification/ConfParsers.v ===== *)
(** * Typed values of sbin/conf (conf_parsers.c, conf_conf.c, conf_nodelist.c)

    A parser takes the text of a value and returns a pointer to its canonical form:
    a literal, the file's [obuf], or the static buffer of [inet_ntoa]. Which buffer
    matters, because two results can be the same one: [result] keeps the pointer, and
    the contents of both buffers are part of the state. The [printf] diagnostics are
    left out. *)

From S2P Require Import Prelude CLib CFormat ConfNode.
#[local] Open Scope Z_scope.

(** ** [inet_aton] and [inet_ntoa] *)

(** The numbers between the dots, at most four; blank space may follow the last. *)
Fixpoint inet_parts (left_ : nat) (cp : list Z) : option (list Z) :=
  match left_ with
  | O => None
  | S left_ =>
      let '(l, e, _) := strtoul cp 0 in
      if (l =? ULONG_MAX) || ((l =? 0) && streq e cp) then None
      else
        let val := u32 l in
        match e with
        | [] => Some [val]
        | c :: r =>
            if c =? 46 then match inet_parts left_ r with Some ps => Some (val :: ps) | None => None end
            else if isspace c then Some [val] else None
        end
  end.
(** The address, in host order: the last number fills the bytes that are left. *)
Definition inet_aton (cp : list Z) : option Z :=
  match inet_parts 4 cp with
  | Some [a] => Some a
  | Some [a; b] => if (a <=? 255) && (b <=? 16777215) then Some (a * 2 ^ 24 + b) else None
  | Some [a; b; c] =>
      if (a <=? 255) && (b <=? 255) && (c <=? 65535) then Some (a * 2 ^ 24 + b * 2 ^ 16 + c) else None
  | Some [a; b; c; d] =>
      if (a <=? 255) && (b <=? 255) && (c <=? 255) && (d <=? 255)
      then Some (a * 2 ^ 24 + b * 2 ^ 16 + c * 2 ^ 8 + d) else None
  | _ => None
  end.
Definition dotted (v : Z) : list Z :=
  print_d (v / 2 ^ 24 mod 256) ++ 46 :: print_d (v / 2 ^ 16 mod 256) ++ 46 ::
  print_d (v / 2 ^ 8 mod 256) ++ 46 :: print_d (v mod 256).

(** ** Results are pointers *)

Inductive result : Type :=
| Literal (s : list Z)
| NtoaBuf
| Obuf.
(** The static buffers: the one of [inet_ntoa] and [obuf]. *)
Record buffers : Type := Buffers { ntoa_buf : list Z; obuf : list Z }.

(** The string behind a result. *)
Definition text (b : buffers) (r : result) : list Z :=
  match r with Literal s => s | NtoaBuf => ntoa_buf b | Obuf => obuf b end.

Definition IPADDR_parser (b : buffers) (in_ : option (list Z)) : option result * buffers :=
  match in_ with
  | None => (None, b)
  | Some s =>
      match inet_aton s with
      | None => (None, b)
      | Some addr => (Some NtoaBuf, Buffers (dotted addr) (obuf b))
      end
  end.

(** [for (i = 0, len = 0; i < num; i++) len |= 1 << (31 - i)] *)
Fixpoint mask_bits (num : nat) : Z :=
  match num with O => 0 | S i => Z.lor (mask_bits i) (Z.shiftl 1 (31 - Z.of_nat i)) end.

(** The dots, when there is nothing but digits and dots. *)
Fixpoint count_dots (s : list Z) (num : Z) : option Z :=
  match s with
  | [] => Some num
  | c :: r => if c =? 46 then count_dots r (num + 1) else if isdigit c then count_dots r num else None
  end.

Definition IPMASK_parser (b : buffers) (in_ : option (list Z)) : option result * buffers :=
  match in_ with
  | None => (None, b)
  | Some s =>
      let '(l, e, _) := strtoul s 0 in
      let num := u32 l in
      match e with
      | [] =>
          if negb (Z.land num 2147483648 =? 0) then IPADDR_parser b (Some s)
          else if num <=? 32 then IPADDR_parser b (Some (str "0x" ++ print_08x (mask_bits (Z.to_nat num))))
          else (None, b)
      | _ =>
          match count_dots s 0 with
          | None => (None, b)
          | Some n => if (15 <? zlen s) || negb (n =? 3) then (None, b) else IPADDR_parser b (Some s)
          end
      end
  end.

(** [ip] and [mask] are both read when [sprintf] builds the result. *)
Definition CIDR_parser (b : buffers) (in_ : option (list Z)) : option result * buffers :=
  match in_ with
  | None => (None, b)
  | Some s =>
      match strchr s 47 with
      | Some (_ :: m) =>
          let ipstr := take_while (fun c => negb (c =? 47)) s in
          let '(ip, b) := IPADDR_parser b (Some ipstr) in
          let '(mask, b) := IPMASK_parser b (Some m) in
          match ip, mask with
          | Some ip, Some mask => (Some Obuf, Buffers (ntoa_buf b) (text b ip ++ str "/" ++ text b mask))
          | _, _ => (None, b)
          end
      | _ => (None, b)
      end
  end.

Definition BOOL_parser (b : buffers) (in_ : option (list Z)) : option result * buffers :=
  let yes := (Some (Literal (str "TRUE")), b) in
  let no := (Some (Literal (str "FALSE")), b) in
  match in_ with
  | None | Some [] => (None, b)
  | Some [c] =>
      if bool_decide (c ∈ str "TYty1") then yes else if bool_decide (c ∈ str "FNfn0") then no else (None, b)
  | Some s =>
      if strcaseeq s (str "true") || strcaseeq s (str "yes") then yes
      else if strcaseeq s (str "false") || strcaseeq s (str "no") then no
      else (None, b)
  end.

Definition conftypes : list (list Z * (buffers -> option (list Z) -> option result * buffers)) :=
  [(str "BOOL", BOOL_parser); (str "IPADDR", IPADDR_parser); (str "IPMASK", IPMASK_parser); (str "CIDR", CIDR_parser)].

Definition parseAsType (b : buffers) (type : list Z) (val : option (list Z)) : option result * buffers :=
  match List.find (fun t => streq type t.1) conftypes with
  | Some (_, parser) => parser b val
  | None => (None, b)
  end.

(** [cidr2net_host] parses and throws the result away; it returns nothing when its
    arguments are there. *)
Definition cidr2net_host (b : buffers) (cidr net host : option (list Z)) : option Z * buffers :=
  match cidr, net, host with
  | Some c, Some _, Some _ => (None, (CIDR_parser b (Some c)).2)
  | _, _, _ => (Some 1, b)
  end.

(** ** [addConfValue] and [createConfValue] *)

Definition add_new_attr (h : heap) (a : nat) (name value : list Z) : run heap :=
  r ← newAttr h (Some name) (Some value);
  let '(new, h) := r in
  r ← addAttr h (Some a) new;
  Ret r.2.

Definition addConfValue (h : heap) (b : buffers) (a : nat) (type : list Z) (val def : option (list Z))
  : run (heap * buffers) :=
  let '(newdef, b) := parseAsType b type def in
  match newdef with
  | None => Ret (h, b)
  | Some newdef =>
      h ← add_new_attr h a (str "default") (text b newdef);
      let '(newval, b) := parseAsType b type val in
      match newval with
      | None => Ret (h, b)
      | Some newval =>
          h ← add_new_attr h a (str "value") (text b newval);
          h ← add_new_attr h a (str "type") type;
          Ret (h, b)
      end
  end.

Definition createConfValue (fuel : nat) (h : heap) (b : buffers) (a : nat) (type name : list Z)
    (val def : option (list Z)) (descr : list Z) : run (ptr * heap * buffers) :=
  r ← appendNewChildDescr fuel h a (Some name) descr None;
  let '(confnode, h) := r in
  c ← deref confnode;
  r ← addConfValue h b c type val def;
  Ret (confnode, r.1, r.2).

(** ** Dotted addresses *)

(** What is needed of the decimal form of a byte, by trying all of them. *)
Record octet_ok (d : Z) : Prop := {
  oc_read : forall r, strtoul (print_d d ++ 46 :: r) 0 = (d, 46 :: r, false);
  oc_end : strtoul (print_d d) 0 = (d, [], false);
  oc_digits : forallb isdigit (print_d d) = true;
  oc_len : 1 <= zlen (print_d d) <= 3
}.
Lemma octets_ok : Forall octet_ok (seqZ 0 256).
Proof.
  let l := eval vm_compute in (seqZ 0 256) in change (seqZ 0 256) with l.
  repeat (apply Forall_cons_2; [constructor;
    [intros [|? ?]; vm_compute; reflexivity | vm_compute; reflexivity | vm_compute; reflexivity | vm_compute; split; discriminate]|]).
  apply Forall_nil_2.
Qed.
Lemma octet d : 0 <= d < 256 -> octet_ok d.
Proof. intros Hd. pose proof octets_ok as H. rewrite Forall_forall in H. apply H, elem_of_seqZ. lia. Qed.

Lemma octets v : 0 <= v < 2 ^ 32 ->
  v = (v / 2 ^ 24 mod 256) * 2 ^ 24 + (v / 2 ^ 16 mod 256) * 2 ^ 16 + (v / 2 ^ 8 mod 256) * 2 ^ 8 + v mod 256 /\
  0 <= v / 2 ^ 24 mod 256 < 256 /\ 0 <= v / 2 ^ 16 mod 256 < 256 /\ 0 <= v / 2 ^ 8 mod 256 < 256 /\ 0 <= v mod 256 < 256.
Proof. intros Hv. dlia. Qed.

Lemma inet_parts_dot n d r :
  0 <= d < 256 ->
  inet_parts (S n) (print_d d ++ 46 :: r) = match inet_parts n r with Some ps => Some (d :: ps) | None => None end.
Proof.
  intros Hd. destruct (octet d Hd) as [Hr _ _ Hl]. cbn [inet_parts]. rewrite Hr.
  rewrite (proj2 (Z.eqb_neq d ULONG_MAX)) by (unfold ULONG_MAX; lia). cbn [orb].
  rewrite (proj2 (streq_false (46 :: r) _)).
  - rewrite andb_false_r, u32_small by lia. done.
  - intros E. apply (f_equal zlen) in E. rewrite zlen_app in E. lia.
Qed.
Lemma inet_parts_end n d : 0 <= d < 256 -> inet_parts (S n) (print_d d) = Some [d].
Proof.
  intros Hd. destruct (octet d Hd) as [_ He _ Hl]. cbn [inet_parts]. rewrite He.
  rewrite (proj2 (Z.eqb_neq d ULONG_MAX)) by (unfold ULONG_MAX; lia). cbn [orb].
  rewrite (proj2 (streq_false [] _)); [by rewrite andb_false_r, u32_small by lia|].
  intros E. rewrite <- E in Hl. change (zlen []) with 0 in Hl. lia.
Qed.

(** [inet_aton] reads what [inet_ntoa] prints. *)
Lemma inet_aton_dotted v : 0 <= v < 2 ^ 32 -> inet_aton (dotted v) = Some v.
Proof.
  intros Hv. destruct (octets v Hv) as (E & H1 & H2 & H3 & H4). unfold inet_aton, dotted.
  rewrite !inet_parts_dot, inet_parts_end by done.
  rewrite !(proj2 (Z.leb_le _ 255)) by lia. cbn [andb]. f_equal. lia.
Qed.
Lemma inet_aton_range s v : inet_aton s = Some v -> 0 <= v < 2 ^ 32.
Proof.
  unfold inet_aton. destruct (inet_parts 4 s) as [ps|] eqn:E; [|done].
  assert (H : Forall (fun p => 0 <= p < 2 ^ 32) ps).
  { revert s ps E. generalize 4%nat as n. induction n as [|n IH]; intros s ps E; [done|]. cbn [inet_parts] in E.
    destruct (strtoul s 0) as [[l e] er]. destruct (_ || _); [done|].
    destruct e as [|c r]; [injection E as <-; repeat constructor; apply u32_range|].
    destruct (c =? 46).
    - destruct (inet_parts n r) as [ps'|] eqn:E'; [|done]. injection E as <-. constructor; [apply u32_range | eauto].
    - destruct (isspace c); [|done]. injection E as <-. repeat constructor; apply u32_range. }
  destruct ps as [|a [|b [|c [|d [|]]]]]; repeat (apply Forall_cons in H as [? H]); try done.
  - by intros [= <-].
  - destruct (_ && _) eqn:Eb; [|done]. intros [= <-]. apply andb_prop in Eb as [?%Z.leb_le ?%Z.leb_le]. lia.
  - destruct (_ && _) eqn:Eb; [|done]. intros [= <-].
    apply andb_prop in Eb as [[?%Z.leb_le ?%Z.leb_le]%andb_prop ?%Z.leb_le]. lia.
  - destruct (_ && _) eqn:Eb; [|done]. intros [= <-].
    apply andb_prop in Eb as [[[?%Z.leb_le ?%Z.leb_le]%andb_prop ?%Z.leb_le]%andb_prop ?%Z.leb_le]. lia.
Qed.

(** The shape of a dotted address. *)
Lemma count_dots_digits s r num : forallb isdigit s = true -> count_dots (s ++ r) num = count_dots r num.
Proof.
  revert num. induction s as [|c s IH]; intros num H; [done|]. cbn in H. apply andb_prop in H as [Hc H].
  cbn [app count_dots]. destruct (Z.eqb_spec c 46) as [->|]; [done|]. rewrite Hc. by apply IH.
Qed.
Lemma dotted_shape v : 0 <= v < 2 ^ 32 ->
  count_dots (dotted v) 0 = Some 3 /\ zlen (dotted v) <= 15 /\ Forall (fun c => c <> 47) (dotted v) /\
  (exists l e er c r, strtoul (dotted v) 0 = (l, e, er) /\ e = c :: r).
Proof.
  intros Hv. destruct (octets v Hv) as (_ & H1 & H2 & H3 & H4).
  destruct (octet _ H1) as [R1 _ D1 L1], (octet _ H2) as [_ _ D2 L2], (octet _ H3) as [_ _ D3 L3], (octet _ H4) as [_ _ D4 L4].
  assert (Hdig : forall s, forallb isdigit s = true -> Forall (fun c => c <> 47) s).
  { intros s H. apply Forall_forall. intros c Hc -> . rewrite forallb_forall in H. apply list_elem_of_In, H in Hc. done. }
  unfold dotted. split_and!.
  - rewrite (count_dots_digits _ _ _ D1). cbn [count_dots Z.eqb Pos.eqb].
    rewrite (count_dots_digits _ _ _ D2). cbn [count_dots Z.eqb Pos.eqb].
    rewrite (count_dots_digits _ _ _ D3). cbn [count_dots Z.eqb Pos.eqb].
    rewrite <- (app_nil_r (print_d (v mod 256))), (count_dots_digits _ _ _ D4). done.
  - rewrite !zlen_app, !zlen_cons, !zlen_app, !zlen_cons, !zlen_app, !zlen_cons. lia.
  - repeat (apply Forall_app; split; [by apply Hdig|]; apply Forall_cons_2; [done|]). by apply Hdig.
  - rewrite R1. eauto 10.
Qed.

(** Every result of the two address parsers is the buffer of [inet_ntoa]. *)
Lemma IPADDR_some b s r b' :
  IPADDR_parser b (Some s) = (Some r, b') ->
  exists v, 0 <= v < 2 ^ 32 /\ inet_aton s = Some v /\ r = NtoaBuf /\ b' = Buffers (dotted v) (obuf b).
Proof.
  unfold IPADDR_parser. destruct (inet_aton s) as [v|] eqn:E; [|done]. intros [= <- <-].
  exists v. split; [by eapply inet_aton_range | done].
Qed.
Lemma IPMASK_some b s r b' :
  IPMASK_parser b (Some s) = (Some r, b') -> exists v, 0 <= v < 2 ^ 32 /\ r = NtoaBuf /\ b' = Buffers (dotted v) (obuf b).
Proof.
  unfold IPMASK_parser. destruct (strtoul s 0) as [[l e] er]. intros H.
  assert (Hs : exists s', IPADDR_parser b (Some s') = (Some r, b')).
  { destruct e; [|destruct (count_dots s 0); [|done]]; repeat (destruct (_ : bool); [try done; eauto|]); eauto; done. }
  destruct Hs as [s' Hs]. apply IPADDR_some in Hs as (v & Hv & _ & -> & ->). eauto.
Qed.
Lemma IPADDR_dotted b v : 0 <= v < 2 ^ 32 -> IPADDR_parser b (Some (dotted v)) = (Some NtoaBuf, Buffers (dotted v) (obuf b)).
Proof. intros Hv. unfold IPADDR_parser. by rewrite inet_aton_dotted. Qed.
Lemma IPMASK_dotted b v : 0 <= v < 2 ^ 32 -> IPMASK_parser b (Some (dotted v)) = (Some NtoaBuf, Buffers (dotted v) (obuf b)).
Proof.
  intros Hv. destruct (dotted_shape v Hv) as (Hc & Hl & _ & l & e & er & c & r & E & ->). unfold IPMASK_parser.
  rewrite E, Hc, (proj2 (Z.ltb_ge 15 _)) by done. cbn [orb negb Z.eqb Pos.eqb]. by apply IPADDR_dotted.
Qed.

(** A prefix length becomes its mask. *)
Lemma IPMASK_bits b n : 0 <= n <= 32 ->
  IPMASK_parser b (Some (print_d n)) = (Some NtoaBuf, Buffers (dotted (2 ^ 32 - 2 ^ (32 - n))) (obuf b)).
Proof.
  intros Hn. assert (H : Forall (fun n => forall b, IPMASK_parser b (Some (print_d n)) =
    (Some NtoaBuf, Buffers (dotted (2 ^ 32 - 2 ^ (32 - n))) (obuf b))) (seqZ 0 33)).
  { let l := eval vm_compute in (seqZ 0 33) in change (seqZ 0 33) with l.
    repeat (apply Forall_cons_2; [intros b'; vm_compute; reflexivity|]). apply Forall_nil_2. }
  rewrite Forall_forall in H. apply H, elem_of_seqZ. lia.
Qed.

Lemma strchr_slash ip m : Forall (fun c => c <> 47) ip ->
  strchr (ip ++ 47 :: m) 47 = Some (47 :: m) /\ take_while (fun c => negb (c =? 47)) (ip ++ 47 :: m) = ip.
Proof.
  induction 1 as [|c ip Hc _ [IH1 IH2]]; [done|]. cbn [app strchr take_while].
  destruct (Z.eqb_spec c 47); [done|]. cbn [negb]. by rewrite IH2.
Qed.

(** Both halves of what [CIDR_parser] builds come from the same buffer. *)
Lemma CIDR_some b ip m a v b' :
  Forall (fun c => c <> 47) ip -> inet_aton ip = Some a ->
  IPMASK_parser (Buffers (dotted a) (obuf b)) (Some m) = (Some NtoaBuf, b') -> ntoa_buf b' = dotted v ->
  CIDR_parser b (Some (ip ++ 47 :: m)) = (Some Obuf, Buffers (dotted v) (dotted v ++ str "/" ++ dotted v)).
Proof.
  intros Hip Ha Hm Hv. destruct (strchr_slash ip m Hip) as [E1 E2]. unfold CIDR_parser. rewrite E1, E2.
  unfold IPADDR_parser. rewrite Ha. cbn [text]. rewrite Hm. cbn [text]. by rewrite Hv.
Qed.

(** the canonical form of a CIDR value does not hold the address. For any address
    and prefix length the parser accepts the value and builds the mask twice,
    because [inet_ntoa] gives the address and the mask the same buffer; the text
    fits the 32 bytes of [obuf]. *)
Theorem CIDR_mask_twice b v n :
  0 <= v < 2 ^ 32 -> 0 <= n <= 32 ->
  let mask := dotted (2 ^ 32 - 2 ^ (32 - n)) in
  exists b', parseAsType b (str "CIDR") (Some (dotted v ++ str "/" ++ print_d n)) = (Some Obuf, b') /\
    text b' Obuf = mask ++ str "/" ++ mask /\ zlen (text b' Obuf) + 1 <= 32.
Proof.
  intros Hv Hn mask. change (str "/" ++ print_d n) with (47 :: print_d n).
  destruct (dotted_shape v Hv) as (_ & _ & H47 & _).
  assert (Hm : 0 <= 2 ^ 32 - 2 ^ (32 - n) < 2 ^ 32).
  { assert (0 < 2 ^ (32 - n) <= 2 ^ 32); [|lia]. split; [apply Z.pow_pos_nonneg; lia | apply Z.pow_le_mono_r; lia]. }
  destruct (dotted_shape _ Hm) as (_ & Hl & _). subst mask.
  eexists. split.
  - unfold parseAsType. cbn [List.find conftypes]. change (CIDR_parser b _) with (CIDR_parser b (Some (dotted v ++ 47 :: print_d n))).
    eapply (CIDR_some b (dotted v) (print_d n) v); [done | by apply inet_aton_dotted | by apply IPMASK_bits | done].
  - cbn [text obuf]. split; [done|]. rewrite !zlen_app. change (zlen (str "/")) with 1. lia.
Qed.
Lemma CIDR_mask_twice_witness :
  exists b', parseAsType (Buffers [] []) (str "CIDR") (Some (str "192.168.0.1/24")) = (Some Obuf, b') /\
    text b' Obuf = str "255.255.255.0/255.255.255.0" /\ zlen (text b' Obuf) + 1 <= 32.
Proof.
  change (str "192.168.0.1/24") with (dotted 3232235521 ++ str "/" ++ print_d 24).
  change (str "255.255.255.0/255.255.255.0") with (dotted (2 ^ 32 - 2 ^ (32 - 24)) ++ str "/" ++ dotted (2 ^ 32 - 2 ^ (32 - 24))).
  apply (CIDR_mask_twice (Buffers [] []) 3232235521 24); lia.
Defined.

(** canonical values are canonical: whatever text a type accepts, its result
    parses again as the same type, to the same text. *)
Theorem parseAsType_idempotent b type s r b' :
  parseAsType b type (Some s) = (Some r, b') ->
  exists r' b'', parseAsType b' type (Some (text b' r)) = (Some r', b'') /\ text b'' r' = text b' r.
Proof.
  unfold parseAsType. cbn [List.find conftypes fst].
  destruct (streq type (str "BOOL")); [|destruct (streq type (str "IPADDR"));
    [|destruct (streq type (str "IPMASK")); [|destruct (streq type (str "CIDR")); [|done]]]]; intros H.
  - assert (Hr : r = Literal (str "TRUE") \/ r = Literal (str "FALSE")).
    { unfold BOOL_parser in H. destruct s as [|c [|c2 s]]; [done| |];
        repeat (destruct (_ : bool); [simplify_eq; auto|]); simplify_eq. }
    destruct Hr as [-> | ->]; eexists _, b'; split; reflexivity.
  - apply IPADDR_some in H as (v & Hv & _ & -> & ->). cbn [text ntoa_buf]. rewrite IPADDR_dotted by done. eauto.
  - apply IPMASK_some in H as (v & Hv & -> & ->). cbn [text ntoa_buf]. rewrite IPMASK_dotted by done. eauto.
  - unfold CIDR_parser in H. destruct (strchr s 47) as [[|x m]|]; [done| |done].
    destruct (IPADDR_parser b (Some _)) as [[ip|] b1] eqn:E1; [|by destruct (IPMASK_parser b1 (Some m))].
    destruct (IPMASK_parser b1 (Some m)) as [[mask|] b2] eqn:E2; [|done]. injection H as <- <-.
    apply IPADDR_some in E1 as (v & Hv & _ & -> & ->). apply IPMASK_some in E2 as (w & Hw & -> & ->).
    destruct (dotted_shape w Hw) as (_ & _ & H47 & _). cbn [text ntoa_buf obuf].
    change (str "/" ++ dotted w) with (47 :: dotted w).
    erewrite (CIDR_some _ (dotted w) (dotted w) w w);
      [eauto | done | by apply inet_aton_dotted | by apply IPMASK_dotted | done].
Qed.
Lemma parseAsType_idempotent_witness :
  exists r' b'', parseAsType (Buffers (str "10.0.0.1") []) (str "IPADDR") (Some (str "10.0.0.1")) = (Some r', b'') /\
    text b'' r' = str "10.0.0.1".
Proof. apply (parseAsType_idempotent (Buffers [] []) (str "IPADDR") (str "0xa000001") NtoaBuf). vm_compute. reflexivity. Defined.
