(* ===== verification/ConfNodeList.v ===== *)
(** * The list of nodes of sbin/conf (conf_nodelist.c)

    An array of 256 pointers and a count, in memory from [malloc]: a slot nothing was
    stored in is [None]. *)

From S2P Require Import Prelude ConfNode.
#[local] Open Scope Z_scope.

Record node_list : Type := NodeList { nl_nodes : list (option ptr); nl_count : Z }.

Definition slots : Z := 256.
Definition NodeListInit : node_list := NodeList (replicate 256 None) 0.
Definition NodeListClone (old : node_list) : node_list := old.
Definition in_array (i : Z) : bool := (0 <=? i) && (i <? slots).

(** [nl->nodes[nl->count++] = node] *)
Definition NodeListPush (nl : node_list) (n : ptr) : run node_list :=
  if in_array (nl_count nl) then
    Ret (NodeList (<[Z.to_nat (nl_count nl) := Some n]> (nl_nodes nl)) (nl_count nl + 1))
  else Undef.
Definition NodeListItem (nl : node_list) (i : Z) : run ptr :=
  if in_array i then match nl_nodes nl !! Z.to_nat i with Some (Some n) => Ret n | _ => Undef end else Undef.
(** [return (nl->nodes[nl->count--])] *)
Definition NodeListPop (nl : node_list) : run (ptr * node_list) :=
  n ← NodeListItem nl (nl_count nl); Ret (n, NodeList (nl_nodes nl) (nl_count nl - 1)).
Definition NodeListCount (nl : node_list) : Z := nl_count nl.

(** The list after pushing [l]. *)
Fixpoint pushes (nl : node_list) (l : list ptr) : run node_list :=
  match l with [] => Ret nl | n :: r => nl ← NodeListPush nl n; pushes nl r end.

(** The slots of a list that holds [l], and what comes after them. *)
Definition holds_nodes (nl : node_list) (l : list ptr) : Prop :=
  nl_nodes nl = (Some <$> l) ++ replicate (256 - length l) None /\ nl_count nl = Z.of_nat (length l) /\ (length l <= 256)%nat.

Lemma push_holds nl l n : holds_nodes nl l -> (length l < 256)%nat ->
  exists nl', NodeListPush nl n = Ret nl' /\ holds_nodes nl' (l ++ [n]).
Proof.
  intros (Hn & Hc & Hl) Hlt. unfold NodeListPush, in_array, slots. rewrite Hc.
  rewrite (proj2 (Z.leb_le _ _)), (proj2 (Z.ltb_lt _ _)) by lia. cbn [andb]. eexists. split; [done|].
  unfold holds_nodes. cbn [nl_nodes nl_count]. rewrite length_app, Nat2Z.id, Hn. cbn [length].
  split; [|lia]. rewrite insert_app_r_alt by (by rewrite length_fmap). rewrite length_fmap, Nat.sub_diag, fmap_app, <- app_assoc.
  f_equal. replace (256 - length l)%nat with (S (256 - (length l + 1))) by lia. done.
Qed.
Lemma pushes_holds l : forall nl l0, holds_nodes nl l0 -> (length l0 + length l <= 256)%nat ->
  exists nl', pushes nl l = Ret nl' /\ holds_nodes nl' (l0 ++ l).
Proof.
  induction l as [|n l IH]; intros nl l0 H Hl; cbn [pushes length] in *; [exists nl; by rewrite app_nil_r|].
  destruct (push_holds nl l0 n H) as (nl1 & -> & H1); [lia|]. rsimpl.
  destruct (IH nl1 _ H1) as (nl' & E & H'); [rewrite length_app; cbn; lia|]. exists nl'. by rewrite <- app_assoc in H'.
Qed.
Lemma init_holds : holds_nodes NodeListInit [].
Proof. split; [reflexivity|]. cbn. lia. Qed.

(** Up to 256 nodes are kept in order; one more is written past the array. *)
Lemma pushes_item l i n : (length l <= 256)%nat -> l !! i = Some n ->
  exists nl, pushes NodeListInit l = Ret nl /\ NodeListItem nl (Z.of_nat i) = Ret n /\ NodeListCount nl = Z.of_nat (length l).
Proof.
  intros Hl Hi. destruct (pushes_holds l NodeListInit [] init_holds Hl) as (nl & E & Hn & Hc & _).
  exists nl. split; [done|]. split; [|done]. pose proof (lookup_lt_Some _ _ _ Hi). unfold NodeListItem, in_array, slots.
  cbn [app] in *. rewrite (proj2 (Z.leb_le _ _)), (proj2 (Z.ltb_lt _ _)) by lia. cbn [andb]. rewrite Nat2Z.id, Hn.
  rewrite lookup_app_l by (by rewrite length_fmap). by rewrite list_lookup_fmap, Hi.
Qed.
Lemma push_overflow nl n : nl_count nl = 256 -> NodeListPush nl n = Undef.
Proof. intros E. unfold NodeListPush. by rewrite E. Qed.

(** [NodeListPop] never gives back the last node: it reads the slot after it. *)
Lemma pop_reads_past l : (length l <= 256)%nat ->
  exists nl, pushes NodeListInit l = Ret nl /\ NodeListPop nl = Undef.
Proof.
  intros Hl. destruct (pushes_holds l NodeListInit [] init_holds Hl) as (nl & E & Hn & Hc & _).
  exists nl. split; [done|]. unfold NodeListPop, NodeListItem, in_array, slots. rewrite Hc, Nat2Z.id, Hn.
  cbn [app]. destruct (_ && _) eqn:Eb; [|done]. apply andb_prop in Eb as [_ Hlt%Z.ltb_lt].
  rewrite lookup_app_r by (by rewrite length_fmap). rewrite length_fmap, Nat.sub_diag.
  by replace (256 - length l)%nat with (S (255 - length l)) by lia.
Qed.
