(* ===== verification/JsonConf.v ===== *)
(** * The editor of JSON configurations (target/bin/conf/conf.c)

    json-c is not in the repository: [JsonC] is what the program calls of it, on an
    abstract heap.  What the program sees of an object is its [node]: the type, and the
    pointers an array or a hash table holds.  Standard output is the list of bytes
    printed; messages on standard error and the debug output are not modelled. *)

From S2P Require Import Prelude CLib CFormat.

Definition MAX_TREE_PATH : Z := 15.

(** What a [json_object] holds.  [None] is the null pointer, json-c's [null]. *)
Inductive node (obj : Type) : Type :=
| NString (s : list Z)
| NOther (text : list Z)
| NArray (items : list (option obj))
| NObject (entries : list (list Z * option obj)).
Arguments NString {obj}. Arguments NOther {obj}. Arguments NArray {obj}. Arguments NObject {obj}.

(** The part of json-c the program uses.  [set_array] are the stores the program itself
    makes into the [struct array_list] of an array. *)
Class JsonC : Type := {
  heap : Type;
  obj : Type;
  obj_eq_dec :: EqDecision obj;
  node_of : heap -> obj -> node obj;
  json_object_to_json_string : heap -> option obj -> list Z;
  json_object_new_string : heap -> list Z -> heap * obj;
  json_object_new_array : heap -> heap * obj;
  json_object_new_object : heap -> heap * obj;
  json_tokener_parse : heap -> list Z -> option (heap * option obj);
  json_object_array_put_idx : heap -> obj -> Z -> option obj -> heap;
  json_object_object_add : heap -> obj -> list Z -> option obj -> heap;
  json_object_object_del : heap -> obj -> list Z -> heap;
  json_object_put : heap -> option obj -> heap;
  set_array : heap -> obj -> list (option obj) -> heap;
}.

(** The command line's options. *)
Record conf_flags := mkFlags {
  ALLOW_MULTI : bool;
  DELETE_MODE : bool;
  SEARCH_MODE : bool;
  IGNORE_CASE : bool;
  STDOUT_RESULT : bool;
}.

(** [check == key + strlen (key)] after [strtoul (key, &check, 0)], and the value. *)
Definition index_of (key : list Z) : option Z :=
  let '(v, check, _) := strtoul key 0 in if bool_decide (check = []) then Some v else None.

(** [strcasestr] *)
Definition strcasestr (s p : list Z) : option (list Z) := strstr (map tolower s) (map tolower p).

Fixpoint assoc {A} (kvs : list (list Z * A)) (key : list Z) : option A :=
  match kvs with
  | [] => None
  | (k, v) :: r => if streq k key then Some v else assoc r key
  end.

(** [splitpath]: the parts of the path; the [max] places of [part] are not checked. *)
Fixpoint split_dot (s : list Z) (acc : list Z) : list (list Z) :=
  match s with
  | [] => [rev acc]
  | c :: r => if c =? 46 then rev acc :: split_dot r [] else split_dot r (c :: acc)
  end.
Definition splitpath (path : list Z) (max : Z) : run (list (list Z)) :=
  let parts := split_dot path [] in
  if zlen parts <=? max then Ret parts else Undef.

Section JsonConf.
Context {JC : JsonC}.

Definition array_of (h : heap) (o : option obj) : option (list (option obj)) :=
  match o with
  | Some a => match node_of h a with NArray l => Some l | _ => None end
  | None => None
  end.
Definition object_of (h : heap) (o : option obj) : option (list (list Z * option obj)) :=
  match o with
  | Some a => match node_of h a with NObject l => Some l | _ => None end
  | None => None
  end.
(** [json_object_array_get_idx]: null behind the end; a negative index is outside the array. *)
Definition json_object_array_get_idx (l : list (option obj)) (i : Z) : run (option obj) :=
  if i <? 0 then Undef else Ret (default None (l !! Z.to_nat i)).
Definition json_object_object_get (l : list (list Z * option obj)) (key : list Z) : option obj :=
  default None (assoc l key).

(** [get]: the object the parts lead to, the objects on the way ([p->obj]), what it
    prints. *)
Fixpoint get (h : heap) (o : option obj) (parts : list (list Z)) : run (option obj * list obj * list Z) :=
  match parts with
  | [] => Undef
  | part :: rest =>
      x ← match array_of h o with
          | Some l =>
              match index_of part with
              | Some v => c ← json_object_array_get_idx l (s32 (u32 v)); Ret (c, [])
              | None => Ret (None, str "Array require int for index" ++ [LF])
              end
          | None =>
              match object_of h o with
              | Some l => Ret (json_object_object_get l part, [])
              | None => Ret (None, [])
              end
          end;
      let '(child, out) := x in
      match child with
      | None => Ret (None, [], out)
      | Some c =>
          match rest with
          | [] => Ret (Some c, [c], out)
          | _ => y ← get h (Some c) rest; let '(r, objs, out') := y in Ret (r, c :: objs, out ++ out')
          end
      end
  end.

(** [find]: [path] are the parts of the levels above; [p->part] and [p->obj] have
    [MAX_TREE_PATH] places. *)
Definition print_path (path : list (list Z)) : list Z := concat (map (fun x => x ++ [46]) path).
Fixpoint each {A} (f : Z -> A -> run (list Z)) (l : Z) (items : list A) : run (list Z) :=
  match items with
  | [] => Ret []
  | x :: r => a ← f l x; b ← each f (l + 1) r; Ret (a ++ b)
  end.
Definition key_matches (ignore_case : bool) (k key : list Z) : bool :=
  bool_decide (is_Some (if ignore_case then strcasestr k key else strstr k key)).
Fixpoint find (fuel : nat) (ignore_case : bool) (h : heap) (o : option obj) (key : list Z) (path : list (list Z)) : run (list Z) :=
  match fuel with
  | O => NoFuel
  | S fuel' =>
      let descend (part : list Z) (child : obj) :=
        if MAX_TREE_PATH <=? zlen path then Undef
        else find fuel' ignore_case h (Some child) key (path ++ [part]) in
      match array_of h o with
      | Some items =>
          let i := match index_of key with Some v => s32 v | None => -1 end in
          each (fun l child =>
            match child with
            | None => Ret []
            | Some c =>
                rest ← descend (print_d l) c;
                Ret ((if l =? i then print_path path ++ print_d l ++ str ": " ++ json_object_to_json_string h child ++ [LF] else []) ++ rest)
            end) 0 items
      | None =>
          match object_of h o with
          | Some entries =>
              each (fun _ '(k, child) =>
                match child with
                | None => Ret []
                | Some c =>
                    rest ← descend k c;
                    Ret ((if key_matches ignore_case k key
                          then print_path path ++ k ++ str ": " ++ json_object_to_json_string h child ++ [LF] else []) ++ rest)
                end) 0 entries
          | None => Ret []
          end
      end
  end.

(** [p->part[level]], null behind the last part; the array has [MAX_TREE_PATH] places. *)
Definition part_at (parts : list (list Z)) (level : nat) : run (option (list Z)) :=
  if Z.of_nat level <? MAX_TREE_PATH then Ret (parts !! level) else Undef.
(** [p->obj[level]] *)
Definition obj_at (objs : list obj) (level : nat) : option obj := objs !! level.

(** The state of a run: the heap, whether there is something to save, standard output. *)
Record state := mkState { s_heap : heap; DIRTY_DATA : bool; s_out : list Z }.
Definition print (t : list Z) (s : state) : state := mkState (s_heap s) (DIRTY_DATA s) (s_out s ++ t).
Definition with_heap (h : heap) (s : state) : state := mkState h (DIRTY_DATA s) (s_out s).
Definition dirty (h : heap) (s : state) : state := mkState h true (s_out s).

Definition type_name (h : heap) (o : obj) : list Z :=
  match node_of h o with NArray _ => str "ARRAY" | NObject _ => str "HASH" | _ => str "OTHER" end.

(** [create]: [p->obj] is written for a last item only, and read at the level itself, so
    the objects found by [get] are enough. *)
Fixpoint create (fuel : nat) (parts : list (list Z)) (objs : list obj) (value : list Z) (level : nat) (s : state)
    : run (option obj * state) :=
  match fuel with
  | O => NoFuel
  | S fuel' =>
      p ← part_at parts level;
      match p with
      | None => Ret (None, s)
      | Some part =>
          let i := match index_of part with Some v => s32 v | None => -1 end in
          x ← create fuel' parts objs value (S level) s; let '(child, s) := x in
          let here := obj_at objs level in
          let s := print (str "level=" ++ print_d (Z.of_nat level) ++ str " part = " ++ part ++ str " obj=" ++
                     match here with Some _ => str "Exist" | None => str "Non" end ++ str " type=" ++
                     match here with Some o => type_name (s_heap s) o | None => str "(null)" end ++
                     str " i=" ++ print_d i ++ [LF]) s in
          match child with
          | None =>
              match json_tokener_parse (s_heap s) value with
              | Some (h, o) => Ret (o, with_heap h s)
              | None => let '(h, o) := json_object_new_string (s_heap s) value in Ret (Some o, with_heap h s)
              end
          | Some c =>
              let s := print (str "child type=" ++ type_name (s_heap s) c ++ [LF]) s in
              match here with
              | Some o =>
                  match node_of (s_heap s) o with
                  | NArray _ =>
                      if 0 <=? i then Ret (None, with_heap (json_object_array_put_idx (s_heap s) o i child) s)
                      else Ret (None, print (str "Can`t use object " ++ [QUOTE] ++ concat (map (cons 46) (take level parts)) ++
                                             [QUOTE] ++ str " to attach new items" ++ [LF]) s)
                  | NObject _ => Ret (None, with_heap (json_object_object_add (s_heap s) o part child) s)
                  | _ => Ret (None, print (str "Can`t use object " ++ [QUOTE] ++ concat (map (cons 46) (take level parts)) ++
                                             [QUOTE] ++ str " to attach new items" ++ [LF]) s)
                  end
              | None =>
                  if 0 <=? i then
                    let '(h, o) := json_object_new_array (s_heap s) in
                    Ret (Some o, with_heap (json_object_array_put_idx h o i child) s)
                  else
                    let '(h, o) := json_object_new_object (s_heap s) in
                    Ret (Some o, with_heap (json_object_object_add h o part child) s)
              end
          end
      end
  end.

Definition usage_lines : list (list Z) :=
  [str "Usage:";
   9 :: str "conf key.subkey" ++ zrep 4 9 ++ str "get/dump from that point";
   9 :: str "conf key.subkey=value" ++ zrep 3 9 ++ str "set";
   9 :: str "conf key.subkey=value key1.sub" ++ zrep 2 9 ++ str "mixed set & get";
   9 :: str "conf " ++ [QUOTE] ++ str "key.subkey=value with spaces" ++ [QUOTE; 9] ++ str "set ";
   9 :: str "conf [-i] -s ubkey key" ++ zrep 4 9 ++ str "search keys " ++ [QUOTE] ++ str "ubkey" ++ [QUOTE] ++ str " and " ++ [QUOTE] ++ str "key" ++ [QUOTE];
   9 :: str "conf -D key.subkey" ++ zrep 3 9 ++ str "delete";
   9 :: 9 :: str "-S copy result to stdout"].
Definition usage (s : state) : state := print (concat (map (fun l => l ++ [LF]) usage_lines)) s.

Definition key_and_value (key : list Z) : list Z * option (list Z) :=
  match strchr key 61 with
  | Some r => (take (length key - length r) key, Some (tail r))
  | None => (key, None)
  end.

(** The branch of [process] that sets an existing value. *)
Definition set_value (parentobj : option obj) (last : list Z) (child : obj) (value : list Z) (s : state) : state :=
  let h := s_heap s in
  match node_of h child with
  | NArray (_ :: _) | NObject (_ :: _) => s
  | _ =>
      match parentobj with
      | None => s
      | Some po =>
          match node_of h po with
          | NArray l =>
              match index_of last with
              | Some v => if s32 v <? zlen l
                          then let '(h, o) := json_object_new_string h value in
                               dirty (json_object_array_put_idx h po (s32 v) (Some o)) s
                          else s
              | None => s
              end
          | _ =>
              match object_of h (Some po) with
              | Some l =>
                  match json_object_object_get l last with
                  | Some _ => let h := json_object_object_del h po last in
                              let '(h, o) := json_object_new_string h value in
                              dirty (json_object_object_add h po last (Some o)) s
                  | None => s
                  end
              | None => s
              end
          end
      end
  end.

(** The branch that deletes.  [printf] prints a null string as FreeBSD's does. *)
Definition not_found (name : option (list Z)) (key : list Z) (s : state) : state :=
  print (default (str "(null)") name ++ str " in " ++ key ++ str " not found" ++ [LF]) s.
Definition delete_value (parentobj : option obj) (parent : option (list Z)) (last key : list Z) (s : state) : run state :=
  let h := s_heap s in
  match parentobj with
  | None => Ret (not_found parent key s)
  | Some po =>
      match node_of h po with
      | NArray l =>
          match index_of last with
          | None => Ret s
          | Some v =>
              let idx := s32 v in
              if zlen l <=? idx then Ret s
              else if idx <? 0 then Undef
              else let h := json_object_put h (default None (l !! Z.to_nat idx)) in
                   Ret (dirty (set_array h po (base.delete (Z.to_nat idx) l)) s)
          end
      | _ =>
          match object_of h (Some po) ≫= (fun l => json_object_object_get l last) with
          | None => Ret (not_found (Some last) key s)
          | Some _ => Ret (dirty (json_object_object_del h po last) s)
          end
      end
  end.

Definition process (fuel : nat) (flags : conf_flags) (root : option obj) (key : list Z) (s : state) : run state :=
  if SEARCH_MODE flags then
    out ← find fuel (IGNORE_CASE flags) (s_heap s) root key []; Ret (print out s)
  else
    let '(key, value) := key_and_value key in
    parts ← splitpath key MAX_TREE_PATH;
    x ← get (s_heap s) root parts; let '(child, objs, out) := x in
    let s := print out s in
    let count := length parts in
    let parentobj := if (1 <? count)%nat then objs !! (count - 2)%nat else None in
    let parent := if (1 <? count)%nat then parts !! (count - 2)%nat else None in
    let last := default [] (parts !! (count - 1)%nat) in
    match value, DELETE_MODE flags with
    | Some value, false =>
        match child with
        | Some c => Ret (set_value parentobj last c value s)
        | None =>
            if (count <? 2)%nat then Undef
            else
              let s := print (str "NOTYET Create " ++ [QUOTE] ++ key ++ [QUOTE] ++ str " with value " ++
                              json_object_to_json_string (s_heap s) parentobj ++ [LF]) s in
              y ← create fuel parts objs value 1 s; Ret (snd y)
        end
    | None, false =>
        match child with
        | Some c => Ret (print (key ++ str " = " ++ json_object_to_json_string (s_heap s) child ++ [LF]) s)
        | None => Ret (usage s)
        end
    | None, true => delete_value parentobj parent last key s
    | Some _, true => Ret (usage s)
    end.

Fixpoint processes (fuel : nat) (flags : conf_flags) (root : option obj) (keys : list (list Z)) (s : state) : run state :=
  match keys with
  | [] => Ret s
  | key :: r => s ← process fuel flags root key s; processes fuel flags root r s
  end.

Inductive conf_opt := Opt_D | Opt_f (file : list Z) | Opt_i | Opt_S | Opt_s | Opt_other.
Definition conf_do_opt (x : conf_flags * list Z * list Z) (o : conf_opt) : conf_flags * list Z * list Z :=
  let '(mkFlags m d s i c, file, out) := x in
  match o with
  | Opt_f f => (mkFlags m d s i c, f, out)
  | Opt_i => (mkFlags m d s true c, file, out)
  | Opt_s => (mkFlags m d true i c, file, out)
  | Opt_D => (mkFlags false true s i c, file, out)
  | Opt_S => (mkFlags m d s i true, file, out)
  | Opt_other => (mkFlags m d s i c, file, out ++ concat (map (fun l => l ++ [LF]) usage_lines))
  end.
Definition conf_flags0 : conf_flags := mkFlags true false false false false.

(** What a run leaves: exit status, standard output, the file written and its text. *)
Record conf_result := mkConfResult {
  c_status : Z;
  c_stdout : list Z;
  c_saved : option (list Z * list Z);
}.

Section Main.
(** The files, parsed by [json_object_from_file]. *)
Context (json_object_from_file : list Z -> option (heap * option obj)).

Definition conf_main (fuel : nat) (options : list conf_opt) (keys : list (list Z)) : run conf_result :=
  let '(flags, file, out) := foldl conf_do_opt (conf_flags0, str "hash.json", []) options in
  match keys with
  | [] => Ret (mkConfResult 1 (out ++ concat (map (fun l => l ++ [LF]) usage_lines)) None)
  | key :: _ =>
      match json_object_from_file file with
      | None => Ret (mkConfResult 1 out None)
      | Some (h, root) =>
          let s := mkState h false out in
          s ← (if ALLOW_MULTI flags then processes fuel flags root keys s else process fuel flags root key s);
          let text := json_object_to_json_string (s_heap s) root in
          if STDOUT_RESULT flags then Ret (mkConfResult 0 (s_out s ++ text ++ [LF]) None)
          else if DIRTY_DATA s then Ret (mkConfResult 0 (s_out s) (Some (file, text)))
          else Ret (mkConfResult 0 (s_out s) None)
      end
  end.
End Main.
End JsonConf.
