(* ===== verification/JsonEdit.v ===== *)
(** * What the JSON editor does to a document

    Documents are trees.  A heap holds one when its objects have the nodes of the
    [tree], which is labelled with the objects; [JsonCLaws] states what json-c promises
    about a heap that is changed.  The theorems are about the documents alone. *)

From S2P Require Import Prelude CLib CFormat JsonConf.

(** ** Documents *)

Inductive json : Type :=
| JNull
| JString (s : list Z)
| JOther (text : list Z)
| JArray (items : list json)
| JObject (entries : list (list Z * json)).

Fixpoint remove_key {A} (key : list Z) (l : list (list Z * A)) : list (list Z * A) :=
  match l with
  | [] => []
  | (k, v) :: r => if streq k key then r else (k, v) :: remove_key key r
  end.
Fixpoint replace_key {A} (key : list Z) (v : A) (l : list (list Z * A)) : list (list Z * A) :=
  match l with
  | [] => []
  | (k, u) :: r => if streq k key then (k, v) :: r else (k, u) :: replace_key key v r
  end.

(** The index a part of a path means in an array, as [get] takes it. *)
Definition array_index (part : list Z) : option Z := (fun v => s32 (u32 v)) <$> index_of part.
Definition non_null (j : json) : option json := match j with JNull => None | _ => Some j end.
(** The child of a document that a part of a path names. *)
Definition child (j : json) (part : list Z) : option json :=
  match j with
  | JArray l => i ← array_index part; if i <? 0 then None else l !! Z.to_nat i ≫= non_null
  | JObject l => assoc l part ≫= non_null
  | _ => None
  end.
Fixpoint lookup (j : json) (parts : list (list Z)) : option json :=
  match parts with
  | [] => Some j
  | part :: rest => c ← child j part; lookup c rest
  end.
Definition replace_child (j : json) (part : list Z) (c : json) : json :=
  match j with
  | JArray l => match array_index part with Some i => JArray (<[Z.to_nat i := c]> l) | None => j end
  | JObject l => JObject (replace_key part c l)
  | _ => j
  end.
(** A string at a path: in an object it goes behind the other entries. *)
Fixpoint set_path (j : json) (parts : list (list Z)) (value : list Z) : json :=
  match parts with
  | [] => j
  | [last] => match j with
              | JObject l => JObject (remove_key last l ++ [(last, JString value)])
              | _ => replace_child j last (JString value)
              end
  | part :: rest => match child j part with
                    | Some c => replace_child j part (set_path c rest value)
                    | None => j
                    end
  end.
Fixpoint delete_path (j : json) (parts : list (list Z)) : json :=
  match parts with
  | [] => j
  | [last] => match j with
              | JArray l => match array_index last with Some i => JArray (base.delete (Z.to_nat i) l) | None => j end
              | JObject l => JObject (remove_key last l)
              | _ => j
              end
  | part :: rest => match child j part with
                    | Some c => replace_child j part (delete_path c rest)
                    | None => j
                    end
  end.

Section Trees.
Context {JC : JsonC}.

Inductive tree : Type :=
| TNull
| TString (o : obj) (s : list Z)
| TOther (o : obj) (text : list Z)
| TArray (o : obj) (items : list tree)
| TObject (o : obj) (entries : list (list Z * tree)).

Definition ptr (t : tree) : option obj :=
  match t with TNull => None | TString o _ | TOther o _ | TArray o _ | TObject o _ => Some o end.
(** The objects of a tree with what they hold. *)
Fixpoint cells (t : tree) : list (obj * node obj) :=
  match t with
  | TNull => []
  | TString o s => [(o, NString s)]
  | TOther o x => [(o, NOther x)]
  | TArray o l => (o, NArray (map ptr l)) :: concat (map cells l)
  | TObject o l => (o, NObject (map (fun e => (e.1, ptr e.2)) l)) :: concat (map (fun e => cells e.2) l)
  end.
Definition objects (t : tree) : list obj := (cells t).*1.
Fixpoint erase (t : tree) : json :=
  match t with
  | TNull => JNull
  | TString _ s => JString s
  | TOther _ x => JOther x
  | TArray _ l => JArray (map erase l)
  | TObject _ l => JObject (map (fun e => (e.1, erase e.2)) l)
  end.
End Trees.
Arguments tree {_}.

(** The documented behaviour of json-c: what each call leaves alone, and when the objects
    of a released value [c] may be gone. *)
Class JsonCLaws {JC : JsonC} : Type := {
  live : heap -> obj -> Prop;
  jprint : json -> list Z;
  holds (h : heap) (t : tree) : Prop :=
    NoDup (objects t) /\ Forall (fun x => live h x.1 /\ node_of h x.1 = x.2) (cells t);
  keeps (h h' : heap) (gone : list obj) : Prop :=
    forall o, live h o -> o ∉ gone -> live h' o /\ node_of h' o = node_of h o;
  keys_law h o l : live h o -> node_of h o = NObject l -> NoDup l.*1;
  print_law h t : holds h t -> json_object_to_json_string h (ptr t) = jprint (erase t);
  new_string_law h s : let '(h', o) := json_object_new_string h s in
    ~ live h o /\ live h' o /\ node_of h' o = NString s /\ keeps h h' [];
  put_idx_law h o l i c v : holds h c -> live h o -> o ∉ objects c -> node_of h o = NArray l -> 0 <= i ->
    l !! Z.to_nat i = Some (ptr c) ->
    let h' := json_object_array_put_idx h o i v in
    live h' o /\ node_of h' o = NArray (<[Z.to_nat i := v]> l) /\ keeps h h' (o :: objects c);
  object_add_law h o l key v : live h o -> node_of h o = NObject l -> assoc l key = None ->
    let h' := json_object_object_add h o key v in
    live h' o /\ node_of h' o = NObject (l ++ [(key, v)]) /\ keeps h h' [o];
  object_del_law h o l key c : holds h c -> live h o -> o ∉ objects c -> node_of h o = NObject l ->
    assoc l key = Some (ptr c) ->
    let h' := json_object_object_del h o key in
    live h' o /\ node_of h' o = NObject (remove_key key l) /\ keeps h h' (o :: objects c);
  put_law h c : holds h c -> keeps h (json_object_put h (ptr c)) (objects c);
  set_array_law h o l l' : live h o -> node_of h o = NArray l ->
    let h' := set_array h o l' in live h' o /\ node_of h' o = NArray l' /\ keeps h h' [o];
}.

(** ** Trees with a hole *)

Section Holes.
Context {JC : JsonC} {JL : JsonCLaws}.

Inductive frame : Type :=
| FArr (o : obj) (l1 l2 : list tree)
| FObj (o : obj) (l1 : list (list Z * tree)) (key : list Z) (l2 : list (list Z * tree)).
Definition frame_obj (f : frame) : obj := match f with FArr o _ _ | FObj o _ _ _ => o end.
Definition plug1 (f : frame) (t : tree) : tree :=
  match f with
  | FArr o l1 l2 => TArray o (l1 ++ t :: l2)
  | FObj o l1 key l2 => TObject o (l1 ++ (key, t) :: l2)
  end.
Definition plug (K : list frame) (t : tree) : tree := foldr plug1 t K.

(** What is around the hole depends on the tree in it by its pointer only. *)
Definition frame_cells (f : frame) (p : option obj) : list (obj * node obj) :=
  match f with
  | FArr o l1 l2 => (o, NArray (map ptr l1 ++ p :: map ptr l2)) :: concat (map cells l1) ++ concat (map cells l2)
  | FObj o l1 key l2 =>
      (o, NObject (map (fun e => (e.1, ptr e.2)) l1 ++ (key, p) :: map (fun e => (e.1, ptr e.2)) l2)) ::
      concat (map (fun e => cells e.2) l1) ++ concat (map (fun e => cells e.2) l2)
  end.
Lemma cells_plug1 f t : cells (plug1 f t) ≡ₚ frame_cells f (ptr t) ++ cells t.
Proof.
  destruct f as [o l1 l2|o l1 key l2]; cbn [plug1 cells frame_cells app]; rewrite !map_app, concat_app; cbn [map concat fst snd];
    apply Permutation_skip; rewrite <- app_assoc; apply Permutation_app_head; by rewrite Permutation_app_comm.
Qed.
Fixpoint around (K : list frame) (p : option obj) : list (obj * node obj) :=
  match K with
  | [] => []
  | f :: r => frame_cells f (match r with [] => p | g :: _ => Some (frame_obj g) end) ++ around r p
  end.
Lemma ptr_plug1 f t : ptr (plug1 f t) = Some (frame_obj f).
Proof. by destruct f. Qed.
Lemma ptr_plug K t : ptr (plug K t) = match K with [] => ptr t | f :: _ => Some (frame_obj f) end.
Proof. destruct K; [done|]. cbn. apply ptr_plug1. Qed.
Lemma cells_plug K t : cells (plug K t) ≡ₚ around K (ptr t) ++ cells t.
Proof.
  induction K as [|f K IH]; [done|]. change (plug (f :: K) t) with (plug1 f (plug K t)).
  rewrite cells_plug1, IH, ptr_plug. cbn [around]. by rewrite <- app_assoc.
Qed.

Lemma holds_split h K t : holds h (plug K t) <->
  NoDup ((around K (ptr t)).*1 ++ objects t) /\
  Forall (fun x => live h x.1 /\ node_of h x.1 = x.2) (around K (ptr t) ++ cells t).
Proof.
  unfold holds, objects. rewrite (cells_plug K t). by rewrite fmap_app.
Qed.
Lemma holds_hole h K t : holds h (plug K t) -> holds h t.
Proof.
  rewrite holds_split. intros [Hn Hf]. apply NoDup_app in Hn as (_ & _ & Hn). apply Forall_app in Hf as [_ Hf]. by split.
Qed.
Lemma live_object h t o : holds h t -> o ∈ objects t -> live h o.
Proof.
  intros [_ Hf] Ho. apply list_elem_of_fmap in Ho as ([o' n] & -> & Hx). rewrite Forall_forall in Hf. by destruct (Hf _ Hx).
Qed.

(** The node of a tree's own object. *)
Definition top (t : tree) : node obj :=
  match t with
  | TNull => NOther []
  | TString _ s => NString s
  | TOther _ x => NOther x
  | TArray _ l => NArray (map ptr l)
  | TObject _ l => NObject (map (fun e => (e.1, ptr e.2)) l)
  end.
Lemma holds_top h t o : holds h t -> ptr t = Some o -> node_of h o = top t.
Proof. intros [_ Hf] Ho. destruct t; cbn [ptr] in Ho; try done; injection Ho as ->; cbn in Hf; by apply Forall_cons in Hf as [[_ ?] _]. Qed.

(** The tree in the hole is replaced: the objects around it are as they were. *)
Lemma replace_hole h h' K t t' gone : holds h (plug K t) -> ptr t' = ptr t -> holds h' t' -> keeps h h' gone ->
  (forall o, o ∈ gone -> o ∈ objects t) -> (forall o, o ∈ objects t' -> o ∈ objects t \/ ~ live h o) ->
  holds h' (plug K t').
Proof.
  rewrite !holds_split. intros [Hn Hf] Hp [Hn' Hf'] Hk Hgone Hnew. rewrite Hp.
  apply NoDup_app in Hn as (Ha & Hd & _). apply Forall_app in Hf as [Hfa _].
  assert (Hlive : forall o, o ∈ (around K (ptr t)).*1 -> live h o).
  { intros o Ho. apply list_elem_of_fmap in Ho as ([o' n] & -> & Hx). rewrite Forall_forall in Hfa. by destruct (Hfa _ Hx). }
  split.
  - apply NoDup_app. split; [done|]. split; [|done]. intros o Ho Ho'.
    destruct (Hnew o Ho') as [Hx|Hx]; [by apply (Hd o)|by apply Hx, Hlive].
  - apply Forall_app. split; [|done]. rewrite Forall_forall in Hfa |- *. intros [o n] Hx. destruct (Hfa _ Hx) as [Hl Hnode]. cbn in *.
    assert (Ho : o ∈ (around K (ptr t)).*1) by (apply list_elem_of_fmap; by exists (o, n)).
    destruct (Hk o Hl) as [Hl' Hnode']; [|by rewrite Hnode'].
    intros Hg. apply (Hd o Ho). by apply Hgone.
Qed.

(** ** Paths *)

Lemma s32_u32 v : s32 (u32 v) = s32 v.
Proof. unfold s32, u32. by rewrite Zplus_mod_idemp_l. Qed.
Lemma array_index_eq part : array_index part = s32 <$> index_of part.
Proof. unfold array_index. destruct (index_of part); [|done]. cbn. by rewrite s32_u32. Qed.

(** The hole of a frame is the child a part of a path names. *)
Definition fits (f : frame) (part : list Z) : Prop :=
  match f with
  | FArr _ l1 _ => array_index part = Some (zlen l1)
  | FObj _ l1 key _ => key = part /\ assoc l1 part = None
  end.
Definition jframe (f : frame) (j : json) : json :=
  match f with
  | FArr _ l1 l2 => JArray (map erase l1 ++ j :: map erase l2)
  | FObj _ l1 key l2 => JObject (map (fun e => (e.1, erase e.2)) l1 ++ (key, j) :: map (fun e => (e.1, erase e.2)) l2)
  end.
Lemma erase_plug1 f t : erase (plug1 f t) = jframe f (erase t).
Proof. destruct f; cbn; by rewrite map_app. Qed.

Lemma lookup_middle {A} (l1 : list A) x l2 i : i = zlen l1 -> (l1 ++ x :: l2) !! Z.to_nat i = Some x.
Proof. intros ->. unfold zlen. rewrite Nat2Z.id. by apply list_lookup_middle. Qed.
Lemma insert_here {A} (l1 l2 : list A) x y : <[length l1 := y]> (l1 ++ x :: l2) = l1 ++ y :: l2.
Proof. induction l1 as [|z l1 IH]; [done|]. exact (f_equal (cons z) IH). Qed.
Lemma delete_here {A} (l1 l2 : list A) x : base.delete (length l1) (l1 ++ x :: l2) = l1 ++ l2.
Proof. induction l1 as [|z l1 IH]; [done|]. exact (f_equal (cons z) IH). Qed.
Lemma assoc_app {A} (l1 l2 : list (list Z * A)) key : assoc l1 key = None -> assoc (l1 ++ l2) key = assoc l2 key.
Proof. induction l1 as [|[k v] l1 IH]; cbn; [done|]. destruct (streq k key); [done|apply IH]. Qed.
Lemma assoc_map {A B} (g : A -> B) (l : list (list Z * A)) key : assoc (map (fun e => (e.1, g e.2)) l) key = g <$> assoc l key.
Proof. induction l as [|[k v] l IH]; cbn; [done|]. destruct (streq k key); [done|apply IH]. Qed.
Lemma assoc_here {A} (l1 l2 : list (list Z * A)) key v : assoc l1 key = None -> assoc (l1 ++ (key, v) :: l2) key = Some v.
Proof. intros H. rewrite assoc_app by done. cbn. by rewrite streq_refl. Qed.
Lemma replace_key_here {A} (l1 l2 : list (list Z * A)) key u v : assoc l1 key = None ->
  replace_key key v (l1 ++ (key, u) :: l2) = l1 ++ (key, v) :: l2.
Proof.
  induction l1 as [|[k w] l1 IH]; cbn; [by rewrite streq_refl|]. destruct (streq k key); [done|]. intros H. by rewrite IH.
Qed.
Lemma remove_key_here {A} (l1 l2 : list (list Z * A)) key v : assoc l1 key = None ->
  remove_key key (l1 ++ (key, v) :: l2) = l1 ++ l2.
Proof.
  induction l1 as [|[k w] l1 IH]; cbn; [by rewrite streq_refl|]. destruct (streq k key); [done|]. intros H. by rewrite IH.
Qed.
Lemma assoc_split {A} (l : list (list Z * A)) key v : assoc l key = Some v ->
  exists l1 l2, l = l1 ++ (key, v) :: l2 /\ assoc l1 key = None.
Proof.
  induction l as [|[k w] l IH]; cbn; [done|]. destruct (streq k key) eqn:E.
  - intros [= ->]. apply streq_true in E as ->. by exists [], l.
  - intros H. destruct (IH H) as (l1 & l2 & -> & Hn). exists ((k, w) :: l1), l2. split; [done|]. cbn. by rewrite E.
Qed.

Lemma non_null_inv j c : non_null j = Some c -> j = c /\ c <> JNull.
Proof. destruct j; cbn; intros [= <-]; done. Qed.
(** A part of a path that leads somewhere opens a frame there. *)
Lemma child_frame t part c : child (erase t) part = Some c ->
  exists f u, t = plug1 f u /\ erase u = c /\ fits f part /\ c <> JNull.
Proof.
  destruct t as [|o s|o x|o l|o l]; cbn [erase child]; try done.
  - destruct (array_index part) as [i|] eqn:Ei; [|done]. cbn [mbind option_bind]. destruct (Z.ltb_spec i 0); [done|]. intros Hc.
    apply bind_Some in Hc as (j & Hj & Hc). apply non_null_inv in Hc as [-> Hne].
    change (map erase l) with (erase <$> l) in Hj. rewrite list_lookup_fmap in Hj. apply fmap_Some in Hj as (u & Hu & ->).
    apply list_elem_of_split_length in Hu as (l1 & l2 & -> & Hl). exists (FArr o l1 l2), u. split; [done|]. split; [done|]. split; [|done].
    cbn. rewrite Ei. f_equal. unfold zlen. lia.
  - intros Hc. apply bind_Some in Hc as (j & Hj & Hc). apply non_null_inv in Hc as [-> Hne].
    rewrite assoc_map in Hj. apply fmap_Some in Hj as (u & Hu & ->).
    destruct (assoc_split _ _ _ Hu) as (l1 & l2 & -> & Hn). by exists (FObj o l1 part l2), u.
Qed.
Lemma child_plug1 f part j : fits f part -> j <> JNull -> child (jframe f j) part = Some j.
Proof.
  intros Hf Hj. assert (Hnn : non_null j = Some j) by (by destruct j).
  destruct f as [o l1 l2|o l1 key l2]; cbn [fits jframe child] in *.
  - rewrite Hf. cbn [mbind option_bind]. rewrite (proj2 (Z.ltb_ge (zlen l1) 0)) by apply zlen_nonneg.
    rewrite lookup_middle by (unfold zlen; by rewrite length_map). exact Hnn.
  - destruct Hf as [-> Hn]. rewrite assoc_here by (by rewrite assoc_map, Hn). exact Hnn.
Qed.
Lemma replace_child_plug1 f part j j' : fits f part -> replace_child (jframe f j) part j' = jframe f j'.
Proof.
  intros Hf. destruct f as [o l1 l2|o l1 key l2]; cbn [fits jframe replace_child] in *.
  - rewrite Hf. f_equal. unfold zlen. rewrite Nat2Z.id, <- (length_map erase l1). by apply insert_here.
  - destruct Hf as [-> Hn]. by rewrite replace_key_here by (by rewrite assoc_map, Hn).
Qed.

Lemma plug_app K f t : plug (K ++ [f]) t = plug K (plug1 f t).
Proof. unfold plug. by rewrite foldr_app. Qed.
Lemma walk t parts c : lookup (erase t) parts = Some c ->
  exists K u, t = plug K u /\ erase u = c /\ Forall2 fits K parts /\ (parts <> [] -> c <> JNull).
Proof.
  revert t. induction parts as [|part parts IH]; intros t Hl; cbn [lookup] in Hl.
  - injection Hl as <-. exists [], t. by repeat split.
  - apply bind_Some in Hl as (j & Hj & Hl). destruct (child_frame _ _ _ Hj) as (f & u & -> & <- & Hf & Hne).
    destruct (IH u Hl) as (K & v & -> & <- & HK & Hc). exists (f :: K), v. split; [done|]. split; [done|].
    split; [by constructor|]. intros _. destruct parts; [|by apply Hc]. injection Hl as <-. done.
Qed.

Definition frame_node (f : frame) (p : option obj) : node obj :=
  match f with
  | FArr _ l1 l2 => NArray (map ptr l1 ++ p :: map ptr l2)
  | FObj _ l1 key l2 => NObject (map (fun e => (e.1, ptr e.2)) l1 ++ (key, p) :: map (fun e => (e.1, ptr e.2)) l2)
  end.
Lemma holds_frame h f t : holds h (plug1 f t) -> live h (frame_obj f) /\ node_of h (frame_obj f) = frame_node f (ptr t).
Proof.
  intros [_ Hf]. rewrite (cells_plug1 f t) in Hf. destruct f; cbn in Hf; apply Forall_cons in Hf as [Hx _]; exact Hx.
Qed.

(** [get] follows the path. *)
Lemma get_walk h K : forall u parts o, holds h (plug K u) -> Forall2 fits K parts -> parts <> [] -> ptr u = Some o ->
  get h (ptr (plug K u)) parts = Ret (Some o, map frame_obj (tail K) ++ [o], []).
Proof.
  induction K as [|f K IH]; intros u parts o Hh HK Hp Ho; inversion HK as [|? part ? rest Hf HK']; subst; [done|].
  change (plug (f :: K) u) with (plug1 f (plug K u)) in *. destruct (holds_frame _ _ _ Hh) as [_ Hn].
  pose proof (holds_hole h [f] _ Hh) as Hh'. cbn [get]. rewrite ptr_plug1.
  set (c := ptr (plug K u)) in *.
  assert (Hc : exists o', c = Some o' /\ c = match K with [] => Some o | g :: _ => Some (frame_obj g) end).
  { unfold c. rewrite ptr_plug, Ho. by destruct K; eexists. }
  destruct Hc as (o' & Ho' & HoK).
  assert (Hget : (x ← match array_of h (Some (frame_obj f)) with
          | Some l => match index_of part with
              | Some v => c ← json_object_array_get_idx l (s32 (u32 v)); Ret (c, [])
              | None => Ret (None, str "Array require int for index" ++ [LF])
              end
          | None => match object_of h (Some (frame_obj f)) with
              | Some l => Ret (json_object_object_get l part, [])
              | None => Ret (None, [])
              end
          end; Ret x) = Ret (c, [])).
  { unfold array_of, object_of. rewrite Hn. destruct f as [a l1 l2|a l1 key l2]; cbn [frame_node fits] in *.
    - unfold array_index in Hf. destruct (index_of part) as [v|]; [|done]. injection Hf as Hv. rsimpl. rewrite Hv.
      unfold json_object_array_get_idx. rewrite (proj2 (Z.ltb_ge (zlen l1) 0)) by apply zlen_nonneg. rsimpl.
      by rewrite lookup_middle by (unfold zlen; by rewrite length_map).
    - destruct Hf as [-> Hk]. rsimpl. unfold json_object_object_get. by rewrite assoc_here by (by rewrite assoc_map, Hk). }
  destruct (match array_of h (Some (frame_obj f)) with Some _ => _ | None => _ end) as [x| |]; cbn [mbind run_bind] in Hget; try done.
  injection Hget as ->. rsimpl. rewrite Ho'. destruct rest as [|part2 rest].
  - apply Forall2_nil_inv_r in HK' as ->. rewrite HoK in Ho'. by injection Ho' as ->.
  - pose proof (IH u (part2 :: rest) o Hh' HK' ltac:(done) Ho) as Hrec. fold c in Hrec. rewrite Ho' in Hrec.
    rewrite Hrec. rsimpl. destruct K as [|g K]; [by inversion HK'|]. rewrite HoK in Ho'. injection Ho' as <-. done.
Qed.

(** ** The parent rebuilt around a new child, or without one *)

Definition sibs (f : frame) : list (obj * node obj) :=
  match f with
  | FArr _ l1 l2 => concat (map cells l1) ++ concat (map cells l2)
  | FObj _ l1 _ l2 => concat (map (fun e => cells e.2) l1) ++ concat (map (fun e => cells e.2) l2)
  end.
Lemma frame_cells_eq f p : frame_cells f p = (frame_obj f, frame_node f p) :: sibs f.
Proof. by destruct f. Qed.
Lemma holds_parts h f u : holds h (plug1 f u) ->
  frame_obj f ∉ objects u /\ frame_obj f ∉ (sibs f).*1 /\ NoDup (sibs f).*1 /\
  (forall o, o ∈ (sibs f).*1 -> o ∉ objects u /\ live h o).
Proof.
  intros Hh. destruct (proj1 (holds_split h [f] u) Hh) as [Hn Hf]. cbn [around app] in Hn, Hf.
  rewrite app_nil_r, frame_cells_eq in Hn, Hf. cbn [fmap list_fmap fst app] in Hn. apply NoDup_cons in Hn as [Ho Hn].
  apply NoDup_app in Hn as (Hs & Hd & _). rewrite not_elem_of_app in Ho. destruct Ho as [Ho1 Ho2].
  repeat split; try done; [by apply Hd|].
  apply list_elem_of_fmap in H as ([o' n] & -> & Hx). rewrite Forall_forall in Hf.
  destruct (Hf (o', n)) as [? _]; [|done]. right. apply elem_of_app. by left.
Qed.
Lemma keeps_trans h1 h2 h3 g1 g2 : keeps h1 h2 g1 -> keeps h2 h3 g2 -> keeps h1 h3 (g1 ++ g2).
Proof.
  intros H1 H2 o Ho Hg. rewrite not_elem_of_app in Hg. destruct Hg as [Hg1 Hg2].
  destruct (H1 o Ho Hg1) as [Hl1 Hn1]. destruct (H2 o Hl1 Hg2) as [Hl2 Hn2]. by rewrite Hn2.
Qed.
Lemma keeps_mono h h' g g' : keeps h h' g -> (forall o, o ∈ g -> o ∈ g') -> keeps h h' g'.
Proof. intros Hk Hg o Ho Hn. apply Hk; [done|]. intros Hx. by apply Hn, Hg. Qed.
Lemma holds_keeps h h' t g : holds h t -> keeps h h' g -> (forall o, o ∈ objects t -> o ∉ g) -> holds h' t.
Proof.
  intros [Hn Hf] Hk Hg. split; [done|]. rewrite Forall_forall in Hf |- *. intros [o n] Hx. destruct (Hf _ Hx) as [Hl Ho].
  cbn in *. destruct (Hk o Hl) as [Hl' Ho']; [|by rewrite Ho']. apply Hg. apply list_elem_of_fmap. by exists (o, n).
Qed.

Lemma rebuild h h' f u nd extra p' : holds h (plug1 f u) -> keeps h h' (frame_obj f :: objects u) ->
  live h' (frame_obj f) -> node_of h' (frame_obj f) = nd ->
  Forall (fun x => live h' x.1 /\ node_of h' x.1 = x.2) extra -> NoDup extra.*1 ->
  (forall o, o ∈ extra.*1 -> o <> frame_obj f /\ o ∉ (sibs f).*1) ->
  cells p' ≡ₚ (frame_obj f, nd) :: sibs f ++ extra -> holds h' p'.
Proof.
  intros Hh Hk Hl Hnd Hx Hxn Hxd Hp. destruct (holds_parts _ _ _ Hh) as (Ho & Ho' & Hs & Hso). split.
  - unfold objects. rewrite Hp. cbn [fmap list_fmap fst]. apply NoDup_cons. rewrite fmap_app. split.
    + rewrite not_elem_of_app. split; [done|]. intros Hy. by destruct (Hxd _ Hy).
    + apply NoDup_app. split; [done|]. split; [|done]. intros o Ho1 Ho2. by destruct (Hxd _ Ho2).
  - rewrite Hp. apply Forall_cons. split; [done|]. apply Forall_app. split; [|done].
    destruct (proj1 (holds_split h [f] u) Hh) as [_ Hf]. cbn [around app] in Hf.
    rewrite app_nil_r, frame_cells_eq in Hf. rewrite Forall_forall in Hf. apply Forall_forall. intros [o n] Hy.
    assert (Hoy : o ∈ (sibs f).*1) by (apply list_elem_of_fmap; by exists (o, n)).
    destruct (Hf (o, n)) as [Hly Hny]; [right; apply elem_of_app; by left|]. cbn in *.
    destruct (Hk o Hly) as [H1 H2]; [|by rewrite H2]. rewrite not_elem_of_cons. split; [by intros ->|by apply Hso].
Qed.

(** Nothing, a scalar, or an empty container: what may be overwritten. *)
Definition settable (j : json) : Prop :=
  match j with JArray (_ :: _) | JObject (_ :: _) => False | _ => True end.
Definition set_frame (f : frame) (n : obj) (value : list Z) : tree :=
  match f with
  | FArr o l1 l2 => TArray o (l1 ++ TString n value :: l2)
  | FObj o l1 key l2 => TObject o ((l1 ++ l2) ++ [(key, TString n value)])
  end.
Definition set_node (f : frame) (n : obj) : node obj :=
  match f with
  | FArr _ l1 l2 => NArray (map ptr l1 ++ Some n :: map ptr l2)
  | FObj _ l1 key l2 => NObject ((map (fun e => (e.1, ptr e.2)) l1 ++ map (fun e => (e.1, ptr e.2)) l2) ++ [(key, Some n)])
  end.
Lemma set_frame_cells f n value :
  cells (set_frame f n value) ≡ₚ (frame_obj f, set_node f n) :: sibs f ++ [(n, NString value)].
Proof.
  destruct f as [o l1 l2|o l1 key l2]; cbn [set_frame cells frame_obj sibs set_node].
  - rewrite !map_app, concat_app. cbn [map concat cells ptr].
    apply Permutation_skip. rewrite <- app_assoc. apply Permutation_app_head. by rewrite Permutation_app_comm.
  - rewrite !map_app, !concat_app. cbn [map concat cells ptr fst snd]. by rewrite app_nil_r.
Qed.
Lemma set_frame_erase f n value j last : fits f last -> erase (set_frame f n value) = set_path (jframe f j) [last] value.
Proof.
  intros Hf. destruct f as [o l1 l2|o l1 key l2]; cbn [set_frame erase set_path jframe].
  - pose proof (replace_child_plug1 (FArr o l1 l2) last j (JString value) Hf) as Hr. cbn [jframe] in Hr. rewrite Hr.
    by rewrite map_app.
  - destruct Hf as [-> Hn]. rewrite remove_key_here by (by rewrite assoc_map, Hn). by rewrite !map_app.
Qed.

Lemma settable_node h u o : holds h u -> ptr u = Some o -> settable (erase u) ->
  match node_of h o with NArray (_ :: _) | NObject (_ :: _) => False | _ => True end.
Proof.
  intros [_ Hf] Ho Hs. destruct u as [|a x|a x|a l|a l]; cbn in Ho; try done; injection Ho as ->;
    apply Forall_cons in Hf as [[_ Hn] _]; cbn in Hn; rewrite Hn; try done; by destruct l.
Qed.

(** The objects that are there after [set_value], for either kind of parent. *)
Lemma set_frame_holds h h' f u n value : holds h (plug1 f u) -> keeps h h' (frame_obj f :: objects u) ->
  (n ∈ objects u \/ ~ live h n) -> live h' n -> node_of h' n = NString value -> live h' (frame_obj f) ->
  node_of h' (frame_obj f) = set_node f n -> holds h' (set_frame f n value).
Proof.
  intros Hh Hk Hn Hl Hnn Hlf Hnd. destruct (holds_parts _ _ _ Hh) as (Ho & Ho' & Hs & Hso).
  destruct (holds_frame _ _ _ Hh) as [Hlive _].
  apply (rebuild h h' f u (set_node f n) [(n, NString value)]); [done..| | | |apply set_frame_cells].
  - by repeat constructor.
  - apply NoDup_singleton.
  - intros o Hx. cbn in Hx. apply list_elem_of_singleton in Hx as ->. split.
    + intros ->. by destruct Hn.
    + intros Hx. destruct (Hso _ Hx). by destruct Hn.
Qed.

(** [set_value] under a parent puts the string into the document: what it leaves. *)
Definition value_set (h : heap) (f : frame) (u : tree) (value : list Z) (s s' : state) (n : obj) : Prop :=
  DIRTY_DATA s' = true /\ s_out s' = s_out s /\ holds (s_heap s') (set_frame f n value) /\
  keeps h (s_heap s') (frame_obj f :: objects u) /\ (n ∈ objects u \/ ~ live h n).
Lemma set_array_value h po l1 l2 u o value s : holds h (plug1 (FArr po l1 l2) u) -> ptr u = Some o ->
  let '(h1, n) := json_object_new_string h value in
  value_set h (FArr po l1 l2) u value s (dirty (json_object_array_put_idx h1 po (zlen l1) (Some n)) s) n.
Proof.
  intros Hh Ho. pose proof (holds_hole h [FArr po l1 l2] u Hh) as Hu.
  destruct (holds_frame _ _ _ Hh) as [Hlf Hnf]. destruct (holds_parts _ _ _ Hh) as (Hfo & _). rewrite Ho in Hnf. cbn [frame_obj frame_node] in *.
  pose proof (new_string_law h value) as Hnew. destruct (json_object_new_string h value) as [h1 n].
  destruct Hnew as (Hn1 & Hn2 & Hn3 & Hn4).
  assert (Hu1 : holds h1 u) by (eapply holds_keeps; [exact Hu|exact Hn4|by intros ? _ ?%not_elem_of_nil]).
  destruct (Hn4 po Hlf ltac:(by intros ?%not_elem_of_nil)) as [Hpo1 Hpo2]. rewrite Hnf in Hpo2.
  assert (Hlen : zlen l1 = zlen (map ptr l1)) by (unfold zlen; by rewrite length_map).
  destruct (put_idx_law h1 po _ (zlen l1) u (Some n) Hu1 Hpo1 Hfo Hpo2 (zlen_nonneg l1)) as (H1 & H2 & H3).
  { rewrite Ho. by apply lookup_middle. }
  assert (Hne : n ∉ po :: objects u).
  { rewrite not_elem_of_cons. split; [by intros ->|]. intros Hx. by apply Hn1, (live_object h u). }
  destruct (H3 n Hn2 Hne) as [H4 H5].
  assert (Hk : keeps h (json_object_array_put_idx h1 po (zlen l1) (Some n)) (po :: objects u)) by exact (keeps_trans _ _ _ [] _ Hn4 H3).
  split; [done|]. split; [done|]. split; [|split; [exact Hk|by right]].
  apply (set_frame_holds h _ (FArr po l1 l2) u n value Hh Hk); [by right|exact H4|by rewrite <- Hn3|done|].
  cbn [frame_obj set_node dirty s_heap]. rewrite H2. f_equal. rewrite Hlen. unfold zlen. rewrite Nat2Z.id. apply insert_here.
Qed.
Lemma assoc_absent {A} (l : list (list Z * A)) key : key ∉ l.*1 -> assoc l key = None.
Proof.
  induction l as [|[k w] l IH]; [done|]. cbn. rewrite not_elem_of_cons. intros [Hk H].
  destruct (streq k key) eqn:E; [apply streq_true in E; by subst|]. by apply IH.
Qed.
Lemma set_object_value h po l1 key l2 u o value s : holds h (plug1 (FObj po l1 key l2) u) -> ptr u = Some o -> assoc l1 key = None ->
  let '(h2, n) := json_object_new_string (json_object_object_del h po key) value in
  value_set h (FObj po l1 key l2) u value s (dirty (json_object_object_add h2 po key (Some n)) s) n.
Proof.
  intros Hh Ho Hk1. pose proof (holds_hole h [FObj po l1 key l2] u Hh) as Hu.
  destruct (holds_frame _ _ _ Hh) as [Hlf Hnf]. destruct (holds_parts _ _ _ Hh) as (Hfo & _). rewrite Ho in Hnf. cbn [frame_obj frame_node] in *.
  assert (Ha : assoc (map (fun e => (e.1, ptr e.2)) l1) key = None) by (by rewrite assoc_map, Hk1).
  destruct (object_del_law h po _ key u Hu Hlf Hfo Hnf) as (H1 & H2 & H3); [by rewrite Ho, assoc_here|].
  rewrite remove_key_here in H2 by done. set (h1 := json_object_object_del h po key) in *.
  pose proof (new_string_law h1 value) as Hnew. destruct (json_object_new_string h1 value) as [h2 n].
  destruct Hnew as (Hn1 & Hn2 & Hn3 & Hn4). destruct (Hn4 po H1 ltac:(by intros ?%not_elem_of_nil)) as [Hpo1 Hpo2]. rewrite H2 in Hpo2.
  destruct (object_add_law h2 po _ key (Some n) Hpo1 Hpo2) as (H4 & H5 & H6).
  { pose proof (keys_law h po _ Hlf Hnf) as Hnd. rewrite fmap_app in Hnd. cbn in Hnd. apply NoDup_app in Hnd as (_ & _ & Hnd).
    apply NoDup_cons in Hnd as [Hnd _]. rewrite assoc_app by done. by apply assoc_absent. }
  assert (Hne : n <> po) by (intros ->; contradiction).
  destruct (H6 n Hn2) as [H7 H8]; [by intros ->%list_elem_of_singleton|].
  set (h3 := json_object_object_add h2 po key (Some n)) in *.
  assert (Hk : keeps h h3 (po :: objects u)).
  { eapply keeps_mono; [exact (keeps_trans _ _ _ _ _ (keeps_trans _ _ _ _ _ H3 Hn4) H6)|].
    intros x. rewrite !elem_of_app. intros [[?|?%not_elem_of_nil]| ->%list_elem_of_singleton]; [done|done|by left]. }
  assert (Hnl : n ∈ objects u \/ ~ live h n).
  { destruct (decide (n ∈ objects u)) as [|Hnu]; [by left|right]. intros Hl. apply Hn1. apply (H3 n Hl). by rewrite not_elem_of_cons. }
  split; [done|]. split; [done|]. split; [|by split].
  apply (set_frame_holds h _ (FObj po l1 key l2) u n value Hh Hk); [done|exact H7|by rewrite <- Hn3|done|exact H5].
Qed.
Lemma set_value_holds h f u o last value s : s_heap s = h -> holds h (plug1 f u) -> fits f last -> ptr u = Some o ->
  settable (erase u) ->
  exists n s', set_value (Some (frame_obj f)) last o value s = s' /\ value_set h f u value s s' n.
Proof.
  intros Hs Hh Hf Ho Hset. pose proof (holds_hole h [f] u Hh) as Hu. pose proof (settable_node h u o Hu Ho Hset) as Hn.
  destruct (holds_frame _ _ _ Hh) as [_ Hnf]. rewrite Ho in Hnf. unfold set_value. rewrite Hs. cbv zeta.
  destruct f as [po l1 l2|po l1 key l2]; cbn [frame_node frame_obj fits] in *.
  - rewrite array_index_eq in Hf. apply fmap_Some in Hf as (v & Hv & Hl).
    assert (Hlt : (s32 v <? zlen (map ptr l1 ++ Some o :: map ptr l2)) = true).
    { apply Z.ltb_lt. rewrite zlen_app, zlen_cons, <- Hl. pose proof (zlen_nonneg (map ptr l2)).
      replace (zlen l1) with (zlen (map ptr l1)) by (unfold zlen; by rewrite length_map). lia. }
    pose proof (set_array_value h po l1 l2 u o value s Hh Ho) as H. destruct (json_object_new_string h value) as [h1 n].
    exists n, (dirty (json_object_array_put_idx h1 po (zlen l1) (Some n)) s). split; [|done].
    destruct (node_of h o) as [?|?|[|]|[|]]; try done; by rewrite Hnf, Hv, Hlt, <- Hl.
  - destruct Hf as [-> Hk1]. pose proof (set_object_value h po l1 last l2 u o value s Hh Ho Hk1) as H.
    destruct (json_object_new_string (json_object_object_del h po last) value) as [h2 n] eqn:En.
    exists n, (dirty (json_object_object_add h2 po last (Some n)) s). split; [|done].
    assert (Hg : json_object_object_get (map (fun e => (e.1, ptr e.2)) l1 ++ (last, Some o) :: map (fun e => (e.1, ptr e.2)) l2) last = Some o).
    { unfold json_object_object_get. by rewrite assoc_here by (by rewrite assoc_map, Hk1). }
    unfold object_of. destruct (node_of h o) as [?|?|[|]|[|]]; try done; by rewrite Hnf, Hg, ?En.
Qed.

(** [delete_value] takes the child out of its parent. *)
Definition del_frame (f : frame) : tree :=
  match f with FArr o l1 l2 => TArray o (l1 ++ l2) | FObj o l1 _ l2 => TObject o (l1 ++ l2) end.
Definition del_node (f : frame) : node obj :=
  match f with
  | FArr _ l1 l2 => NArray (map ptr l1 ++ map ptr l2)
  | FObj _ l1 _ l2 => NObject (map (fun e => (e.1, ptr e.2)) l1 ++ map (fun e => (e.1, ptr e.2)) l2)
  end.
Lemma del_frame_cells f : cells (del_frame f) ≡ₚ (frame_obj f, del_node f) :: sibs f ++ [].
Proof. rewrite app_nil_r. destruct f; cbn; by rewrite !map_app, concat_app. Qed.
Lemma del_frame_erase f j last : fits f last -> erase (del_frame f) = delete_path (jframe f j) [last].
Proof.
  intros Hf. destruct f as [o l1 l2|o l1 key l2]; cbn [del_frame erase delete_path jframe].
  - cbn [fits] in Hf. rewrite Hf. unfold zlen. rewrite Nat2Z.id, <- (length_map erase l1), delete_here. by rewrite map_app.
  - destruct Hf as [-> Hn]. rewrite remove_key_here by (by rewrite assoc_map, Hn). by rewrite map_app.
Qed.
Lemma delete_value_holds h f u o parent last key s : s_heap s = h -> holds h (plug1 f u) -> fits f last -> ptr u = Some o ->
  exists s', delete_value (Some (frame_obj f)) parent last key s = Ret s' /\ DIRTY_DATA s' = true /\ s_out s' = s_out s /\
    holds (s_heap s') (del_frame f) /\ keeps h (s_heap s') (frame_obj f :: objects u).
Proof.
  intros Hs Hh Hf Ho. pose proof (holds_hole h [f] u Hh) as Hu.
  destruct (holds_frame _ _ _ Hh) as [Hlf Hnf]. destruct (holds_parts _ _ _ Hh) as (Hfo & _). rewrite Ho in Hnf.
  assert (Hend : forall h', keeps h h' (frame_obj f :: objects u) -> live h' (frame_obj f) -> node_of h' (frame_obj f) = del_node f ->
    holds h' (del_frame f)).
  { intros h' Hk Hl Hn. apply (rebuild h h' f u (del_node f) []); [done..|by constructor|constructor| |apply del_frame_cells].
    by intros ? ?%not_elem_of_nil. }
  unfold delete_value. rewrite Hs, Hnf. destruct f as [po l1 l2|po l1 k l2]; cbn [frame_node frame_obj fits del_node] in *.
  - rewrite array_index_eq in Hf. apply fmap_Some in Hf as (v & -> & <-).
    assert (Hlen : zlen l1 = zlen (map ptr l1)) by (unfold zlen; by rewrite length_map). pose proof (zlen_nonneg l1).
    rewrite (proj2 (Z.leb_gt _ (zlen l1))) by (rewrite zlen_app, zlen_cons, <- Hlen; pose proof (zlen_nonneg (map ptr l2)); lia).
    rewrite (proj2 (Z.ltb_ge (zlen l1) 0)) by lia. rewrite lookup_middle by done. cbn [from_option id].
    pose proof (put_law h u Hu) as Hk1. rewrite Ho in Hk1. set (h1 := json_object_put h (Some o)) in *.
    destruct (Hk1 po Hlf Hfo) as [H1 H2]. rewrite Hnf in H2.
    destruct (set_array_law h1 po _ (base.delete (Z.to_nat (zlen l1)) (map ptr l1 ++ Some o :: map ptr l2)) H1 H2) as (H3 & H4 & H5).
    assert (Hk : keeps h (set_array h1 po (base.delete (Z.to_nat (zlen l1)) (map ptr l1 ++ Some o :: map ptr l2))) (po :: objects u)).
    { eapply keeps_mono; [exact (keeps_trans _ _ _ _ _ Hk1 H5)|].
      intros x. rewrite elem_of_app. intros [?|Hx%list_elem_of_singleton]; [by right|subst; by left]. }
    eexists. split; [reflexivity|]. split; [done|]. split; [done|]. split; [|exact Hk].
    cbn [dirty s_heap]. apply Hend; [done|done|]. rewrite H4. f_equal. rewrite Hlen. unfold zlen. rewrite Nat2Z.id. apply delete_here.
  - destruct Hf as [-> Hk1]. unfold object_of. rewrite Hnf. cbn [mbind option_bind]. unfold json_object_object_get.
    assert (Ha : assoc (map (fun e => (e.1, ptr e.2)) l1) last = None) by (by rewrite assoc_map, Hk1).
    rewrite assoc_here by done. cbn [from_option id].
    destruct (object_del_law h po _ last u Hu Hlf Hfo Hnf) as (H1 & H2 & H3); [by rewrite Ho, assoc_here|].
    rewrite remove_key_here in H2 by done.
    eexists. split; [reflexivity|]. split; [done|]. split; [done|]. split; [|done]. apply Hend; [done|done|]. cbn. exact H2.
Qed.

(** ** The text of a path *)

Fixpoint path_text (parts : list (list Z)) : list Z :=
  match parts with
  | [] => []
  | [p] => p
  | p :: r => p ++ 46 :: path_text r
  end.
(** A name without a dot or an equals sign. *)
Definition part_ok (part : list Z) : Prop := Forall (fun c => c <> 46 /\ c <> 61) part.
Lemma split_dot_part p s acc : part_ok p -> split_dot (p ++ s) acc = split_dot s (rev p ++ acc).
Proof.
  intros Hp. revert acc. induction Hp as [|c p [Hc _] _ IH]; intros acc; [done|]. cbn [app split_dot].
  rewrite (proj2 (Z.eqb_neq c 46)) by done. rewrite IH. cbn [rev]. by rewrite <- app_assoc.
Qed.
Lemma split_path_text parts : parts <> [] -> Forall part_ok parts -> split_dot (path_text parts) [] = parts.
Proof.
  intros Hne Hp. induction Hp as [|p [|q r] Hp Hr IH]; [done| |].
  - cbn [path_text]. rewrite <- (app_nil_r p) at 1. rewrite split_dot_part by done. cbn. by rewrite app_nil_r, rev_involutive.
  - change (path_text (p :: q :: r)) with (p ++ 46 :: path_text (q :: r)). rewrite split_dot_part by done. cbn [split_dot].
    change (46 =? 46) with true. cbn iota. rewrite IH by done. by rewrite app_nil_r, rev_involutive.
Qed.
Lemma path_no_eq parts : Forall part_ok parts -> Forall (fun c => c <> 61) (path_text parts).
Proof.
  intros H. assert (Hp : forall p, part_ok p -> Forall (fun c => c <> 61) p) by (intros p Hp; eapply Forall_impl; [exact Hp|by intros ? [_ ?]]).
  induction H as [|p [|q r] Hp' Hr IH]; [constructor|by apply Hp|].
  change (path_text (p :: q :: r)) with (p ++ 46 :: path_text (q :: r)). apply Forall_app. split; [by apply Hp|]. by constructor.
Qed.
Lemma strchr_free (l r : list Z) c : Forall (fun x => x <> c) l -> strchr (l ++ r) c = strchr r c.
Proof. induction 1 as [|x l Hx _ IH]; [done|]. cbn. by rewrite (proj2 (Z.eqb_neq x c)). Qed.
Lemma key_and_value_set path value : Forall (fun c => c <> 61) path -> key_and_value (path ++ 61 :: value) = (path, Some value).
Proof.
  intros H. unfold key_and_value. rewrite strchr_free by done. cbn [strchr]. change (61 =? 61) with true. cbn iota.
  replace (length (path ++ 61%Z :: value) - length (61%Z :: value))%nat with (length path) by (rewrite length_app; lia).
  by rewrite take_app_length.
Qed.
Lemma key_and_value_get path : Forall (fun c => c <> 61) path -> key_and_value path = (path, None).
Proof. intros H. unfold key_and_value. rewrite <- (app_nil_r path), strchr_free by done. done. Qed.

(** ** One command *)

Implicit Types (flags : conf_flags) (s : state).

Lemma splitpath_text parts : parts <> [] -> Forall part_ok parts -> zlen parts <= MAX_TREE_PATH ->
  splitpath (path_text parts) MAX_TREE_PATH = Ret parts.
Proof. intros Hne Hp Hl. unfold splitpath. rewrite split_path_text by done. by rewrite (proj2 (Z.leb_le _ _) Hl). Qed.

(** The child named by [front ++ [last]], seen from its parent. *)
Lemma walk_parent t front last c : lookup (erase t) (front ++ [last]) = Some c ->
  exists K f u o, t = plug K (plug1 f u) /\ erase u = c /\ Forall2 fits K front /\ fits f last /\ ptr u = Some o.
Proof.
  intros H. destruct (walk _ _ _ H) as (K & u & -> & <- & HK & Hne). apply Forall2_app_inv_r in HK as (K1 & K2 & HK1 & HK2 & ->).
  inversion HK2 as [|f ? ? ? Hf HK3]; subst. inversion HK3; subst. rewrite plug_app.
  destruct (ptr u) as [o|] eqn:Ho; [by exists K1, f, u, o|]. destruct u; try done. by destruct Hne; [destruct front|].
Qed.
Lemma get_parent h K f u o front last : holds h (plug K (plug1 f u)) -> Forall2 fits K front -> fits f last -> ptr u = Some o ->
  front <> [] -> exists objs, get h (ptr (plug K (plug1 f u))) (front ++ [last]) = Ret (Some o, objs, []) /\
    objs !! (length (front ++ [last]) - 2)%nat = Some (frame_obj f).
Proof.
  intros Hh HK Hf Ho Hne. rewrite <- plug_app in *. eexists. split.
  - apply get_walk; [done|by apply Forall2_app; [|constructor]|by destruct front|done].
  - pose proof (Forall2_length _ _ _ HK) as Hl. destruct K as [|g K]; [by destruct front|]. cbn [app tail].
    rewrite map_app, <- app_assoc. cbn [map app]. rewrite length_app. cbn [length] in *.
    replace (length front + 1 - 2)%nat with (length (map frame_obj K)) by (rewrite length_map; lia).
    by apply list_lookup_middle.
Qed.

(** Rebuilding the parent is setting or deleting the path. *)
Lemma change_path (g : json -> list (list Z) -> json) K front last p p' :
  (forall j part rest c, rest <> [] -> child j part = Some c -> g j (part :: rest) = replace_child j part (g c rest)) ->
  Forall2 fits K front -> erase p <> JNull -> erase p' = g (erase p) [last] ->
  erase (plug K p') = g (erase (plug K p)) (front ++ [last]).
Proof.
  intros Hg HK Hne He. induction HK as [|f part K front Hf HK IH]; [done|].
  change (plug (f :: K) p') with (plug1 f (plug K p')). change (plug (f :: K) p) with (plug1 f (plug K p)).
  cbn [app]. rewrite !erase_plug1. rewrite (Hg _ _ _ (erase (plug K p))); [|by destruct front|].
  - by rewrite replace_child_plug1, IH.
  - apply child_plug1; [done|]. destruct K as [|g' K]; [done|]. cbn. rewrite erase_plug1. by destruct g'.
Qed.
Lemma set_path_cons value j part rest c : rest <> [] -> child j part = Some c ->
  set_path j (part :: rest) value = replace_child j part (set_path c rest value).
Proof. intros Hr Hc. destruct rest; [done|]. cbn [set_path]. by rewrite Hc. Qed.
Lemma delete_path_cons j part rest c : rest <> [] -> child j part = Some c ->
  delete_path j (part :: rest) = replace_child j part (delete_path c rest).
Proof. intros Hr Hc. destruct rest; [done|]. cbn [delete_path]. by rewrite Hc. Qed.
Lemma erase_frame_non_null f u : erase (plug1 f u) <> JNull.
Proof. by destruct f. Qed.

(** A document in the state, and what a command prints. *)
Definition document s (root : option obj) (j : json) : Prop := exists t, holds (s_heap s) t /\ ptr t = root /\ erase t = j.

(** What was set is found again: the key is in the object once. *)
Lemma lookup_plug K parts u : Forall2 fits K parts -> erase u <> JNull -> lookup (erase (plug K u)) parts = Some (erase u).
Proof.
  intros HK Hu. induction HK as [|f part K parts Hf HK IH]; [done|]. change (plug (f :: K) u) with (plug1 f (plug K u)).
  rewrite erase_plug1. cbn [lookup]. rewrite child_plug1; [exact IH|done|].
  destruct K as [|g K]; [done|]. cbn. apply erase_frame_non_null.
Qed.
Lemma lookup_set h K f u front last n value : holds h (plug K (plug1 f u)) -> Forall2 fits K front -> fits f last ->
  lookup (erase (plug K (set_frame f n value))) (front ++ [last]) = Some (JString value).
Proof.
  intros Hh HK Hf. destruct (holds_frame _ _ _ (holds_hole _ _ _ Hh)) as [Hl Hn].
  set (g := match f with FArr o l1 l2 => FArr o l1 l2 | FObj o l1 key l2 => FObj o (l1 ++ l2) key [] end).
  assert (Eg : set_frame f n value = plug1 g (TString n value)) by (by destruct f).
  rewrite Eg, <- plug_app. apply (lookup_plug _ _ (TString n value)); [|done]. apply Forall2_app; [done|]. constructor; [|done].
  destruct f as [o l1 l2|o l1 key l2]; [done|]. destruct Hf as [-> Ha]. split; [done|]. rewrite assoc_app by done.
  cbn [frame_obj frame_node] in *. pose proof (keys_law h o _ Hl Hn) as Hnd. rewrite fmap_app in Hnd. cbn in Hnd.
  apply NoDup_app in Hnd as (_ & _ & Hnd). apply NoDup_cons in Hnd as [Hnd _].
  clear -Hnd. induction l2 as [|[k w] l IH]; [done|]. cbn in *. rewrite not_elem_of_cons in Hnd.
  destruct (streq k last) eqn:E; [apply streq_true in E; subst k; exfalso; by apply (proj1 Hnd)|]. apply IH, Hnd.
Qed.

Lemma process_set fuel flags root s j front last value c :
  document s root j -> SEARCH_MODE flags = false -> DELETE_MODE flags = false ->
  Forall part_ok (front ++ [last]) -> front <> [] -> zlen (front ++ [last]) <= MAX_TREE_PATH ->
  lookup j (front ++ [last]) = Some c -> settable c ->
  exists s', process fuel flags root (path_text (front ++ [last]) ++ 61 :: value) s = Ret s' /\
    DIRTY_DATA s' = true /\ s_out s' = s_out s /\ document s' root (set_path j (front ++ [last]) value) /\
    lookup (set_path j (front ++ [last]) value) (front ++ [last]) = Some (JString value).
Proof.
  intros (t & Hh & <- & <-) Hns Hnd Hp Hne Hl Hlk Hset. unfold process. rewrite Hns, Hnd.
  rewrite key_and_value_set by (by apply path_no_eq). rewrite splitpath_text by (by destruct front || done). rsimpl.
  destruct (walk_parent _ _ _ _ Hlk) as (K & f & u & o & -> & <- & HK & Hf & Ho).
  destruct (get_parent _ _ _ _ _ _ _ Hh HK Hf Ho Hne) as (objs & -> & Hpar). rsimpl.
  assert (Hcount : (1 <? length (front ++ [last]))%nat = true).
  { apply Nat.ltb_lt. rewrite length_app. cbn. destruct front; [done|]. cbn. lia. }
  rewrite Hcount, Hpar. replace (length (front ++ [last]) - 1)%nat with (length front) by (rewrite length_app; cbn; lia).
  rewrite list_lookup_middle by done. cbn [from_option id].
  assert (Hs : print [] s = s) by (destruct s; unfold print; cbn; by rewrite app_nil_r). rewrite Hs.
  destruct (set_value_holds (s_heap s) f u o last value s eq_refl (holds_hole _ K _ Hh) Hf Ho Hset) as (n & s' & -> & Hd & Hout & Hh' & Hk & Hn).
  assert (Herase : erase (plug K (set_frame f n value)) = set_path (erase (plug K (plug1 f u))) (front ++ [last]) value).
  { apply (change_path (fun j parts => set_path j parts value)); [intros; by apply set_path_cons|done|apply erase_frame_non_null|].
    rewrite erase_plug1. by apply set_frame_erase. }
  exists s'. split; [done|]. split; [done|]. split; [done|]. split; [|rewrite <- Herase; by eapply lookup_set].
  exists (plug K (set_frame f n value)). split; [|split; [|exact Herase]].
  - apply (replace_hole (s_heap s) _ K (plug1 f u) _ (frame_obj f :: objects u)); [done| |done|done| |].
    + rewrite ptr_plug1. by destruct f.
    + intros x. unfold objects. rewrite (cells_plug1 f u), frame_cells_eq. cbn [fmap list_fmap fst app].
      rewrite fmap_app, !elem_of_cons, elem_of_app. tauto.
    + intros x. unfold objects. rewrite (set_frame_cells f n value), (cells_plug1 f u), frame_cells_eq. cbn [fmap list_fmap fst app].
      rewrite !fmap_app, !elem_of_cons, !elem_of_app. cbn [fmap list_fmap fst].
      intros [?|[?|Hx%list_elem_of_singleton]]; [tauto|tauto|subst]. unfold objects in Hn. tauto.
  - rewrite !ptr_plug, ptr_plug1. by destruct K; destruct f.
Qed.

Lemma process_delete fuel flags root s j front last c :
  document s root j -> SEARCH_MODE flags = false -> DELETE_MODE flags = true ->
  Forall part_ok (front ++ [last]) -> front <> [] -> zlen (front ++ [last]) <= MAX_TREE_PATH ->
  lookup j (front ++ [last]) = Some c ->
  exists s', process fuel flags root (path_text (front ++ [last])) s = Ret s' /\
    DIRTY_DATA s' = true /\ s_out s' = s_out s /\ document s' root (delete_path j (front ++ [last])).
Proof.
  intros (t & Hh & <- & <-) Hns Hnd Hp Hne Hl Hlk. unfold process. rewrite Hns, Hnd.
  rewrite key_and_value_get by (by apply path_no_eq). rewrite splitpath_text by (by destruct front || done). rsimpl.
  destruct (walk_parent _ _ _ _ Hlk) as (K & f & u & o & -> & <- & HK & Hf & Ho).
  destruct (get_parent _ _ _ _ _ _ _ Hh HK Hf Ho Hne) as (objs & -> & Hpar). rsimpl.
  assert (Hcount : (1 <? length (front ++ [last]))%nat = true).
  { apply Nat.ltb_lt. rewrite length_app. cbn. destruct front; [done|]. cbn. lia. }
  rewrite Hcount, Hpar. replace (length (front ++ [last]) - 1)%nat with (length front) by (rewrite length_app; cbn; lia).
  rewrite (list_lookup_middle front [] last (length front) eq_refl). cbn [from_option id].
  assert (Hs : print [] s = s) by (destruct s; unfold print; cbn; by rewrite app_nil_r). rewrite Hs.
  set (par := (front ++ [last]) !! _).
  destruct (delete_value_holds (s_heap s) f u o par last (path_text (front ++ [last])) s eq_refl (holds_hole _ K _ Hh) Hf Ho) as (s' & -> & Hd & Hout & Hh' & Hk).
  exists s'. split; [done|]. split; [done|]. split; [done|]. exists (plug K (del_frame f)). split; [|split].
  - apply (replace_hole (s_heap s) _ K (plug1 f u) _ (frame_obj f :: objects u)); [done| |done|done| |].
    + rewrite ptr_plug1. by destruct f.
    + intros x. unfold objects. rewrite (cells_plug1 f u), frame_cells_eq. cbn [fmap list_fmap fst app].
      rewrite fmap_app, !elem_of_cons, elem_of_app. tauto.
    + intros x. unfold objects. rewrite (del_frame_cells f), (cells_plug1 f u), frame_cells_eq, app_nil_r. cbn [fmap list_fmap fst app].
      rewrite !fmap_app, !elem_of_cons, !elem_of_app. tauto.
  - rewrite !ptr_plug, ptr_plug1. by destruct K; destruct f.
  - apply (change_path delete_path); [intros; by apply delete_path_cons|done|apply erase_frame_non_null|].
    rewrite erase_plug1. by apply del_frame_erase.
Qed.

Lemma process_get fuel flags root s j parts c :
  document s root j -> SEARCH_MODE flags = false -> DELETE_MODE flags = false ->
  Forall part_ok parts -> parts <> [] -> zlen parts <= MAX_TREE_PATH -> lookup j parts = Some c ->
  process fuel flags root (path_text parts) s = Ret (print (path_text parts ++ str " = " ++ jprint c ++ [LF]) s).
Proof.
  intros (t & Hh & <- & <-) Hns Hnd Hp Hne Hl Hlk. unfold process. rewrite Hns, Hnd.
  rewrite key_and_value_get by (by apply path_no_eq). rewrite splitpath_text by done. rsimpl.
  destruct (walk _ _ _ Hlk) as (K & u & -> & <- & HK & Hc). specialize (Hc Hne).
  destruct (ptr u) as [o|] eqn:Ho; [|by destruct u].
  rewrite (get_walk _ _ _ _ _ Hh HK Hne Ho). rsimpl.
  assert (Hs : print [] s = s) by (destruct s; unfold print; cbn; by rewrite app_nil_r). rewrite Hs.
  do 2 f_equal. by rewrite <- Ho, (print_law _ u (holds_hole _ _ _ Hh)).
Qed.
End Holes.
