(* ===== verification/JsonHeap.v ===== *)
(** * A heap of JSON objects

    An implementation of the interface the JSON editor assumes of json-c: the heap is a
    list of nodes, an object its index, and nothing is ever freed.  It shows that the
    laws can hold, and makes the editor executable. *)

From S2P Require Import Prelude CLib JsonConf JsonEdit.

Fixpoint dedup {A} (l : list (list Z * A)) : list (list Z * A) :=
  match l with
  | [] => []
  | (k, v) :: r => (k, v) :: filter (fun e => e.1 <> k) (dedup r)
  end.
Definition norm (n : node nat) : node nat := match n with NObject l => NObject (dedup l) | _ => n end.
Notation nodes := (list (node nat)).
Definition node_at (h : nodes) (o : nat) : node nat := norm (nth o h (NOther [])).

Fixpoint separated (l : list (list Z)) : list Z :=
  match l with
  | [] => [32]
  | [x] => 32 :: x ++ [32]
  | x :: r => 32 :: x ++ 44 :: separated r
  end.
Definition show_string (s : list Z) : list Z := QUOTE :: s ++ [QUOTE].
Definition show_array (l : list (list Z)) : list Z := 91 :: separated l ++ [93].
Definition show_object (l : list (list Z * list Z)) : list Z :=
  123 :: separated (map (fun e => show_string e.1 ++ [58; 32] ++ e.2) l) ++ [125].
Fixpoint show_json (j : json) : list Z :=
  match j with
  | JNull => str "null"
  | JString s => show_string s
  | JOther x => x
  | JArray l => show_array (map show_json l)
  | JObject l => show_object (map (fun e => (e.1, show_json e.2)) l)
  end.
Fixpoint show (fuel : nat) (h : nodes) (o : option nat) : list Z :=
  match fuel, o with
  | _, None => str "null"
  | O, Some _ => []
  | S fuel', Some a =>
      match node_at h a with
      | NString s => show_string s
      | NOther x => x
      | NArray l => show_array (map (show fuel' h) l)
      | NObject l => show_object (map (fun e => (e.1, show fuel' h e.2)) l)
      end
  end.

#[export] Instance list_heap : JsonC := {|
  heap := nodes;
  obj := nat;
  node_of := node_at;
  json_object_to_json_string h o := show (S (length h)) h o;
  json_object_new_string h s := (h ++ [NString s], length h);
  json_object_new_array h := (h ++ [NArray []], length h);
  json_object_new_object h := (h ++ [NObject []], length h);
  json_tokener_parse h s := None;
  json_object_array_put_idx h o i v :=
    match node_at h o with NArray l => <[o := NArray (<[Z.to_nat i := v]> l)]> h | _ => h end;
  json_object_object_add h o key v :=
    match node_at h o with
    | NObject l => <[o := NObject (remove_key key l ++ [(key, v)])]> h
    | _ => h
    end;
  json_object_object_del h o key :=
    match node_at h o with NObject l => <[o := NObject (remove_key key l)]> h | _ => h end;
  json_object_put h _ := h;
  set_array h o l := <[o := NArray l]> h;
|}.

(** ** The laws *)

Lemma dedup_keys {A} (l : list (list Z * A)) : NoDup (dedup l).*1.
Proof.
  induction l as [|[k v] l IH]; cbn; [constructor|]. constructor.
  - intros H. apply list_elem_of_fmap in H as ([k' v'] & E & H). apply list_elem_of_filter in H as [Hk _]. cbn in *. by subst.
  - clear v. induction (dedup l) as [|[k' w] r IHr]; [constructor|]. cbn in IH. apply NoDup_cons in IH as [Hn IH].
    rewrite filter_cons. case_decide; [|by apply IHr]. cbn. constructor; [|by apply IHr].
    intros Hx. apply Hn. apply list_elem_of_fmap in Hx as (e & E & Hx). apply list_elem_of_filter in Hx as [_ Hx].
    apply list_elem_of_fmap. by exists e.
Qed.
Lemma dedup_id {A} (l : list (list Z * A)) : NoDup l.*1 -> dedup l = l.
Proof.
  induction l as [|[k v] l IH]; cbn; [done|]. intros H. apply NoDup_cons in H as [Hn H]. rewrite IH by done. f_equal.
  clear IH H. induction l as [|[k' w] l IH]; [done|]. cbn in Hn. rewrite not_elem_of_cons in Hn.
  rewrite filter_cons. rewrite decide_True by (cbn; intros ->; by destruct Hn). by rewrite IH by apply Hn.
Qed.
Lemma remove_key_sub {A} key (l : list (list Z * A)) : (remove_key key l).*1 `sublist_of` l.*1.
Proof.
  induction l as [|[k v] l IH]; cbn; [constructor|]. destruct (streq k key); [by apply sublist_cons|by apply sublist_skip].
Qed.
Lemma remove_key_keys {A} key (l : list (list Z * A)) : NoDup l.*1 -> NoDup (remove_key key l).*1.
Proof. intros H. eapply sublist_NoDup; [exact H|apply remove_key_sub]. Qed.
Lemma remove_key_absent {A} key (l : list (list Z * A)) : assoc l key = None -> remove_key key l = l.
Proof. induction l as [|[k v] l IH]; cbn; [done|]. destruct (streq k key); [done|]. intros H. by rewrite IH. Qed.
Lemma assoc_none_key {A} key (l : list (list Z * A)) : assoc l key = None -> key ∉ l.*1.
Proof.
  induction l as [|[k v] l IH]; cbn; [intros _; apply not_elem_of_nil|]. destruct (streq k key) eqn:E; [done|]. intros H.
  apply streq_false in E. rewrite not_elem_of_cons. split; [congruence|by apply IH].
Qed.
Lemma node_at_keys h o l : node_at h o = NObject l -> NoDup l.*1.
Proof. unfold node_at. destruct (nth o h (NOther [])); cbn; intros [= <-]. apply dedup_keys. Qed.

Lemma node_at_insert_eq h o n : (o < length h)%nat -> node_at (<[o := n]> h) o = norm n.
Proof. intros H. unfold node_at. f_equal. apply nth_lookup_Some. by apply list_lookup_insert_eq. Qed.
Lemma node_at_insert_ne h o o' n : o' <> o -> node_at (<[o := n]> h) o' = node_at h o'.
Proof. intros H. unfold node_at. f_equal. rewrite !nth_lookup. by rewrite list_lookup_insert_ne. Qed.
Lemma node_at_app h n o : (o < length h)%nat -> node_at (h ++ [n]) o = node_at h o.
Proof. intros H. unfold node_at. by rewrite app_nth1. Qed.
Lemma node_at_last h n : node_at (h ++ [n]) (length h) = norm n.
Proof. unfold node_at. by rewrite app_nth2, Nat.sub_diag by lia. Qed.

Lemma foldr_max_in x l : x ∈ l -> (x <= foldr Nat.max 0%nat l)%nat.
Proof. induction 1; cbn; lia. Qed.
(** An update of one object is all that changes. *)
Lemma insert_keeps (h : nodes) o n (gone : list nat) : o ∈ gone -> forall o', (o' < length h)%nat -> o' ∉ gone ->
  (o' < length (<[o := n]> h))%nat /\ node_at (<[o := n]> h) o' = node_at h o'.
Proof.
  intros Ho o' Hl Hg. rewrite length_insert. split; [done|]. apply node_at_insert_ne. by intros ->.
Qed.

Definition held (h : nodes) (t : @tree list_heap) : Prop :=
  NoDup (objects t) /\ Forall (fun x => (x.1 < length h)%nat /\ node_at h x.1 = x.2) (cells t).

Lemma held_child (h : nodes) f u : held h (plug1 f u) -> held h u.
Proof.
  unfold held, objects. rewrite (cells_plug1 f u), fmap_app. intros [Hn Hf].
  apply NoDup_app in Hn as (_ & _ & Hn). by apply Forall_app in Hf as [_ Hf].
Qed.
Fixpoint depth (t : @tree list_heap) : nat :=
  match t with
  | TNull => 0
  | TString _ _ | TOther _ _ => 1
  | TArray _ l => S (foldr Nat.max 0%nat (map depth l))
  | TObject _ l => S (foldr Nat.max 0%nat (map (fun e => depth e.2) l))
  end.
Lemma max_concat {A B} (d : A -> nat) (c : A -> list B) (H : forall x, (d x <= length (c x))%nat) l :
  (foldr Nat.max 0%nat (map d l) <= length (concat (map c l)))%nat.
Proof. induction l as [|x l IH]; cbn; [lia|]. rewrite length_app. pose proof (H x). lia. Defined.
Fixpoint depth_cells (t : @tree list_heap) : (depth t <= length (cells t))%nat :=
  match t with
  | TNull => le_n _
  | TString _ _ | TOther _ _ => le_n _
  | TArray _ l => le_n_S _ _ (max_concat depth cells depth_cells l)
  | TObject _ l => le_n_S _ _ (max_concat (fun e : list Z * tree => depth e.2) (fun e => cells e.2) (fun e => depth_cells e.2) l)
  end.
Lemma nodup_below (l : list nat) n : NoDup l -> (forall x, x ∈ l -> (x < n)%nat) -> (length l <= n)%nat.
Proof.
  intros Hn Hl. rewrite <- (length_seq n 0). apply submseteq_length, NoDup_submseteq; [done|].
  intros x Hx. apply elem_of_seq. specialize (Hl x Hx). lia.
Qed.
Lemma held_depth (h : nodes) t : held h t -> (depth t <= length h)%nat.
Proof.
  intros [Hn Hf]. etransitivity; [apply depth_cells|]. rewrite <- (length_fmap fst). apply nodup_below; [done|].
  intros o Ho. apply list_elem_of_fmap in Ho as (x & -> & Hx). rewrite Forall_forall in Hf. by destruct (Hf _ Hx).
Qed.
Lemma show_held (h : nodes) fuel : forall t, held h t -> (depth t <= fuel)%nat -> show fuel h (ptr t) = show_json (erase t).
Proof.
  induction fuel as [|fuel IH]; intros t Hh Hd; [destruct t; cbn in Hd; (done || lia)|].
  destruct t as [|o x|o x|o l|o l]; cbn [ptr show]; [done|..]; pose proof (proj2 Hh) as Hc; cbn [cells] in Hc;
    apply Forall_cons in Hc as [[_ Hn] _]; cbn [fst snd] in Hn; rewrite Hn; [done..| |]; cbn [erase show_json]; f_equal; rewrite !map_map;
    apply map_ext_in; intros c Hc; apply list_elem_of_In in Hc.
  - cbn [depth] in Hd. assert (Hle : (depth c <= foldr Nat.max 0%nat (map depth l))%nat).
    { apply foldr_max_in, (list_elem_of_fmap_2 depth), Hc. }
    apply IH; [|lia]. apply list_elem_of_split in Hc as (l1 & l2 & ->). by apply (held_child h (FArr o l1 l2)).
  - cbn [depth] in Hd. assert (Hle : (depth c.2 <= foldr Nat.max 0%nat (map (fun e => depth e.2) l))%nat).
    { apply foldr_max_in, (list_elem_of_fmap_2 (fun e : list Z * tree => depth e.2)), Hc. }
    cbn [fst snd]. f_equal. apply IH; [|lia]. destruct c as [k c]. apply list_elem_of_split in Hc as (l1 & l2 & ->). by apply (held_child h (FObj o l1 k l2)).
Qed.

Lemma list_print (h : nodes) (t : @tree list_heap) : held h t -> json_object_to_json_string h (ptr t) = show_json (erase t).
Proof. intros Hh. pose proof (held_depth h t Hh). apply show_held; [done|lia]. Qed.

Lemma norm_entries (l : list (list Z * option nat)) : NoDup l.*1 -> norm (NObject l) = NObject l.
Proof. intros H. cbn. by rewrite dedup_id. Qed.
(** An object is given another node: the shape of four of the laws. *)
Lemma insert_law (h : nodes) o n (gone : list nat) : (o < length h)%nat -> norm n = n -> o ∈ gone ->
  (o < length (<[o := n]> h))%nat /\ node_at (<[o := n]> h) o = n /\
  forall o', (o' < length h)%nat -> o' ∉ gone -> (o' < length (<[o := n]> h))%nat /\ node_at (<[o := n]> h) o' = node_at h o'.
Proof.
  intros Ho Hn Hg. split; [by rewrite length_insert|]. split; [by rewrite node_at_insert_eq|]. by apply insert_keeps.
Qed.
Lemma app_law (h : nodes) n : norm n = n ->
  ~ (length h < length h)%nat /\ (length h < length (h ++ [n]))%nat /\ node_at (h ++ [n]) (length h) = n /\
  forall o, (o < length h)%nat -> o ∉ ([] : list nat) -> (o < length (h ++ [n]))%nat /\ node_at (h ++ [n]) o = node_at h o.
Proof.
  intros Hn. rewrite length_app. cbn. split; [lia|]. split; [lia|]. split; [by rewrite node_at_last|].
  intros o Ho _. split; [lia|by apply node_at_app].
Qed.
Lemma snoc_keys (l : list (list Z * option nat)) key v : NoDup l.*1 -> assoc l key = None -> NoDup (l ++ [(key, v)]).*1.
Proof.
  intros Hn Ha. rewrite fmap_app. apply NoDup_app. split; [done|]. split; [|apply NoDup_singleton].
  intros x Hx Hk. apply list_elem_of_singleton in Hk as ->. by apply (assoc_none_key _ _ Ha).
Qed.

#[export] Instance list_heap_laws : @JsonCLaws list_heap.
Proof.
  refine (@Build_JsonCLaws list_heap (fun (h : nodes) (o : nat) => (o < length h)%nat) show_json _ _ _ _ _ _ _ _).
  - intros h o l _. apply node_at_keys.
  - intros h t Hh. by apply list_print.
  - intros h s. by apply app_law.
  - intros h o l i c v _ Ho _ Hn _ _. cbn in *. rewrite Hn. apply insert_law; [done..|left].
  - intros h o l key v Ho Hn Ha. cbn in *. rewrite Hn, remove_key_absent by done. pose proof (node_at_keys _ _ _ Hn) as Hk.
    apply insert_law; [done| |left]. by apply norm_entries, snoc_keys.
  - intros h o l key c _ Ho _ Hn _. cbn in *. rewrite Hn. pose proof (node_at_keys _ _ _ Hn) as Hk.
    apply insert_law; [done| |left]. by apply norm_entries, remove_key_keys.
  - intros h c _ o Ho _. done.
  - intros h o l l' Ho Hn. cbn in *. apply insert_law; [done..|left].
Defined.

(** ** A document *)

(** [{"net": {"ip": "1.2.3.4", "dns": ["8.8.8.8", "9.9.9.9"]}, "up": "yes"}] *)
Definition sample : json :=
  JObject [(str "net", JObject [(str "ip", JString (str "1.2.3.4"));
                                (str "dns", JArray [JString (str "8.8.8.8"); JString (str "9.9.9.9")])]);
           (str "up", JString (str "yes"))].
Definition sample_heap : nodes :=
  [NObject [(str "net", Some 1%nat); (str "up", Some 6%nat)];
   NObject [(str "ip", Some 2%nat); (str "dns", Some 3%nat)];
   NString (str "1.2.3.4"); NArray [Some 4%nat; Some 5%nat]; NString (str "8.8.8.8"); NString (str "9.9.9.9");
   NString (str "yes")].
Definition sample_tree : @tree list_heap :=
  @TObject list_heap 0%nat
    [(str "net", @TObject list_heap 1%nat
        [(str "ip", @TString list_heap 2%nat (str "1.2.3.4"));
         (str "dns", @TArray list_heap 3%nat [@TString list_heap 4%nat (str "8.8.8.8"); @TString list_heap 5%nat (str "9.9.9.9")])]);
     (str "up", @TString list_heap 6%nat (str "yes"))].
Definition sample_file (file : list Z) : option (@heap list_heap * option (@obj list_heap)) := Some (sample_heap, Some 0%nat).
Lemma sample_holds : held sample_heap sample_tree.
Proof.
  split; [apply (bool_decide_unpack _); vm_compute; exact I|].
  repeat (apply Forall_cons; split; [split; [apply Nat.ltb_lt; reflexivity|reflexivity]|]). apply Forall_nil; done.
Qed.
