(* ===== verification/JsonMain.v ===== *)
(** * The JSON editor from its command line

    What [conf_main] prints and saves, as a function of the document alone, and the
    cases it does not serve: paths of one part, and values that are not there yet. *)

From S2P Require Import Prelude CLib CFormat JsonConf JsonEdit JsonHeap.

(** ** Searching *)

(** How a child is reached from its container. *)
Inductive step : Type := Idx (i : Z) | Key (k : list Z).
Definition step_text (x : step) : list Z := match x with Idx i => print_d i | Key k => k end.
Definition is_null (j : json) : bool := match j with JNull => true | _ => false end.
(** All descendants in the order of the text: the path of the container, the step, the
    document there. *)
Fixpoint descendants (path : list (list Z)) (j : json) : list (list (list Z) * step * json) :=
  match j with
  | JArray l =>
      (fix go (i : Z) (l : list json) : list (list (list Z) * step * json) :=
         match l with
         | [] => []
         | c :: r => (if is_null c then [] else (path, Idx i, c) :: descendants (path ++ [print_d i]) c) ++ go (i + 1) r
         end) 0 l
  | JObject l =>
      (fix go (l : list (list Z * json)) : list (list (list Z) * step * json) :=
         match l with
         | [] => []
         | (k, c) :: r => (if is_null c then [] else (path, Key k, c) :: descendants (path ++ [k]) c) ++ go r
         end) l
  | _ => []
  end.
(** [p] is somewhere in [s]. *)
Definition contains (s p : list Z) : bool :=
  existsb (fun i => bool_decide (take (length p) (drop i s) = p)) (seq 0 (S (length s))).
(** An index is found by its number, a name by a part of it. *)
Definition found (ignore_case : bool) (key : list Z) (x : step) : bool :=
  match x with
  | Idx i => i =? match index_of key with Some v => s32 v | None => -1 end
  | Key k => if ignore_case then contains (map tolower k) (map tolower key) else contains k key
  end.
Fixpoint levels (j : json) : nat :=
  match j with
  | JArray l => S (foldr Nat.max 0%nat (map levels l))
  | JObject l => S (foldr Nat.max 0%nat (map (fun e => levels e.2) l))
  | _ => 1%nat
  end.

Lemma strstr_contains s p : bool_decide (is_Some (strstr s p)) = contains s p.
Proof.
  assert (Hp : forall s, has_prefix p s = bool_decide (take (length p) s = p)).
  { intros t. destruct (has_prefix p t) eqn:E; symmetry; [apply bool_decide_eq_true|apply bool_decide_eq_false].
    - apply has_prefix_true in E as [r ->]. by rewrite take_app_length.
    - intros Ht. rewrite <- (take_drop (length p) t), Ht, has_prefix_app in E. done. }
  induction s as [|c s IH]; cbn [strstr]; rewrite Hp.
  - unfold contains. cbn [length seq existsb drop]. by destruct (bool_decide (take _ [] = p)).
  - unfold contains in *. change (seq 0 (S (length (c :: s)))) with (0%nat :: seq 1 (S (length s))).
    rewrite <- seq_shift. cbn [existsb drop].
    destruct (bool_decide (take _ (c :: s) = p)); [done|]. rewrite IH. cbn [orb].
    generalize (seq 0 (S (length s))). intros l. induction l as [|i l IHl]; [done|]. cbn. by rewrite IHl.
Qed.
Lemma key_matches_found ic k key : key_matches ic k key = found ic key (Key k).
Proof. unfold key_matches, strcasestr, found. destruct ic; apply strstr_contains. Qed.

Section Main.
Context {JC : JsonC} {JL : JsonCLaws}.
Implicit Types (flags : conf_flags) (s : state).

Definition hit_text (x : list (list Z) * step * json) : list Z :=
  print_path x.1.1 ++ step_text x.1.2 ++ str ": " ++ jprint x.2 ++ [LF].
(** What a search prints. *)
Definition search_text (ignore_case : bool) (key : list Z) (path : list (list Z)) (j : json) : list Z :=
  concat (map hit_text (filter (fun x => found ignore_case key x.1.2 = true) (descendants path j))).

Lemma search_cons ic key path x c rest :
  concat (map hit_text (filter (fun x => found ic key x.1.2 = true) ((path, x, c) :: rest))) =
  (if found ic key x then hit_text (path, x, c) else []) ++ concat (map hit_text (filter (fun x => found ic key x.1.2 = true) rest)).
Proof. rewrite filter_cons. cbn [fst snd]. destruct (found ic key x); case_decide; done. Qed.
Lemma search_app ic key a b :
  concat (map hit_text (filter (fun x => found ic key x.1.2 = true) (a ++ b))) =
  concat (map hit_text (filter (fun x => found ic key x.1.2 = true) a)) ++
  concat (map hit_text (filter (fun x => found ic key x.1.2 = true) b)).
Proof. by rewrite filter_app, map_app, concat_app. Qed.

Lemma holds_child h f u : holds h (plug1 f u) -> holds h u.
Proof. apply (holds_hole h [f] u). Qed.
Lemma erase_null t : is_null (erase t) = match ptr t with None => true | Some _ => false end.
Proof. by destruct t. Qed.
Lemma foldr_max_le x l : x ∈ l -> (x <= foldr Nat.max 0%nat l)%nat.
Proof. induction 1; cbn; lia. Qed.

Lemma find_search ic key h fuel : forall t path, holds h t -> (levels (erase t) <= fuel)%nat ->
  zlen path + Z.of_nat (levels (erase t)) <= MAX_TREE_PATH + 1 ->
  find fuel ic h (ptr t) key path = Ret (search_text ic key path (erase t)).
Proof.
  induction fuel as [|fuel IH]; intros t path Hh Hf Hp; [destruct t; cbn in Hf; lia|].
  destruct t as [|o x|o x|o l|o l]; cbn [find ptr].
  - done.
  - unfold array_of, object_of. by rewrite (holds_top h _ o Hh eq_refl).
  - unfold array_of, object_of. by rewrite (holds_top h _ o Hh eq_refl).
  - unfold array_of. rewrite (holds_top h _ o Hh eq_refl). cbn [top].
    unfold search_text. cbn [erase descendants].
    assert (Hsub : forall c, c ∈ l -> holds h c /\ (levels (erase c) <= fuel)%nat /\ zlen path + 1 + Z.of_nat (levels (erase c)) <= MAX_TREE_PATH + 1).
    { intros c Hc. apply list_elem_of_split in Hc as (l1 & l2 & ->). split; [by apply (holds_child h (FArr o l1 l2))|].
      cbn [erase levels] in Hf, Hp. assert (Hle : (levels (erase c) <= foldr Nat.max 0%nat (map levels (map erase (l1 ++ c :: l2))))%nat).
      { apply foldr_max_le. rewrite map_map, map_app. apply elem_of_app. right. left. }
      lia. }
    clear Hh Hf Hp. generalize 0. induction l as [|c l IHl]; intros i; [done|]. cbn [map each].
    destruct (Hsub c) as (Hc & Hl & Hlev); [left|]. rewrite erase_null.
    destruct (ptr c) as [a|] eqn:Ea.
    + assert (Hpos : (1 <= levels (erase c))%nat) by (destruct c; cbn; lia).
      assert (Hrest := IHl (fun c' Hc' => Hsub c' (list_elem_of_further _ _ _ Hc')) (i + 1)).
      rewrite (proj2 (Z.leb_gt MAX_TREE_PATH (zlen path))) in Hrest |- * by lia. rewrite <- Ea.
      rewrite IH; [|done|done|rewrite zlen_app, zlen_cons, zlen_nil; lia]. rsimpl.
      rewrite Hrest. rsimpl. f_equal.
      rewrite search_app, search_cons. do 2 f_equal. cbn [found].
      destruct (i =? _); [|done]. unfold hit_text. cbn [fst snd step_text]. by rewrite (print_law h c Hc).
    + rsimpl. by rewrite IHl by (intros c' Hc'; apply Hsub; by right).
  - unfold array_of, object_of. rewrite (holds_top h _ o Hh eq_refl). cbn [top].
    unfold search_text. cbn [erase descendants].
    assert (Hsub : forall e, e ∈ l -> holds h e.2 /\ (levels (erase e.2) <= fuel)%nat /\ zlen path + 1 + Z.of_nat (levels (erase e.2)) <= MAX_TREE_PATH + 1).
    { intros [k c] Hc. apply list_elem_of_split in Hc as (l1 & l2 & ->). split; [by apply (holds_child h (FObj o l1 k l2))|].
      cbn [erase levels] in Hf, Hp. assert (Hle : (levels (erase c) <= foldr Nat.max 0%nat (map (fun e => levels e.2) (map (fun e => (e.1, erase e.2)) (l1 ++ (k, c) :: l2))))%nat).
      { apply foldr_max_le. rewrite map_map, map_app. apply elem_of_app. right. left. }
      cbn [snd]. lia. }
    clear Hh Hf Hp. generalize 0. induction l as [|[k c] l IHl]; intros i; [done|]. cbn [map each fst snd].
    destruct (Hsub (k, c)) as (Hc & Hl & Hlev); [left|]. cbn [snd] in Hc, Hl, Hlev. rewrite erase_null.
    destruct (ptr c) as [a|] eqn:Ea.
    + assert (Hpos : (1 <= levels (erase c))%nat) by (destruct c; cbn; lia).
      assert (Hrest := IHl (fun c' Hc' => Hsub c' (list_elem_of_further _ _ _ Hc')) (i + 1)).
      rewrite (proj2 (Z.leb_gt MAX_TREE_PATH (zlen path))) in Hrest |- * by lia. rewrite <- Ea.
      rewrite IH; [|done|done|rewrite zlen_app, zlen_cons, zlen_nil; lia]. rsimpl.
      rewrite Hrest. rsimpl. f_equal.
      rewrite search_app, search_cons. rewrite key_matches_found. do 2 f_equal.
      destruct (found ic key (Key k)); [|done]. unfold hit_text. cbn [fst snd step_text]. by rewrite (print_law h c Hc).
    + rsimpl. by rewrite IHl by (intros c' Hc'; apply Hsub; by right).
Qed.


(** The file holds the document [j]. *)
Definition loads (from_file : list Z -> option (heap * option obj)) (file : list Z) (j : json) : Prop :=
  exists h t, from_file file = Some (h, ptr t) /\ holds h t /\ erase t = j.

Lemma document_print h b o root j t : document (mkState h b o) root j -> document (mkState h b t) root j.
Proof. done. Qed.
Lemma document_text s root j : document s root j -> json_object_to_json_string (s_heap s) root = jprint j.
Proof. intros (t & Hh & <- & <-). by apply print_law. Qed.
(** With a path of one part there is no parent to set the value in. *)
Lemma process_set_top fuel flags root s j part value c : document s root j -> SEARCH_MODE flags = false -> DELETE_MODE flags = false ->
  part_ok part -> lookup j [part] = Some c ->
  exists s', process fuel flags root (part ++ 61 :: value) s = Ret s' /\ DIRTY_DATA s' = DIRTY_DATA s /\ s_out s' = s_out s /\ document s' root j.
Proof.
  intros (t & Hh & <- & <-) Hs Hdel Hp Hlk. destruct (walk _ _ _ Hlk) as (K & u & -> & <- & HK & Hc). specialize (Hc ltac:(done)).
  destruct (ptr u) as [o|] eqn:Ho; [|by destruct u].
  assert (Hp1 : Forall part_ok [part]) by (by constructor).
  pose proof (path_no_eq _ Hp1) as Hne. cbn [path_text] in Hne.
  pose proof (splitpath_text [part] ltac:(done) Hp1 ltac:(vm_compute; discriminate)) as Hsp. cbn [path_text] in Hsp.
  unfold process. rewrite Hs, Hdel, key_and_value_set, Hsp by done. rsimpl. rewrite (get_walk (s_heap s) K u [part] o Hh HK ltac:(done) Ho). rsimpl.
  cbn [length Nat.ltb Nat.leb]. exists (print [] s). split.
  - unfold set_value. cbn [print s_heap]. by destruct (node_of (s_heap s) o) as [?|?|[|]|[|]].
  - cbn [print DIRTY_DATA s_out]. rewrite app_nil_r. split_and!; [done..|]. exists (plug K u). by split_and!.
Qed.
Lemma split_front {A} (parts : list A) : (2 <= length parts)%nat -> exists front last, parts = front ++ [last] /\ front <> [].
Proof.
  intros H. destruct (exists_last (l := parts)) as (front & last & ->); [intros ->; cbn in H; lia|]. exists front, last. split; [done|].
  rewrite length_app in H. cbn in H. by destruct front; [cbn in H; lia|].
Qed.

(** What [get] finds is in the document. *)
Lemma non_null_ptr t o : ptr t = Some o -> non_null (erase t) = Some (erase t).
Proof. by destruct t. Qed.
Lemma get_lookup h parts : forall t, holds h t -> parts <> [] ->
  match get h (ptr t) parts with
  | Ret (Some _, _, _) => is_Some (lookup (erase t) parts)
  | Ret (None, _, _) => True
  | NoFuel => False
  | Undef => True
  end.
Proof.
  induction parts as [|part rest IH]; intros t Hh Hne; [done|]. cbn [get lookup].
  assert (Hgo : forall u o out, ptr u = Some o -> holds h u -> child (erase t) part = Some (erase u) ->
    match match rest with
          | [] => Ret (Some o, [o], out)
          | _ => y ← get h (Some o) rest; let '(r, objs, out') := y in Ret (r, o :: objs, out ++ out')
          end with
    | Ret (Some _, _, _) => is_Some (c ← child (erase t) part; lookup c rest)
    | Ret (None, _, _) => True
    | NoFuel => False
    | Undef => True
    end).
  { intros u o out Ho Hu Hc. rewrite Hc. cbn [mbind option_bind]. destruct rest as [|p2 rest]; [by eexists|].
    specialize (IH u Hu ltac:(done)). rewrite Ho in IH. destruct (get h (Some o) (p2 :: rest)) as [[[[r|] objs] out']| |]; rsimpl; done. }
  destruct t as [|o x|o x|o l|o l]; cbn [ptr].
  - done.
  - unfold array_of, object_of. by rewrite (holds_top h _ o Hh eq_refl).
  - unfold array_of, object_of. by rewrite (holds_top h _ o Hh eq_refl).
  - unfold array_of. rewrite (holds_top h _ o Hh eq_refl). cbn [top].
    destruct (index_of part) as [v|] eqn:Ei; [|done]. unfold json_object_array_get_idx. destruct (Z.ltb_spec (s32 (u32 v)) 0); [done|]. rsimpl.
    change (map ptr l) with (ptr <$> l). rewrite list_lookup_fmap. destruct (l !! Z.to_nat (s32 (u32 v))) as [u|] eqn:Eu; [|done].
    cbn [fmap option_fmap option_map from_option id]. destruct (ptr u) as [a|] eqn:Ea; [|done]. rsimpl. apply (Hgo u); [done| |].
    + apply list_elem_of_split_length in Eu as (l1 & l2 & -> & _). by apply (holds_child h (FArr o l1 l2)).
    + cbn [erase child]. unfold array_index. rewrite Ei. cbn [fmap option_fmap option_map mbind option_bind].
      rewrite (proj2 (Z.ltb_ge _ 0)) by done. change (map erase l) with (erase <$> l). rewrite list_lookup_fmap, Eu. cbn.
      by eapply non_null_ptr.
  - unfold array_of, object_of. rewrite (holds_top h _ o Hh eq_refl). cbn [top].
    rsimpl. unfold json_object_object_get. rewrite assoc_map. destruct (assoc l part) as [u|] eqn:Eu; [|done].
    cbn [fmap option_fmap option_map from_option id]. destruct (ptr u) as [a|] eqn:Ea; [|done]. apply (Hgo u); [done| |].
    + destruct (assoc_split _ _ _ Eu) as (l1 & l2 & -> & _). by apply (holds_child h (FObj o l1 part l2)).
    + cbn [erase child]. rewrite assoc_map, Eu. cbn. by eapply non_null_ptr.
Qed.

(** [create] leaves the flag alone. *)
Lemma create_clean fuel parts objs value : forall level s,
  (Z.to_nat MAX_TREE_PATH - level < fuel)%nat ->
  match create fuel parts objs value level s with
  | Ret (_, s') => DIRTY_DATA s' = DIRTY_DATA s
  | NoFuel => False
  | Undef => True
  end.
Proof.
  induction fuel as [|fuel IH]; intros level s Hf; [lia|]. cbn [create]. unfold part_at.
  destruct (Z.ltb_spec (Z.of_nat level) MAX_TREE_PATH) as [Hl|]; [|done]. rsimpl.
  destruct (parts !! level) as [part|]; [|done].
  specialize (IH (S level) s). unfold MAX_TREE_PATH in *. specialize (IH ltac:(lia)).
  destruct (create fuel parts objs value (S level) s) as [[child s1]| |]; rsimpl; [|done..]. rewrite <- IH.
  destruct child as [c|].
  - destruct (obj_at objs level) as [o|]; [destruct (node_of _ o); try done; by destruct (0 <=? _)|].
    destruct (0 <=? _); cbn; [by destruct (json_object_new_array _)|by destruct (json_object_new_object _)].
  - cbn [print s_heap]. destruct (json_tokener_parse _ value) as [[h o]|]; [done|]. by destruct (json_object_new_string _ value).
Qed.
End Main.

(** ** Properties *)

(** C36: Setting a value that is there and reading it back, [conf path=value path]: with a
    path of two parts or more the string just set is printed, and the file saved is the
    document with that string at the path and everything else as it was (in an object the
    entry moves to the end).  With a path of one part nothing is set: the old value is
    printed and nothing is saved.  (The value there is no array or object with entries.) *)
Theorem conf_set_get {JC : JsonC} {JL : JsonCLaws} from_file file j parts c value fuel :
  loads from_file file j -> Forall part_ok parts -> parts <> [] -> zlen parts <= MAX_TREE_PATH ->
  lookup j parts = Some c -> settable c ->
  let nested := (2 <=? length parts)%nat in
  conf_main from_file fuel [Opt_f file] [path_text parts ++ 61 :: value; path_text parts] =
  Ret (mkConfResult 0 (path_text parts ++ str " = " ++ jprint (if nested then JString value else c) ++ [LF])
         (if nested then Some (file, jprint (set_path j parts value)) else None)).
Proof.
  intros (h & t & Hfile & Hh & Hj) Hp Hpn Hmax Hlk Hset nested.
  assert (Hd : document (mkState h false []) (ptr t) j) by (by exists t).
  unfold conf_main. cbn [foldl conf_do_opt conf_flags0]. rewrite Hfile. cbn [ALLOW_MULTI processes].
  unfold nested. destruct (Nat.leb_spec 2 (length parts)) as [Hlen|Hlen].
  - destruct (split_front parts Hlen) as (front & last & -> & Hne).
    destruct (process_set fuel (mkFlags true false false false false) (ptr t) _ j front last value c Hd eq_refl eq_refl Hp Hne Hmax Hlk Hset)
      as (s1 & -> & Hdirty & Hout & Hd1 & Hlk1). rsimpl.
    rewrite (process_get fuel (mkFlags true false false false false) (ptr t) s1 _ (front ++ [last]) _ Hd1 eq_refl eq_refl Hp ltac:(by destruct front) Hmax Hlk1). rsimpl.
    cbn [STDOUT_RESULT print DIRTY_DATA s_out s_heap]. rewrite Hdirty, Hout, (document_text _ _ _ Hd1). done.
  - destruct parts as [|part [|]]; [done| |cbn in Hlen; lia]. cbn [path_text] in *.
    destruct (process_set_top fuel (mkFlags true false false false false) (ptr t) _ j part value c Hd eq_refl eq_refl (Forall_inv Hp) Hlk)
      as (s1 & -> & Hdirty & Hout & Hd1). rsimpl.
    pose proof (process_get fuel (mkFlags true false false false false) (ptr t) s1 _ [part] _ Hd1 eq_refl eq_refl Hp Hpn Hmax Hlk) as Hg.
    cbn [path_text] in Hg. rewrite Hg. rsimpl.
    cbn [STDOUT_RESULT print DIRTY_DATA s_out s_heap]. rewrite Hdirty, Hout. done.
Qed.

(** [conf -D path] saves the document without the entry at the path, and prints
    nothing. *)
Theorem conf_delete {JC : JsonC} {JL : JsonCLaws} from_file file j parts c fuel :
  loads from_file file j -> Forall part_ok parts -> (2 <= length parts)%nat -> zlen parts <= MAX_TREE_PATH ->
  lookup j parts = Some c ->
  conf_main from_file fuel [Opt_f file; Opt_D] [path_text parts] =
  Ret (mkConfResult 0 [] (Some (file, jprint (delete_path j parts)))).
Proof.
  intros (h & t & Hfile & Hh & Hj) Hp Hlen Hmax Hlk. destruct (split_front parts Hlen) as (front & last & -> & Hne).
  unfold conf_main. cbn [foldl conf_do_opt conf_flags0]. rewrite Hfile. cbn [ALLOW_MULTI].
  assert (Hd : document (mkState h false []) (ptr t) j) by (by exists t).
  destruct (process_delete fuel (mkFlags false true false false false) (ptr t) _ j front last c Hd eq_refl eq_refl Hp Hne Hmax Hlk)
    as (s1 & -> & Hdirty & Hout & Hd1). rsimpl.
  cbn [STDOUT_RESULT]. rewrite Hdirty, Hout, (document_text _ _ _ Hd1). done.
Qed.

(** [conf -s key], or [conf -i -s key] without regard to case, prints, in the order of the document, one line for every
    descendant whose name contains the key (or whose index is the key), with its path
    and its text, and saves nothing; documents may nest as deep as the path array. *)
Theorem conf_search {JC : JsonC} {JL : JsonCLaws} from_file file j key (ic : bool) fuel :
  loads from_file file j -> Z.of_nat (levels j) <= MAX_TREE_PATH + 1 -> (levels j <= fuel)%nat ->
  conf_main from_file fuel (Opt_f file :: Opt_s :: (if ic then [Opt_i] else [])) [key] =
  Ret (mkConfResult 0 (search_text ic key [] j) None).
Proof.
  intros (h & t & Hfile & Hh & <-) Hl Hf. unfold conf_main. replace (foldl _ _ _) with (mkFlags true false true ic false, file, [] : list Z) by (by destruct ic).
  rewrite Hfile. cbn [ALLOW_MULTI processes]. unfold process. cbn [SEARCH_MODE IGNORE_CASE s_heap].
  rewrite find_search by (done || rewrite zlen_nil; lia). rsimpl. done.
Qed.

(** A path of one part is never changed: setting an existing top-level value saves
    nothing and says nothing, deleting it reports that it was not found. *)
Theorem conf_top_level {JC : JsonC} {JL : JsonCLaws} from_file file j part c value fuel :
  loads from_file file j -> part_ok part -> lookup j [part] = Some c ->
  conf_main from_file fuel [Opt_f file] [part ++ 61 :: value] = Ret (mkConfResult 0 [] None) /\
  conf_main from_file fuel [Opt_f file; Opt_D] [part] =
    Ret (mkConfResult 0 (str "(null) in " ++ part ++ str " not found" ++ [LF]) None).
Proof.
  intros (h & t & Hfile & Hh & <-) Hp Hlk. destruct (walk _ _ _ Hlk) as (K & u & -> & <- & HK & Hc). specialize (Hc ltac:(done)).
  destruct (ptr u) as [o|] eqn:Ho; [|by destruct u].
  assert (Hp1 : Forall part_ok [part]) by (by constructor).
  pose proof (path_no_eq _ Hp1) as Hne. cbn [path_text] in Hne.
  pose proof (splitpath_text [part] ltac:(done) Hp1 ltac:(vm_compute; discriminate)) as Hsp. cbn [path_text] in Hsp.
  pose proof (get_walk h K u [part] o Hh HK ltac:(done) Ho) as Hget.
  unfold conf_main. cbn [foldl conf_do_opt conf_flags0]. rewrite Hfile. cbn [ALLOW_MULTI processes]. unfold process.
  cbn [SEARCH_MODE DELETE_MODE s_heap]. rewrite key_and_value_set, key_and_value_get, Hsp by done. rsimpl. rewrite Hget. rsimpl.
  cbn [length Nat.ltb Nat.leb]. split; [|done]. rsimpl. unfold set_value. cbn [print s_heap].
  destruct (node_of h o) as [?|?|[|]|[|]]; done.
Qed.

(** Values are never created: for a path that leads nowhere in the document,
    [conf path=value] ends without saving anything (or in undefined behaviour, as for
    every path of one part). *)
Theorem conf_never_creates {JC : JsonC} {JL : JsonCLaws} from_file file j parts value fuel :
  loads from_file file j -> Forall part_ok parts -> parts <> [] -> (16 <= fuel)%nat ->
  match conf_main from_file fuel [Opt_f file] [path_text parts ++ 61 :: value] with
  | Ret r => lookup j parts = None -> c_saved r = None
  | NoFuel => False
  | Undef => True
  end.
Proof.
  intros (h & t & Hfile & Hh & <-) Hp Hne Hf.
  unfold conf_main. cbn [foldl conf_do_opt conf_flags0]. rewrite Hfile. cbn [ALLOW_MULTI processes]. unfold process.
  cbn [SEARCH_MODE DELETE_MODE s_heap]. rewrite key_and_value_set by (by apply path_no_eq).
  unfold splitpath. rewrite split_path_text by done. destruct (zlen parts <=? MAX_TREE_PATH); [|done]. rsimpl.
  pose proof (get_lookup h parts t Hh Hne) as Hg. destruct (get h (ptr t) parts) as [[[[c|] objs] out]| |]; rsimpl; [|..|done].
  - set (s1 := set_value _ _ _ _ _). cbn [STDOUT_RESULT]. destruct (DIRTY_DATA s1); intros Hl; rewrite Hl in Hg; by destruct Hg.
  - destruct (length parts <? 2)%nat; [done|]. set (s1 := print _ (print out _)).
    pose proof (create_clean fuel parts objs value 1 s1 ltac:(vm_compute; lia)) as Hc.
    destruct (create fuel parts objs value 1 s1) as [[o s2]| |]; rsimpl; [|done..]. cbn [snd STDOUT_RESULT].
    by rewrite Hc.
  - done.
Qed.

(** ** Instances *)

Lemma sample_loads file : loads (JC := list_heap) sample_file file sample.
Proof. exists sample_heap, sample_tree. split; [done|]. split; [exact sample_holds|done]. Qed.
Definition ip : list (list Z) := [str "net"; str "ip"].

(** The program itself, run on the heap. *)
Example conf_run : conf_main (JC := list_heap) sample_file 20 [] [str "net.ip=10.0.0.1"; str "net.ip"; str "net.dns.1"] =
  Ret (mkConfResult 0 (str "net.ip = " ++ [QUOTE] ++ str "10.0.0.1" ++ [QUOTE; LF] ++
                       str "net.dns.1 = " ++ [QUOTE] ++ str "9.9.9.9" ++ [QUOTE; LF])
         (Some (str "hash.json", show_json (set_path sample ip (str "10.0.0.1"))))).
Proof. vm_compute. reflexivity. Qed.

Lemma conf_set_get_witness :
  conf_main (JC := list_heap) sample_file 0 [Opt_f (str "f")] [str "net.ip=10.0.0.1"; str "net.ip"] =
  Ret (mkConfResult 0 (str "net.ip = " ++ [QUOTE] ++ str "10.0.0.1" ++ [QUOTE; LF])
         (Some (str "f", show_json (set_path sample ip (str "10.0.0.1"))))).
Proof.
  apply (conf_set_get (JC := list_heap) sample_file (str "f") sample ip (JString (str "1.2.3.4")) (str "10.0.0.1") 0 (sample_loads _)).
  - vm_compute. repeat constructor; discriminate.
  - discriminate.
  - vm_compute. discriminate.
  - vm_compute. reflexivity.
  - exact I.
Defined.

Lemma conf_delete_witness :
  conf_main (JC := list_heap) sample_file 0 [Opt_f (str "f"); Opt_D] [str "net.dns.0"] =
  Ret (mkConfResult 0 [] (Some (str "f", show_json (delete_path sample [str "net"; str "dns"; str "0"])))).
Proof.
  apply (conf_delete (JC := list_heap) sample_file (str "f") sample [str "net"; str "dns"; str "0"] (JString (str "8.8.8.8")) 0 (sample_loads _)).
  - vm_compute. repeat constructor; discriminate.
  - vm_compute. lia.
  - vm_compute. discriminate.
  - vm_compute. reflexivity.
Defined.

Lemma conf_search_witness :
  conf_main (JC := list_heap) sample_file 4 [Opt_f (str "f"); Opt_s; Opt_i] [str "1"] =
  Ret (mkConfResult 0 (str "net.dns.1: " ++ [QUOTE] ++ str "9.9.9.9" ++ [QUOTE; LF]) None).
Proof.
  replace (str "net.dns.1: " ++ [QUOTE] ++ str "9.9.9.9" ++ [QUOTE; LF]) with (search_text (JC := list_heap) true (str "1") [] sample)
    by (vm_compute; reflexivity).
  apply (conf_search (JC := list_heap) sample_file (str "f") sample (str "1") true 4 (sample_loads _)).
  - vm_compute. discriminate.
  - vm_compute. lia.
Defined.

Lemma conf_top_level_witness :
  conf_main (JC := list_heap) sample_file 0 [Opt_f (str "f")] [str "up" ++ 61 :: str "no"] = Ret (mkConfResult 0 [] None) /\
  conf_main (JC := list_heap) sample_file 0 [Opt_f (str "f"); Opt_D] [str "up"] =
    Ret (mkConfResult 0 (str "(null) in " ++ str "up" ++ str " not found" ++ [LF]) None).
Proof.
  apply (conf_top_level (JC := list_heap) sample_file (str "f") sample (str "up") (JString (str "yes")) (str "no") 0 (sample_loads _)).
  - vm_compute. repeat constructor; discriminate.
  - vm_compute. reflexivity.
Defined.

Lemma conf_never_creates_witness :
  match conf_main (JC := list_heap) sample_file 16 [Opt_f (str "f")] [path_text [str "net"; str "gw"] ++ 61 :: str "1.1.1.1"] with
  | Ret r => lookup sample [str "net"; str "gw"] = None -> c_saved r = None
  | NoFuel => False
  | Undef => True
  end.
Proof.
  apply (conf_never_creates (JC := list_heap) sample_file (str "f") sample [str "net"; str "gw"] (str "1.1.1.1") 16 (sample_loads _)).
  - vm_compute. repeat constructor; discriminate.
  - discriminate.
  - lia.
Defined.
