(* ===== verification/Ssi.v ===== *)
(** * Server-side includes of the web interface (shttpd's io_ssi_zrouter.c)

    A page is read through a small state machine: text is passed on, a comment
    that starts with [<!--#] is collected in [buf] and executed when it ends.
    [#include] pushes a file on a stack of at most six, [#if], [#elif], [#else]
    and [#endif] set the condition under which text is passed on, and [#call],
    [#exec], [#sysctl] and [#kenv] write into the caller's buffer.

    The rest of shttpd is not in the repository: [_shttpd_snprintf],
    [_shttpd_url_decode], the registered SSI functions and the system are
    parameters.  The log is not modelled; [abort] and a failed [assert] are
    [Undef]. *)

From S2P Require Import Prelude CLib.

Definition CMDBUFSIZ : Z := 512.
Definition NEST_MAX : nat := 6.
Definition FILENAME_MAX : Z := 1024.
Definition DIRSEP : Z := 47.

(** The two anonymous enums. *)
Definition SSI_PASS : Z := 0.
Definition SSI_BUF : Z := 1.
Definition SSI_EXEC : Z := 2.
Definition SSI_CALL : Z := 3.
Definition SSI_SYSCTL : Z := 4.
Definition SSI_KENV : Z := 5.
Definition SSI_GO : Z := 0.
Definition SSI_STOP : Z := 1.

(** [st] *)
Definition st : list Z := str "<!--#".

(** [struct ssi_inc]: [fp] and [pipe] are what is left to read, [None] the null
    pointer. *)
Record ssi_inc := mkInc {
  i_state : Z;
  i_cond : Z;
  i_fp : option (list Z);
  i_buf : list Z;
  i_nbuf : Z;
  i_pipe : option (list Z);
}.
Definition with_state (v : Z) (i : ssi_inc) : ssi_inc :=
  mkInc v (i_cond i) (i_fp i) (i_buf i) (i_nbuf i) (i_pipe i).
Definition with_cond (v : Z) (i : ssi_inc) : ssi_inc :=
  mkInc (i_state i) v (i_fp i) (i_buf i) (i_nbuf i) (i_pipe i).
Definition with_fp (v : option (list Z)) (i : ssi_inc) : ssi_inc :=
  mkInc (i_state i) (i_cond i) v (i_buf i) (i_nbuf i) (i_pipe i).
Definition with_buf (v : list Z) (i : ssi_inc) : ssi_inc :=
  mkInc (i_state i) (i_cond i) (i_fp i) v (i_nbuf i) (i_pipe i).
Definition with_nbuf (v : Z) (i : ssi_inc) : ssi_inc :=
  mkInc (i_state i) (i_cond i) (i_fp i) (i_buf i) v (i_pipe i).
Definition with_pipe (v : option (list Z)) (i : ssi_inc) : ssi_inc :=
  mkInc (i_state i) (i_cond i) (i_fp i) (i_buf i) (i_nbuf i) v.

(** What an SSI function leaves in its [struct shttpd_arg]: the bytes it put at
    [out.buf], and the two flags the code looks at. *)
Record ssi_result := mkResult {
  r_out : list Z;
  r_eval_true : bool;
  r_end_of_output : bool;
}.
Definition no_result : ssi_result := mkResult [] false false.

(** The state: [struct ssi] with what the SSI functions remember. *)
Record ssi (W : Type) := mkSsi {
  nest : nat;
  incs : list ssi_inc;
  world : W;
}.
Arguments mkSsi {W}. Arguments nest {W}. Arguments incs {W}. Arguments world {W}.

(** An SSI function gets its parameter string ([in.buf], null without one) and the
    room in the output buffer. *)
Definition ssi_fun (W : Type) : Type := W -> option (list Z) -> Z -> W * ssi_result.

(** The conversation with the rest of the server and with the system. *)
Record ssi_env (W : Type) := mkEnv {
  e_root : list Z;
  e_uri : list Z;
  e_funcs : list (list Z * ssi_fun W);
  e_snprintf : Z -> list Z -> list Z;
  e_url_decode : list Z -> Z -> list Z * bool;
  e_fopen : list Z -> option (list Z);
  e_popen : list Z -> option (list Z);
  e_sysctl : list Z -> Z -> option (list Z);
  e_kenv : list Z -> Z -> option (list Z);
}.
Arguments mkEnv {W}. Arguments e_root {W}. Arguments e_uri {W}. Arguments e_funcs {W}.
Arguments e_snprintf {W}. Arguments e_url_decode {W}. Arguments e_fopen {W}.
Arguments e_popen {W}. Arguments e_sysctl {W}. Arguments e_kenv {W}.

(** The caller's buffer and the count of bytes put there. *)
Record out := mkOut { o_n : Z; o_buf : list Z }.

(** ** Memory *)

Definition rwrite (o : Z) (d l : list Z) : run (list Z) :=
  match bwrite o d l with Ok l' => Ret l' | _ => Undef end.
Definition rread (o n : Z) (l : list Z) : run (list Z) :=
  match bread o n l with Ok d => Ret d | _ => Undef end.
(** The string at [l], which must end inside the buffer. *)
Definition string_at (l : list Z) : run (list Z) :=
  if bool_decide (0 ∈ l) then Ret (cstr l) else Undef.
(** [memcpy (buf + o, d, length d)], without counting the bytes. *)
Definition put (o : Z) (d : list Z) (w : out) : run out :=
  b ← rwrite o d (o_buf w); Ret (mkOut (o_n w) b).
Definition count (k : Z) (w : out) : out := mkOut (o_n w + k) (o_buf w).

(** ** Registered functions *)

Definition shttpd_register_ssi_func {W} (funcs : list (list Z * ssi_fun W)) (name : list Z)
    (func : ssi_fun W) : list (list Z * ssi_fun W) := funcs ++ [(name, func)].

Fixpoint find_ssi_func {W} (funcs : list (list Z * ssi_fun W)) (name : list Z) : option (ssi_fun W) :=
  match funcs with
  | [] => None
  | (n, f) :: r => if streq name n then Some f else find_ssi_func r name
  end.

(** [trim_spaces]: the buffer with the blanks at the right of the command
    overwritten, and the suffix of it that starts at the attributes. *)
Fixpoint trim_right (k : nat) (b : list Z) : run (list Z) :=
  match k with
  | O => Undef
  | S k' => if isspace (znth b (Z.of_nat k')) then b' ← rwrite (Z.of_nat k') [0] b; trim_right k' b'
            else Ret b
  end.
Fixpoint to_space (l : list Z) : run (list Z) :=
  match l with
  | [] => Undef
  | c :: r => if isspace c then Ret l else to_space r
  end.
Fixpoint over_spaces (l : list Z) : run (list Z) :=
  match l with
  | [] => Undef
  | c :: r => if negb (c =? 0) && isspace c then over_spaces r else Ret l
  end.
Definition trim_spaces (inc : ssi_inc) : run (ssi_inc * list Z) :=
  let p := i_nbuf inc - 2 in
  b ← rwrite p [0] (i_buf inc);
  b ← trim_right (Z.to_nat p) b;
  l ← to_space b;
  l ← over_spaces l;
  Ret (with_buf b inc, l).

(** [accepted] of [get_path] *)
Definition accepted : list (list Z) := [[QUOTE]; str "file=" ++ [QUOTE]; str "virtual=" ++ [QUOTE]].

(** [while (len > 0 && dst[len] != '/') len--] *)
Fixpoint back_to_slash (k : nat) (dst : list Z) : nat :=
  match k with
  | O => O
  | S k' => if znth dst (Z.of_nat k) =? DIRSEP then k else back_to_slash k' dst
  end.

(** [memchr] for a quote: the bytes in front of it. *)
Fixpoint upto_quote (l : list Z) : option (list Z) :=
  match l with
  | [] => None
  | c :: r => if c =? QUOTE then Some [] else cons c <$> upto_quote r
  end.

Section Ssi.
Context {W : Type} (E : ssi_env W).

(** [get_path]: [src] is the [src_len] bytes from the argument on. *)
Fixpoint get_path_loop (vecs : list (list Z)) (src : list Z) (dst_len : Z) : option (list Z) :=
  match vecs with
  | [] => None
  | vec :: r =>
      if (zlen vec <? zlen src) && has_prefix vec src then
        match upto_quote (zdrop (zlen vec) src) with
        | None => None
        | Some name =>
            let dst :=
              if zlen vec =? 6 then
                let dst := e_snprintf E dst_len (e_root E ++ [DIRSEP] ++ e_uri E) in
                take (back_to_slash (length dst) (dst ++ [0])) dst
              else if zlen vec =? 9 then e_snprintf E dst_len (e_root E ++ [DIRSEP])
              else [] in
            Some (dst ++ fst (e_url_decode E name (dst_len - zlen dst)))
        end
      else get_path_loop r src dst_len
  end.
Definition get_path (src : list Z) (dst_len : Z) : option (list Z) := get_path_loop accepted src dst_len.

Definition get_inc (s : ssi W) (k : nat) : run ssi_inc :=
  match incs s !! k with Some i => Ret i | None => Undef end.
Definition set_inc (k : nat) (i : ssi_inc) (s : ssi W) : ssi W :=
  mkSsi (nest s) (<[k := i]> (incs s)) (world s).
Definition set_world (w : W) (s : ssi W) : ssi W := mkSsi (nest s) (incs s) w.

(** [call (ssi, name, &arg, buf, len)]: [name] is the suffix of the command buffer
    [name] points to; [o] is the place in the output, [None] the null pointer. *)
Definition call (s : ssi W) (inc : ssi_inc) (name : list Z) (o : option Z) (len : Z) (w : out)
    : run (ssi W * ssi_inc * ssi_result * out) :=
  nm ← string_at name;
  let '(fname, arg, b) :=
    match strchr nm 32 with
    | Some r => (take (length nm - length r) nm, Some (tl r),
                 Some (zlen (i_buf inc) - zlen name + zlen nm - zlen r))
    | None => (nm, None, None)
    end in
  buf ← match b with Some p => rwrite p [0] (i_buf inc) | None => Ret (i_buf inc) end;
  let inc := with_buf buf inc in
  match find_ssi_func (e_funcs E) fname with
  | None => Ret (s, inc, no_result, w)
  | Some f =>
      let '(x, r) := f (world s) arg len in
      if len <? zlen (r_out r) then Undef
      else w ← match o with Some p => put p (r_out r) w | None => Ret w end;
           Ret (set_world x s, inc, r, w)
  end.

Definition evaluate (s : ssi W) (inc : ssi_inc) (name : list Z) (w : out)
    : run (ssi W * ssi_inc * bool) :=
  x ← call s inc name None 0 w;
  let '(s, inc, r, _) := x in Ret (s, inc, r_eval_true r).

(** [pass (inc, buf, &n)] *)
Definition pass (inc : ssi_inc) (o : Z) (w : out) : run (ssi_inc * out) :=
  w ← (if i_cond inc =? SSI_GO then
         d ← rread 0 (i_nbuf inc) (i_buf inc);
         w ← put o d w; Ret (count (i_nbuf inc) w)
       else Ret w);
  Ret (with_state SSI_PASS (with_nbuf 0 inc), w).

Definition do_include (s : ssi W) (o len : Z) (w : out) : run (ssi W * out) :=
  inc ← get_inc s (nest s);
  if i_nbuf inc <? 13 then Undef
  else if i_cond inc =? SSI_STOP then Ret (s, w)
  else if (NEST_MAX - 1 <=? nest s)%nat then Ret (s, w)
  else match get_path (slice 13 (i_nbuf inc - 13) (i_buf inc)) FILENAME_MAX with
       | None => Ret (s, w)
       | Some name =>
           match e_fopen E name with
           | None => Ret (s, w)
           | Some fp =>
               i ← get_inc s (S (nest s));
               let i := with_cond SSI_GO (with_nbuf 0 (with_fp (Some fp) i)) in
               Ret (mkSsi (S (nest s)) (<[S (nest s) := i]> (incs s)) (world s), w)
           end
       end.

Definition do_if (s : ssi W) (o len : Z) (w : out) : run (ssi W * out) :=
  inc ← get_inc s (nest s);
  x ← trim_spaces inc; let '(inc, name) := x in
  x ← evaluate s inc name w; let '(s, inc, t) := x in
  Ret (set_inc (nest s) (with_cond (if t : bool then SSI_GO else SSI_STOP) inc) s, w).

Definition do_elif (s : ssi W) (o len : Z) (w : out) : run (ssi W * out) :=
  inc ← get_inc s (nest s);
  x ← trim_spaces inc; let '(inc, name) := x in
  if i_cond inc =? SSI_STOP then
    x ← evaluate s inc name w; let '(s, inc, t) := x in
    Ret (set_inc (nest s) (with_cond (if t : bool then SSI_GO else SSI_STOP) inc) s, w)
  else Ret (set_inc (nest s) (with_cond SSI_STOP inc) s, w).

Definition do_endif (s : ssi W) (o len : Z) (w : out) : run (ssi W * out) :=
  inc ← get_inc s (nest s);
  Ret (set_inc (nest s) (with_cond SSI_GO inc) s, w).

Definition do_else (s : ssi W) (o len : Z) (w : out) : run (ssi W * out) :=
  inc ← get_inc s (nest s);
  Ret (set_inc (nest s) (with_cond (if i_cond inc =? SSI_GO then SSI_STOP else SSI_GO) inc) s, w).

Definition do_call2 (s : ssi W) (o len : Z) (w : out) : run (ssi W * out) :=
  inc ← get_inc s (nest s);
  x ← call s inc (i_buf inc) (Some o) len w; let '(s, inc, r, w) := x in
  let inc := if r_end_of_output r then with_state SSI_PASS inc else inc in
  Ret (set_inc (nest s) inc s, count (zlen (r_out r)) w).

Definition do_call (s : ssi W) (o len : Z) (w : out) : run (ssi W * out) :=
  inc ← get_inc s (nest s);
  x ← trim_spaces inc; let '(inc, name) := x in
  if i_cond inc =? SSI_GO then
    nm ← string_at name;
    b ← rwrite 0 (nm ++ [0]) (i_buf inc);
    do_call2 (set_inc (nest s) (with_state SSI_CALL (with_buf b inc)) s) o len w
  else Ret (set_inc (nest s) inc s, w).

(** The loop of [do_exec2]: what it read, and whether it met the end. *)
Fixpoint read_pipe (i : nat) (pipe : list Z) : list Z * option (list Z) :=
  match i with
  | O => ([], Some pipe)
  | S i' => match pipe with
            | [] => ([], None)
            | ch :: r => let '(d, p) := read_pipe i' r in (ch :: d, p)
            end
  end.
Definition do_exec2 (s : ssi W) (o len : Z) (w : out) : run (ssi W * out) :=
  inc ← get_inc s (nest s);
  if len <=? 0 then Ret (s, w)
  else match i_pipe inc with
       | None => Undef
       | Some pipe =>
           let '(d, p) := read_pipe (Z.to_nat len) pipe in
           w ← put o d w;
           let inc := match p with
                      | None => with_pipe None (with_state SSI_PASS inc)
                      | Some _ => with_pipe p inc
                      end in
           Ret (set_inc (nest s) inc s, count (zlen d) w)
       end.

(** The quoted argument of [#exec], [#sysctl] and [#kenv], decoded; [None] when
    there is none. *)
Definition quoted (p : list Z) : run (option (list Z)) :=
  nm ← string_at p;
  match nm with
  | c :: r =>
      if c =? QUOTE then
        match strchr r QUOTE with
        | None => Ret None
        | Some e =>
            let '(cmd, ok) := e_url_decode E (take (length r - length e) r) CMDBUFSIZ in
            Ret (if ok : bool then Some cmd else None)
        end
      else Ret None
  | [] => Ret None
  end.

Definition do_exec (s : ssi W) (o len : Z) (w : out) : run (ssi W * out) :=
  inc ← get_inc s (nest s);
  x ← trim_spaces inc; let '(inc, p) := x in
  let s := set_inc (nest s) inc s in
  if i_cond inc =? SSI_STOP then Ret (s, w)
  else q ← quoted p;
       match q with
       | None => Ret (s, w)
       | Some cmd =>
           match e_popen E cmd with
           | None => Ret (set_inc (nest s) (with_pipe None inc) s, w)
           | Some pipe =>
               do_exec2 (set_inc (nest s) (with_state SSI_EXEC (with_pipe (Some pipe) inc)) s) o len w
           end
       end.

(** [do_sysctl] and [do_kenv] differ in the call they make. *)
Definition do_query (query : list Z -> Z -> option (list Z)) (s : ssi W) (o len : Z) (w : out)
    : run (ssi W * out) :=
  inc ← get_inc s (nest s);
  x ← trim_spaces inc; let '(inc, p) := x in
  let s := set_inc (nest s) inc s in
  if i_cond inc =? SSI_STOP then Ret (s, w)
  else q ← quoted p;
       match q with
       | None => Ret (s, w)
       | Some cmd =>
           match query cmd len with
           | None => Ret (s, w)
           | Some v =>
               if len <? zlen v then Undef
               else w ← put o v w;
                    Ret (set_inc (nest s) (with_state SSI_STOP inc) s, count (zlen v - 1) w)
           end
       end.
Definition do_sysctl := do_query (e_sysctl E).
Definition do_kenv := do_query (e_kenv E).

Definition ssi_cmd : Type := list Z * (ssi W -> Z -> Z -> out -> run (ssi W * out)).
Definition known_ssi_commands : list ssi_cmd :=
  [(str "include ", do_include); (str "if ", do_if); (str "elif ", do_elif); (str "else", do_else);
   (str "endif", do_endif); (str "call ", do_call); (str "exec ", do_exec);
   (str "sysctl ", do_sysctl); (str "kenv ", do_kenv)].

Fixpoint find_cmd (cmds : list ssi_cmd) (inc : ssi_inc) : option ssi_cmd :=
  match cmds with
  | [] => None
  | cmd :: r =>
      if (zlen st + zlen (fst cmd) <? i_nbuf inc) && has_prefix (fst cmd) (zdrop (zlen st) (i_buf inc))
      then Some cmd else find_cmd r inc
  end.

Definition do_command (s : ssi W) (o len : Z) (w : out) : run (ssi W * out) :=
  let k := nest s in
  inc ← get_inc s k;
  if (len <=? 0) || (len <? i_nbuf inc) then Undef
  else
    let inc := with_state SSI_PASS inc in
    let s := set_inc k inc s in
    x ← match find_cmd known_ssi_commands inc with
        | Some cmd => snd cmd s o len w
        | None => x ← pass inc o w; let '(inc, w) := x in Ret (set_inc k inc s, w)
        end;
    let '(s, w) := x in
    inc ← get_inc s k;
    Ret (set_inc k (with_nbuf 0 inc) s, w).

(** [n + inc->nbuf < len], in [size_t] *)
Definition room (inc : ssi_inc) (len : Z) (w : out) : bool := u64 (o_n w + i_nbuf inc) <? len.

(** [case SSI_BUF] of the loop. *)
Definition buffer_char (s : ssi W) (inc : ssi_inc) (len ch : Z) (w : out) : run (ssi W * out) :=
  let k := nest s in
  if CMDBUFSIZ - 1 <=? i_nbuf inc then
    x ← pass inc (o_n w) w; let '(inc, w) := x in Ret (set_inc k inc s, w)
  else
    last ← (if ch =? 62 then rread (i_nbuf inc - 2) 2 (i_buf inc) else Ret []);
    if (ch =? 62) && streq last (str "--") then do_command s (o_n w) (len - o_n w) w
    else
      b ← rwrite (i_nbuf inc) [ch] (i_buf inc);
      let inc := with_nbuf (i_nbuf inc + 1) (with_buf b inc) in
      if (i_nbuf inc <=? zlen st) && negb (streq (ztake (i_nbuf inc) (i_buf inc)) (ztake (i_nbuf inc) st))
      then x ← pass inc (o_n w) w; let '(inc, w) := x in Ret (set_inc k inc s, w)
      else Ret (set_inc k inc s, w).

(** The body of the loop, for one character. *)
Definition read_char (s : ssi W) (inc : ssi_inc) (len ch : Z) (w : out) : run (ssi W * out) :=
  let k := nest s in
  if i_state inc =? SSI_PASS then
    if ch =? 60 then
      b ← rwrite 0 [ch] (i_buf inc);
      Ret (set_inc k (with_state SSI_BUF (with_nbuf 1 (with_buf b inc))) s, w)
    else if i_cond inc =? SSI_GO then
      w ← put (o_n w) [ch] w; Ret (s, count 1 w)
    else Ret (s, w)
  else if i_state inc =? SSI_BUF then buffer_char s inc len ch w
  else if (i_state inc =? SSI_EXEC) || (i_state inc =? SSI_CALL) || (i_state inc =? SSI_SYSCTL) then Ret (s, w)
  else Undef.

(** The loop over the characters of the current file; whether it met the end of the file. *)
Fixpoint read_while (fuel : nat) (len : Z) (s : ssi W) (w : out) : run (ssi W * out * bool) :=
  match fuel with
  | O => NoFuel
  | S fuel' =>
      inc ← get_inc s (nest s);
      if room inc len w then
        match i_fp inc with
        | None => Undef
        | Some [] => Ret (s, w, true)
        | Some (ch :: r) =>
            let inc := with_fp (Some r) inc in
            x ← read_char (set_inc (nest s) inc s) inc len ch w; let '(s, w) := x in
            read_while fuel' len s w
        end
      else Ret (s, w, false)
  end.

(** From the label [again]. *)
Fixpoint read_again (fuel : nat) (len : Z) (s : ssi W) (w : out) : run (ssi W * out) :=
  match fuel with
  | O => NoFuel
  | S fuel' =>
      inc ← get_inc s (nest s);
      x ← (if i_state inc =? SSI_CALL then do_call2 s 0 len w
           else if i_state inc =? SSI_EXEC then do_exec2 s 0 len w
           else Ret (s, w));
      let '(s, w) := x in
      x ← read_while fuel len s w; let '(s, w, eof) := x in
      inc ← get_inc s (nest s);
      if (0 <? nest s)%nat && room inc len w && eof then
        let s := set_inc (nest s) (with_fp None inc) s in
        read_again fuel' len (mkSsi (nest s - 1) (incs s) (world s)) w
      else Ret (s, w)
  end.

Definition read_ssi (fuel : nat) (s : ssi W) (buf : list Z) : run (ssi W * out) :=
  read_again fuel (zlen buf) s (mkOut 0 buf).

(** [close_ssi]: the levels whose file, and whose pipe, it closes. *)
Definition close_ssi (s : ssi W) : list nat * list nat :=
  (filter (fun k => is_Some (incs s !! k ≫= i_fp)) (seq 0 NEST_MAX),
   filter (fun k => is_Some (incs s !! k ≫= i_pipe)) (seq 0 NEST_MAX)).

(** [ssi] as [calloc] and [_shttpd_do_ssi] leave it for an open page. *)
Definition inc0 : ssi_inc := mkInc SSI_PASS SSI_GO None (zrep CMDBUFSIZ 0) 0 None.
Definition start_ssi (page : list Z) (x : W) : ssi W :=
  mkSsi 0 (<[0%nat := with_fp (Some page) inc0]> (replicate NEST_MAX inc0)) x.

(** What [_shttpd_do_ssi] does with the connection. *)
Inductive ssi_reply : Type :=
| Stopped (headers : list Z)
| ServerError (headers : list Z)
| Serving (headers : list Z) (s : ssi W).
Definition shttpd_do_ssi (date : list Z) (io_size : Z) (head alloc : bool) (page : list Z) (x : W) : ssi_reply :=
  let headers := e_snprintf E io_size
    (str "HTTP/1.1 200 OK" ++ [CR; LF] ++ str "Date: " ++ date ++ [CR; LF] ++
     str "Content-Type: text/html" ++ [CR; LF] ++ str "Connection: close" ++ [CR; LF; CR; LF]) in
  if head then Stopped headers
  else if alloc then Serving headers (start_ssi page x)
  else ServerError headers.

End Ssi.
