(* ===== verification/SsiPage.v ===== *)
(** * What a page with server-side includes becomes

    Pages as pieces of text and directives, with the text they are rendered to
    and the output they stand for.  Reading a rendered page gives that output,
    whatever the sizes of the buffers it is read into as long as it asks the system
    for no value; with one large buffer in every case. *)

From S2P Require Import Prelude CLib Ssi.

(** ** Output *)

Definition emit (d : list Z) (w : out) : out := mkOut (o_n w + zlen d) (splice (o_n w) d (o_buf w)).
(** [need] more bytes fit into the caller's buffer of [len] bytes. *)
Definition fits (need len : Z) (w : out) : Prop :=
  0 <= o_n w /\ o_n w + need <= len /\ zlen (o_buf w) = len /\ len < 2 ^ 63.

Lemma emit_nil w : emit [] w = w.
Proof. destruct w. unfold emit. cbn. by rewrite splice_nil, Z.add_0_r. Qed.
(** [w'] holds the bytes of [w] and then [a]; what is behind them is anything. *)
Definition adds (a : list Z) (w w' : out) : Prop :=
  o_n w' = o_n w + zlen a /\ zlen (o_buf w') = zlen (o_buf w) /\
  ztake (o_n w') (o_buf w') = ztake (o_n w) (o_buf w) ++ a.
Lemma adds_nil w : adds [] w w.
Proof. unfold adds. rewrite zlen_nil, app_nil_r. split; [lia|done]. Qed.
Lemma adds_trans a b w w1 w2 : adds a w w1 -> adds b w1 w2 -> adds (a ++ b) w w2.
Proof.
  intros (H1 & H2 & H3) (H4 & H5 & H6). unfold adds. rewrite H6, H3, <- app_assoc, zlen_app. split; [lia|]. split; [lia|done].
Qed.
Lemma fits_le a b len w : fits a len w -> b <= a -> fits b len w.
Proof. unfold fits. lia. Qed.
Lemma fits_adds need len a w w' : fits need len w -> zlen a <= need -> adds a w w' -> fits (need - zlen a) len w'.
Proof. intros (? & ? & ? & ?) ? (? & ? & _). pose proof (zlen_nonneg a). unfold fits. lia. Qed.
(** A write of [a ++ z] of which [a] is counted. *)
Lemma splice_adds need len a z w : fits need len w -> zlen a + zlen z <= need ->
  adds a w (mkOut (o_n w + zlen a) (splice (o_n w) (a ++ z) (o_buf w))).
Proof.
  intros (? & ? & ? & ?) ?. pose proof (zlen_nonneg a). pose proof (zlen_nonneg z). unfold adds. cbn.
  rewrite zlen_splice by (rewrite ?zlen_app; lia). split; [done|]. split; [done|].
  unfold splice. rewrite <- app_assoc, app_assoc. unfold ztake at 1. apply take_app_length'.
  rewrite length_app. unfold ztake, zlen in *. rewrite length_take. lia.
Qed.
Lemma emit_adds need len a w : fits need len w -> zlen a <= need -> adds a w (emit a w).
Proof.
  intros Hw Ha. unfold emit. rewrite <- (app_nil_r a) at 3. eapply splice_adds; [exact Hw|]. rewrite zlen_nil. lia.
Qed.

Lemma rwrite_in o d l : 0 <= o -> o + zlen d <= zlen l -> rwrite o d l = Ret (splice o d l).
Proof. intros. unfold rwrite. by rewrite bwrite_in. Qed.
Lemma rread_in o n l : 0 <= o -> 0 <= n -> o + n <= zlen l -> rread o n l = Ret (slice o n l).
Proof. intros. unfold rread. by rewrite bread_in. Qed.
Lemma put_count d w need len : fits need len w -> zlen d <= need ->
  (w' ← put (o_n w) d w; Ret (count (zlen d) w')) = Ret (emit d w).
Proof. intros (? & ? & ? & ?) ?. unfold put. rewrite rwrite_in by lia. done. Qed.
Lemma string_at_app s r : nonul s -> string_at (s ++ 0 :: r) = Ret s.
Proof.
  intros. unfold string_at. rewrite bool_decide_true by (apply elem_of_app; right; left). by rewrite cstr_app.
Qed.
Lemma ztake_splice_end {A} p (d l : list A) : 0 <= p -> p + zlen d <= zlen l ->
  ztake (p + zlen d) (splice p d l) = ztake p l ++ d.
Proof.
  intros. unfold splice. rewrite app_assoc. unfold ztake at 1. apply take_app_length'.
  rewrite length_app. unfold ztake, zlen in *. rewrite length_take. lia.
Qed.
Lemma room_true inc len w : 0 <= o_n w -> 0 <= i_nbuf inc <= 511 -> len < 2 ^ 63 -> o_n w + i_nbuf inc < len ->
  room inc len w = true.
Proof. intros. unfold room. rewrite u64_small by lia. by apply Z.ltb_lt. Qed.
Lemma room_iff inc len w : 0 <= o_n w <= len -> 0 <= i_nbuf inc <= 511 -> len < 2 ^ 63 ->
  room inc len w = (o_n w + i_nbuf inc <? len).
Proof. intros. unfold room. by rewrite u64_small by lia. Qed.

(** ** Reading as a sequence of characters *)

Section Reading.
Context {W : Type} (E : ssi_env W).
Implicit Types (s : ssi W) (inc : ssi_inc) (w : out).

Lemma get_inc_at s k inc : incs s !! k = Some inc -> get_inc s k = Ret inc.
Proof. intros H. unfold get_inc. by rewrite H. Qed.

(** No command is running. *)
Definition quiet s inc : Prop :=
  incs s !! nest s = Some inc /\ (i_state inc = SSI_PASS \/ i_state inc = SSI_BUF) /\ 0 <= i_nbuf inc <= 511.
Definition pop s inc : ssi W := mkSsi (nest s - 1) (<[nest s := with_fp None inc]> (incs s)) (world s).

(** [runs slack k s bs]: in [k] steps the page is read to its end and gives [bs],
    where a step may use [slack] bytes of the caller's buffer beyond those it has
    room for. *)
Inductive runs (slack : Z) : nat -> ssi W -> list Z -> Prop :=
| runs_end s inc :
    quiet s inc -> nest s = 0%nat -> i_fp inc = Some [] -> runs slack 0 s []
| runs_pop k s inc bs :
    quiet s inc -> (0 < nest s)%nat -> i_fp inc = Some [] -> runs slack k (pop s inc) bs -> runs slack (S k) s bs
| runs_char k s inc ch r a s' bs :
    quiet s inc -> i_fp inc = Some (ch :: r) -> zlen a <= i_nbuf inc + 1 + slack ->
    (forall len w, fits (i_nbuf inc + 1 + slack) len w ->
       exists w', read_char E (set_inc (nest s) (with_fp (Some r) inc) s) (with_fp (Some r) inc) len ch w = Ret (s', w') /\
         adds a w w') ->
    runs slack k s' bs -> runs slack (S k) s (a ++ bs).

Lemma runs_quiet slack k s bs : runs slack k s bs -> exists inc, quiet s inc.
Proof. inversion 1; eauto. Qed.

(** The caller's buffer is large enough for what is still to come, or every step
    needs the room it has only. *)
Definition enough (slack : Z) (bs : list Z) (len : Z) (w : out) : Prop :=
  slack = 0 \/ o_n w + zlen bs + 512 + slack <= len.
Lemma enough_adds slack a bs len w w' : enough slack (a ++ bs) len w -> adds a w w' -> enough slack bs len w'.
Proof. intros He (Hn & _). unfold enough in *. rewrite zlen_app in He. lia. Qed.

Definition stopped (s : ssi W) (len : Z) (w : out) : Prop :=
  exists inc, quiet s inc /\ len <= o_n w + i_nbuf inc.

(** What a stretch of reading leaves: [a] was put out and [b] is still to come. *)
Record progress (slack : Z) (k : nat) (bs : list Z) (len : Z) (w : out) (s' : ssi W) (w' : out) (a b : list Z) : Prop := {
  pr_split : bs = a ++ b;
  pr_adds : adds a w w';
  pr_fits : fits 0 len w';
  pr_runs : exists k', (k' <= k)%nat /\ runs slack k' s' b;
  pr_enough : enough slack b len w';
}.
Definition at_eof (s : ssi W) (len : Z) (w : out) : Prop :=
  exists inc, quiet s inc /\ i_fp inc = Some [] /\ room inc len w = true.

Lemma progress_refl slack k s bs len w : runs slack k s bs -> fits 0 len w -> enough slack bs len w ->
  progress slack k bs len w s w [] bs.
Proof. intros. split; eauto using adds_nil. Qed.
Lemma progress_trans slack k k' a bs len w w1 s' w2 b c :
  progress slack k bs len w1 s' w2 b c -> (k <= k')%nat -> adds a w w1 ->
  progress slack k' (a ++ bs) len w s' w2 (a ++ b) c.
Proof.
  intros [-> Hb Hf (k1 & ? & ?) He] Hk Ha. split; [by rewrite app_assoc|by eapply adds_trans|done| |done].
  exists k1. split; [lia|done].
Qed.

Lemma no_room s inc len w : quiet s inc -> fits 0 len w -> room inc len w = false -> stopped s len w.
Proof.
  intros Hq (? & ? & ? & ?) Hr. exists inc. split; [done|]. destruct Hq as (_ & _ & ?).
  rewrite room_iff in Hr by lia. by apply Z.ltb_ge in Hr.
Qed.
Lemma step_fits slack inc a bs len w : 0 <= slack -> 0 <= i_nbuf inc <= 511 -> fits 0 len w ->
  zlen a <= i_nbuf inc + 1 + slack -> enough slack (a ++ bs) len w -> room inc len w = true ->
  fits (i_nbuf inc + 1 + slack) len w.
Proof.
  intros ?? (? & ? & ? & ?) Ha He Hr. rewrite room_iff in Hr by lia. apply Z.ltb_lt in Hr.
  unfold enough in He. rewrite zlen_app in He. pose proof (zlen_nonneg a). pose proof (zlen_nonneg bs).
  unfold fits. lia.
Qed.

Lemma read_while_runs slack k s bs : runs slack k s bs -> forall fuel len w,
  0 <= slack -> (k < fuel)%nat -> fits 0 len w -> enough slack bs len w ->
  exists s' w' a b eof, read_while E fuel len s w = Ret (s', w', eof) /\
    progress slack k bs len w s' w' a b /\ (if eof : bool then at_eof s' len w' else stopped s' len w').
Proof.
  intros H. induction H as [s inc Hq Hn Hf|k s inc bs Hq Hn Hf H IH|k s inc ch r a s' bs Hq Hf Ha Hstep H IH];
    intros fuel len w Hs Hk Hw He; (destruct fuel as [|fuel]; [lia|]); cbn [read_while];
    rewrite (get_inc_at s _ inc (proj1 Hq)); rsimpl; destruct (room inc len w) eqn:Hr.
  1,3: rewrite Hf; eexists s, w, [], _, true; split; [done|]; split; [|by exists inc];
    apply progress_refl; try done; econstructor; done.
  1,2: eexists s, w, [], _, false; split; [done|]; split; [|by eapply no_room];
    apply progress_refl; try done; econstructor; done.
  - rewrite Hf. destruct Hq as (Hi & Hst & Hnb).
    assert (Hw' : fits (i_nbuf inc + 1 + slack) len w) by (eapply step_fits; eauto).
    destruct (Hstep len w Hw') as (w1 & -> & Hadd). rsimpl.
    destruct (IH fuel len w1) as (s2 & w2 & b & c & eof & Hrd & Hp & Hend); [done|lia| | |].
    + eapply fits_le; [by eapply fits_adds|lia].
    + by eapply enough_adds.
    + exists s2, w2, (a ++ b), c, eof. split; [done|]. split; [|done]. eapply progress_trans; [done|lia|done].
  - exists s, w, [], (a ++ bs), false. split; [done|]. split; [|by eapply no_room].
    apply progress_refl; [by eapply runs_char|done|done].
Qed.

(** At the end of a file the run goes on in the file that included it. *)
Lemma runs_eof slack k s bs inc : runs slack k s bs -> quiet s inc -> i_fp inc = Some [] ->
  (nest s = 0%nat /\ bs = []) \/ ((0 < nest s)%nat /\ exists k', k = S k' /\ runs slack k' (pop s inc) bs).
Proof.
  intros H (Hi & _) Hf. inversion H as [?? (Hi' & _)|???? (Hi' & _)|???????? (Hi' & _)]; simplify_eq; eauto.
Qed.

Lemma read_again_runs slack fuel : forall k s bs len w, runs slack k s bs ->
  0 <= slack -> (k < fuel)%nat -> fits 0 len w -> enough slack bs len w ->
  exists s' w' a b, read_again E fuel len s w = Ret (s', w') /\
    progress slack k bs len w s' w' a b /\ (b = [] \/ stopped s' len w').
Proof.
  induction fuel as [|fuel IH]; intros k s bs len w H Hs Hk Hw He; [lia|].
  destruct (runs_quiet _ _ _ _ H) as (inc & Hi & Hst & Hnb). cbn [read_again]. rewrite (get_inc_at s _ inc Hi). rsimpl.
  replace (if i_state inc =? SSI_CALL then _ else _) with (Ret (s, w)) by (destruct Hst as [-> | ->]; done). rsimpl.
  destruct (read_while_runs _ _ _ _ H (S fuel) len w Hs Hk Hw He) as (s1 & w1 & a & b & eof & -> & Hp & Hend). rsimpl.
  destruct eof.
  - destruct Hend as (inc1 & Hq1 & Hf1 & Hr1). rewrite (get_inc_at s1 _ inc1 (proj1 Hq1)). rsimpl. rewrite Hr1.
    destruct Hp as [-> Hadd Hfit (k1 & Hk1 & H1) Hen].
    destruct (runs_eof _ _ _ _ _ H1 Hq1 Hf1) as [[Hn ->]|(Hn & k2 & -> & H2)].
    { rewrite Hn. cbn [Nat.ltb Nat.leb andb]. exists s1, w1, a, []. split; [done|]. split; [|by left]. split; eauto. }
    rewrite (proj2 (Nat.ltb_lt 0 (nest s1)) Hn). cbn [andb].
    destruct (IH k2 (pop s1 inc1) b len w1 H2) as (s2 & w2 & a2 & b2 & Hrd & Hp2 & Hend2); [done|lia|done..|].
    exists s2, w2, (a ++ a2), b2. split; [exact Hrd|]. split; [|done]. eapply progress_trans; [done|lia|done].
  - destruct (Hend) as (inc1 & Hq1 & Hle). rewrite (get_inc_at s1 _ inc1 (proj1 Hq1)). rsimpl. rewrite andb_false_r.
    exists s1, w1, a, b. auto.
Qed.
(** ** Where the reader stands *)

(** Every level is between two commands, or was when its file ended. *)
Definition inc_ok inc : Prop :=
  zlen (i_buf inc) = CMDBUFSIZ /\ (i_state inc = SSI_PASS \/ i_state inc = SSI_BUF).
(** Nothing is buffered, and [f] is left of the file. *)
Definition ready (c : Z) (f : list Z) inc : Prop :=
  i_cond inc = c /\ i_fp inc = Some f /\ i_nbuf inc = 0.
(** The start [d] of a comment is buffered. *)
Definition gathered (d : list Z) (c : Z) (f : list Z) inc : Prop :=
  i_state inc = SSI_BUF /\ i_cond inc = c /\ i_fp inc = Some f /\ i_nbuf inc = zlen d /\
  exists junk, i_buf inc = d ++ junk.

(** The current level is as [P] says; [lower] are the conditions and the rests of the
    files of the levels below, the includer first. *)
Record view (x : W) (P : ssi_inc -> Prop) (lower : list (Z * list Z)) s : Prop := {
  v_world : world s = x;
  v_nest : nest s = length lower;
  v_len : length (incs s) = NEST_MAX;
  v_inc : exists inc, incs s !! nest s = Some inc /\ P inc;
  v_ok : Forall inc_ok (incs s);
  v_lower : forall i c f, lower !! i = Some (c, f) ->
    exists inc, incs s !! (length lower - S i)%nat = Some inc /\ ready c f inc;
}.

(** Reading on from any such state gives [bs]. *)
Definition yields slack x P lower (bs : list Z) : Prop :=
  forall s, view x P lower s -> exists k, runs slack k s bs.

Lemma set_inc_set_inc k i1 i2 s : set_inc k i2 (set_inc k i1 s) = set_inc k i2 s.
Proof. unfold set_inc. cbn. by rewrite list_insert_insert_eq. Qed.
Lemma view_lt x P lower s : view x P lower s -> (nest s < length (incs s))%nat.
Proof. intros [_ _ _ (inc & Hi & _) _ _]. by apply lookup_lt_Some in Hi. Qed.
Lemma view_set x P Q lower s inc x' : view x P lower s -> Q inc -> inc_ok inc ->
  view x' Q lower (set_inc (nest s) inc (set_world x' s)).
Proof.
  intros Hv HQ Hok. pose proof (view_lt _ _ _ _ Hv) as Hlt. destruct Hv as [Hx Hn Hl (i0 & Hi & _) Ho Hlo]. split; cbn.
  - done.
  - done.
  - by rewrite length_insert.
  - exists inc. split; [by apply list_lookup_insert_eq|done].
  - by apply Forall_insert.
  - intros i c f H. pose proof (lookup_lt_Some _ _ _ H). rewrite list_lookup_insert_ne by lia. eauto.
Qed.

(** One character, seen on the current level only. *)
Definition steps_to slack inc (ch : Z) (r : list Z) (Q : ssi_inc -> Prop) (a : list Z) : Prop :=
  zlen a <= i_nbuf inc + 1 + slack /\
  exists inc', Q inc' /\ inc_ok inc' /\ forall s len w, fits (i_nbuf inc + 1 + slack) len w ->
    read_char E (set_inc (nest s) (with_fp (Some r) inc) s) (with_fp (Some r) inc) len ch w =
    Ret (set_inc (nest s) inc' s, emit a w).

Lemma yields_step slack x P Q lower bs ch r a :
  (forall inc, P inc -> inc_ok inc -> i_fp inc = Some (ch :: r) /\ 0 <= i_nbuf inc <= 511 /\ steps_to slack inc ch r Q a) ->
  yields slack x Q lower bs -> yields slack x P lower (a ++ bs).
Proof.
  intros HP HQ s Hv. destruct (v_inc _ _ _ _ Hv) as (inc & Hi & Hinc).
  assert (Hok : inc_ok inc) by (eapply Forall_lookup_1, Hi; apply Hv).
  destruct (HP inc Hinc Hok) as (Hf & Hnb & Ha & inc' & HQ' & Hok' & Hstep).
  assert (Hs' : view x Q lower (set_inc (nest s) inc' s)).
  { replace s with (set_world x s) at 2 by (destruct Hv as [<- _ _ _ _ _]; by destruct s). by eapply view_set. }
  destruct (HQ _ Hs') as [k Hk]. exists (S k). destruct Hok as [_ Hst].
  refine (runs_char slack k s inc ch r a _ bs (conj Hi (conj Hst Hnb)) Hf Ha _ Hk).
  intros len w Hw. exists (emit a w). split; [by apply Hstep|by eapply emit_adds].
Qed.

(** *** Text *)

Lemma step_text slack ch r inc : 0 <= slack -> ready SSI_GO (ch :: r) inc -> inc_ok inc -> ch <> 60 ->
  i_state inc = SSI_PASS -> steps_to slack inc ch r (fun i => ready SSI_GO r i /\ i_state i = SSI_PASS) [ch].
Proof.
  intros Hs (Hc & Hf & Hn) [Hb _] Hch Hst. split; [rewrite Hn; change (zlen [ch]) with 1; lia|].
  exists (with_fp (Some r) inc). split; [done|]. split; [split; [done|by left]|].
  intros s len w Hw. unfold read_char. cbn [i_state with_fp i_cond]. rewrite Hst, Hc.
  rewrite (proj2 (Z.eqb_neq ch 60)) by done. change (SSI_PASS =? SSI_PASS) with true. change (SSI_GO =? SSI_GO) with true. cbn iota.
  unfold put. destruct Hw as (? & ? & ? & ?). rewrite rwrite_in by (change (zlen [ch]) with 1; lia). done.
Qed.
Lemma step_mute slack ch r c inc : 0 <= slack -> ready c (ch :: r) inc -> inc_ok inc -> ch <> 60 -> c <> SSI_GO ->
  i_state inc = SSI_PASS -> steps_to slack inc ch r (fun i => ready c r i /\ i_state i = SSI_PASS) [].
Proof.
  intros Hs (Hc & Hf & Hn) [Hb _] Hch Hgo Hst. split; [rewrite Hn; change (zlen (@nil Z)) with 0; lia|].
  exists (with_fp (Some r) inc). split; [done|]. split; [split; [done|by left]|].
  intros s len w Hw. unfold read_char. cbn [i_state with_fp i_cond]. rewrite Hst, Hc, emit_nil.
  rewrite (proj2 (Z.eqb_neq ch 60)) by done. change (SSI_PASS =? SSI_PASS) with true.
  rewrite (proj2 (Z.eqb_neq c SSI_GO)) by done. done.
Qed.

(** [pass] puts out what is buffered when the condition holds. *)
Definition shown (c : Z) (d : list Z) : list Z := if c =? SSI_GO then d else [].
Lemma pass_shown inc d junk w need len : i_buf inc = d ++ junk -> i_nbuf inc = zlen d -> fits need len w -> zlen d <= need ->
  pass inc (o_n w) w = Ret (with_state SSI_PASS (with_nbuf 0 inc), emit (shown (i_cond inc) d) w).
Proof.
  intros Hb Hn Hw Hd. pose proof (zlen_nonneg d). pose proof (zlen_nonneg junk). unfold pass, shown. destruct (_ =? _); [|by rewrite emit_nil].
  rewrite rread_in by (rewrite ?Hb, ?Hn, ?zlen_app; lia). rsimpl. rewrite slice_0, Hb, Hn.
  replace (ztake (zlen d) (d ++ junk)) with d by (unfold ztake, zlen; by rewrite Nat2Z.id, take_app_length).
  unfold put. destruct Hw as (? & ? & ? & ?). rewrite rwrite_in by lia. done.
Qed.

(** *** Comments *)

(** What is buffered may still be the start of a command. *)
Definition opens (d : list Z) : bool := (zlen st <? zlen d) || streq d (ztake (zlen d) st).
(** [ch] does not end the comment [d]. *)
Definition goes_on (d : list Z) (ch : Z) : Prop := ch = 62 -> 2 <= zlen d /\ slice (zlen d - 2) 2 d <> str "--".
Definition passing (c : Z) (f : list Z) inc : Prop := ready c f inc /\ i_state inc = SSI_PASS.

Lemma splice_next (d : list Z) ch junk : 0 < zlen junk -> splice (zlen d) [ch] (d ++ junk) = (d ++ [ch]) ++ tail junk.
Proof.
  intros H. destruct junk as [|j junk]; [by destruct (Z.lt_irrefl 0)|]. unfold splice. rewrite <- app_assoc.
  replace (ztake (zlen d) (d ++ j :: junk)) with d by (unfold ztake, zlen; by rewrite Nat2Z.id, take_app_length).
  do 2 f_equal. unfold zdrop, zlen. cbn [length]. replace (Z.to_nat _) with (length d + 1)%nat by lia.
  rewrite drop_app_ge by lia. by replace (length d + 1 - length d)%nat with 1%nat by lia.
Qed.
(** The end of [buffer_char], for a character that does not end the comment. *)
Lemma buffer_char_eq s inc d c ch r junk len w need :
  gathered d c r inc -> i_buf inc = d ++ junk -> zlen (i_buf inc) = CMDBUFSIZ -> zlen d < 511 -> goes_on d ch ->
  fits need len w -> zlen d + 1 <= need ->
  let inc1 := with_nbuf (zlen (d ++ [ch])) (with_buf ((d ++ [ch]) ++ tail junk) inc) in
  buffer_char E s inc len ch w =
    if opens (d ++ [ch]) then Ret (set_inc (nest s) inc1 s, w)
    else Ret (set_inc (nest s) (with_state SSI_PASS (with_nbuf 0 inc1)) s, emit (shown c (d ++ [ch])) w).
Proof.
  intros (Hst & Hc & Hf & Hn & _) Hb Hlen Hd Hgo Hw Hneed inc1. unfold CMDBUFSIZ in Hlen.
  pose proof (zlen_nonneg d). assert (Hj : 0 < zlen junk) by (rewrite Hb, zlen_app in Hlen; lia).
  unfold buffer_char. rewrite (proj2 (Z.leb_gt (CMDBUFSIZ - 1) (i_nbuf inc))) by (unfold CMDBUFSIZ; lia).
  replace (if ch =? 62 then _ else _) with (Ret (if ch =? 62 then slice (zlen d - 2) 2 d else [])).
  2:{ destruct (Z.eqb_spec ch 62) as [H62|]; [|done]. destruct (Hgo H62) as [? _].
      rewrite rread_in by lia. by rewrite Hb, Hn, slice_prefix by lia. }
  rsimpl. replace ((ch =? 62) && _) with false.
  2:{ destruct (Z.eqb_spec ch 62) as [H62|]; [|done]. symmetry. apply streq_false. by apply Hgo. }
  rewrite rwrite_in by (change (zlen [ch]) with 1; lia). rsimpl. cbn [i_nbuf i_buf with_nbuf with_buf].
  rewrite Hb, Hn, splice_next by done. replace (zlen d + 1) with (zlen (d ++ [ch])) by (rewrite zlen_app; done).
  rewrite ztake_prefix. fold inc1.
  replace ((zlen (d ++ [ch]) <=? zlen st) && _) with (negb (opens (d ++ [ch])))
    by (unfold opens; rewrite negb_orb, Z.leb_antisym; done).
  destruct (opens (d ++ [ch])); cbn [negb]; [done|].
  rewrite (pass_shown inc1 (d ++ [ch]) (tail junk) w need len) by (done || rewrite zlen_app; change (zlen [ch]) with 1; lia).
  rsimpl. cbn [i_cond inc1 with_nbuf with_buf]. by rewrite Hc.
Qed.

(** One more character of a comment, or of what turns out to be a tag. *)
Lemma step_gather slack inc d c ch r : 0 <= slack ->
  gathered d c (ch :: r) inc -> inc_ok inc -> zlen d < 511 -> goes_on d ch ->
  steps_to slack inc ch r (if opens (d ++ [ch]) then gathered (d ++ [ch]) c r else passing c r)
    (if opens (d ++ [ch]) then [] else shown c (d ++ [ch])).
Proof.
  intros Hs (Hst & Hc & Hf & Hn & junk & Hb) [Hlen _] Hd Hgo. pose proof (zlen_nonneg d).
  assert (Hl : zlen (shown c (d ++ [ch])) <= zlen d + 1).
  { unfold shown. destruct (_ =? _); [rewrite zlen_app; done|]. change (zlen (@nil Z)) with 0. lia. }
  split; [rewrite Hn; destruct (opens _); [change (zlen (@nil Z)) with 0|]; lia|].
  assert (Hg : gathered d c r (with_fp (Some r) inc)) by (repeat split; eauto).
  set (inc1 := with_nbuf (zlen (d ++ [ch])) (with_buf ((d ++ [ch]) ++ tail junk) (with_fp (Some r) inc))).
  assert (Hl1 : zlen (i_buf inc1) = CMDBUFSIZ).
  { cbn. rewrite Hb in Hlen. destruct junk as [|j junk]; [rewrite app_nil_r in Hlen; unfold CMDBUFSIZ in Hlen; lia|].
    rewrite zlen_app, zlen_cons in Hlen. rewrite !zlen_app, zlen_cons, zlen_nil. cbn [tail]. lia. }
  exists (if opens (d ++ [ch]) then inc1 else with_state SSI_PASS (with_nbuf 0 inc1)).
  split; [|split].
  - destruct (opens _); [|done]. repeat split; try done. by exists (tail junk).
  - destruct (opens _); split; try done; [by right|by left].
  - intros s len w Hw. unfold read_char. cbn [i_state with_fp]. rewrite Hst.
    change (SSI_BUF =? SSI_PASS) with false. change (SSI_BUF =? SSI_BUF) with true. cbn iota.
    rewrite (buffer_char_eq _ _ d c ch r junk len w _ Hg Hb Hlen Hd Hgo Hw) by lia. fold inc1.
    destruct (opens _); rewrite set_inc_set_inc; [by rewrite emit_nil|done].
Qed.

(** The [<] that may open a command. *)
Lemma step_lt slack c r inc : 0 <= slack -> ready c (60 :: r) inc -> inc_ok inc ->
  steps_to slack inc 60 r (gathered [60] c r) [].
Proof.
  intros Hs (Hc & Hf & Hn) [Hb [Hst|Hst]].
  - split; [rewrite Hn; change (zlen (@nil Z)) with 0; lia|].
    exists (with_state SSI_BUF (with_nbuf 1 (with_buf (splice 0 [60] (i_buf inc)) (with_fp (Some r) inc)))).
    split; [|split].
    + repeat split; try done. by exists (zdrop 1 (i_buf inc)).
    + split; [|by right]. cbn. by rewrite zlen_splice by (rewrite ?Hb; done).
    + intros s len w Hw. unfold read_char. cbn [i_state i_buf with_fp]. rewrite Hst, emit_nil.
      change (SSI_PASS =? SSI_PASS) with true. change (60 =? 60) with true. cbn iota.
      rewrite rwrite_in by (rewrite ?Hb; done). rsimpl. by rewrite set_inc_set_inc.
  - apply (step_gather slack inc [] c 60 r); [done| |by split; [|right]|done|done].
    repeat split; try done. by exists (i_buf inc).
Qed.

(** *** Stretches of a page *)

Lemma yields_weaken slack x (P Q : ssi_inc -> Prop) lower bs :
  (forall inc, P inc -> Q inc) -> yields slack x Q lower bs -> yields slack x P lower bs.
Proof.
  intros HPQ H s [? ? ? (inc & ? & ?) ? ?]. apply H. split; eauto.
Qed.

Lemma step_plain slack c ch r inc : 0 <= slack -> ready c (ch :: r) inc -> inc_ok inc -> i_state inc = SSI_PASS -> ch <> 60 ->
  steps_to slack inc ch r (passing c r) (shown c [ch]).
Proof.
  intros Hs Hr Hok Hst Hch. unfold shown. destruct (Z.eqb_spec c SSI_GO) as [->|Hc].
  - by apply step_text.
  - by apply step_mute.
Qed.
Lemma shown_app c a b : shown c (a ++ b) = shown c a ++ shown c b.
Proof. unfold shown. by destruct (_ =? _). Qed.

Lemma yields_passing slack x c t f lower bs : 0 <= slack -> Forall (fun ch => ch <> 60) t ->
  yields slack x (passing c f) lower bs -> yields slack x (passing c (t ++ f)) lower (shown c t ++ bs).
Proof.
  intros Hs Ht H. induction Ht as [|ch t Hch Ht IH]; [unfold shown; by destruct (_ =? _)|].
  change (ch :: t) with ([ch] ++ t) at 2. rewrite shown_app, <- app_assoc.
  eapply yields_step; [|exact IH]. intros inc [Hr Hst] Hok. split; [apply Hr|]. split; [destruct Hr as (_ & _ & ->); lia|].
  by apply step_plain.
Qed.

Definition text_ok (t : list Z) : Prop := Forall (fun ch => ch <> 60) t /\ head t <> Some 62.
Lemma yields_text slack x c t f lower bs : 0 <= slack -> text_ok t ->
  yields slack x (ready c f) lower bs -> yields slack x (ready c (t ++ f)) lower (shown c t ++ bs).
Proof.
  intros Hs [Ht Hhd] H. destruct t as [|ch t]; [unfold shown; by destruct (_ =? _)|].
  apply Forall_cons in Ht as [Hch Ht]. change (ch :: t) with ([ch] ++ t) at 2. rewrite shown_app, <- app_assoc.
  apply (yields_step _ _ _ (passing c (t ++ f)) _ _ ch (t ++ f)).
  - intros inc Hr Hok. split; [apply Hr|]. split; [destruct Hr as (_ & _ & ->); lia|].
    destruct (proj2 Hok) as [Hst|Hst]; [by apply step_plain|].
    assert (Ho : opens [ch] = false).
    { unfold opens. change (zlen st <? zlen [ch]) with false. apply streq_false. intros [=]. done. }
    pose proof (step_gather slack inc [] c ch (t ++ f) Hs) as Hg. cbn [app] in Hg. rewrite Ho in Hg. apply Hg.
    + destruct Hr as (Hc & Hf & Hn). repeat split; try done. by exists (i_buf inc).
    + done.
    + done.
    + intros ->. by destruct Hhd.
  - apply yields_passing; [done..|]. eapply yields_weaken; [|exact H]. by intros inc [? _].
Qed.

Lemma opens_start d e body : st ++ body = d ++ e -> opens d = true.
Proof.
  intros H. unfold opens. destruct (Z.ltb_spec (zlen st) (zlen d)) as [|Hle]; [done|]. apply streq_true.
  assert (Hd : ztake (zlen d) (st ++ body) = d) by (rewrite H; apply ztake_prefix).
  rewrite <- Hd at 1. unfold ztake, zlen in *. apply take_app_le. lia.
Qed.

Lemma yields_gather slack x c d e f lower bs rest body : 0 <= slack -> d ++ e ++ rest = st ++ body -> zlen (d ++ e) <= 511 ->
  Forall (fun ch => ch <> 62) e ->
  yields slack x (gathered (d ++ e) c f) lower bs -> yields slack x (gathered d c (e ++ f)) lower bs.
Proof.
  intros Hs Hb Hl He H. revert d Hb Hl H. induction He as [|ch e Hch He IH]; intros d Hb Hl H; [by rewrite app_nil_r in H|].
  change bs with ([] ++ bs). pose proof (zlen_nonneg d). pose proof (zlen_nonneg e).
  assert (Hb' : (d ++ [ch]) ++ e ++ rest = st ++ body) by (by rewrite <- app_assoc).
  apply (yields_step _ _ _ (gathered (d ++ [ch]) c (e ++ f)) _ _ ch (e ++ f)).
  - intros inc Hg Hok. assert (Hg' := Hg). destruct Hg' as (_ & _ & Hf & Hn & _). rewrite zlen_app, zlen_cons in Hl.
    split; [done|]. split; [lia|]. pose proof (step_gather slack inc d c ch (e ++ f) Hs Hg Hok ltac:(lia) ltac:(done)) as Hst.
    by rewrite (opens_start (d ++ [ch]) (e ++ rest) body) in Hst by done.
  - apply IH; rewrite <- ?app_assoc; done.
Qed.

(** From the [<] on. *)
Lemma yields_open slack x c d f lower bs rest body : 0 <= slack -> (60 :: d) ++ rest = st ++ body -> zlen d <= 510 ->
  Forall (fun ch => ch <> 62) d ->
  yields slack x (gathered (60 :: d) c f) lower bs -> yields slack x (ready c (60 :: d ++ f)) lower bs.
Proof.
  intros Hs Hb Hl Hd H. change bs with ([] ++ bs).
  eapply (yields_step _ _ _ (gathered [60] c (d ++ f))).
  - intros inc Hr Hok. split; [apply Hr|]. split; [destruct Hr as (_ & _ & ->); lia|]. by apply step_lt.
  - apply (yields_gather _ _ _ _ _ _ _ _ rest body); [done|done| |done|done].
    rewrite zlen_app. change (zlen [60]) with 1. lia.
Qed.

(** A comment up to its closing [>]. *)
Lemma yields_comment slack x c body f lower bs : 0 <= slack -> zlen body <= 506 -> Forall (fun ch => ch <> 62) body ->
  yields slack x (gathered (st ++ body) c f) lower bs -> yields slack x (ready c (st ++ body ++ f)) lower bs.
Proof.
  intros Hs Hl Hb H. change (st ++ body ++ f) with (60 :: (tail st ++ body) ++ f).
  apply (yields_open _ _ _ _ _ _ _ [] body); [done|by rewrite app_nil_r| | |done].
  - rewrite zlen_app. change (zlen (tail st)) with 4. lia.
  - apply Forall_app. split; [|done]. by repeat constructor.
Qed.

(** A tag, or a comment that is not a command: [k] characters of [st], then one that
    differs. *)
Definition markup_ok (k : nat) (t : list Z) : Prop :=
  (1 <= k <= 4)%nat /\ Forall (fun ch => ch <> 60) t /\
  exists ch r, t = ch :: r /\ st !! k <> Some ch /\ (ch = 62 -> k = 2%nat \/ k = 3%nat).
Lemma markup_closes k ch r : markup_ok k (ch :: r) ->
  opens (take k st ++ [ch]) = false /\ goes_on (take k st) ch /\ zlen (take k st) = Z.of_nat k /\
  take k st = 60 :: tail (take k st) /\ Forall (fun c => c <> 62) (tail (take k st)).
Proof.
  intros (Hk & Ht & ch' & r' & [= <- <-] & Hne & Hgt).
  assert (Hk' : k = 1%nat \/ k = 2%nat \/ k = 3%nat \/ k = 4%nat) by lia.
  destruct Hk' as [-> | [-> | [-> | ->]]];
    (split; [apply bool_decide_eq_false; intros [= ->]; by destruct Hne|]; split;
     [intros H62; destruct (Hgt H62) as [Hx|Hx]; try discriminate Hx; done|]; repeat split; repeat constructor; done).
Qed.
Lemma yields_markup slack x c k t f lower bs : 0 <= slack -> markup_ok k t ->
  yields slack x (ready c f) lower bs ->
  yields slack x (ready c ((take k st ++ t) ++ f)) lower (shown c (take k st ++ t) ++ bs).
Proof.
  intros Hs Hm H. destruct t as [|ch r]; [by destruct Hm as (_ & _ & ? & ? & ? & _)|].
  destruct (markup_closes _ _ _ Hm) as (Ho & Hgo & Hl & Hd & Hgt). destruct Hm as (Hk & Ht & _).
  apply Forall_cons in Ht as [Hch Ht].
  replace (take k st ++ ch :: r) with ((take k st ++ [ch]) ++ r) by (by rewrite <- app_assoc).
  rewrite shown_app, <- !app_assoc. cbn [app].
  assert (HP : yields slack x (gathered (take k st) c (ch :: r ++ f)) lower (shown c (take k st ++ [ch]) ++ shown c r ++ bs)).
  { apply (yields_step _ _ _ (passing c (r ++ f)) _ _ ch (r ++ f)).
    - intros inc Hg Hok. assert (Hg' := Hg). destruct Hg' as (_ & _ & Hf & Hn & _).
      split; [done|]. split; [lia|]. pose proof (step_gather slack inc (take k st) c ch (r ++ f) Hs Hg Hok ltac:(lia) Hgo) as Hst.
      by rewrite Ho in Hst.
    - apply yields_passing; [done..|]. eapply yields_weaken; [|exact H]. by intros inc [? _]. }
  rewrite Hd at 1. cbn [app]. apply (yields_open _ _ _ _ _ _ _ (drop k st) []); [done| | |done|by rewrite <- Hd].
  - rewrite app_nil_r, <- Hd. apply take_drop.
  - assert (zlen (60 :: tail (take k st)) <= 4) by (rewrite <- Hd, Hl; lia). rewrite zlen_cons in *. lia.
Qed.

(** *** Commands *)

Definition command : Type := ssi W -> Z -> Z -> out -> run (ssi W * out).

(** The comment [d] makes the command [cmd], whatever is behind it in the buffer. *)
Definition selects (d : list Z) (cmd : command) : Prop :=
  forall inc junk, i_buf inc = d ++ junk -> i_nbuf inc = zlen d ->
    exists kw, find_cmd (known_ssi_commands E) inc = Some (kw, cmd).

(** [cmd] runs to [inc2] on its level, and leaves the others alone. *)
Definition executes slack (cmd : command) x d c f x' c' a : Prop :=
  zlen a <= zlen d + 1 + slack /\
  forall inc, gathered d c f inc -> inc_ok inc -> exists inc2,
    i_cond inc2 = c' /\ i_fp inc2 = Some f /\ inc_ok inc2 /\
    forall s len w, world s = x -> incs s !! nest s = Some (with_state SSI_PASS inc) -> fits (zlen d + 1 + slack) len w ->
      exists w', cmd s (o_n w) (len - o_n w) w = Ret (set_inc (nest s) inc2 (set_world x' s), w') /\ adds a w w'.

Lemma do_command_run slack s inc d c f cmd len w s2 w2 :
  0 <= slack -> gathered d c f inc -> selects d cmd -> incs s !! nest s = Some inc -> fits (zlen d + 1 + slack) len w ->
  cmd (set_inc (nest s) (with_state SSI_PASS inc) s) (o_n w) (len - o_n w) w = Ret (s2, w2) ->
  do_command E s (o_n w) (len - o_n w) w = (inc2 ← get_inc s2 (nest s); Ret (set_inc (nest s) (with_nbuf 0 inc2) s2, w2)).
Proof.
  intros Hs (Hst & Hc & Hf & Hn & junk & Hb) Hsel Hi Hw Hcmd. unfold do_command. rewrite (get_inc_at _ _ _ Hi). rsimpl.
  destruct Hw as (? & ? & ? & ?). pose proof (zlen_nonneg d).
  rewrite (proj2 (Z.leb_gt (len - o_n w) 0)), (proj2 (Z.ltb_ge (len - o_n w) (i_nbuf inc))) by lia. cbn [orb].
  destruct (Hsel (with_state SSI_PASS inc) junk Hb Hn) as [kw ->]. cbn [snd]. rewrite Hcmd. done.
Qed.

(** The [>] that ends the comment [d]. *)
Definition closed (d : list Z) : Prop := 2 <= zlen d <= 510 /\ slice (zlen d - 2) 2 d = str "--".
Lemma read_char_close s inc d c f r len w : gathered d c f inc -> closed d -> i_fp inc = Some r ->
  read_char E s inc len 62 w = do_command E s (o_n w) (len - o_n w) w.
Proof.
  intros (Hst & Hc & Hf & Hn & junk & Hb) [Hl Hd] _. unfold read_char. rewrite Hst.
  change (SSI_BUF =? SSI_PASS) with false. change (SSI_BUF =? SSI_BUF) with true. cbn iota. unfold buffer_char.
  rewrite (proj2 (Z.leb_gt (CMDBUFSIZ - 1) (i_nbuf inc))) by (unfold CMDBUFSIZ; lia).
  change (62 =? 62) with true. cbn iota. pose proof (zlen_nonneg junk).
  rewrite rread_in by (rewrite ?Hb, ?zlen_app; lia). rsimpl. by rewrite Hb, Hn, slice_prefix, Hd by lia.
Qed.

Lemma yields_close slack x c d f lower x' P' lower' a bs : 0 <= slack -> closed d -> zlen a <= zlen d + 1 + slack ->
  (forall s inc, view x (eq inc) lower s -> gathered d c f inc -> exists s', view x' P' lower' s' /\
     forall len w, fits (zlen d + 1 + slack) len w ->
       exists w', do_command E s (o_n w) (len - o_n w) w = Ret (s', w') /\ adds a w w') ->
  yields slack x' P' lower' bs -> yields slack x (gathered d c (62 :: f)) lower (a ++ bs).
Proof.
  intros Hs Hd Ha HX H s Hv. destruct (v_inc _ _ _ _ Hv) as (inc & Hi & Hg).
  assert (Hok : inc_ok inc) by (eapply Forall_lookup_1, Hi; apply Hv).
  set (inc1 := with_fp (Some f) inc). set (s1 := set_inc (nest s) inc1 s).
  assert (Hg1 : gathered d c f inc1) by (destruct Hg as (? & ? & ? & ? & ?); repeat split; done).
  assert (Hv1 : view x (eq inc1) lower s1).
  { unfold s1. replace s with (set_world x s) at 2 by (destruct Hv as [<- _ _ _ _ _]; by destruct s). by eapply view_set. }
  destruct (HX s1 inc1 Hv1 Hg1) as (s' & Hv' & Hcmd). destruct (H s' Hv') as [k Hk]. exists (S k).
  destruct Hg as (Hst & Hc & Hf & Hn & Hb). destruct Hok as [_ Hst']. destruct (Hd) as [? _].
  apply (runs_char slack k s inc 62 f a s' bs); [|done|by rewrite Hn| |done].
  - split; [done|]. split; [done|lia].
  - intros len w Hw. fold inc1 s1. rewrite (read_char_close s1 inc1 d c f f) by done. apply Hcmd. by rewrite <- Hn.
Qed.

(** A command that stays on its level. *)
Lemma yields_command slack x c d f lower cmd x' c' a bs : 0 <= slack -> closed d -> selects d cmd ->
  executes slack cmd x d c f x' c' a -> yields slack x' (ready c' f) lower bs ->
  yields slack x (gathered d c (62 :: f)) lower (a ++ bs).
Proof.
  intros Hs Hd Hsel [Ha Hex] H. apply (yields_close slack x c d f lower x' (ready c' f) lower a bs); [done..| |done].
  intros s inc Hv Hg. destruct (v_inc _ _ _ _ Hv) as (i & Hi & <-).
  assert (Hok : inc_ok inc) by (eapply Forall_lookup_1, Hi; apply Hv).
  destruct (Hex inc Hg Hok) as (inc2 & Hc2 & Hf2 & Hok2 & Hcmd).
  exists (set_inc (nest s) (with_nbuf 0 inc2) (set_world x' s)). split.
  - apply (view_set x (eq inc) (ready c' f) lower s _ x' Hv); [done|]. by destruct Hok2.
  - intros len w Hw. pose proof (view_lt _ _ _ _ Hv) as Hlt.
    destruct (Hcmd (set_inc (nest s) (with_state SSI_PASS inc) s) len w) as (w' & Hrun & Hadd); [apply Hv| |done|].
    { cbn. by apply list_lookup_insert_eq. }
    exists w'. split; [|done]. erewrite do_command_run; [|done..|exact Hrun].
    rewrite get_inc_at with (inc := inc2) by (cbn; rewrite list_insert_insert_eq; by apply list_lookup_insert_eq).
    rsimpl. unfold set_inc, set_world. cbn. by rewrite !list_insert_insert_eq.
Qed.

(** [trim_spaces] on a command word, a blank, the attributes and [ -->]. *)
Lemma splice_one (a : list Z) x y b : splice (zlen a) [x] (a ++ y :: b) = a ++ x :: b.
Proof.
  unfold splice. rewrite ztake_prefix. do 2 f_equal. unfold zdrop, zlen. cbn [length].
  replace (Z.to_nat _) with (length a + 1)%nat by lia. rewrite drop_app_ge by lia.
  by replace (length a + 1 - length a)%nat with 1%nat by lia.
Qed.
Lemma rwrite_one (a : list Z) x y b o : o = zlen a -> rwrite o [x] (a ++ y :: b) = Ret (a ++ x :: b).
Proof.
  intros ->. pose proof (zlen_nonneg a). pose proof (zlen_nonneg b).
  rewrite rwrite_in by (rewrite ?zlen_app, ?zlen_cons, ?zlen_nil; lia). by rewrite splice_one.
Qed.
Lemma znth_one (a : list Z) y b o : o = zlen a -> znth (a ++ y :: b) o = y.
Proof. intros ->. unfold znth, zlen. rewrite Nat2Z.id, app_nth2, Nat.sub_diag by lia. done. Qed.

(** Attributes of a command: no blank at either end, no NUL and no [>]. *)
Definition arg_ok (arg : list Z) : Prop :=
  Forall (fun ch => ch <> 0 /\ ch <> 62) arg /\
  exists c z, head arg = Some c /\ last arg = Some z /\ isspace c = false /\ isspace z = false.
Lemma arg_nonul arg : arg_ok arg -> nonul arg.
Proof. intros [H _]. eapply Forall_impl; [exact H|]. by intros ? [? _]. Qed.

Definition directive (pre arg : list Z) : list Z := pre ++ 32 :: arg ++ str " --".
Lemma trim_spaces_eq inc pre arg junk :
  Forall (fun ch => isspace ch = false) pre -> arg_ok arg -> i_buf inc = directive pre arg ++ junk ->
  i_nbuf inc = zlen (directive pre arg) ->
  trim_spaces inc = Ret (with_buf (pre ++ 32 :: arg ++ 0 :: 0 :: 45 :: junk) inc, arg ++ 0 :: 0 :: 45 :: junk).
Proof.
  intros Hpre Ha Hb Hn. pose proof (arg_nonul _ Ha) as Hnul. destruct Ha as (Harg & ch & z & Hc & Hz & Hsc & Hsz).
  apply last_Some in Hz as [a0 ->]. unfold trim_spaces, directive in *. rewrite Hb, Hn.
  set (q := pre ++ 32 :: a0) in *.
  assert (E0 : pre ++ 32 :: (a0 ++ [z]) ++ str " --" = (q ++ [z; 32]) ++ [45; 45]) by (unfold q; by rewrite <- !app_assoc).
  rewrite E0. rewrite <- (app_assoc (q ++ [z; 32])). cbn [app].
  assert (El : zlen ((q ++ [z; 32]) ++ [45; 45]) - 2 = zlen (q ++ [z; 32])) by (rewrite (zlen_app _ [45; 45]); change (zlen [45; 45]) with 2; lia).
  rewrite El. rewrite (rwrite_one (q ++ [z; 32]) 0 45 (45 :: junk)) by done. rsimpl.
  replace (Z.to_nat (zlen (q ++ [z; 32]))) with (S (S (length q))) by (unfold zlen; rewrite length_app; cbn; lia).
  cbn [trim_right]. replace ((q ++ [z; 32]) ++ 0 :: 45 :: junk) with ((q ++ [z]) ++ 32 :: 0 :: 45 :: junk) by (by rewrite <- !app_assoc).
  assert (El2 : Z.of_nat (S (length q)) = zlen (q ++ [z])) by (unfold zlen; rewrite length_app; cbn; lia).
  rewrite El2, znth_one by done. change (isspace 32) with true. cbn iota. rewrite rwrite_one by done. rsimpl.
  rewrite <- app_assoc. cbn [app]. rewrite znth_one by done. rewrite Hsz. rsimpl.
  assert (E1 : q ++ z :: 0 :: 0 :: 45 :: junk = pre ++ 32 :: (a0 ++ [z]) ++ 0 :: 0 :: 45 :: junk)
    by (unfold q; by rewrite <- !app_assoc). rewrite E1.
  assert (E2 : forall l, to_space (pre ++ 32 :: l) = Ret (32 :: l)).
  { intros l. clear -Hpre. induction Hpre as [|c pre Hc _ IH]; [done|]. cbn. by rewrite Hc. }
  rewrite E2. rsimpl. cbn [over_spaces]. change (negb (32 =? 0) && isspace 32) with true. cbn iota.
  destruct (a0 ++ [z]) as [|c0 r] eqn:Ea; [by destruct a0|]. injection Hc as ->. cbn [app over_spaces].
  rewrite Hsc, andb_false_r. done.
Qed.

(** The comment of a command word and its attributes. *)
Definition comment (kw arg : list Z) : list Z := st ++ kw ++ 32 :: arg ++ str " --".
Lemma comment_directive kw arg : comment kw arg = directive (st ++ kw) arg.
Proof. unfold comment, directive. by rewrite app_assoc. Qed.
Lemma zlen_comment kw arg : zlen (comment kw arg) = zlen kw + zlen arg + 9.
Proof. unfold comment. rewrite !zlen_app, zlen_cons, zlen_app. change (zlen st) with 5. change (zlen (str " --")) with 3. lia. Qed.
Lemma closed_app d : 2 <= zlen (d ++ str "--") <= 510 -> closed (d ++ str "--").
Proof.
  intros H. split; [done|]. apply (slice_at d (str "--") []); [by rewrite app_nil_r| |done].
  rewrite zlen_app. change (zlen (str "--")) with 2. lia.
Qed.
Lemma comment_closed kw arg : zlen kw + zlen arg <= 501 -> closed (comment kw arg).
Proof.
  intros H. assert (E1 : comment kw arg = (st ++ kw ++ 32 :: arg ++ [32]) ++ str "--").
  { unfold comment. rewrite <- !app_assoc. cbn [app]. do 3 f_equal. by rewrite <- app_assoc. }
  pose proof (zlen_comment kw arg). pose proof (zlen_nonneg kw). pose proof (zlen_nonneg arg).
  rewrite E1. apply closed_app. rewrite <- E1. lia.
Qed.

(** Finds the command of a comment with a known command word. *)
Ltac select_command :=
  intros inc junk Hb Hn; eexists; unfold known_ssi_commands; cbn [find_cmd fst];
  rewrite Hb, Hn, ?zlen_comment;
  repeat match goal with |- context [has_prefix ?p ?b] =>
    let v := eval vm_compute in (has_prefix p b) in change (has_prefix p b) with v end;
  rewrite ?andb_false_r, andb_true_r;
  rewrite (proj2 (Z.ltb_lt _ _));
  [reflexivity | try solve [vm_compute; reflexivity]; repeat match goal with |- context [zlen (str ?x)] =>
     let v := eval vm_compute in (zlen (str x)) in change (zlen (str x)) with v end; change (zlen st) with 5; lia].
Lemma selects_if arg : 0 < zlen arg -> selects (comment (str "if") arg) (do_if E).
Proof. intros. select_command. Qed.
Lemma selects_elif arg : 0 < zlen arg -> selects (comment (str "elif") arg) (do_elif E).
Proof. intros. select_command. Qed.
Lemma selects_include arg : 0 < zlen arg -> selects (comment (str "include") arg) (do_include E).
Proof. intros. select_command. Qed.
Lemma selects_exec arg : 0 < zlen arg -> selects (comment (str "exec") arg) (do_exec E).
Proof. intros. select_command. Qed.
Lemma selects_sysctl arg : 0 < zlen arg -> selects (comment (str "sysctl") arg) (do_sysctl E).
Proof. intros. select_command. Qed.
Lemma selects_kenv arg : 0 < zlen arg -> selects (comment (str "kenv") arg) (do_kenv E).
Proof. intros. select_command. Qed.
Lemma selects_else : selects (st ++ str "else --") do_else.
Proof. select_command. Qed.
Lemma selects_endif : selects (st ++ str "endif --") do_endif.
Proof. select_command. Qed.

(** What a condition says: the name is what is in front of the first blank. *)
Definition split_blank (arg : list Z) : list Z * option (list Z) :=
  match strchr arg 32 with
  | Some r => (take (length arg - length r) arg, Some (tail r))
  | None => (arg, None)
  end.
Definition test_out (x : W) (arg : list Z) : W * bool :=
  let '(name, param) := split_blank arg in
  match find_ssi_func (e_funcs E) name with
  | Some f => let '(x', r) := f x param 0 in (x', r_eval_true r)
  | None => (x, false)
  end.
(** Without room a function prints nothing. *)
Definition keeps_quiet : Prop :=
  forall name f x a, find_ssi_func (e_funcs E) name = Some f -> r_out (snd (f x a 0)) = [].

Lemma strchr_suffix (l : list Z) c r : strchr l c = Some r -> exists p, l = p ++ r /\ r <> [].
Proof.
  revert r. induction l as [|b l IH]; intros r H; [done|]. cbn in H. destruct (b =? c).
  - injection H as <-. by exists [].
  - destruct (IH _ H) as (p & -> & ?). by exists (b :: p).
Qed.
Lemma set_world_id s : set_world (world s) s = s.
Proof. by destruct s. Qed.
Lemma evaluate_eq inc arg rest p : keeps_quiet -> i_buf inc = p ++ arg ++ 0 :: rest -> nonul arg ->
  exists b, zlen b = zlen (i_buf inc) /\ forall s w, evaluate E s inc (arg ++ 0 :: rest) w =
    Ret (set_world (fst (test_out (world s) arg)) s, with_buf b inc, snd (test_out (world s) arg)).
Proof.
  intros Hq Hb Hn. unfold evaluate, call, test_out, split_blank. rewrite string_at_app by done. rsimpl.
  assert (HX : forall name param b, (forall f x a, find_ssi_func (e_funcs E) name = Some f -> r_out (snd (f x a 0)) = []) ->
    forall s w, (x ← match find_ssi_func (e_funcs E) name with
      | None => Ret (s, with_buf b inc, no_result, w)
      | Some f => let '(x, r) := f (world s) param 0 in
          if 0 <? zlen (r_out r) then Undef else (w ← Ret w; Ret (set_world x s, with_buf b inc, r, w))
      end; let '(s, inc, r, _) := x in Ret (s, inc, r_eval_true r)) =
    (let t := match find_ssi_func (e_funcs E) name with
       | Some f => let '(x', r) := f (world s) param 0 in (x', r_eval_true r)
       | None => (world s, false)
       end in Ret (set_world (fst t) s, with_buf b inc, snd t))).
  { intros name param b Hf s w. destruct (find_ssi_func _ name) as [f|] eqn:Ef; rsimpl.
    - specialize (Hf f (world s) param eq_refl). destruct (f (world s) param 0) as [x r]. cbn in Hf. by rewrite Hf.
    - cbn. by rewrite set_world_id. }
  destruct (strchr arg 32) as [r|] eqn:Er; cbn zeta iota beta.
  - destruct (strchr_suffix _ _ _ Er) as (q & -> & Hr). set (o := zlen (i_buf inc) - _ + _ - _).
    assert (Hr0 : 0 < zlen r) by (destruct r as [|? r]; [done|]; rewrite zlen_cons; pose proof (zlen_nonneg r); lia).
    assert (Ho : 0 <= o /\ o + zlen [0] <= zlen (i_buf inc)).
    { unfold o. rewrite Hb. change (zlen [0]) with 1. rewrite !zlen_app, !zlen_cons. pose proof (zlen_nonneg p). pose proof (zlen_nonneg q). pose proof (zlen_nonneg rest). lia. }
    exists (splice o [0] (i_buf inc)). split; [apply zlen_splice; apply Ho|]. intros s w. rewrite rwrite_in by apply Ho. rsimpl.
    exact (HX _ _ _ (fun f x a => Hq _ f x a) s w).
  - exists (i_buf inc). split; [done|]. intros s w. rsimpl. exact (HX _ _ _ (fun f x a => Hq _ f x a) s w).
Qed.

Definition word_ok (kw : list Z) : Prop := Forall (fun ch => isspace ch = false) (st ++ kw).
Lemma trim_comment inc kw arg c f : word_ok kw -> arg_ok arg -> gathered (comment kw arg) c f inc ->
  exists p rest, zlen (p ++ arg ++ 0 :: rest) = zlen (i_buf inc) /\
    trim_spaces (with_state SSI_PASS inc) = Ret (with_buf (p ++ arg ++ 0 :: rest) (with_state SSI_PASS inc), arg ++ 0 :: rest).
Proof.
  intros Hk Ha (_ & _ & _ & Hn & junk & Hb). rewrite comment_directive in *.
  exists ((st ++ kw) ++ [32]), (0 :: 45 :: junk). split.
  - rewrite Hb. unfold directive. repeat (rewrite zlen_app || rewrite zlen_cons).
    change (zlen (str " --")) with 3. change (zlen (@nil Z)) with 0. lia.
  - rewrite (trim_spaces_eq _ (st ++ kw) arg junk); [|done..]. do 3 f_equal. by rewrite <- !app_assoc.
Qed.

Lemma zlen_nil_le (d : list Z) slack : 0 <= slack -> zlen (@nil Z) <= zlen d + 1 + slack.
Proof. intros. change (zlen (@nil Z)) with 0. pose proof (zlen_nonneg d). lia. Qed.

Lemma executes_if slack x arg c f : 0 <= slack -> keeps_quiet -> arg_ok arg ->
  executes slack (do_if E) x (comment (str "if") arg) c f (fst (test_out x arg))
    (if snd (test_out x arg) then SSI_GO else SSI_STOP) [].
Proof.
  intros Hs Hq Ha. split; [by apply zlen_nil_le|]. intros inc Hg Hok.
  destruct (trim_comment inc (str "if") arg c f) as (p & rest & Hl & Ht); [by repeat constructor|done..|].
  set (inc1 := with_buf _ _) in Ht. destruct (evaluate_eq inc1 arg rest p Hq eq_refl (arg_nonul _ Ha)) as (b & Hb & Hev).
  exists (with_cond (if snd (test_out x arg) then SSI_GO else SSI_STOP) (with_buf b inc1)).
  split; [done|]. split; [apply Hg|]. split; [split; [cbn; rewrite Hb; cbn; rewrite Hl; apply Hok|by left]|].
  intros s len w Hx Hi Hw. exists w. split; [|apply adds_nil]. unfold do_if. rewrite (get_inc_at _ _ _ Hi). rsimpl.
  rewrite Ht. rsimpl. rewrite Hev. rsimpl. by rewrite Hx.
Qed.
Lemma executes_elif slack x arg c f : 0 <= slack -> keeps_quiet -> arg_ok arg ->
  executes slack (do_elif E) x (comment (str "elif") arg) c f
    (if c =? SSI_STOP then fst (test_out x arg) else x)
    (if (c =? SSI_STOP) && snd (test_out x arg) then SSI_GO else SSI_STOP) [].
Proof.
  intros Hs Hq Ha. split; [by apply zlen_nil_le|]. intros inc Hg Hok.
  destruct (trim_comment inc (str "elif") arg c f) as (p & rest & Hl & Ht); [by repeat constructor|done..|].
  set (inc1 := with_buf _ _) in Ht. assert (Hc : i_cond inc1 = c) by apply Hg.
  destruct (Z.eqb_spec c SSI_STOP) as [Hstop|Hgo]; cbn [andb].
  - destruct (evaluate_eq inc1 arg rest p Hq eq_refl (arg_nonul _ Ha)) as (b & Hb & Hev).
    exists (with_cond (if snd (test_out x arg) then SSI_GO else SSI_STOP) (with_buf b inc1)).
    split; [done|]. split; [apply Hg|]. split; [split; [cbn; rewrite Hb; cbn; rewrite Hl; apply Hok|by left]|].
    intros s len w Hx Hi Hw. exists w. split; [|apply adds_nil]. unfold do_elif. rewrite (get_inc_at _ _ _ Hi). rsimpl.
    rewrite Ht. rsimpl. rewrite Hc, Hstop. change (SSI_STOP =? SSI_STOP) with true. cbn iota. rewrite Hev. rsimpl. by rewrite Hx.
  - exists (with_cond SSI_STOP inc1). split; [done|]. split; [apply Hg|]. split; [split; [cbn; rewrite Hl; apply Hok|by left]|].
    intros s len w Hx Hi Hw. exists w. split; [|apply adds_nil]. unfold do_elif. rewrite (get_inc_at _ _ _ Hi). rsimpl.
    rewrite Ht. rsimpl. rewrite Hc, (proj2 (Z.eqb_neq c SSI_STOP)) by done. by rewrite <- Hx, set_world_id.
Qed.
Lemma executes_else slack x c f : 0 <= slack ->
  executes slack do_else x (st ++ str "else --") c f x (if c =? SSI_GO then SSI_STOP else SSI_GO) [].
Proof.
  intros Hs. split; [by apply zlen_nil_le|]. intros inc Hg Hok.
  exists (with_cond (if c =? SSI_GO then SSI_STOP else SSI_GO) (with_state SSI_PASS inc)).
  split; [done|]. split; [apply Hg|]. split; [split; [apply Hok|by left]|].
  intros s len w Hx Hi Hw. exists w. split; [|apply adds_nil]. unfold do_else. rewrite (get_inc_at _ _ _ Hi). rsimpl.
  destruct Hg as (_ & Hc & _). cbn [i_cond with_state]. by rewrite Hc, <- Hx, set_world_id.
Qed.
Lemma executes_endif slack x c f : 0 <= slack ->
  executes slack do_endif x (st ++ str "endif --") c f x SSI_GO [].
Proof.
  intros Hs. split; [by apply zlen_nil_le|]. intros inc Hg Hok.
  exists (with_cond SSI_GO (with_state SSI_PASS inc)).
  split; [done|]. split; [apply Hg|]. split; [split; [apply Hok|by left]|].
  intros s len w Hx Hi Hw. exists w. split; [|apply adds_nil]. unfold do_endif. rewrite (get_inc_at _ _ _ Hi). rsimpl.
  by rewrite <- Hx, set_world_id.
Qed.

(** A quoted name, decoded as the commands do. *)
Definition quote (name : list Z) : list Z := QUOTE :: name ++ [QUOTE].
Definition name_ok (name : list Z) : Prop := Forall (fun ch => ch <> 0 /\ ch <> 62 /\ ch <> QUOTE) name.
Lemma quote_ok name : name_ok name -> arg_ok (quote name).
Proof.
  intros H. split.
  - constructor; [done|]. apply Forall_app. split; [|by repeat constructor]. eapply Forall_impl; [exact H|]. by intros ? (? & ? & ?).
  - exists QUOTE, QUOTE. split; [done|]. split; [|done]. unfold quote. by rewrite app_comm_cons, last_snoc.
Qed.
Definition decoded (name : list Z) : option (list Z) :=
  let '(cmd, ok) := e_url_decode E name CMDBUFSIZ in if ok : bool then Some cmd else None.
Lemma strchr_quote name r : name_ok name -> strchr (name ++ QUOTE :: r) QUOTE = Some (QUOTE :: r).
Proof.
  induction 1 as [|c name (? & ? & Hc) _ IH]; [done|]. cbn [app strchr]. by rewrite (proj2 (Z.eqb_neq c QUOTE)).
Qed.
Lemma quoted_eq name rest : name_ok name -> quoted E (quote name ++ 0 :: rest) = Ret (decoded name).
Proof.
  intros H. unfold quoted. rewrite string_at_app by (by apply arg_nonul, quote_ok). rsimpl. unfold quote.
  change (QUOTE =? QUOTE) with true. cbn iota. rewrite (strchr_quote name []) by done. unfold decoded.
  replace (length (name ++ [QUOTE]) - length [QUOTE])%nat with (length name) by (rewrite length_app; cbn; lia).
  rewrite take_app_length. by destruct (e_url_decode E name CMDBUFSIZ).
Qed.

(** What [#sysctl] and [#kenv] print for the value a name has: the string without its
    NUL, when there is room for both. *)
Definition answers (query : list Z -> Z -> option (list Z)) (value : list Z -> option (list Z)) : Prop :=
  forall n l, match value n with
              | Some v => zlen v < l -> query n l = Some (v ++ [0])
              | None => query n l = None
              end.
Definition query_out (value : list Z -> option (list Z)) (c : Z) (name : list Z) : list Z :=
  shown c (default [] (decoded name ≫= value)).

Lemma executes_query slack x kw query value name c f : 0 <= slack -> word_ok kw -> name_ok name -> answers query value ->
  c = SSI_GO \/ c = SSI_STOP -> zlen (query_out value c name) < slack ->
  executes slack (do_query E query) x (comment kw (quote name)) c f x c (query_out value c name).
Proof.
  intros Hs Hk Hn Hans Hc Hv. set (v := query_out value c name) in *. pose proof (zlen_nonneg (comment kw (quote name))).
  split; [lia|]. intros inc Hg Hok.
  destruct (trim_comment inc kw (quote name) c f) as (p & rest & Hl & Ht); [done|by apply quote_ok|done|].
  set (inc1 := with_buf _ _) in Ht.
  set (hit := (c =? SSI_GO) && bool_decide (is_Some (decoded name ≫= value))).
  exists (if hit then with_state SSI_STOP inc1 else inc1).
  split; [destruct hit; apply Hg|]. split; [destruct hit; apply Hg|].
  split; [destruct hit; (split; [exact (eq_trans Hl (proj1 Hok))|by (left + right)])|].
  intros s len w Hx Hi Hw. unfold do_query. rewrite (get_inc_at _ _ _ Hi). rsimpl. rewrite Ht. rsimpl.
  assert (Hc1 : i_cond inc1 = c) by apply Hg. rewrite Hc1.
  assert (Hno : v = [] -> hit = false -> exists w', Ret (set_inc (nest s) inc1 s, w) =
    Ret (set_inc (nest s) (if hit then with_state SSI_STOP inc1 else inc1) (set_world x s), w') /\ adds v w w').
  { intros -> ->. exists w. split; [by rewrite <- Hx, set_world_id|apply adds_nil]. }
  destruct Hc as [-> | ->]; [|by apply Hno].
  change (SSI_GO =? SSI_STOP) with false. cbn iota. rewrite quoted_eq by done. rsimpl.
  unfold query_out, shown in v. change (SSI_GO =? SSI_GO) with true in *. cbn [andb] in hit.
  destruct (decoded name) as [cmd|]; cbn [mbind option_bind default] in *; [|by apply Hno].
  specialize (Hans cmd (len - o_n w)). destruct (value cmd) as [u|] eqn:Eu; [|rewrite Hans; by apply Hno].
  assert (Ev : v = u) by (subst v; cbn; rewrite ?Eu; done). clearbody v. subst v. assert (Hw' := Hw). destruct Hw' as (? & ? & ? & ?). rewrite Hans by lia.
  assert (Hz : zlen (u ++ [0]) = zlen u + 1) by (rewrite zlen_app; done). pose proof (zlen_nonneg u).
  rewrite (proj2 (Z.ltb_ge (len - o_n w) (zlen (u ++ [0])))) by lia.
  unfold put. rewrite rwrite_in by lia. rsimpl. eexists. split; [|].
  - rewrite set_inc_set_inc. unfold count. cbn [o_n o_buf]. replace (o_n w + (zlen (u ++ [0]) - 1)) with (o_n w + zlen u) by lia.
    change hit with true. by rewrite <- Hx, set_world_id.
  - eapply splice_adds; [exact Hw|]. change (zlen [0]) with 1. lia.
Qed.

(** [#exec]: the output of the command, when it fits. *)
Definition exec_out (c : Z) (name : list Z) : list Z := shown c (default [] (decoded name ≫= e_popen E)).
Lemma read_pipe_all n d : (length d < n)%nat -> read_pipe n d = (d, None).
Proof.
  revert n. induction d as [|ch d IH]; intros [|n] H; cbn in *; try lia; [done|]. by rewrite IH by lia.
Qed.
Lemma do_exec2_eq s inc d len w need : incs s !! nest s = Some inc -> i_pipe inc = Some d -> fits need len w -> zlen d < need ->
  exists w', do_exec2 s (o_n w) (len - o_n w) w = Ret (set_inc (nest s) (with_pipe None (with_state SSI_PASS inc)) s, w') /\ adds d w w'.
Proof.
  intros Hi Hp Hw Hd. pose proof (zlen_nonneg d). assert (Hw' := Hw). destruct Hw' as (? & ? & ? & ?).
  unfold do_exec2. rewrite (get_inc_at _ _ _ Hi). rsimpl. rewrite (proj2 (Z.leb_gt (len - o_n w) 0)) by lia. rewrite Hp.
  rewrite read_pipe_all by (unfold zlen in *; lia). unfold put. rewrite rwrite_in by lia. rsimpl. eexists. split; [done|].
  unfold count. cbn. eapply emit_adds; [exact Hw|lia].
Qed.
Lemma executes_exec slack x name c f : 0 <= slack -> name_ok name ->
  c = SSI_GO \/ c = SSI_STOP -> zlen (exec_out c name) < slack ->
  executes slack (do_exec E) x (comment (str "exec") (quote name)) c f x c (exec_out c name).
Proof.
  intros Hs Hn Hc Hv. set (v := exec_out c name) in *. pose proof (zlen_nonneg (comment (str "exec") (quote name))).
  split; [lia|]. intros inc Hg Hok.
  destruct (trim_comment inc (str "exec") (quote name) c f) as (p & rest & Hl & Ht); [by repeat constructor|by apply quote_ok|done|].
  set (inc1 := with_buf _ _) in Ht.
  set (inc2 := if (c =? SSI_GO) && bool_decide (is_Some (decoded name)) then with_pipe None inc1 else inc1).
  assert (H2 : exists q, inc2 = with_pipe q inc1) by (unfold inc2; destruct (_ && _); [by eexists|by exists (i_pipe inc1)]).
  exists inc2. destruct H2 as (q & H2). split; [by rewrite H2; apply Hg|]. split; [by rewrite H2; apply Hg|].
  split; [rewrite H2; split; [exact (eq_trans Hl (proj1 Hok))|by left]|].
  intros s len w Hx Hi Hw. unfold do_exec. rewrite (get_inc_at _ _ _ Hi). rsimpl. rewrite Ht. rsimpl.
  assert (Hc1 : i_cond inc1 = c) by apply Hg. rewrite Hc1. rewrite <- Hx, set_world_id. clear q H2.
  destruct Hc as [-> | ->]; [|exists w; split; [done|apply adds_nil]].
  change (SSI_GO =? SSI_STOP) with false. cbn iota. rewrite quoted_eq by done. rsimpl.
  unfold exec_out, shown in v. change (SSI_GO =? SSI_GO) with true in *. cbn [andb] in inc2.
  destruct (decoded name) as [cmd|]; [|exists w; split; [done|apply adds_nil]].
  change inc2 with (with_pipe None inc1). cbn [mbind option_bind default] in v.
  destruct (e_popen E cmd) as [d|] eqn:Ed.
  2:{ exists w. rewrite set_inc_set_inc. split; [done|]. unfold v. rewrite ?Ed. apply adds_nil. }
  assert (Ev : v = d) by (subst v; cbn; rewrite ?Ed; done). clearbody v. subst v.
  set (s1 := set_inc _ (with_state SSI_EXEC _) _).
  destruct (do_exec2_eq s1 (with_state SSI_EXEC (with_pipe (Some d) inc1)) d len w (zlen (comment (str "exec") (quote name)) + 1 + slack)) as (w' & Hrun & Hadd); [|done|done|lia|].
  { cbn. rewrite list_insert_insert_eq. apply list_lookup_insert_eq. by apply lookup_lt_Some in Hi. }
  exists w'. split; [|done]. change (nest s1) with (nest s) in Hrun. rewrite Hrun. unfold s1. by rewrite !set_inc_set_inc.
Qed.

(** ** [#include] *)

Inductive path_kind := Cwd | File | Virtual.
Definition include_arg (k : path_kind) (name : list Z) : list Z :=
  match k with Cwd => [] | File => str "file=" | Virtual => str "virtual=" end ++ quote name.
(** The directory a path is taken from: with [file] the URI up to its last slash, which
    [get_path] leaves out. *)
Definition include_dir (k : path_kind) : list Z :=
  match k with
  | Cwd => []
  | File => let dst := e_snprintf E FILENAME_MAX (e_root E ++ [DIRSEP] ++ e_uri E) in
            take (back_to_slash (length dst) (dst ++ [0])) dst
  | Virtual => e_snprintf E FILENAME_MAX (e_root E ++ [DIRSEP])
  end.
Definition resolve (k : path_kind) (name : list Z) : list Z :=
  include_dir k ++ fst (e_url_decode E name (FILENAME_MAX - zlen (include_dir k))).

Lemma upto_quote_app name r : name_ok name -> upto_quote (name ++ QUOTE :: r) = Some name.
Proof.
  induction 1 as [|c name (? & ? & Hc) _ IH]; [done|]. cbn [app upto_quote].
  by rewrite (proj2 (Z.eqb_neq c QUOTE)), IH by done.
Qed.
Lemma get_path_eq k name : name_ok name -> get_path E (include_arg k name ++ str " --") FILENAME_MAX = Some (resolve k name).
Proof.
  intros Hn. pose proof (zlen_nonneg name).
  assert (Hlen : forall p, (zlen p <? zlen ((p ++ name ++ [QUOTE]) ++ str " --")) = true).
  { intros p. apply Z.ltb_lt. rewrite !zlen_app. change (zlen [QUOTE]) with 1. change (zlen (str " --")) with 3. lia. }
  assert (Hup : forall p : list Z, upto_quote (zdrop (zlen p) ((p ++ name ++ [QUOTE]) ++ str " --")) = Some name).
  { intros p. rewrite <- !app_assoc. unfold zdrop, zlen. rewrite Nat2Z.id, drop_app_length. by apply upto_quote_app. }
  unfold get_path, accepted, resolve, include_dir.
  destruct k; unfold include_arg, quote; rewrite ?app_nil_l; cbn [get_path_loop].
  - change (QUOTE :: name ++ [QUOTE]) with ([QUOTE] ++ name ++ [QUOTE]). rewrite Hlen, Hup.
    rewrite <- app_assoc, has_prefix_app. cbn [andb]. change (zlen [QUOTE] =? 6) with false. change (zlen [QUOTE] =? 9) with false. done.
  - change (str "file=" ++ QUOTE :: name ++ [QUOTE]) with ((str "file=" ++ [QUOTE]) ++ name ++ [QUOTE]).
    rewrite Hlen, Hup. rewrite <- app_assoc, has_prefix_app.
    replace (has_prefix [QUOTE] _) with false by reflexivity. rewrite andb_false_r. cbn [andb].
    change (zlen (str "file=" ++ [QUOTE]) =? 6) with true. done.
  - change (str "virtual=" ++ QUOTE :: name ++ [QUOTE]) with ((str "virtual=" ++ [QUOTE]) ++ name ++ [QUOTE]).
    rewrite Hlen, Hup. rewrite <- app_assoc, has_prefix_app.
    replace (has_prefix [QUOTE] _) with false by reflexivity. replace (has_prefix (str "file=" ++ [QUOTE]) _) with false by reflexivity.
    rewrite !andb_false_r. cbn [andb].
    change (zlen (str "virtual=" ++ [QUOTE]) =? 6) with false. change (zlen (str "virtual=" ++ [QUOTE]) =? 9) with true. done.
Qed.

(** The file [#include] opens, if any: only under a condition that holds, and below the
    sixth level. *)
Definition opened (k : path_kind) (name : list Z) (c : Z) (level : nat) : option (list Z) :=
  if (c =? SSI_STOP) || (NEST_MAX - 1 <=? level)%nat then None else e_fopen E (resolve k name).

Lemma do_include_eq s inc k name c f o len w : name_ok name ->
  gathered (comment (str "include") (include_arg k name)) c f inc -> incs s !! nest s = Some (with_state SSI_PASS inc) ->
  do_include E s o len w =
    match opened k name c (nest s) with
    | None => Ret (s, w)
    | Some fp => i ← get_inc s (S (nest s));
        Ret (mkSsi (S (nest s)) (<[S (nest s) := with_cond SSI_GO (with_nbuf 0 (with_fp (Some fp) i))]> (incs s)) (world s), w)
    end.
Proof.
  intros Hn (_ & Hc & _ & Hnb & junk & Hb) Hi. unfold do_include, opened. rewrite (get_inc_at _ _ _ Hi). rsimpl.
  cbn [i_nbuf i_cond i_buf with_state]. rewrite Hnb, Hb, Hc, zlen_comment. pose proof (zlen_nonneg (include_arg k name)).
  change (zlen (str "include")) with 7. rewrite (proj2 (Z.ltb_ge _ 13)) by lia.
  destruct (c =? SSI_STOP); [done|]. cbn [orb]. destruct (NEST_MAX - 1 <=? nest s)%nat; [done|].
  rewrite (slice_at (str "<!--#include ") (include_arg k name ++ str " --") junk).
  - by rewrite get_path_eq.
  - change (comment (str "include") (include_arg k name)) with (str "<!--#include " ++ include_arg k name ++ str " --").
    by rewrite <- !app_assoc.
  - done.
  - rewrite zlen_app. change (zlen (str " --")) with 3. lia.
Qed.

Lemma view_push x c f lower fp s inc i : view x (eq inc) lower s -> i_cond inc = c -> i_fp inc = Some f ->
  incs s !! S (nest s) = Some i ->
  view x (ready SSI_GO fp) ((c, f) :: lower)
    (mkSsi (S (nest s)) (<[nest s := with_nbuf 0 (with_state SSI_PASS inc)]>
       (<[S (nest s) := with_cond SSI_GO (with_nbuf 0 (with_fp (Some fp) i))]> (incs s))) (world s)).
Proof.
  intros Hv Hc Hf Hi. pose proof (view_lt _ _ _ _ Hv) as Hlt. pose proof (lookup_lt_Some _ _ _ Hi) as Hlt'.
  destruct Hv as [Hx Hn Hl (i0 & Hi0 & <-) Ho Hlo]. split; cbn.
  - done.
  - by rewrite Hn.
  - by rewrite !length_insert.
  - eexists. rewrite list_lookup_insert_ne, list_lookup_insert_eq by lia. by split.
  - apply Forall_insert; [apply Forall_insert; [done|]|].
    + exact (Forall_lookup_1 _ _ _ _ Ho Hi).
    + destruct (Forall_lookup_1 _ _ _ _ Ho Hi0) as [Hb _]. split; [exact Hb|by left].
  - intros [|j] c' f' Hj; cbn in Hj.
    + injection Hj as <- <-. rewrite Nat.sub_0_r, <- Hn, list_lookup_insert_eq by (rewrite length_insert; lia).
      by eexists.
    + pose proof (lookup_lt_Some _ _ _ Hj). rewrite !list_lookup_insert_ne by lia. by apply Hlo.
Qed.

Lemma yields_pop slack x c0 c f lower bs : yields slack x (ready c f) lower bs ->
  yields slack x (ready c0 []) ((c, f) :: lower) bs.
Proof.
  intros H s [Hx Hn Hl (inc & Hi & Hc & Hf & Hnb) Ho Hlo]. cbn in Hn.
  assert (Hok : inc_ok inc) by exact (Forall_lookup_1 _ _ _ _ Ho Hi).
  destruct (H (pop s inc)) as [k Hk].
  { destruct (Hlo 0%nat c f eq_refl) as (i & Hi' & Hr). cbn in Hi'. rewrite Nat.sub_0_r in Hi'.
    unfold pop. rewrite Hn. cbn. rewrite Nat.sub_0_r. split; cbn.
    - done.
    - done.
    - by rewrite length_insert.
    - exists i. by rewrite list_lookup_insert_ne by lia.
    - by apply Forall_insert.
    - intros j c' f' Hj. pose proof (lookup_lt_Some _ _ _ Hj). rewrite list_lookup_insert_ne by lia.
      exact (Hlo (S j) c' f' Hj). }
  exists (S k). apply (runs_pop slack k s inc bs); [|lia|done|done]. split; [done|]. split; [apply Hok|lia].
Qed.
Lemma yields_end slack x c : yields slack x (ready c []) [] [].
Proof.
  intros s [Hx Hn Hl (inc & Hi & Hc & Hf & Hnb) Ho Hlo]. exists 0%nat.
  apply (runs_end slack s inc); [|done|done]. split; [done|].
  split; [apply (Forall_lookup_1 _ _ _ _ Ho Hi)|lia].
Qed.

Lemma yields_include slack x k name c f lower bs : 0 <= slack -> name_ok name -> zlen (include_arg k name) <= 490 ->
  match opened k name c (length lower) with
  | Some fp => yields slack x (ready SSI_GO fp) ((c, f) :: lower) bs
  | None => yields slack x (ready c f) lower bs
  end ->
  yields slack x (gathered (comment (str "include") (include_arg k name)) c (62 :: f)) lower bs.
Proof.
  intros Hs Hn Hl H. set (d := comment _ _). assert (Hd : closed d) by (apply comment_closed; change (zlen (str "include")) with 7; lia).
  assert (Hne : 0 < zlen (include_arg k name)).
  { unfold include_arg, quote. rewrite zlen_app, zlen_cons, zlen_app. pose proof (zlen_nonneg name).
    change (zlen [QUOTE]) with 1. match goal with |- 0 < zlen ?a + _ => pose proof (zlen_nonneg a) end. lia. }
  pose proof (selects_include _ Hne) as Hsel. fold d in Hsel. change bs with ([] ++ bs).
  destruct (opened k name c (length lower)) as [fp|] eqn:Eo.
  - apply (yields_close slack x c d f lower x (ready SSI_GO fp) ((c, f) :: lower) [] bs); [done..|by apply zlen_nil_le| |done].
    intros s inc Hv Hg. destruct (v_inc _ _ _ _ Hv) as (i0 & Hi0 & <-). pose proof (view_lt _ _ _ _ Hv) as Hlt.
    assert (Hlv : (nest s < 5)%nat).
    { rewrite (v_nest _ _ _ _ Hv). unfold opened in Eo. destruct (_ || _) eqn:Eb; [done|]. apply orb_false_elim in Eb as [_ Eb].
      apply Nat.leb_gt in Eb. exact Eb. }
    destruct (lookup_lt_is_Some_2 (incs s) (S (nest s))) as [i Hi]; [rewrite (v_len _ _ _ _ Hv); unfold NEST_MAX; lia|].
    eexists. split; [apply (view_push x c f lower fp s inc i Hv); [apply Hg|apply Hg|done]|].
    intros len w Hw. exists w. split; [|apply adds_nil]. set (s1 := set_inc (nest s) (with_state SSI_PASS inc) s).
    erewrite do_command_run; [|exact Hs|exact Hg|exact Hsel|done|exact Hw|].
    2:{ erewrite do_include_eq; [|exact Hn|exact Hg|cbn; by apply list_lookup_insert_eq]. change (nest (set_inc _ _ s)) with (nest s).
        rewrite (v_nest _ _ _ _ Hv), Eo, <- (v_nest _ _ _ _ Hv).
        rewrite (get_inc_at _ _ i) by (cbn; by rewrite list_lookup_insert_ne by lia). rsimpl. reflexivity. }
    rewrite (get_inc_at _ _ (with_state SSI_PASS inc)) by (cbn; rewrite list_lookup_insert_ne by lia; by apply list_lookup_insert_eq).
    rsimpl. unfold set_inc. cbn. do 3 f_equal.
    rewrite (list_insert_insert_ne _ (S (nest s)) (nest s)) by lia. by rewrite list_insert_insert_eq.
  - apply (yields_close slack x c d f lower x (ready c f) lower [] bs); [done..|by apply zlen_nil_le| |done].
    intros s inc Hv Hg. destruct (v_inc _ _ _ _ Hv) as (i0 & Hi0 & <-). pose proof (view_lt _ _ _ _ Hv) as Hlt.
    exists (set_inc (nest s) (with_nbuf 0 (with_state SSI_PASS inc)) (set_world x s)). split.
    { apply (view_set x (eq inc) (ready c f) lower s _ x Hv).
      - destruct Hg as (_ & Hc & Hf & _). by split.
      - destruct (Forall_lookup_1 _ _ _ _ (v_ok _ _ _ _ Hv) Hi0) as [Hb _]. split; [exact Hb|by left]. }
    intros len w Hw. exists w. split; [|apply adds_nil]. set (s1 := set_inc (nest s) (with_state SSI_PASS inc) s).
    erewrite do_command_run; [|exact Hs|exact Hg|exact Hsel|done|exact Hw|].
    2:{ erewrite do_include_eq; [|exact Hn|exact Hg|cbn; by apply list_lookup_insert_eq]. change (nest (set_inc _ _ s)) with (nest s).
        rewrite (v_nest _ _ _ _ Hv), Eo, <- (v_nest _ _ _ _ Hv). reflexivity. }
    rewrite (get_inc_at _ _ (with_state SSI_PASS inc)) by (cbn; by apply list_lookup_insert_eq).
    rsimpl. rewrite set_inc_set_inc. by rewrite <- (v_world _ _ _ _ Hv), set_world_id.
Qed.

End Reading.
