(* ===== verification/SsiSpec.v ===== *)
(** * The meaning of pages with server-side includes

    A page is a list of items: text, tags, and directives.  [page_out] says what each
    stands for; the theorems say that [read_ssi] gives exactly that for the text of
    the page, and draw the consequences for conditions and for [#include]. *)

From S2P Require Import Prelude CLib Ssi SsiPage.

Inductive item : Type :=
| Text (t : list Z)
| Markup (k : nat) (t : list Z)
| Include (k : path_kind) (name : list Z)
| Kenv (name : list Z)
| Sysctl (name : list Z)
| Exec (cmd : list Z)
| If (test : list Z)
| Elif (test : list Z)
| Else
| Endif.

Definition render_item (i : item) : list Z :=
  match i with
  | Text t => t
  | Markup k t => take k st ++ t
  | Include k n => comment (str "include") (include_arg k n) ++ [62]
  | Kenv n => comment (str "kenv") (quote n) ++ [62]
  | Sysctl n => comment (str "sysctl") (quote n) ++ [62]
  | Exec n => comment (str "exec") (quote n) ++ [62]
  | If t => comment (str "if") t ++ [62]
  | Elif t => comment (str "elif") t ++ [62]
  | Else => (st ++ str "else --") ++ [62]
  | Endif => (st ++ str "endif --") ++ [62]
  end.
Definition render (page : list item) : list Z := concat (map render_item page).

Section Meaning.
Context {W : Type} (E : ssi_env W).
(** The pages of the site, the kernel environment and the sysctl variables. *)
Context (site : list Z -> option (list item)) (kenv sysctl : list Z -> option (list Z)).

(** The server and the system as far as a page can see them. *)
Class Serves : Prop := {
  sv_fopen n : e_fopen E n = render <$> site n;
  sv_kenv : answers (e_kenv E) kenv;
  sv_sysctl : answers (e_sysctl E) sysctl;
  sv_funcs : keeps_quiet E;
}.

(** One item: the new condition, what the functions remember, the output. *)
Definition item_out (included : path_kind -> list Z -> W -> W * list Z) (c : Z) (x : W) (i : item) : Z * W * list Z :=
  match i with
  | Text t => (c, x, shown c t)
  | Markup k t => (c, x, shown c (take k st ++ t))
  | Include k n => if c =? SSI_GO then let '(x', o) := included k n x in (c, x', o) else (c, x, [])
  | Kenv n => (c, x, query_out E kenv c n)
  | Sysctl n => (c, x, query_out E sysctl c n)
  | Exec n => (c, x, exec_out E c n)
  | If t => let '(x', b) := test_out E x t in (if b then SSI_GO else SSI_STOP, x', [])
  | Elif t => if c =? SSI_STOP then let '(x', b) := test_out E x t in (if b then SSI_GO else SSI_STOP, x', [])
              else (SSI_STOP, x, [])
  | Else => (if c =? SSI_GO then SSI_STOP else SSI_GO, x, [])
  | Endif => (SSI_GO, x, [])
  end.
Fixpoint items_out (included : path_kind -> list Z -> W -> W * list Z) (page : list item) (c : Z) (x : W) : Z * W * list Z :=
  match page with
  | [] => (c, x, [])
  | i :: r => let '(c1, x1, o1) := item_out included c x i in
              let '(c2, x2, o2) := items_out included r c1 x1 in (c2, x2, o1 ++ o2)
  end.
(** What [#include] puts into a page [d] levels above the deepest. *)
Fixpoint included (d : nat) (k : path_kind) (name : list Z) (x : W) : W * list Z :=
  match d with
  | O => (x, [])
  | S d' => match site (resolve E k name) with
            | None => (x, [])
            | Some page => let '(_, x', o) := items_out (included d') page SSI_GO x in (x', o)
            end
  end.
Definition page_out (page : list item) (x : W) : list Z := snd (items_out (included (NEST_MAX - 1)) page SSI_GO x).

(** What fits into the command buffer, and values shorter than [slack]. *)
Definition item_ok (slack : Z) (i : item) : Prop :=
  match i with
  | Text t => text_ok t
  | Markup k t => markup_ok k t
  | Include k n => name_ok n /\ zlen (include_arg k n) <= 490
  | Kenv n => name_ok n /\ zlen n <= 480 /\ zlen (query_out E kenv SSI_GO n) < slack
  | Sysctl n => name_ok n /\ zlen n <= 480 /\ zlen (query_out E sysctl SSI_GO n) < slack
  | Exec n => name_ok n /\ zlen n <= 480 /\ zlen (exec_out E SSI_GO n) < slack
  | If t | Elif t => arg_ok t /\ zlen t <= 490
  | Else | Endif => True
  end.
Definition site_ok (slack : Z) : Prop := forall n page, site n = Some page -> Forall (item_ok slack) page.

(** ** Items one after the other *)

Abbreviation yields := (yields E).

Lemma comment_body kw arg : comment kw arg = st ++ (kw ++ 32 :: arg ++ str " --").
Proof. reflexivity. Qed.
Lemma arg_no_gt arg : arg_ok arg -> Forall (fun ch => ch <> 62) arg.
Proof. intros [H _]. eapply Forall_impl; [exact H|]. by intros ? [_ ?]. Qed.
Lemma quote_no_gt n : name_ok n -> Forall (fun ch => ch <> 62) (quote n).
Proof. intros H. by apply arg_no_gt, quote_ok. Qed.
Lemma zlen_quote n : zlen (quote n) = zlen n + 2.
Proof. unfold quote. rewrite zlen_cons, zlen_app. change (zlen [QUOTE]) with 1. lia. Qed.

(** A directive: its comment is buffered, its [>] executes it. *)
Lemma yields_directive slack x c kw arg f lower bs : 0 <= slack -> zlen kw <= 7 -> zlen arg <= 490 ->
  Forall (fun ch => ch <> 62) kw -> Forall (fun ch => ch <> 62) arg ->
  yields slack x (gathered (comment kw arg) c (62 :: f)) lower bs ->
  yields slack x (ready c ((comment kw arg ++ [62]) ++ f)) lower bs.
Proof.
  intros Hs Hk Ha Hkw Harg H. rewrite comment_body in H.
  replace ((comment kw arg ++ [62]) ++ f) with (st ++ (kw ++ 32 :: arg ++ str " --") ++ 62 :: f)
    by (rewrite comment_body; by rewrite <- (app_assoc _ [62])).
  apply yields_comment; [done| | |exact H].
  - rewrite zlen_app, zlen_cons, zlen_app. change (zlen (str " --")) with 3. lia.
  - apply Forall_app. split; [done|]. constructor; [done|]. apply Forall_app. split; [done|]. by repeat constructor.
Qed.
Lemma yields_arg slack x c kw arg f lower cmd x' c' a bs : 0 <= slack -> zlen kw <= 7 -> zlen arg <= 490 ->
  Forall (fun ch => ch <> 62) kw -> Forall (fun ch => ch <> 62) arg -> selects E (comment kw arg) cmd ->
  executes slack cmd x (comment kw arg) c f x' c' a -> yields slack x' (ready c' f) lower bs ->
  yields slack x (ready c ((comment kw arg ++ [62]) ++ f)) lower (a ++ bs).
Proof.
  intros Hs Hk Ha Hkw Harg Hsel Hex H. apply yields_directive; [done..|].
  eapply yields_command; [done|apply comment_closed; lia|done..].
Qed.
Lemma yields_plain slack x c kw f lower cmd x' c' bs : 0 <= slack -> zlen kw <= 100 -> Forall (fun ch => ch <> 62) kw ->
  closed (st ++ kw) -> selects E (st ++ kw) cmd -> executes slack cmd x (st ++ kw) c f x' c' [] ->
  yields slack x' (ready c' f) lower bs -> yields slack x (ready c (((st ++ kw) ++ [62]) ++ f)) lower bs.
Proof.
  intros Hs Hk Hkw Hcl Hsel Hex H. rewrite <- !app_assoc. apply yields_comment; [done|lia|done|].
  change bs with ([] ++ bs). by eapply yields_command.
Qed.

Lemma zlen_pos_quote n : 0 < zlen (quote n).
Proof. rewrite zlen_quote. pose proof (zlen_nonneg n). lia. Qed.
Lemma zlen_pos_arg arg : arg_ok arg -> 0 < zlen arg.
Proof. intros (_ & c & z & H & _). destruct arg; [done|]. rewrite zlen_cons. pose proof (zlen_nonneg arg). lia. Qed.


Definition cond_ok (c : Z) : Prop := c = SSI_GO \/ c = SSI_STOP.
Lemma item_out_cond inc c x i : cond_ok c -> cond_ok (fst (fst (item_out inc c x i))).
Proof.
  intros H. unfold cond_ok in *. destruct i; cbn; try done.
  - destruct (_ =? _); [|done]. by destruct (inc _ _ _).
  - destruct (test_out E x test) as [? []]; cbn; auto.
  - destruct (_ =? _); [|cbn; auto]. destruct (test_out E x test) as [? []]; cbn; auto.
  - destruct (_ =? _); auto.
  - auto.
Qed.
Lemma shown_stop t : shown SSI_STOP t = [].
Proof. reflexivity. Qed.
Lemma query_out_bound value c n slack : cond_ok c -> 0 < slack -> zlen (query_out E value SSI_GO n) < slack ->
  zlen (query_out E value c n) < slack.
Proof. intros [-> | ->] ??; [done|]. unfold query_out. by rewrite shown_stop. Qed.
Lemma exec_out_bound c n slack : cond_ok c -> 0 < slack -> zlen (exec_out E SSI_GO n) < slack ->
  zlen (exec_out E c n) < slack.
Proof. intros [-> | ->] ??; [done|]. unfold exec_out. by rewrite shown_stop. Qed.

(** Every item but [#include] stays on its level. *)
Lemma yields_item `{HS : !Serves} slack x c i f lower inc bs : 0 <= slack -> cond_ok c -> item_ok slack i ->
  match i with Include _ _ => False | _ => True end ->
  let '(c', x', o) := item_out inc c x i in
  yields slack x' (ready c' f) lower bs -> yields slack x (ready c (render_item i ++ f)) lower (o ++ bs).
Proof.
  intros Hs Hc Hi Hni. destruct i as [t|k t|k n|n|n|n|t|t| |]; cbn [item_out render_item item_ok] in *; try done.
  - intros H. by apply yields_text.
  - intros H. by apply yields_markup.
  - destruct Hi as (Hn & Hl & Hv). pose proof (zlen_nonneg (query_out E kenv SSI_GO n)) as Hz. intros H.
    eapply (yields_arg slack x c (str "kenv") (quote n)); [done|done|rewrite zlen_quote; lia|by repeat constructor|by apply quote_no_gt|apply selects_kenv, zlen_pos_quote| |exact H].
    apply executes_query; [done|by repeat constructor|done|apply sv_kenv|done|]. apply query_out_bound; [done|lia|done].
  - destruct Hi as (Hn & Hl & Hv). pose proof (zlen_nonneg (query_out E sysctl SSI_GO n)) as Hz. intros H.
    eapply (yields_arg slack x c (str "sysctl") (quote n)); [done|done|rewrite zlen_quote; lia|by repeat constructor|by apply quote_no_gt|apply selects_sysctl, zlen_pos_quote| |exact H].
    apply executes_query; [done|by repeat constructor|done|apply sv_sysctl|done|]. apply query_out_bound; [done|lia|done].
  - destruct Hi as (Hn & Hl & Hv). pose proof (zlen_nonneg (exec_out E SSI_GO n)) as Hz. intros H.
    eapply (yields_arg slack x c (str "exec") (quote n)); [done|done|rewrite zlen_quote; lia|by repeat constructor|by apply quote_no_gt|apply selects_exec, zlen_pos_quote| |exact H].
    apply executes_exec; [done|done|done|]. apply exec_out_bound; [done|lia|done].
  - destruct Hi as (Ha & Hl). destruct (test_out E x t) as [x' b] eqn:Et. intros H.
    eapply (yields_arg slack x c (str "if") t); [done|done|lia|by repeat constructor|by apply arg_no_gt|by apply selects_if, zlen_pos_arg| |exact H].
    pose proof (executes_if E slack x t c f Hs sv_funcs Ha) as Hex. by rewrite Et in Hex.
  - destruct Hi as (Ha & Hl).
    pose proof (executes_elif E slack x t c f Hs sv_funcs Ha) as Hex.
    destruct (c =? SSI_STOP); [destruct (test_out E x t) as [x' b] eqn:Et|]; intros H;
    (eapply (yields_arg slack x c (str "elif") t); [done|done|lia|by repeat constructor|by apply arg_no_gt|by apply selects_elif, zlen_pos_arg|exact Hex|exact H]).
  - intros H. eapply yields_plain; [done| | | |apply selects_else|by apply executes_else|exact H]; [done|by repeat constructor|].
    by split.
  - intros H. eapply yields_plain; [done| | | |apply selects_endif|by apply executes_endif|exact H]; [done|by repeat constructor|].
    by split.
Qed.

(** Reading [page] on [lower] levels, with [d] levels left, gives what it stands for. *)
Definition page_yields slack (d : nat) : Prop := forall page c x f lower c' x' o bs,
  (length lower + d = NEST_MAX - 1)%nat -> cond_ok c -> Forall (item_ok slack) page ->
  items_out (included d) page c x = (c', x', o) ->
  yields slack x' (ready c' f) lower bs -> yields slack x (ready c (render page ++ f)) lower (o ++ bs).

Lemma yields_include_item `{HS : !Serves} slack d k n c x f lower x' o bs : 0 <= slack -> site_ok slack ->
  (length lower + d = NEST_MAX - 1)%nat -> cond_ok c -> item_ok slack (Include k n) ->
  (forall d', d = S d' -> page_yields slack d') ->
  item_out (included d) c x (Include k n) = (c, x', o) ->
  yields slack x' (ready c f) lower bs ->
  yields slack x (ready c (render_item (Include k n) ++ f)) lower (o ++ bs).
Proof.
  intros Hs Hsite Hd Hc [Hn Hl] IH Ho H. cbn [render_item].
  assert (Hgt : Forall (fun ch => ch <> 62) (include_arg k n)).
  { apply Forall_app. split; [destruct k; by repeat constructor|by apply quote_no_gt]. }
  apply yields_directive; [done|done|done|by repeat constructor|done|].
  apply yields_include; [done..|]. unfold opened. cbn [item_out] in Ho. unfold NEST_MAX in *.
  destruct Hc as [-> | ->]; [|injection Ho as <- <-; exact H].
  change (SSI_GO =? SSI_STOP) with false. change (SSI_GO =? SSI_GO) with true in Ho. cbn [orb]. cbn iota in Ho.
  destruct d as [|d].
  { rewrite (proj2 (Nat.leb_le (6 - 1) (length lower))) by lia. injection Ho as <- <-. exact H. }
  rewrite (proj2 (Nat.leb_gt (6 - 1) (length lower))) by lia. rewrite sv_fopen. cbn [included] in Ho.
  destruct (site (resolve E k n)) as [p|] eqn:Ep; cbn [fmap option_fmap option_map].
  - destruct (items_out (included d) p SSI_GO x) as [[c2 x2] o2] eqn:E2. injection Ho as <- <-.
    rewrite <- (app_nil_r (render p)). eapply (IH d eq_refl p SSI_GO x [] _ c2 x2 o2); [cbn; lia|by left|by eapply Hsite|exact E2|].
    by apply yields_pop.
  - injection Ho as <- <-. exact H.
Qed.

Lemma item_out_include inc c x k n : exists x' o, item_out inc c x (Include k n) = (c, x', o).
Proof. cbn. destruct (_ =? _); [|eauto]. destruct (inc k n x). eauto. Qed.

(** A page, with the pages it includes, from any level down to the sixth. *)
Lemma yields_items `{HS : !Serves} slack d : 0 <= slack -> site_ok slack -> page_yields slack d.
Proof.
  intros Hs Hsite. induction d as [d IHd] using lt_wf_ind. intros page.
  induction page as [|i page IH]; intros c x f lower c' x' o bs Hd Hc Hp Ho H; [by injection Ho as <- <- <-|].
  apply Forall_cons in Hp as [Hi Hp]. cbn [items_out] in Ho.
  destruct (item_out _ c x i) as [[c1 x1] o1] eqn:E1. destruct (items_out _ page c1 x1) as [[c2 x2] o2] eqn:E2.
  injection Ho as <- <- <-. change (render (i :: page)) with (render_item i ++ render page). rewrite <- !app_assoc.
  assert (Hc1 : cond_ok c1) by (change c1 with (fst (fst (c1, x1, o1))); rewrite <- E1; by apply item_out_cond).
  pose proof (IH c1 x1 f lower c2 x2 o2 bs Hd Hc1 Hp E2 H) as Hrest.
  destruct (match i with Include _ _ => true | _ => false end) eqn:Einc.
  - destruct i as [| |k n| | | | | | |]; try done.
    destruct (item_out_include (included d) c x k n) as (x3 & o3 & E3). rewrite E3 in E1. injection E1 as <- <- <-.
    eapply yields_include_item; [done..| |exact E3|exact Hrest]. intros d' ->. apply IHd. lia.
  - pose proof (yields_item slack x c i (render page ++ f) lower (included d) (o2 ++ bs) Hs Hc Hi) as Hy.
    rewrite E1 in Hy. apply Hy; [by destruct i|exact Hrest].
Qed.

(** The page as [_shttpd_do_ssi] opens it. *)
Lemma start_view page (x : W) : view x (ready SSI_GO page) [] (start_ssi page x).
Proof.
  split; [done..| | |].
  - eexists. split; [reflexivity|]. done.
  - apply Forall_insert; [apply Forall_replicate|]; by (split; [|left]).
  - intros i c f Hi. done.
Qed.
Lemma page_runs `{HS : !Serves} slack page x : 0 <= slack -> site_ok slack -> Forall (item_ok slack) page ->
  exists k, runs E slack k (start_ssi (render page) x) (page_out page x).
Proof.
  intros Hs Hsite Hp. unfold page_out. destruct (items_out _ page SSI_GO x) as [[c' x'] o] eqn:Eo. cbn [snd].
  assert (Hy : yields slack x (ready SSI_GO (render page ++ [])) [] (o ++ [])).
  { eapply yields_items; [done|done| |by left|done|exact Eo|apply yields_end]. done. }
  rewrite !app_nil_r in Hy. apply Hy, start_view.
Qed.

End Meaning.

(** ** Properties *)

(** The server asks for the page buffer by buffer: the bytes it gets. *)
Fixpoint reads {W} (E : ssi_env W) (fuel : nat) (s : ssi W) (bufs : list (list Z)) : run (list Z * ssi W) :=
  match bufs with
  | [] => Ret ([], s)
  | b :: r => x ← read_ssi E fuel s b; let '(s, w) := x in
              y ← reads E fuel s r; let '(o, s) := y in
              Ret (ztake (o_n w) (o_buf w) ++ o, s)
  end.

Lemma adds_all a w b : adds a (mkOut 0 b) w -> ztake (o_n w) (o_buf w) = a /\ o_n w = zlen a.
Proof. intros (H1 & _ & H3). by split. Qed.
Lemma fits_start b : zlen b < 2 ^ 63 -> fits 0 (zlen b) (mkOut 0 b).
Proof. intros H. pose proof (zlen_nonneg b). unfold fits. cbn [o_n o_buf]. lia. Qed.

(** A page that asks for nothing is read the same whatever the buffers. *)
Lemma reads_runs {W} (E : ssi_env W) fuel bufs : forall k s o, runs E 0 k s o -> (k < fuel)%nat ->
  Forall (fun b => CMDBUFSIZ <= zlen b < 2 ^ 63) bufs -> (length o <= length bufs)%nat ->
  exists s', reads E fuel s bufs = Ret (o, s').
Proof.
  unfold CMDBUFSIZ. induction bufs as [|b bufs IH]; intros k s o Hr Hk Hb Hl; cbn [reads length] in *.
  { destruct o; [|cbn in Hl; lia]. by exists s. }
  apply Forall_cons in Hb as [[Hb1 Hb2] Hb].
  destruct (read_again_runs E 0 fuel k s o (zlen b) (mkOut 0 b) Hr) as (s1 & w1 & a & c & Hrd & Hp & Hend);
    [done|done|by apply fits_start|by left|].
  unfold read_ssi. rewrite Hrd. rsimpl. destruct Hp as [-> Hadd Hfit (k1 & Hk1 & Hr1) _].
  destruct (adds_all _ _ _ Hadd) as [-> Hn].
  destruct (IH k1 s1 c Hr1) as (s2 & Hrest); [lia|done| |].
  - destruct Hend as [-> | (inc & (_ & _ & Hnb) & Hle)]; [cbn; lia|].
    rewrite length_app in Hl. unfold zlen in *. lia.
  - rewrite Hrest. rsimpl. by exists s2.
Qed.

(** C10: A page made of text, tags, conditions and includes (nothing that asks the
    system for a value) reaches the client exactly as [page_out] says, included pages
    and all, and it does not matter how the server cuts its reads as long as every
    buffer has at least [CMDBUFSIZ] (512) bytes: the bytes read one buffer after the other are the
    page. *)
Theorem ssi_page_any_buffers {W} (E : ssi_env W) site kenv sysctl page x :
  Serves E site kenv sysctl -> site_ok E site kenv sysctl 0 -> Forall (item_ok E kenv sysctl 0) page ->
  exists fuel, forall bufs,
    Forall (fun b => CMDBUFSIZ <= zlen b < 2 ^ 63) bufs ->
    (length (page_out E site kenv sysctl page x) <= length bufs)%nat ->
    exists s', reads E fuel (start_ssi (render page) x) bufs = Ret (page_out E site kenv sysctl page x, s').
Proof.
  intros HS Hsite Hp. destruct (page_runs E site kenv sysctl 0 page x) as [k Hk]; [done..|].
  exists (S k). intros bufs Hb Hl. eapply reads_runs; [exact Hk|lia|done|done].
Qed.

(** One read into any buffer with room for [o], the longest value and a command gives
    [o]. *)
Definition read_gives {W} (E : ssi_env W) (slack : Z) (page : list item) (x : W) (o : list Z) : Prop :=
  forall buf, zlen o + CMDBUFSIZ + slack <= zlen buf < 2 ^ 63 ->
  exists fuel s' w, read_ssi E fuel (start_ssi (render page) x) buf = Ret (s', w) /\
    o_n w = zlen o /\ ztake (o_n w) (o_buf w) = o.

Lemma read_page {W} (E : ssi_env W) site kenv sysctl slack page x :
  Serves E site kenv sysctl -> 0 <= slack -> site_ok E site kenv sysctl slack -> Forall (item_ok E kenv sysctl slack) page ->
  read_gives E slack page x (page_out E site kenv sysctl page x).
Proof.
  intros HS Hs Hsite Hp buf [Hl Hl']. destruct (page_runs E site kenv sysctl slack page x) as [k Hk]; [done..|].
  exists (S k). destruct (read_again_runs E slack (S k) k _ _ (zlen buf) (mkOut 0 buf) Hk) as (s1 & w1 & a & c & Hrd & Hpr & Hend);
    [done|lia|by apply fits_start|right; cbn; unfold CMDBUFSIZ in Hl; lia|].
  exists s1, w1. split; [exact Hrd|]. destruct Hpr as [Hsp Hadd Hfit _ _]. destruct (adds_all _ _ _ Hadd) as [Ha Hn].
  assert (c = []) as ->.
  { destruct Hend as [?|(inc & (_ & _ & Hnb) & Hle)]; [done|]. rewrite Hsp, zlen_app in Hl. pose proof (zlen_nonneg c). unfold CMDBUFSIZ in Hl. lia. }
  rewrite Hsp, app_nil_r. done.
Qed.

(** Read into one buffer large enough for the page, a page with any of the
    directives - the values of the kernel environment and of sysctl and the output of
    commands included - is exactly what [page_out] says. *)
Theorem ssi_page_one_read {W} (E : ssi_env W) site kenv sysctl slack page x :
  Serves E site kenv sysctl -> 0 <= slack -> site_ok E site kenv sysctl slack -> Forall (item_ok E kenv sysctl slack) page ->
  read_gives E slack page x (page_out E site kenv sysctl page x).
Proof. apply read_page. Qed.

(** A condition without further conditions inside. *)
Definition plain (i : item) : bool := match i with If _ | Elif _ | Else | Endif => false | _ => true end.

Section Conditions.
Context {W : Type} (E : ssi_env W) (site : list Z -> option (list item)) (kenv sysctl : list Z -> option (list Z)).
Implicit Types (x : W).

Abbreviation out := (items_out E kenv sysctl (included E site kenv sysctl (NEST_MAX - 1))).

Lemma items_out_app p q c x : out (p ++ q) c x =
  (let '(c1, x1, o1) := out p c x in let '(c2, x2, o2) := out q c1 x1 in (c2, x2, o1 ++ o2)).
Proof.
  revert c x. induction p as [|i p IH]; intros c x; cbn [app items_out]; [by destruct (out q c x) as [[? ?] ?]|].
  destruct (item_out _ _ _ _ c x i) as [[c1 x1] o1]. rewrite IH.
  destruct (out p c1 x1) as [[c2 x2] o2]. destruct (out q c2 x2) as [[c3 x3] o3]. by rewrite app_assoc.
Qed.
(** Under a condition that does not hold, nothing happens. *)
Lemma plain_stop p x : Forall (fun i => plain i = true) p -> out p SSI_STOP x = (SSI_STOP, x, []).
Proof.
  induction 1 as [|i p Hi _ IH]; [done|]. cbn [items_out].
  destruct i; cbn in Hi; try discriminate Hi; cbn [item_out]; change (SSI_STOP =? SSI_GO) with false; cbn iota;
    rewrite IH; done.
Qed.
(** Under one that holds, it goes on holding. *)
Lemma plain_go p x : Forall (fun i => plain i = true) p -> exists x' o, out p SSI_GO x = (SSI_GO, x', o).
Proof.
  intros H. revert x. induction H as [|i p Hi _ IH]; intros x; [eauto|]. cbn [items_out].
  assert (exists x1 o1, item_out E kenv sysctl (included E site kenv sysctl (NEST_MAX - 1)) SSI_GO x i = (SSI_GO, x1, o1)) as (x1 & o1 & ->).
  { destruct i; cbn in Hi; try discriminate Hi; cbn [item_out]; eauto. change (SSI_GO =? SSI_GO) with true. cbn iota.
    destruct (included _ _ _ _ _ _ _ _). eauto. }
  destruct (IH x1) as (x' & o & ->). eauto.
Qed.
End Conditions.

Lemma page_if_else {W} (E : ssi_env W) site kenv sysctl test yes no rest x :
  Forall (fun i => plain i = true) yes -> Forall (fun i => plain i = true) no ->
  page_out E site kenv sysctl ([If test] ++ yes ++ [Else] ++ no ++ [Endif] ++ rest) x =
  page_out E site kenv sysctl ((if snd (test_out E x test) then yes else no) ++ rest) (fst (test_out E x test)).
Proof.
  intros Hy Hn. unfold page_out. cbn [app items_out item_out]. destruct (test_out E x test) as [x1 []]; cbn [fst snd].
  - rewrite !items_out_app. destruct (plain_go E site kenv sysctl yes x1 Hy) as (x2 & o & ->). cbn [app items_out item_out].
    change (SSI_GO =? SSI_GO) with true. cbn iota. rewrite items_out_app, plain_stop by done.
    cbn [app items_out item_out]. by destruct (items_out _ _ _ _ rest SSI_GO x2) as [[? ?] ?].
  - rewrite items_out_app, plain_stop by done. cbn [app items_out item_out]. change (SSI_STOP =? SSI_GO) with false. cbn iota.
    rewrite !items_out_app. destruct (plain_go E site kenv sysctl no x1 Hn) as (x2 & o & ->).
    cbn [app items_out item_out]. by destruct (items_out _ _ _ _ rest SSI_GO x2) as [[? ?] ?].
Qed.
Lemma page_elif_else {W} (E : ssi_env W) site kenv sysctl test test2 a b c x :
  Forall (fun i => plain i = true) a -> Forall (fun i => plain i = true) b -> Forall (fun i => plain i = true) c ->
  snd (test_out E x test) = true ->
  page_out E site kenv sysctl ([If test] ++ a ++ [Elif test2] ++ b ++ [Else] ++ c ++ [Endif]) x =
  page_out E site kenv sysctl (a ++ c) (fst (test_out E x test)).
Proof.
  intros Ha Hb Hc Ht. unfold page_out. cbn [app items_out item_out].
  destruct (test_out E x test) as [x1 t]. cbn [fst snd] in *. subst t. rewrite !items_out_app.
  destruct (plain_go E site kenv sysctl a x1 Ha) as (x2 & o & ->). cbn [app items_out item_out].
  change (SSI_GO =? SSI_STOP) with false. cbn iota. rewrite items_out_app, plain_stop by done.
  cbn [app items_out item_out]. change (SSI_STOP =? SSI_GO) with false. cbn iota. rewrite items_out_app.
  destruct (plain_go E site kenv sysctl c x2 Hc) as (x3 & o2 & ->). cbn [app items_out item_out snd]. by rewrite app_nil_r.
Qed.

(** A condition with [#else] prints the first branch when its function says true and
    the second when it says false, and then the rest of the page: it reads as the page
    with the branch in its place, and the directives of the other branch have no
    effect. *)
Theorem ssi_if_else {W} (E : ssi_env W) site kenv sysctl slack test yes no rest x :
  Serves E site kenv sysctl -> 0 <= slack -> site_ok E site kenv sysctl slack ->
  Forall (item_ok E kenv sysctl slack) ([If test] ++ yes ++ [Else] ++ no ++ [Endif] ++ rest) ->
  Forall (fun i => plain i = true) yes -> Forall (fun i => plain i = true) no ->
  read_gives E slack ([If test] ++ yes ++ [Else] ++ no ++ [Endif] ++ rest) x
    (page_out E site kenv sysctl ((if snd (test_out E x test) then yes else no) ++ rest) (fst (test_out E x test))).
Proof. intros HS Hs Hsite Hp Hy Hn. rewrite <- page_if_else by done. by apply read_page. Qed.

(** With [#elif] between, [#else] undoes it: when the first condition holds, its
    branch is printed, the [#elif] branch is not, and the [#else] branch is printed as
    well. *)
Theorem ssi_elif_else_both {W} (E : ssi_env W) site kenv sysctl slack test test2 a b c x :
  Serves E site kenv sysctl -> 0 <= slack -> site_ok E site kenv sysctl slack ->
  Forall (item_ok E kenv sysctl slack) ([If test] ++ a ++ [Elif test2] ++ b ++ [Else] ++ c ++ [Endif]) ->
  Forall (fun i => plain i = true) a -> Forall (fun i => plain i = true) b -> Forall (fun i => plain i = true) c ->
  snd (test_out E x test) = true ->
  read_gives E slack ([If test] ++ a ++ [Elif test2] ++ b ++ [Else] ++ c ++ [Endif]) x
    (page_out E site kenv sysctl (a ++ c) (fst (test_out E x test))).
Proof.
  intros HS Hs Hsite Hp Ha Hb Hc Ht. rewrite <- (page_elif_else E site kenv sysctl test test2 a b c x) by done. by apply read_page.
Qed.

Lemma back_to_slash_eq a l j : Forall (fun c => c <> DIRSEP) l -> (0 < length a)%nat -> (j <= length l)%nat ->
  back_to_slash (length a + j) (a ++ DIRSEP :: l) = length a.
Proof.
  intros Hl Ha. induction j as [|j IH]; intros Hj.
  - rewrite Nat.add_0_r. destruct (length a) as [|n] eqn:E; [lia|]. cbn [back_to_slash].
    rewrite <- E, znth_one by done. by rewrite Z.eqb_refl.
  - rewrite Nat.add_succ_r. cbn [back_to_slash].
    replace (znth (a ++ DIRSEP :: l) (Z.of_nat (S (length a + j))) =? DIRSEP) with false; [apply IH; lia|].
    symmetry. apply Z.eqb_neq. unfold znth. rewrite Nat2Z.id, app_nth2 by lia.
    replace (S (length a + j) - length a)%nat with (S j) by lia. cbn [nth].
    rewrite Forall_forall in Hl. apply Hl. apply list_elem_of_In, nth_In. lia.
Qed.

Lemma resolve_file {W} (E : ssi_env W) dir base name :
  Forall (fun c => c <> DIRSEP) base ->
  e_uri E = dir ++ DIRSEP :: base ->
  (forall n l, zlen l < n -> e_snprintf E n l = l) ->
  (forall n, zlen name < n -> e_url_decode E name n = (name, true)) ->
  zlen (e_root E) + zlen (e_uri E) + zlen name < FILENAME_MAX - 1 ->
  resolve E File name = e_root E ++ DIRSEP :: dir ++ name.
Proof.
  intros Hb Hu Hsn Hdec Hl. unfold FILENAME_MAX in *. pose proof (zlen_nonneg name).
  unfold resolve, include_dir. unfold FILENAME_MAX. rewrite Hu in *. rewrite zlen_app, zlen_cons in Hl.
  set (a := e_root E ++ DIRSEP :: dir).
  assert (Ea : e_root E ++ [DIRSEP] ++ dir ++ DIRSEP :: base = a ++ DIRSEP :: base) by (unfold a; by rewrite <- app_assoc).
  assert (Hla : zlen a = zlen (e_root E) + 1 + zlen dir) by (unfold a; rewrite zlen_app, zlen_cons; lia).
  pose proof (zlen_nonneg (e_root E)). pose proof (zlen_nonneg dir). pose proof (zlen_nonneg base).
  rewrite Ea, Hsn by (rewrite zlen_app, zlen_cons; lia).
  rewrite <- app_assoc. cbn [app].
  replace (length (a ++ DIRSEP :: base)) with (length a + S (length base))%nat by (rewrite length_app; cbn; lia).
  rewrite back_to_slash_eq, take_app_length.
  - rewrite Hdec by lia. unfold a. by rewrite <- app_assoc.
  - apply Forall_app. split; [done|]. by repeat constructor.
  - unfold zlen in *. lia.
  - rewrite length_app. cbn. lia.
Qed.

(** [#include file] loses the slash between the directory of the page and the name:
    in the page [base] of the directory [dir], the directive for [name] puts the file
    [dir][name] into the page, and not [dir]/[name]. *)
Theorem ssi_include_file_slash {W} (E : ssi_env W) site kenv sysctl slack dir base name x :
  Serves E site kenv sysctl -> 0 <= slack -> site_ok E site kenv sysctl slack ->
  item_ok E kenv sysctl slack (Include File name) ->
  Forall (fun c => c <> DIRSEP) base -> e_uri E = dir ++ DIRSEP :: base ->
  (forall n l, zlen l < n -> e_snprintf E n l = l) ->
  (forall n, zlen name < n -> e_url_decode E name n = (name, true)) ->
  zlen (e_root E) + zlen (e_uri E) + zlen name < FILENAME_MAX - 1 ->
  read_gives E slack [Include File name] x
    match site (e_root E ++ DIRSEP :: dir ++ name) with
    | Some page => snd (items_out E kenv sysctl (included E site kenv sysctl (NEST_MAX - 2)) page SSI_GO x)
    | None => []
    end.
Proof.
  intros HS Hs Hsite Hi Hb Hu Hsn Hdec Hl. rewrite <- (resolve_file E dir base name) by done.
  assert (Hp : Forall (item_ok E kenv sysctl slack) [Include File name]) by (by constructor).
  pose proof (read_page E site kenv sysctl slack [Include File name] x HS Hs Hsite Hp) as H.
  unfold page_out in H. cbn [items_out item_out] in H. change (SSI_GO =? SSI_GO) with true in H. cbn iota in H.
  change (NEST_MAX - 1)%nat with (S (NEST_MAX - 2)) in H. cbn [included] in H.
  destruct (site _) as [page|]; [|exact H]. destruct (items_out _ _ _ _ page SSI_GO x) as [[c' x'] o]. cbn [snd] in *.
  by rewrite app_nil_r in H.
Qed.

(** ** Witnesses *)

Definition sample_uri : list Z := str "/status/index.shtml".
Definition sample_site (n : list Z) : option (list item) :=
  if streq n (str "/www/menu") then Some [Text (str "menu"); Include Cwd (str "foot")]
  else if streq n (str "foot") then Some [If (str "admin"); Text (str "edit"); Endif; Text (str "end")] else None.
Definition sample_value (n : list Z) : option (list Z) :=
  if streq n (str "kern.ident") then Some (str "ZROUTER") else None.
Definition sample_query (n : list Z) (l : Z) : option (list Z) :=
  match sample_value n with Some v => if zlen v <? l then Some (v ++ [0]) else None | None => None end.
Definition sample_env : ssi_env nat :=
  mkEnv (str "/www") sample_uri
    (shttpd_register_ssi_func (shttpd_register_ssi_func [] (str "admin") (fun n _ _ => (S n, mkResult [] (Nat.odd n) true)))
       (str "yes") (fun n _ _ => (n, mkResult [] true true)))
    (fun n l => ztake (n - 1) l) (fun s n => (ztake (n - 1) s, true))
    (fun n => render <$> sample_site n) (fun _ => None) sample_query sample_query.

Lemma sample_serves : Serves sample_env sample_site sample_value sample_value.
Proof.
  assert (Ha : answers sample_query sample_value).
  { intros n l. unfold sample_query. destruct (sample_value n) as [v|]; [|done]. intros H. by rewrite (proj2 (Z.ltb_lt _ _) H). }
  split; [done|exact Ha|exact Ha|].
  intros name f x a H. cbn in H. repeat (destruct (streq _ _); [by injection H as <-|]). done.
Qed.

(** Closed conditions on the text of a page. *)
Ltac bytes_ok := vm_compute; repeat (constructor || split); try discriminate.
Ltac sample_item :=
  lazymatch goal with
  | |- item_ok _ _ _ _ (Text _) => split; bytes_ok
  | |- item_ok _ _ _ _ (Markup _ _) => split; [lia|split; [bytes_ok|eexists _, _; split; [reflexivity|split; [discriminate|intros H; vm_compute in H; discriminate H || lia]]]]
  | |- item_ok _ _ _ _ (Include _ _) => split; bytes_ok
  | |- item_ok _ _ _ _ (Kenv _) => split; [bytes_ok|split; bytes_ok]
  | |- item_ok _ _ _ _ (Sysctl _) => split; [bytes_ok|split; bytes_ok]
  | |- item_ok _ _ _ _ (Exec _) => split; [bytes_ok|split; bytes_ok]
  | |- item_ok _ _ _ _ (If _) => split; [split; [bytes_ok|eexists _, _; split; [reflexivity|split; [reflexivity|split; reflexivity]]]|bytes_ok]
  | |- item_ok _ _ _ _ (Elif _) => split; [split; [bytes_ok|eexists _, _; split; [reflexivity|split; [reflexivity|split; reflexivity]]]|bytes_ok]
  | |- item_ok _ _ _ _ Else => exact I
  | |- item_ok _ _ _ _ Endif => exact I
  end.
Ltac sample_items := repeat (apply Forall_cons; split; [sample_item|]); apply Forall_nil; exact I.

Lemma sample_site_ok slack : 0 <= slack -> site_ok sample_env sample_site sample_value sample_value slack.
Proof.
  intros Hs n page H. unfold sample_site in H.
  destruct (streq n (str "/www/menu")); [injection H as <-; sample_items|].
  destruct (streq n (str "foot")); [injection H as <-; sample_items|done].
Qed.

Definition sample_page : list item :=
  [Text (str "top "); Markup 1 (str "p>"); Include Virtual (str "menu"); If (str "yes"); Text (str "A"); Else; Text (str "B"); Endif; Text (str ".")].
Lemma ssi_page_any_buffers_witness :
  exists fuel s', reads sample_env fuel (start_ssi (render sample_page) 1%nat) (replicate 30 (zrep 512 0)) =
    Ret (str "top <p>menueditendA.", s').
Proof.
  destruct (ssi_page_any_buffers sample_env sample_site sample_value sample_value sample_page 1%nat) as [fuel H].
  - exact sample_serves.
  - apply sample_site_ok. lia.
  - sample_items.
  - destruct (H (replicate 30 (zrep 512 0))) as [s' Hs'].
    + apply Forall_replicate. vm_compute. split; [discriminate|reflexivity].
    + vm_compute. lia.
    + exists fuel, s'. exact Hs'.
Defined.

Definition query_page : list item :=
  [Markup 1 (str "title>"); Sysctl (str "kern.ident"); Markup 1 (str "/title>"); Kenv (str "smbios.system.maker"); Text (str "ok")].
Lemma ssi_page_one_read_witness : read_gives sample_env 100 query_page 0%nat (str "<title>ZROUTER</title>ok").
Proof.
  replace (str "<title>ZROUTER</title>ok") with (page_out sample_env sample_site sample_value sample_value query_page 0%nat)
    by (vm_compute; reflexivity).
  apply (ssi_page_one_read sample_env sample_site sample_value sample_value 100 query_page 0%nat).
  - exact sample_serves.
  - lia.
  - apply sample_site_ok. lia.
  - sample_items.
Defined.

Lemma ssi_if_else_witness :
  read_gives sample_env 0 ([If (str "admin")] ++ [Text (str "A")] ++ [Else] ++ [Text (str "B")] ++ [Endif] ++ [Text (str "C")]) 0%nat (str "BC").
Proof.
  replace (str "BC") with (page_out sample_env sample_site sample_value sample_value
    ((if snd (test_out sample_env 0%nat (str "admin")) then [Text (str "A")] else [Text (str "B")]) ++ [Text (str "C")])
    (fst (test_out sample_env 0%nat (str "admin")))) by (vm_compute; reflexivity).
  apply (ssi_if_else sample_env sample_site sample_value sample_value 0 (str "admin") [Text (str "A")] [Text (str "B")] [Text (str "C")] 0%nat).
  - exact sample_serves.
  - lia.
  - apply sample_site_ok. lia.
  - cbn [app]. sample_items.
  - by repeat constructor.
  - by repeat constructor.
Defined.

Lemma ssi_elif_else_both_witness :
  read_gives sample_env 0 ([If (str "yes")] ++ [Text (str "A")] ++ [Elif (str "yes")] ++ [Text (str "B")] ++ [Else] ++ [Text (str "C")] ++ [Endif]) 0%nat (str "AC").
Proof.
  replace (str "AC") with (page_out sample_env sample_site sample_value sample_value
    ([Text (str "A")] ++ [Text (str "C")]) (fst (test_out sample_env 0%nat (str "yes")))) by (vm_compute; reflexivity).
  apply (ssi_elif_else_both sample_env sample_site sample_value sample_value 0 (str "yes") (str "yes") [Text (str "A")] [Text (str "B")] [Text (str "C")] 0%nat).
  - exact sample_serves.
  - lia.
  - apply sample_site_ok. lia.
  - cbn [app]. sample_items.
  - by repeat constructor.
  - by repeat constructor.
  - by repeat constructor.
  - vm_compute. reflexivity.
Defined.

Definition slash_site (n : list Z) : option (list item) :=
  if streq n (str "/www//statusfoot.html") then Some [Text (str "another page")]
  else if streq n (str "/www//status/foot.html") then Some [Text (str "foot")] else None.
Definition slash_env : ssi_env nat :=
  mkEnv (str "/www") sample_uri [] (fun n l => if zlen l <? n then l else []) (fun s n => (s, true))
    (fun n => render <$> slash_site n) (fun _ => None) (fun _ _ => None) (fun _ _ => None).
Lemma ssi_include_file_slash_witness :
  read_gives slash_env 0 [Include File (str "foot.html")] 0%nat (str "another page").
Proof.
  apply (ssi_include_file_slash slash_env slash_site (fun _ => None) (fun _ => None) 0 (str "/status") (str "index.shtml") (str "foot.html") 0%nat).
  - by split.
  - lia.
  - intros n page H. unfold slash_site in H.
    destruct (streq n (str "/www//statusfoot.html")); [injection H as <-; sample_items|].
    destruct (streq n (str "/www//status/foot.html")); [injection H as <-; sample_items|done].
  - sample_item.
  - bytes_ok.
  - vm_compute. reflexivity.
  - intros n l H. cbn. by rewrite (proj2 (Z.ltb_lt _ _) H).
  - intros n _. reflexivity.
  - vm_compute. reflexivity.
Defined.
