(* ===== verification/SsiTotal.v ===== *)
(** * Every read of a page ends

    Whatever the pages contain, [read_ssi] returns (or runs into undefined behaviour)
    after a number of steps bounded by what the files hold: a file that includes itself
    is opened again on each level, but there are six levels only. *)

From S2P Require Import Prelude CLib Ssi SsiPage SsiSpec.

(** [holds m Q]: [m] does not run out of fuel, and its result, if it has one, is as [Q]
    says. *)
Definition holds {A} (m : run A) (Q : A -> Prop) : Prop :=
  match m with Ret a => Q a | NoFuel => False | Undef => True end.
Lemma holds_bind {A B} (m : run A) (f : A -> run B) Q : holds m (fun a => holds (f a) Q) -> holds (m ≫= f) Q.
Proof. by destruct m. Qed.
Lemma holds_mono {A} (m : run A) (P Q : A -> Prop) : holds m P -> (forall a, P a -> Q a) -> holds m Q.
Proof. destruct m; cbn; auto. Qed.
Lemma holds_Ret {A} (a : A) (Q : A -> Prop) : Q a -> holds (Ret a) Q.
Proof. done. Qed.
Lemma holds_Undef {A} (Q : A -> Prop) : holds Undef Q.
Proof. done. Qed.
Create HintDb holds discriminated.
#[export] Hint Resolve holds_Ret holds_Undef : holds.

Section Total.
Context {W : Type} (E : ssi_env W).
Implicit Types (s : ssi W) (inc : ssi_inc) (w : out).

(** ** What a command does to the stack *)

Definition fps s : list (option (list Z)) := map i_fp (incs s).
(** The files are as they were. *)
Definition same s s' : Prop := nest s' = nest s /\ fps s' = fps s.
(** One more file is open. *)
Definition pushed s s' : Prop :=
  (nest s < NEST_MAX - 1)%nat /\ nest s' = S (nest s) /\
  exists n fp, e_fopen E n = Some fp /\ fps s' = <[S (nest s) := Some fp]> (fps s).

Lemma same_refl s : same s s.
Proof. done. Qed.
Lemma same_trans s1 s2 s3 : same s1 s2 -> same s2 s3 -> same s1 s3.
Proof. intros [H1 H2] [H3 H4]. split; congruence. Qed.
Lemma fps_insert s k inc : fps (set_inc k inc s) = <[k := i_fp inc]> (fps s).
Proof. unfold fps, set_inc. cbn. apply (list_fmap_insert i_fp). Qed.
Lemma same_set s k inc inc' : incs s !! k = Some inc -> i_fp inc' = i_fp inc -> same s (set_inc k inc' s).
Proof.
  intros Hi Hf. split; [done|]. rewrite fps_insert, Hf. apply list_insert_id. unfold fps.
  by rewrite (list_lookup_fmap i_fp), Hi.
Qed.

Lemma holds_get_inc s k : holds (get_inc s k) (fun i => incs s !! k = Some i).
Proof. unfold get_inc. by destruct (incs s !! k). Qed.
Lemma holds_rwrite o d l : holds (rwrite o d l) (fun _ => True).
Proof. unfold rwrite. by destruct (bwrite o d l). Qed.
Lemma holds_rread o n l : holds (rread o n l) (fun _ => True).
Proof. unfold rread. by destruct (bread o n l). Qed.
Lemma holds_string_at l : holds (string_at l) (fun _ => True).
Proof. unfold string_at. by case_bool_decide. Qed.
Lemma holds_put o d w : holds (put o d w) (fun _ => True).
Proof. unfold put. apply holds_bind. eapply holds_mono; [apply holds_rwrite|]. done. Qed.

Lemma holds_trim_right k b : holds (trim_right k b) (fun _ => True).
Proof.
  revert b. induction k as [|k IH]; intros b; [done|]. cbn. destruct (isspace _); [|done].
  apply holds_bind. eapply holds_mono; [apply holds_rwrite|]. intros b' _. apply IH.
Qed.
Lemma holds_to_space l : holds (to_space l) (fun _ => True).
Proof. induction l as [|c l IH]; [done|]. cbn. by destruct (isspace c). Qed.
Lemma holds_over_spaces l : holds (over_spaces l) (fun _ => True).
Proof. induction l as [|c l IH]; [done|]. cbn. by destruct (_ && _). Qed.

(** Steps through a bind with the postcondition of what is bound. *)
Ltac step H := apply holds_bind; eapply holds_mono; [apply H|]; cbn beta.

Lemma holds_trim_spaces inc : holds (trim_spaces inc) (fun x => i_fp (fst x) = i_fp inc).
Proof.
  unfold trim_spaces. step holds_rwrite. intros b1 _. step holds_trim_right. intros b2 _.
  step holds_to_space. intros l1 _. step holds_over_spaces. intros l2 _. done.
Qed.
Lemma holds_call s inc name o len w :
  holds (call E s inc name o len w) (fun '(s', inc', _, _) => (exists x, s' = set_world x s) /\ i_fp inc' = i_fp inc).
Proof.
  unfold call. step holds_string_at. intros nm _.
  destruct (match strchr nm 32 with Some r => _ | None => _ end) as [[fname arg] b].
  apply holds_bind. apply (holds_mono _ (fun _ => True)); [destruct b; [apply holds_rwrite|done]|]. intros buf _.
  destruct (find_ssi_func (e_funcs E) fname) as [f|].
  - destruct (f (world s) arg len) as [x r]. destruct (len <? zlen (r_out r)); [done|].
    apply holds_bind. apply (holds_mono _ (fun _ => True)); [destruct o; [apply holds_put|done]|]. intros w' _.
    split; [by exists x|done].
  - split; [by exists (world s); destruct s|done].
Qed.
Lemma holds_evaluate s inc name w :
  holds (evaluate E s inc name w) (fun '(s', inc', _) => (exists x, s' = set_world x s) /\ i_fp inc' = i_fp inc).
Proof. unfold evaluate. step holds_call. intros [[[s' inc'] r] w'] H. exact H. Qed.
Lemma holds_pass inc o w : holds (pass inc o w) (fun x => i_fp (fst x) = i_fp inc).
Proof.
  unfold pass. apply holds_bind. apply (holds_mono _ (fun _ => True)); [|done]. destruct (_ =? _); [|done].
  step holds_rread. intros d _. step holds_put. done.
Qed.
Lemma same_set_world s x k inc inc' : incs s !! k = Some inc -> i_fp inc' = i_fp inc ->
  same s (set_inc k inc' (set_world x s)).
Proof. intros Hi Hf. exact (same_set (set_world x s) k inc inc' Hi Hf). Qed.

Definition keeps (m : run (ssi W * out)) s : Prop := holds m (fun x => same s (fst x)).

Lemma keeps_if s o len w : keeps (do_if E s o len w) s.
Proof.
  unfold keeps, do_if. step holds_get_inc. intros inc Hi. step holds_trim_spaces. intros [inc1 name] Hf.
  step holds_evaluate. intros [[s' inc'] t] [[x ->] Hf']. cbn in *. eapply same_set_world; [done|]. cbn. congruence.
Qed.
Lemma keeps_elif s o len w : keeps (do_elif E s o len w) s.
Proof.
  unfold keeps, do_elif. step holds_get_inc. intros inc Hi. step holds_trim_spaces. intros [inc1 name] Hf. cbn in Hf.
  destruct (_ =? _); [step holds_evaluate; intros [[s' inc'] t] [[x ->] Hf']|]; cbn in *.
  - eapply same_set_world; [done|]. cbn. congruence.
  - eapply same_set; [done|]. done.
Qed.
Lemma keeps_endif s o len w : keeps (do_endif s o len w) s.
Proof. unfold keeps, do_endif. step holds_get_inc. intros inc Hi. by eapply same_set. Qed.
Lemma keeps_else s o len w : keeps (do_else s o len w) s.
Proof. unfold keeps, do_else. step holds_get_inc. intros inc Hi. by eapply same_set. Qed.
Lemma keeps_call2 s o len w : keeps (do_call2 E s o len w) s.
Proof.
  unfold keeps, do_call2. step holds_get_inc. intros inc Hi. step holds_call. intros [[[s' inc'] r] w'] [[x ->] Hf]. cbn.
  eapply same_set_world; [done|]. by destruct (r_end_of_output r).
Qed.
Lemma keeps_call s o len w : keeps (do_call E s o len w) s.
Proof.
  unfold keeps, do_call. step holds_get_inc. intros inc Hi. step holds_trim_spaces. intros [inc1 name] Hf. cbn in Hf.
  destruct (_ =? _); [|by eapply same_set].
  step holds_string_at. intros nm _. step holds_rwrite. intros b _. eapply holds_mono; [apply keeps_call2|].
  intros x Hx. eapply same_trans; [|exact Hx]. by eapply same_set.
Qed.
Lemma keeps_exec2 s o len w : keeps (do_exec2 s o len w) s.
Proof.
  unfold keeps, do_exec2. step holds_get_inc. intros inc Hi. destruct (_ <=? _); [apply same_refl|].
  destruct (i_pipe inc) as [pipe|]; [|done]. destruct (read_pipe _ pipe) as [d p]. step holds_put. intros w' _.
  eapply same_set; [done|]. by destruct p.
Qed.
Lemma holds_quoted p : holds (quoted E p) (fun _ => True).
Proof.
  unfold quoted. step holds_string_at. intros nm _. destruct nm as [|c r]; [done|]. destruct (_ =? _); [|done].
  destruct (strchr r QUOTE) as [e|]; [|done]. by destruct (e_url_decode _ _ _).
Qed.
Lemma keeps_exec s o len w : keeps (do_exec E s o len w) s.
Proof.
  unfold keeps, do_exec. step holds_get_inc. intros inc Hi. step holds_trim_spaces. intros [inc1 p] Hf. cbn in Hf.
  destruct (_ =? _); [by eapply same_set|]. step holds_quoted. intros [cmd|] _; [|by eapply same_set].
  set (s1 := set_inc _ inc1 s). assert (H1 : same s s1) by (by eapply same_set).
  assert (Hi1 : incs s1 !! nest s1 = Some inc1) by (cbn; apply list_lookup_insert_eq; by apply lookup_lt_Some in Hi).
  destruct (e_popen E cmd) as [pipe|].
  - eapply holds_mono; [apply keeps_exec2|]. intros x Hx. eapply same_trans; [|exact Hx].
    eapply same_trans; [exact H1|]. by eapply same_set.
  - eapply same_trans; [exact H1|]. by eapply same_set.
Qed.
Lemma keeps_query q s o len w : keeps (do_query E q s o len w) s.
Proof.
  unfold keeps, do_query. step holds_get_inc. intros inc Hi. step holds_trim_spaces. intros [inc1 p] Hf. cbn in Hf.
  destruct (_ =? _); [by eapply same_set|]. step holds_quoted. intros [cmd|] _; [|by eapply same_set].
  destruct (q cmd len) as [v|]; [|by eapply same_set]. destruct (_ <? _); [done|]. step holds_put. intros w' _.
  set (s1 := set_inc _ inc1 s). assert (H1 : same s s1) by (by eapply same_set).
  eapply same_trans; [exact H1|].
  assert (Hi1 : incs s1 !! nest s1 = Some inc1) by (cbn; apply list_lookup_insert_eq; by apply lookup_lt_Some in Hi).
  by eapply same_set.
Qed.

Definition moves (m : run (ssi W * out)) s : Prop := holds m (fun x => same s (fst x) \/ pushed s (fst x)).
Lemma keeps_moves m s : keeps m s -> moves m s.
Proof. intros H. eapply holds_mono; [exact H|]. by left. Qed.
Lemma moves_include s o len w : moves (do_include E s o len w) s.
Proof.
  unfold moves, do_include. step holds_get_inc. intros inc Hi. destruct (_ <? _); [done|].
  destruct (_ =? _); [by left|]. destruct (_ <=? _)%nat eqn:Hn; [by left|]. apply Nat.leb_gt in Hn.
  destruct (get_path _ _ _) as [name|]; [|by left]. destruct (e_fopen E name) as [fp|] eqn:Ef; [|by left].
  step holds_get_inc. intros i Hi'. right. split; [done|]. split; [done|]. exists name, fp. split; [done|].
  cbn. unfold fps. cbn. apply (list_fmap_insert i_fp).
Qed.

Lemma moves_command cmds : Forall (fun c => forall s o len w, moves (snd c s o len w) s) cmds ->
  forall inc c, find_cmd cmds inc = Some c -> forall s o len w, moves (snd c s o len w) s.
Proof.
  induction 1 as [|c cmds Hc _ IH]; intros inc c' H; [done|]. cbn in H. destruct (_ && _); [|by eapply IH].
  by injection H as <-.
Qed.
Lemma moves_known : Forall (fun c => forall s o len w, moves (snd c s o len w) s) (known_ssi_commands E).
Proof.
  repeat (apply Forall_cons; split); [..|by apply Forall_nil]; intros; cbn [snd];
    [apply moves_include|apply keeps_moves..].
  - apply keeps_if.
  - apply keeps_elif.
  - apply keeps_else.
  - apply keeps_endif.
  - apply keeps_call.
  - apply keeps_exec.
  - apply keeps_query.
  - apply keeps_query.
Qed.
Lemma same_pushed s1 s2 s3 : same s1 s2 -> pushed s2 s3 -> pushed s1 s3.
Proof. intros [H1 H2] (H3 & H4 & n & fp & H5 & H6). split; [congruence|]. split; [congruence|]. exists n, fp. by rewrite H6, H1, H2. Qed.
Lemma pushed_same s1 s2 s3 : pushed s1 s2 -> same s2 s3 -> pushed s1 s3.
Proof. intros (H3 & H4 & n & fp & H5 & H6) [H1 H2]. split; [done|]. split; [congruence|]. exists n, fp. by rewrite H2, H6. Qed.

Lemma moves_do_command s o len w : moves (do_command E s o len w) s.
Proof.
  unfold moves, do_command. step holds_get_inc. intros inc Hi. destruct (_ || _); [done|].
  set (inc1 := with_state SSI_PASS inc). set (s1 := set_inc (nest s) inc1 s).
  assert (H1 : same s s1) by (by eapply same_set).
  apply holds_bind. apply (holds_mono _ (fun x => same s1 (fst x) \/ pushed s1 (fst x))).
  - destruct (find_cmd _ _) as [c|] eqn:Ec.
    + exact (moves_command _ moves_known _ _ Ec _ _ _ _).
    + step holds_pass. intros [inc2 w2] Hf. left. apply (same_set s1 (nest s) inc1 inc2); [|exact Hf].
      cbn. apply list_lookup_insert_eq. by apply lookup_lt_Some in Hi.
  - intros [s2 w2] H2. cbn in H2. step holds_get_inc. intros inc2 Hi2. cbn.
    assert (H3 : same s2 (set_inc (nest s) (with_nbuf 0 inc2) s2)) by (by eapply same_set).
    destruct H2 as [H2|H2]; [left|right].
    + by eapply same_trans, same_trans.
    + eapply same_pushed; [exact H1|]. by eapply pushed_same.
Qed.

(** ** The bound *)

Context (L : nat) (files_bounded : forall n fp, e_fopen E n = Some fp -> (length fp <= L)%nat).

(** What a character read [d] levels above the deepest one can cost. *)
Fixpoint weight (d : nat) : nat := match d with O => 1 | S d' => L * weight d' + 2 end.
Definition unread (f : option (list (Z))) : nat := match f with Some l => length l | None => 0 end.
(** What is left to do with the files [fs] of the levels up to the [n]-th. *)
Fixpoint work (fs : list (option (list Z))) (n : nat) : nat :=
  unread (default None (fs !! n)) * weight (NEST_MAX - 1 - n) + match n with O => 0 | S n' => S (work fs n') end.
Definition cost s : nat := work (fps s) (nest s).

Lemma weight_pos d : (1 <= weight d)%nat.
Proof. destruct d; cbn; lia. Qed.
Lemma work_insert_gt fs k f n : (n < k)%nat -> work (<[k := f]> fs) n = work fs n.
Proof.
  induction n as [|n IH]; intros H; cbn [work]; rewrite list_lookup_insert_ne by lia; [done|]. by rewrite IH by lia.
Qed.
Lemma cost_same s s' : same s s' -> cost s' = cost s.
Proof. intros [H1 H2]. unfold cost. by rewrite H1, H2. Qed.

(** The file of the current level one character shorter. *)
Lemma work_read fs n ch r : (n <= NEST_MAX - 1)%nat -> fs !! n = Some (Some (ch :: r)) ->
  (work (<[n := Some r]> fs) n + weight (NEST_MAX - 1 - n) = work fs n)%nat.
Proof.
  intros Hn H. pose proof (lookup_lt_Some _ _ _ H).
  assert (E1 : forall g, work g n = (unread (default None (g !! n)) * weight (NEST_MAX - 1 - n) + match n with O => 0 | S n' => S (work g n') end)%nat) by (by destruct n).
  rewrite !E1, H, list_lookup_insert_eq by done. cbn [from_option id unread length].
  rewrite Nat.mul_succ_l. destruct n as [|n]; [lia|]. rewrite work_insert_gt by lia. lia.
Qed.
Lemma cost_read s inc ch r : (nest s <= NEST_MAX - 1)%nat -> incs s !! nest s = Some inc -> i_fp inc = Some (ch :: r) ->
  (cost (set_inc (nest s) (with_fp (Some r) inc) s) + weight (NEST_MAX - 1 - nest s) = cost s)%nat.
Proof.
  intros Hn Hi Hf. unfold cost. rewrite fps_insert. cbn [i_fp with_fp]. apply (work_read _ _ ch); [done|].
  unfold fps. by rewrite (list_lookup_fmap i_fp), Hi, <- Hf.
Qed.
(** An included file costs less than one character of the including one. *)
Lemma cost_pushed s s' : pushed s s' -> (S (nest s) < length (fps s))%nat ->
  (cost s' + 1 <= cost s + weight (NEST_MAX - 1 - nest s))%nat.
Proof.
  intros (Hn & Hn' & n & fp & Hf & Hfs) Hl. unfold cost. rewrite Hn', Hfs. cbn [work].
  rewrite list_lookup_insert_eq, work_insert_gt by lia. cbn [from_option id unread].
  unfold NEST_MAX in *. replace (6 - 1 - nest s)%nat with (S (6 - 1 - S (nest s))) by lia. cbn [weight].
  pose proof (files_bounded _ _ Hf). nia.
Qed.

(** The open files are those of the levels up to the current one. *)
Definition open_files s : Prop := forall k f, fps s !! k = Some f -> (is_Some f <-> (k <= nest s)%nat).
Definition sound s : Prop := (nest s <= NEST_MAX - 1)%nat /\ length (incs s) = NEST_MAX /\ open_files s.

Lemma open_insert s s' k f : fps s' = <[k := f]> (fps s) -> (is_Some f <-> (k <= nest s')%nat) ->
  (forall j, j <> k -> (j <= nest s')%nat <-> (j <= nest s)%nat) -> open_files s -> open_files s'.
Proof.
  intros Hf Hk Hj Ho j g Hg. rewrite Hf in Hg. destruct (decide (j = k)) as [->|Hne].
  - pose proof (lookup_lt_Some _ _ _ Hg) as Hl. rewrite length_insert in Hl. rewrite list_lookup_insert_eq in Hg by done.
    by injection Hg as <-.
  - rewrite list_lookup_insert_ne in Hg by done. rewrite (Ho _ _ Hg). by rewrite Hj.
Qed.
Lemma sound_moves s s' : sound s -> same s s' \/ pushed s s' -> sound s'.
Proof.
  intros (H1 & H2 & Ho) H. assert (Hl : forall a b, fps a = fps b -> length (incs a) = length (incs b)).
  { intros a b Hab. unfold fps in Hab. apply (f_equal length) in Hab. by rewrite !length_fmap in Hab. }
  destruct H as [[H3 H4]|(H3 & H4 & n & fp & H5 & H6)].
  - split; [lia|]. split; [by rewrite (Hl _ _ H4)|]. intros k f. rewrite H4, H3. apply Ho.
  - split; [lia|]. split; [apply (f_equal length) in H6; unfold fps in H6; by rewrite length_insert, !length_fmap, H2 in H6|].
    apply (open_insert s s' _ _ H6); [split; [lia|eauto]|intros j Hj; lia|done].
Qed.
Lemma sound_read s inc r : sound s -> sound (set_inc (nest s) (with_fp (Some r) inc) s).
Proof.
  intros (H1 & H2 & Ho). split; [done|]. split; [cbn; by rewrite length_insert|].
  apply (open_insert s _ (nest s) (Some r)); [apply fps_insert|split; [done|eauto]|done|done].
Qed.
Lemma sound_pop s inc : sound s -> (0 < nest s)%nat ->
  sound (mkSsi (nest s - 1) (incs (set_inc (nest s) (with_fp None inc) s)) (world s)).
Proof.
  intros (H1 & H2 & Ho) Hn. split; [cbn; unfold NEST_MAX in *; lia|]. split; [cbn; by rewrite length_insert|].
  apply (open_insert s _ (nest s) None); [exact (fps_insert s (nest s) (with_fp None inc))| | |done]; cbn [nest].
  - split; [by intros [? ?]|lia].
  - intros j Hj. lia.
Qed.

Lemma moves_read_char s inc len ch w : incs s !! nest s = Some inc -> moves (read_char E s inc len ch w) s.
Proof.
  intros Hi. unfold moves, read_char. destruct (i_state inc =? SSI_PASS).
  - destruct (ch =? 60).
    + step holds_rwrite. intros b _. left. by eapply same_set.
    + destruct (_ =? _); [|by left]. step holds_put. intros w' _. by left.
  - destruct (i_state inc =? SSI_BUF); [|destruct (_ || _); [by left|done]].
    unfold buffer_char. destruct (_ <=? _).
    { step holds_pass. intros [inc' w'] Hf. left. by eapply same_set. }
    apply holds_bind. apply (holds_mono _ (fun _ => True)); [destruct (_ =? _); [apply holds_rread|done]|]. intros d _.
    destruct (_ && _); [apply moves_do_command|]. step holds_rwrite. intros b _.
    destruct (_ && _); [|left; by eapply same_set]. step holds_pass. intros [inc' w'] Hf. left. by eapply same_set.
Qed.

Lemma read_while_holds fuel : forall len s w, sound s -> (cost s < fuel)%nat ->
  holds (read_while E fuel len s w) (fun x => sound (fst (fst x)) /\ (cost (fst (fst x)) <= cost s)%nat).
Proof.
  induction fuel as [|fuel IH]; intros len s w Hs Hc; [lia|]. cbn [read_while]. step holds_get_inc. intros inc Hi.
  destruct (room inc len w); [|split; [done|apply Nat.le_refl]]. destruct (i_fp inc) as [[|ch r]|] eqn:Hf; [split; [done|apply Nat.le_refl]| |done].
  set (inc1 := with_fp (Some r) inc). set (s1 := set_inc (nest s) inc1 s).
  assert (Hc1 : (cost s1 + weight (NEST_MAX - 1 - nest s) = cost s)%nat) by (by eapply cost_read, Hf; [apply Hs|]).
  assert (Hs1 : sound s1) by (by apply sound_read).
  assert (Hi1 : incs s1 !! nest s1 = Some inc1) by (cbn; apply list_lookup_insert_eq; by apply lookup_lt_Some in Hi).
  apply holds_bind. eapply holds_mono; [by apply moves_read_char|]. intros [s2 w2] Hm. cbn [fst] in Hm.
  pose proof (weight_pos (NEST_MAX - 1 - nest s)).
  assert (Hc2 : (cost s2 < cost s)%nat).
  { destruct Hm as [Hm|Hm]; [rewrite (cost_same _ _ Hm); lia|].
    enough (cost s2 + 1 <= cost s1 + weight (NEST_MAX - 1 - nest s))%nat by lia.
    apply (cost_pushed s1 s2 Hm). destruct Hm as (Hn & _). unfold fps. rewrite length_fmap, (proj1 (proj2 Hs1)). unfold NEST_MAX in *. lia. }
  eapply holds_mono; [apply IH; [by eapply sound_moves|lia]|]. intros x [H1 H2]. split; [done|lia].
Qed.

Lemma cost_pop s inc : (0 < nest s)%nat ->
  (cost (mkSsi (nest s - 1) (incs (set_inc (nest s) inc s)) (world s)) < cost s)%nat.
Proof.
  intros Hn. unfold cost at 1. cbn [nest]. change (fps (mkSsi _ (incs (set_inc (nest s) inc s)) _)) with (fps (set_inc (nest s) inc s)).
  rewrite fps_insert. rewrite work_insert_gt by lia. unfold cost. destruct (nest s) as [|n]; [lia|].
  replace (S n - 1)%nat with n by lia. cbn [work]. lia.
Qed.
Lemma sound_keeps m s : sound s -> keeps m s -> holds m (fun x => sound (fst x) /\ cost (fst x) = cost s).
Proof.
  intros Hs H. eapply holds_mono; [exact H|]. intros x Hx. split; [eapply sound_moves; [exact Hs|by left]|by apply cost_same].
Qed.

Lemma read_again_holds fuel : forall len s w, sound s -> (cost s < fuel)%nat ->
  holds (read_again E fuel len s w) (fun x => sound (fst x) /\ (cost (fst x) <= cost s)%nat).
Proof.
  induction fuel as [|fuel IH]; intros len s w Hs Hc; [lia|]. cbn [read_again]. step holds_get_inc. intros inc Hi.
  apply holds_bind. apply (holds_mono _ (fun x => sound (fst x) /\ cost (fst x) = cost s)).
  { destruct (_ =? _); [apply sound_keeps; [done|apply keeps_call2]|]. destruct (_ =? _); [apply sound_keeps; [done|apply keeps_exec2]|done]. }
  intros [s1 w1] [Hs1 Hc1]. cbn [fst] in *.
  apply holds_bind. eapply holds_mono; [apply (read_while_holds (S fuel) len s1 w1 Hs1); lia|].
  intros [[s2 w2] eof] [Hs2 Hc2]. cbn [fst] in *. step holds_get_inc. intros inc2 Hi2.
  destruct (_ && eof) eqn:Hb; [|split; [done|cbn [fst]; lia]]. apply andb_prop in Hb as [Hb _]. apply andb_prop in Hb as [Hn _]. apply Nat.ltb_lt in Hn.
  pose proof (cost_pop s2 (with_fp None inc2) Hn) as Hp.
  eapply holds_mono; [apply IH; [exact (sound_pop s2 inc2 Hs2 Hn)|eapply Nat.lt_le_trans; [exact Hp|lia]]|].
  intros x [H1 H2]. split; [done|]. eapply Nat.le_trans; [exact H2|]. eapply Nat.lt_le_incl, Nat.lt_le_trans; [exact Hp|lia].
Qed.

Lemma sound_start page (x : W) : sound (start_ssi page x).
Proof.
  split; [cbn; lia|]. split; [reflexivity|]. intros k f Hk.
  do 6 (destruct k as [|k]; [injection Hk as <-; cbn; split; [lia || by intros [? ?]|eauto; lia]|]). done.
Qed.
(** [close_ssi] closes what is open. *)
Lemma close_sound s : sound s -> fst (close_ssi s) = seq 0 (S (nest s)).
Proof.
  intros (Hn & Hl & Ho). unfold close_ssi. cbn [fst]. unfold NEST_MAX in *.
  assert (HX : forall k, is_Some (incs s !! k ≫= i_fp) <-> (k <= nest s)%nat).
  { intros k. destruct (incs s !! k) as [i|] eqn:Hi.
    - apply (Ho k (i_fp i)). unfold fps. by rewrite (list_lookup_fmap i_fp), Hi.
    - apply lookup_ge_None in Hi. cbn. split; [by intros [? ?]|lia]. }
  rewrite (list_filter_iff _ _ _ HX). clear -Hn. destruct (nest s) as [|[|[|[|[|[|n]]]]]]; [reflexivity..|lia].
Qed.

End Total.

(** ** Properties *)

(** C37: Every read ends, whatever the page and the files it includes contain: with files
    of at most [L] bytes, [cost] bounds the steps, and the stack of includes never grows
    beyond its six levels. *)
Theorem read_ssi_ends {W} (E : ssi_env W) (L : nat) (s : ssi W) (buf : list Z) fuel :
  (forall n fp, e_fopen E n = Some fp -> (length fp <= L)%nat) -> sound s -> (cost L s < fuel)%nat ->
  match read_ssi E fuel s buf with
  | Ret (s', _) => sound s'
  | NoFuel => False
  | Undef => True
  end.
Proof.
  intros HL Hs Hc. pose proof (read_again_holds E L HL fuel (zlen buf) s (mkOut 0 buf) Hs Hc) as H.
  unfold read_ssi. destruct (read_again E fuel (zlen buf) s (mkOut 0 buf)) as [[s' w]| |]; [apply H|done..].
Qed.

(** A page that includes itself twice. *)
Definition loop_page : list Z := str "<!--#include '--><!--#include '-->x".
Definition loop_env : ssi_env unit :=
  mkEnv [] [] [] (fun _ l => l) (fun s _ => (s, true))
    (fun _ => Some (map (fun c => if c =? 39 then QUOTE else c) loop_page))
    (fun _ => None) (fun _ _ => None) (fun _ _ => None).
Lemma read_ssi_ends_witness :
  match read_ssi loop_env (S (cost 100 (start_ssi loop_page tt))) (start_ssi loop_page tt) (zrep 1000 0) with
  | Ret (s', _) => sound s'
  | NoFuel => False
  | Undef => True
  end.
Proof.
  apply (read_ssi_ends loop_env 100 (start_ssi loop_page tt) (zrep 1000 0)).
  - intros n fp [= <-]. vm_compute. lia.
  - apply sound_start.
  - lia.
Defined.

Lemma reads_holds {W} (E : ssi_env W) (L : nat) (HL : forall n fp, e_fopen E n = Some fp -> (length fp <= L)%nat) fuel bufs :
  forall s, sound s -> (cost L s < fuel)%nat -> holds (reads E fuel s bufs) (fun x => sound (snd x)).
Proof.
  induction bufs as [|b bufs IH]; intros s Hs Hc; cbn [reads]; [done|].
  apply holds_bind. eapply holds_mono; [by apply (read_again_holds E L HL)|]. intros [s1 w] [Hs1 Hc1]. cbn [fst] in *.
  apply holds_bind. eapply holds_mono; [apply (IH s1 Hs1); lia|]. intros [o s2] H. exact H.
Qed.

(** C38: No stream leaks: after any number of reads into any buffers the open files are
    those of the includes still being read, never more than six, and [close_ssi] closes
    exactly these. *)
Theorem close_ssi_closes_open_files {W} (E : ssi_env W) (L : nat) page x bufs fuel :
  (forall n fp, e_fopen E n = Some fp -> (length fp <= L)%nat) -> (cost L (start_ssi page x) < fuel)%nat ->
  match reads E fuel (start_ssi page x) bufs with
  | Ret (_, s') => (nest s' < NEST_MAX)%nat /\ fst (close_ssi s') = seq 0 (S (nest s'))
  | NoFuel => False
  | Undef => True
  end.
Proof.
  intros HL Hc. pose proof (reads_holds E L HL fuel bufs _ (sound_start page x) Hc) as H.
  destruct (reads E fuel (start_ssi page x) bufs) as [[o s']| |]; [|done..]. split; [|by apply close_sound].
  destruct H as [Hn _]. unfold NEST_MAX in *. cbn in Hn. lia.
Qed.
Lemma close_ssi_closes_open_files_witness :
  match reads loop_env (S (cost 100 (start_ssi loop_page tt))) (start_ssi loop_page tt) [zrep 600 0; zrep 20 0] with
  | Ret (_, s') => (nest s' < NEST_MAX)%nat /\ fst (close_ssi s') = seq 0 (S (nest s'))
  | NoFuel => False
  | Undef => True
  end.
Proof.
  apply (close_ssi_closes_open_files loop_env 100 loop_page tt).
  - intros n fp [= <-]. vm_compute. lia.
  - lia.
Defined.

(** ** Pages that go wrong *)

(** [memcmp (inc->buf + inc->nbuf - 2, ...)] starts in front of the array when [>]
    comes right after [<]. *)
Example ssi_empty_tag : read_ssi loop_env 100 (start_ssi (str "<>") tt) (zrep 600 0) = Undef.
Proof. vm_compute. reflexivity. Qed.
(** [trim_spaces] runs over the blank it has overwritten and leaves the buffer. *)
Example ssi_no_attributes : read_ssi loop_env 100 (start_ssi (str "<!--#call -->") tt) (zrep 600 0) = Undef.
Proof. vm_compute. reflexivity. Qed.
(** A comment that is no command loses its [>]. *)
Example ssi_comment_end : match read_ssi loop_env 100 (start_ssi (str "<!-->text") tt) (zrep 600 0) with
  Ret (_, w) => ztake (o_n w) (o_buf w) = str "<!--text" | _ => False end.
Proof. vm_compute. reflexivity. Qed.
(** A command behind a [<] is passed on as text. *)
Example ssi_hidden_command : match read_ssi loop_env 100 (start_ssi (str "<<!--#else-->text") tt) (zrep 600 0) with
  Ret (_, w) => ztake (o_n w) (o_buf w) = str "<<!--#else-->text" | _ => False end.
Proof. vm_compute. reflexivity. Qed.
(** What is buffered at the end of a file is dropped. *)
Example ssi_dropped_end : match read_ssi loop_env 100 (start_ssi (str "1 <") tt) (zrep 600 0) with
  Ret (_, w) => ztake (o_n w) (o_buf w) = str "1 " | _ => False end.
Proof. vm_compute. reflexivity. Qed.
