(* ===== verification/Hex2bin.v ===== *)
(** * hex2bin (target/usr.bin/hex2bin/hex2bin.c)

    Bytes from the hexadecimal digits of the command line.  What the program prints
    before it stops is part of its result; the message on standard error is not. *)

From S2P Require Import Prelude CLib.

Definition hex2bin4b (c : Z) : option Z :=
  if (97 <=? c) && (c <=? 102) then Some (c - 97 + 10)
  else if (65 <=? c) && (c <=? 70) then Some (c - 65 + 10)
  else if (48 <=? c) && (c <=? 57) then Some (c - 48)
  else None.

(** [hex_string_out] from [str + i]: the bytes printed, and whether the program goes on.
    Behind trailing white space [str[i + 1]] is read beyond the terminating NUL, in
    either order with [str[i]]. *)
Fixpoint hex_string_out (fuel : nat) (str : list Z) : run (list Z * bool) :=
  match str with
  | [] => Ret ([], true)
  | _ =>
      match fuel with
      | O => NoFuel
      | S fuel' =>
          match skip_while isspace str with
          | [] => Undef
          | [_] => Ret ([], false)
          | c :: d :: rest =>
              match hex2bin4b c, hex2bin4b d with
              | Some a, Some b =>
                  x ← hex_string_out fuel' rest; let '(out, go) := x in
                  Ret (u8 (Z.lor (Z.shiftl a 4) b) :: out, go)
              | _, _ => Ret ([], false)
              end
          end
      end
  end.

Fixpoint hex_args (argv : list (list Z)) : run (list Z * Z) :=
  match argv with
  | [] => Ret ([], 0)
  | a :: r =>
      x ← hex_string_out (length a) a; let '(out, go) := x in
      if go : bool then y ← hex_args r; let '(out', status) := y in Ret (out ++ out', status)
      else Ret (out, 1)
  end.
(** [main], on the arguments behind the program's name. *)
Definition hex_main (argv : list (list Z)) : run (list Z * Z) :=
  match argv with [] => Ret ([], 1) | _ => hex_args argv end.

(** ** What the digits mean *)

(** The value of a digit: its place among the sixteen. *)
Definition hex_digit (c : Z) : option Z :=
  Z.of_nat ∘ fst <$> list_find (fun d => d = tolower c) (str "0123456789abcdef").
(** White space may stand in front of a pair of digits, and nowhere else. *)
Inductive hex_text : list Z -> list Z -> Prop :=
| ht_end : hex_text [] []
| ht_pair sp a b x y s bs : Forall (fun c => isspace c = true) sp -> hex_digit a = Some x -> hex_digit b = Some y ->
    hex_text s bs -> hex_text (sp ++ a :: b :: s) (16 * x + y :: bs).

Lemma hex2bin4b_digit c : hex2bin4b c = hex_digit c.
Proof.
  unfold hex2bin4b, hex_digit, tolower.
  destruct (decide (48 <= c <= 57 \/ 65 <= c <= 70 \/ 97 <= c <= 102)) as [H|H].
  - assert (Hc : c ∈ (seqZ 48 10 ++ seqZ 65 6 ++ seqZ 97 6)) by (rewrite !elem_of_app, !elem_of_seqZ; lia).
    clear H. vm_compute in Hc. repeat (apply elem_of_cons in Hc as [->|Hc]; [reflexivity|]). by apply not_elem_of_nil in Hc.
  - replace (list_find _ _) with (None : option (nat * Z)).
    + destruct (_ && _) eqn:E1; [lia|]. destruct ((65 <=? c) && _) eqn:E2; [lia|]. by destruct ((48 <=? c) && _) eqn:E3; [lia|].
    + symmetry. apply list_find_None. apply (Forall_impl (fun d => 48 <= d <= 57 \/ 97 <= d <= 102)).
      * apply (bool_decide_unpack _). vm_compute. exact I.
      * intros d Hd Hx. cbn beta in Hx. destruct (_ && _) eqn:E in Hx; lia.
Qed.
Lemma hex_digit_range c x : hex_digit c = Some x -> 0 <= x < 16.
Proof.
  rewrite <- hex2bin4b_digit. unfold hex2bin4b. intros H.
  destruct (_ && _) eqn:E1; [injection H as <-; lia|]. destruct ((65 <=? c) && _) eqn:E2; [injection H as <-; lia|].
  destruct ((48 <=? c) && _) eqn:E3; [injection H as <-; lia|done].
Qed.
Lemma nibbles x y : 0 <= x < 16 -> 0 <= y < 16 -> u8 (Z.lor (Z.shiftl x 4) y) = 16 * x + y.
Proof.
  intros Hx Hy. assert (Hor : Z.lor (Z.shiftl x 4) y = 16 * x + y).
  { rewrite Z.shiftl_mul_pow2 by lia. change (2 ^ 4) with 16. rewrite (Z.mul_comm 16 x). apply (lor_add_shift x y 4); lia. }
  rewrite Hor. unfold u8. apply Z.mod_small. lia.
Qed.
Lemma skip_spaces sp c s : Forall (fun c => isspace c = true) sp -> isspace c = false -> skip_while isspace (sp ++ c :: s) = c :: s.
Proof. intros Hsp Hc. induction Hsp as [|b sp Hb _ IH]; cbn [app skip_while]; [by rewrite Hc|by rewrite Hb]. Qed.
Lemma digit_no_space c x : hex_digit c = Some x -> isspace c = false.
Proof.
  rewrite <- hex2bin4b_digit. unfold hex2bin4b, isspace. intros H. destruct (_ || _) eqn:E; [|done].
  destruct (_ && _) eqn:E1 in H; [lia|]. destruct ((65 <=? c) && _) eqn:E2; [lia|]. destruct ((48 <=? c) && _) eqn:E3; [lia|done].
Qed.

Lemma hex_text_out s bs : hex_text s bs -> forall fuel, (length s <= fuel)%nat -> hex_string_out fuel s = Ret (bs, true).
Proof.
  induction 1 as [|sp a b x y s bs Hsp Ha Hb _ IH]; intros fuel Hf; [by destruct fuel|].
  rewrite length_app in Hf. cbn in Hf. destruct fuel as [|fuel]; [lia|]. cbn [hex_string_out].
  rewrite (skip_spaces sp a) by (done || by eapply digit_no_space). rewrite !hex2bin4b_digit, Ha, Hb, IH by lia. rsimpl.
  rewrite nibbles by (by eapply hex_digit_range). by destruct sp.
Qed.
Lemma hex_out_text fuel : forall s out, hex_string_out fuel s = Ret (out, true) -> hex_text s out.
Proof.
  induction fuel as [|fuel IH]; intros [|c0 s0] out H; cbn [hex_string_out] in H; try done; try (injection H as <-; constructor).
  destruct (take_while_spec isspace (c0 :: s0)) as [Hs Hsp]. destruct (skip_while isspace (c0 :: s0)) as [|a [|b r]]; [done..|].
  rewrite !hex2bin4b_digit in H. destruct (hex_digit a) as [x|] eqn:Ha; [|done]. destruct (hex_digit b) as [y|] eqn:Hb; [|done].
  destruct (hex_string_out fuel r) as [[o g]| |] eqn:Er; rsimpl; [|done..]. cbn in H. injection H as <- ->.
  rewrite Hs, nibbles by (by eapply hex_digit_range). constructor; auto.
Qed.
Lemma hex_string_fuel fuel : forall s, (length s <= fuel)%nat -> hex_string_out fuel s <> NoFuel.
Proof.
  induction fuel as [|fuel IH]; intros [|c0 s0] Hf; cbn in Hf; [done|lia|done|]. cbn [hex_string_out].
  destruct (take_while_spec isspace (c0 :: s0)) as [Hs _]. destruct (skip_while isspace (c0 :: s0)) as [|a [|b r]]; [done..|].
  destruct (hex2bin4b a), (hex2bin4b b); try done. apply (f_equal length) in Hs. rewrite length_app in Hs. cbn in Hs.
  specialize (IH r ltac:(lia)). by destruct (hex_string_out fuel r) as [[? ?]| |].
Qed.

Lemma hex_args_ok argv : forall out, hex_args argv = Ret (out, 0) <-> exists outs, Forall2 hex_text argv outs /\ out = concat outs.
Proof.
  induction argv as [|a argv IH]; intros out; cbn [hex_args].
  - split; [intros [= <-]; by exists []|]. intros (outs & H & ->). by inversion H.
  - split.
    + intros H. destruct (hex_string_out (length a) a) as [[o g]| |] eqn:Ea; cbn in H; [|done..]. destruct g; [|done].
      destruct (hex_args argv) as [[o' st]| |] eqn:Er; cbn in H; [|done..]. injection H as <- ->.
      destruct (proj1 (IH o') eq_refl) as (outs & Hf & ->). exists (o :: outs). split; [|done]. constructor; [by eapply hex_out_text|done].
    + intros (outs & H & ->). inversion H as [|? o ? outs' Ha Hr]; subst. rewrite (hex_text_out a o Ha) by done. rsimpl.
      rewrite (proj2 (IH (concat outs'))) by (by exists outs'). done.
Qed.
Lemma hex_args_fuel argv : hex_args argv <> NoFuel.
Proof.
  induction argv as [|a argv IH]; cbn [hex_args]; [done|]. pose proof (hex_string_fuel (length a) a ltac:(done)).
  destruct (hex_string_out (length a) a) as [[o [|]]| |]; try done. rsimpl. by destruct (hex_args argv) as [[? ?]| |].
Qed.

(** hex2bin ends, and it ends with status 0 exactly when every argument is a sequence
    of pairs of hexadecimal digits, of either case, with white space in front of pairs
    only; it has then printed the bytes of all arguments in order. *)
Theorem hex2bin_bytes argv : argv <> [] ->
  hex_main argv <> NoFuel /\
  forall out, hex_main argv = Ret (out, 0) <-> exists outs, Forall2 hex_text argv outs /\ out = concat outs.
Proof.
  intros Hne. destruct argv as [|a argv]; [done|]. split; [apply hex_args_fuel|]. apply hex_args_ok.
Qed.
Lemma hex2bin_bytes_witness :
  hex_main [str "de AD"; str "0f"] <> NoFuel /\
  forall out, hex_main [str "de AD"; str "0f"] = Ret (out, 0) <->
    exists outs, Forall2 hex_text [str "de AD"; str "0f"] outs /\ out = concat outs.
Proof. apply (hex2bin_bytes [str "de AD"; str "0f"]). discriminate. Defined.

Example hex_run : hex_main [str "de AD"; str "0f"] = Ret ([222; 173; 15], 0).
Proof. reflexivity. Qed.
(** A digit too few ends the program, after what was printed. *)
Example hex_odd : hex_main [str "de A"; str "0f"] = Ret ([222], 1).
Proof. reflexivity. Qed.
Example hex_trailing : hex_main [str "de "] = Undef.
Proof. reflexivity. Qed.
