(* ===== verification/Fdt.v ===== *)
(** * libfdt (contrib/uboot_mkimage/lib/libfdt: fdt.c, fdt_ro.c, fdt_wip.c, fdt_rw.c)

    A flattened device tree is memory, addressed from its first byte; pointers into it are
    those addresses, and offsets of nodes count from the structure block.  Errors are
    negative numbers.  Loops run on [fuel]: a tree can be broken so that they never end. *)

From S2P Require Import Prelude CLib.

Definition FDT_MAGIC : Z := 0xd00dfeed.
Definition FDT_SW_MAGIC : Z := 0xffffffff - FDT_MAGIC.
Definition FDT_FIRST_SUPPORTED_VERSION : Z := 0x10.
Definition FDT_LAST_SUPPORTED_VERSION : Z := 0x11.
Definition FDT_BEGIN_NODE : Z := 1.
Definition FDT_END_NODE : Z := 2.
Definition FDT_PROP : Z := 3.
Definition FDT_NOP : Z := 4.
Definition FDT_END : Z := 9.
Definition FDT_TAGSIZE : Z := 4.
Definition FDT_ERR_NOTFOUND : Z := 1.
Definition FDT_ERR_EXISTS : Z := 2.
Definition FDT_ERR_NOSPACE : Z := 3.
Definition FDT_ERR_BADOFFSET : Z := 4.
Definition FDT_ERR_BADPATH : Z := 5.
Definition FDT_ERR_BADPHANDLE : Z := 6.
Definition FDT_ERR_BADSTATE : Z := 7.
Definition FDT_ERR_TRUNCATED : Z := 8.
Definition FDT_ERR_BADMAGIC : Z := 9.
Definition FDT_ERR_BADVERSION : Z := 10.
Definition FDT_ERR_BADSTRUCTURE : Z := 11.
Definition FDT_ERR_BADLAYOUT : Z := 12.
Definition FDT_ERR_INTERNAL : Z := 13.

(** Between the monads of the code without loops and with them; the loops that go through
    [lower] end. *)
Definition lift {A} (m : outcome A) : run A := match m with Ok a => Ret a | _ => Undef end.
Definition lower {A} (m : run A) : outcome A := match m with Ret a => Ok a | _ => UB end.

(** ** Memory *)

Definition rread (o n : Z) (l : list Z) : run (list Z) := match bread o n l with Ok d => Ret d | _ => Undef end.
Definition rwrite (o : Z) (d l : list Z) : run (list Z) := match bwrite o d l with Ok l => Ret l | _ => Undef end.
(** fdt32_to_cpu of the word at an address, on any host. *)
Definition ld32 (a : Z) (l : list Z) : run Z := w ← rread a 4 l; Ret (be_val w).
Definition ld64 (a : Z) (l : list Z) : run Z := w ← rread a 8 l; Ret (be_val w).
Definition st32 (a v : Z) (l : list Z) : run (list Z) := rwrite a (be_bytes 4 v) l.
Definition memmove (dst src n : Z) (l : list Z) : run (list Z) := d ← rread src n l; rwrite dst d l.
(** The string at an address. *)
Definition string_at (a : Z) (l : list Z) : run (list Z) :=
  if (0 <=? a) && existsb (Z.eqb 0) (zdrop a l) then Ret (cstr (zdrop a l)) else Undef.

(** struct fdt_header, by the place of a field; [fdt_get_header] and the [fdt_set_] functions. *)
Definition fdt_get_header (field : Z) (fdt : list Z) : run Z := ld32 (4 * field) fdt.
Definition fdt_set_header (field v : Z) (fdt : list Z) : run (list Z) := st32 (4 * field) v fdt.
Notation fdt_magic := (fdt_get_header 0).
Notation fdt_totalsize := (fdt_get_header 1).
Notation fdt_off_dt_struct := (fdt_get_header 2).
Notation fdt_off_dt_strings := (fdt_get_header 3).
Notation fdt_off_mem_rsvmap := (fdt_get_header 4).
Notation fdt_version := (fdt_get_header 5).
Notation fdt_last_comp_version := (fdt_get_header 6).
Notation fdt_boot_cpuid_phys := (fdt_get_header 7).
Notation fdt_size_dt_strings := (fdt_get_header 8).
Notation fdt_size_dt_struct := (fdt_get_header 9).
Definition FDT_ALIGN (x a : Z) : Z := Z.land (x + a - 1) (Z.lnot (a - 1)).
(** As an int. *)
Definition FDT_TAGALIGN (x : Z) : Z := s32 (FDT_ALIGN x FDT_TAGSIZE).

(** ** fdt.c *)

Definition fdt_check_header (fdt : list Z) : run Z :=
  magic ← fdt_magic fdt;
  if magic =? FDT_MAGIC then
    version ← fdt_version fdt;
    if version <? FDT_FIRST_SUPPORTED_VERSION then Ret (- FDT_ERR_BADVERSION) else
    last_comp ← fdt_last_comp_version fdt;
    if FDT_LAST_SUPPORTED_VERSION <? last_comp then Ret (- FDT_ERR_BADVERSION) else Ret 0
  else if magic =? FDT_SW_MAGIC then
    size ← fdt_size_dt_struct fdt;
    if size =? 0 then Ret (- FDT_ERR_BADSTATE) else Ret 0
  else Ret (- FDT_ERR_BADMAGIC).

(** Without checks. *)
Definition offset_ptr (fdt : list Z) (offset : Z) : run Z := base ← fdt_off_dt_struct fdt; Ret (base + offset).
(** The sum is unsigned; before version 17 nothing is checked. *)
Definition fdt_offset_ptr (fdt : list Z) (offset len : Z) : run (option Z) :=
  version ← fdt_version fdt;
  bad ← (if 0x11 <=? version then
           if u32 (offset + len) <? u32 offset then Ret true else
           size ← fdt_size_dt_struct fdt; Ret (size <? u32 (offset + len))
         else Ret false);
  if (bad : bool) then Ret None else p ← offset_ptr fdt offset; Ret (Some p).

(** The loop over the name: the offset behind its NUL. *)
Fixpoint skip_name (n : nat) (fdt : list Z) (offset : Z) : run (option Z) :=
  match n with
  | O => NoFuel
  | S n =>
      p ← fdt_offset_ptr fdt offset 1;
      match p with
      | None => Ret None
      | Some p => c ← rread p 1 fdt; if znth c 0 =? 0 then Ret (Some (offset + 1)) else skip_name n fdt (offset + 1)
      end
  end.
(** The tag and where the next is, or why there is none. *)
Definition fdt_next_tag (fdt : list Z) (startoffset : Z) : run (Z * Z) :=
  tagp ← fdt_offset_ptr fdt startoffset FDT_TAGSIZE;
  match tagp with
  | None => Ret (FDT_END, - FDT_ERR_TRUNCATED)
  | Some tagp =>
      tag ← ld32 tagp fdt;
      let offset := startoffset + FDT_TAGSIZE in
      offset ←
        (if tag =? FDT_BEGIN_NODE then skip_name (S (length fdt)) fdt offset
         else if tag =? FDT_PROP then
           lenp ← fdt_offset_ptr fdt offset 4;
           match lenp with
           | None => Ret None
           | Some lenp => len ← ld32 lenp fdt; Ret (Some (s32 (offset + 8 + len)))
           end
         else if (tag =? FDT_END) || (tag =? FDT_END_NODE) || (tag =? FDT_NOP) then Ret (Some offset)
         else Ret None);
      match offset with
      | None => Ret (FDT_END, - FDT_ERR_BADSTRUCTURE)
      | Some offset =>
          p ← fdt_offset_ptr fdt startoffset (u32 (offset - startoffset));
          match p with
          | None => Ret (FDT_END, - FDT_ERR_BADSTRUCTURE)
          | Some _ => Ret (tag, FDT_TAGALIGN offset)
          end
      end
  end.

Definition fdt_check_node_offset (fdt : list Z) (offset : Z) : run Z :=
  if (offset <? 0) || negb (Z.rem offset FDT_TAGSIZE =? 0) then Ret (- FDT_ERR_BADOFFSET) else
  t ← fdt_next_tag fdt offset;
  if t.1 =? FDT_BEGIN_NODE then Ret t.2 else Ret (- FDT_ERR_BADOFFSET).

Section Loops.
Context (fuel : nat).

(** The offset of the next node or an error, and the depth where one is counted. *)
Fixpoint next_node_loop (n : nat) (fdt : list Z) (offset : Z) (depth : option Z) : run (Z * option Z) :=
  match n with
  | O => NoFuel
  | S n =>
      t ← fdt_next_tag fdt offset;
      let '(tag, nextoffset) := t in
      if (tag =? FDT_PROP) || (tag =? FDT_NOP) then next_node_loop n fdt nextoffset depth
      else if tag =? FDT_BEGIN_NODE then Ret (offset, (fun d => d + 1) <$> depth)
      else if tag =? FDT_END_NODE then
        match depth with
        | None => next_node_loop n fdt nextoffset None
        | Some d => if d - 1 <? 0 then Ret (nextoffset, Some (d - 1)) else next_node_loop n fdt nextoffset (Some (d - 1))
        end
      else Ret (if (0 <=? nextoffset) || (nextoffset =? - FDT_ERR_TRUNCATED) && bool_decide (depth = None) then - FDT_ERR_NOTFOUND else nextoffset, depth)
  end.
Definition fdt_next_node (fdt : list Z) (offset : Z) (depth : option Z) : run (Z * option Z) :=
  nextoffset ← (if 0 <=? offset then fdt_check_node_offset fdt offset else Ret 0);
  if (0 <=? offset) && (nextoffset <? 0) then Ret (nextoffset, depth) else next_node_loop fuel fdt nextoffset depth.

(** memcmp of the bytes at [p]. *)
Definition memeq (fdt : list Z) (p : Z) (s : list Z) : run bool := d ← rread p (zlen s) fdt; Ret (streq d s).
Fixpoint find_string (n : nat) (fdt : list Z) (p last : Z) (s : list Z) : run (option Z) :=
  if last <? p then Ret None else
  match n with
  | O => NoFuel
  | S n => eq ← memeq fdt p s; if (eq : bool) then Ret (Some p) else find_string n fdt (p + 1) last s
  end.
Definition fdt_find_string (fdt : list Z) (strtab tabsize : Z) (s : list Z) : run (option Z) :=
  find_string fuel fdt strtab (strtab + tabsize - (zlen s + 1)) (s ++ [0]).

(** ** fdt_ro.c *)

(** The name is that of the path, or that with a unit address behind it. *)
Definition fdt_nodename_eq (fdt : list Z) (offset : Z) (s : list Z) : run bool :=
  p ← fdt_offset_ptr fdt (offset + FDT_TAGSIZE) (zlen s + 1);
  match p with
  | None => Ret false
  | Some p =>
      eq ← memeq fdt p s;
      if negb eq then Ret false else
      c ← rread (p + zlen s) 1 fdt;
      if znth c 0 =? 0 then Ret true else Ret (negb (existsb (Z.eqb 64) s) && (znth c 0 =? 64))
  end.
Definition fdt_string (fdt : list Z) (stroffset : Z) : run Z := base ← fdt_off_dt_strings fdt; Ret (base + stroffset).
Definition fdt_string_eq (fdt : list Z) (stroffset : Z) (s : list Z) : run bool :=
  p ← fdt_string fdt (s32 stroffset); t ← string_at p fdt; Ret (streq t s).

Definition mem_rsv (fdt : list Z) (n : Z) : run Z := base ← fdt_off_mem_rsvmap fdt; Ret (base + 16 * n).
Definition fdt_get_mem_rsv (fdt : list Z) (n : Z) : run (Z * option (Z * Z)) :=
  err ← fdt_check_header fdt;
  if negb (err =? 0) then Ret (err, None) else
  p ← mem_rsv fdt n; address ← ld64 p fdt; size ← ld64 (p + 8) fdt; Ret (0, Some (address, size)).
Fixpoint count_mem_rsv (n : nat) (fdt : list Z) (i : Z) : run Z :=
  match n with
  | O => NoFuel
  | S n => p ← mem_rsv fdt i; size ← ld64 (p + 8) fdt; if size =? 0 then Ret i else count_mem_rsv n fdt (i + 1)
  end.
Definition fdt_num_mem_rsv (fdt : list Z) : run Z := count_mem_rsv fuel fdt 0.

Definition the_depth (d : option Z) : Z := match d with Some d => d | None => 0 end.
Fixpoint subnode_loop (n : nat) (fdt : list Z) (offset depth : Z) (name : list Z) : run Z :=
  if (0 <=? offset) && (0 <=? depth) then
    eq ← (if depth =? 1 then fdt_nodename_eq fdt offset name else Ret false);
    if (eq : bool) then Ret offset else
    match n with
    | O => NoFuel
    | S n => r ← fdt_next_node fdt offset (Some depth); subnode_loop n fdt r.1 (the_depth r.2) name
    end
  else if depth <? 0 then Ret (- FDT_ERR_NOTFOUND) else Ret offset.
Definition fdt_subnode_offset (fdt : list Z) (offset : Z) (name : list Z) : run Z :=
  err ← fdt_check_header fdt;
  if negb (err =? 0) then Ret err else subnode_loop fuel fdt offset 0 name.

(** Where the property is and the length of its value, or an error. *)
Fixpoint property_loop (n : nat) (fdt : list Z) (nextoffset : Z) (name : list Z) : run (option Z * Z) :=
  match n with
  | O => NoFuel
  | S n =>
      let offset := nextoffset in
      t ← fdt_next_tag fdt offset;
      let '(tag, nextoffset) := t in
      if tag =? FDT_END then Ret (None, if nextoffset <? 0 then nextoffset else - FDT_ERR_BADSTRUCTURE)
      else if tag =? FDT_PROP then
        prop ← offset_ptr fdt offset;
        nameoff ← ld32 (prop + 8) fdt;
        eq ← fdt_string_eq fdt nameoff name;
        if (eq : bool) then len ← ld32 (prop + 4) fdt; Ret (Some prop, s32 len) else property_loop n fdt nextoffset name
      else if (tag =? FDT_BEGIN_NODE) || (tag =? FDT_END_NODE) then Ret (None, - FDT_ERR_NOTFOUND)
      else property_loop n fdt nextoffset name
  end.
Definition fdt_get_property (fdt : list Z) (nodeoffset : Z) (name : list Z) : run (option Z * Z) :=
  err ← fdt_check_header fdt;
  if negb (err =? 0) then Ret (None, err) else
  err ← fdt_check_node_offset fdt nodeoffset;
  if err <? 0 then Ret (None, err) else property_loop fuel fdt err name.
Definition fdt_getprop (fdt : list Z) (nodeoffset : Z) (name : list Z) : run (option Z * Z) :=
  r ← fdt_get_property fdt nodeoffset name; Ret (option_map (fun p => p + 12) r.1, r.2).

(** A path: components between slashes, the first of which may be an alias.  [n] counts the
    recursion over aliases, which can refer to themselves. *)
Fixpoint path_loop (n : nat) (fdt : list Z) (offset : Z) (p : list Z) : run Z :=
  match p with
  | [] => Ret offset
  | _ =>
      match skip_while (Z.eqb 47) p with
      | [] => Ret offset
      | p =>
          match n with
          | O => NoFuel
          | S n =>
              offset ← fdt_subnode_offset fdt offset (take_while (fun c => negb (c =? 47)) p);
              if offset <? 0 then Ret offset else path_loop n fdt offset (skip_while (fun c => negb (c =? 47)) p)
          end
      end
  end.
Definition alias_namelen (path_offset : list Z -> run Z) (fdt : list Z) (name : list Z) : run (option Z) :=
  aliasoffset ← path_offset (str "/aliases");
  if aliasoffset <? 0 then Ret None else r ← fdt_getprop fdt aliasoffset name; Ret r.1.
Fixpoint path_offset (n : nat) (fdt : list Z) (path : list Z) : run Z :=
  match n with
  | O => NoFuel
  | S n =>
      err ← fdt_check_header fdt;
      if negb (err =? 0) then Ret err else
      if (match path with c :: _ => c =? 47 | [] => false end) then path_loop (length path) fdt 0 path else
      a ← alias_namelen (path_offset n fdt) fdt (take_while (fun c => negb (c =? 47)) path);
      match a with
      | None => Ret (- FDT_ERR_BADPATH)
      | Some a =>
          target ← string_at a fdt;
          offset ← path_offset n fdt target;
          path_loop (length path) fdt offset (skip_while (fun c => negb (c =? 47)) path)
      end
  end.
Definition fdt_path_offset (fdt : list Z) (path : list Z) : run Z := path_offset fuel fdt path.
Definition fdt_get_alias (fdt : list Z) (name : list Z) : run (option Z) := alias_namelen (fdt_path_offset fdt) fdt name.

(** The name's address and its length, or an error. *)
Definition fdt_get_name (fdt : list Z) (nodeoffset : Z) : run (option Z * Z) :=
  nh ← offset_ptr fdt nodeoffset;
  err ← fdt_check_header fdt;
  if negb (err =? 0) then Ret (None, err) else
  err ← fdt_check_node_offset fdt nodeoffset;
  if err <? 0 then Ret (None, err) else
  name ← string_at (nh + FDT_TAGSIZE) fdt;
  Ret (Some (nh + FDT_TAGSIZE), zlen name).

Definition fdt_get_phandle (fdt : list Z) (nodeoffset : Z) : run Z :=
  r ← fdt_getprop fdt nodeoffset (str "linux,phandle");
  match r with
  | (Some php, len) => if len =? 4 then ld32 php fdt else Ret 0
  | (None, _) => Ret 0
  end.

(** Back to the slash before the last component. *)
Fixpoint drop_component (n : nat) (buf : list Z) (p : Z) : run Z :=
  match n with
  | O => NoFuel
  | S n => let p := p - 1 in c ← rread (p - 1) 1 buf; if znth c 0 =? 47 then Ret p else drop_component n buf p
  end.
Fixpoint drop_components (n : nat) (buf : list Z) (p pdepth depth : Z) : run (Z * Z) :=
  if pdepth <=? depth then Ret (p, pdepth) else
  match n with
  | O => NoFuel
  | S n => p ← drop_component fuel buf p; drop_components n buf p (pdepth - 1) depth
  end.
Definition walk_error (offset : Z) : Z :=
  if (offset =? - FDT_ERR_NOTFOUND) || (0 <=? offset) then - FDT_ERR_BADOFFSET
  else if offset =? - FDT_ERR_BADOFFSET then - FDT_ERR_BADSTRUCTURE else offset.
(** The answer and the buffer. *)
Fixpoint get_path_loop (n : nat) (fdt : list Z) (nodeoffset : Z) (buf : list Z) (p pdepth offset depth : Z) : run (Z * list Z) :=
  if (0 <=? offset) && (offset <=? nodeoffset) then
    match n with
    | O => NoFuel
    | S n =>
        pp ← drop_components fuel buf p pdepth depth;
        let '(p, pdepth) := pp in
        nm ← (if depth <=? pdepth then fdt_get_name fdt offset else Ret (Some 0, -1));
        match nm with
        | (None, err) => Ret (err, buf)
        | (Some name, namelen) =>
            st ← (if (depth <=? pdepth) && (p + namelen + 1 <=? zlen buf) then
                    d ← rread name namelen fdt;
                    buf ← rwrite p (d ++ [47]) buf;
                    Ret (buf, p + namelen + 1, pdepth + 1)
                  else Ret (buf, p, pdepth));
            let '(buf, p, pdepth) := st in
            if offset =? nodeoffset then
              if pdepth <? depth + 1 then Ret (- FDT_ERR_NOSPACE, buf) else
              buf ← rwrite (if 1 <? p then p - 1 else p) [0] buf;
              Ret (0, buf)
            else
              r ← fdt_next_node fdt offset (Some depth);
              get_path_loop n fdt nodeoffset buf p pdepth r.1 (the_depth r.2)
        end
    end
  else Ret (walk_error offset, buf).
Definition fdt_get_path (fdt : list Z) (nodeoffset : Z) (buf : list Z) : run (Z * list Z) :=
  err ← fdt_check_header fdt;
  if negb (err =? 0) then Ret (err, buf) else
  if zlen buf <? 2 then Ret (- FDT_ERR_NOSPACE, buf) else get_path_loop fuel fdt nodeoffset buf 0 0 0 0.

(** The supernode's offset or an error, and the node's depth when it is found. *)
Fixpoint supernode_loop (n : nat) (fdt : list Z) (nodeoffset supernodedepth offset depth supernodeoffset : Z) : run (Z * option Z) :=
  if (0 <=? offset) && (offset <=? nodeoffset) then
    match n with
    | O => NoFuel
    | S n =>
        let supernodeoffset := if depth =? supernodedepth then offset else supernodeoffset in
        if offset =? nodeoffset then Ret (if depth <? supernodedepth then - FDT_ERR_NOTFOUND else supernodeoffset, Some depth) else
        r ← fdt_next_node fdt offset (Some depth);
        supernode_loop n fdt nodeoffset supernodedepth r.1 (the_depth r.2) supernodeoffset
    end
  else Ret (walk_error offset, None).
Definition fdt_supernode_atdepth_offset (fdt : list Z) (nodeoffset supernodedepth : Z) : run (Z * option Z) :=
  err ← fdt_check_header fdt;
  if negb (err =? 0) then Ret (err, None) else
  if supernodedepth <? 0 then Ret (- FDT_ERR_NOTFOUND, None) else
  supernode_loop fuel fdt nodeoffset supernodedepth 0 0 (- FDT_ERR_INTERNAL).
Definition fdt_node_depth (fdt : list Z) (nodeoffset : Z) : run Z :=
  r ← fdt_supernode_atdepth_offset fdt nodeoffset 0;
  Ret (if negb (r.1 =? 0) then if r.1 <? 0 then r.1 else - FDT_ERR_INTERNAL else the_depth r.2).
Definition fdt_parent_offset (fdt : list Z) (nodeoffset : Z) : run Z :=
  nodedepth ← fdt_node_depth fdt nodeoffset;
  if nodedepth <? 0 then Ret nodedepth else
  r ← fdt_supernode_atdepth_offset fdt nodeoffset (nodedepth - 1); Ret r.1.

(** The first node behind [offset] that passes a test, which answers with an error or a
    boolean. *)
Fixpoint node_search (n : nat) (fdt : list Z) (test : Z -> run (Z + bool)) (offset : Z) : run Z :=
  match n with
  | O => NoFuel
  | S n =>
      r ← fdt_next_node fdt offset None;
      if r.1 <? 0 then Ret r.1 else
      found ← test r.1;
      match found with inl err => Ret err | inr true => Ret r.1 | inr false => node_search n fdt test r.1 end
  end.
Definition fdt_node_offset_by_prop_value (fdt : list Z) (startoffset : Z) (propname propval : list Z) : run Z :=
  err ← fdt_check_header fdt;
  if negb (err =? 0) then Ret err else
  node_search fuel fdt (fun offset =>
    r ← fdt_getprop fdt offset propname;
    match r with
    | (Some val, len) => if len =? zlen propval then eq ← memeq fdt val propval; Ret (inr eq) else Ret (inr false)
    | (None, _) => Ret (inr false)
    end) startoffset.
Definition fdt_node_offset_by_phandle (fdt : list Z) (phandle : Z) : run Z :=
  if (phandle =? 0) || (phandle =? 0xffffffff) then Ret (- FDT_ERR_BADPHANDLE) else
  fdt_node_offset_by_prop_value fdt (-1) (str "linux,phandle") (be_bytes 4 phandle).

(** Whether the list of strings at [p], of [listlen] bytes, has the string. *)
Fixpoint stringlist_loop (n : nat) (fdt : list Z) (p listlen : Z) (s : list Z) : run bool :=
  if listlen <? zlen s then Ret false else
  match n with
  | O => NoFuel
  | S n =>
      eq ← memeq fdt p (s ++ [0]);
      if (eq : bool) then Ret true else
      l ← rread p listlen fdt;
      if existsb (Z.eqb 0) l then stringlist_loop n fdt (p + zlen (cstr l) + 1) (listlen - (zlen (cstr l) + 1)) s else Ret false
  end.
Definition fdt_stringlist_contains (fdt : list Z) (strlist listlen : Z) (s : list Z) : run bool := stringlist_loop fuel fdt strlist listlen s.
Definition fdt_node_check_compatible (fdt : list Z) (nodeoffset : Z) (compatible : list Z) : run Z :=
  r ← fdt_getprop fdt nodeoffset (str "compatible");
  match r with
  | (None, len) => Ret len
  | (Some prop, len) => found ← fdt_stringlist_contains fdt prop len compatible; Ret (if (found : bool) then 0 else 1)
  end.
Definition fdt_node_offset_by_compatible (fdt : list Z) (startoffset : Z) (compatible : list Z) : run Z :=
  err ← fdt_check_header fdt;
  if negb (err =? 0) then Ret err else
  node_search fuel fdt (fun offset =>
    err ← fdt_node_check_compatible fdt offset compatible;
    Ret (if (err <? 0) && negb (err =? - FDT_ERR_NOTFOUND) then inl err else inr (err =? 0))) startoffset.

(** ** fdt_wip.c *)

Definition fdt_setprop_inplace (fdt : list Z) (nodeoffset : Z) (name val : list Z) : run (Z * list Z) :=
  r ← fdt_getprop fdt nodeoffset name;
  match r with
  | (None, err) => Ret (err, fdt)
  | (Some propval, proplen) =>
      if negb (proplen =? zlen val) then Ret (- FDT_ERR_NOSPACE, fdt) else
      fdt ← rwrite propval val fdt; Ret (0, fdt)
  end.
(** Words up to the end of the region, and over it when it is not whole words. *)
Fixpoint nop_words (n : nat) (start : Z) (fdt : list Z) : run (list Z) :=
  match n with O => Ret fdt | S n => fdt ← st32 start FDT_NOP fdt; nop_words n (start + 4) fdt end.
Definition fdt_nop_region (start len : Z) (fdt : list Z) : run (list Z) := nop_words (Z.to_nat ((len + 3) / 4)) start fdt.
Definition fdt_nop_property (fdt : list Z) (nodeoffset : Z) (name : list Z) : run (Z * list Z) :=
  r ← fdt_get_property fdt nodeoffset name;
  match r with
  | (None, err) => Ret (err, fdt)
  | (Some prop, len) => fdt ← fdt_nop_region prop (len + 12) fdt; Ret (0, fdt)
  end.
Fixpoint node_end_loop (n : nat) (fdt : list Z) (offset depth : Z) : run Z :=
  if (0 <=? offset) && (0 <=? depth) then
    match n with
    | O => NoFuel
    | S n => r ← fdt_next_node fdt offset (Some depth); node_end_loop n fdt r.1 (the_depth r.2)
    end
  else Ret offset.
Definition fdt_node_end_offset (fdt : list Z) (offset : Z) : run Z := node_end_loop fuel fdt offset 0.
Definition fdt_nop_node (fdt : list Z) (nodeoffset : Z) : run (Z * list Z) :=
  endoffset ← fdt_node_end_offset fdt nodeoffset;
  if endoffset <? 0 then Ret (endoffset, fdt) else
  p ← fdt_offset_ptr fdt nodeoffset 0;
  match p with
  | None => Undef
  | Some p => fdt ← fdt_nop_region p (endoffset - nodeoffset) fdt; Ret (0, fdt)
  end.
End Loops.

(** ** fdt_strerror.c *)

Definition fdt_errtable : list (Z * list Z) :=
  [(FDT_ERR_NOTFOUND, str "FDT_ERR_NOTFOUND"); (FDT_ERR_EXISTS, str "FDT_ERR_EXISTS"); (FDT_ERR_NOSPACE, str "FDT_ERR_NOSPACE");
   (FDT_ERR_BADOFFSET, str "FDT_ERR_BADOFFSET"); (FDT_ERR_BADPATH, str "FDT_ERR_BADPATH"); (FDT_ERR_BADSTATE, str "FDT_ERR_BADSTATE");
   (FDT_ERR_TRUNCATED, str "FDT_ERR_TRUNCATED"); (FDT_ERR_BADMAGIC, str "FDT_ERR_BADMAGIC"); (FDT_ERR_BADVERSION, str "FDT_ERR_BADVERSION");
   (FDT_ERR_BADSTRUCTURE, str "FDT_ERR_BADSTRUCTURE"); (FDT_ERR_BADLAYOUT, str "FDT_ERR_BADLAYOUT")].
Definition FDT_ERRTABSIZE : Z := 13.
(** The comparison is between unsigned numbers of 64 bits. *)
Definition fdt_strerror (errval : Z) : list Z :=
  if 0 <? errval then str "<valid offset/length>"
  else if errval =? 0 then str "<no error>"
  else if (- FDT_ERRTABSIZE) mod 2 ^ 64 <? errval mod 2 ^ 64 then
    match find (fun e => e.1 =? - errval) fdt_errtable with Some (_, s) => s | None => str "<unknown error>" end
  else str "<unknown error>".
Example strerror_values : map fdt_strerror [1; 0; -3; -6; -12; -13; -1000] =
  [str "<valid offset/length>"; str "<no error>"; str "FDT_ERR_NOSPACE"; str "<unknown error>"; str "FDT_ERR_BADLAYOUT"; str "<unknown error>"; str "<unknown error>"].
Proof. vm_compute. done. Qed.
