(* ===== verification/UbootCrc.v ===== *)
(** * CRC-32 of uboot_mkimage (contrib/uboot_mkimage/lib/crc32.c)

    zlib's routine in the form U-Boot uses: the buffer is read as aligned host words and
    the register is kept in the byte order of the host.  [big] says whether the host is
    big-endian, [align] where the buffer starts modulo four. *)

From S2P Require Import Prelude CLib Endian Crc32.

(** The byte-order macros of include/compiler.h. *)
Definition uswap_32 (x : Z) : Z :=
  Z.lor (Z.lor (Z.lor (Z.shiftr (Z.land x 0xff000000) 24) (Z.shiftr (Z.land x 0x00ff0000) 8))
               (u32 (Z.shiftl (Z.land x 0x0000ff00) 8)))
        (u32 (Z.shiftl (Z.land x 0x000000ff) 24)).
Definition cpu_to_le32 (big : bool) (x : Z) : Z := if big then uswap_32 x else x.
Definition le32_to_cpu (big : bool) (x : Z) : Z := if big then uswap_32 x else x.
Definition cpu_to_be32 (big : bool) (x : Z) : Z := if big then x else uswap_32 x.
Definition be32_to_cpu (big : bool) (x : Z) : Z := if big then x else uswap_32 x.

(** The numbers are those of the trx tools' table. *)
Definition crc_table (big : bool) : list Z := map (cpu_to_le32 big) crc_32_tab.
Definition DO_CRC (big : bool) (x crc : Z) : Z :=
  if big then Z.lxor (znth (crc_table true) (Z.land (Z.lxor (Z.shiftr crc 24) x) 255)) (u32 (Z.shiftl crc 8))
  else Z.lxor (znth (crc_table false) (Z.land (Z.lxor crc x) 255)) (Z.shiftr crc 8).

(** The bytes up to the next word boundary. *)
Fixpoint crc_align (big : bool) (p : Z) (buf : list Z) (crc : Z) : Z * list Z :=
  match buf with
  | [] => (crc, [])
  | b :: r =>
      let crc := DO_CRC big b crc in
      if Z.land (p + 1) 3 =? 0 then (crc, r) else crc_align big (p + 1) r crc
  end.
(** [len] words. *)
Fixpoint crc_words (big : bool) (len : nat) (buf : list Z) (crc : Z) : Z * list Z :=
  match len with
  | O => (crc, buf)
  | S len' =>
      let crc := Z.lxor crc (host_val big (ztake 4 buf)) in
      let crc := DO_CRC big 0 (DO_CRC big 0 (DO_CRC big 0 (DO_CRC big 0 crc))) in
      crc_words big len' (zdrop 4 buf) crc
  end.
Definition crc_tail (big : bool) (buf : list Z) (crc : Z) : Z := fold_left (fun crc b => DO_CRC big b crc) buf crc.

Definition crc32_no_comp (big : bool) (align crc : Z) (buf : list Z) : Z :=
  let crc := cpu_to_le32 big crc in
  let '(crc, buf) := if negb (Z.land align 3 =? 0) then crc_align big align buf crc else (crc, buf) in
  let len := zlen buf in
  let '(crc, buf) := crc_words big (Z.to_nat (Z.shiftr len 2)) buf crc in
  le32_to_cpu big (crc_tail big (ztake (Z.land len 3) buf) crc).
Definition crc32 (big : bool) (align crc : Z) (buf : list Z) : Z :=
  Z.lxor (crc32_no_comp big align (Z.lxor crc 0xffffffff) buf) 0xffffffff.

Example crc32_check : crc32 true 0 0 (str "123456789") = 0xcbf43926 /\ crc32 false 3 0 (str "123456789") = 0xcbf43926.
Proof. vm_compute. done. Qed.

Lemma uswap_32_bswap x : uswap_32 x = bswap32 x.
Proof.
  rewrite bswap32_bits. unfold uswap_32.
  change 0xff000000 with (Z.shiftl 255 24). change 0x00ff0000 with (Z.shiftl 255 16). change 0x0000ff00 with (Z.shiftl 255 8).
  change (Z.land x 255) with (Z.land x (Z.shiftl 255 0)). rewrite mask_shift, !mask_byte by lia.
  rewrite Z.pow_0_r, Z.div_1_r, Z.mul_1_r. change (2 ^ 8) with 256.
  pose proof (Z.mod_pos_bound (x / 2 ^ 16) 256 ltac:(lia)). pose proof (Z.mod_pos_bound (x / 256) 256 ltac:(lia)).
  replace (Z.shiftr (x / 2 ^ 16 mod 256 * 2 ^ 16) 8) with (u32 (Z.shiftl (x / 2 ^ 16 mod 256) 8)).
  2:{ rewrite Z.shiftl_mul_pow2, Z.shiftr_div_pow2, u32_small by lia. change (2 ^ 16) with (2 ^ 8 * 2 ^ 8). rewrite Z.mul_assoc, Z.div_mul by lia. done. }
  replace (u32 (Z.shiftl (x / 256 mod 256 * 256) 8)) with (u32 (Z.shiftl (x / 256 mod 256) 16)).
  2:{ rewrite !Z.shiftl_mul_pow2 by lia. f_equal. lia. }
  rewrite Z.lor_comm, <- !Z.lor_assoc. f_equal.
  by rewrite Z.lor_comm, (Z.lor_comm _ (u32 (Z.shiftl (x / 256 mod 256) 16))), <- Z.lor_assoc.
Qed.

(** ** Words and bytes under exclusive or *)

Lemma byte_cons_lxor b v : is_byte b -> b + 256 * v = Z.lxor b (Z.shiftl v 8).
Proof.
  intros Hb. unfold is_byte in Hb. rewrite <- Z.add_nocarry_lxor.
  - rewrite Z.shiftl_mul_pow2 by lia. change (2 ^ 8) with 256. lia.
  - apply Z.bits_inj'. intros n Hn. rewrite Z.land_spec, Z.bits_0. destruct (Z.lt_ge_cases n 8).
    + by rewrite Z.shiftl_spec_low, andb_false_r.
    + rewrite <- (Z.mod_small b (2 ^ 8)) by (change (2 ^ 8) with 256; lia). by rewrite Z.mod_pow2_bits_high.
Qed.
Lemma le_val_lxor a b : length a = length b -> Forall is_byte a -> Forall is_byte b ->
  le_val (zip_with Z.lxor a b) = Z.lxor (le_val a) (le_val b).
Proof.
  intros Hl Ha. revert b Hl. induction Ha as [|x a Hx Ha IH]; intros [|y b] Hl Hb; cbn in Hl; try lia; [done|].
  apply Forall_cons in Hb as [Hy Hb]. cbn [zip_with le_val]. rewrite IH by (done || lia).
  rewrite !byte_cons_lxor by (done || by apply lxor_byte). rewrite Z.shiftl_lxor, !Z.lxor_assoc. f_equal.
  rewrite <- !Z.lxor_assoc. f_equal. apply Z.lxor_comm.
Qed.
Lemma le_bytes_lxor n : forall x y, le_bytes n (Z.lxor x y) = zip_with Z.lxor (le_bytes n x) (le_bytes n y).
Proof.
  induction n as [|n IH]; intros x y; [done|].
  change (Z.lxor x y mod 256 :: le_bytes n (Z.lxor x y / 256) =
    Z.lxor (x mod 256) (y mod 256) :: zip_with Z.lxor (le_bytes n (x / 256)) (le_bytes n (y / 256))). f_equal.
  - rewrite <- !land_255. apply land_lxor.
  - rewrite <- IH. f_equal. change 256 with (2 ^ 8). rewrite <- !Z.shiftr_div_pow2 by lia. apply Z.shiftr_lxor.
Qed.
Lemma bswap32_lxor x y : bswap32 (Z.lxor x y) = Z.lxor (bswap32 x) (bswap32 y).
Proof.
  unfold bswap32, be_val. rewrite le_bytes_lxor, <- le_val_lxor; [|..].
  - cbv [le_bytes]. reflexivity.
  - by rewrite !length_rev, !length_le_bytes.
  - apply Forall_rev, le_bytes_is_byte.
  - apply Forall_rev, le_bytes_is_byte.
Qed.

(** ** One step on either host *)

Lemma crc_tab_range i : 0 <= i < 256 -> 0 <= znth crc_32_tab i < 2 ^ 32.
Proof. intros Hi. rewrite crc_32_tab_spec by done. apply crc_shifts_range. lia. Qed.
Lemma znth_crc_table big i : 0 <= i < 256 -> znth (crc_table big) i = cpu_to_le32 big (znth crc_32_tab i).
Proof.
  intros Hi. unfold znth, crc_table. rewrite (nth_indep _ 0 (cpu_to_le32 big 0)); [apply map_nth|].
  rewrite length_map. change (length crc_32_tab) with 256%nat. lia.
Qed.
Lemma DO_CRC_little x c : is_byte x -> DO_CRC false x c = crc_byte c x.
Proof.
  intros Hx. unfold DO_CRC, crc_byte. assert (Hi : 0 <= Z.land (Z.lxor c x) 255 < 256) by (rewrite land_255; apply Z.mod_pos_bound; lia).
  rewrite znth_crc_table by done. cbn [cpu_to_le32]. rewrite crc_32_tab_spec by done.
  rewrite (split_low8 (Z.lxor c x)) at 2. rewrite crc_shifts_lxor, (crc_shifts_high 8), Z.shiftr_lxor. f_equal.
  unfold is_byte in Hx. rewrite (Z.shiftr_div_pow2 x), (Z.div_small x) by (change (2 ^ 8) with 256; lia). by rewrite Z.lxor_0_r.
Qed.
Lemma bswap32_top c : 0 <= c < 2 ^ 32 -> Z.shiftr (bswap32 c) 24 = c mod 256.
Proof.
  intros Hc. rewrite Z.shiftr_div_pow2 by lia. unfold bswap32, be_val. cbv [le_bytes rev app le_val].
  symmetry. apply Z.div_unique with (c / 256 / 256 / 256 mod 256 + 256 * (c / 256 / 256 mod 256 + 256 * (c / 256 mod 256))).
  - left. dlia.
  - lia.
Qed.
Lemma bswap32_shift c : 0 <= c < 2 ^ 32 -> u32 (Z.shiftl (bswap32 c) 8) = bswap32 (Z.shiftr c 8).
Proof.
  intros Hc. rewrite Z.shiftl_mul_pow2, Z.shiftr_div_pow2 by lia. unfold bswap32, be_val, u32. cbv [le_bytes rev app le_val].
  change (2 ^ 8) with 256.   assert (H0 : c / 256 / 256 / 256 / 256 = 0) by (rewrite !Z.div_div by lia; apply Z.div_small; lia). rewrite H0, (Z.mod_small 0) by lia.
  pose proof (Z.mod_pos_bound c 256 ltac:(lia)). pose proof (Z.mod_pos_bound (c / 256) 256 ltac:(lia)).
  pose proof (Z.mod_pos_bound (c / 256 / 256) 256 ltac:(lia)). pose proof (Z.mod_pos_bound (c / 256 / 256 / 256) 256 ltac:(lia)).
  symmetry. apply (Z.mod_unique _ _ (c mod 256)); [left|]; lia.
Qed.
Lemma DO_CRC_big x c : is_byte x -> 0 <= c < 2 ^ 32 -> DO_CRC true x (bswap32 c) = bswap32 (crc_byte c x).
Proof.
  intros Hx Hc. rewrite <- DO_CRC_little by done. unfold DO_CRC. rewrite bswap32_lxor, bswap32_shift, bswap32_top by done. f_equal.
  assert (Hi : Z.land (Z.lxor (c mod 256) x) 255 = Z.land (Z.lxor c x) 255).
  { rewrite !land_lxor. f_equal. rewrite !land_255. by rewrite Z.mod_mod. }
  assert (H255 : 0 <= Z.land (Z.lxor c x) 255 < 256) by (rewrite land_255; apply Z.mod_pos_bound; lia).
  rewrite Hi, !znth_crc_table by done. cbn [cpu_to_le32]. by rewrite uswap_32_bswap.
Qed.
(** The register of the host stands for the register of the definition. *)
Definition reg (big : bool) (c : Z) : Z := if big then bswap32 c else c.
Lemma cpu_to_le32_reg big c : cpu_to_le32 big c = reg big c.
Proof. destruct big; [apply uswap_32_bswap|done]. Qed.
Lemma DO_CRC_reg big x c : is_byte x -> 0 <= c < 2 ^ 32 -> DO_CRC big x (reg big c) = reg big (crc_byte c x).
Proof. destruct big; [apply DO_CRC_big|]. intros Hx _. by apply DO_CRC_little. Qed.

(** ** The loops *)

Lemma crc_byte_word c b v : is_byte b -> crc_byte (Z.lxor c (b + 256 * v)) 0 = Z.lxor (crc_byte c b) v.
Proof.
  intros Hb. unfold crc_byte. rewrite Z.lxor_0_r, byte_cons_lxor, <- Z.lxor_assoc, crc_shifts_lxor by done. f_equal.
  rewrite Z.shiftl_mul_pow2 by lia. apply (crc_shifts_high 8).
Qed.
Lemma crc_word l : Forall is_byte l -> forall c,
  Nat.iter (length l) (fun x => crc_byte x 0) (Z.lxor c (le_val l)) = fold_left crc_byte l c.
Proof.
  induction 1 as [|b l Hb _ IH]; intros c; [cbn; apply Z.lxor_0_r|].
  cbn [length]. rewrite Nat.iter_succ_r. cbn [le_val]. rewrite crc_byte_word by done. rewrite fold_left_cons. apply IH.
Qed.
Lemma host_val_reg big l : length l = 4%nat -> Forall is_byte l -> host_val big l = reg big (le_val l).
Proof.
  intros Hl Hb. destruct big; [|done]. cbn [host_val reg]. unfold bswap32.
  pose proof (le_bytes_val l Hb) as H. rewrite Hl in H. by rewrite H.
Qed.
Lemma reg_lxor big x y : Z.lxor (reg big x) (reg big y) = reg big (Z.lxor x y).
Proof. destruct big; [|done]. cbn [reg]. by rewrite bswap32_lxor. Qed.
Lemma crc_word_reg big l c : length l = 4%nat -> Forall is_byte l -> 0 <= c < 2 ^ 32 ->
  DO_CRC big 0 (DO_CRC big 0 (DO_CRC big 0 (DO_CRC big 0 (Z.lxor (reg big c) (host_val big l))))) = reg big (fold_left crc_byte l c).
Proof.
  intros Hl Hb Hc. rewrite host_val_reg, reg_lxor by done.
  assert (H0 : is_byte 0) by (unfold is_byte; lia).
  assert (Hr : 0 <= Z.lxor c (le_val l) < 2 ^ 32).
  { apply lxor_u32; [done|]. pose proof (le_val_range l Hb) as H. unfold zlen in H. by rewrite Hl in H. }
  rewrite <- crc_word, Hl by done. rewrite !Nat.iter_succ. change (Nat.iter 0 ?f ?x) with x.
  rewrite !DO_CRC_reg by (done || by repeat apply crc_byte_range). done.
Qed.

Lemma crc_tail_reg big l : Forall is_byte l -> forall c, 0 <= c < 2 ^ 32 -> crc_tail big l (reg big c) = reg big (fold_left crc_byte l c).
Proof.
  unfold crc_tail. induction 1 as [|b l Hb _ IH]; intros c Hc; [done|].
  rewrite !fold_left_cons, DO_CRC_reg by done. by apply IH, crc_byte_range.
Qed.
Lemma crc_align_reg big l : Forall is_byte l -> forall p c, 0 <= c < 2 ^ 32 ->
  exists l1 l2, l = l1 ++ l2 /\ crc_align big p l (reg big c) = (reg big (fold_left crc_byte l1 c), l2).
Proof.
  induction 1 as [|b l Hb _ IH]; intros p c Hc; [by exists [], []|]. cbn [crc_align]. rewrite DO_CRC_reg by done.
  destruct (Z.land (p + 1) 3 =? 0); [by exists [b], l|].
  destruct (IH (p + 1) (crc_byte c b) ltac:(by apply crc_byte_range)) as (l1 & l2 & -> & ->). by exists (b :: l1), l2.
Qed.
Lemma crc_words_reg big n : forall l c, Forall is_byte l -> 4 * Z.of_nat n <= zlen l -> 0 <= c < 2 ^ 32 ->
  crc_words big n l (reg big c) = (reg big (fold_left crc_byte (ztake (4 * Z.of_nat n) l) c), zdrop (4 * Z.of_nat n) l).
Proof.
  induction n as [|n IH]; intros l c Hb Hl Hc; [done|]. cbn [crc_words].
  assert (H4 : length (ztake 4 l) = 4%nat) by (unfold ztake, zlen in *; rewrite length_take; lia).
  assert (Hb4 : Forall is_byte (ztake 4 l)) by (by apply Forall_take).
  rewrite crc_word_reg by done.
  rewrite IH; [|by apply Forall_drop|rewrite zlen_drop; lia|by apply crc_fold_range].
  f_equal.
  - f_equal. rewrite <- fold_left_app. f_equal. unfold ztake, zdrop. replace (Z.to_nat (4 * Z.of_nat (S n))) with (4 + Z.to_nat (4 * Z.of_nat n))%nat by lia.
    change (Z.to_nat 4) with 4%nat. apply take_take_drop.
  - unfold zdrop. rewrite drop_drop. f_equal. lia.
Qed.

Lemma crc32_fold big align crc buf : Forall is_byte buf -> 0 <= crc < 2 ^ 32 ->
  crc32 big align crc buf = Z.lxor (fold_left crc_byte buf (Z.lxor crc 0xffffffff)) 0xffffffff.
Proof.
  intros Hb Hcrc. assert (Hc : 0 <= Z.lxor crc 0xffffffff < 2 ^ 32) by (apply lxor_u32; lia).
  unfold crc32. f_equal. set (c := Z.lxor crc 0xffffffff) in *. unfold crc32_no_comp. rewrite cpu_to_le32_reg.
  assert (Ha : exists l1 l2, buf = l1 ++ l2 /\
    (if negb (Z.land align 3 =? 0) then crc_align big align buf (reg big c) else (reg big c, buf)) = (reg big (fold_left crc_byte l1 c), l2)).
  { destruct (negb _); [by apply crc_align_reg|by exists [], buf]. }
  destruct Ha as (l1 & l2 & -> & ->). apply Forall_app in Hb as [Hb1 Hb2].
  assert (Hlen : zlen l2 = 4 * Z.shiftr (zlen l2) 2 + Z.land (zlen l2) 3).
  { change 3 with (Z.ones 2). rewrite Z.shiftr_div_pow2, Z.land_ones by lia. apply Z.div_mod. lia. }
  pose proof (zlen_nonneg l2). assert (Hn : 0 <= Z.shiftr (zlen l2) 2) by (by apply Z.shiftr_nonneg).
  assert (Hr : 0 <= Z.land (zlen l2) 3) by (apply Z.land_nonneg; lia).
  rewrite crc_words_reg by (done || (by apply crc_fold_range) || lia). rewrite Z2Nat.id by done.
  rewrite (ztake_all (Z.land (zlen l2) 3)) by (rewrite zlen_drop; lia).
  rewrite crc_tail_reg; [|by apply Forall_drop|apply crc_fold_range; [by apply Forall_take|by apply crc_fold_range]].
  rewrite <- !fold_left_app. rewrite ztake_drop. destruct big; [|done]. change (le32_to_cpu true) with uswap_32. rewrite uswap_32_bswap. cbn [reg].
  assert (Hf : 0 <= fold_left crc_byte (l1 ++ l2) c < 2 ^ 32) by (apply crc_fold_range; [by apply Forall_app|done]).
  change (bswap32 (bswap32 (fold_left crc_byte (l1 ++ l2) c)) = fold_left crc_byte (l1 ++ l2) c). by apply bswap32_involutive.
Qed.
Lemma crc32_range big align crc buf : Forall is_byte buf -> 0 <= crc < 2 ^ 32 -> 0 <= crc32 big align crc buf < 2 ^ 32.
Proof.
  intros Hb Hc. rewrite crc32_fold by done. apply lxor_u32; [|lia]. apply crc_fold_range; [done|]. apply lxor_u32; lia.
Qed.
(** Neither the host nor the alignment matters. *)
Lemma crc32_host big big' align align' buf : Forall is_byte buf -> crc32 big align 0 buf = crc32 big' align' 0 buf.
Proof. intros Hb. by rewrite !crc32_fold by (done || lia). Qed.

(** ** Properties *)

(** On hosts of either byte order and for buffers that start and end anywhere, the
    word-wise [crc32] is the bit-at-a-time CRC: the register starts from all ones and
    leaves complemented, and a call may continue from the result of another. *)
Theorem uboot_crc32_reference big align crc buf : Forall is_byte buf -> 0 <= crc < 2 ^ 32 ->
  crc32 big align crc buf = Z.lxor (fold_left crc_byte buf (Z.lxor crc 0xffffffff)) 0xffffffff.
Proof. apply crc32_fold. Qed.
Lemma uboot_crc32_reference_witness :
  crc32 true 3 0 [0x31; 0xff; 0x80; 0; 7; 9; 1; 2] =
  Z.lxor (fold_left crc_byte [0x31; 0xff; 0x80; 0; 7; 9; 1; 2] (Z.lxor 0 0xffffffff)) 0xffffffff.
Proof. apply uboot_crc32_reference; [repeat constructor; unfold is_byte; lia | lia]. Defined.

