(* ===== verification/UImage.v ===== *)
(** * U-Boot's legacy image format (contrib/uboot_mkimage)

    The header of include/image.h with the functions of tools/default_image.c that
    build and verify it, and those of common/image.c that take an image apart.  Offsets
    are from the start of the mapped file; [big] is the byte order of the host.  What
    [image_print_contents] prints is a record of the values, not the formatted text. *)

From S2P Require Import Prelude CLib Fdt Endian UbootCrc.

(** ** The codes *)

Definition IH_OS_LINUX : Z := 5.
Definition IH_ARCH_PPC : Z := 7.
Definition IH_TYPE_INVALID : Z := 0.
Definition IH_TYPE_KERNEL : Z := 2.
Definition IH_TYPE_MULTI : Z := 4.
Definition IH_TYPE_SCRIPT : Z := 6.
Definition IH_TYPE_FLATDT : Z := 8.
Definition IH_TYPE_KWBIMAGE : Z := 9.
Definition IH_TYPE_IMXIMAGE : Z := 10.
Definition IH_COMP_GZIP : Z := 1.
Definition IH_MAGIC : Z := 0x27051956.
Definition IH_NMLEN : Z := 32.
Definition IH_FOXCONPAD : Z := 32.

Record table_entry := TE { te_id : Z; te_sname : option (list Z); te_lname : list Z }.
Definition te (id : Z) (sname lname : string) : table_entry := TE id (Some (str sname)) (str lname).
Definition uimage_arch : list table_entry :=
  [TE 0 None (str "Invalid ARCH"); te 1 "alpha" "Alpha"; te 2 "arm" "ARM"; te 3 "x86" "Intel x86"; te 4 "ia64" "IA64";
   te 12 "m68k" "M68K"; te 14 "microblaze" "MicroBlaze"; te 5 "mips" "MIPS"; te 6 "mips64" "MIPS 64 Bit";
   te 15 "nios2" "NIOS II"; te 7 "powerpc" "PowerPC"; te 7 "ppc" "PowerPC"; te 8 "s390" "IBM S390"; te 9 "sh" "SuperH";
   te 10 "sparc" "SPARC"; te 11 "sparc64" "SPARC 64 Bit"; te 16 "blackfin" "Blackfin"; te 17 "avr32" "AVR32"; TE (-1) (Some []) []].
Definition uimage_os : list table_entry :=
  [TE 0 None (str "Invalid OS"); te 5 "linux" "Linux"; te 13 "lynxos" "LynxOS"; te 2 "netbsd" "NetBSD"; te 22 "ose" "Enea OSE";
   te 18 "rtems" "RTEMS"; te 17 "u-boot" "U-Boot"; te 16 "qnx" "QNX"; te 14 "vxworks" "VxWorks"; te 21 "integrity" "INTEGRITY";
   te 4 "4_4bsd" "4_4BSD"; te 11 "dell" "Dell"; te 7 "esix" "Esix"; te 3 "freebsd" "FreeBSD"; te 9 "irix" "Irix"; te 12 "ncr" "NCR";
   te 1 "openbsd" "OpenBSD"; te 15 "psos" "pSOS"; te 10 "sco" "SCO"; te 8 "solaris" "Solaris"; te 6 "svr4" "SVR4"; TE (-1) (Some []) []].
Definition uimage_type : list table_entry :=
  [TE 0 None (str "Invalid Image"); te 7 "filesystem" "Filesystem Image"; te 5 "firmware" "Firmware"; te 2 "kernel" "Kernel Image";
   te 4 "multi" "Multi-File Image"; te 3 "ramdisk" "RAMDisk Image"; te 6 "script" "Script"; te 1 "standalone" "Standalone Program";
   te 8 "flat_dt" "Flat Device Tree"; te 9 "kwbimage" "Kirkwood Boot Image"; te 10 "imximage" "Freescale i.MX Boot Image"; TE (-1) (Some []) []].
Definition uimage_comp : list table_entry :=
  [te 0 "none" "uncompressed"; te 2 "bzip2" "bzip2 compressed"; te 1 "gzip" "gzip compressed"; te 3 "lzma" "lzma compressed";
   te 4 "lzo" "lzo compressed"; TE (-1) (Some []) []].

(** The end of a table is marked by a negative number. *)
Fixpoint get_table_entry_name (table : list table_entry) (msg : list Z) (id : Z) : outcome (list Z) :=
  match table with
  | [] => UB
  | t :: r => if te_id t <? 0 then Ok msg else if te_id t =? id then Ok (te_lname t) else get_table_entry_name r msg id
  end.
Fixpoint get_table_entry_id (table : list table_entry) (name : list Z) : outcome Z :=
  match table with
  | [] => UB
  | t :: r =>
      if te_id t <? 0 then Ok (-1)
      else if match te_sname t with Some s => strcaseeq s name | None => false end then Ok (te_id t)
      else get_table_entry_id r name
  end.
Definition genimg_get_os_id : list Z -> outcome Z := get_table_entry_id uimage_os.
Definition genimg_get_arch_id : list Z -> outcome Z := get_table_entry_id uimage_arch.
Definition genimg_get_type_id : list Z -> outcome Z := get_table_entry_id uimage_type.
Definition genimg_get_comp_id : list Z -> outcome Z := get_table_entry_id uimage_comp.
Definition genimg_get_os_name : Z -> outcome (list Z) := get_table_entry_name uimage_os (str "Unknown OS").
Definition genimg_get_arch_name : Z -> outcome (list Z) := get_table_entry_name uimage_arch (str "Unknown Architecture").
Definition genimg_get_type_name : Z -> outcome (list Z) := get_table_entry_name uimage_type (str "Unknown Image").
Definition genimg_get_comp_name : Z -> outcome (list Z) := get_table_entry_name uimage_comp (str "Unknown Compression").

(** ** The header: [image_header_t] *)

Definition sizeof_image_header : Z := 96.
Definition ih_magic : Z := 0.
Definition ih_hcrc : Z := 4.
Definition ih_time : Z := 8.
Definition ih_size : Z := 12.
Definition ih_load : Z := 16.
Definition ih_ep : Z := 20.
Definition ih_dcrc : Z := 24.
Definition ih_os : Z := 28.
Definition ih_arch : Z := 29.
Definition ih_type : Z := 30.
Definition ih_comp : Z := 31.
Definition ih_name : Z := 32.

(** What the command line asks for ([struct mkimage_params]). *)
Record mkimage_params := mkParams {
  dflag : bool; eflag : bool; fflag : bool; lflag : bool; vflag : Z; xflag : Z;
  p_os : Z; p_arch : Z; p_type : Z; p_comp : Z;
  p_addr : Z; p_ep : Z;
  imagename : list Z; datafile : option (list Z); imagefile : list Z;
}.

Section Host.
Context (big : bool).

Definition image_get_l (f : Z) (hdr : list Z) : outcome Z := w ← bread f 4 hdr; Ok (be32_to_cpu big (host_val big w)).
Definition image_set_l (f : Z) (hdr : list Z) (val : Z) : outcome (list Z) :=
  bwrite f (host_bytes big 4 (cpu_to_be32 big (u32 val))) hdr.
Definition image_get_b (f : Z) (hdr : list Z) : outcome Z := w ← bread f 1 hdr; Ok (znth w 0).
Definition image_set_b (f : Z) (hdr : list Z) (val : Z) : outcome (list Z) := bwrite f [u8 val] hdr.
Definition image_set_name (hdr name : list Z) : outcome (list Z) := bwrite ih_name (strncpy_field IH_NMLEN name) hdr.

(** ** default_image.c *)

Definition IM_HEADERSIZE (foxconpad : bool) : Z := sizeof_image_header - (if foxconpad then 0 else IH_FOXCONPAD).
Definition image_check_image_types (type : Z) : Z := if (IH_TYPE_INVALID <? type) && (type <? IH_TYPE_FLATDT) then 0 else 1.
(** The flags that exclude each other, of which every format's [check_params] consists. *)
Definition image_check_params (p : mkimage_params) : bool :=
  (dflag p && (fflag p || lflag p)) || (fflag p && (dflag p || lflag p)) || (lflag p && (dflag p || fflag p)).

Definition image_verify_header (foxconpad : bool) (ptr : list Z) (image_size : Z) : outcome Z :=
  let n := IM_HEADERSIZE foxconpad in
  hdr ← bread 0 n ptr;
  magic ← image_get_l ih_magic hdr;
  if negb (magic =? IH_MAGIC) then Ok (- FDT_ERR_BADMAGIC) else
  checksum ← image_get_l ih_hcrc hdr;
  hdr ← image_set_l ih_hcrc hdr 0;
  if negb (crc32 big 0 0 hdr =? checksum) then Ok (- FDT_ERR_BADSTATE) else
  data ← bread n (u32 (image_size - n)) ptr;
  checksum ← image_get_l ih_dcrc hdr;
  if negb (crc32 big 0 0 data =? checksum) then Ok (- FDT_ERR_BADSTRUCTURE) else Ok 0.

Definition image_set_header (foxconpad : bool) (ptr : list Z) (st_size st_mtime : Z) (p : mkimage_params) : outcome (list Z) :=
  let n := IM_HEADERSIZE foxconpad in
  data ← bread n (u32 (st_size - n)) ptr;
  let checksum := crc32 big 0 0 data in
  hdr ← image_set_l ih_magic ptr IH_MAGIC;
  hdr ← image_set_l ih_time hdr st_mtime;
  hdr ← image_set_l ih_size hdr (st_size - n);
  hdr ← image_set_l ih_load hdr (p_addr p);
  hdr ← image_set_l ih_ep hdr (p_ep p);
  hdr ← image_set_l ih_dcrc hdr checksum;
  hdr ← image_set_b ih_os hdr (p_os p);
  hdr ← image_set_b ih_arch hdr (p_arch p);
  hdr ← image_set_b ih_type hdr (p_type p);
  hdr ← image_set_b ih_comp hdr (p_comp p);
  hdr ← image_set_name hdr (imagename p);
  covered ← bread 0 n hdr;
  image_set_l ih_hcrc hdr (crc32 big 0 0 covered).

(** ** common/image.c *)

Definition image_get_data : Z := sizeof_image_header.
(** Entry [i] of the table of sizes, as stored. *)
Definition size_at (hdr : list Z) (i : Z) : outcome Z := w ← bread (image_get_data + 4 * i) 4 hdr; Ok (host_val big w).
(** The table is read as far as the mapping goes: that much fuel is enough. *)
Fixpoint count_sizes (fuel : nat) (hdr : list Z) (i : Z) : outcome Z :=
  match fuel with
  | O => UB
  | S fuel' => w ← size_at hdr i; if w =? 0 then Ok i else count_sizes fuel' hdr (i + 1)
  end.
Definition image_multi_count (hdr : list Z) : outcome Z := count_sizes (S (length hdr)) hdr 0.
Definition round4 (size : Z) : Z := Z.land (u32 (size + 3)) 0xfffffffc.
Fixpoint sizes_before (n : nat) (hdr : list Z) (i : Z) : outcome Z :=
  match n with
  | O => Ok 0
  | S n' => w ← size_at hdr i; r ← sizes_before n' hdr (i + 1); Ok (round4 (be32_to_cpu big w) + r)
  end.
(** The offset of the data (0 for none), and its length. *)
Definition image_multi_getimg (hdr : list Z) (idx : Z) : outcome (Z * Z) :=
  count ← image_multi_count hdr;
  let img_data := image_get_data + (count + 1) * 4 in
  if idx <? count then
    w ← size_at hdr idx;
    offset ← sizes_before (Z.to_nat idx) hdr 0;
    Ok (img_data + offset, be32_to_cpu big w)
  else Ok (0, 0).

(** What is printed about an image. *)
Record uimage_report := mkUReport {
  r_name : list Z; r_time : Z;
  r_arch : list Z; r_os : list Z; r_type : list Z; r_comp : list Z;
  r_size : Z; r_load : Z; r_ep : Z;
  r_contents : list Z;
}.
Fixpoint print_images (n : nat) (hdr : list Z) (i : Z) : outcome (list Z) :=
  match n with
  | O => Ok []
  | S n' => x ← image_multi_getimg hdr i; r ← print_images n' hdr (i + 1); Ok (snd x :: r)
  end.
Definition image_print_contents (hdr : list Z) : outcome uimage_report :=
  name ← bread ih_name IH_NMLEN hdr;
  time ← image_get_l ih_time hdr;
  os ← image_get_b ih_os hdr; arch ← image_get_b ih_arch hdr; type ← image_get_b ih_type hdr; comp ← image_get_b ih_comp hdr;
  size ← image_get_l ih_size hdr; load ← image_get_l ih_load hdr; ep ← image_get_l ih_ep hdr;
  os ← genimg_get_os_name os; arch ← genimg_get_arch_name arch; type_name ← genimg_get_type_name type; comp ← genimg_get_comp_name comp;
  contents ← (if (type =? IH_TYPE_MULTI) || (type =? IH_TYPE_SCRIPT) then
                count ← image_multi_count hdr; print_images (Z.to_nat count) hdr 0
              else Ok []);
  Ok (mkUReport (cstr name) time arch os type_name comp size load ep contents).
End Host.
