(* ===== verification/UImageSpec.v ===== *)
(** * What U-Boot images contain

    The header of a legacy image as a list of fields; what [image_set_header] leaves, what
    [image_verify_header] and [image_print_contents] make of it, and the components of a
    multi-file image. *)

From S2P Require Import Prelude CLib Endian Crc32 UbootCrc UImage.

(** ** Tables *)

(** A search ends in a table with an end mark. *)
Definition ends (table : list table_entry) : bool := existsb (fun t => te_id t <? 0) table.
Lemma table_name_found table msg id : ends table = true -> exists name, get_table_entry_name table msg id = Ok name.
Proof.
  unfold ends. induction table as [|t r IH]; [done|]. cbn [existsb get_table_entry_name]. destruct (te_id t <? 0); [by eexists|]. intros H.
  destruct (te_id t =? id); [by eexists|by apply IH].
Qed.
Lemma table_id_found table name : ends table = true -> exists id, get_table_entry_id table name = Ok id.
Proof.
  unfold ends. induction table as [|t r IH]; [done|]. cbn [existsb get_table_entry_id]. destruct (te_id t <? 0); [by eexists|]. intros H.
  destruct (match te_sname t with Some s => _ | None => _ end); [by eexists|by apply IH].
Qed.

(** ** Words in the header *)

Lemma le_bytes_u32 v : le_bytes 4 (u32 v) = le_bytes 4 v.
Proof.
  rewrite <- le_val_bytes32. pose proof (le_bytes_val (le_bytes 4 v) (le_bytes_is_byte 4 v)) as H.
  by rewrite length_le_bytes in H.
Qed.
Lemma be_bytes_u32 v : be_bytes 4 (u32 v) = be_bytes 4 v.
Proof. unfold be_bytes. by rewrite le_bytes_u32. Qed.
Lemma be_val_bytes32 v : be_val (be_bytes 4 v) = u32 v.
Proof. unfold be_val, be_bytes. by rewrite rev_involutive, le_val_bytes32. Qed.
Lemma be_bytes_byte n v : Forall is_byte (be_bytes n v).
Proof. apply Forall_rev, le_bytes_is_byte. Qed.
Lemma set_bytes big v : host_bytes big 4 (cpu_to_be32 big (u32 v)) = be_bytes 4 v.
Proof.
  replace (cpu_to_be32 big (u32 v)) with (htonl big (u32 v)) by (destruct big; [done|]; symmetry; apply uswap_32_bswap).
  rewrite htonl_bytes by apply u32_range. apply be_bytes_u32.
Qed.
Lemma get_bytes big v : be32_to_cpu big (host_val big (be_bytes 4 v)) = u32 v.
Proof.
  destruct big; cbn [be32_to_cpu host_val]; [apply be_val_bytes32|]. rewrite uswap_32_bswap. unfold bswap32.
  pose proof (le_bytes_val (be_bytes 4 v) (be_bytes_byte 4 v)) as H. unfold be_bytes in H at 1. rewrite length_rev, length_le_bytes in H.
  rewrite H. apply be_val_bytes32.
Qed.
(** The word at a place is the same on every host. *)
Lemma be32_host big big' w : length w = 4%nat -> Forall is_byte w -> be32_to_cpu big (host_val big w) = be32_to_cpu big' (host_val big' w).
Proof.
  intros Hl Hb. assert (Hw : w = be_bytes 4 (be_val w)).
  { symmetry. rewrite <- Hl. unfold be_bytes, be_val. rewrite <- (length_rev w), le_bytes_val by (by apply Forall_rev). apply rev_involutive. }
  rewrite Hw. by rewrite !get_bytes.
Qed.

(** ** The fields *)

Definition pad_size (foxconpad : bool) : Z := if foxconpad then IH_FOXCONPAD else 0.
Definition uimage_fields (foxconpad : bool) (hcrc dcrc mtime : Z) (p : mkimage_params) (data : list Z) : list (list Z) :=
  [be_bytes 4 IH_MAGIC; be_bytes 4 hcrc; be_bytes 4 mtime; be_bytes 4 (zlen data); be_bytes 4 (p_addr p); be_bytes 4 (p_ep p);
   be_bytes 4 dcrc; [u8 (p_os p)]; [u8 (p_arch p)]; [u8 (p_type p)]; [u8 (p_comp p)]; strncpy_field IH_NMLEN (imagename p);
   zrep (pad_size foxconpad) 0; data].
Definition uimage_sizes (foxconpad : bool) (data : list Z) : list Z := [4; 4; 4; 4; 4; 4; 4; 1; 1; 1; 1; 32; pad_size foxconpad; zlen data].
Definition header_fields (foxconpad : bool) (hcrc dcrc mtime : Z) (p : mkimage_params) (data : list Z) : list (list Z) :=
  take 13 (uimage_fields foxconpad hcrc dcrc mtime p data).
Lemma pad_size_nonneg fox : 0 <= pad_size fox.
Proof. by destruct fox. Qed.
Lemma header_total fox : IM_HEADERSIZE fox = 64 + pad_size fox.
Proof. by destruct fox. Qed.
Lemma fields_sizes fox hcrc dcrc mtime p data : map zlen (uimage_fields fox hcrc dcrc mtime p data) = uimage_sizes fox data.
Proof.
  unfold uimage_fields, uimage_sizes. cbn [map]. rewrite zlen_strncpy_field by done. rewrite zlen_rep. pose proof (pad_size_nonneg fox).
  rewrite Z.max_r by done. done.
Qed.
Definition data_crc (data : list Z) : Z := Z.lxor (fold_left crc_byte data 0xffffffff) 0xffffffff.
Definition header_crc (foxconpad : bool) (mtime : Z) (p : mkimage_params) (data : list Z) : Z :=
  data_crc (concat (header_fields foxconpad 0 (data_crc data) mtime p data)).
(** The image of [data]. *)
Definition uimage (foxconpad : bool) (mtime : Z) (p : mkimage_params) (data : list Z) : list (list Z) :=
  uimage_fields foxconpad (header_crc foxconpad mtime p data) (data_crc data) mtime p data.

Lemma crc32_data big align data : Forall is_byte data -> crc32 big align 0 data = data_crc data.
Proof. intros H. rewrite crc32_fold by (done || lia). done. Qed.

Section Set_.
Context (big : bool).
Lemma set_l_field i fs ns o v : map zlen fs = ns -> ns !! i = Some 4 -> o = total (take i ns) ->
  image_set_l big o (concat fs) v = Ok (concat (<[i := be_bytes 4 v]> fs)) /\ map zlen (<[i := be_bytes 4 v]> fs) = ns.
Proof. intros Hs Hi Ho. unfold image_set_l. rewrite set_bytes. apply bwrite_field; [done| |done]. by rewrite zlen_be_bytes. Qed.
Lemma set_b_field i fs ns o v : map zlen fs = ns -> ns !! i = Some 1 -> o = total (take i ns) ->
  image_set_b o (concat fs) v = Ok (concat (<[i := [u8 v]]> fs)) /\ map zlen (<[i := [u8 v]]> fs) = ns.
Proof. intros Hs Hi Ho. unfold image_set_b. by apply bwrite_field. Qed.
Lemma get_l_field i fs ns o v : map zlen fs = ns -> fs !! i = Some (be_bytes 4 v) -> o = total (take i ns) ->
  image_get_l big o (concat fs) = Ok (u32 v).
Proof.
  intros Hs Hi Ho. unfold image_get_l. rewrite (bread_field i fs ns (be_bytes 4 v)) by (done || by rewrite zlen_be_bytes). bsimpl.
  by rewrite get_bytes.
Qed.
Lemma get_b_field i fs ns o b : map zlen fs = ns -> fs !! i = Some [b] -> o = total (take i ns) -> image_get_b o (concat fs) = Ok b.
Proof. intros Hs Hi Ho. unfold image_get_b. by rewrite (bread_field i fs ns [b]). Qed.
End Set_.

(** ** Building *)

Lemma be_fields_byte fox hcrc dcrc mtime p data : Forall is_byte (imagename p) ->
  Forall is_byte (concat (header_fields fox hcrc dcrc mtime p data)).
Proof.
  intros Hn. unfold header_fields, uimage_fields. cbn [take concat]. unfold strncpy_field.
  assert (Hz : forall n, Forall is_byte (zrep n 0)) by (intros; by apply Forall_replicate).
  assert (H8 : forall v, Forall is_byte [u8 v]) by (intros; constructor; [apply Z.mod_pos_bound; lia|done]).
  repeat first [apply Forall_app; split | apply be_bytes_byte | apply H8 | apply Hz | by apply Forall_take | by constructor].
Qed.
Lemma dummy_fields fox data :
  zrep (IM_HEADERSIZE fox) 0 ++ data =
  concat [zrep 4 0; zrep 4 0; zrep 4 0; zrep 4 0; zrep 4 0; zrep 4 0; zrep 4 0; [0]; [0]; [0]; [0]; zrep 32 0; zrep (pad_size fox) 0; data].
Proof. destruct fox; cbn [concat]; by rewrite app_nil_r. Qed.

(** The next store is the one to field [i]. *)
Ltac set_field Hs i :=
  let H := fresh in let Hs' := fresh in
  lazymatch goal with
  | |- context [image_set_l ?big ?o (concat ?fs) ?v] => destruct (set_l_field big i fs _ o v Hs eq_refl eq_refl) as [H Hs']
  | |- context [image_set_b ?o (concat ?fs) ?v] => destruct (set_b_field i fs _ o v Hs eq_refl eq_refl) as [H Hs']
  end;
  rewrite H; bsimpl; cbn [insert list_insert] in Hs' |- *; clear H Hs; rename Hs' into Hs.
Lemma image_set_header_ok big fox mtime p data : Forall is_byte data -> Forall is_byte (imagename p) -> zlen data < 2 ^ 32 ->
  image_set_header big fox (zrep (IM_HEADERSIZE fox) 0 ++ data) (IM_HEADERSIZE fox + zlen data) mtime p =
  Ok (concat (uimage fox mtime p data)).
Proof.
  intros Hb Hn Hl. pose proof (zlen_nonneg data). rewrite dummy_fields. unfold image_set_header.
  replace (IM_HEADERSIZE fox + zlen data - IM_HEADERSIZE fox) with (zlen data) by lia. rewrite (u32_small (zlen data)) by lia.
  match goal with |- context [concat ?fs] => assert (Hs : map zlen fs = uimage_sizes fox data) by (by destruct fox) end.
  rewrite (bread_field 13 _ _ data _ _ Hs) by (done || by destruct fox). bsimpl. rewrite crc32_data by done.
  set_field Hs 0%nat. set_field Hs 2%nat. set_field Hs 3%nat. set_field Hs 4%nat. set_field Hs 5%nat. set_field Hs 6%nat.
  set_field Hs 7%nat. set_field Hs 8%nat. set_field Hs 9%nat. set_field Hs 10%nat.
  unfold image_set_name. 
  destruct (bwrite_field 11 _ _ (strncpy_field IH_NMLEN (imagename p)) ih_name Hs) as [-> Hs'];
    [by rewrite zlen_strncpy_field|done|]. bsimpl. cbn [insert list_insert] in Hs' |- *. clear Hs.
  rewrite (bread_fields 13 _ _ _ Hs') by (by destruct fox). bsimpl.
  match goal with |- context [image_set_l big ?o (concat ?fs) ?v] =>
    destruct (set_l_field big 1 fs _ o v Hs' eq_refl eq_refl) as [-> _] end.
  cbn [insert list_insert]. f_equal. unfold uimage, uimage_fields, header_crc. do 3 f_equal. f_equal.
  rewrite crc32_data; [done|]. apply (be_fields_byte fox 0 (data_crc data) mtime p data Hn).
Qed.

(** ** Verifying *)

Lemma data_crc_range data : Forall is_byte data -> 0 <= data_crc data < 2 ^ 32.
Proof. intros H. rewrite <- (crc32_data false 0) by done. apply crc32_range; [done|lia]. Qed.
Lemma header_crc_range fox mtime p data : Forall is_byte (imagename p) -> 0 <= header_crc fox mtime p data < 2 ^ 32.
Proof. intros H. by apply data_crc_range, be_fields_byte. Qed.
(** The image with what is mapped behind it. *)
Definition with_tail (fox : bool) (mtime : Z) (p : mkimage_params) (data tail : list Z) : list (list Z) := uimage fox mtime p data ++ [tail].
Lemma with_tail_sizes fox mtime p data tail : map zlen (with_tail fox mtime p data tail) = uimage_sizes fox data ++ [zlen tail].
Proof. unfold with_tail, uimage. by rewrite map_app, fields_sizes. Qed.
Lemma concat_with_tail fox mtime p data tail : concat (with_tail fox mtime p data tail) = concat (uimage fox mtime p data) ++ tail.
Proof. unfold with_tail. rewrite concat_app. cbn [concat]. by rewrite app_nil_r. Qed.

Lemma image_verify_ok big fox mtime p data tail : Forall is_byte data -> Forall is_byte (imagename p) -> zlen data < 2 ^ 32 ->
  image_verify_header big fox (concat (with_tail fox mtime p data tail)) (IM_HEADERSIZE fox + zlen data) = Ok 0.
Proof.
  intros Hb Hn Hl. pose proof (zlen_nonneg data). pose proof (with_tail_sizes fox mtime p data tail) as Hs. unfold image_verify_header.
  replace (IM_HEADERSIZE fox + zlen data - IM_HEADERSIZE fox) with (zlen data) by lia. rewrite (u32_small (zlen data)) by lia.
  rewrite (bread_fields 13 _ _ _ Hs) by (by destruct fox). bsimpl.
  set (h := take 13 (with_tail fox mtime p data tail)).
  assert (Hh : map zlen h = take 13 (uimage_sizes fox data)).
  { unfold h. change (map zlen (take 13 (with_tail fox mtime p data tail))) with (zlen <$> take 13 (with_tail fox mtime p data tail)).
    rewrite fmap_take. change (zlen <$> with_tail fox mtime p data tail) with (map zlen (with_tail fox mtime p data tail)). by rewrite Hs. }
  rewrite (get_l_field big 0 h _ ih_magic IH_MAGIC Hh) by done. bsimpl. change (u32 IH_MAGIC =? IH_MAGIC) with true. cbn [negb].
  rewrite (get_l_field big 1 h _ ih_hcrc (header_crc fox mtime p data) Hh) by done. bsimpl.
  destruct (set_l_field big 1 h _ ih_hcrc 0 Hh eq_refl eq_refl) as [-> Hh']. bsimpl.
  rewrite u32_small by (by apply header_crc_range).
  change (<[1%nat := be_bytes 4 0]> h) with (header_fields fox 0 (data_crc data) mtime p data) in *.
  rewrite crc32_data by (by apply be_fields_byte). unfold header_crc. rewrite Z.eqb_refl. cbn [negb].
  rewrite (bread_field 13 _ _ data _ _ Hs) by (done || by destruct fox). bsimpl.
  rewrite (get_l_field big 6 _ _ ih_dcrc (data_crc data) Hh') by done. bsimpl.
  rewrite u32_small by (by apply data_crc_range). by rewrite crc32_data, Z.eqb_refl.
Qed.

(** ** Printing *)

Lemma le_val_zero l : Forall is_byte l -> le_val l = 0 <-> Forall (eq 0) l.
Proof.
  induction 1 as [|b l Hb Hl IH]; [done|]. cbn [le_val]. unfold is_byte in Hb. pose proof (le_val_range l Hl). rewrite Forall_cons, <- IH. lia.
Qed.
Lemma host_val_zero big l : Forall is_byte l -> host_val big l = 0 <-> Forall (eq 0) l.
Proof.
  intros Hb. destruct big; [|by apply le_val_zero]. cbn [host_val]. unfold be_val. rewrite le_val_zero by (by apply Forall_rev).
  split; intros H; apply Forall_rev in H; [by rewrite rev_involutive in H|done].
Qed.
Lemma bread_bytes o n l w : bread o n l = Ok w -> Forall is_byte l -> zlen w = n /\ Forall is_byte w.
Proof.
  unfold bread. destruct (_ && _) eqn:E; [|done]. intros [= <-] Hb. split.
  - apply andb_prop in E as [E ?%Z.leb_le]. apply andb_prop in E as [?%Z.leb_le ?%Z.leb_le]. by apply zlen_slice.
  - apply Forall_take, Forall_drop, Hb.
Qed.
Section Hosts.
Context (big big' : bool) (l : list Z) (Hb : Forall is_byte l).
Lemma image_get_l_host f : image_get_l big f l = image_get_l big' f l.
Proof.
  unfold image_get_l. destruct (bread f 4 l) as [w|e|] eqn:E; bsimpl; [|done..]. apply bread_bytes in E as [Hl Hw]; [|done].
  f_equal. apply be32_host; [unfold zlen in Hl; lia|done].
Qed.
Lemma size_at_zero i w w' : size_at big l i = Ok w -> size_at big' l i = Ok w' -> (w =? 0) = (w' =? 0).
Proof.
  unfold size_at. destruct (bread _ 4 l) as [x|e|] eqn:E; bsimpl; [|done..]. intros [= <-] [= <-]. apply bread_bytes in E as [_ Hw]; [|done].
  apply eq_true_iff_eq. by rewrite !Z.eqb_eq, !host_val_zero.
Qed.
Lemma size_at_case i : (exists w w', size_at big l i = Ok w /\ size_at big' l i = Ok w' /\ be32_to_cpu big w = be32_to_cpu big' w' /\ (w =? 0) = (w' =? 0))
  \/ (size_at big l i = UB /\ size_at big' l i = UB).
Proof.
  pose proof (size_at_zero i) as Hz. unfold size_at in *. destruct (bread _ 4 l) as [x|e|] eqn:E; bsimpl; [left|exfalso|by right].
  - apply bread_bytes in E as [Hl Hw]; [|done]. eexists _, _. split; [done|]. split; [done|]. split; [|by apply Hz].
    apply be32_host; [unfold zlen in Hl; lia|done].
  - unfold bread in E. by destruct (_ && _).
Qed.
Lemma count_sizes_host fuel : forall i, count_sizes big fuel l i = count_sizes big' fuel l i.
Proof.
  induction fuel as [|fuel IH]; intros i; [done|]. cbn [count_sizes].
  destruct (size_at_case i) as [(w & w' & -> & -> & _ & Hz)|[-> ->]]; [|done]. bsimpl. rewrite Hz. by destruct (w' =? 0).
Qed.
Lemma sizes_before_host n : forall i, sizes_before big n l i = sizes_before big' n l i.
Proof.
  induction n as [|n IH]; intros i; [done|]. cbn [sizes_before].
  destruct (size_at_case i) as [(w & w' & -> & -> & Hw & _)|[-> ->]]; [|done]. bsimpl. by rewrite IH, Hw.
Qed.
Lemma image_multi_getimg_host i : image_multi_getimg big l i = image_multi_getimg big' l i.
Proof.
  unfold image_multi_getimg, image_multi_count. rewrite count_sizes_host. destruct (count_sizes big' _ l 0) as [count| |]; bsimpl; [|done..].
  destruct (i <? count); [|done]. destruct (size_at_case i) as [(w & w' & -> & -> & Hw & _)|[-> ->]]; [|done]. bsimpl. by rewrite sizes_before_host, Hw.
Qed.
Lemma print_images_host n : forall i, print_images big n l i = print_images big' n l i.
Proof. induction n as [|n IH]; intros i; [done|]. cbn [print_images]. by rewrite image_multi_getimg_host, IH. Qed.
Lemma image_print_host : image_print_contents big l = image_print_contents big' l.
Proof.
  unfold image_print_contents, image_multi_count. rewrite !image_get_l_host, count_sizes_host.
  repeat (f_equiv; intros ?). 
  by destruct (count_sizes big' _ l 0) as [count| |]; bsimpl; rewrite ?print_images_host.
Qed.
End Hosts.

(** The values printed are the ones asked for. *)
Lemma print_fields big fox mtime p data tail r : zlen data < 2 ^ 32 ->
  image_print_contents big (concat (with_tail fox mtime p data tail)) = Ok r ->
  r_name r = cstr (strncpy_field IH_NMLEN (imagename p)) /\ r_time r = u32 mtime /\ r_size r = zlen data /\
  r_load r = u32 (p_addr p) /\ r_ep r = u32 (p_ep p).
Proof.
  intros Hl. pose proof (with_tail_sizes fox mtime p data tail) as Hs. pose proof (zlen_nonneg data). unfold image_print_contents.
  rewrite (bread_field 11 _ _ (strncpy_field IH_NMLEN (imagename p)) _ _ Hs) by (done || by rewrite zlen_strncpy_field). bsimpl.
  rewrite (get_l_field big 2 _ _ ih_time mtime Hs) by done. bsimpl.
  rewrite (get_b_field 7 _ _ ih_os (u8 (p_os p)) Hs) by done. bsimpl. rewrite (get_b_field 8 _ _ ih_arch (u8 (p_arch p)) Hs) by done. bsimpl.
  rewrite (get_b_field 9 _ _ ih_type (u8 (p_type p)) Hs) by done. bsimpl. rewrite (get_b_field 10 _ _ ih_comp (u8 (p_comp p)) Hs) by done. bsimpl.
  rewrite (get_l_field big 3 _ _ ih_size (zlen data) Hs) by done. bsimpl. rewrite (get_l_field big 4 _ _ ih_load (p_addr p) Hs) by done. bsimpl.
  rewrite (get_l_field big 5 _ _ ih_ep (p_ep p) Hs) by done. bsimpl. rewrite (u32_small (zlen data)) by lia.
  intros H0. inv_oks H0. by cbn.
Qed.

(** ** The components of a multi-file image *)

Definition pad4 (d : list Z) : list Z := d ++ zrep ((- zlen d) mod 4) 0.
Definition size_table (ds : list (list Z)) : list Z := concat (map (fun d => be_bytes 4 (zlen d)) ds) ++ be_bytes 4 0.
Fixpoint multi_body (ds : list (list Z)) : list Z :=
  match ds with
  | [] => []
  | [d] => d
  | d :: r => pad4 d ++ multi_body r
  end.
Definition multi_payload (ds : list (list Z)) : list Z := size_table ds ++ multi_body ds.
(** Sizes a 32-bit table can hold, none of them the end mark. *)
Definition component_ok (d : list Z) : Prop := 0 < zlen d < 2 ^ 31.

Lemma round4_pad d : component_ok d -> round4 (zlen d) = zlen (pad4 d).
Proof.
  intros Hd. unfold component_ok, round4, pad4 in *. rewrite zlen_app, zlen_rep, u32_small by lia.
  change 0xfffffffc with (Z.ldiff (Z.ones 32) (Z.ones 2)).
  replace (Z.land (zlen d + 3) (Z.ldiff (Z.ones 32) (Z.ones 2))) with (Z.ldiff (Z.land (zlen d + 3) (Z.ones 32)) (Z.ones 2)).
  - rewrite Z.land_ones, Z.mod_small, Z.ldiff_ones_r, Z.shiftl_mul_pow2, Z.shiftr_div_pow2 by lia.
    change (2 ^ 2) with 4. rewrite Z.max_r by (apply Z.mod_pos_bound; lia). dlia.
  - apply Z.bits_inj'. intros n Hn. rewrite !Z.ldiff_spec, !Z.land_spec, Z.ldiff_spec. by rewrite andb_assoc.
Qed.
Lemma multi_body_split ds i d : ds !! i = Some d -> exists r, multi_body ds = concat (map pad4 (take i ds)) ++ d ++ r.
Proof.
  revert i. induction ds as [|d0 ds IH]; intros i Hi; [done|]. destruct i as [|i].
  - injection Hi as ->. destruct ds as [|d1 ds]; [exists []; cbn; by rewrite app_nil_r|].
    eexists. cbn [multi_body take map concat app]. unfold pad4 at 1. by rewrite <- app_assoc.
  - cbn in Hi. destruct (IH i Hi) as [r Hr]. exists r. destruct ds as [|d1 ds]; [done|].
    change (multi_body (d0 :: d1 :: ds)) with (pad4 d0 ++ multi_body (d1 :: ds)). rewrite Hr. cbn [take map concat]. by rewrite <- !app_assoc.
Qed.

Lemma zlen_sizes (ds : list (list Z)) : zlen (concat (map (fun d => be_bytes 4 (zlen d)) ds)) = 4 * zlen ds.
Proof. induction ds as [|x s IH]; [done|]. cbn [map concat]. rewrite zlen_app, zlen_be_bytes, IH, zlen_cons. lia. Qed.

Section Multi.
Context (big : bool) (H : list Z) (ds : list (list Z)) (body : list Z).
Hypothesis HH : zlen H = image_get_data.
Hypothesis Hds : Forall component_ok ds.
Let l : list Z := H ++ size_table ds ++ body.
Lemma table_entry_at i d : ds !! i = Some d -> size_at big l (Z.of_nat i) = Ok (host_val big (be_bytes 4 (zlen d))).
Proof.
  intros Hi. unfold size_at. set (fs := H :: map (fun d => be_bytes 4 (zlen d)) ds ++ [be_bytes 4 0; body]).
  assert (Hl : l = concat fs).
  { unfold l, fs, size_table. cbn [concat]. rewrite concat_app. cbn [concat]. by rewrite app_nil_r, <- !app_assoc. }
  rewrite Hl. rewrite (bread_field (S i) fs _ (be_bytes 4 (zlen d)) _ _ eq_refl); [done|..].
  - change (fs !! S i) with ((((fun d => be_bytes 4 (zlen d)) <$> ds) ++ [be_bytes 4 0; body]) !! i).
    rewrite lookup_app_l by (rewrite length_fmap; by eapply lookup_lt_Some). by rewrite list_lookup_fmap, Hi.
  - unfold fs. cbn [map take total foldr]. rewrite HH. unfold total. f_equal. apply lookup_lt_Some in Hi.
    rewrite map_app, take_app_le by (rewrite !length_map; lia). rewrite map_map.
    clear -Hi. revert i Hi. induction ds as [|x r IH]; intros i Hi; [cbn in Hi; lia|]. destruct i as [|i]; [done|].
    cbn [map take foldr]. rewrite zlen_be_bytes. specialize (IH i ltac:(cbn in Hi; lia)). lia.
  - by rewrite zlen_be_bytes.
Qed.
Lemma table_end : size_at big l (zlen ds) = Ok 0.
Proof.
  unfold size_at. pose proof (zlen_sizes ds).
  assert (Hr : bread (image_get_data + 4 * zlen ds) 4 l = Ok (be_bytes 4 0)).
  { assert (Hl : l = concat [H; concat (map (fun d => be_bytes 4 (zlen d)) ds); be_bytes 4 0; body]).
    { unfold l, size_table. cbn [concat]. by rewrite app_nil_r, <- app_assoc. }
    rewrite Hl. apply (bread_field 2 _ _ _ _ _ eq_refl); [done|cbn [map take total foldr]; lia|done]. }
  rewrite Hr. bsimpl. by destruct big.
Qed.

Lemma count_sizes_table fuel : forall i, (i <= length ds)%nat -> (length ds - i < fuel)%nat -> count_sizes big fuel l (Z.of_nat i) = Ok (zlen ds).
Proof.
  induction fuel as [|fuel IH]; intros i Hi Hf; [lia|]. cbn [count_sizes]. destruct (decide (i = length ds)) as [->|Hne].
  - change (Z.of_nat (length ds)) with (zlen ds). by rewrite table_end.
  - destruct (lookup_lt_is_Some_2 ds i ltac:(lia)) as [d Hd]. rewrite (table_entry_at i d Hd). bsimpl.
    assert (Hz : host_val big (be_bytes 4 (zlen d)) <> 0).
    { rewrite Forall_forall in Hds. pose proof (Hds d ltac:(by eapply list_elem_of_lookup_2)) as Hc. unfold component_ok in Hc.
      intros Hz. pose proof (get_bytes big (zlen d)) as Hg. rewrite Hz in Hg. rewrite u32_small in Hg by lia.
      assert (H0 : be32_to_cpu big 0 = 0) by (by destruct big). lia. }
    rewrite (proj2 (Z.eqb_neq _ 0) Hz). replace (Z.of_nat i + 1) with (Z.of_nat (S i)) by lia. apply IH; lia.
Qed.
Lemma image_multi_count_table : image_multi_count big l = Ok (zlen ds).
Proof.
  unfold image_multi_count. apply (count_sizes_table _ 0%nat); [lia|]. unfold l, size_table. rewrite !length_app.
  assert (Hlen : (length ds <= length (concat (map (fun d => be_bytes 4 (zlen d)) ds)))%nat).
  { clear. induction ds as [|x r IH]; [done|]. cbn [map concat length]. rewrite length_app. unfold be_bytes at 1. rewrite length_rev, length_le_bytes. lia. }
  lia.
Qed.
Lemma sizes_before_table n : forall i, (i + n <= length ds)%nat ->
  sizes_before big n l (Z.of_nat i) = Ok (zlen (concat (map pad4 (take n (drop i ds))))).
Proof.
  induction n as [|n IH]; intros i Hi; [done|]. cbn [sizes_before].
  destruct (lookup_lt_is_Some_2 ds i ltac:(lia)) as [d Hd]. rewrite (table_entry_at i d Hd). bsimpl.
  rewrite Forall_forall in Hds. pose proof (Hds d ltac:(by eapply list_elem_of_lookup_2)) as Hc. rewrite get_bytes, u32_small by (unfold component_ok in Hc; lia).
  replace (Z.of_nat i + 1) with (Z.of_nat (S i)) by lia. rewrite IH by lia. bsimpl. rewrite (drop_S _ _ _ Hd). cbn [take map concat].
  by rewrite zlen_app, round4_pad.
Qed.
(** Component [i]: the offset and the length given lead to its bytes. *)
Lemma image_multi_getimg_table i d r : body = concat (map pad4 (take i ds)) ++ d ++ r -> ds !! i = Some d ->
  exists off, image_multi_getimg big l (Z.of_nat i) = Ok (off, zlen d) /\ slice off (zlen d) l = d.
Proof.
  intros Hbody Hi. unfold image_multi_getimg. rewrite image_multi_count_table. bsimpl. pose proof (lookup_lt_Some _ _ _ Hi) as Hlt.
  rewrite (proj2 (Z.ltb_lt _ _)) by (unfold zlen; lia). rewrite (table_entry_at i d Hi). bsimpl. rewrite Nat2Z.id.
  pose proof (sizes_before_table i 0%nat ltac:(lia)) as Hsz. change (Z.of_nat 0) with 0 in Hsz. rewrite Hsz, drop_0. bsimpl.
  rewrite Forall_forall in Hds. pose proof (Hds d ltac:(by eapply list_elem_of_lookup_2)) as Hc. rewrite get_bytes, u32_small by (unfold component_ok in Hc; lia).
  eexists. split; [done|]. apply (slice_at (H ++ size_table ds ++ concat (map pad4 (take i ds))) d r); [|..|done].
  - unfold l. rewrite Hbody. by rewrite <- !app_assoc.
  - rewrite !zlen_app, HH. unfold size_table. rewrite zlen_app, zlen_be_bytes.
    pose proof (zlen_sizes ds). lia.
Qed.
End Multi.
