(* ===== verification/KwbImage.v ===== *)
(** * Kirkwood boot images (contrib/uboot_mkimage/tools/kwbimage.c)

    The header, its checksums and the parser of the configuration file.  The header is a
    range of bytes, so a store behind an array lands where the compiler puts it. *)

From S2P Require Import Prelude CLib Fdt Endian UbootCrc UImage UImageSpec.

Definition CMD_INVALID : Z := 0.
Definition CMD_BOOT_FROM : Z := 1.
Definition CMD_NAND_ECC_MODE : Z := 2.
Definition CMD_NAND_PAGE_SIZE : Z := 3.
Definition CMD_SATA_PIO_MODE : Z := 4.
Definition CMD_DDR_INIT_DELAY : Z := 5.
Definition CMD_DATA : Z := 6.
(** The last entry does not have the negative number the search stops at. *)
Definition kwbimage_cmds : list table_entry :=
  [te 1 "BOOT_FROM" "boot comand"; te 2 "NAND_ECC_MODE" "NAND mode"; te 3 "NAND_PAGE_SIZE" "NAND size";
   te 4 "SATA_PIO_MODE" "SATA mode"; te 5 "DDR_INIT_DELAY" "DDR init dly"; te 6 "DATA" "Reg Write Data"; TE 0 (Some []) []].
Definition kwbimage_bootops : list table_entry :=
  [te 0x5A "spi" "SPI Flash"; te 0x8B "nand" "NAND Flash"; te 0x78 "sata" "Sata port"; te 0x9C "pex" "PCIe port";
   te 0x69 "uart" "Serial port"; TE (-1) (Some []) (str "Invalid")].
Definition kwbimage_eccmodes : list table_entry :=
  [te 0 "default" "Default mode"; te 1 "hamming" "Hamming mode"; te 2 "rs" "RS mode"; te 3 "disabled" "ECC Disabled"; TE (-1) (Some []) []].

(** [bhr_t] in front of [extbhr_t]. *)
Definition sizeof_bhr : Z := 32.
Definition kwb_blockid : Z := 0.
Definition kwb_nandeccmode : Z := 1.
Definition kwb_nandpagesize : Z := 2.
Definition kwb_blocksize : Z := 4.
Definition kwb_srcaddr : Z := 12.
Definition kwb_destaddr : Z := 16.
Definition kwb_execaddr : Z := 20.
Definition kwb_satapiomode : Z := 24.
Definition kwb_ddrinitdelay : Z := 26.
Definition kwb_ext : Z := 30.
Definition kwb_checkSum : Z := 31.
Definition KWBIMAGE_MAX_CONFIG : Z := (0x1dc - 0x20) / 8.
Definition kwb_rcfg : Z := sizeof_bhr + 0x20.
Definition sizeof_extbhr : Z := 0x20 + 8 * KWBIMAGE_MAX_CONFIG + 8.
Definition kwb_extCheckSum : Z := sizeof_bhr + sizeof_extbhr - 1.
Definition sizeof_kwb_header : Z := sizeof_bhr + sizeof_extbhr.

Definition kwbimage_check_params (p : mkimage_params) : bool :=
  bool_decide (imagename p = []) || image_check_params p || negb (xflag p =? 0).
Definition kwbimage_check_image_types (type : Z) : Z := if type =? IH_TYPE_KWBIMAGE then 0 else 1.

(** [sscanf (token, "%x", &hexval)] *)
Definition check_get_hexval (token : list Z) : outcome Z :=
  let '(v, rest, _) := strtoul token 16 in if bool_decide (rest = token) then Exit 1 else Ok (u32 v).

Definition kwbimage_checksum8 (start : list Z) (csum : Z) : Z := match start with [] => 0 | _ => fold_left (fun sum b => u8 (sum + b)) start csum end.

(** The words of a line up to a comment: [strtok_r] with a blank or a tab. *)
Fixpoint strtok (seps : list Z) (s acc : list Z) : list (list Z) :=
  match s with
  | [] => match acc with [] => [] | _ => [rev acc] end
  | c :: r =>
      if bool_decide (c ∈ seps) then match acc with [] => strtok seps r [] | _ => rev acc :: strtok seps r [] end
      else strtok seps r (c :: acc)
  end.
Fixpoint upto_comment (ws : list (list Z)) : list (list Z) :=
  match ws with
  | (35 :: _) :: _ => []
  | w :: r => w :: upto_comment r
  | [] => []
  end.
(** [getline]: the lines of a file. *)
Definition line_words (line : list Z) : list (list Z) :=
  match strtok [13; 10] (cstr line) [] with [] => [] | t :: _ => upto_comment (strtok [32; 9] t []) end.

Section Host.
Context (big : bool).

Fixpoint kwbimage_checksum32 (fuel : nat) (p : list Z) (sum : Z) : Z :=
  match fuel, p with
  | S fuel', _ :: _ => kwbimage_checksum32 fuel' (zdrop 4 p) (u32 (sum + host_val big (ztake 4 p)))
  | _, _ => sum
  end.
(** A length that is no multiple of four is reported, and the sum is 0. *)
Definition kwb_image_checksum (img : list Z) : Z :=
  if zlen img mod 4 =? 0 then kwbimage_checksum32 (length img) img 0 else 0.

Definition put_field (o : Z) (n : nat) (v : Z) (hdr : list Z) : outcome (list Z) :=
  bwrite o (host_bytes big n (v mod 256 ^ Z.of_nat n)) hdr.

Definition kwbimage_check_cfgdata (token : list Z) (cmdsw : Z) (hdr : list Z) (datacmd_cnt : Z) : outcome (list Z) :=
  if cmdsw =? CMD_BOOT_FROM then
    i ← get_table_entry_id kwbimage_bootops token; if i <? 0 then Exit 1 else put_field kwb_blockid 1 i hdr
  else if cmdsw =? CMD_NAND_ECC_MODE then
    i ← get_table_entry_id kwbimage_eccmodes token; if i <? 0 then Exit 1 else put_field kwb_nandeccmode 1 i hdr
  else if cmdsw =? CMD_NAND_PAGE_SIZE then v ← check_get_hexval token; put_field kwb_nandpagesize 2 v hdr
  else if cmdsw =? CMD_SATA_PIO_MODE then v ← check_get_hexval token; put_field kwb_satapiomode 1 v hdr
  else if cmdsw =? CMD_DDR_INIT_DELAY then v ← check_get_hexval token; put_field kwb_ddrinitdelay 2 v hdr
  else if cmdsw =? CMD_DATA then v ← check_get_hexval token; put_field (kwb_rcfg + 8 * datacmd_cnt) 4 v hdr
  else Exit 1.

(** The words of one line, from word [j]. *)
Fixpoint kwb_words (ws : list (list Z)) (j cmd : Z) (hdr : list Z) (cnt : Z) : outcome (list Z * Z) :=
  match ws with
  | [] => Ok (hdr, cnt)
  | token :: r =>
      if j =? 0 then cmd ← get_table_entry_id kwbimage_cmds token;
                     if cmd =? CMD_INVALID then Exit 1 else kwb_words r 1 cmd hdr cnt
      else if j =? 1 then hdr ← kwbimage_check_cfgdata token cmd hdr cnt; kwb_words r 2 cmd hdr cnt
      else if j =? 2 then
        if negb (cmd =? CMD_DATA) then Exit 1 else
        v ← check_get_hexval token;
        hdr ← put_field (kwb_rcfg + 8 * cnt + 4) 4 v hdr;
        if KWBIMAGE_MAX_CONFIG <? cnt then Exit 1 else kwb_words r 3 cmd hdr (cnt + 1)
      else Exit 1
  end.
Fixpoint kwb_lines (lines : list (list Z)) (hdr : list Z) (cnt : Z) : outcome (list Z * Z) :=
  match lines with
  | [] => Ok (hdr, cnt)
  | line :: r => x ← kwb_words (line_words line) 0 CMD_INVALID hdr cnt; let '(hdr, cnt) := x in kwb_lines r hdr cnt
  end.
(** [config] are the lines of the file, [None] when it cannot be opened. *)
Definition kwdimage_set_ext_header (hdr : list Z) (config : option (list (list Z))) : outcome (list Z) :=
  hdr ← put_field sizeof_bhr 4 kwb_rcfg hdr;
  match config with
  | None => Exit 1
  | Some lines => x ← kwb_lines lines hdr 0; Ok (fst x)
  end.

(** The file with its header set and the checksum written behind it. *)
Definition kwbimage_set_header (ptr : list Z) (st_size : Z) (p : mkimage_params) (config : option (list (list Z))) (can_write : bool)
    : outcome (list Z) :=
  let checksum := kwb_image_checksum ptr in
  if negb can_write then Exit 1 else
  let st_size := st_size + 4 in
  hdr ← put_field kwb_blocksize 4 (st_size - sizeof_kwb_header) ptr;
  hdr ← put_field kwb_srcaddr 4 sizeof_kwb_header hdr;
  hdr ← put_field kwb_destaddr 4 (p_addr p) hdr;
  hdr ← put_field kwb_execaddr 4 (p_ep p) hdr;
  hdr ← put_field kwb_ext 1 1 hdr;
  hdr ← kwdimage_set_ext_header hdr config;
  main ← bread 0 sizeof_bhr hdr;
  hdr ← put_field kwb_checkSum 1 (kwbimage_checksum8 main 0) hdr;
  ext ← bread sizeof_bhr sizeof_extbhr hdr;
  hdr ← put_field kwb_extCheckSum 1 (kwbimage_checksum8 ext 0) hdr;
  Ok (hdr ++ host_bytes big 4 checksum).

(** The sum of the extension is computed, but the one of the main header tested again. *)
Definition kwbimage_verify_header (ptr : list Z) : outcome Z :=
  main ← bread 0 (sizeof_bhr - 1) ptr;
  sum ← bread kwb_checkSum 1 ptr;
  let calc_hdrcsum := kwbimage_checksum8 main 0 in
  if negb (calc_hdrcsum =? znth sum 0) then Ok (- FDT_ERR_BADSTRUCTURE) else
  ext ← bread sizeof_bhr (sizeof_extbhr - 1) ptr;
  if negb (calc_hdrcsum =? znth sum 0) then Ok (- FDT_ERR_BADSTRUCTURE) else Ok 0.

Record kwb_report := mkKReport { k_name : list Z; k_size : Z; k_load : Z; k_ep : Z }.
Definition get_word (o : Z) (ptr : list Z) : outcome Z := w ← bread o 4 ptr; Ok (host_val big w).
Definition kwbimage_print_header (ptr : list Z) : outcome kwb_report :=
  id ← bread kwb_blockid 1 ptr;
  name ← get_table_entry_name kwbimage_bootops (str "Kwbimage boot option") (znth id 0);
  size ← get_word kwb_blocksize ptr; load ← get_word kwb_destaddr ptr; ep ← get_word kwb_execaddr ptr;
  Ok (mkKReport name (u32 (size - 4)) load ep).
End Host.

(** ** The header that is written *)

(** The bytes the configuration cannot change: the words from [blocksize] to
    [execaddr], and [ext] with the checksum. *)
Definition kept (l l' : list Z) : Prop := zlen l' = zlen l /\ slice 4 20 l' = slice 4 20 l /\ slice 30 2 l' = slice 30 2 l.
#[export] Instance kept_refl : Reflexive kept.
Proof. done. Qed.
#[export] Instance kept_trans : Transitive kept.
Proof. intros x y z (H1 & H2 & H3) (H4 & H5 & H6). repeat split; etransitivity; eassumption. Qed.

Section Written.
Context (big : bool).

Lemma put_field_Ok o n v l l' : put_field big o n v l = Ok l' ->
  zlen l' = zlen l /\ slice o (Z.of_nat n) l' = host_bytes big n (v mod 256 ^ Z.of_nat n) /\
  forall p m, 0 <= p -> p + m <= o \/ o + Z.of_nat n <= p -> slice p m l' = slice p m l.
Proof.
  unfold put_field. intros H. apply bwrite_Ok in H as (-> & Ho & Hl). rewrite zlen_host_bytes in Hl. split; [|split].
  - by rewrite zlen_splice by (done || by rewrite zlen_host_bytes).
  - by apply slice_splice_eq; rewrite ?zlen_host_bytes.
  - intros p m Hp Hd. by apply slice_splice_ne; rewrite ?zlen_host_bytes.
Qed.
Lemma put_field_kept o n v l l' : put_field big o n v l = Ok l' -> o + Z.of_nat n <= 4 \/ 24 <= o -> o + Z.of_nat n <= 30 \/ 32 <= o -> kept l l'.
Proof. intros H H1 H2. apply put_field_Ok in H as (Hl & _ & Hs). split; [done|]. split; apply Hs; lia. Qed.

Lemma check_cfgdata_kept token cmd l cnt l' : 0 <= cnt -> kwbimage_check_cfgdata big token cmd l cnt = Ok l' -> kept l l'.
Proof.
  intros Hc H. unfold kwbimage_check_cfgdata in H.
  repeat case_match; try done; inv_oks H;
    match goal with H : put_field _ _ _ _ _ = Ok _ |- _ => eapply put_field_kept; [exact H|..] end;
    unfold kwb_blockid, kwb_nandeccmode, kwb_nandpagesize, kwb_satapiomode, kwb_ddrinitdelay, kwb_rcfg, sizeof_bhr; lia.
Qed.
Lemma kwb_words_kept ws j cmd l cnt l' cnt' : 0 <= cnt -> kwb_words big ws j cmd l cnt = Ok (l', cnt') -> kept l l' /\ 0 <= cnt'.
Proof.
  revert j cmd l cnt. induction ws as [|token r IH]; intros j cmd l cnt Hc H; cbn [kwb_words] in H; [by injection H as <- <-|].
  destruct (j =? 0).
  { apply bind_Ok in H as (cmd' & _ & H). destruct (cmd' =? CMD_INVALID); [done|]. by apply IH in H. }
  destruct (j =? 1).
  { apply bind_Ok in H as (l1 & H1 & H). apply check_cfgdata_kept in H1; [|done]. apply IH in H as [H ?]; [|done]. split; [by etransitivity|done]. }
  destruct (j =? 2); [|done]. destruct (negb _); [done|]. apply bind_Ok in H as (v & _ & H). apply bind_Ok in H as (l1 & H1 & H).
  destruct (KWBIMAGE_MAX_CONFIG <? cnt); [done|]. apply put_field_kept in H1; [|unfold kwb_rcfg, sizeof_bhr; lia..].
  apply IH in H as [H ?]; [|lia]. split; [by etransitivity|done].
Qed.
Lemma kwb_lines_kept lines l cnt l' cnt' : 0 <= cnt -> kwb_lines big lines l cnt = Ok (l', cnt') -> kept l l'.
Proof.
  revert l cnt. induction lines as [|line r IH]; intros l cnt Hc H; cbn [kwb_lines] in H; [by injection H as <- <-|].
  apply bind_Ok in H as ([l1 c1] & H1 & H). apply kwb_words_kept in H1 as [H1 Hc1]; [|done]. apply IH in H; [|done]. by etransitivity.
Qed.
Lemma set_ext_header_kept l config l' : kwdimage_set_ext_header big l config = Ok l' -> kept l l'.
Proof.
  unfold kwdimage_set_ext_header. intros H. apply bind_Ok in H as (l1 & H1 & H). apply put_field_kept in H1; [|unfold sizeof_bhr; lia..].
  destruct config as [lines|]; [|done]. apply bind_Ok in H as ([l2 c2] & H2 & [= <-]). apply kwb_lines_kept in H2; [|done]. by etransitivity.
Qed.

(** ** The sum over the header *)

Lemma checksum8_range l csum : 0 <= csum < 256 -> l <> [] -> 0 <= kwbimage_checksum8 l csum < 256.
Proof.
  intros Hc Hl. destruct l as [|b l]; [done|]. unfold kwbimage_checksum8. clear Hl. revert csum Hc. generalize (b :: l). clear.
  induction l as [|b l IH]; intros csum Hc; [done|]. cbn [fold_left]. apply IH. apply Z.mod_pos_bound. lia.
Qed.
Lemma checksum8_sum l : l <> [] -> kwbimage_checksum8 l 0 = foldr Z.add 0 l mod 256.
Proof.
  intros Hl. destruct l as [|b l]; [done|]. unfold kwbimage_checksum8. clear Hl. generalize (b :: l). clear.
  assert (forall l s, fold_left (fun sum b => u8 (sum + b)) l (s mod 256) = (s + foldr Z.add 0 l) mod 256) as H; [|intros l; apply (H l 0)].
  induction l as [|b l IH]; intros s; cbn [fold_left foldr]; [by rewrite Z.add_0_r|].
  unfold u8 in *. rewrite Zplus_mod_idemp_l, IH. f_equal. lia.
Qed.
(** The checksum's own byte is 0 when the sum is taken. *)
Lemma checksum8_snoc_0 l : l <> [] -> kwbimage_checksum8 (l ++ [0]) 0 = kwbimage_checksum8 l 0.
Proof.
  intros Hl. pose proof (checksum8_range l 0 ltac:(lia) Hl) as Hr. destruct l as [|b l]; [done|]. cbn [app kwbimage_checksum8] in *.
  change (b :: l ++ [0]) with ((b :: l) ++ [0]). rewrite fold_left_app. cbn [fold_left]. unfold u8. rewrite Z.add_0_r. by apply Z.mod_small.
Qed.

(** [main] with its sum, whatever is written behind it. *)
Lemma kwb_sum_verifies l l' : sizeof_kwb_header <= zlen l -> slice 31 1 l = [0] ->
  put_field big kwb_checkSum 1 (kwbimage_checksum8 (slice 0 sizeof_bhr l) 0) l = Ok l' -> kwbimage_verify_header l' = Ok 0.
Proof.
  intros Hll H31 H. change sizeof_kwb_header with 512 in Hll.
  apply put_field_Ok in H as (Hlen & Hsum & Hframe). rewrite <- Hlen in Hll. unfold kwbimage_verify_header.
  change (sizeof_extbhr - 1) with 479. rewrite !bread_in by (unfold kwb_checkSum, sizeof_bhr; lia). bsimpl.
  change (Z.of_nat 1) with 1 in Hsum. rewrite Hsum, (Hframe 0 (sizeof_bhr - 1)) by (unfold kwb_checkSum, sizeof_bhr; lia).
  rewrite Hlen in Hll. set (l31 := slice 0 (sizeof_bhr - 1) l).
  assert (Hz : zlen l31 = 31) by (unfold l31; rewrite zlen_slice; unfold sizeof_bhr; lia).
  assert (Hne : l31 <> []) by (intros ->; done).
  assert (Hs : slice 0 sizeof_bhr l = l31 ++ [0]).
  { rewrite <- H31. unfold l31, slice, ztake, zdrop, sizeof_bhr. change (Z.to_nat 0) with 0%nat. rewrite !drop_0.
    change (Z.to_nat 32) with (31 + 1)%nat. change (Z.to_nat (32 - 1)) with 31%nat. change (Z.to_nat 31) with 31%nat.
    change (Z.to_nat 1) with 1%nat. rewrite <- (take_drop 31 l) at 1. rewrite take_app_add'; [done|].
    rewrite length_take. unfold zlen in Hll. lia. }
  rewrite Hs, checksum8_snoc_0 by done. pose proof (checksum8_range l31 0 ltac:(lia) Hne). rewrite Z.mod_small by (cbn; lia).
  assert (Hb : znth (host_bytes big 1 (kwbimage_checksum8 l31 0)) 0 = kwbimage_checksum8 l31 0).
  { transitivity (kwbimage_checksum8 l31 0 mod 256); [by destruct big|]. apply Z.mod_small. lia. }
  by rewrite Hb, Z.eqb_refl.
Qed.

(** The whole header: fields first, then the configuration, then the sums. *)
Lemma kwb_header_built data p config can_write img :
  kwbimage_set_header big (zrep sizeof_kwb_header 0 ++ data) (sizeof_kwb_header + zlen data) p config can_write = Ok img ->
  exists l l', sizeof_kwb_header <= zlen l /\ slice 31 1 l = [0] /\
    put_field big kwb_checkSum 1 (kwbimage_checksum8 (slice 0 sizeof_bhr l) 0) l = Ok l' /\
    (exists l'', img = l'' ++ host_bytes big 4 (kwb_image_checksum big (zrep sizeof_kwb_header 0 ++ data)) /\ zlen l'' = zlen l /\
       forall o n, 0 <= o -> o + n <= 511 -> slice o n l'' = slice o n l') /\
    slice 4 4 l = host_bytes big 4 (u32 (zlen data + 4)) /\ slice 16 4 l = host_bytes big 4 (u32 (p_addr p)) /\
    slice 20 4 l = host_bytes big 4 (u32 (p_ep p)).
Proof.
  unfold kwbimage_set_header. intros H. destruct can_write; [|done]. cbn [negb] in H. pose proof (zlen_nonneg data) as Hd.
  set (l0 := zrep sizeof_kwb_header 0 ++ data) in *.
  assert (H0 : zlen l0 = 512 + zlen data) by (unfold l0; rewrite zlen_app, zlen_rep; done).
  assert (Hz : slice 31 1 l0 = [0]) by (unfold l0; rewrite slice_prefix by (done || by rewrite zlen_rep); done).
  apply bind_Ok in H as (l1 & H1 & H). apply bind_Ok in H as (l2 & H2 & H). apply bind_Ok in H as (l3 & H3 & H).
  apply bind_Ok in H as (l4 & H4 & H). apply bind_Ok in H as (l5 & H5 & H). apply bind_Ok in H as (l6 & H6 & H).
  apply bind_Ok in H as (main & Hm & H). apply bind_Ok in H as (l7 & H7 & H). apply bind_Ok in H as (ext & He & H).
  apply bind_Ok in H as (l8 & H8 & [= <-]). apply bread_Ok in Hm as (-> & _).
  apply set_ext_header_kept in H6 as (Hl6 & Ha6 & Hb6).
  apply put_field_Ok in H1 as (Hl1 & Hv1 & Hf1), H2 as (Hl2 & Hv2 & Hf2), H3 as (Hl3 & Hv3 & Hf3), H4 as (Hl4 & Hv4 & Hf4),
    H5 as (Hl5 & Hv5 & Hf5), H8 as (Hl8 & _ & Hf8).
  unfold kwb_blocksize, kwb_srcaddr, kwb_destaddr, kwb_execaddr, kwb_ext in *. change (Z.of_nat 4) with 4 in *. change (Z.of_nat 1) with 1 in *.
  pose proof H7 as H7'. apply put_field_Ok in H7' as (Hl7 & _ & _).
  assert (Hsub : forall o n, 4 <= o -> 0 <= n -> o + n <= 24 -> slice o n l6 = slice o n l5).
  { intros o n ???. replace o with (4 + (o - 4)) by lia. by rewrite <- !(slice_slice (o - 4) n 4 20), Ha6 by lia. }
  exists l6, l7. change sizeof_kwb_header with 512. split; [lia|]. split; [|split; [exact H7|split; [|split; [|split]]]].
  - replace 31 with (30 + 1) by done. rewrite <- (slice_slice 1 1 30 2), Hb6, slice_slice by done. change (30 + 1) with 31.
    rewrite Hf5, Hf4, Hf3, Hf2, Hf1 by lia. exact Hz.
  - exists l8. split; [done|]. split; [lia|]. intros o n Ho Hn. apply Hf8; [done|]. left. exact Hn.
  - rewrite Hsub, Hf5, Hf4, Hf3, Hf2, Hv1 by lia. change sizeof_kwb_header with 512. f_equal. unfold u32. f_equal. lia.
  - rewrite Hsub, Hf5, Hf4, Hv3 by lia. done.
  - rewrite Hsub, Hf5, Hv4 by lia. done.
Qed.
End Written.

(** ** Theorems *)

(** C31: a Kirkwood image has the header the boot ROM asks for: whatever the
    configuration file sets, the sum over the main header is right when mkimage checks
    it, and the image is listed with the size of the data, the load address and the entry
    point of the command line, also with something mapped behind it. *)
Theorem kwb_image_verifies big data p config can_write img tail :
  kwbimage_set_header big (zrep sizeof_kwb_header 0 ++ data) (sizeof_kwb_header + zlen data) p config can_write = Ok img ->
  kwbimage_verify_header (img ++ tail) = Ok 0 /\
  exists k, kwbimage_print_header big (img ++ tail) = Ok k /\
    k_size k = u32 (zlen data) /\ k_load k = u32 (p_addr p) /\ k_ep k = u32 (p_ep p).
Proof.
  intros H. apply kwb_header_built in H as (l & l' & Hl & Hz & Hsum & (l'' & -> & Hl'' & Hs) & Hsize & Hload & Hep).
  pose proof (kwb_sum_verifies _ _ _ Hl Hz Hsum) as Hv. pose proof Hsum as Hput. apply put_field_Ok in Hput as (Hl' & _ & Hf).
  change sizeof_kwb_header with 512 in Hl. unfold kwb_checkSum in Hf. change (Z.of_nat 1) with 1 in Hf.
  set (m := (l'' ++ _) ++ tail).
  assert (Hm : forall o n, 0 <= o -> 0 <= n -> o + n <= 511 -> bread o n m = Ok (slice o n l')).
  { intros o n ???. unfold m. rewrite bread_in by (rewrite ?zlen_app; pose proof (zlen_nonneg tail); rewrite ?zlen_host_bytes; lia).
    by rewrite <- app_assoc, slice_prefix, Hs by lia. }
  split.
  - rewrite <- Hv. unfold kwbimage_verify_header. change (sizeof_extbhr - 1) with 479. unfold kwb_checkSum, sizeof_bhr.
    by rewrite !Hm, !bread_in by lia.
  - unfold kwbimage_print_header, get_word, kwb_blockid, kwb_blocksize, kwb_destaddr, kwb_execaddr. rewrite !Hm by done. bsimpl.
    destruct (table_name_found kwbimage_bootops (str "Kwbimage boot option") (znth (slice 0 1 l') 0) eq_refl) as [name ->]. bsimpl.
    eexists. split; [done|]. cbn [k_size k_load k_ep]. rewrite !Hf, Hsize, Hload, Hep by lia. rewrite !host_val_bytes.
    change (256 ^ Z.of_nat 4) with (2 ^ 32). unfold u32. rewrite !Z.mod_mod by done. split; [|done].
    rewrite Zminus_mod_idemp_l. f_equal. lia.
Qed.
Definition kwb_config0 : list (list Z) :=
  [str "# Kirkwood"; str "BOOT_FROM nand"; str "NAND_PAGE_SIZE 0800"; str "DATA 0xFFD100e0 0x1b1b1b9b"; []].
Definition kwb_params0 : mkimage_params :=
  mkParams true true false false 0 0 5 2 9 0 0x600000 0x600000 (str "kwbimage.cfg") (Some (str "u-boot.bin")) (str "u-boot.kwb").
Lemma kwb_image_verifies_witness :
  exists img, kwbimage_set_header false (zrep sizeof_kwb_header 0 ++ str "CODE") 516 kwb_params0 (Some kwb_config0) true = Ok img /\
    kwbimage_verify_header img = Ok 0 /\ zlen img = 520.
Proof.
  destruct (kwbimage_set_header false (zrep sizeof_kwb_header 0 ++ str "CODE") 516 kwb_params0 (Some kwb_config0) true) as [img| |] eqn:E;
    [|vm_compute in E; discriminate E..].
  exists img. split; [reflexivity|]. destruct (kwb_image_verifies false (str "CODE") kwb_params0 (Some kwb_config0) true img [] E) as [Hv _].
  rewrite app_nil_r in Hv. split; [exact Hv|]. revert E. vm_compute. intros [= <-]. reflexivity.
Defined.
