(* ===== verification/ImxImage.v ===== *)
(** * Freescale i.MX boot images (contrib/uboot_mkimage/tools/imximage.c)

    The header with its table of register writes, and the parser of the configuration
    file.  As in [KwbImage] the header is a range of bytes: more registers than the table
    holds are stored behind it. *)

From S2P Require Import Prelude CLib Fdt Endian UbootCrc UImage KwbImage.

Definition MAX_HW_CFG_SIZE : Z := 60.
Definition APP_CODE_BARKER : Z := 0xB1.
Definition DCD_BARKER : Z := 0xB17219E9.
Definition FLASH_OFFSET_STANDARD : Z := 0x400.
Definition FLASH_OFFSET_ONENAND : Z := 0x100.
Definition IMX_CMD_BOOT_FROM : Z := 1.
Definition IMX_CMD_DATA : Z := 2.
Definition imximage_cmds : list table_entry :=
  [te 1 "BOOT_FROM" "boot command"; te 2 "DATA" "Reg Write Data"; TE (-1) (Some []) []].
Definition imximage_bootops : list table_entry :=
  [te 0x400 "spi" "SPI Flash"; te 0x400 "nand" "NAND Flash"; te 0x400 "sd" "SD Card"; te 0x100 "onenand" "OneNAND Flash";
   TE (-1) (Some []) (str "Invalid")].

(** [struct imx_header] *)
Definition imx_app_code_jump_vector : Z := 0.
Definition imx_app_code_barker : Z := 4.
Definition imx_app_code_csf : Z := 8.
Definition imx_dcd_ptr_ptr : Z := 12.
Definition imx_super_root_key : Z := 16.
Definition imx_dcd_ptr : Z := 20.
Definition imx_app_dest_ptr : Z := 24.
Definition imx_dcd_table : Z := 28.
Definition imx_dcd_length : Z := imx_dcd_table + 4.
(** [addr_data[n]] *)
Definition imx_addr_data (n : Z) : Z := imx_dcd_table + 8 + 12 * n.
Definition imx_flash_offset : Z := imx_addr_data MAX_HW_CFG_SIZE + 4.
Definition sizeof_imx_header : Z := imx_flash_offset + 4.

(** [strtoul] must take something and must not overflow. *)
Definition get_cfg_value (token : list Z) : outcome Z :=
  let '(v, endptr, erange) := strtoul token 16 in
  if erange || bool_decide (endptr = token) then Exit 1 else Ok (u32 v).
Definition imximage_check_image_types (type : Z) : Z := if type =? IH_TYPE_IMXIMAGE then 0 else 1.
Definition imximage_check_params (p : mkimage_params) : bool :=
  bool_decide (imagename p = []) || image_check_params p || negb (xflag p =? 0).

Section Host.
Context (big : bool).

Definition imximage_verify_header (ptr : list Z) : outcome Z :=
  barker ← get_word big imx_app_code_barker ptr;
  if negb (barker =? APP_CODE_BARKER) then Ok (- FDT_ERR_BADSTRUCTURE) else
  barker ← get_word big imx_dcd_table ptr;
  if negb (barker =? DCD_BARKER) then Ok (- FDT_ERR_BADSTRUCTURE) else Ok 0.

Record imx_report := mkIReport { i_size : Z; i_load : Z; i_ep : Z }.
Definition imximage_print_header (ptr : list Z) : outcome imx_report :=
  size ← get_word big imx_dcd_length ptr;
  if MAX_HW_CFG_SIZE * 12 <? size then Exit 1 else
  data ← get_word big (imx_addr_data (size / 12)) ptr;
  load ← get_word big imx_app_dest_ptr ptr; ep ← get_word big imx_app_code_jump_vector ptr;
  Ok (mkIReport data load ep).

(** The fields of one line, from field [fld]: command, size, address and value.  The
    size of a register falls through to its address. *)
Fixpoint imx_words (ws : list (list Z)) (fld cmd : Z) (hdr : list Z) (dcd_len : Z) : outcome (list Z * Z) :=
  match ws with
  | [] => Ok (hdr, dcd_len)
  | token :: r =>
      if fld =? 0 then
        cmd ← get_table_entry_id imximage_cmds token;
        if cmd <? 0 then Exit 1 else imx_words r 1 cmd hdr dcd_len
      else if fld =? 1 then
        if cmd =? IMX_CMD_BOOT_FROM then
          i ← get_table_entry_id imximage_bootops token;
          if i =? -1 then Exit 1 else
          hdr ← put_field big imx_flash_offset 4 i hdr; imx_words r 2 cmd hdr dcd_len
        else
          value ← get_cfg_value token;
          if negb ((value =? 1) || (value =? 2) || (value =? 4)) then Exit 1 else
          hdr ← put_field big (imx_addr_data dcd_len) 4 value hdr;
          hdr ← put_field big (imx_addr_data dcd_len + 4) 4 value hdr;
          imx_words r 2 cmd hdr dcd_len
      else if (fld =? 2) && (cmd =? IMX_CMD_DATA) then
        value ← get_cfg_value token;
        hdr ← put_field big (imx_addr_data dcd_len + 4) 4 value hdr; imx_words r 3 cmd hdr dcd_len
      else if (fld =? 3) && (cmd =? IMX_CMD_DATA) then
        value ← get_cfg_value token;
        hdr ← put_field big (imx_addr_data dcd_len + 8) 4 value hdr; imx_words r 4 cmd hdr (dcd_len + 1)
      else imx_words r (fld + 1) cmd hdr dcd_len
  end.
(** A table that has grown beyond its maximal size is reported, no more. *)
Fixpoint imx_lines (lines : list (list Z)) (hdr : list Z) (dcd_len : Z) : outcome (list Z * Z) :=
  match lines with
  | [] => Ok (hdr, dcd_len)
  | line :: r => x ← imx_words (line_words line) 0 CMD_INVALID hdr dcd_len; let '(hdr, dcd_len) := x in imx_lines r hdr dcd_len
  end.
Definition imximage_parse_cfg_file (hdr : list Z) (config : option (list (list Z))) : outcome (list Z * Z) :=
  match config with
  | None => Exit 1
  | Some lines =>
      x ← imx_lines lines hdr 0; let '(hdr, dcd_len) := x in
      hdr ← put_field big imx_dcd_table 4 DCD_BARKER hdr;
      hdr ← put_field big imx_dcd_length 4 (dcd_len * 12) hdr;
      Ok (hdr, dcd_len)
  end.

Definition imximage_set_header (ptr : list Z) (st_size : Z) (p : mkimage_params) (config : option (list (list Z))) : outcome (list Z) :=
  hdr ← put_field big imx_flash_offset 4 FLASH_OFFSET_STANDARD ptr;
  hdr ← put_field big imx_app_code_barker 4 APP_CODE_BARKER hdr;
  x ← imximage_parse_cfg_file hdr config; let '(hdr, dcd_len) := x in
  hdr ← put_field big imx_app_dest_ptr 4 (p_addr p) hdr;
  flash_offset ← get_word big imx_flash_offset hdr;
  hdr ← put_field big imx_app_dest_ptr 4 (p_ep p - flash_offset - sizeof_imx_header) hdr;
  hdr ← put_field big imx_app_code_jump_vector 4 (p_ep p) hdr;
  app_dest ← get_word big imx_app_dest_ptr hdr;
  let base_offset := u32 (app_dest + flash_offset) in
  hdr ← put_field big imx_dcd_ptr_ptr 4 (imx_dcd_ptr - imx_app_code_jump_vector + base_offset) hdr;
  hdr ← put_field big imx_dcd_ptr 4 (base_offset + imx_dcd_table) hdr;
  hdr ← put_field big (imx_addr_data dcd_len) 4 (st_size + flash_offset + sizeof_imx_header) hdr;
  hdr ← put_field big imx_app_code_csf 4 0 hdr;
  put_field big imx_super_root_key 4 0 hdr.
End Host.

(** ** The header that is written *)

Section Written.
Context (big : bool).

(** The configuration leaves the words in front of the table alone. *)
Definition front_kept (l l' : list Z) : Prop := zlen l' = zlen l /\ slice 0 28 l' = slice 0 28 l.
Lemma put_field_front o n v l l' : put_field big o n v l = Ok l' -> 28 <= o -> front_kept l l'.
Proof. intros H Ho. apply put_field_Ok in H as (Hl & _ & Hs). split; [done|]. apply Hs; lia. Qed.
Lemma front_trans l1 l2 l3 : front_kept l1 l2 -> front_kept l2 l3 -> front_kept l1 l3.
Proof. intros [H1 H2] [H3 H4]. split; congruence. Qed.
(** A field stored by the parser is behind the front. *)
Ltac front := match goal with H : put_field _ _ _ _ _ = Ok _ |- _ =>
  eapply front_trans; [eapply put_field_front; [exact H|unfold imx_flash_offset, imx_addr_data, imx_dcd_table, MAX_HW_CFG_SIZE; lia]|]; clear H end.
Lemma imx_words_front ws fld cmd l n l' n' : 0 <= n -> imx_words big ws fld cmd l n = Ok (l', n') -> front_kept l l' /\ 0 <= n'.
Proof.
  revert fld cmd l n. induction ws as [|token r IH]; intros fld cmd l n Hn H; cbn [imx_words] in H; [by injection H as <- <-|].
  destruct (fld =? 0).
  { apply bind_Ok in H as (c & _ & H). destruct (c <? 0); [done|]. by apply IH in H. }
  destruct (fld =? 1).
  { destruct (cmd =? IMX_CMD_BOOT_FROM).
    - apply bind_Ok in H as (i & _ & H). destruct (i =? -1); [done|]. apply bind_Ok in H as (l1 & H1 & H).
      apply IH in H as [H ?]; [|done]. split; [|done]. front. exact H.
    - apply bind_Ok in H as (v & _ & H). destruct (negb _); [done|]. apply bind_Ok in H as (l1 & H1 & H). apply bind_Ok in H as (l2 & H2 & H).
      apply IH in H as [H ?]; [|done]. split; [|done]. eapply front_trans; [|eapply front_trans; [|exact H]];
        (eapply put_field_front; [eassumption|unfold imx_addr_data, imx_dcd_table; lia]). }
  destruct ((fld =? 2) && _).
  { apply bind_Ok in H as (v & _ & H). apply bind_Ok in H as (l1 & H1 & H). apply IH in H as [H ?]; [|done]. split; [|done]. front. exact H. }
  destruct ((fld =? 3) && _); [|by apply IH in H].
  apply bind_Ok in H as (v & _ & H). apply bind_Ok in H as (l1 & H1 & H). apply IH in H as [H ?]; [|lia]. split; [|done]. front. exact H.
Qed.
Lemma imx_lines_front lines l n l' n' : 0 <= n -> imx_lines big lines l n = Ok (l', n') -> front_kept l l' /\ 0 <= n'.
Proof.
  revert l n. induction lines as [|line r IH]; intros l n Hn H; cbn [imx_lines] in H; [by injection H as <- <-|].
  apply bind_Ok in H as ([l1 n1] & H1 & H). apply imx_words_front in H1 as [H1 Hn1]; [|done]. apply IH in H as [H ?]; [|done].
  split; [by eapply front_trans|done].
Qed.
(** After the configuration: the front, the barker and the length of the table. *)
Lemma parse_cfg_header l config l' n : imximage_parse_cfg_file big l config = Ok (l', n) ->
  0 <= n /\ front_kept l l' /\ slice imx_dcd_table 4 l' = host_bytes big 4 DCD_BARKER /\ slice imx_dcd_length 4 l' = host_bytes big 4 (u32 (n * 12)).
Proof.
  destruct config as [lines|]; [|done]. cbn [imximage_parse_cfg_file]. intros H. apply bind_Ok in H as ([l1 n1] & H1 & H).
  apply bind_Ok in H as (l2 & H2 & H). apply bind_Ok in H as (l3 & H3 & [= <- <-]). apply imx_lines_front in H1 as [H1 Hn]; [|done].
  split; [done|]. split; [|split].
  - eapply front_trans; [exact H1|]. by eapply front_trans; (eapply put_field_front; [eassumption|done]).
  - apply put_field_Ok in H2 as (_ & Hv & _), H3 as (_ & _ & Hf).
    transitivity (slice imx_dcd_table 4 l2); [by apply Hf; [done|left]|exact Hv].
  - apply put_field_Ok in H3 as (_ & Hv & _). exact Hv.
Qed.
Lemma imx_header_built data p config img :
  imximage_set_header big (zrep sizeof_imx_header 0 ++ data) (sizeof_imx_header + zlen data) p config = Ok img ->
  exists n fo, 0 <= n /\ 764 <= zlen img /\
    slice imx_app_code_barker 4 img = host_bytes big 4 (u32 APP_CODE_BARKER) /\ slice imx_dcd_table 4 img = host_bytes big 4 (u32 DCD_BARKER) /\
    slice imx_dcd_length 4 img = host_bytes big 4 (u32 (n * 12)) /\ slice imx_app_code_jump_vector 4 img = host_bytes big 4 (u32 (p_ep p)) /\
    slice imx_app_dest_ptr 4 img = host_bytes big 4 (u32 (p_ep p - fo - sizeof_imx_header)) /\
    (n <= MAX_HW_CFG_SIZE -> host_val big (slice imx_flash_offset 4 img) = fo /\
       slice (imx_addr_data n) 4 img = host_bytes big 4 (u32 (zlen data + fo + 2 * sizeof_imx_header))).
Proof.
  unfold imximage_set_header. intros H. apply bind_Ok in H as (l1 & H1 & H). apply bind_Ok in H as (l2 & H2 & H).
  apply bind_Ok in H as ([l3 n] & H3 & H). apply bind_Ok in H as (l4 & H4 & H). apply bind_Ok in H as (w & Hfo & H).
  apply bind_Ok in H as (l5 & H5 & H). apply bind_Ok in H as (l6 & H6 & H). apply bind_Ok in H as (ad & _ & H).
  apply bind_Ok in H as (l7 & H7 & H). apply bind_Ok in H as (l8 & H8 & H). apply bind_Ok in H as (l9 & H9 & H).
  apply bind_Ok in H as (l10 & H10 & H). apply parse_cfg_header in H3 as (Hn & [Hl3 Hfront] & Hbark & Hlen).
  pose proof (zlen_nonneg data).
  assert (Z0 : zlen (zrep sizeof_imx_header 0 ++ data) = 764 + zlen data) by (rewrite zlen_app, zlen_rep; done).
  assert (Ha : imx_addr_data n = 36 + 12 * n) by (unfold imx_addr_data, imx_dcd_table; lia). rewrite Ha in H9.
  unfold get_word in Hfo. apply bind_Ok in Hfo as (ws & Hws & [= <-]). apply bread_Ok in Hws as (-> & _).
  change imx_flash_offset with 760 in *. change imx_app_code_barker with 4 in *. change imx_dcd_table with 28 in *.
  change imx_dcd_length with 32 in *. change imx_app_code_jump_vector with 0 in *. change imx_app_dest_ptr with 24 in *.
  change imx_dcd_ptr_ptr with 12 in *. change imx_dcd_ptr with 20 in *. change imx_app_code_csf with 8 in *. change imx_super_root_key with 16 in *.
  apply put_field_Ok in H1 as (Z1 & _ & _), H2 as (Z2 & V2 & _), H4 as (Z4 & _ & F4), H5 as (Z5 & V5 & F5), H6 as (Z6 & V6 & F6),
    H7 as (Z7 & _ & F7), H8 as (Z8 & _ & F8), H9 as (Z9 & V9 & F9), H10 as (Z10 & _ & F10), H as (Z11 & _ & F11).
  change (Z.of_nat 4) with 4 in *. set (fo := host_val big (slice 760 4 l4)) in *. change sizeof_imx_header with 764 in *.
  assert (Hsub : forall o, 0 <= o -> o + 4 <= 28 -> slice o 4 l3 = slice o 4 l2).
  { intros o ??. change o with (0 + o). by rewrite <- (slice_slice o 4 0 28 l3), <- (slice_slice o 4 0 28 l2), Hfront by lia. }
  exists n, fo. split; [done|]. split; [lia|]. split; [|split; [|split; [|split; [|split]]]].
  - rewrite F11, F10, F9, F8, F7, F6, F5, F4, Hsub by lia. exact V2.
  - rewrite F11, F10, F9, F8, F7, F6, F5, F4 by lia. exact Hbark.
  - rewrite F11, F10, F9, F8, F7, F6, F5, F4 by lia. exact Hlen.
  - rewrite F11, F10, F9, F8, F7 by lia. exact V6.
  - rewrite F11, F10, F9, F8, F7, F6 by lia. exact V5.
  - unfold MAX_HW_CFG_SIZE. intros Hmax. split; [by rewrite F11, F10, F9, F8, F7, F6, F5 by lia|].
    rewrite Ha, F11, F10, V9 by lia. f_equal. unfold u32. f_equal. lia.
Qed.
End Written.

(** ** Theorems *)

Definition imx_config0 : list (list Z) :=
  [str "BOOT_FROM sd"; str "# DDR"; str "DATA 4 0x73FA88a0 0x200"; str "DATA 4 0x73FA850c 0x20c5"].
Definition imx_params0 : mkimage_params :=
  mkParams true true false false 0 0 5 2 10 0 0x97800000 0x97800000 (str "imximage.cfg") (Some (str "u-boot.bin")) (str "u-boot.imx").
