(* ===== verification/Mkimage.v ===== *)
(** * uboot_mkimage (contrib/uboot_mkimage/tools/mkimage.c)

    The command line, the registry of image formats, listing and writing of images.  The
    command line is parsed by hand in the source, so it is here too.  What [-f]
    builds is a parameter here, which Fit.v fills in ([fit_handler]); the listing of a FIT
    image is its memory, which [fit_print_contents] there reads. *)

From S2P Require Import Prelude CLib Endian Fdt UbootCrc UImage UImageSpec KwbImage ImxImage.

(** What a listing reports. *)
Inductive mk_report := R_uimage (r : uimage_report) | R_kwb (r : kwb_report) | R_imx (r : imx_report) | R_fit (fit : list Z).

(** The machine: files, what calls on the image file answer. *)
Record mk_env := mkEnv {
  e_file : list Z -> option (list Z);
  e_image : option (list Z);
  e_creat : bool;
  e_write : Z -> bool;
  e_map : list Z -> bool;
  e_mtime : Z;
  e_close : bool;
}.
(** A mapped file is followed by zeros up to the end of its last page. *)
Definition PAGE_SIZE : Z := 4096.
Definition mapped (f : list Z) : list Z := f ++ zrep ((- zlen f) mod PAGE_SIZE) 0.

(** [struct image_type_params] *)
Record image_type_params := mkType {
  t_name : list Z;
  header_size : Z;
  check_params : mkimage_params -> bool;
  verify_header : list Z -> Z -> outcome Z;
  print_header : list Z -> outcome mk_report;
  set_header : option (list Z -> mkimage_params -> outcome (list Z));
  check_image_type : Z -> Z;
  fflag_handle : option (mkimage_params -> outcome (list Z));
}.

(** [mkimage_register]: a format whose name is known already is reported and left out. *)
Definition mkimage_register (tparams : image_type_params) (registry : list image_type_params) : list image_type_params :=
  if existsb (fun t => streq (t_name t) (t_name tparams)) registry then registry else registry ++ [tparams].
Fixpoint mkimage_get_type (registry : list image_type_params) (type : Z) : option image_type_params :=
  match registry with
  | [] => None
  | curr :: r => if check_image_type curr (u8 type) =? 0 then Some curr else mkimage_get_type r type
  end.

(** The lines of a file, as [getline] gives them. *)
Fixpoint getlines (text acc : list Z) : list (list Z) :=
  match text with
  | [] => match acc with [] => [] | _ => [rev acc] end
  | c :: r => if c =? 10 then rev (c :: acc) :: getlines r [] else getlines r (c :: acc)
  end.

Section Mkimage.
Context (big : bool) (E : mk_env) (fit_handle_file : mkimage_params -> outcome (list Z)).

(** The formats. *)
Definition config_of (p : mkimage_params) : option (list (list Z)) := (fun t => getlines t []) <$> e_file E (imagename p).
Definition kwbimage_params : image_type_params := {|
  t_name := str "Kirkwood Boot Image support";
  header_size := sizeof_kwb_header;
  check_params := kwbimage_check_params;
  verify_header ptr _ := kwbimage_verify_header ptr;
  print_header ptr := r ← kwbimage_print_header big ptr; Ok (R_kwb r);
  set_header := Some (fun f p => kwbimage_set_header big f (zlen f) p (config_of p) (e_write E (zlen f)));
  check_image_type := kwbimage_check_image_types;
  fflag_handle := None;
|}.
Definition imximage_params : image_type_params := {|
  t_name := str "Freescale i.MX 51 Boot Image support";
  header_size := sizeof_imx_header;
  check_params := imximage_check_params;
  verify_header ptr _ := imximage_verify_header big ptr;
  print_header ptr := r ← imximage_print_header big ptr; Ok (R_imx r);
  set_header := Some (fun f p => imximage_set_header big f (zlen f) p (config_of p));
  check_image_type := imximage_check_image_types;
  fflag_handle := None;
|}.
Definition fitimage_params : image_type_params := {|
  t_name := str "FIT Image support";
  header_size := sizeof_image_header;
  check_params := image_check_params;
  verify_header ptr _ := lower (fdt_check_header ptr);
  print_header ptr := Ok (R_fit ptr);
  set_header := None;
  check_image_type type := if type =? IH_TYPE_FLATDT then 0 else 1;
  fflag_handle := Some fit_handle_file;
|}.
Definition defimage_params (foxconpad : bool) : image_type_params := {|
  t_name := str "Default Image support";
  header_size := IM_HEADERSIZE foxconpad;
  check_params := image_check_params;
  verify_header ptr image_size := image_verify_header big foxconpad ptr image_size;
  print_header ptr := r ← image_print_contents big ptr; Ok (R_uimage r);
  set_header := Some (fun f p => image_set_header big foxconpad f (zlen f) (e_mtime E) p);
  check_image_type := image_check_image_types;
  fflag_handle := None;
|}.
(** The registry after the [init_..._image_type] calls of [main]. *)
Definition mkimage_tparams (foxconpad : bool) : list image_type_params :=
  foldl (fun r t => mkimage_register t r) [] [kwbimage_params; imximage_params; fitimage_params; defimage_params foxconpad].

Fixpoint mkimage_verify_print_header (registry : list image_type_params) (ptr : list Z) (st_size retval : Z)
    : outcome (Z * option mk_report) :=
  match registry with
  | [] => Ok (retval, None)
  | curr :: r =>
      retval ← verify_header curr ptr st_size;
      if retval =? 0 then rep ← print_header curr ptr; Ok (0, Some rep)
      else mkimage_verify_print_header r ptr st_size retval
  end.

(** ** The command line *)

Definition params0 : mkimage_params :=
  mkParams false false false false 0 0 IH_OS_LINUX IH_ARCH_PPC IH_TYPE_KERNEL IH_COMP_GZIP 0 0 [] None [].
Definition mk_state : Type := mkimage_params * bool.
(** A letter without an argument; [usage] ends the program. *)
Definition mk_flag (c : Z) (s : mk_state) : outcome mk_state :=
  let '(mkParams d e f l v x os arch ty comp addr ep nm df im, fox) := s in
  if c =? 108 then Ok (mkParams d e f true v x os arch ty comp addr ep nm df im, fox)
  else if c =? 112 then Ok (mkParams d e f l v x os arch ty comp addr ep nm df im, true)
  else if c =? 118 then Ok (mkParams d e f l (v + 1) x os arch ty comp addr ep nm df im, fox)
  else if c =? 120 then Ok (mkParams d e f l v (x + 1) os arch ty comp addr ep nm df im, fox)
  else Exit 1.
Definition takes_value (c : Z) : bool := bool_decide (c ∈ str "ACDOTadefn").
Definition hex_value (v : list Z) : outcome Z :=
  let '(n, rest, _) := strtoul v 16 in match rest with [] => Ok (u32 n) | _ => Exit 1 end.
Definition checked (id : outcome Z) : outcome Z := i ← id; if i <? 0 then Exit 1 else Ok i.
Definition mk_value (c : Z) (value : list Z) (s : mk_state) : outcome mk_state :=
  let '(mkParams d e f l v x os arch ty comp addr ep nm df im, fox) := s in
  if c =? 65 then i ← checked (genimg_get_arch_id value); Ok (mkParams d e f l v x os i ty comp addr ep nm df im, fox)
  else if c =? 67 then i ← checked (genimg_get_comp_id value); Ok (mkParams d e f l v x os arch ty i addr ep nm df im, fox)
  else if c =? 79 then i ← checked (genimg_get_os_id value); Ok (mkParams d e f l v x i arch ty comp addr ep nm df im, fox)
  else if c =? 84 then i ← checked (genimg_get_type_id value); Ok (mkParams d e f l v x os arch i comp addr ep nm df im, fox)
  else if c =? 97 then n ← hex_value value; Ok (mkParams d e f l v x os arch ty comp n ep nm df im, fox)
  else if c =? 101 then n ← hex_value value; Ok (mkParams d true f l v x os arch ty comp addr n nm df im, fox)
  else if c =? 100 then Ok (mkParams true e f l v x os arch ty comp addr ep nm (Some value) im, fox)
  else if c =? 102 then Ok (mkParams d e true l v x os arch IH_TYPE_FLATDT comp addr ep nm (Some value) im, fox)
  else if c =? 110 then Ok (mkParams d e f l v x os arch ty comp addr ep value df im, fox)
  else Ok s.
(** The loop over the arguments: the letters of one argument, of which the first that
    takes a value ends it.  What is left are the arguments from the first without a dash. *)
Fixpoint mk_args (argv : list (list Z)) (s : mk_state) : outcome (mk_state * list (list Z)) :=
  match argv with
  | (45 :: letters) :: r =>
      (fix go (letters : list Z) (s : mk_state) : outcome (mk_state * list (list Z)) :=
         match letters with
         | [] => mk_args r s
         | c :: letters' =>
             if takes_value c then
               match r with
               | [] => Exit 1
               | v :: r' => s ← mk_value c v s; mk_args r' s
               end
             else s ← mk_flag c s; go letters' s
         end) letters s
  | _ => Ok (s, argv)
  end.

(** ** Writing *)

Definition write_out (d out : list Z) : outcome (list Z) := if e_write E (zlen out) then Ok (out ++ d) else Exit 1.

Definition copy_file (p : mkimage_params) (tparams : image_type_params) (name : list Z) (pad : bool) (out : list Z)
    : outcome (list Z) :=
  match e_file E name with
  | None => Exit 1
  | Some data =>
      if negb (e_map E data) then Exit 1 else
      offset ← (if negb (xflag p =? 0) then
                  if u32 (zlen data) <? header_size tparams then Exit 1
                  else buffer ← bread 0 (header_size tparams) data;
                       if forallb (fun b => b =? 0xff) buffer then Ok (header_size tparams) else Exit 1
                else Ok 0);
      let size := s32 (zlen data - offset) in
      payload ← bread offset size data;
      out ← write_out payload out;
      let tail := Z.rem size 4 in
      if pad && negb (tail =? 0) then write_out (zrep (4 - tail) 0) out else Ok out
  end.

(** The names in [-d a:b:c]. *)
Fixpoint split_colon (s acc : list Z) : list (list Z) :=
  match s with
  | [] => [rev acc]
  | c :: r => if c =? 58 then rev acc :: split_colon r [] else split_colon r (c :: acc)
  end.
Fixpoint write_sizes (names : list (list Z)) (out : list Z) : outcome (list Z) :=
  match names with
  | [] => write_out (host_bytes big 4 0) out
  | n :: r =>
      match e_file E n with
      | None => Exit 1
      | Some data => out ← write_out (host_bytes big 4 (cpu_to_be32 big (u32 (zlen data)))) out; write_sizes r out
      end
  end.
Fixpoint copy_files (p : mkimage_params) (tparams : image_type_params) (names : list (list Z)) (out : list Z) : outcome (list Z) :=
  match names with
  | [] => Ok out
  | [n] => copy_file p tparams n false out
  | n :: r => out ← copy_file p tparams n true out; copy_files p tparams r out
  end.

Definition mk_data (p : mkimage_params) (tparams : image_type_params) (out : list Z) : outcome (list Z) :=
  if (p_type p =? IH_TYPE_MULTI) || (p_type p =? IH_TYPE_SCRIPT) then
    match datafile p with
    | None => out ← write_sizes [] out; UB (* strchr (NULL, ':') *)
    | Some names => out ← write_sizes (split_colon names []) out; copy_files p tparams (split_colon names []) out
    end
  else match datafile p with
       | None => Exit 1
       | Some name => copy_file p tparams name false out
       end.
Definition mk_write (p : mkimage_params) (tparams : image_type_params) : outcome (list Z * mk_report) :=
  if negb (e_creat E) then Exit 1 else
  out ← write_out (zrep (header_size tparams) 0) [];
  out ← mk_data p tparams out;
  if negb (e_map E out) then Exit 1 else
  match set_header tparams with
  | None => Exit 1
  | Some set =>
      img ← set out p;
      rep ← print_header tparams (mapped img);
      if e_close E then Ok (img, rep) else Exit 1
  end.

(** Listing; the exit status is what the last format's check answered. *)
Definition mk_list (registry : list image_type_params) (tparams : image_type_params) (image : option (list Z))
    : outcome (option mk_report) :=
  match image with
  | None => Exit 1
  | Some f =>
      if u32 (zlen f) <? header_size tparams then Exit 1 else
      if negb (e_map E f) then Exit 1 else
      x ← mkimage_verify_print_header registry (mapped f) (s32 (zlen f)) (-1);
      let '(retval, rep) := x in
      if retval =? 0 then Ok rep else Exit (Z.land retval 255)
  end.

(** The entry point when none is given, and the name of the image. *)
Definition mk_entry (p : mkimage_params) (tparams : image_type_params) (image : list Z) : mkimage_params :=
  let ep := if eflag p then p_ep p else u32 (p_addr p + (if negb (xflag p =? 0) then header_size tparams else 0)) in
  mkParams (dflag p) (eflag p) (fflag p) (lflag p) (vflag p) (xflag p) (p_os p) (p_arch p) (p_type p) (p_comp p)
    (p_addr p) ep (imagename p) (datafile p) image.

(** [main]: the image written, if one is, and the report. *)
Definition mkimage_main (argv : list (list Z)) : outcome (option (list Z) * option mk_report) :=
  x ← mk_args argv (params0, false);
  let '((p, foxconpad), rest) := x in
  match rest with
  | [image] =>
      let registry := mkimage_tparams foxconpad in
      match mkimage_get_type registry (p_type p) with
      | None => Exit 1
      | Some tparams =>
          if check_params tparams p then Exit 1 else
          let p := mk_entry p tparams image in
          if fflag p then
            match fflag_handle tparams with
            | Some handle => f ← handle p; rep ← mk_list registry tparams (Some f); Ok (Some f, rep)
            | None => rep ← mk_list registry tparams (e_image E); Ok (None, rep)
            end
          else if lflag p then rep ← mk_list registry tparams (e_image E); Ok (None, rep)
          else x ← mk_write p tparams; let '(img, rep) := x in Ok (Some img, Some rep)
      end
  | _ => Exit 1
  end.
End Mkimage.

(** ** An example *)

Definition env0 : mk_env := mkEnv (fun n => if streq n (str "kernel") then Some (str "KERNEL!") else if streq n (str "rd") then Some (str "ramdisk") else None)
  None true (fun _ => true) (fun _ => true) 1300000000 true.
Definition no_fit (p : mkimage_params) : outcome (list Z) := Exit 1.
Definition args0 : list (list Z) :=
  [str "-A"; str "mips"; str "-O"; str "linux"; str "-T"; str "kernel"; str "-C"; str "gzip"; str "-a"; str "80001000";
   str "-e"; str "80001100"; str "-n"; str "FreeBSD Kernel Image"; str "-d"; str "kernel"; str "kernel.uboot"].
Definition image0 : list Z :=
  match mkimage_main false env0 no_fit args0 with Ok (Some f, _) => f | _ => [] end.
Example image0_listed :
  mkimage_main true (mkEnv (fun _ => None) (Some image0) false (fun _ => false) (fun _ => true) 0 false) no_fit [str "-l"; str "x"] =
  Ok (None, Some (R_uimage (mkUReport (str "FreeBSD Kernel Image") 1300000000 (str "MIPS") (str "Linux") (str "Kernel Image")
    (str "gzip compressed") 7 0x80001000 0x80001100 []))).
Proof. vm_compute. reflexivity. Qed.

(** ** What is written *)

Section Written.
Context (big : bool) (E : mk_env) (fit_handle_file : mkimage_params -> outcome (list Z)).
(** The files are made of bytes. *)
Hypothesis Hfiles : forall n d, e_file E n = Some d -> Forall is_byte d.

Lemma mkimage_registry fox : mkimage_tparams big E fit_handle_file fox =
  [kwbimage_params big E; imximage_params big E; fitimage_params fit_handle_file; defimage_params big E fox].
Proof. reflexivity. Qed.
Lemma mkimage_default fox ty : 0 < ty < 8 -> mkimage_get_type (mkimage_tparams big E fit_handle_file fox) ty = Some (defimage_params big E fox).
Proof.
  intros Ht. rewrite mkimage_registry. assert (H : In ty [1; 2; 3; 4; 5; 6; 7]) by (cbn; lia).
  cbn [In] in H. by destruct_or? H; subst.
Qed.

(** Steps that add bytes at the end of the file. *)
Definition appends (f : list Z -> outcome (list Z)) : Prop :=
  forall out out', f out = Ok out' -> exists d, out' = out ++ d /\ Forall is_byte d.
Lemma appends_bind f g : appends f -> appends g -> appends (fun out => out ← f out; g out).
Proof.
  intros Hf Hg out out' H. apply bind_Ok in H as (o & Ho & H). apply Hf in Ho as (d & -> & Hd). apply Hg in H as (d' & -> & Hd').
  exists (d ++ d'). rewrite app_assoc. split; [done|]. by apply Forall_app.
Qed.
Lemma appends_Ok : appends Ok.
Proof. intros out out' [= <-]. exists []. by rewrite app_nil_r. Qed.
Lemma appends_stop r : (forall out, r <> Ok out) -> appends (fun _ => r).
Proof. intros Hr out out' H. by apply Hr in H. Qed.
Lemma appends_write d : Forall is_byte d -> appends (write_out E d).
Proof. intros Hd out out'. unfold write_out. destruct (e_write E _); [|done]. intros [= <-]. by exists d. Qed.
Lemma host_bytes_byte n v : Forall is_byte (host_bytes big n v).
Proof. unfold host_bytes. destruct big; [apply be_bytes_byte|apply le_bytes_is_byte]. Qed.
Lemma appends_sizes names : appends (write_sizes big E names).
Proof.
  induction names as [|n r IH]; cbn [write_sizes]; [by apply appends_write, host_bytes_byte|].
  destruct (e_file E n); [|by apply appends_stop]. apply (appends_bind (write_out E _)); [by apply appends_write, host_bytes_byte|done].
Qed.
Lemma appends_copy p tparams name pad : appends (copy_file E p tparams name pad).
Proof.
  intros out out' H. unfold copy_file in H. destruct (e_file E name) as [data|] eqn:Hd; [|done]. destruct (negb _); [done|].
  apply bind_Ok in H as (offset & _ & H). apply bind_Ok in H as (payload & Hp & H).
  apply bread_bytes in Hp as [_ Hp]; [|by eapply Hfiles]. revert out out' H.
  apply (appends_bind (write_out E payload)); [by apply appends_write|]. destruct (pad && _); [|apply appends_Ok].
  apply appends_write. by apply Forall_replicate.
Qed.
Lemma appends_files p tparams names : appends (copy_files E p tparams names).
Proof.
  induction names as [|n r IH]; [apply appends_Ok|]. destruct r as [|n' r]; [apply appends_copy|].
  change (copy_files E p tparams (n :: n' :: r)) with (fun out => out ← copy_file E p tparams n true out; copy_files E p tparams (n' :: r) out).
  by apply appends_bind; [apply appends_copy|].
Qed.
Lemma appends_data p tparams : appends (mk_data big E p tparams).
Proof.
  unfold mk_data. destruct (_ || _); (destruct (datafile p) as [names|]; [|intros out out' H; by inv_oks H]).
  - apply appends_bind; [apply appends_sizes|apply appends_files].
  - apply appends_copy.
Qed.

Lemma bwrite_length o d l l' : bwrite o d l = Ok l' -> zlen l' = zlen l.
Proof. intros H. apply bwrite_Ok in H as (-> & ? & ?). by apply zlen_splice. Qed.
Lemma image_set_header_length fox ptr n t p img : image_set_header big fox ptr n t p = Ok img -> zlen img = zlen ptr.
Proof.
  unfold image_set_header. intros H. repeat (apply bind_Ok in H as (? & ? & H)).
  repeat match goal with
    | H : image_set_l _ _ _ _ = Ok _ |- _ => apply bwrite_length in H
    | H : image_set_b _ _ _ = Ok _ |- _ => apply bwrite_length in H
    | H : image_set_name _ _ = Ok _ |- _ => apply bwrite_length in H
    end. congruence.
Qed.
Lemma mk_write_image fox p img rep : Forall is_byte (imagename p) -> zlen img < 2 ^ 31 ->
  mk_write big E p (defimage_params big E fox) = Ok (img, rep) ->
  exists data r, mk_data big E p (defimage_params big E fox) (zrep (IM_HEADERSIZE fox) 0) = Ok (zrep (IM_HEADERSIZE fox) 0 ++ data) /\
    Forall is_byte data /\ zlen img = IM_HEADERSIZE fox + zlen data /\ img = concat (uimage fox (e_mtime E) p data) /\
    rep = R_uimage r /\ image_print_contents big (mapped img) = Ok r.
Proof.
  intros Hn Hl H. unfold mk_write in H. destruct (negb _); [done|]. apply bind_Ok in H as (o1 & H1 & H). unfold write_out in H1.
  destruct (e_write E _); [|done]. injection H1 as <-. cbn [app] in H. cbn [header_size defimage_params] in H.
  apply bind_Ok in H as (o2 & H2 & H). destruct (appends_data _ _ _ _ H2) as (data & -> & Hd). destruct (negb _); [done|].
  cbn [set_header defimage_params] in H. apply bind_Ok in H as (i & Hi & H). apply bind_Ok in H as (rp & Hr & H).
  destruct (e_close E); [|done]. injection H as -> ->. cbn [print_header defimage_params] in Hr. apply bind_Ok in Hr as (r & Hr & [= <-]).
  pose proof (image_set_header_length _ _ _ _ _ _ Hi) as Hlen.
  assert (Ho : zlen (zrep (IM_HEADERSIZE fox) 0 ++ data) = IM_HEADERSIZE fox + zlen data) by (rewrite zlen_app, zlen_rep; by destruct fox).
  rewrite Ho in *. assert (0 < IM_HEADERSIZE fox) by (by destruct fox). rewrite image_set_header_ok in Hi by (done || lia). injection Hi as <-.
  by exists data, r.
Qed.
End Written.

(** ** Listing what was written *)

(** The bytes in front of the 32nd sum up to it: such an image looks like one of Kirkwood. *)
Definition kwb_alike (img : list Z) : bool := foldr Z.add 0 (take 31 img) mod 256 =? znth img 31.

Section Listed.
Context (big : bool) (E : mk_env) (fit : mkimage_params -> outcome (list Z)).
Context (fox : bool) (mtime : Z) (p : mkimage_params) (data : list Z).
Hypothesis (Hd : Forall is_byte data) (Hn : Forall is_byte (imagename p)).
Hypothesis (Hl : IM_HEADERSIZE fox + zlen data < 2 ^ 31) (Hty : 0 < p_type p < 8).
Let img : list Z := concat (uimage fox mtime p data).
Let m : list Z := mapped img.

Lemma uimage_length : zlen img = IM_HEADERSIZE fox + zlen data.
Proof.
  unfold img, uimage. rewrite zlen_concat, fields_sizes, header_total. unfold uimage_sizes, total. cbn [foldr]. lia.
Qed.
Lemma mapped_tail : exists tail, m = concat (with_tail fox mtime p data tail).
Proof. exists (zrep ((- zlen img) mod PAGE_SIZE) 0). by rewrite concat_with_tail. Qed.
Lemma mapped_length : 4096 <= zlen m.
Proof.
  unfold m, mapped. rewrite zlen_app, zlen_rep, uimage_length, header_total. pose proof (zlen_nonneg data). pose proof (pad_size_nonneg fox).
  unfold PAGE_SIZE. dlia.
Qed.
Lemma mapped_bytes : Forall is_byte m.
Proof.
  unfold m, mapped, img, uimage. apply Forall_app. split; [|unfold zrep; by apply Forall_replicate].
  rewrite <- (take_drop 13 (uimage_fields _ _ _ _ _ _)), concat_app. apply Forall_app. split; [by apply be_fields_byte|].
  cbn. by rewrite app_nil_r.
Qed.
Lemma mapped_read o n : 0 <= o -> 0 <= n -> o + n <= 4096 -> bread o n m = Ok (slice o n m).
Proof. intros. pose proof mapped_length. by rewrite bread_in by lia. Qed.
Lemma mapped_word o : 0 <= o -> o + 4 <= 4096 -> get_word big o m = Ok (host_val big (slice o 4 m)).
Proof. intros H1 H2. unfold get_word. by rewrite mapped_read. Qed.

Lemma not_dcd_barker a b t d : is_byte a -> is_byte b -> is_byte d -> 0 < t < 8 -> host_val big [a; b; t; d] <> DCD_BARKER.
Proof.
  unfold is_byte, DCD_BARKER. intros Ha Hb Hc Ht He. destruct big; cbn [host_val] in He; unfold be_val in He; cbn [rev app le_val] in He.
  - assert (b + 256 * a = 2977044969 / 65536) by (apply Z.div_unique with (d + 256 * t); lia).
    change (2977044969 / 65536) with 45426 in *. lia.
  - assert (t + 256 * d = 2977044969 / 65536) by (apply Z.div_unique with (a + 256 * b); lia).
    change (2977044969 / 65536) with 45426 in *. lia.
Qed.
(** The format of i.MX wants two barkers, the second where the type is. *)
Lemma imx_refuses : imximage_verify_header big m = Ok (- FDT_ERR_BADSTRUCTURE).
Proof.
  unfold imximage_verify_header. rewrite !mapped_word by done. bsimpl. destruct (negb _); [done|].
  destruct mapped_tail as [tail Hm].
  assert (Hw : slice imx_dcd_table 4 m = [u8 (p_os p); u8 (p_arch p); u8 (p_type p); u8 (p_comp p)]).
  { pose proof (with_tail_sizes fox mtime p data tail) as Hs. revert Hs Hm. set (f := with_tail fox mtime p data tail). intros Hs Hm.
    apply (slice_at (concat (take 7 f)) _ (concat (drop 11 f))); [rewrite Hm; cbn [f]; unfold f, with_tail, uimage, uimage_fields; cbn [take drop app concat]; by rewrite <- ?app_assoc| |done].
    rewrite zlen_concat. change (map zlen (take 7 f)) with (zlen <$> take 7 f). rewrite fmap_take. change (zlen <$> f) with (map zlen f). by rewrite Hs. }
  rewrite Hw, (proj2 (Z.eqb_neq _ DCD_BARKER)); [done|]. assert (H8 : forall v, is_byte (u8 v)) by (intros; apply Z.mod_pos_bound; lia).
  apply not_dcd_barker; [done..|]. unfold u8. rewrite Z.mod_small; lia.
Qed.
Lemma fdt_refuses : lower (fdt_check_header m) = Ok (- FDT_ERR_BADMAGIC).
Proof.
  destruct mapped_tail as [tail ->]. pose proof (get_l_field true 0 _ _ 0 IH_MAGIC (with_tail_sizes fox mtime p data tail) eq_refl eq_refl) as Em.
  unfold fdt_check_header, fdt_get_header, ld32, rread. unfold image_get_l in Em. change (4 * 0) with 0.
  destruct (bread 0 4 _) as [d|e|]; [|done..]. revert Em. bsimpl. cbn [be32_to_cpu host_val]. rsimpl. intros [= Ed]. by rewrite Ed.
Qed.
Lemma default_accepts : image_verify_header big fox m (zlen img) = Ok 0.
Proof. destruct mapped_tail as [tail ->]. rewrite uimage_length. pose proof (zlen_nonneg data). apply image_verify_ok; [done..|]. rewrite header_total in Hl. pose proof (pad_size_nonneg fox). lia. Qed.
(** Kirkwood's check is a sum of bytes, which other images can have too. *)
Lemma kwb_verdict : kwbimage_verify_header m = Ok (if kwb_alike img then 0 else - FDT_ERR_BADSTRUCTURE).
Proof.
  assert (64 <= zlen img) as H64.
  { rewrite uimage_length, header_total. pose proof (zlen_nonneg data). pose proof (pad_size_nonneg fox). lia. }
  unfold kwbimage_verify_header. rewrite !mapped_read by done. bsimpl. unfold m, mapped, kwb_alike.
  rewrite !slice_prefix by (unfold sizeof_bhr, kwb_checkSum; lia).
  assert (slice 0 (sizeof_bhr - 1) img = take 31 img) as -> by done.
  rewrite checksum8_sum by (destruct img; [rewrite zlen_nil in H64; lia|done]).
  rewrite (slice_head img) by (unfold kwb_checkSum; lia). change (znth (znth img kwb_checkSum :: _) 0) with (znth img 31).
  by destruct (_ =? _).
Qed.
Lemma kwb_prints : exists k, kwbimage_print_header big m = Ok k.
Proof.
  unfold kwbimage_print_header. rewrite mapped_read by done. bsimpl.
  destruct (table_name_found kwbimage_bootops (str "Kwbimage boot option") (znth (slice kwb_blockid 1 m) 0) eq_refl) as [name ->]. bsimpl. rewrite !mapped_word by done. bsimpl. eexists. reflexivity.
Qed.

(** The registry on the image, whose print is [r]. *)
Lemma registry_lists r : image_print_contents big m = Ok r ->
  exists rep, mkimage_verify_print_header (mkimage_tparams big E fit fox) m (zlen img) (-1) = Ok (0, Some rep) /\
    (rep = R_uimage r \/ kwb_alike img = true /\ exists k, rep = R_kwb k).
Proof.
  intros Hr. rewrite mkimage_registry. cbn [mkimage_verify_print_header verify_header print_header kwbimage_params imximage_params fitimage_params defimage_params].
  rewrite kwb_verdict. destruct kwb_prints as [k Hk]. bsimpl. destruct (kwb_alike img); [change (0 =? 0) with true | change (- FDT_ERR_BADSTRUCTURE =? 0) with false]; cbv iota.
  - rewrite Hk. eexists. split; [done|]. right. split; [done|]. by exists k.
  - rewrite imx_refuses. bsimpl. rewrite fdt_refuses. bsimpl. rewrite default_accepts. bsimpl. cbn [Z.eqb]. rewrite Hr. eexists. split; [done|]. by left.
Qed.
End Listed.

(** ** The commands *)

Lemma main_writes big E fit argv p fox image img rep :
  mk_args argv (params0, false) = Ok ((p, fox), [image]) -> 0 < p_type p < 8 ->
  mkimage_main big E fit argv = Ok (Some img, rep) ->
  exists rep', rep = Some rep' /\
    mk_write big E (mk_entry p (defimage_params big E fox) image) (defimage_params big E fox) = Ok (img, rep').
Proof.
  intros Ha Ht H. unfold mkimage_main in H. rewrite Ha in H. bsimpl in H. rewrite mkimage_default in H by done.
  destruct (check_params _ _); [done|]. cbn [fflag_handle defimage_params] in H. destruct (fflag _); [by inv_oks H|].
  destruct (lflag _); [by inv_oks H|]. inv_oks H. by eexists.
Qed.
(** The command that lists an image made with or without [-p]. *)
Definition list_args (fox : bool) (f : list Z) : list (list Z) := if fox then [str "-p"; str "-l"; f] else [str "-l"; f].
Lemma list_args_parsed fox f : head f <> Some 45 ->
  mk_args (list_args fox f) (params0, false) =
  Ok (mkParams false false false true 0 0 IH_OS_LINUX IH_ARCH_PPC IH_TYPE_KERNEL IH_COMP_GZIP 0 0 [] None [], fox, [f]).
Proof.
  intros Hf. destruct f as [|c r]; [by destruct fox|]. cbn in Hf. destruct fox; cbn; repeat (case_match; try done).
Qed.

(** ** Multi-file images *)

Definition files_are (E : mk_env) : list (list Z) -> list (list Z) -> Prop := Forall2 (fun n d => e_file E n = Some d).

Section Multi.
Context (big : bool) (E : mk_env) (p : mkimage_params) (tparams : image_type_params).
Hypothesis Hx : xflag p = 0.

Lemma write_sizes_table names ds out out' : files_are E names ds -> write_sizes big E names out = Ok out' -> out' = out ++ size_table ds.
Proof.
  intros Hf. revert out. induction Hf as [|n d names ds Hn Hf IH]; intros out H; cbn [write_sizes] in H.
  - unfold write_out in H. destruct (e_write E _); [|done]. injection H as <-. by destruct big.
  - rewrite Hn in H. apply bind_Ok in H as (o & Ho & H). unfold write_out in Ho. destruct (e_write E _); [|done]. injection Ho as <-.
    rewrite (IH _ H), set_bytes, <- app_assoc. done.
Qed.
Lemma copy_file_appends name d pad out out' : e_file E name = Some d -> component_ok d ->
  copy_file E p tparams name pad out = Ok out' -> out' = out ++ (if pad then pad4 d else d).
Proof.
  intros Hn Hd H. unfold component_ok in Hd. unfold copy_file in H. rewrite Hn, Hx in H. destruct (negb (e_map E d)); [done|].
  change (negb (0 =? 0)) with false in H. cbv iota in H. bsimpl in H. rewrite Z.sub_0_r, s32_small, bread_in in H by lia.
  unfold slice, ztake, zdrop in H. change (Z.to_nat 0) with 0%nat in H. rewrite drop_0, take_ge in H by (unfold zlen; lia). bsimpl in H.
  apply bind_Ok in H as (o & Ho & H). unfold write_out in Ho. destruct (e_write E _); [|done]. injection Ho as <-. unfold pad4.
  rewrite Z.rem_mod_nonneg in H by lia. destruct pad; cbn [andb] in H; [|by injection H as <-].
  destruct (zlen d mod 4 =? 0) eqn:Em; cbn [negb] in H.
  - apply Z.eqb_eq in Em. injection H as <-. replace ((- zlen d) mod 4) with 0 by dlia. cbn. by rewrite app_nil_r.
  - apply Z.eqb_neq in Em. unfold write_out in H. destruct (e_write E _); [|done]. injection H as <-. rewrite <- app_assoc.
    by replace ((- zlen d) mod 4) with (4 - zlen d mod 4) by dlia.
Qed.
Lemma copy_files_body names ds out out' : files_are E names ds -> Forall component_ok ds ->
  copy_files E p tparams names out = Ok out' -> out' = out ++ multi_body ds.
Proof.
  intros Hf. revert out. induction Hf as [|n d names ds Hn Hf IH]; intros out Hc H.
  - injection H as <-. cbn. by rewrite app_nil_r.
  - apply Forall_cons in Hc as [Hd Hc]. destruct Hf as [|n' d' names ds Hn' Hf].
    + by apply (copy_file_appends _ _ _ _ _ Hn Hd) in H.
    + change ((out0 ← copy_file E p tparams n true out; copy_files E p tparams (n' :: names) out0) = Ok out') in H.
      apply bind_Ok in H as (o & Ho & H). apply (copy_file_appends _ _ _ _ _ Hn Hd) in Ho as ->. rewrite (IH _ Hc H), <- app_assoc. done.
Qed.
Lemma mk_data_multi names ds out out' : p_type p = IH_TYPE_MULTI \/ p_type p = IH_TYPE_SCRIPT -> datafile p = Some names ->
  files_are E (split_colon names []) ds -> Forall component_ok ds ->
  mk_data big E p tparams out = Ok out' -> out' = out ++ multi_payload ds.
Proof.
  intros Ht Hn Hf Hc H. unfold mk_data in H. replace ((p_type p =? _) || _) with true in H by (destruct Ht as [-> | ->]; done).
  rewrite Hn in H. apply bind_Ok in H as (o & Ho & H). apply (write_sizes_table _ _ _ _ Hf) in Ho as ->.
  rewrite (copy_files_body _ _ _ _ Hf Hc H). unfold multi_payload. by rewrite app_assoc.
Qed.
End Multi.

(** ** The command line's values *)

(** A number of a table, not its end mark. *)
Definition in_table (table : list table_entry) (i : Z) : Prop := 0 <= i /\ i ∈ map te_id table.
Definition params_ok (p : mkimage_params) : Prop :=
  in_table uimage_os (p_os p) /\ in_table uimage_arch (p_arch p) /\ in_table uimage_type (p_type p) /\ in_table uimage_comp (p_comp p) /\
  0 <= p_addr p < 2 ^ 32 /\ 0 <= p_ep p < 2 ^ 32.
Definition no_option (rest : list (list Z)) : Prop := match rest with (45 :: _) :: _ => False | _ => True end.
Definition mk_result_ok (r : outcome (mk_state * list (list Z))) : Prop :=
  match r with Ok (p, _, rest) => params_ok p /\ no_option rest | Exit c => c = 1 | UB => False end.
(** A step of the parser: it ends the program with status 1 or keeps the values good. *)
Definition mk_step_ok (r : outcome mk_state) : Prop := match r with Ok (p, _) => params_ok p | Exit c => c = 1 | UB => False end.

Lemma checked_id table name : ends table = true ->
  (exists i, checked (get_table_entry_id table name) = Ok i /\ in_table table i) \/ checked (get_table_entry_id table name) = Exit 1.
Proof.
  intros He. destruct (table_id_found table name He) as [i Hi]. unfold checked. rewrite Hi. bsimpl. destruct (i <? 0) eqn:Ei; [by right|].
  apply Z.ltb_ge in Ei. left. exists i. split; [done|]. split; [done|]. clear He. induction table as [|t r IH]; [done|].
  cbn [get_table_entry_id map] in *. apply list_elem_of_In. destruct (te_id t <? 0); [injection Hi as <-; lia|].
  destruct (match te_sname t with Some s => _ | None => _ end); [injection Hi as <-; by left|]. right. apply list_elem_of_In. by apply IH.
Qed.
Lemma hex_value_ok v : (exists n, hex_value v = Ok n /\ 0 <= n < 2 ^ 32) \/ hex_value v = Exit 1.
Proof. unfold hex_value. destruct (strtoul v 16) as [[n rest] o]. destruct rest; [left|by right]. eexists. split; [done|]. apply u32_range. Qed.
Lemma flatdt_in_table : in_table uimage_type IH_TYPE_FLATDT.
Proof. split; [done|]. apply (bool_decide_unpack _). vm_compute. exact I. Qed.
Lemma mk_flag_ok c s : params_ok (fst s) -> mk_step_ok (mk_flag c s).
Proof. destruct s as [[] fox]. intros H. unfold mk_flag. repeat case_match; done. Qed.
Lemma mk_value_ok c v s : params_ok (fst s) -> mk_step_ok (mk_value c v s).
Proof.
  destruct s as [[] fox]. intros (H1 & H2 & H3 & H4 & H5 & H6). unfold mk_value, genimg_get_arch_id, genimg_get_comp_id, genimg_get_os_id, genimg_get_type_id.
  repeat match goal with |- context [if ?b then _ else _] => destruct b end; try done;
    try (match goal with |- context [checked (get_table_entry_id ?t v)] => destruct (checked_id t v eq_refl) as [(i & -> & Hi)| ->] end; done);
    try (destruct (hex_value_ok v) as [(n & -> & Hn)| ->]; done).
  exact (conj H1 (conj H2 (conj flatdt_in_table (conj H4 (conj H5 H6))))).
Qed.
Lemma mk_args_ok n argv s : (length argv <= n)%nat -> params_ok (fst s) -> mk_result_ok (mk_args argv s).
Proof.
  revert argv s. induction n as [|n IH]; intros argv s Hl Hs; (destruct argv as [|a r]; [destruct s; done|]); [cbn in Hl; lia|].
  cbn in Hl. assert (Hd : no_option (a :: r) \/ exists letters, a = 45 :: letters).
  { unfold no_option. repeat case_match; try (by left); subst. right. by eexists. }
  destruct Hd as [Hd|[letters ->]].
  { destruct s as [p fox]. cbn [mk_args]. unfold no_option in Hd. by repeat case_match. }
  cbn [mk_args]. revert s Hs. induction letters as [|c letters IHl]; intros s Hs; [apply IH; [lia|done]|].
  destruct (takes_value c).
  - destruct r as [|v r']; [done|]. pose proof (mk_value_ok c v s Hs) as Hv. destruct (mk_value c v s) as [s'|e|]; bsimpl; [|done..].
    apply IH; [cbn in Hl; lia|]. by destruct s'.
  - pose proof (mk_flag_ok c s Hs) as Hf. destruct (mk_flag c s) as [s'|e|]; bsimpl; [|done..]. apply IHl. by destruct s'.
Qed.

(** ** Theorems *)

(** C18: an image of one of the types mkimage makes itself (standalone to filesystem),
    written on a host of any byte order, is accepted when it is listed on a host of any
    byte order with the same [-p], and the listing is the one printed when the image was
    made: name, time, size, load address and entry point are those asked for.  The
    exception are images whose first 31 bytes sum up to the 32nd (modulo 256): they can
    come out as Kirkwood images, whose check comes first and is this sum only. *)
Theorem mkimage_listed big big' E E' fit fit' argv p fox image img rep f :
  (forall n d, e_file E n = Some d -> Forall is_byte d) ->
  mk_args argv (params0, false) = Ok (p, fox, [image]) -> 0 < p_type p < 8 -> Forall is_byte (imagename p) ->
  mkimage_main big E fit argv = Ok (Some img, rep) -> zlen img < 2 ^ 31 ->
  e_image E' = Some img -> e_map E' img = true -> head f <> Some 45 ->
  exists r rep', rep = Some (R_uimage r) /\
    mkimage_main big' E' fit' (list_args fox f) = Ok (None, Some rep') /\
    (rep' = R_uimage r \/ foldr Z.add 0 (take 31 img) mod 256 = znth img 31 /\ exists k, rep' = R_kwb k) /\
    r_name r = cstr (strncpy_field IH_NMLEN (imagename p)) /\ r_time r = u32 (e_mtime E) /\
    r_size r = zlen img - IM_HEADERSIZE fox /\ r_load r = u32 (p_addr p) /\
    r_ep r = u32 (p_ep (mk_entry p (defimage_params big E fox) image)).
Proof.
  intros Hfile Hargs Ht Hn Hmain Hl Himg Hmap Hf. destruct (main_writes _ _ _ _ _ _ _ _ _ Hargs Ht Hmain) as (rp & -> & Hw).
  set (q := mk_entry p (defimage_params big E fox) image) in *.
  destruct (mk_write_image big E Hfile fox q img rp Hn Hl Hw) as (data & r & _ & Hd & Hlen & Himg' & -> & Hr).
  assert (Hq : 0 < p_type q < 8) by done. rewrite Hlen in Hl.
  assert (Hr' : image_print_contents big' (mapped img) = Ok r).
  { rewrite <- Hr. apply image_print_host. rewrite Himg'. by apply mapped_bytes. }
  destruct (registry_lists big' E' fit' fox (e_mtime E) q data Hd Hn Hl Hq r) as (rep' & Hrep & Hcase); [by rewrite <- Himg'|].
  rewrite <- Himg' in Hrep, Hcase. unfold kwb_alike in Hcase. rewrite Z.eqb_eq in Hcase. exists r, rep'. split; [done|]. split.
  - unfold mkimage_main. rewrite list_args_parsed by done. bsimpl. rewrite mkimage_default by done.
    cbn [check_params defimage_params fflag lflag mk_entry]. change (image_check_params _) with false. cbv iota. unfold mk_list.
    rewrite Himg, Hmap. rewrite <- Hlen in Hl. pose proof (zlen_nonneg img). pose proof (zlen_nonneg data). rewrite u32_small by lia.
    cbn [header_size defimage_params]. rewrite (proj2 (Z.ltb_ge _ _)) by lia. cbn [negb]. rewrite s32_small by lia. by rewrite Hrep.
  - split; [done|]. destruct (mapped_tail fox (e_mtime E) q data) as [tail Htail]. rewrite <- Himg' in Htail. rewrite Htail in Hr.
    apply print_fields in Hr as (-> & -> & -> & -> & ->); [|rewrite header_total in Hl; pose proof (pad_size_nonneg fox); lia]. repeat split; [|done..]. lia.
Qed.

Definition env0_list : mk_env := mkEnv (fun _ => None) (Some image0) false (fun _ => false) (fun _ => true) 0 false.
Lemma env0_bytes n d : e_file env0 n = Some d -> Forall is_byte d.
Proof. cbn. repeat case_match; intros [= <-]; apply (bool_decide_unpack _); vm_compute; exact I. Qed.
Lemma mkimage_listed_witness :
  exists r rep', snd (default (None, None) (match mkimage_main false env0 no_fit args0 with Ok x => Some x | _ => None end)) = Some (R_uimage r) /\
    mkimage_main true env0_list no_fit [str "-l"; str "x"] = Ok (None, Some rep') /\ r_size r = 7 /\ r_ep r = 0x80001100.
Proof.
  assert (Hm : exists p rep, mk_args args0 (params0, false) = Ok (p, false, [str "kernel.uboot"]) /\ 0 < p_type p < 8 /\ Forall is_byte (imagename p) /\
    p_ep (mk_entry p (defimage_params false env0 false) (str "kernel.uboot")) = 0x80001100 /\
    mkimage_main false env0 no_fit args0 = Ok (Some image0, rep)).
  { eexists _, _. split; [vm_compute; reflexivity|]. split; [by vm_compute|]. split; [apply (bool_decide_unpack _); vm_compute; exact I|].
    split; vm_compute; reflexivity. }
  destruct Hm as (p & rep & Ha & Ht & Hn & Hep & Hm).
  destruct (mkimage_listed false true env0 env0_list no_fit no_fit args0 p false (str "kernel.uboot") image0 rep (str "x"))
    as (r & rep' & Hr & Hl & _ & _ & _ & Hs & _ & He); [apply env0_bytes|exact Ha|exact Ht|exact Hn|exact Hm|by vm_compute|done|done|done|].
  exists r, rep'. rewrite Hm. split; [exact Hr|]. split; [exact Hl|]. rewrite Hs, He, Hep. split; vm_compute; reflexivity.
Defined.

Definition args_multi : list (list Z) := [str "-p"; str "-T"; str "multi"; str "-d"; str "kernel:rd"; str "multi.uboot"].
Definition image_multi : list Z :=
  match mkimage_main false env0 no_fit args_multi with Ok (Some f, _) => f | _ => [] end.

(** C19: in a multi-file image or a script made with [-p] and without [-x] every component is found again:
    on any host the table has as many entries as there were files after [-d], and the
    offset and length [image_multi_getimg] gives for entry [i] lead to exactly the bytes
    of file [i], whatever the padding between the files. *)
Theorem mkimage_multi_components big big' E fit argv p image names ds img rep :
  (forall n d, e_file E n = Some d -> Forall is_byte d) ->
  mk_args argv (params0, false) = Ok (p, true, [image]) -> p_type p = IH_TYPE_MULTI \/ p_type p = IH_TYPE_SCRIPT ->
  xflag p = 0 -> Forall is_byte (imagename p) -> datafile p = Some names ->
  files_are E (split_colon names []) ds -> Forall component_ok ds ->
  mkimage_main big E fit argv = Ok (Some img, rep) -> zlen img < 2 ^ 31 ->
  image_multi_count big' img = Ok (zlen ds) /\
  forall i d, ds !! i = Some d ->
    exists off, image_multi_getimg big' img (Z.of_nat i) = Ok (off, zlen d) /\ slice off (zlen d) img = d.
Proof.
  intros Hfile Hargs Ht Hx Hn Hnames Hf Hc Hmain Hl.
  destruct (main_writes _ _ _ _ _ _ _ _ _ Hargs ltac:(destruct Ht as [-> | ->]; done) Hmain) as (rp & -> & Hw).
  set (q := mk_entry p (defimage_params big E true) image) in *.
  destruct (mk_write_image big E Hfile true q img rp Hn Hl Hw) as (data & r & Hdata & Hd & Hlen & -> & _ & _).
  apply (mk_data_multi big E q _ Hx names ds) in Hdata; [|done..]. apply app_inv_head in Hdata as ->.
  set (h := concat (take 13 (uimage true (e_mtime E) q (multi_payload ds)))).
  assert (Hh : zlen h = image_get_data).
  { unfold h. rewrite zlen_concat. set (f := uimage _ _ _ _). change (map zlen (take 13 f)) with (zlen <$> take 13 f). rewrite fmap_take.
    change (zlen <$> f) with (map zlen f). unfold f, uimage. by rewrite fields_sizes. }
  assert (Himg : concat (uimage true (e_mtime E) q (multi_payload ds)) = h ++ size_table ds ++ multi_body ds).
  { rewrite <- (take_drop 13 (uimage true _ _ _)), concat_app. unfold h. f_equal. cbn [uimage uimage_fields drop concat]. apply app_nil_r. }
  rewrite Himg. split; [by apply image_multi_count_table|]. intros i d Hi. destruct (multi_body_split ds i d Hi) as [rest Hrest].
  by apply (image_multi_getimg_table big' h ds (multi_body ds) Hh Hc i d rest).
Qed.
Lemma mkimage_multi_components_witness :
  image_multi_count true image_multi = Ok 2 /\
  exists off, image_multi_getimg true image_multi 1 = Ok (off, 7) /\ slice off 7 image_multi = str "ramdisk".
Proof.
  assert (Hm : exists p rep, mk_args args_multi (params0, false) = Ok (p, true, [str "multi.uboot"]) /\ p_type p = IH_TYPE_MULTI /\ xflag p = 0 /\
    imagename p = [] /\ datafile p = Some (str "kernel:rd") /\ mkimage_main false env0 no_fit args_multi = Ok (Some image_multi, rep)).
  { eexists _, _. repeat (split; [vm_compute; reflexivity|]). vm_compute; reflexivity. }
  destruct Hm as (p & rep & Ha & Ht & Hx & Hn & Hd & Hm).
  destruct (mkimage_multi_components false true env0 no_fit args_multi p (str "multi.uboot") (str "kernel:rd")
    [str "KERNEL!"; str "ramdisk"] image_multi rep) as [Hcount Hget]; [apply env0_bytes|exact Ha|by left|exact Hx|by rewrite Hn|exact Hd| | |exact Hm|by vm_compute|].
  - by repeat constructor.
  - by repeat constructor.
  - split; [exact Hcount|]. exact (Hget 1%nat (str "ramdisk") eq_refl).
Defined.

(** Without [-p] the header has 64 bytes, but the table is looked for behind 96: here that
    is behind the end of the file, and the listing finds no component. *)
Example multi_without_pad :
  match mkimage_main false env0 no_fit (tail args_multi) with
  | Ok (Some f, _) => (image_multi_count true (mapped f), slice (64 + 12) 7 f) = (Ok 0, str "KERNEL!")
  | _ => False
  end.
Proof. vm_compute. reflexivity. Qed.

(** With [-x] the table has the sizes of the files, but the copies lack a header's worth of
    bytes: the second component is looked for behind the end of the image. *)
Definition env_xip : mk_env :=
  mkEnv (fun n => if streq n (str "kernel") then Some (zrep 96 255 ++ str "KERNEL!!") else
                  if streq n (str "rd") then Some (zrep 96 255 ++ str "ramdisk.") else None)
    None true (fun _ => true) (fun _ => true) 1300000000 true.
Example multi_xip :
  match mkimage_main false env_xip no_fit (str "-x" :: args_multi) with
  | Ok (Some f, _) => (image_multi_getimg true (mapped f) 1, slice 108 16 f, zlen f)
                      = (Ok (212, 104), str "KERNEL!!ramdisk.", 124)
  | _ => False
  end.
Proof. vm_compute. reflexivity. Qed.

(** C33: the command line is either refused with status 1 or leaves well-typed parameters:
    operating system, architecture, type and compression are numbers of their tables, the
    load address and the entry point fit in 32 bits, and what is left of the line does not
    begin with an option.  No command line makes the parser search beyond a table or read
    an argument that is not there. *)
Theorem mk_args_typed argv : mk_result_ok (mk_args argv (params0, false)).
Proof.
  apply (mk_args_ok (length argv)); [done|]. unfold params_ok, in_table. cbn.
  repeat split; try lia; apply (bool_decide_unpack _); vm_compute; exact I.
Qed.
