(* ===== verification/DnsTypes.v ===== *)
(** * The numbers of the DNS protocol (contrib/spcdns/src/dns.h)

    Record types, classes, operations and response codes, and the layout of the C types
    on the machine the codec is compiled for. *)

From S2P Require Import Prelude CLib.

(** Record types. *)
Definition RR_A : Z := 1.
Definition RR_NS : Z := 2.
Definition RR_MD : Z := 3.
Definition RR_MF : Z := 4.
Definition RR_CNAME : Z := 5.
Definition RR_SOA : Z := 6.
Definition RR_MB : Z := 7.
Definition RR_MG : Z := 8.
Definition RR_MR : Z := 9.
Definition RR_NULL : Z := 10.
Definition RR_WKS : Z := 11.
Definition RR_PTR : Z := 12.
Definition RR_HINFO : Z := 13.
Definition RR_MINFO : Z := 14.
Definition RR_MX : Z := 15.
Definition RR_TXT : Z := 16.
Definition RR_RP : Z := 17.
Definition RR_AFSDB : Z := 18.
Definition RR_X25 : Z := 19.
Definition RR_ISDN : Z := 20.
Definition RR_RT : Z := 21.
Definition RR_NSAP : Z := 22.
Definition RR_NSAP_PTR : Z := 23.
Definition RR_SIG : Z := 24.
Definition RR_KEY : Z := 25.
Definition RR_PX : Z := 26.
Definition RR_GPOS : Z := 27.
Definition RR_AAAA : Z := 28.
Definition RR_LOC : Z := 29.
Definition RR_NXT : Z := 30.
Definition RR_EID : Z := 31.
Definition RR_NIMLOC : Z := 32.
Definition RR_SRV : Z := 33.
Definition RR_ATM : Z := 34.
Definition RR_NAPTR : Z := 35.
Definition RR_KX : Z := 36.
Definition RR_CERT : Z := 37.
Definition RR_A6 : Z := 38.
Definition RR_DNAME : Z := 39.
Definition RR_SINK : Z := 40.
Definition RR_OPT : Z := 41.
Definition RR_APL : Z := 42.
Definition RR_DS : Z := 43.
Definition RR_SSHFP : Z := 44.
Definition RR_ISECKEY : Z := 45.
Definition RR_RRSIG : Z := 46.
Definition RR_NSEC : Z := 47.
Definition RR_DNSKEY : Z := 48.
Definition RR_DHCID : Z := 49.
Definition RR_NSEC3 : Z := 50.
Definition RR_NSEC3PARAM : Z := 51.
Definition RR_HIP : Z := 55.
Definition RR_NINFO : Z := 56.
Definition RR_RKEY : Z := 57.
Definition RR_TALINK : Z := 58.
Definition RR_SPF : Z := 99.
Definition RR_UINFO : Z := 100.
Definition RR_UID : Z := 101.
Definition RR_GID : Z := 102.
Definition RR_UNSPEC : Z := 103.
Definition RR_TKEY : Z := 249.
Definition RR_TSIG : Z := 250.
Definition RR_IXFR : Z := 251.
Definition RR_AXFR : Z := 252.
Definition RR_MAILB : Z := 253.
Definition RR_MAILA : Z := 254.
Definition RR_ANY : Z := 255.
Definition RR_UNKNOWN : Z := 65280.

(** Options of EDNS. *)
Definition EDNS0RR_NSID : Z := 3.

(** Classes. *)
Definition CLASS_IN : Z := 1.
Definition CLASS_CS : Z := 2.
Definition CLASS_CH : Z := 3.
Definition CLASS_HS : Z := 4.
Definition CLASS_NONE : Z := 254.
Definition CLASS_ANY : Z := 255.
Definition CLASS_UNKNOWN : Z := 65280.

(** Operations. *)
Definition OP_QUERY : Z := 0.
Definition OP_IQUERY : Z := 1.
Definition OP_STATUS : Z := 2.
Definition OP_NOTIFY : Z := 4.
Definition OP_UPDATE : Z := 5.
Definition OP_UNKNOWN : Z := 1.

(** Response codes. *)
Definition RCODE_OKAY : Z := 0.
Definition RCODE_FORMAT_ERROR : Z := 1.
Definition RCODE_SERVER_FAILURE : Z := 2.
Definition RCODE_NAME_ERROR : Z := 3.
Definition RCODE_NOT_IMPLEMENTED : Z := 4.
Definition RCODE_REFUSED : Z := 5.
Definition RCODE_YXDOMAIN : Z := 6.
Definition RCODE_YXRRSET : Z := 7.
Definition RCODE_NXRRSET : Z := 8.
Definition RCODE_NOTAUTH : Z := 9.
Definition RCODE_NOTZONE : Z := 10.
Definition RCODE_BADVERS : Z := 16.
Definition RCODE_BADSIG : Z := 16.
Definition RCODE_BADKEY : Z := 17.
Definition RCODE_BADTIME : Z := 18.
Definition RCODE_BADMODE : Z := 19.
Definition RCODE_BADNAME : Z := 20.
Definition RCODE_BADALG : Z := 21.
Definition RCODE_BADTRUC : Z := 22.
Definition RCODE_PRIVATE : Z := 3841.
Definition RCODE_NO_MEMORY : Z := 3842.

(** ** The machine *)

(** What the compiler decides: the size of [dns_decoded_t] (an [uintptr_t], and as wide as
    [size_t] and [long]), and those of the structures [dns_decode] allocates. *)
Record abi := mkAbi {
  MEM_ALIGN : Z;
  sizeof_dns_query_t : Z;
  sizeof_dns_question_t : Z;
  sizeof_dns_answer_t : Z;
  sizeof_edns0_opt_t : Z;
}.
(** A 32-bit MIPS router, and a 64-bit machine. *)
Definition mips32 : abi := mkAbi 4 56 12 80 12.
Definition amd64 : abi := mkAbi 8 88 16 96 24.
Definition word_ok (A : abi) : Prop := MEM_ALIGN A = 4 \/ MEM_ALIGN A = 8.
Definition abi_ok (A : abi) : Prop :=
  word_ok A /\ 0 < sizeof_dns_query_t A < 256 /\ 0 < sizeof_dns_question_t A < 256 /\
  0 < sizeof_dns_answer_t A < 256 /\ 0 < sizeof_edns0_opt_t A < 256.
#[export] Instance abi_ok_dec A : Decision (abi_ok A).
Proof. unfold abi_ok, word_ok. apply _. Defined.
Definition usize (A : abi) (z : Z) : Z := z mod 2 ^ (8 * MEM_ALIGN A).
(** A value converted to [long]. *)
Definition slong (A : abi) (z : Z) : Z := usize A (z + 2 ^ (8 * MEM_ALIGN A - 1)) - 2 ^ (8 * MEM_ALIGN A - 1).

Lemma usize_small A z : word_ok A -> 0 <= z < 2 ^ 32 -> usize A z = z.
Proof. intros [H|H] Hz; unfold usize; rewrite H; apply Z.mod_small; cbn; lia. Qed.
