(* ===== verification/DnsMappings.v ===== *)
(** * Names of the DNS numbers (contrib/spcdns/src/mappings.c)

    The tables, the search with libc's [bsearch], and what the tables must be for it to
    find what is there. *)

From S2P Require Import Prelude CLib DnsTypes.
From Stdlib Require Import Sorting.Sorted.

(** ** libc *)

(** [strcmp]: the difference of the first bytes that differ. *)
Fixpoint strcmp (a b : list Z) : Z :=
  match a, b with
  | [], [] => 0
  | [], y :: _ => - y
  | x :: _, [] => x
  | x :: a', y :: b' => if x =? y then strcmp a' b' else x - y
  end.
Definition toupper (c : Z) : Z := if (97 <=? c) && (c <=? 122) then c - 32 else c.
(** [bsearch]: the element in the middle, then what is in front of it or behind it. *)
Fixpoint bsearch {A} (fuel : nat) (compar : A -> Z) (l : list A) : option A :=
  match fuel with
  | O => None
  | S fuel' =>
      let mid := (length l / 2)%nat in
      match l !! mid with
      | None => None
      | Some p =>
          if compar p =? 0 then Some p
          else if 0 <? compar p then bsearch fuel' compar (drop (S mid) l)
          else bsearch fuel' compar (take mid l)
      end
  end.

(** ** The tables *)

Definition cm_dns_rcode : list (Z * list Z) :=
  [(RCODE_OKAY, str "No error"); (RCODE_FORMAT_ERROR, str "Format error");
   (RCODE_SERVER_FAILURE, str "Server failure"); (RCODE_NAME_ERROR, str "Non-existant domain");
   (RCODE_NOT_IMPLEMENTED, str "Not implemented"); (RCODE_REFUSED, str "Query refused");
   (RCODE_YXDOMAIN, str "Name exists when it should not");
   (RCODE_YXRRSET, str "RRset exists when it should not"); (RCODE_NXRRSET, str "RRset does not exist");
   (RCODE_NOTAUTH, str "Server not authoritative"); (RCODE_NOTZONE, str "Zone not in zone section");
   (RCODE_BADVERS, str "Bad OPT version/TSIG failed"); (RCODE_BADKEY, str "Key not recognized");
   (RCODE_BADTIME, str "Signature out of time window"); (RCODE_BADMODE, str "Bad TKEY mode");
   (RCODE_BADNAME, str "Duplicate key name"); (RCODE_BADALG, str "Algorithm not supported");
   (RCODE_BADTRUC, str "Bad truncation"); (RCODE_NO_MEMORY, str "No memory")].
Definition cm_dns_type : list (Z * list Z) :=
  [(RR_A, str "A"); (RR_NS, str "NS"); (RR_MD, str "MD"); (RR_MF, str "MF"); (RR_CNAME, str "CNAME");
   (RR_SOA, str "SOA"); (RR_MB, str "MB"); (RR_MG, str "MG"); (RR_MR, str "MR"); (RR_NULL, str "NULL");
   (RR_WKS, str "WKS"); (RR_PTR, str "PTR"); (RR_HINFO, str "HINFO"); (RR_MINFO, str "MINFO");
   (RR_MX, str "MX"); (RR_TXT, str "TXT"); (RR_RP, str "RP"); (RR_AFSDB, str "AFSDB"); (RR_X25, str "X25");
   (RR_ISDN, str "ISDN"); (RR_RT, str "RT"); (RR_NSAP, str "NSAP"); (RR_NSAP_PTR, str "NSAP-PTR");
   (RR_SIG, str "SIG"); (RR_KEY, str "KEY"); (RR_PX, str "PX"); (RR_GPOS, str "GPOS"); (RR_AAAA, str "AAAA");
   (RR_LOC, str "LOC"); (RR_NXT, str "NXT"); (RR_EID, str "EID"); (RR_NIMLOC, str "NIMLOC");
   (RR_SRV, str "SRV"); (RR_ATM, str "ATM"); (RR_NAPTR, str "NAPTR"); (RR_KX, str "KX");
   (RR_CERT, str "CERT"); (RR_A6, str "A6"); (RR_DNAME, str "DNAME"); (RR_SINK, str "SINK");
   (RR_OPT, str "OPT"); (RR_APL, str "APL"); (RR_DS, str "DS"); (RR_RRSIG, str "RRSIG");
   (RR_NSEC, str "NSEC"); (RR_DNSKEY, str "DNSKEY"); (RR_SPF, str "SPF"); (RR_TSIG, str "TSIG");
   (RR_IXFR, str "IXFR"); (RR_AXFR, str "AXFR"); (RR_MAILB, str "MAILB"); (RR_MAILA, str "MAILA");
   (RR_ANY, str "ANY")].
Definition cm_dns_type_is : list (list Z * Z) :=
  [(str "A", RR_A); (str "A6", RR_A6); (str "AAAA", RR_AAAA); (str "AFSDB", RR_AFSDB); (str "ANY", RR_ANY);
   (str "APL", RR_APL); (str "ATM", RR_ATM); (str "AXFR", RR_AXFR); (str "CERT", RR_CERT);
   (str "CNAME", RR_CNAME); (str "DNAME", RR_DNAME); (str "DNSKEY", RR_DNSKEY); (str "DS", RR_DS);
   (str "EID", RR_EID); (str "GPOS", RR_GPOS); (str "HINFO", RR_HINFO); (str "ISDN", RR_ISDN);
   (str "IXFR", RR_IXFR); (str "KEY", RR_KEY); (str "KX", RR_KX); (str "LOC", RR_LOC);
   (str "MAILA", RR_MAILA); (str "MAILB", RR_MAILB); (str "MB", RR_MB); (str "MD", RR_MD); (str "MF", RR_MF);
   (str "MG", RR_MG); (str "MINFO", RR_MINFO); (str "MR", RR_MR); (str "MX", RR_MX); (str "NAPTR", RR_NAPTR);
   (str "NIMLOC", RR_NIMLOC); (str "NS", RR_NS); (str "NSAP", RR_NSAP); (str "NSAP-PTR", RR_NSAP_PTR);
   (str "NSEC", RR_NSEC); (str "NULL", RR_NULL); (str "NXT", RR_NXT); (str "OPT", RR_OPT);
   (str "PTR", RR_PTR); (str "PX", RR_PX); (str "RP", RR_RP); (str "RRSIG", RR_RRSIG); (str "RT", RR_RT);
   (str "SIG", RR_SIG); (str "SINK", RR_SINK); (str "SOA", RR_SOA); (str "SPF", RR_SPF); (str "SRV", RR_SRV);
   (str "TSIG", RR_TSIG); (str "TXT", RR_TXT); (str "WKS", RR_WKS); (str "X25", RR_X25)].
Definition cm_dns_class : list (Z * list Z) :=
  [(CLASS_IN, str "IN"); (CLASS_CS, str "CS"); (CLASS_CH, str "CH"); (CLASS_HS, str "HS");
   (CLASS_NONE, str "NONE")].
Definition cm_dns_class_is : list (list Z * Z) :=
  [(str "CH", CLASS_CH); (str "CS", CLASS_CS); (str "HS", CLASS_HS); (str "IN", CLASS_IN);
   (str "NONE", CLASS_NONE)].
Definition cm_dns_op : list (Z * list Z) :=
  [(OP_QUERY, str "QUERY"); (OP_IQUERY, str "IQUERY"); (OP_STATUS, str "STATUS"); (OP_NOTIFY, str "NOTIFY");
   (OP_UPDATE, str "UPDATE")].
Definition cm_dns_op_is : list (list Z * Z) :=
  [(str "IQUERY", OP_IQUERY); (str "NOTIFY", OP_NOTIFY); (str "QUERY", OP_QUERY); (str "STATUS", OP_STATUS);
   (str "UPDATE", OP_UPDATE)].

(** ** The functions *)

Definition intstr_cmp (needle : Z) (pism : Z * list Z) : Z := needle - fst pism.
Definition strint_cmp (key : list Z) (psim : list Z * Z) : Z := strcmp key (fst psim).
Definition itosdef (v : Z) (pitab : list (Z * list Z)) (def : list Z) : list Z :=
  match bsearch (S (length pitab)) (intstr_cmp v) pitab with Some p => snd p | None => def end.
Definition stoidef (tag : list Z) (pstab : list (list Z * Z)) (def : Z) : Z :=
  match bsearch (S (length pstab)) (strint_cmp (map toupper tag)) pstab with Some p => snd p | None => def end.

Definition dns_rcode_text (r : Z) : list Z := itosdef r cm_dns_rcode (str "Unknown error").
Definition dns_type_text (t : Z) : list Z := itosdef t cm_dns_type (str "X-UNKN").
Definition dns_class_text (c : Z) : list Z := itosdef c cm_dns_class (str "X-UNKN").
Definition dns_op_text (o : Z) : list Z := itosdef o cm_dns_op (str "X-UNKNOWN").
Definition dns_type_value (tag : list Z) : Z := stoidef tag cm_dns_type_is RR_UNKNOWN.
Definition dns_class_value (tag : list Z) : Z := stoidef tag cm_dns_class_is CLASS_UNKNOWN.
Definition dns_op_value (tag : list Z) : Z := stoidef tag cm_dns_op_is OP_UNKNOWN.

(** ** The search *)

(** What the comparison says falls along the table. *)
Definition ascending {A} (compar : A -> Z) : list A -> Prop :=
  StronglySorted (fun a b => (compar a <= 0 -> compar b < 0)).
Lemma find_app {A} (f : A -> bool) l1 l2 : (forall a, a ∈ l1 -> f a = false) -> find f (l1 ++ l2) = find f l2.
Proof.
  intros H. induction l1 as [|a l1 IH]; [done|]. cbn [app find]. rewrite H by (by apply list_elem_of_here). apply IH. intros b Hb. apply H. by right.
Qed.
Lemma find_nothing {A} (f : A -> bool) l : (forall a, a ∈ l -> f a = false) -> find f l = None.
Proof. intros H. rewrite <- (app_nil_r l). by rewrite find_app. Qed.

Section Bsearch.
Context {A : Type} (compar : A -> Z).
Lemma ascending_split l1 p l2 : ascending compar (l1 ++ p :: l2) ->
  ascending compar l1 /\ ascending compar l2 /\ (forall a, a ∈ l1 -> compar a <= 0 -> compar p < 0) /\
  (forall b, b ∈ l2 -> compar p <= 0 -> compar b < 0).
Proof.
  unfold ascending. induction l1 as [|a l1 IH]; cbn [app]; intros H; apply StronglySorted_inv in H as [H Hf].
  - rewrite Forall_forall in Hf. split; [constructor|]. split; [done|]. split; [intros a Ha; by inversion Ha|done].
  - destruct (IH H) as (H1 & H2 & H3 & H4). rewrite Forall_forall in Hf. split; [|split; [done|split; [|done]]].
    + constructor; [done|]. apply Forall_forall. intros b Hb. apply Hf. apply elem_of_app. by left.
    + intros b [->|Hb]%elem_of_cons; [|by apply H3]. apply Hf. apply elem_of_app. right. by left.
Qed.
(** Along an ascending table the search finds what there is to find. *)
Lemma bsearch_find fuel l : (length l < fuel)%nat -> ascending compar l -> bsearch fuel compar l = find (fun p => compar p =? 0) l.
Proof.
  revert l. induction fuel as [|fuel IH]; intros l Hf Hs; [lia|]. cbn [bsearch]. destruct (l !! (length l / 2)%nat) as [p|] eqn:Hp.
  - pose proof (take_drop_middle _ _ _ Hp) as Hl. set (l1 := take (length l / 2) l) in *. set (l2 := drop (S (length l / 2)) l) in *.
    assert (Hlen : (length l1 < fuel /\ length l2 < fuel)%nat).
    { pose proof (f_equal length Hl) as E. rewrite length_app in E. cbn [length] in E. lia. }
    rewrite <- Hl in Hs |- *. apply ascending_split in Hs as (H1 & H2 & Hb & Ha). destruct (compar p =? 0) eqn:E.
    { apply Z.eqb_eq in E. rewrite find_app; [cbn [find]; by rewrite E|]. intros a Hin. apply Z.eqb_neq. intros E0. specialize (Hb a Hin). lia. }
    apply Z.eqb_neq in E. destruct (0 <? compar p) eqn:E1; [apply Z.ltb_lt in E1|apply Z.ltb_ge in E1].
    + rewrite find_app; [cbn [find]; rewrite (proj2 (Z.eqb_neq (compar p) 0)) by done; apply IH; [lia|done]|]. intros a Hin. apply Z.eqb_neq. intros E0. specialize (Hb a Hin). lia.
    + rewrite IH by (done || lia). destruct (find _ l1) as [a|] eqn:Ef.
      * assert (Hg : forall l0 r, find (fun p0 => compar p0 =? 0) l0 = Some a -> find (fun p0 => compar p0 =? 0) (l0 ++ r) = Some a).
        { clear. intros l0 r. induction l0 as [|x l0 IH]; [done|]. cbn. by destruct (compar x =? 0). }
        symmetry. by apply Hg.
      * symmetry. apply find_nothing. intros a Hin. apply elem_of_app in Hin as [Hin|Hin]; [|apply elem_of_cons in Hin as [->|Hin]].
        -- destruct (compar a =? 0) eqn:E0; [|done]. exfalso. apply list_elem_of_In in Hin. apply (find_none _ _ Ef) in Hin. congruence.
        -- by apply Z.eqb_neq.
        -- apply Z.eqb_neq. specialize (Ha a Hin ltac:(lia)). lia.
  - apply lookup_ge_None in Hp. destruct l as [|a l]; [done|]. cbn [length] in Hp. exfalso.
    pose proof (Nat.div_lt (S (length l)) 2 ltac:(lia) ltac:(lia)). lia.
Qed.
End Bsearch.

(** ** The tables are sorted *)

Fixpoint adjacent {A} (lt : A -> A -> bool) (l : list A) : bool :=
  match l with
  | a :: (b :: _) as r => lt a b && adjacent lt r
  | _ => true
  end.
Lemma adjacent_sorted {A} (lt : A -> A -> bool) l : (forall a b c, lt a b = true -> lt b c = true -> lt a c = true) ->
  adjacent lt l = true -> StronglySorted (fun a b => lt a b = true) l.
Proof.
  intros Ht H. apply Sorted_StronglySorted; [exact Ht|]. induction l as [|a l IH]; [constructor|]. destruct l as [|b l].
  - by repeat constructor.
  - apply andb_prop in H as [H1 H2]. constructor; [by apply IH|by constructor].
Qed.
Lemma sorted_weaken {A} (R S : A -> A -> Prop) l : (forall a b, a ∈ l -> b ∈ l -> R a b -> S a b) -> StronglySorted R l -> StronglySorted S l.
Proof.
  intros H Hs. induction Hs as [|a l Hs IH Hf]; [constructor|]. constructor.
  - apply IH. intros x y Hx Hy. apply H; by right.
  - rewrite Forall_forall in *. intros b Hb. apply H; [by left|by right|by apply Hf].
Qed.

Lemma int_ascending v (l : list (Z * list Z)) : adjacent (fun a b => fst a <? fst b) l = true -> ascending (intstr_cmp v) l.
Proof.
  intros H. apply adjacent_sorted in H.
  - apply (sorted_weaken _ _ _ ltac:(intros a b _ _ Hab; exact Hab)) in H. revert H. apply sorted_weaken. unfold intstr_cmp.
    intros a b _ _ Hab%Z.ltb_lt. lia.
  - intros a b c H1%Z.ltb_lt H2%Z.ltb_lt. apply Z.ltb_lt. lia.
Qed.

(** Bytes of C strings. *)
Definition text (s : list Z) : Prop := Forall (fun c => 0 < c < 256) s.
#[export] Instance text_dec s : Decision (text s).
Proof. unfold text. apply _. Defined.
Lemma strcmp_le_lt k a b : text k -> text a -> text b -> strcmp k a <= 0 -> strcmp a b < 0 -> strcmp k b < 0.
Proof.
  intros Hk. revert a b. induction Hk as [|x k Hx Hk IH]; intros a b Ha Hb H1 H2.
  - destruct Hb as [|z b Hz Hb]; [|cbn; lia]. destruct Ha; cbn in *; lia.
  - destruct Ha as [|y a Hy Ha]; [cbn in H1; lia|]. destruct Hb as [|z b Hz Hb]; [cbn in H2; lia|]. cbn [strcmp] in *.
    destruct (Z.eqb_spec x y) as [->|Hxy], (Z.eqb_spec y z) as [->|Hyz].
    + by apply (IH a).
    + lia.
    + rewrite (proj2 (Z.eqb_neq x z)) by done. lia.
    + rewrite (proj2 (Z.eqb_neq x z)) by lia. lia.
Qed.
Lemma strcmp_eq a b : text a -> text b -> strcmp a b = 0 <-> a = b.
Proof.
  intros Ha. revert b. induction Ha as [|x a Hx Ha IH]; intros b Hb; destruct Hb as [|y b Hy Hb]; cbn; [done|split; [lia|done]..|].
  destruct (x =? y) eqn:E; [apply Z.eqb_eq in E as ->; rewrite IH by done; split; [by intros ->|by intros [= ->]]|].
  apply Z.eqb_neq in E. split; [lia|congruence].
Qed.
Definition before (a b : list Z * Z) : bool := (strcmp (fst a) (fst b) <? 0) && bool_decide (text (fst a)) && bool_decide (text (fst b)).
Lemma before_trans a b c : before a b = true -> before b c = true -> before a c = true.
Proof.
  unfold before. intros [[H1%Z.ltb_lt Ha%bool_decide_eq_true_1]%andb_prop Hb%bool_decide_eq_true_1]%andb_prop
    [[H2%Z.ltb_lt _]%andb_prop Hc%bool_decide_eq_true_1]%andb_prop.
  rewrite (proj2 (Z.ltb_lt _ _)) by (apply (strcmp_le_lt (fst a) (fst b)); (done || lia)). by rewrite !bool_decide_true.
Qed.
Lemma string_ascending key (l : list (list Z * Z)) : text key -> adjacent before l = true -> ascending (strint_cmp key) l.
Proof.
  intros Hk H. apply adjacent_sorted in H.
  - revert H. apply sorted_weaken. unfold before, strint_cmp. intros a b _ _ [[Hab%Z.ltb_lt Ha%bool_decide_eq_true_1]%andb_prop Hb%bool_decide_eq_true_1]%andb_prop.
    intros Hka. by apply (strcmp_le_lt key (fst a)).
  - apply before_trans.
Qed.

(** What the two directions of a pair of tables say. *)
Definition entries_agree (t1 : list (Z * list Z)) (t2 : list (list Z * Z)) : bool :=
  forallb (fun p => bool_decide ((snd p, fst p) ∈ t2)) t1 && forallb (fun p => bool_decide ((snd p, fst p) ∈ t1)) t2.
Lemma find_entry {A} (f : A -> bool) l a : find f l = Some a -> a ∈ l /\ f a = true.
Proof. intros H. apply find_some in H as [H ?]. split; [|done]. by apply list_elem_of_In. Qed.
Lemma find_has {A} (f : A -> bool) l a : a ∈ l -> f a = true -> exists b, find f l = Some b.
Proof.
  intros Hin Hf. destruct (find f l) as [b|] eqn:E; [by exists b|]. apply list_elem_of_In in Hin. pose proof (find_none _ _ E a Hin). congruence.
Qed.

Lemma sorted_unique {A B} (f : A -> B) (lt : A -> A -> bool) l a b :
  (forall x y, lt x y = true -> f x <> f y) -> StronglySorted (fun x y => lt x y = true) l -> a ∈ l -> b ∈ l -> f a = f b -> a = b.
Proof.
  intros Hlt Hs Ha Hb Hf. induction Hs as [|x l Hl IH Hx]; [by inversion Ha|]. rewrite Forall_forall in Hx.
  apply elem_of_cons in Ha as [->|Ha], Hb as [->|Hb]; [done| | |by apply IH].
  - exfalso. by apply (Hlt x b); [apply Hx|].
  - exfalso. by apply (Hlt x a); [apply Hx|].
Qed.

Section Table.
Context (t1 : list (Z * list Z)) (t2 : list (list Z * Z)) (def : Z) (deftext : list Z).
Hypothesis H1 : adjacent (fun a b => fst a <? fst b) t1 = true.
Hypothesis H2 : adjacent before t2 = true.
Hypothesis H2t : forallb (fun p => bool_decide (text (fst p))) t2 = true.
Hypothesis Ha : entries_agree t1 t2 = true.
Lemma itosdef_spec v : (forall s, (v, s) ∈ t1 -> itosdef v t1 deftext = s) /\ ((forall s, (v, s) ∉ t1) -> itosdef v t1 deftext = deftext).
Proof.
  unfold itosdef. rewrite bsearch_find by (lia || by apply int_ascending). split.
  - intros s Hs. destruct (find_has (fun p => intstr_cmp v p =? 0) t1 (v, s) Hs) as [b Hb]; [apply Z.eqb_eq; unfold intstr_cmp; cbn; lia|]. rewrite Hb.
    apply find_entry in Hb as [Hin Hv%Z.eqb_eq]. unfold intstr_cmp in Hv. destruct b as [v' s']. cbn in *. assert (v' = v) by lia. subst v'.
    assert (E : (v, s') = (v, s)); [|congruence].
    apply (sorted_unique fst (fun a b => fst a <? fst b) t1); [intros x y Hxy%Z.ltb_lt; lia| |done..].
    apply adjacent_sorted; [intros a b c ?%Z.ltb_lt ?%Z.ltb_lt; apply Z.ltb_lt; lia|done].
  - intros Hno. destruct (find _ t1) as [[v' s']|] eqn:E; [|done]. apply find_entry in E as [Hin Hv%Z.eqb_eq]. unfold intstr_cmp in Hv. cbn in Hv.
    destruct (Hno s'). by replace v with v' by lia.
Qed.
Lemma agree v s : (v, s) ∈ t1 <-> (s, v) ∈ t2.
Proof.
  apply andb_prop in Ha as [Hx Hy]. rewrite forallb_forall in Hx, Hy.
  split; intros H; apply list_elem_of_In in H; [apply Hx in H|apply Hy in H]; by apply bool_decide_eq_true_1 in H.
Qed.
(** The value of a tag, in capitals or not, is the one whose text the tag is. *)
Lemma stoidef_value tag t : text (map toupper tag) -> t <> def -> stoidef tag t2 def = t <-> (t, map toupper tag) ∈ t1.
Proof.
  intros Ht Hd. unfold stoidef. rewrite bsearch_find by (lia || by apply string_ascending). rewrite forallb_forall in H2t.
  assert (Hf : forall b, find (fun p => strint_cmp (map toupper tag) p =? 0) t2 = Some b -> b ∈ t2 /\ fst b = map toupper tag).
  { intros b Hb. apply find_entry in Hb as [Hin Hc%Z.eqb_eq]. split; [done|]. unfold strint_cmp in Hc. symmetry.
    apply strcmp_eq; [done| |done]. apply list_elem_of_In in Hin. by apply H2t, bool_decide_eq_true_1 in Hin. }
  split.
  - intros Hv. destruct (find _ t2) as [[s v]|] eqn:E; [|congruence]. destruct (Hf _ eq_refl) as [Hin Hs]. cbn in *. subst. by apply agree.
  - intros Hin. apply agree in Hin. destruct (find_has (fun p => strint_cmp (map toupper tag) p =? 0) t2 (map toupper tag, t) Hin) as [[s v] Hb].
    { unfold strint_cmp. cbn. apply Z.eqb_eq. by apply strcmp_eq. }
    rewrite Hb. destruct (Hf _ Hb) as [Hin' Hs]. cbn in *. subst s.
    assert (E : (map toupper tag, v) = (map toupper tag, t)); [|by injection E].
    apply (sorted_unique fst before t2); [|by apply adjacent_sorted; [apply before_trans|]|done..].
    unfold before. intros x y [[Hxy%Z.ltb_lt Hx%bool_decide_eq_true_1]%andb_prop _]%andb_prop E. rewrite <- E in Hxy.
    rewrite (proj2 (strcmp_eq _ _ Hx Hx) eq_refl) in Hxy. lia.
Qed.
End Table.

(** ** Theorems *)

(** names and numbers of record types correspond: a tag in any mix of cases has the
    value [t] exactly when the tag in capitals is the name in the table of [t], and then
    [dns_type_text] gives that name back; so it is for classes and operations.  A number
    that is in no table has the default text.  The binary searches find everything that
    is in the tables, because these are sorted as their comments demand. *)
Theorem dns_names_correspond tag t : text (map toupper tag) ->
  (t <> RR_UNKNOWN -> dns_type_value tag = t <-> (t, map toupper tag) ∈ cm_dns_type) /\
  (t <> CLASS_UNKNOWN -> dns_class_value tag = t <-> (t, map toupper tag) ∈ cm_dns_class) /\
  (t <> OP_UNKNOWN -> dns_op_value tag = t <-> (t, map toupper tag) ∈ cm_dns_op) /\
  (forall s, (t, s) ∈ cm_dns_type -> dns_type_text t = s) /\ (forall s, (t, s) ∈ cm_dns_class -> dns_class_text t = s) /\
  (forall s, (t, s) ∈ cm_dns_op -> dns_op_text t = s) /\ (forall s, (t, s) ∈ cm_dns_rcode -> dns_rcode_text t = s) /\
  ((forall s, (t, s) ∉ cm_dns_type) -> dns_type_text t = str "X-UNKN").
Proof.
  intros Ht.
  split; [intros Hd; apply stoidef_value; (done || vm_compute; reflexivity)|].
  split; [intros Hd; apply stoidef_value; (done || vm_compute; reflexivity)|].
  split; [intros Hd; apply stoidef_value; (done || vm_compute; reflexivity)|].
  pose proof (fun v d => itosdef_spec cm_dns_type d ltac:(vm_compute; reflexivity) v) as Hty.
  split; [apply Hty|]. split; [apply itosdef_spec; vm_compute; reflexivity|]. split; [apply itosdef_spec; vm_compute; reflexivity|].
  split; [apply itosdef_spec; vm_compute; reflexivity|apply Hty].
Qed.
Lemma dns_names_correspond_witness : dns_type_value (str "nsap-ptr") = RR_NSAP_PTR /\ dns_type_text RR_NSAP_PTR = str "NSAP-PTR".
Proof.
  destruct (dns_names_correspond (str "nsap-ptr") RR_NSAP_PTR) as (Hv & _ & _ & Ht & _).
  - apply (bool_decide_unpack _); vm_compute; exact I.
  - split; [apply Hv; [done|]|apply Ht]; apply (bool_decide_unpack _); vm_compute; exact I.
Defined.
