(* ===== verification/DnsCodec.v ===== *)
(** * The DNS codec: encoding queries, decoding responses (contrib/spcdns/src/codec.c)

    As target/sbin/dig and target/usr.bin/lua/luadns compile it, with NDEBUG: assertions
    are not there.  The packet is a list of bytes, and so is the block of memory
    [dns_decode] carves its strings out of; pointers are offsets.  The structures it
    allocates from the same block are records here, their room is skipped.  A read or
    write outside the packet or the block is [Bad]. *)

From S2P Require Import Prelude CLib DnsTypes.

(** ** Results *)

(** The code goes on, returns a code, does something undefined; or the fuel of a loop is
    spent, which is no behaviour of the code. *)
Inductive dres (A : Type) : Type :=
| Got (a : A)
| Code (rc : Z)
| Bad
| Spent.
Arguments Got {A} a.
Arguments Code {A} rc.
Arguments Bad {A}.
Arguments Spent {A}.
#[global] Instance dres_bind : MBind dres := fun A B f m =>
  match m with Got a => f a | Code rc => Code rc | Bad => Bad | Spent => Spent end.

(** ** Data *)

(** [block_t] *)
Record block := Block { b_size : Z; b_ptr : Z }.
Record dns_question_t := mkQuestion { q_name : Z; q_type : Z; q_class : Z }.
Record edns0_opt_t := mkOpt { o_code : Z; o_len : Z; o_data : Z }.
(** [nw] is assigned in one hemisphere only. *)
Record dnsgpos_angle := mkAngle { deg : Z; min : Z; sec : Z; frac : Z; nw : option bool }.

(** Floating point: the numbers of GPOS records. *)
Class Floats := {
  double : Type;
  strtod : list Z -> option double;
  negative : double -> bool;
  fabs : double -> double;
  (** degrees, minutes, seconds and the rest of an angle *)
  angle_parts : double -> Z * Z * Z * Z;
}.

(** The part of [dns_answer_t] that depends on the type.  [fdo] is assigned when it is
    set only. *)
Inductive dns_rdata `{Floats} :=
| A_a (address : list Z)
| A_soa (mname rname serial refresh retry expire minimum : Z)
| A_naptr (order preference flags services regexp replacement : Z)
| A_aaaa (address : list Z)
| A_srv (priority weight port target : Z)
| A_wks (address : list Z) (protocol numbits : Z) (bits : option Z)
| A_sig (covered algorithm labels originttl sigexpire timesigned keyfootprint signer sigsize : Z) (signature : option Z)
| A_gpos (longitude latitude : dnsgpos_angle) (altitude : double)
| A_loc (size horiz_pre vert_pre : Z) (latitude longitude : dnsgpos_angle) (altitude : Z)
| A_opt (udp_payload : Z) (fdo : option bool) (opts : list edns0_opt_t)
| A_minfo (rmailbx emailbx : Z)
| A_mx (preference exchange : Z)
| A_hinfo (cpu os : Z)
| A_txt (len text : Z)
| A_cname (cname : Z)
| A_x (size : Z) (rawdata : option Z).
Record dns_answer_t `{Floats} := mkAnswer { a_name : Z; a_type : Z; a_class : Z; a_ttl : Z; a_data : dns_rdata }.
Arguments mkAnswer {_} _ _ _ _ _.

(** [idns_context], with the block's memory and the response code decoding adds to. *)
Record idns_context := Context_ { parse : block; dest : block; mem : list Z; response_rcode : Z; edns : bool }.
Definition with_parse (c : idns_context) (b : block) : idns_context := Context_ b (dest c) (mem c) (response_rcode c) (edns c).
Definition with_dest (c : idns_context) (b : block) : idns_context := Context_ (parse c) b (mem c) (response_rcode c) (edns c).

(** [dns_query_t] *)
Record dns_header := mkHeader {
  id : Z; query : bool; opcode : Z; aa : bool; tc : bool; rd : bool; ra : bool; ad : bool; cd : bool; rcode : Z;
}.
Record dns_response `{Floats} := mkResponse {
  header : dns_header; questions : list dns_question_t;
  answers : list dns_answer_t; nameservers : list dns_answer_t; additional : list dns_answer_t;
}.
Arguments mkResponse {_} _ _ _ _ _.
Definition sizeof_idns_header : Z := 12.

Section Codec.
Context (A : abi).

(** ** Memory *)

Definition align_memory (pool : block) : bool * block :=
  if b_size pool <? MEM_ALIGN A then (false, pool)
  else
    let newsize := Z.land (b_size pool) (Z.lnot (MEM_ALIGN A - 1)) in
    if newsize =? b_size pool then (true, pool)
    else
      let delta := usize A (newsize + MEM_ALIGN A - b_size pool) in
      (true, Block (usize A (b_size pool - delta)) (b_ptr pool + delta)).
(** The address, [None] for NULL, and the pool. *)
Definition alloc_struct (pool : block) (size : Z) : option Z * block :=
  if b_size pool =? 0 then (None, pool) else
  let '(ok, pool) := align_memory pool in
  if negb ok then (None, pool) else
  if b_size pool <? size then (None, pool) else (Some (b_ptr pool), Block (usize A (b_size pool - size)) (b_ptr pool + size)).
(** Bytes stored at [dest], which moves on. *)
Definition store (bytes : list Z) (c : idns_context) : dres idns_context :=
  let d := dest c in
  if (0 <=? b_ptr d) && (b_ptr d + zlen bytes <=? zlen (mem c))
  then Got (Context_ (parse c) (Block (usize A (b_size d - zlen bytes)) (b_ptr d + zlen bytes)) (splice (b_ptr d) bytes (mem c))
              (response_rcode c) (edns c))
  else Bad.

Section Decode.
Context (pkt : list Z).

Definition byte_at (o : Z) : dres Z := if (0 <=? o) && (o <? zlen pkt) then Got (znth pkt o) else Bad.
Definition bytes_at (o n : Z) : dres (list Z) := if (0 <=? o) && (0 <=? n) && (o + n <=? zlen pkt) then Got (slice o n pkt) else Bad.
Definition skip (n : Z) (b : block) : block := Block (usize A (b_size b - n)) (b_ptr b + n).

Definition read_uint16 (b : block) : dres (Z * block) :=
  w ← bytes_at (b_ptr b) 2; Got (Z.lor (Z.shiftl (znth w 0) 8) (znth w 1), skip 2 b).
Definition read_uint32 (b : block) : dres (Z * block) :=
  w ← bytes_at (b_ptr b) 4;
  Got (Z.lor (Z.lor (Z.lor (Z.shiftl (znth w 0) 24) (Z.shiftl (znth w 1) 16)) (Z.shiftl (znth w 2) 8)) (znth w 3), skip 4 b).
(** The same on the packet that is parsed. *)
Definition get16 (c : idns_context) : dres (Z * idns_context) := x ← read_uint16 (parse c); let '(v, b) := x in Got (v, with_parse c b).
Definition get32 (c : idns_context) : dres (Z * idns_context) := x ← read_uint32 (parse c); let '(v, b) := x in Got (v, with_parse c b).

Definition read_raw (len : Z) (c : idns_context) : dres (option Z * idns_context) :=
  if 0 <? len then
    if b_size (parse c) <? len then Code RCODE_FORMAT_ERROR else
    let '(ok, d) := align_memory (dest c) in
    if negb ok then Code RCODE_NO_MEMORY else
    if b_size d <? len then Code RCODE_NO_MEMORY else
    bytes ← bytes_at (b_ptr (parse c)) len;
    c' ← store bytes (with_dest c d);
    Got (Some (b_ptr d), with_parse c' (skip len (parse c)))
  else Got (None, c).

Definition read_string (c : idns_context) : dres (Z * idns_context) :=
  len ← byte_at (b_ptr (parse c));
  if b_size (dest c) <? len + 1 then Code RCODE_NO_MEMORY else
  if b_size (parse c) <? len + 1 then Code RCODE_FORMAT_ERROR else
  bytes ← bytes_at (b_ptr (parse c) + 1) len;
  c' ← store (bytes ++ [0]) c;
  Got (b_ptr (dest c), with_parse c' (skip (len + 1) (parse c))).

(** The loop over the labels.  [cur] is what [parse] points to; once a pointer has been
    followed that is [tmp], and [own] keeps [data->parse]. *)
Fixpoint read_labels (fuel : nat) (cur : block) (own : option block) (loop : Z) (c : idns_context)
    : dres (block * option block * idns_context) :=
  match fuel with
  | O => Spent
  | S fuel' =>
      b ← byte_at (b_ptr cur);
      x ← (if b <? 64 then
             if b_size cur <? b + 1 then Code RCODE_FORMAT_ERROR else
             if b_size (dest c) <? b then Code RCODE_NO_MEMORY else
             label ← bytes_at (b_ptr cur + 1) b;
             c ← store (label ++ [46]) c;
             Got (if b =? 0 then cur else skip (b + 1) cur, own, loop, c)
           else if 192 <=? b then
             if loop + 1 =? 256 then Code RCODE_FORMAT_ERROR else
             if b_size cur <? 2 then Code RCODE_FORMAT_ERROR else
             x ← read_uint16 cur; let '(w, cur') := x in
             let len := Z.land w 0x3FFF in
             if zlen pkt <=? len then Code RCODE_FORMAT_ERROR else
             Got (Block (zlen pkt - len) len, Some (default cur' own), loop + 1, c)
           else Code RCODE_FORMAT_ERROR);
      let '(cur, own, loop, c) := x in
      next ← byte_at (b_ptr cur);
      if next =? 0 then Got (cur, own, c) else read_labels fuel' cur own loop c
  end.
(** Fuel: every turn reads a label of the packet or follows one of 255 pointers. *)
Definition domain_fuel : nat := 256 * S (length pkt).
Definition read_domain (c : idns_context) : dres (Z * idns_context) :=
  x ← read_labels domain_fuel (parse c) None 0 c;
  let '(cur, own, c') := x in
  c' ← store [0] (with_parse c' (default (skip 1 cur) own));
  Got (b_ptr (dest c), c').

(** ** Options of EDNS *)

Definition isxdigit (b : Z) : bool := bool_decide (is_Some (digit_of 16 b)).
Definition hexdigit (b : Z) : Z := default 0 (digit_of 16 b).
Fixpoint nsid_bytes (n : nat) (o : Z) (c : idns_context) : dres idns_context :=
  match n with
  | O => Got c
  | S n' =>
      h ← byte_at o; if negb (isxdigit h) then Code RCODE_FORMAT_ERROR else
      l ← byte_at (o + 1); if negb (isxdigit l) then Code RCODE_FORMAT_ERROR else
      c ← store [Z.lor (Z.shiftl (hexdigit h) 4) (hexdigit l)] c;
      nsid_bytes n' (o + 2) c
  end.
Definition decode_edns0rr_nsid (len : Z) (c : idns_context) : dres (Z * idns_context) :=
  if len mod 2 =? 1 then Code RCODE_FORMAT_ERROR else
  if b_size (dest c) <? len / 2 then Code RCODE_NO_MEMORY else
  c ← nsid_bytes (Z.to_nat (len / 2)) (b_ptr (parse c)) c;
  Got (len / 2, with_parse c (skip len (parse c))).
Definition decode_edns0rr_raw (len : Z) (c : idns_context) : dres (Z * idns_context) :=
  if b_size (dest c) <? len then Code RCODE_NO_MEMORY else
  bytes ← bytes_at (b_ptr (parse c)) len;
  c ← store bytes c;
  Got (len, with_parse c (skip len (parse c))).
(** ** Questions and records *)

Definition decode_question (c : idns_context) : dres (dns_question_t * idns_context) :=
  x ← read_domain c; let '(name, c) := x in
  if b_size (parse c) <? 4 then Code RCODE_FORMAT_ERROR else
  x ← get16 c; let '(type, c) := x in
  x ← get16 c; let '(class, c) := x in
  if type =? RR_OPT then Code RCODE_FORMAT_ERROR else Got (mkQuestion name type class, c).

Definition get_bytes (n : Z) (c : idns_context) : dres (list Z * idns_context) :=
  w ← bytes_at (b_ptr (parse c)) n; Got (w, with_parse c (skip n (parse c))).

Section Records.
Context `{F : Floats}.

Definition decode_rr_soa (c : idns_context) (len : Z) : dres (dns_rdata * idns_context) :=
  x ← read_domain c; let '(mname, c) := x in
  x ← read_domain c; let '(rname, c) := x in
  if len <? 20 then Code RCODE_FORMAT_ERROR else
  x ← get32 c; let '(serial, c) := x in
  x ← get32 c; let '(refresh, c) := x in
  x ← get32 c; let '(retry, c) := x in
  x ← get32 c; let '(expire, c) := x in
  x ← get32 c; let '(minimum, c) := x in
  Got (A_soa mname rname serial refresh retry expire minimum, c).

Definition decode_rr_a (c : idns_context) (len : Z) : dres (dns_rdata * idns_context) :=
  if negb (len =? 4) then Code RCODE_FORMAT_ERROR else
  x ← get_bytes 4 c; let '(address, c) := x in Got (A_a address, c).
Definition decode_rr_aaaa (c : idns_context) (len : Z) : dres (dns_rdata * idns_context) :=
  if negb (len =? 16) then Code RCODE_FORMAT_ERROR else
  x ← get_bytes 16 c; let '(address, c) := x in Got (A_aaaa address, c).

Definition decode_rr_wks (c : idns_context) (len : Z) : dres (dns_rdata * idns_context) :=
  if len <? 6 then Code RCODE_FORMAT_ERROR else
  x ← get_bytes 4 c; let '(address, c) := x in
  x ← get16 c; let '(protocol, c) := x in
  x ← read_raw (len - 6) c; let '(bits, c) := x in
  Got (A_wks address protocol (len - 6) bits, c).

Definition decode_rr_mx (c : idns_context) (len : Z) : dres (dns_rdata * idns_context) :=
  if len <? 4 then Code RCODE_FORMAT_ERROR else
  x ← get16 c; let '(preference, c) := x in
  x ← read_domain c; let '(exchange, c) := x in
  Got (A_mx preference exchange, c).

(** The strings of a text, counted: their number and the length of all. *)
Fixpoint txt_items (fuel : nat) (tmp : block) (worklen items total : Z) : dres (Z * Z) :=
  match fuel with
  | O => Spent
  | S fuel' =>
      if worklen =? 0 then Got (items, total) else
      b ← byte_at (b_ptr tmp);
      let slen := b + 1 in
      if b_size tmp <? slen then Code RCODE_FORMAT_ERROR else
      txt_items fuel' (skip slen tmp) (usize A (worklen - slen)) (items + 1) (total + (slen - 1))
  end.
Fixpoint txt_copy (n : nat) (c : idns_context) : dres idns_context :=
  match n with
  | O => Got c
  | S n' =>
      slen ← byte_at (b_ptr (parse c));
      if b_size (dest c) <? slen then Code RCODE_NO_MEMORY else
      bytes ← bytes_at (b_ptr (parse c) + 1) slen;
      c' ← store bytes c;
      txt_copy n' (with_parse c' (skip (slen + 1) (parse c)))
  end.
Definition decode_rr_txt (c : idns_context) (len : Z) : dres (dns_rdata * idns_context) :=
  x ← txt_items (S (Z.to_nat (b_size (parse c)) + length pkt)) (parse c) len 0 0; let '(items, total) := x in
  let text := b_ptr (dest c) in
  c ← txt_copy (Z.to_nat items) c;
  if b_size (dest c) =? 0 then Code RCODE_NO_MEMORY else
  c ← store [0] c;
  Got (A_txt total text, c).

Definition decode_rr_hinfo (c : idns_context) : dres (dns_rdata * idns_context) :=
  x ← read_string c; let '(cpu, c) := x in
  x ← read_string c; let '(os, c) := x in
  Got (A_hinfo cpu os, c).

Definition decode_rr_srv (c : idns_context) (len : Z) : dres (dns_rdata * idns_context) :=
  if len <? 7 then Code RCODE_FORMAT_ERROR else
  x ← get16 c; let '(priority, c) := x in
  x ← get16 c; let '(weight, c) := x in
  x ← get16 c; let '(port, c) := x in
  x ← read_domain c; let '(target, c) := x in
  Got (A_srv priority weight port target, c).

Definition decode_rr_naptr (c : idns_context) (len : Z) : dres (dns_rdata * idns_context) :=
  if len <? 4 then Code RCODE_FORMAT_ERROR else
  x ← get16 c; let '(order, c) := x in
  x ← get16 c; let '(preference, c) := x in
  x ← read_string c; let '(flags, c) := x in
  x ← read_string c; let '(services, c) := x in
  x ← read_string c; let '(regexp, c) := x in
  x ← read_domain c; let '(replacement, c) := x in
  Got (A_naptr order preference flags services regexp replacement, c).

(** Nothing calls it: signatures are decoded as unknown records. *)
Definition decode_rr_sig (c : idns_context) (len : Z) : dres (dns_rdata * idns_context) :=
  if len <? 18 then Code RCODE_FORMAT_ERROR else
  let start := b_ptr (parse c) in
  x ← get16 c; let '(covered, c) := x in
  x ← get_bytes 1 c; let '(algorithm, c) := x in
  x ← get_bytes 1 c; let '(labels, c) := x in
  x ← get32 c; let '(originttl, c) := x in
  x ← get32 c; let '(sigexpire, c) := x in
  x ← get32 c; let '(timesigned, c) := x in
  x ← get16 c; let '(keyfootprint, c) := x in
  x ← read_domain c; let '(signer, c) := x in
  let sofar := b_ptr (parse c) - start in
  if len <? sofar then Code RCODE_FORMAT_ERROR else
  x ← read_raw (len - sofar) c; let '(signature, c) := x in
  Got (A_sig covered (znth algorithm 0) (znth labels 0) originttl sigexpire timesigned keyfootprint signer (len - sofar) signature, c).

Definition decode_rr_minfo (c : idns_context) : dres (dns_rdata * idns_context) :=
  x ← read_domain c; let '(rmailbx, c) := x in
  x ← read_domain c; let '(emailbx, c) := x in
  Got (A_minfo rmailbx emailbx, c).

(** ** Positions *)

Definition dloc_double (c : idns_context) : dres (double * idns_context) :=
  len ← byte_at (b_ptr (parse c));
  if usize A (b_size (parse c) - 1) <? len then Code RCODE_FORMAT_ERROR else
  buffer ← bytes_at (b_ptr (parse c) + 1) len;
  match strtod (cstr buffer) with
  | None => Code RCODE_FORMAT_ERROR
  | Some v => Got (v, with_parse c (skip (len + 1) (parse c)))
  end.
Definition dgpos_angle (v : double) (nw : option bool) : dnsgpos_angle :=
  let '(d, m, s, f) := angle_parts v in mkAngle d m s f nw.
Definition decode_rr_gpos (c : idns_context) : dres (dns_rdata * idns_context) :=
  x ← dloc_double c; let '(lng, c) := x in
  x ← dloc_double c; let '(lat, c) := x in
  x ← dloc_double c; let '(altitude, c) := x in
  let longitude := if negative lng then dgpos_angle (fabs lng) (Some true) else dgpos_angle lng None in
  let latitude := if negb (negative lat) then dgpos_angle lat (Some true) else dgpos_angle (fabs lat) None in
  Got (A_gpos longitude latitude altitude, c).

Definition LOC_BIAS : Z := 2 ^ 31.
Definition LOC_LAT_MAX : Z := 90 * 3600000.
Definition LOC_LNG_MAX : Z := 180 * 3600000.
Definition LOC_ALT_BIAS : Z := 10000000.
(** The product is a [double]; converted to [unsigned long] it has to be in range. *)
Definition dloc_scale (scale : Z) : dres Z :=
  let smul := Z.shiftr scale 4 in
  let spow := Z.land scale 0x0F in
  let v := 10 ^ spow * smul in
  if (9 <? spow) || (9 <? smul) then Code RCODE_FORMAT_ERROR else if 2 ^ (8 * MEM_ALIGN A) <=? v then Bad else Got v.
Definition dloc_angle (v : Z) (nw : option bool) : dnsgpos_angle :=
  mkAngle (v / 1000 / 60 / 60) (v / 1000 / 60 mod 60) (v / 1000 mod 60) (v mod 1000) nw.
(** Four bytes are passed over that [parse.size] does not count. *)
Definition decode_rr_loc (c : idns_context) (len : Z) : dres (dns_rdata * idns_context) :=
  if len <? 16 then Code RCODE_FORMAT_ERROR else
  w ← bytes_at (b_ptr (parse c)) 4;
  if negb (znth w 0 =? 0) then Code RCODE_FORMAT_ERROR else
  size ← dloc_scale (znth w 1); horiz_pre ← dloc_scale (znth w 2); vert_pre ← dloc_scale (znth w 3);
  let c := with_parse c (Block (b_size (parse c)) (b_ptr (parse c) + 4)) in
  x ← get32 c; let '(lat, c) := x in
  x ← get32 c; let '(lng, c) := x in
  x ← get32 c; let '(alt, c) := x in
  let altitude := slong A (alt - LOC_ALT_BIAS) in
  let '(lat, north) := if LOC_BIAS <=? lat then (lat - LOC_BIAS, Some true) else (LOC_BIAS - lat, None) in
  let '(lng, west) := if LOC_BIAS <=? lng then (lng - LOC_BIAS, None) else (LOC_BIAS - lng, Some true) in
  if LOC_LAT_MAX <? lat then Code RCODE_FORMAT_ERROR else
  if LOC_LNG_MAX <? lng then Code RCODE_FORMAT_ERROR else
  Got (A_loc size horiz_pre vert_pre (dloc_angle lat north) (dloc_angle lng west) altitude, c).

(** ** EDNS *)

(** The options of a record, counted. *)
Fixpoint count_opts (fuel : nat) (scan length : Z) (n : Z) : dres Z :=
  match fuel with
  | O => Spent
  | S fuel' =>
      if length <=? 0 then Got n else
      w ← bytes_at (scan + 2) 2;
      let size := Z.lor (Z.shiftl (znth w 0) 8) (znth w 1) + 4 in
      if length <? size then Code RCODE_FORMAT_ERROR else count_opts fuel' (scan + size) (length - size) (n + 1)
  end.
Fixpoint decode_opts (n : nat) (c : idns_context) : dres (list edns0_opt_t * idns_context) :=
  match n with
  | O => Got ([], c)
  | S n' =>
      x ← get16 c; let '(code, c) := x in
      x ← get16 c; let '(len, c) := x in
      let '(ok, d) := align_memory (dest c) in
      if negb ok then Code RCODE_NO_MEMORY else
      let c := with_dest c d in
      x ← (if code =? EDNS0RR_NSID then decode_edns0rr_nsid len c else decode_edns0rr_raw len c);
      let '(len, c) := x in
      x ← decode_opts n' c; let '(r, c) := x in
      Got (mkOpt code len (b_ptr d) :: r, c)
  end.
Definition decode_rr_opt (c : idns_context) (udp_payload : Z) (fdo : option bool) (len : Z) : dres (dns_rdata * idns_context) :=
  if edns c then Code RCODE_FORMAT_ERROR else
  let c := Context_ (parse c) (dest c) (mem c) (response_rcode c) true in
  if len =? 0 then Got (A_opt udp_payload fdo [], c) else
  numopts ← count_opts (S (Z.to_nat len)) (b_ptr (parse c)) len 0;
  let '(p, d) := alloc_struct (dest c) (usize A (sizeof_edns0_opt_t A * numopts)) in
  match p with
  | None => Code RCODE_NO_MEMORY
  | Some _ => x ← decode_opts (Z.to_nat numopts) (with_dest c d); let '(opts, c) := x in Got (A_opt udp_payload fdo opts, c)
  end.
(** ** Answers *)

Definition as_type (t : Z) (l : list Z) : bool := bool_decide (t ∈ l).
(** The data of a record, [len] bytes long; [opt] is what its class and time to live
    mean when it is an OPT record. *)
Definition decode_rdata (c : idns_context) (type len : Z) (opt : Z * option bool) : dres (dns_rdata * idns_context) :=
  if type =? RR_A then decode_rr_a c len
  else if type =? RR_SOA then decode_rr_soa c len
  else if type =? RR_NAPTR then decode_rr_naptr c len
  else if type =? RR_AAAA then decode_rr_aaaa c len
  else if type =? RR_SRV then decode_rr_srv c len
  else if type =? RR_WKS then decode_rr_wks c len
  else if type =? RR_GPOS then decode_rr_gpos c
  else if type =? RR_LOC then decode_rr_loc c len
  else if type =? RR_OPT then decode_rr_opt c (fst opt) (snd opt) len
  else if as_type type [RR_PX; RR_RP; RR_MINFO] then decode_rr_minfo c
  else if as_type type [RR_AFSDB; RR_RT; RR_MX] then decode_rr_mx c len
  else if as_type type [RR_NSAP; RR_ISDN; RR_HINFO] then decode_rr_hinfo c
  else if as_type type [RR_X25; RR_SPF; RR_TXT] then decode_rr_txt c len
  else if as_type type [RR_NSAP_PTR; RR_MD; RR_MF; RR_MB; RR_MG; RR_MR; RR_NS; RR_PTR; RR_CNAME] then
    x ← read_domain c; let '(cname, c) := x in Got (A_cname cname, c)
  else x ← read_raw len c; let '(rawdata, c) := x in Got (A_x len rawdata, c).

(** Type, class, time to live and length; of an OPT record, what it has in their place. *)
Definition decode_fixed (c : idns_context) : dres (Z * Z * Z * (Z * option bool) * Z * idns_context) :=
  x ← get16 c; let '(type, c) := x in
  x ← (if type =? RR_OPT then
         x ← get16 c; let '(udp_payload, c) := x in
         w ← bytes_at (b_ptr (parse c)) 4;
         let c := Context_ (parse c) (dest c) (mem c) (Z.lor (Z.shiftl (znth w 0) 4) (response_rcode c)) (edns c) in
         if negb (znth w 1 =? 0) then Code RCODE_FORMAT_ERROR else
         let fdo := if Z.land (znth w 2) 0x80 =? 0x80 then Some true else None in
         if negb (Z.land (znth w 2) 0x7F =? 0) then Code RCODE_FORMAT_ERROR else
         if negb (znth w 3 =? 0) then Code RCODE_FORMAT_ERROR else
         Got (CLASS_UNKNOWN, 0, (udp_payload, fdo), with_parse c (skip 4 (parse c)))
       else
         x ← get16 c; let '(class, c) := x in
         x ← get32 c; let '(ttl, c) := x in
         Got (class, ttl, (0, None), c));
  let '(class, ttl, opt, c) := x in
  x ← get16 c; let '(len, c) := x in Got (type, class, ttl, opt, len, c).
Definition decode_answer (c : idns_context) : dres (dns_answer_t * idns_context) :=
  x ← read_domain c; let '(name, c) := x in
  if b_size (parse c) <? 10 then Code RCODE_FORMAT_ERROR else
  x ← decode_fixed c; let '(type, class, ttl, opt, len, c) := x in
  let rest := zlen pkt - b_ptr (parse c) in
  if rest <? len then Code RCODE_FORMAT_ERROR else
  x ← decode_rdata c type len opt; let '(data, c) := x in
  Got (mkAnswer name type class ttl data, c).

(** [n] questions or records, one after the other. *)
Fixpoint decode_many {X} (decode : idns_context -> dres (X * idns_context)) (n : nat) (c : idns_context) : dres (list X * idns_context) :=
  match n with
  | O => Got ([], c)
  | S n' => x ← decode c; let '(a, c) := x in
            x ← decode_many decode n' c; let '(l, c) := x in Got (a :: l, c)
  end.

(** ** The message *)

Definition decode_header (w : list Z) : dns_header :=
  let op := znth w 2 in let rc := znth w 3 in
  mkHeader (znth w 0 * 256 + znth w 1) (negb (Z.land op 0x80 =? 0x80)) (Z.land (Z.shiftr op 3) 0x0F)
    (Z.land op 0x04 =? 0x04) (Z.land op 0x02 =? 0x02) (Z.land op 0x01 =? 0x01)
    (Z.land rc 0x80 =? 0x80) (Z.land rc 0x20 =? 0x20) (Z.land rc 0x10 =? 0x10) (Z.land rc 0x0F).
(** The array of a section: NULL is an error when it has elements. *)
Definition alloc_array (pool : block) (count sizeof : Z) : bool * block :=
  let '(p, pool) := alloc_struct pool (usize A (count * sizeof)) in (negb (count =? 0) && bool_decide (p = None), pool).
(** [memory] is the block given for the result, an array of words big enough for
    [dns_query_t]; the result is the response, the memory and how much of it is used. *)
Definition dns_decode (memory : list Z) : dres (dns_response * list Z * Z) :=
  let prsize := zlen memory in
  if (prsize <? sizeof_dns_query_t A) || negb (prsize mod MEM_ALIGN A =? 0) then Bad else
  let '(_, pool) := alloc_struct (Block prsize 0) (sizeof_dns_query_t A) in
  w ← bytes_at 0 sizeof_idns_header;
  if negb (Z.land (znth w 3) 0x40 =? 0) then Code RCODE_FORMAT_ERROR else
  let h := decode_header w in
  let qdcount := znth w 4 * 256 + znth w 5 in
  let ancount := znth w 6 * 256 + znth w 7 in
  let nscount := znth w 8 * 256 + znth w 9 in
  let arcount := znth w 10 * 256 + znth w 11 in
  let '(e1, pool) := alloc_array pool qdcount (sizeof_dns_question_t A) in
  let '(e2, pool) := alloc_array pool ancount (sizeof_dns_answer_t A) in
  let '(e3, pool) := alloc_array pool nscount (sizeof_dns_answer_t A) in
  let '(e4, pool) := alloc_array pool arcount (sizeof_dns_answer_t A) in
  if e1 || e2 || e3 || e4 then Code RCODE_NO_MEMORY else
  let c := Context_ (Block (zlen pkt - sizeof_idns_header) sizeof_idns_header) pool memory (rcode h) false in
  x ← decode_many decode_question (Z.to_nat qdcount) c; let '(questions, c) := x in
  x ← decode_many decode_answer (Z.to_nat ancount) c; let '(answers, c) := x in
  if edns c then Code RCODE_FORMAT_ERROR else
  x ← decode_many decode_answer (Z.to_nat nscount) c; let '(nameservers, c) := x in
  if edns c then Code RCODE_FORMAT_ERROR else
  x ← decode_many decode_answer (Z.to_nat arcount) c; let '(additional, c) := x in
  let h := mkHeader (id h) (query h) (opcode h) (aa h) (tc h) (rd h) (ra h) (ad h) (cd h) (response_rcode c) in
  Got (mkResponse h questions answers nameservers additional, mem c, b_ptr (dest c)).
End Records.
End Decode.
End Codec.

(** ** Encoding *)

(** What a query asks: its names are strings here. *)
Record question := mkQ { qs_name : list Z; qs_type : Z; qs_class : Z }.
(** An option with its data; [numopts] and [opts] are the list. *)
Record opt_rr := mkOptRR { udp_payload : Z; opt_version : Z; opt_fdo : bool; opt_opts : list (Z * list Z) }.
Record dns_query := mkQuery { q_header : dns_header; q_questions : list question; q_additional : list opt_rr }.

(** The packet that is filled: all of it, and [data]. *)
Definition out : Type := list Z * block.
Definition poke (o : Z) (bytes buf : list Z) : dres (list Z) := match bwrite o bytes buf with Ok buf => Got buf | _ => Bad end.
Definition put (bytes : list Z) (o : out) : dres out :=
  let '(buf, d) := o in
  buf ← poke (b_ptr d) bytes buf; Got (buf, Block (b_size d - zlen bytes) (b_ptr d + zlen bytes)).
Definition word16 (v : Z) : list Z := [Z.land (Z.shiftr (u16 v) 8) 0xFF; Z.land (u16 v) 0xFF].
Definition write_uint16 (v : Z) (o : out) : dres out := put (word16 v) o.

(** [memchr]: where the first [c] is. *)
Fixpoint memchr (l : list Z) (c : Z) : option Z :=
  match l with
  | [] => None
  | b :: r => if b =? c then Some 0 else (fun i => i + 1) <$> memchr r c
  end.
(** The loop over the labels of the name that was copied to [start]: the place in front of
    each gets its length.  The packet, where the last length belongs, and the end. *)
Fixpoint name_loop (fuel : nat) (buf : list Z) (start back_ptr len : Z) : dres (list Z * Z * Z) :=
  match fuel with
  | O => Spent
  | S fuel' =>
      if len =? 0 then Got (buf, back_ptr, start) else
      match memchr (slice start len buf) 46 with
      | None => Bad
      | Some delta =>
          if 63 <? delta then Code RCODE_NAME_ERROR else
          buf ← poke back_ptr [u8 delta] buf;
          name_loop fuel' buf (start + delta + 1) (start + delta) (len - (delta + 1))
      end
  end.
Definition dns_encode_domain (q : question) (o : out) : dres out :=
  let '(buf, d) := o in
  match last (qs_name q) with
  | None => Bad
  | Some c =>
      if negb (c =? 46) then Code RCODE_NAME_ERROR else
      let len := zlen (qs_name q) in
      if b_size d <? len + 5 then Code RCODE_NO_MEMORY else
      buf ← poke (b_ptr d + 1) (qs_name q) buf;
      x ← name_loop (S (length (qs_name q))) buf (b_ptr d + 1) (b_ptr d) len;
      let '(buf, back_ptr, ptr) := x in
      buf ← poke back_ptr [0] buf;
      buf ← poke ptr (word16 (qs_type q) ++ word16 (qs_class q)) buf;
      Got (buf, Block (b_size d - (len + 5)) (ptr + 4))
  end.

Definition hex_upper (d : Z) : Z := if d <? 10 then 48 + d else 55 + d.
Definition nsid_text (data : list Z) : list Z := flat_map (fun b => [hex_upper (b / 16); hex_upper (b mod 16)]) data.
Definition encode_edns0rr_nsid (opt : Z * list Z) (o : out) : dres out :=
  let newlen := zlen (snd opt) * 2 in
  if b_size (snd o) <? newlen + 4 then Code RCODE_NO_MEMORY else
  o ← write_uint16 (fst opt) o; o ← write_uint16 newlen o; put (nsid_text (snd opt)) o.
Definition encode_edns0rr_raw (opt : Z * list Z) (o : out) : dres out :=
  if b_size (snd o) <? zlen (snd opt) + 4 then Code RCODE_NO_MEMORY else
  o ← write_uint16 (fst opt) o; o ← write_uint16 (zlen (snd opt)) o; put (snd opt) o.
Fixpoint encode_opts (opts : list (Z * list Z)) (o : out) : dres out :=
  match opts with
  | [] => Got o
  | opt :: r => o ← (if fst opt =? EDNS0RR_NSID then encode_edns0rr_nsid opt o else encode_edns0rr_raw opt o); encode_opts r o
  end.
Definition encode_rr_opt (q : dns_query) (opt : opt_rr) (o : out) : dres out :=
  if b_size (snd o) <? 11 then Code RCODE_NO_MEMORY else
  o ← put [0] o;
  o ← write_uint16 RR_OPT o; o ← write_uint16 (udp_payload opt) o;
  o ← put [u8 (Z.shiftr (rcode (q_header q)) 4); u8 (opt_version opt); if opt_fdo opt then 0x80 else 0; 0] o;
  let prdlen := b_ptr (snd o) in
  o ← write_uint16 0 o;
  o ← encode_opts (opt_opts opt) o;
  let rdlen := b_ptr (snd o) - prdlen - 2 in
  buf ← poke prdlen [Z.land (Z.shiftr rdlen 8) 0xFF; Z.land rdlen 0xFF] (fst o);
  Got (buf, snd o).

Fixpoint encode_all {X} (encode : X -> out -> dres out) (l : list X) (o : out) : dres out :=
  match l with
  | [] => Got o
  | x :: r => o ← encode x o; encode_all encode r o
  end.
Definition flag (b : bool) (v : Z) : Z := if b then v else 0.
Definition encode_header (h : dns_header) (qdcount arcount : Z) : list Z :=
  word16 (id h) ++
  [Z.lor (Z.lor (Z.lor (Z.lor (Z.shiftl (Z.land (opcode h) 0x0F) 3) (flag (negb (query h)) 0x80)) (flag (aa h) 0x04)) (flag (tc h) 0x02)) (flag (rd h) 0x01);
   Z.lor (Z.lor (Z.lor (Z.land (rcode h) 0x0F) (flag (ra h) 0x80)) (flag (ad h) 0x20)) (flag (cd h) 0x10)] ++
  word16 qdcount ++ word16 0 ++ word16 0 ++ word16 arcount.
(** The query in a packet of [plen] bytes: the packet and how much of it is used. *)
Definition dns_encode (plen : Z) (q : dns_query) : dres (list Z * Z) :=
  if plen <? sizeof_idns_header then Bad else
  let hdr := encode_header (q_header q) (zlen (q_questions q)) (zlen (q_additional q)) in
  let o := (hdr ++ zrep (plen - sizeof_idns_header) 0, Block (plen - sizeof_idns_header) sizeof_idns_header) in
  o ← encode_all dns_encode_domain (q_questions q) o;
  o ← encode_all (encode_rr_opt q) (q_additional q) o;
  Got (fst o, b_ptr (snd o)).
