(* ===== verification/DnsTotal.v ===== *)
(** * The DNS decoder always answers

    Whatever the packet and the block: the loops of [dns_decode] end within the fuel they
    are given, so that a spent tank is never the result.  Compression pointers are the
    hard case; what bounds them is the count of the jumps. *)

From S2P Require Import Prelude CLib DnsTypes DnsCodec.

(** [m] is a behaviour of the code. *)
Definition ends {X} (m : dres X) : Prop := m <> Spent.
Create HintDb ends.

Lemma ends_bind {X Y} (m : dres X) (f : X -> dres Y) : ends m -> (forall x, m = Got x -> ends (f x)) -> ends (m ≫= f).
Proof. intros Hm Hf. destruct m; cbn; [by apply Hf | done..]. Qed.
Lemma ends_Got {X} (x : X) : ends (Got x).
Proof. done. Qed.
Lemma ends_Code {X} rc : ends (@Code X rc).
Proof. done. Qed.
Lemma ends_Bad {X} : ends (@Bad X).
Proof. done. Qed.
#[export] Hint Resolve ends_Got ends_Code ends_Bad : ends.
(** Step by step through a body: binds, tests and pairs; calls by the hints. *)
Ltac ends_step :=
  match goal with
  | |- ends (_ ≫= _) => apply ends_bind; [|let x := fresh "x" in intros x _]
  | |- ends (if ?b then _ else _) => destruct b
  | |- ends (let '(_, _) := ?x in _) => destruct x
  | |- ends (match ?x with None => _ | Some _ => _ end) => destruct x
  | |- ends _ => solve [eauto with ends]
  end.
Ltac ends := repeat (cbv zeta; ends_step).

Section Total.
Context (A : abi) (pkt : list Z) (Hpkt : Forall is_byte pkt).

Lemma byte_at_Got o b : byte_at pkt o = Got b -> 0 <= o < zlen pkt /\ is_byte b.
Proof.
  unfold byte_at. destruct (_ && _) eqn:E; [|done]. intros [= <-]. apply andb_prop in E as [?%Z.leb_le ?%Z.ltb_lt]. split; [done|].
  unfold znth. apply Forall_nth; [done|]. unfold zlen in *. lia.
Qed.
Lemma byte_at_ends o : ends (byte_at pkt o).
Proof. unfold byte_at. ends. Qed.
Lemma bytes_at_ends o n : ends (bytes_at pkt o n).
Proof. unfold bytes_at. ends. Qed.
Lemma store_ends bytes c : ends (store A bytes c).
Proof. unfold store. ends. Qed.
Hint Resolve byte_at_ends bytes_at_ends store_ends : ends.
Lemma bytes_at_Got o n w : bytes_at pkt o n = Got w -> Forall is_byte w /\ zlen w = n /\ w = slice o n pkt.
Proof.
  unfold bytes_at. destruct (_ && _) eqn:E; [|done]. intros [= <-]. apply andb_prop in E as [E ?%Z.leb_le]. apply andb_prop in E as [?%Z.leb_le ?%Z.leb_le].
  split; [by apply Forall_take, Forall_drop | by rewrite zlen_slice].
Qed.

Lemma read_uint16_ends b : ends (read_uint16 A pkt b).
Proof. unfold read_uint16. ends. Qed.
Lemma read_uint32_ends b : ends (read_uint32 A pkt b).
Proof. unfold read_uint32. ends. Qed.
Hint Resolve read_uint16_ends read_uint32_ends : ends.
Lemma get16_ends c : ends (get16 A pkt c).
Proof. unfold get16. ends. Qed.
Lemma get32_ends c : ends (get32 A pkt c).
Proof. unfold get32. ends. Qed.
Lemma read_raw_ends len c : ends (read_raw A pkt len c).
Proof. unfold read_raw. ends. Qed.
Lemma read_string_ends c : ends (read_string A pkt c).
Proof. unfold read_string. ends. Qed.
Lemma get_bytes_ends n c : ends (get_bytes A pkt n c).
Proof. unfold get_bytes. ends. Qed.
Hint Resolve get16_ends get32_ends read_raw_ends read_string_ends get_bytes_ends : ends.

(** Turns left: a label takes the place forward, a pointer anywhere, but 255 times at most. *)
Definition turns (o loop : Z) : Z := (255 - loop) * (zlen pkt + 1) + (zlen pkt - o) + 1.
Lemma read_labels_ends fuel : forall cur own loop c, (0 < fuel)%nat -> loop <= 255 ->
  (0 <= b_ptr cur < zlen pkt -> turns (b_ptr cur) loop <= Z.of_nat fuel) -> ends (read_labels A pkt fuel cur own loop c).
Proof.
  induction fuel as [|fuel IH]; intros cur own loop c Hf Hl Ht; [lia|]. cbn [read_labels].
  apply ends_bind; [auto with ends|]. intros b Hb0. pose proof (byte_at_Got _ _ Hb0) as [Ho Hb]. specialize (Ht Ho).
  apply ends_bind; [ends|]. intros [[[cur' own'] loop'] c'] Hx.
  assert (turns (b_ptr cur') loop' < turns (b_ptr cur) loop /\ loop' <= 255 \/ cur' = cur /\ b = 0) as H.
  { revert Hx. unfold turns. destruct (Z.ltb_spec b 64) as [Eb|Eb].
    - do 2 (destruct (_ <? _); [done|]). destruct (bytes_at _ _ _); [|done..]. cbn [mbind dres_bind].
      destruct (store _ _ _); [|done..]. cbn [mbind dres_bind]. intros [= <- <- <- <-].
      destruct (b =? 0) eqn:E0; [right; split; [done|by apply Z.eqb_eq]|]. left. cbn [skip b_ptr]. unfold is_byte in Hb. lia.
    - destruct (192 <=? b); [|done]. destruct (loop + 1 =? 256) eqn:E1; [done|]. destruct (_ <? 2); [done|].
      destruct (read_uint16 _ _ _) as [[w cur1]| | |]; [|done..]. cbn [mbind dres_bind].
      destruct (_ <=? _) eqn:E2; [done|]. intros [= <- <- <- <-]. left. cbn [b_ptr]. apply Z.leb_gt in E2. apply Z.eqb_neq in E1.
      assert (0 <= Z.land w 16383) by (apply Z.land_nonneg; lia). split; nia. }
  apply ends_bind; [auto with ends|]. intros next Hn. destruct (next =? 0) eqn:E; [done|]. apply Z.eqb_neq in E.
  pose proof (byte_at_Got _ _ Hn) as [Hr _]. destruct H as [[Hlt Hl']|[-> ->]]; [|rewrite Hb0 in Hn; by injection Hn as <-].
  assert (1 < turns (b_ptr cur') loop') by (unfold turns; nia).
  apply IH; lia.
Qed.
Lemma read_domain_ends c : ends (read_domain A pkt c).
Proof.
  unfold read_domain. apply ends_bind; [|intros [[cur own] c'] _; ends].
  apply read_labels_ends; unfold domain_fuel; [lia..|]. intros. unfold turns, zlen. lia.
Qed.
Hint Resolve read_domain_ends : ends.

(** The strings of a text: each takes room away from the packet that is left. *)
Lemma usize_le z : word_ok A -> 0 <= z -> usize A z <= z.
Proof. intros [H|H] Hz; unfold usize; rewrite H; apply Z.mod_le; cbn; lia. Qed.
Lemma txt_items_ends fuel : word_ok A -> forall tmp worklen items total,
  (0 < fuel)%nat -> b_size tmp < Z.of_nat fuel -> ends (txt_items A pkt fuel tmp worklen items total).
Proof.
  intros Hw. induction fuel as [|fuel IH]; intros tmp worklen items total Hf Hs; [lia|]. cbn [txt_items].
  destruct (_ =? 0); [done|]. apply ends_bind; [auto with ends|]. intros b [Ho Hb]%byte_at_Got. unfold is_byte in Hb. cbv zeta.
  destruct (Z.ltb_spec (b_size tmp) (b + 1)); [done|].
  pose proof (usize_le (b_size tmp - (b + 1)) Hw ltac:(lia)). apply IH; cbn [skip b_size]; lia.
Qed.
Lemma txt_copy_ends n c : ends (txt_copy A pkt n c).
Proof. revert c. induction n as [|n IH]; intros c; cbn [txt_copy]; [done|]. ends. Qed.
Lemma znth_byte w i : Forall is_byte w -> is_byte (znth w i).
Proof. intros H. unfold znth. destruct (decide (Z.to_nat i < length w)%nat); [by apply Forall_nth | by rewrite nth_overflow by lia]. Qed.
Lemma count_opts_ends fuel : forall scan length n, (0 < fuel)%nat -> length < Z.of_nat fuel -> ends (count_opts pkt fuel scan length n).
Proof.
  induction fuel as [|fuel IH]; intros scan length n Hf Hl; [lia|]. cbn [count_opts].
  destruct (Z.leb_spec length 0); [done|]. apply ends_bind; [auto with ends|]. intros w Hw. apply bytes_at_Got in Hw as (Hb & Hz & _).
  assert (0 <= Z.lor (Z.shiftl (znth w 0) 8) (znth w 1)).
  { apply Z.lor_nonneg. split; [apply Z.shiftl_nonneg|]; by apply znth_byte. }
  cbv zeta. destruct (Z.ltb_spec length (Z.lor (Z.shiftl (znth w 0) 8) (znth w 1) + 4)); [done|]. apply IH; lia.
Qed.
Lemma nsid_bytes_ends n o c : ends (nsid_bytes A pkt n o c).
Proof. revert o c. induction n as [|n IH]; intros o c; cbn [nsid_bytes]; [done|]. ends. Qed.
Hint Resolve txt_copy_ends nsid_bytes_ends : ends.
Lemma decode_nsid_ends len c : ends (decode_edns0rr_nsid A pkt len c).
Proof. unfold decode_edns0rr_nsid. ends. Qed.
Lemma decode_raw_ends len c : ends (decode_edns0rr_raw A pkt len c).
Proof. unfold decode_edns0rr_raw. ends. Qed.
Hint Resolve decode_nsid_ends decode_raw_ends : ends.
Lemma decode_opts_ends n c : ends (decode_opts A pkt n c).
Proof. revert c. induction n as [|n IH]; intros c; cbn [decode_opts]; [done|]. ends. Qed.
Hint Resolve decode_opts_ends : ends.

Lemma decode_many_ends {X} (decode : idns_context -> dres (X * idns_context)) n c :
  (forall c, ends (decode c)) -> ends (decode_many decode n c).
Proof. intros H. revert c. induction n as [|n IH]; intros c; cbn [decode_many]; [done|]. ends. Qed.
Lemma decode_question_ends c : ends (decode_question A pkt c).
Proof. unfold decode_question. ends. Qed.

Context `{F : Floats} (Hw : word_ok A).

Lemma dloc_double_ends c : ends (dloc_double A pkt c).
Proof. unfold dloc_double. ends. Qed.
Lemma dloc_scale_ends s : ends (dloc_scale A s).
Proof. unfold dloc_scale. ends. Qed.
Hint Resolve dloc_double_ends dloc_scale_ends : ends.
Lemma decode_rr_opt_ends c udp fdo len : ends (decode_rr_opt A pkt c udp fdo len).
Proof.
  unfold decode_rr_opt. cbv zeta. destruct (edns c); [done|]. destruct (len =? 0); [done|]. apply ends_bind; [|intros; ends].
  apply count_opts_ends; lia.
Qed.
Lemma decode_rr_txt_ends c len : ends (decode_rr_txt A pkt c len).
Proof. unfold decode_rr_txt. apply ends_bind; [|intros; ends]. apply txt_items_ends; [done|lia..]. Qed.
Hint Resolve decode_rr_opt_ends decode_rr_txt_ends : ends.
Lemma decode_rdata_ends c type len opt : ends (decode_rdata A pkt c type len opt).
Proof.
  unfold decode_rdata, decode_rr_a, decode_rr_soa, decode_rr_naptr, decode_rr_aaaa, decode_rr_srv, decode_rr_wks, decode_rr_gpos, decode_rr_loc,
    decode_rr_minfo, decode_rr_mx, decode_rr_hinfo. ends.
Qed.
Hint Resolve decode_rdata_ends : ends.
Lemma decode_fixed_ends c : ends (decode_fixed A pkt c).
Proof. unfold decode_fixed. ends. Qed.
Hint Resolve decode_fixed_ends : ends.
Lemma decode_answer_ends c : ends (decode_answer A pkt c).
Proof. unfold decode_answer. ends. Qed.
End Total.

(** C16: dns_decode returns: a response, a code, or it has done something undefined; no
    packet, however its compression pointers lead, keeps it in a loop. *)
Theorem dns_decode_ends `{Floats} A pkt memory : word_ok A -> Forall is_byte pkt -> dns_decode A pkt memory <> Spent.
Proof.
  intros Hw Hp. change (ends (dns_decode A pkt memory)). pose proof (decode_question_ends A pkt Hp). pose proof (decode_answer_ends A pkt Hp Hw).
  assert (forall o n, ends (bytes_at pkt o n)) by (intros; by apply bytes_at_ends). assert (forall o, ends (byte_at pkt o)) by (intros; by apply byte_at_ends).
  unfold dns_decode. repeat (cbv zeta; (apply ends_bind; [by first [apply decode_many_ends | auto]|intros; cbv beta]) || ends_step).
Qed.
(** Numbers of GPOS records as integers. *)
Definition Z_floats : Floats := {| double := Z; strtod := fun s => Some (zlen s); negative := fun z => z <? 0; fabs := Z.abs; angle_parts := fun z => (z, 0, 0, 0) |}.
(** A name that points to itself. *)
Definition looping_packet : list Z := [0; 1; 0; 0; 0; 1; 0; 0; 0; 0; 0; 0; 0xC0; 12; 0; 1; 0; 1].
Lemma dns_decode_ends_witness : let F := Z_floats in
  dns_decode mips32 looping_packet (zrep 256 0) <> Spent /\ dns_decode mips32 looping_packet (zrep 256 0) = Code RCODE_FORMAT_ERROR.
Proof.
  cbv zeta. split; [|vm_compute; reflexivity].
  apply (dns_decode_ends (H := Z_floats)); [by left|]. apply (bool_decide_unpack _). vm_compute. exact I.
Defined.
