(* ===== verification/DnsEncode.v ===== *)
(** * What the DNS encoder writes

    The wire format of queries, and that [dns_encode] writes it in the room it is given
    or says that there is not enough.  Labels are cut out of the name in place, so the
    loop is related to the list of labels. *)

From S2P Require Import Prelude CLib DnsTypes DnsCodec.

(** ** The format *)

(** A name as text, every label with its dot, and on the wire, every label behind its
    length. *)
Definition name_text (ls : list (list Z)) : list Z := flat_map (fun l => l ++ [46]) ls.
Definition wire_labels (ls : list (list Z)) : list Z := flat_map (fun l => zlen l :: l) ls.
Definition wire_question (ls : list (list Z)) (q : question) : list Z :=
  wire_labels ls ++ [0] ++ word16 (qs_type q) ++ word16 (qs_class q).
Definition opt_data (opt : Z * list Z) : list Z := if fst opt =? EDNS0RR_NSID then nsid_text (snd opt) else snd opt.
Definition wire_opt (opt : Z * list Z) : list Z := word16 (fst opt) ++ word16 (zlen (opt_data opt)) ++ opt_data opt.
Definition wire_opt_rr (rc : Z) (opt : opt_rr) : list Z :=
  [0] ++ word16 RR_OPT ++ word16 (udp_payload opt) ++
  [u8 (Z.shiftr rc 4); u8 (opt_version opt); if opt_fdo opt then 0x80 else 0; 0] ++
  word16 (zlen (flat_map wire_opt (opt_opts opt))) ++ flat_map wire_opt (opt_opts opt).
Definition wire_query (q : dns_query) (names : list (list (list Z))) : list Z :=
  encode_header (q_header q) (zlen (q_questions q)) (zlen (q_additional q)) ++
  concat (zip_with wire_question names (q_questions q)) ++
  flat_map (wire_opt_rr (rcode (q_header q))) (q_additional q).
(** A label of the format: 1 to 63 bytes, without a dot. *)
Definition dotless (l : list Z) : Prop := Forall (fun c => c <> 46) l.
Definition label_ok (l : list Z) : Prop := dotless l /\ 0 < zlen l <= 63.
#[export] Instance label_ok_dec l : Decision (label_ok l).
Proof. unfold label_ok, dotless. apply _. Defined.
(** [q] asks for the names with these labels, none of them the root. *)
Definition asks (names : list (list (list Z))) (qs : list question) : Prop :=
  Forall2 (fun ls q => qs_name q = name_text ls /\ ls <> [] /\ Forall label_ok ls) names qs.

Lemma zlen_wire_labels ls : zlen (wire_labels ls) = zlen (name_text ls).
Proof. induction ls as [|l ls IH]; [done|]. cbn [wire_labels name_text flat_map] in *. rewrite !zlen_app, zlen_cons. cbn [zlen length] in *. 
  unfold wire_labels, name_text in IH. rewrite IH. zlen. Qed.

(** ** Writing into zeroed room *)

(** The packet when [pre] is written and [n] bytes are left, as [memset] cleared them. *)
Definition at_ (pre : list Z) (n : Z) : out := (pre ++ zrep n 0, Block n (zlen pre)).

Lemma poke_mid pre old bytes post o :
  o = zlen pre -> zlen old = zlen bytes -> poke o bytes (pre ++ old ++ post) = Got (pre ++ bytes ++ post).
Proof.
  intros -> E. pose proof (zlen_nonneg pre). pose proof (zlen_nonneg post). unfold poke. rewrite bwrite_in by zlen.
  f_equal. unfold splice. rewrite ztake_prefix. do 2 f_equal. rewrite <- E, app_assoc, <- zlen_app.
  unfold zdrop, zlen. by rewrite Nat2Z.id, drop_app_length.
Qed.
Lemma zrep_split n m : 0 <= m <= n -> zrep n 0 = zrep m 0 ++ zrep (n - m) 0.
Proof. intros. unfold zrep. rewrite <- replicate_add. f_equal. lia. Qed.
Lemma put_at bytes pre n : zlen bytes <= n -> put bytes (at_ pre n) = Got (at_ (pre ++ bytes) (n - zlen bytes)).
Proof.
  intros. pose proof (zlen_nonneg bytes). unfold put, at_. cbn [b_ptr b_size].
  rewrite (zrep_split n (zlen bytes)) by lia. rewrite (poke_mid pre) by zlen.
  cbn [mbind dres_bind]. by rewrite app_assoc, zlen_app.
Qed.
(** [f] writes [w], or says that there is no room for it. *)
Definition writes (f : out -> dres out) (w : list Z) : Prop := forall pre n, 0 <= n ->
  f (at_ pre n) = if zlen w <=? n then Got (at_ (pre ++ w) (n - zlen w)) else Code RCODE_NO_MEMORY.
Lemma writes_bind f g w v : writes f w -> writes g v -> writes (fun o => f o ≫= g) (w ++ v).
Proof.
  intros Hf Hg pre n Hn. pose proof (zlen_nonneg v). rewrite (Hf pre n Hn), zlen_app.
  destruct (zlen w <=? n) eqn:E; cbn [mbind dres_bind].
  - apply Z.leb_le in E. rewrite Hg by lia. rewrite <- app_assoc.
    replace (zlen w + zlen v <=? n) with (zlen v <=? n - zlen w) by (destruct (Z.leb_spec (zlen v) (n - zlen w)), (Z.leb_spec (zlen w + zlen v) n); lia).
    destruct (_ <=? _); [|done]. by rewrite Z.sub_add_distr.
  - apply Z.leb_gt in E. by rewrite (proj2 (Z.leb_gt _ _)) by lia.
Qed.
Lemma writes_all {X} (f : X -> out -> dres out) (w : X -> list Z) l :
  (forall x, x ∈ l -> writes (f x) (w x)) -> writes (encode_all f l) (flat_map w l).
Proof.
  induction l as [|x l IH]; intros H.
  - intros pre n Hn. cbn [encode_all flat_map]. change (zlen []) with 0. rewrite (proj2 (Z.leb_le 0 n)) by done. by rewrite app_nil_r, Z.sub_0_r.
  - cbn [encode_all flat_map]. apply (writes_bind (f x) (encode_all f l)); [apply H | apply IH; intros; apply H]; by (left || right).
Qed.
(** Room that is checked once for several stores. *)
Lemma writes_checked f w k :
  k = zlen w -> (forall pre n, zlen w <= n -> f (at_ pre n) = Got (at_ (pre ++ w) (n - zlen w))) ->
  writes (fun o => if b_size (snd o) <? k then Code RCODE_NO_MEMORY else f o) w.
Proof.
  intros -> H pre n Hn. unfold at_ at 1. cbn [snd b_size].
  destruct (Z.ltb_spec n (zlen w)), (Z.leb_spec (zlen w) n); try lia; [done|]. by apply H.
Qed.

Lemma zlen_word16 v : zlen (word16 v) = 2.
Proof. reflexivity. Qed.
#[export] Hint Rewrite zlen_word16 : zlen.

(** ** Names *)

(** What the loop lets pass: an empty label too. *)
Definition label_fits (l : list Z) : Prop := dotless l /\ zlen l <= 63.
Lemma labels_fit ls : Forall label_ok ls -> Forall label_fits ls.
Proof. intros H. eapply Forall_impl; [exact H|]. intros l [? [_ ?]]. by split. Qed.

Lemma memchr_dot l r : dotless l -> memchr (l ++ 46 :: r) 46 = Some (zlen l).
Proof.
  induction 1 as [|b l Hb Hl IH]; [done|]. cbn [app memchr]. rewrite (proj2 (Z.eqb_neq _ _) Hb), IH.
  cbn. f_equal. rewrite zlen_cons. lia.
Qed.
Lemma name_text_cons l ls : name_text (l :: ls) = l ++ 46 :: name_text ls.
Proof. cbn [name_text flat_map]. by rewrite <- app_assoc. Qed.
Lemma wire_labels_cons l ls : wire_labels (l :: ls) = (zlen l :: l) ++ wire_labels ls.
Proof. done. Qed.
Lemma length_name_text ls : (length ls <= length (name_text ls))%nat.
Proof. induction ls as [|l ls IH]; [done|]. rewrite name_text_cons, length_app. cbn [length]. lia. Qed.
Lemma name_loop_spec ls : forall fuel pre x post start back len, Forall label_fits ls -> (length ls < fuel)%nat ->
  start = zlen pre + 1 -> back = zlen pre -> len = zlen (name_text ls) ->
  exists y, name_loop fuel (pre ++ x :: name_text ls ++ post) start back len =
    Got (pre ++ wire_labels ls ++ y :: post, zlen (pre ++ wire_labels ls), zlen (pre ++ wire_labels ls) + 1).
Proof.
  induction ls as [|l ls IH]; intros fuel pre x post start back len Hls Hf -> -> ->; (destruct fuel as [|fuel]; [cbn [length] in Hf; lia|]).
  - exists x. cbn [name_loop]. change (zlen (name_text [])) with 0. cbn [Z.eqb]. by rewrite app_nil_r.
  - apply Forall_cons in Hls as [[Hd H63] Hls]. pose proof (zlen_nonneg l). pose proof (zlen_nonneg (name_text ls)). rewrite name_text_cons.
    assert (zlen (l ++ 46 :: name_text ls) = zlen l + 1 + zlen (name_text ls)) as El by zlen.
    cbn [name_loop]. rewrite (proj2 (Z.eqb_neq (zlen (l ++ _)) 0)) by lia.
    rewrite (slice_at (pre ++ [x]) (l ++ 46 :: name_text ls) post) by first [by rewrite <- !app_assoc | zlen].
    rewrite memchr_dot by done. rewrite (proj2 (Z.ltb_ge 63 (zlen l))) by done.
    rewrite (poke_mid pre [x] [u8 (zlen l)] ((l ++ 46 :: name_text ls) ++ post)) by done. cbn [mbind dres_bind].
    unfold u8. rewrite Z.mod_small by lia.
    destruct (IH fuel (pre ++ zlen l :: l) 46 post (zlen pre + 1 + zlen l + 1) (zlen pre + 1 + zlen l)
                (zlen (l ++ 46 :: name_text ls) - (zlen l + 1))) as [y Hy]; [done | cbn [length] in Hf; lia | zlen..|].
    exists y. rewrite wire_labels_cons. rewrite <- ?app_assoc in *. cbn [app] in *. rewrite <- ?app_assoc in *. done.
Qed.
Lemma last_name_text ls : ls <> [] -> last (name_text ls) = Some 46.
Proof.
  induction ls as [|l ls IH]; [done|]. intros _. rewrite name_text_cons, last_app. destruct ls as [|l' ls]; [done|].
  rewrite last_cons, IH by done. done.
Qed.
Lemma writes_domain ls q : ls <> [] -> Forall label_fits ls -> qs_name q = name_text ls -> writes (dns_encode_domain q) (wire_question ls q).
Proof.
  intros Hne Hls Hq pre n Hn. unfold dns_encode_domain, at_ at 1. rewrite Hq, last_name_text by done. cbn [Z.eqb Pos.eqb negb b_size b_ptr].
  assert (zlen (wire_question ls q) = zlen (name_text ls) + 5) as El by (unfold wire_question; rewrite !zlen_app, zlen_wire_labels, !zlen_word16; change (zlen [0]) with 1; lia).
  rewrite El. destruct (Z.ltb_spec n (zlen (name_text ls) + 5)), (Z.leb_spec (zlen (name_text ls) + 5) n); try lia; [done|].
  pose proof (zlen_nonneg (name_text ls)). set (w := name_text ls) in *.
  rewrite (zrep_split n (zlen w + 5)), (zrep_split (zlen w + 5) (zlen w + 1)), (zrep_split (zlen w + 1) 1) by lia.
  replace (zlen w + 1 - 1) with (zlen w) by lia. replace (zlen w + 5 - (zlen w + 1)) with 4 by lia.
  rewrite <- !app_assoc, (app_assoc pre). rewrite (poke_mid (pre ++ zrep 1 0)) by zlen. cbn [mbind dres_bind]. rewrite <- app_assoc.
  change (zrep 1 0 ++ ?l) with (0 :: l).
  destruct (name_loop_spec ls (S (length w)) pre 0 (zrep 4 0 ++ zrep (n - (zlen w + 5)) 0) (zlen pre + 1) (zlen pre) (zlen w)) as [y Hy];
    [done | pose proof (length_name_text ls); unfold w; lia | done..|]. fold w in Hy. rewrite Hy. cbn [mbind dres_bind].
  rewrite (app_assoc pre). rewrite (poke_mid (pre ++ wire_labels ls) [y] [0] (zrep 4 0 ++ zrep (n - (zlen w + 5)) 0)) by done. cbn [mbind dres_bind].
  rewrite (app_assoc _ [0]). rewrite (poke_mid ((pre ++ wire_labels ls) ++ [0]) (zrep 4 0)) by zlen. cbn [mbind dres_bind].
  f_equal. unfold at_. f_equal; [|f_equal; rewrite !zlen_app, zlen_wire_labels; change (zlen [0]) with 1; rewrite ?El, ?zlen_word16; fold w; lia].
  unfold wire_question. by rewrite <- !app_assoc.
Qed.

(** ** Options *)

Lemma word16_u16 v : word16 (u16 v) = word16 v.
Proof. unfold word16, u16. by rewrite Zmod_mod. Qed.
Lemma word16_bytes v : [Z.land (Z.shiftr v 8) 0xFF; Z.land v 0xFF] = word16 v.
Proof.
  unfold word16, u16. change 0xFF with (Z.ones 8). rewrite !Z.land_ones, !Z.shiftr_div_pow2 by lia.
  f_equal; [|f_equal]; change (2 ^ 16) with (2 ^ 8 * 2 ^ 8); dlia.
Qed.
Lemma zlen_nsid_text d : zlen (nsid_text d) = zlen d * 2.
Proof. induction d as [|b d IH]; [done|]. cbn [nsid_text flat_map app]. rewrite !zlen_cons. unfold nsid_text in IH. lia. Qed.
Lemma zlen_wire_opt opt : zlen (wire_opt opt) = zlen (opt_data opt) + 4.
Proof. unfold wire_opt. zlen. Qed.

(** Two numbers and data: the form of an option, under one check. *)
Lemma writes_field code len data k : k = zlen data + 4 ->
  writes (fun o => if b_size (snd o) <? k then Code RCODE_NO_MEMORY else o ← write_uint16 code o; o ← write_uint16 len o; put data o)
    (word16 code ++ word16 len ++ data).
Proof.
  intros ->. apply (writes_checked (fun o => o ← write_uint16 code o; o ← write_uint16 len o; put data o)); [zlen|].
  intros pre n Hn. pose proof (zlen_nonneg data). unfold write_uint16. do 2 (rewrite put_at by zlen; cbn [mbind dres_bind]).
  rewrite put_at by zlen. f_equal. f_equal; [by rewrite <- !app_assoc | zlen].
Qed.
Lemma writes_opt opt :
  writes (fun o => if fst opt =? EDNS0RR_NSID then encode_edns0rr_nsid opt o else encode_edns0rr_raw opt o) (wire_opt opt).
Proof.
  unfold wire_opt, opt_data, encode_edns0rr_nsid, encode_edns0rr_raw. destruct (fst opt =? _).
  - rewrite zlen_nsid_text. apply writes_field. by rewrite zlen_nsid_text.
  - by apply writes_field.
Qed.
Lemma encode_opts_all opts o : encode_opts opts o =
  encode_all (fun opt o => if fst opt =? EDNS0RR_NSID then encode_edns0rr_nsid opt o else encode_edns0rr_raw opt o) opts o.
Proof. revert o. induction opts as [|opt r IH]; intros o; [done|]. cbn [encode_opts encode_all]. destruct (if _ : bool then _ else _); cbn; [apply IH|done..]. Qed.
Lemma writes_opts opts : writes (encode_opts opts) (flat_map wire_opt opts).
Proof. intros pre n Hn. rewrite encode_opts_all. apply (writes_all _ wire_opt); [intros; apply writes_opt | done]. Qed.
Definition opt_head (rc : Z) (opt : opt_rr) : list Z :=
  [0] ++ word16 RR_OPT ++ word16 (udp_payload opt) ++
  [u8 (Z.shiftr rc 4); u8 (opt_version opt); if opt_fdo opt then 0x80 else 0; 0].
Lemma zlen_opt_head rc opt : zlen (opt_head rc opt) = 9.
Proof. reflexivity. Qed.
(** The fixed part of an OPT record is written; the options and the patched length follow. *)
Lemma encode_rr_opt_head q opt pre n : 11 <= n ->
  encode_rr_opt q opt (at_ pre n) =
  (let h := pre ++ opt_head (rcode (q_header q)) opt in
   o ← encode_opts (opt_opts opt) (at_ (h ++ word16 0) (n - 11));
   buf ← poke (zlen h) (word16 (b_ptr (snd o) - zlen h - 2)) (fst o); Got (buf, snd o)).
Proof.
  intros Hn. unfold encode_rr_opt, write_uint16. change (b_size (snd (at_ pre n))) with n. rewrite (proj2 (Z.ltb_ge _ _)) by done.
  set (flags := [u8 _; _; _; _]). assert (zlen flags = 4) by done. change (zlen [0]) with 1.
  do 5 (rewrite put_at by (zlen || done); cbn [mbind dres_bind]).
  change (zlen [0]) with 1. rewrite !zlen_word16. replace (n - 1 - 2 - 2 - zlen flags - 2) with (n - 11) by lia.
  unfold opt_head. fold flags. rewrite <- !app_assoc. cbn zeta. unfold at_ at 2 3. cbn [snd b_ptr].
  destruct (encode_opts _ _) as [o| | |]; cbn [mbind dres_bind]; [|done..]. by rewrite word16_bytes.
Qed.
Lemma writes_rr_opt q opt : writes (encode_rr_opt q opt) (wire_opt_rr (rcode (q_header q)) opt).
Proof.
  intros pre n Hn. set (data := flat_map wire_opt (opt_opts opt)). set (h := opt_head (rcode (q_header q)) opt). pose proof (zlen_nonneg data).
  assert (wire_opt_rr (rcode (q_header q)) opt = h ++ word16 (zlen data) ++ data) as -> by (unfold wire_opt_rr, h, opt_head; by rewrite <- !app_assoc).
  assert (zlen h = 9) as Eh by done. assert (zlen (h ++ word16 (zlen data) ++ data) = 11 + zlen data) as Ew by zlen. rewrite Ew.
  destruct (Z.leb_spec 11 n).
  - rewrite encode_rr_opt_head by done. fold h. cbn zeta. rewrite writes_opts by lia. fold data.
    destruct (Z.leb_spec (zlen data) (n - 11)), (Z.leb_spec (11 + zlen data) n); try lia; [|done]. cbn [mbind dres_bind].
    unfold at_. cbn [fst snd b_ptr].
    rewrite <- (app_assoc (pre ++ h) (word16 0) data).
    replace (zlen ((pre ++ h) ++ word16 0 ++ data) - zlen (pre ++ h) - 2) with (zlen data) by zlen.
    rewrite <- (app_assoc (pre ++ h) (word16 0 ++ data)), <- (app_assoc (word16 0) data), (poke_mid (pre ++ h)) by done. cbn [mbind dres_bind].
    replace (n - (11 + zlen data)) with (n - 11 - zlen data) by lia.
    f_equal. f_equal; [by rewrite <- !app_assoc | f_equal; zlen].
  - rewrite (proj2 (Z.leb_gt _ _)) by lia. unfold encode_rr_opt. change (b_size (snd (at_ pre n))) with n. by rewrite (proj2 (Z.ltb_lt _ _)) by lia.
Qed.

(** ** The query *)

Lemma writes_questions names qs : asks names qs -> writes (encode_all dns_encode_domain qs) (concat (zip_with wire_question names qs)).
Proof.
  induction 1 as [|ls q names qs (Hq & Hne & Hls) _ IH]; cbn [encode_all zip_with concat].
  - apply (writes_all dns_encode_domain (fun _ => []) []). intros x Hx. by apply not_elem_of_nil in Hx.
  - apply (writes_bind (dns_encode_domain q)); [apply writes_domain; [done | by apply labels_fit | done] | done].
Qed.
Lemma zlen_encode_header h qd ar : zlen (encode_header h qd ar) = 12.
Proof. reflexivity. Qed.

(** The root is the exception: its one empty label is written as well, so that the type
    and the class come one byte late. *)
Lemma root_encoded q pre n : qs_name q = [46] -> 6 <= n ->
  dns_encode_domain q (at_ pre n) = Got (at_ (pre ++ [0; 0] ++ word16 (qs_type q) ++ word16 (qs_class q)) (n - 6)).
Proof.
  intros Hq Hn. assert (Forall label_fits [[]]) as Hf by (constructor; [by split; [constructor|]|constructor]).
  rewrite (writes_domain [[]] q ltac:(done) Hf Hq pre n) by lia.
  change (zlen (wire_question [[]] q)) with 6. by rewrite (proj2 (Z.leb_le _ _)) by lia.
Qed.

(** The whole query. *)
Lemma dns_encode_wire plen q names : sizeof_idns_header <= plen -> asks names (q_questions q) ->
  let w := wire_query q names in
  dns_encode plen q = if zlen w <=? plen then Got (w ++ zrep (plen - zlen w) 0, zlen w) else Code RCODE_NO_MEMORY.
Proof.
  intros Hp Ha. cbn zeta. unfold dns_encode, wire_query, sizeof_idns_header in *. rewrite (proj2 (Z.ltb_ge _ _)) by done.
  set (h := encode_header _ _ _). assert (zlen h = 12) as Eh by done.
  change (h ++ zrep (plen - 12) 0, Block (plen - 12) 12) with (at_ h (plen - 12)).
  pose proof (writes_bind _ _ _ _ (writes_questions _ _ Ha)
    (writes_all (encode_rr_opt q) _ (q_additional q) (fun x _ => writes_rr_opt q x)) h (plen - 12) ltac:(lia)) as W.
  set (b := concat _ ++ flat_map _ _) in *. rewrite zlen_app.
  assert ((zlen b <=? plen - 12) = (zlen h + zlen b <=? plen)) as E by (destruct (Z.leb_spec (zlen b) (plen - 12)), (Z.leb_spec (zlen h + zlen b) plen); lia).
  rewrite E in W. destruct (encode_all dns_encode_domain _ _) as [o|rc| |]; cbn [mbind dres_bind] in *; [|by destruct (_ <=? _); congruence..].
  rewrite W. destruct (_ <=? _); cbn [mbind dres_bind]; [|done]. unfold at_. cbn [fst snd b_ptr].
  rewrite zlen_app. replace (plen - (zlen h + zlen b)) with (plen - 12 - zlen b) by lia. done.
Qed.

(** C17: dns_encode puts a query on the wire whose questions are for names of labels of 1
    to 63 bytes (so not for the root): header, every question with its name cut into
    labels, and the EDNS records with their options, in a packet that is zero behind it;
    or it says that the packet is too small, exactly when it is.  It stores nothing outside
    the packet.  Numbers wider than their fields are cut to them. *)
Theorem dns_encode_writes plen q names : sizeof_idns_header <= plen -> asks names (q_questions q) ->
  let w := wire_query q names in
  dns_encode plen q = if zlen w <=? plen then Got (w ++ zrep (plen - zlen w) 0, zlen w) else Code RCODE_NO_MEMORY.
Proof. apply dns_encode_wire. Qed.
(** A question for www.example.com, with an OPT record that asks for the server's name. *)
Definition example_names : list (list (list Z)) := [[str "www"; str "example"; str "com"]].
Definition example_query : dns_query :=
  mkQuery (mkHeader 0x1234 true 0 false false true false false false 0x23) [mkQ (str "www.example.com.") RR_A CLASS_IN]
    [mkOptRR 4096 0 true [(EDNS0RR_NSID, [0xAB; 7]); (10, [1; 2; 3])]].
Lemma dns_encode_writes_witness :
  dns_encode 64 example_query = Got (wire_query example_query example_names ++ zrep 5 0, 59) /\ dns_encode 58 example_query = Code RCODE_NO_MEMORY.
Proof.
  assert (asks example_names (q_questions example_query)) as H by (constructor; [|constructor]; apply (bool_decide_unpack _); vm_compute; exact I).
  split.
  - assert (sizeof_idns_header <= 64) as Hp by done. etrans; [exact (dns_encode_writes 64 example_query example_names Hp H) | by vm_compute].
  - assert (sizeof_idns_header <= 58) as Hp by done. etrans; [exact (dns_encode_writes 58 example_query example_names Hp H) | by vm_compute].
Defined.
