(* ===== verification/DnsFormat.v ===== *)
(** * DNS messages

    What a packet says, as relations between its bytes and the names, records and
    messages they stand for: labels and compression pointers (RFC 1035), and the record
    types the decoder of contrib/spcdns/src/codec.c knows the layout of. *)

From S2P Require Import Prelude CLib DnsTypes DnsCodec DnsEncode.

(** ** Numbers *)

Definition word32 (v : Z) : list Z := [v / 2 ^ 24 mod 256; v / 2 ^ 16 mod 256; v / 2 ^ 8 mod 256; v mod 256].
Definition is16 (v : Z) : Prop := 0 <= v < 2 ^ 16.
Definition is32 (v : Z) : Prop := 0 <= v < 2 ^ 32.
#[export] Instance is16_dec v : Decision (is16 v).
Proof. unfold is16. apply _. Defined.
#[export] Instance is32_dec v : Decision (is32 v).
Proof. unfold is32. apply _. Defined.
(** A string behind its length. *)
Definition counted (s : list Z) : list Z := zlen s :: s.
Lemma zlen_word32 v : zlen (word32 v) = 4.
Proof. reflexivity. Qed.
Lemma zlen_counted s : zlen (counted s) = zlen s + 1.
Proof. unfold counted. zlen. Qed.
#[export] Hint Rewrite zlen_word32 zlen_counted : zlen.
Definition short (s : list Z) : Prop := zlen s < 256.

(** ** Records *)

(** The data of a record; names and strings are text here. *)
Inductive rdata :=
| R_a (address : list Z)
| R_aaaa (address : list Z)
| R_domain (name : list Z)
| R_mx (preference : Z) (exchange : list Z)
| R_minfo (rmailbx emailbx : list Z)
| R_soa (mname rname : list Z) (serial refresh retry expire minimum : Z)
| R_srv (priority weight port : Z) (target : list Z)
| R_hinfo (cpu os : list Z)
| R_naptr (order preference : Z) (flags services regexp replacement : list Z)
| R_txt (strings : list (list Z))
| R_wks (address : list Z) (protocol : Z) (bits : list Z)
| R_opt (udp_payload extended : Z) (dnssec_ok : bool) (opts : list (Z * list Z))
| R_x (data : list Z).
Definition rdata_opt (r : rdata) : bool := match r with R_opt _ _ _ _ => true | _ => false end.
Definition domain_types : list Z := [RR_NSAP_PTR; RR_MD; RR_MF; RR_MB; RR_MG; RR_MR; RR_NS; RR_PTR; RR_CNAME].
Definition mx_types : list Z := [RR_AFSDB; RR_RT; RR_MX].
Definition minfo_types : list Z := [RR_PX; RR_RP; RR_MINFO].
Definition hinfo_types : list Z := [RR_NSAP; RR_ISDN; RR_HINFO].
Definition txt_types : list Z := [RR_X25; RR_SPF; RR_TXT].
Definition own_types : list Z := [RR_A; RR_SOA; RR_NAPTR; RR_AAAA; RR_SRV; RR_WKS; RR_GPOS; RR_LOC; RR_OPT].
Definition known_types : list Z := own_types ++ minfo_types ++ mx_types ++ hinfo_types ++ txt_types ++ domain_types.
Record answer := mkRR { r_name : list Z; r_type : Z; r_class : Z; r_ttl : Z; r_data : rdata }.
Record message := mkMessage {
  m_questions : list question; m_answers : list answer; m_nameservers : list answer; m_additional : list answer;
}.

Section Format.
Context (pkt : list Z).

(** The bytes [w] are at [o]. *)
Definition here (o : Z) (w : list Z) : Prop := 0 <= o /\ o + zlen w <= zlen pkt /\ slice o (zlen w) pkt = w.

#[export] Instance here_dec o w : Decision (here o w).
Proof. unfold here. apply _. Defined.
Lemma here_split o w : here o w <-> exists pre post, pkt = pre ++ w ++ post /\ o = zlen pre.
Proof.
  split.
  - intros (Ho & Hl & E). exists (ztake o pkt), (zdrop (zlen w) (zdrop o pkt)). split; [|pose proof (zlen_nonneg w); zlen].
    rewrite <- E at 1. unfold slice. by rewrite !ztake_drop.
  - intros (pre & post & E & ->). split; [apply zlen_nonneg|]. split; [|by apply (slice_at pre w post)].
    pose proof (zlen_nonneg post). rewrite E. zlen.
Qed.
Lemma here_app o w1 w2 : here o (w1 ++ w2) <-> here o w1 /\ here (o + zlen w1) w2.
Proof.
  split.
  - intros (pre & post & E & ->)%here_split. split; apply here_split.
    + exists pre, (w2 ++ post). by rewrite E, <- app_assoc.
    + exists (pre ++ w1), post. by rewrite E, <- !app_assoc, zlen_app.
  - intros [(pre & post & E & ->)%here_split (pre2 & post2 & E2 & L)%here_split]. apply here_split. exists pre, post2. split; [|done].
    assert (pre2 = pre ++ w1) as ->; [|by rewrite E2, <- !app_assoc].
    rewrite E, app_assoc in E2. apply app_inj_1 in E2 as [-> _]; [done|]. rewrite <- zlen_app in L. unfold zlen in L. lia.
Qed.

(** ** Names *)

(** The labels of the name at [o]; what follows the name is at [o'].  [j] pointers are
    followed. *)
Inductive name_at : nat -> Z -> list (list Z) -> Z -> Prop :=
| Name_end o : here o [0] -> name_at 0 o [] (o + 1)
| Name_label j o l ls o' : 0 < zlen l <= 63 -> here o (counted l) -> name_at j (o + 1 + zlen l) ls o' -> name_at j o (l :: ls) o'
| Name_pointer j o t ls o' : 0 <= t < 2 ^ 14 -> t < zlen pkt -> here o (word16 (0xC000 + t)) -> name_at j t ls o' ->
    name_at (S j) o ls (o + 2).
(** The text of a name; the decoder writes the root as a dot, but not behind a pointer. *)
Definition domain_text (j : nat) (ls : list (list Z)) : list Z :=
  match j, ls with O, [] => [46] | _, _ => name_text ls end.
(** A name the decoder follows to its end. *)
Definition domain_at (o : Z) (s : list Z) (o' : Z) : Prop :=
  exists j ls, name_at j o ls o' /\ (j <= 255)%nat /\ s = domain_text j ls.

(** ** Records *)

(** An option; the data of a name server identifier is written in hexadecimal. *)
Definition option_at (o : Z) (opt : Z * list Z) : Prop :=
  here o (wire_opt opt) /\ is16 (fst opt) /\ is16 (zlen (opt_data opt)) /\ Forall is_byte (snd opt).
Fixpoint options_at (o : Z) (opts : list (Z * list Z)) (o' : Z) : Prop :=
  match opts with
  | [] => o' = o
  | opt :: r => option_at o opt /\ options_at (o + zlen (wire_opt opt)) r o'
  end.
Inductive rdata_at (type o len : Z) : rdata -> Prop :=
| At_a w : type = RR_A -> len = 4 -> zlen w = 4 -> here o w -> rdata_at type o len (R_a w)
| At_aaaa w : type = RR_AAAA -> len = 16 -> zlen w = 16 -> here o w -> rdata_at type o len (R_aaaa w)
| At_domain s : type ∈ domain_types -> domain_at o s (o + len) -> rdata_at type o len (R_domain s)
| At_mx p s : type ∈ mx_types -> 4 <= len -> is16 p -> here o (word16 p) -> domain_at (o + 2) s (o + len) ->
    rdata_at type o len (R_mx p s)
| At_minfo r e mid : type ∈ minfo_types -> domain_at o r mid -> domain_at mid e (o + len) -> rdata_at type o len (R_minfo r e)
| At_soa m r mid last ser ref ret ex min : type = RR_SOA -> domain_at o m mid -> domain_at mid r last -> last + 20 = o + len ->
    here last (word32 ser ++ word32 ref ++ word32 ret ++ word32 ex ++ word32 min) -> Forall is32 [ser; ref; ret; ex; min] -> 20 <= len ->
    rdata_at type o len (R_soa m r ser ref ret ex min)
| At_srv p w port s : type = RR_SRV -> 7 <= len -> here o (word16 p ++ word16 w ++ word16 port) -> Forall is16 [p; w; port] ->
    domain_at (o + 6) s (o + len) -> rdata_at type o len (R_srv p w port s)
| At_hinfo c s : type ∈ hinfo_types -> short c -> short s -> here o (counted c ++ counted s) -> len = zlen c + zlen s + 2 ->
    rdata_at type o len (R_hinfo c s)
| At_naptr ord p f s r mid rep : type = RR_NAPTR -> Forall is16 [ord; p] -> Forall short [f; s; r] ->
    here o (word16 ord ++ word16 p ++ counted f ++ counted s ++ counted r) -> mid = o + 7 + zlen f + zlen s + zlen r ->
    domain_at mid rep (o + len) -> 4 <= len -> rdata_at type o len (R_naptr ord p f s r rep)
| At_txt ss : type ∈ txt_types -> Forall short ss -> here o (flat_map counted ss) -> len = zlen (flat_map counted ss) ->
    rdata_at type o len (R_txt ss)
| At_wks w p bits : type = RR_WKS -> zlen w = 4 -> is16 p -> here o (w ++ word16 p ++ bits) -> len = 6 + zlen bits ->
    rdata_at type o len (R_wks w p bits)
| At_opt udp ext dok opts : type = RR_OPT -> options_at o opts (o + len) -> rdata_at type o len (R_opt udp ext dok opts)
| At_x w : type ∉ known_types -> here o w -> len = zlen w -> rdata_at type o len (R_x w).

(** What stands between the type and the data: class, time to live and length; an OPT
    record has the payload size, the high bits of the response code and the flags there. *)
Definition middle (r : answer) (len : Z) : list Z :=
  match r_data r with
  | R_opt udp ext dok _ => word16 udp ++ [ext; 0; if dok then 0x80 else 0; 0] ++ word16 len
  | _ => word16 (r_class r) ++ word32 (r_ttl r) ++ word16 len
  end.
Definition answer_at (o : Z) (r : answer) (o' : Z) : Prop :=
  exists mid len, domain_at o (r_name r) mid /\ here mid (word16 (r_type r) ++ middle r len) /\
    is16 (r_type r) /\ is16 (r_class r) /\ is32 (r_ttl r) /\ is16 len /\
    match r_data r with R_opt udp ext _ _ => is16 udp /\ is_byte ext /\ r_class r = CLASS_UNKNOWN /\ r_ttl r = 0 | _ => r_type r <> RR_OPT end /\
    rdata_at (r_type r) (mid + 10) len (r_data r) /\ o' = mid + 10 + len /\ o' <= zlen pkt.
Definition question_at (o : Z) (q : question) (o' : Z) : Prop :=
  exists mid, domain_at o (qs_name q) mid /\ here mid (word16 (qs_type q) ++ word16 (qs_class q)) /\
    is16 (qs_type q) /\ is16 (qs_class q) /\ qs_type q <> RR_OPT /\ o' = mid + 4.
(** Things that follow each other. *)
Fixpoint many_at {X} (at_ : Z -> X -> Z -> Prop) (o : Z) (l : list X) (o' : Z) : Prop :=
  match l with
  | [] => o' = o
  | x :: r => exists mid, at_ o x mid /\ many_at at_ mid r o'
  end.

(** ** Messages *)

Definition is_opt (r : answer) : bool := rdata_opt (r_data r).
(** The packet is a message with this header; an OPT record comes once at most, among the
    additional ones.  The rest of the packet is not looked at. *)
Definition message_at (w : list Z) (m : message) : Prop :=
  here 0 w /\ zlen w = 4 /\ Z.land (znth w 3) 0x40 = 0 /\
  here 4 (word16 (zlen (m_questions m)) ++ word16 (zlen (m_answers m)) ++ word16 (zlen (m_nameservers m)) ++ word16 (zlen (m_additional m))) /\
  Forall is16 [zlen (m_questions m); zlen (m_answers m); zlen (m_nameservers m); zlen (m_additional m)] /\
  Forall (fun r => is_opt r = false) (m_answers m) /\ Forall (fun r => is_opt r = false) (m_nameservers m) /\
  (length (List.filter is_opt (m_additional m)) <= 1)%nat /\
  exists o1 o2 o3 o4, many_at question_at 12 (m_questions m) o1 /\ many_at answer_at o1 (m_answers m) o2 /\
    many_at answer_at o2 (m_nameservers m) o3 /\ many_at answer_at o3 (m_additional m) o4.
End Format.
