(* ===== verification/DnsDecode.v ===== *)
(** * What the DNS decoder reads

    The reading steps of the decoder on a packet that holds what they look for, with room
    in the block: they get it, keep the context in order and leave everything written
    before alone.  The lemmas of each step have one form, so that records are read by
    chaining them. *)

From S2P Require Import Prelude CLib Endian DnsTypes DnsCodec DnsTotal DnsEncode DnsFormat.

(** The elements of a list that is written out. *)
Ltac nths :=
  unfold znth;
  change (Z.to_nat 0) with 0%nat; change (Z.to_nat 1) with 1%nat; change (Z.to_nat 2) with 2%nat; change (Z.to_nat 3) with 3%nat; change (Z.to_nat 4) with 4%nat; change (Z.to_nat 5) with 5%nat; change (Z.to_nat 6) with 6%nat; change (Z.to_nat 7) with 7%nat; change (Z.to_nat 8) with 8%nat; change (Z.to_nat 9) with 9%nat; change (Z.to_nat 10) with 10%nat; change (Z.to_nat 11) with 11%nat;
  cbn [nth].

Section Decode.
Context (A : abi) (pkt : list Z) (Hw : word_ok A) (Hlen : zlen pkt < 2 ^ 32) (Hpkt : Forall is_byte pkt).

(** ** The context *)

(** The context is in order, reading is at [o], and [k] bytes of the block are left.
    [parse.size] may count more than there is. *)
Record ready (c : idns_context) (o k : Z) : Prop := {
  ready_at : b_ptr (parse c) = o;
  ready_in : 0 <= o <= zlen pkt;
  ready_parse : zlen pkt - o <= b_size (parse c) < 2 ^ 32;
  ready_dest : 0 <= b_ptr (dest c);
  ready_room : 0 <= k <= b_size (dest c);
  ready_mem : b_ptr (dest c) + b_size (dest c) = zlen (mem c);
  ready_small : zlen (mem c) < 2 ^ 32;
}.
(** What is written, and a later context: it is still there. *)
Definition written (c : idns_context) : list Z := ztake (b_ptr (dest c)) (mem c).
Record later (c c' : idns_context) : Prop := {
  later_written : written c `prefix_of` written c';
  later_len : zlen (mem c') = zlen (mem c);
}.
(** Nothing was said about EDNS meanwhile. *)
Record after (c c' : idns_context) : Prop := {
  after_later : later c c';
  after_rcode : response_rcode c' = response_rcode c;
  after_edns : edns c' = edns c;
}.
#[global] Instance later_preorder : PreOrder later.
Proof. split; [done|]. intros c1 c2 c3 [W1 L1] [W2 L2]. split; [by etrans | congruence]. Qed.
#[global] Instance after_preorder : PreOrder after.
Proof. split; [done|]. intros c1 c2 c3 [W1 R1 E1] [W2 R2 E2]. split; [by etrans | congruence..]. Qed.
(** The block holds [w] at [p], among what is written; a string ends with its terminator. *)
Definition held (c : idns_context) (p : Z) (w : list Z) : Prop := here (written c) p w.
Definition text (c : idns_context) (p : Z) (s : list Z) : Prop := held c p (s ++ [0]).
Lemma held_later c c' p w : later c c' -> held c p w -> held c' p w.
Proof.
  intros [[r E] _] (pre & post & Ew & ->)%here_split. apply here_split. exists pre, (post ++ r). split; [|done].
  by rewrite E, Ew, <- !app_assoc.
Qed.
Lemma text_later c c' p s : later c c' -> text c p s -> text c' p s.
Proof. apply held_later. Qed.
Lemma zlen_written c o k : ready c o k -> zlen (written c) = b_ptr (dest c).
Proof. intros []. unfold written. zlen. Qed.

Lemma ztake_prefix_of {X} n m (l : list X) : 0 <= n <= m -> ztake n l `prefix_of` ztake m l.
Proof.
  intros. exists (slice n (m - n) l). unfold slice, ztake, zdrop. rewrite <- (take_drop (Z.to_nat n) (take (Z.to_nat m) l)).
  rewrite take_take, skipn_firstn_comm. do 2 f_equal; lia.
Qed.
Lemma usize_id z : 0 <= z < 2 ^ 32 -> usize A z = z.
Proof. by apply usize_small. Qed.
(** Less room is asked for. *)
Lemma ready_less c o k k' : ready c o k -> 0 <= k' <= k -> ready c o k'.
Proof. intros [] ?. split; lia. Qed.

(** ** Reading bytes *)

Lemma bytes_at_here o w n : here pkt o w -> n = zlen w -> bytes_at pkt o n = Got w.
Proof.
  intros (? & ? & E) ->. pose proof (zlen_nonneg w). unfold bytes_at.
  rewrite (proj2 (Z.leb_le 0 o)), (proj2 (Z.leb_le 0 (zlen w))), (proj2 (Z.leb_le _ (zlen pkt))) by done. by rewrite E.
Qed.
Lemma byte_at_here o b w : here pkt o (b :: w) -> byte_at pkt o = Got b.
Proof.
  intros (pre & post & E & ->)%here_split. pose proof (zlen_nonneg pre). pose proof (zlen_nonneg post). pose proof (zlen_nonneg w). unfold byte_at.
  rewrite (proj2 (Z.leb_le 0 (zlen pre))), (proj2 (Z.ltb_lt (zlen pre) (zlen pkt))) by (done || rewrite E; zlen). cbn [andb].
  f_equal. unfold znth, zlen. rewrite Nat2Z.id, E. apply nth_middle.
Qed.
(** The context when [n] bytes have been read. *)
Lemma ready_skip c o k n : ready c o k -> 0 <= n <= zlen pkt - o -> ready (with_parse c (skip A n (parse c))) (o + n) k.
Proof. intros [] ?. split; cbn [with_parse parse dest mem skip b_ptr b_size]; rewrite ?usize_id by lia; lia. Qed.
Lemma after_parse c b : after c (with_parse c b).
Proof. by split. Qed.

Lemma get_bytes_ok c o k w n : ready c o k -> here pkt o w -> n = zlen w ->
  exists c', get_bytes A pkt n c = Got (w, c') /\ ready c' (o + n) k /\ after c c'.
Proof.
  intros R H ->. eexists. unfold get_bytes. rewrite (ready_at _ _ _ R), (bytes_at_here o w) by done.
  split; [done|]. split; [|apply after_parse]. apply ready_skip; [done|]. destruct H as (? & ? & _). pose proof (zlen_nonneg w). lia.
Qed.
Lemma word16_value v : is16 v -> Z.lor (Z.shiftl (znth (word16 v) 0) 8) (znth (word16 v) 1) = v.
Proof.
  intros V. unfold is16 in V. unfold word16, u16. rewrite Z.mod_small by done. nths.
  change 0xFF with (Z.ones 8). rewrite !Z.land_ones, Z.shiftr_div_pow2, Z.shiftl_mul_pow2 by lia.
  rewrite lor_add_shift by (lia || apply Z.mod_pos_bound; lia). dlia.
Qed.
Lemma word32_value v : is32 v ->
  Z.lor (Z.lor (Z.lor (Z.shiftl (znth (word32 v) 0) 24) (Z.shiftl (znth (word32 v) 1) 16)) (Z.shiftl (znth (word32 v) 2) 8)) (znth (word32 v) 3) = v.
Proof.
  intros V. unfold is32 in V. unfold word32. nths.
  assert (forall a, 0 <= a mod 256 < 256) as B by (intros; apply Z.mod_pos_bound; lia).
  pose proof (lor_bytes4 (v / 2 ^ 24 mod 256) (v / 2 ^ 16 mod 256) (v / 2 ^ 8 mod 256) (v mod 256) (B _) (B _) (B _) (B _)) as L.
  pose proof (B (v / 2 ^ 24)). pose proof (B (v / 2 ^ 16)). pose proof (B (v / 2 ^ 8)).
  rewrite !u32_small in L by (rewrite Z.shiftl_mul_pow2; lia). rewrite L. dlia.
Qed.
Lemma get16_ok c o k v : ready c o k -> here pkt o (word16 v) -> is16 v ->
  exists c', get16 A pkt c = Got (v, c') /\ ready c' (o + 2) k /\ after c c'.
Proof.
  intros R H V. destruct (get_bytes_ok c o k (word16 v) 2 R H eq_refl) as (c' & E & R' & F). exists c'. split; [|done].
  revert E. unfold get16, get_bytes, read_uint16. destruct (bytes_at _ _ _) as [w| | |]; [|done..]. cbn [mbind dres_bind]. intros [= -> <-].
  by rewrite word16_value.
Qed.
Lemma get32_ok c o k v : ready c o k -> here pkt o (word32 v) -> is32 v ->
  exists c', get32 A pkt c = Got (v, c') /\ ready c' (o + 4) k /\ after c c'.
Proof.
  intros R H V. destruct (get_bytes_ok c o k (word32 v) 4 R H eq_refl) as (c' & E & R' & F). exists c'. split; [|done].
  revert E. unfold get32, get_bytes, read_uint32. destruct (bytes_at _ _ _) as [w| | |]; [|done..]. cbn [mbind dres_bind]. intros [= -> <-].
  by rewrite word32_value.
Qed.

(** ** Storing *)

Lemma store_ok c o k w : ready c o k -> zlen w <= k ->
  exists c', store A w c = Got c' /\ ready c' o (k - zlen w) /\ after c c' /\ parse c' = parse c /\ written c' = written c ++ w.
Proof.
  intros [Ha Hi Hp Hd Hr Hm Hs] Hk. pose proof (zlen_nonneg w). unfold store.
  rewrite (proj2 (Z.leb_le 0 _)), (proj2 (Z.leb_le _ (zlen (mem c)))) by lia. cbn [andb]. eexists. split; [done|].
  assert (forall p s, written (Context_ (parse c) (Block s (b_ptr (dest c) + zlen w)) (splice (b_ptr (dest c)) w (mem c)) p (edns c)) = written c ++ w) as W.
  { intros. unfold written. cbn [dest mem b_ptr]. unfold splice. rewrite app_assoc.
    replace (b_ptr (dest c) + zlen w) with (zlen (ztake (b_ptr (dest c)) (mem c) ++ w)) at 1 by (zlen). by rewrite ztake_prefix. }
  split; [|split; [|by rewrite W]].
  - split; cbn [parse dest mem b_ptr b_size]; rewrite ?usize_id, ?zlen_splice by lia; lia.
  - split; [|done..]. split; [rewrite W; by apply prefix_app_r | apply zlen_splice; lia].
Qed.
(** What was put together before the store, with what is stored. *)
Lemma held_store c c' p t w : written c' = written c ++ w -> held c p t -> p + zlen t = zlen (written c) -> held c' p (t ++ w).
Proof.
  intros E (pre & post & Ew & ->)%here_split L. assert (post = []) as -> by (apply zlen_0_nil; rewrite Ew in L; zlen).
  apply here_split. exists pre, []. by rewrite E, Ew, !app_nil_r, <- app_assoc.
Qed.
Lemma held_nil c : held c (zlen (written c)) [].
Proof. apply here_split. exists (written c), []. by rewrite app_nil_r. Qed.

Lemma byte_len_pos o w : here pkt o w -> zlen w <= zlen pkt - o.
Proof. intros (? & ? & _). lia. Qed.
Lemma read_string_ok c o k s : ready c o k -> here pkt o (counted s) -> zlen s + 1 <= k ->
  exists p c', read_string A pkt c = Got (p, c') /\ ready c' (o + (zlen s + 1)) (k - (zlen s + 1)) /\ after c c' /\ text c' p s.
Proof.
  intros R H Hk. pose proof (byte_len_pos _ _ H) as L. unfold counted in L. rewrite zlen_cons in L. pose proof (zlen_nonneg s).
  pose proof R as [Ha Hi Hp Hd Hr Hm Hs]. unfold read_string. rewrite Ha, (byte_at_here _ _ _ H). cbn [mbind dres_bind].
  rewrite (proj2 (Z.ltb_ge (b_size (dest c)) _)), (proj2 (Z.ltb_ge (b_size (parse c)) _)) by lia.
  apply (here_app pkt o [zlen s] s) in H as [_ H]. rewrite (bytes_at_here _ s) by done. cbn [mbind dres_bind].
  destruct (store_ok c o k (s ++ [0]) R) as (c' & E & R' & F & P & W); [zlen|]. rewrite E. cbn [mbind dres_bind].
  exists (b_ptr (dest c)), (with_parse c' (skip A (zlen s + 1) (parse c))). rewrite <- P.
  split; [done|]. split; [|split].
  - replace (zlen s + 1) with (zlen (s ++ [0])) at 3 by zlen. apply ready_skip; [done | lia].
  - etrans; [exact F | apply after_parse].
  - unfold text. change (held c' (b_ptr (dest c)) (s ++ [0])). rewrite <- (zlen_written _ _ _ R).
    apply (held_store c c' _ [] (s ++ [0])); [done | apply held_nil | by rewrite Z.add_0_r].
Qed.

Lemma align_mask z : Z.land z (Z.lnot (MEM_ALIGN A - 1)) = z - z mod MEM_ALIGN A.
Proof.
  rewrite <- Z.ldiff_land. destruct Hw as [-> | ->]; [change (4 - 1) with (Z.ones 2) | change (8 - 1) with (Z.ones 3)];
    rewrite Z.ldiff_ones_r, Z.shiftl_mul_pow2, Z.shiftr_div_pow2 by lia; cbn; dlia.
Qed.
Lemma align_memory_ok c o k : ready c o k -> MEM_ALIGN A <= k ->
  exists d, align_memory A (dest c) = (true, d) /\ ready (with_dest c d) o (k - MEM_ALIGN A) /\ after c (with_dest c d).
Proof.
  intros R Hk. pose proof R as [Ha Hi Hp Hd Hr Hm Hs]. unfold align_memory. rewrite align_mask. rewrite (proj2 (Z.ltb_ge _ _)) by lia.
  set (z := b_size (dest c)) in *. assert (0 < MEM_ALIGN A) as Hpos by (destruct Hw as [-> | ->]; lia).
  pose proof (Z.mod_pos_bound z (MEM_ALIGN A) Hpos). cbv zeta.
  destruct (Z.eqb_spec (z - z mod MEM_ALIGN A) z).
  - exists (dest c). split; [done|]. destruct c. split; [|done]. apply (ready_less _ _ k); [done | lia].
  - assert (MEM_ALIGN A <= 8) by (destruct Hw as [-> | ->]; lia).
    rewrite (usize_id (z - z mod MEM_ALIGN A + MEM_ALIGN A - z)) by lia. rewrite usize_id by lia. eexists. split; [done|]. split.
    + split; cbn [with_dest parse dest mem b_ptr b_size]; try lia; done.
    + split; [|done..]. split; [|done]. unfold written. cbn [with_dest dest mem b_ptr]. apply ztake_prefix_of. lia.
Qed.
(** What data of unknown form takes: nothing when there is none. *)
Definition raw_need (w : list Z) : Z := if decide (w = []) then 0 else MEM_ALIGN A + zlen w.
Definition raw (c : idns_context) (p : option Z) (w : list Z) : Prop :=
  match p with None => w = [] | Some p => w <> [] /\ held c p w end.
Lemma read_raw_ok c o k w : ready c o k -> here pkt o w -> raw_need w <= k ->
  exists p c', read_raw A pkt (zlen w) c = Got (p, c') /\ ready c' (o + zlen w) (k - raw_need w) /\ after c c' /\ raw c' p w.
Proof.
  intros R H Hk. unfold read_raw, raw_need in *. destruct (decide (w = [])) as [->|Hne].
  - exists None, c. by rewrite Z.add_0_r, Z.sub_0_r.
  - pose proof (byte_len_pos _ _ H). assert (0 < zlen w) by (destruct w; [done | rewrite zlen_cons; pose proof (zlen_nonneg w); lia]).
    destruct (align_memory_ok c o k R) as (d & E & R1 & F1); [lia|]. pose proof R as [Ha Hi Hp _ _ _ _]. pose proof R1 as [_ _ _ Hd Hr _ _].
    rewrite E, (proj2 (Z.ltb_lt 0 _)), (proj2 (Z.ltb_ge (b_size (parse c)) _)) by lia. cbn [negb].
    cbn [with_dest dest] in Hr. rewrite (proj2 (Z.ltb_ge (b_size d) _)) by lia. rewrite Ha, (bytes_at_here _ w) by done. cbn [mbind dres_bind].
    destruct (store_ok _ o _ w R1) as (c' & E' & R' & F & P & W); [lia|]. rewrite E'. cbn [mbind dres_bind].
    exists (Some (b_ptr d)), (with_parse c' (skip A (zlen w) (parse c))). split; [done|].
    change (parse (with_dest c d)) with (parse c) in P. rewrite <- P. split; [|split].
    + replace (k - (MEM_ALIGN A + zlen w)) with (k - MEM_ALIGN A - zlen w) by lia. apply ready_skip; [done | lia].
    + etrans; [exact F1|]. etrans; [exact F | apply after_parse].
    + split; [done|]. change (held c' (b_ptr d) w). pose proof (zlen_written _ _ _ R1) as Z1. cbn [with_dest dest] in Z1. rewrite <- Z1.
      apply (held_store (with_dest c d) c' _ [] w); [done | apply held_nil | by rewrite Z.add_0_r].
Qed.

(** ** Names *)

(** The test at the end of a turn, and the turns behind it. *)
Definition labels_tail (fuel : nat) (cur : block) (own : option block) (loop : Z) (c : idns_context) : dres (block * option block * idns_context) :=
  next ← byte_at pkt (b_ptr cur); if next =? 0 then Got (cur, own, c) else read_labels A pkt fuel cur own loop c.
(** The block is at [o], and reaches the end of the packet. *)
Definition block_at (b : block) (o : Z) : Prop := b_ptr b = o /\ 0 <= o <= zlen pkt /\ zlen pkt - o <= b_size b < 2 ^ 32.
Lemma block_at_skip b o n : block_at b o -> 0 <= n <= zlen pkt - o -> block_at (skip A n b) (o + n).
Proof. intros (? & ? & ?) ?. unfold block_at. cbn [skip b_ptr b_size]. rewrite usize_id; lia. Qed.

(** A turn on a label. *)
Lemma labels_label fuel cur own loop c o oc k l : block_at cur o -> 0 < zlen l <= 63 -> here pkt o (counted l) ->
  ready c oc k -> zlen l + 1 <= k ->
  exists c', read_labels A pkt (S fuel) cur own loop c = labels_tail fuel (skip A (zlen l + 1) cur) own loop c' /\
    ready c' oc (k - (zlen l + 1)) /\ after c c' /\ parse c' = parse c /\ written c' = written c ++ l ++ [46].
Proof.
  intros (Hc & Ho & Hs) Hl H R Hk. pose proof R as [_ _ _ _ Hr _ _]. pose proof (byte_len_pos _ _ H) as L. unfold counted in L. rewrite zlen_cons in L.
  destruct (store_ok c oc k (l ++ [46]) R) as (c' & E & R' & F & P & W); [zlen|]. exists c'.
  cbn [read_labels]. rewrite Hc, (byte_at_here _ _ _ H). cbn [mbind dres_bind].
  rewrite (proj2 (Z.ltb_lt (zlen l) 64)), (proj2 (Z.ltb_ge (b_size cur) _)), (proj2 (Z.ltb_ge (b_size (dest c)) _)) by lia.
  apply (here_app pkt o [zlen l] l) in H as [_ H]. rewrite (bytes_at_here _ l) by done. cbn [mbind dres_bind]. rewrite E. cbn [mbind dres_bind].
  rewrite (proj2 (Z.eqb_neq (zlen l) 0)) by lia. split; [done|]. split; [|done].
  replace (zlen l + 1) with (zlen (l ++ [46])) by zlen. done.
Qed.
Lemma pointer_bytes t : 0 <= t < 2 ^ 14 -> word16 (0xC000 + t) = [192 + t / 2 ^ 8; t mod 2 ^ 8].
Proof.
  intros. unfold word16, u16. rewrite Z.mod_small by lia. change 0xFF with (Z.ones 8).
  rewrite !Z.land_ones, Z.shiftr_div_pow2 by lia. f_equal; [|f_equal]; dlia.
Qed.
(** A turn on a pointer. *)
Lemma labels_pointer fuel cur own loop c o t : block_at cur o -> 0 <= t < 2 ^ 14 -> t < zlen pkt -> here pkt o (word16 (0xC000 + t)) -> loop + 1 <= 255 ->
  read_labels A pkt (S fuel) cur own loop c = labels_tail fuel (Block (zlen pkt - t) t) (Some (default (skip A 2 cur) own)) (loop + 1) c.
Proof.
  intros (Hc & Ho & Hs) Ht Htp H Hloop. pose proof (byte_len_pos _ _ H) as L. rewrite zlen_word16 in L. cbn [read_labels].
  pose proof H as H'. rewrite pointer_bytes in H' by done. rewrite Hc, (byte_at_here _ _ _ H'). cbn [mbind dres_bind].
  assert (0 <= t / 2 ^ 8) by (apply Z.div_pos; lia).
  rewrite (proj2 (Z.ltb_ge _ 64)), (proj2 (Z.leb_le 192 _)), (proj2 (Z.eqb_neq (loop + 1) _)), (proj2 (Z.ltb_ge (b_size cur) 2)) by lia.
  unfold read_uint16 at 1. rewrite Hc, (bytes_at_here _ _ _ H) by done. cbn [mbind dres_bind].
  rewrite word16_value by (unfold is16; lia). change 0x3FFF with (Z.ones 14). rewrite Z.land_ones by lia.
  replace ((0xC000 + t) mod 2 ^ 14) with t by dlia. by rewrite (proj2 (Z.leb_gt _ _)) by lia.
Qed.

(** What the loop leaves: the text behind what it began with, and where to go on. *)
Definition labels_read (c : idns_context) (own : option block) (oc k o' : Z) (s : list Z) (r : dres (block * option block * idns_context)) : Prop :=
  exists cur' own' c', r = Got (cur', own', c') /\ ready c' oc (k - zlen s) /\ after c c' /\ parse c' = parse c /\ written c' = written c ++ s /\
    match own with Some b => own' = Some b | None => block_at (default (skip A 1 cur') own') o' end.
Lemma name_byte j o ls o' : name_at pkt j o ls o' -> (j <> 0)%nat \/ ls <> [] -> exists b, byte_at pkt o = Got b /\ b <> 0.
Proof.
  intros [? H|j' ? l ? ? ? H ?|j' ? t ? ? ? ? H ?] Hn; [tauto | exists (zlen l); split; [by eapply byte_at_here | lia]|].
  rewrite pointer_bytes in H by done. eexists. split; [by eapply byte_at_here|]. assert (0 <= t / 2 ^ 8) by (apply Z.div_pos; lia). lia.
Qed.
Lemma labels_tail_ok j o ls o' : name_at pkt j o ls o' -> forall fuel cur own loop c oc k, block_at cur o -> loop + Z.of_nat j <= 255 ->
  ready c oc k -> zlen (name_text ls) <= k -> labels_tail fuel cur own loop c <> Spent ->
  labels_read c own oc k o' (name_text ls) (labels_tail fuel cur own loop c).
Proof.
  induction 1 as [o H|j o l ls o' Hl H Hn IH|j o t ls o' Ht Htp H Hn IH]; intros fuel cur own loop c oc k Hc Hloop R Hk Hs.
  - unfold labels_tail in *. destruct Hc as (Hc & Hc'). rewrite Hc, (byte_at_here _ _ _ H) in *. cbn [mbind dres_bind Z.eqb].
    exists cur, own, c. split; [done|]. split; [by rewrite Z.sub_0_r|]. do 2 (split; [done|]). split; [by rewrite app_nil_r|].
    destruct own; [done|]. apply block_at_skip; [done|]. pose proof (byte_len_pos _ _ H) as L. change (zlen [0]) with 1 in L. lia.
  - destruct (name_byte j o (l :: ls) o') as (b & Eb & Hb); [by constructor | by right|].
    pose proof Hc as (Hc1 & _). unfold labels_tail in Hs |- *. rewrite Hc1, Eb in *. cbn [mbind dres_bind] in *.
    rewrite (proj2 (Z.eqb_neq _ _) Hb) in *. destruct fuel as [|fuel]; [done|].
    rewrite name_text_cons in *. rewrite zlen_app, zlen_cons in Hk. pose proof (zlen_nonneg (name_text ls)).
    destruct (labels_label fuel cur own loop c o oc k l Hc Hl H R) as (c1 & E1 & R1 & F1 & P1 & W1); [lia|]. rewrite E1 in *.
    pose proof (byte_len_pos _ _ H) as L. unfold counted in L. rewrite zlen_cons in L.
    destruct (IH fuel (skip A (zlen l + 1) cur) own loop c1 oc (k - (zlen l + 1))) as (cur' & own' & c' & E & R' & F & P & W & X); try done; [|lia|].
    { replace (o + 1 + zlen l) with (o + (zlen l + 1)) by lia. apply block_at_skip; [done | lia]. }
    exists cur', own', c'. split; [done|]. split; [|split; [by etrans|split; [congruence|split; [|done]]]].
    + replace (zlen (l ++ 46 :: name_text ls)) with (zlen l + 1 + zlen (name_text ls)) by zlen. by rewrite Z.sub_add_distr.
    + by rewrite W, W1, <- !app_assoc.
  - destruct (name_byte (S j) o ls (o + 2)) as (b & Eb & Hb); [by econstructor | by left|].
    pose proof Hc as (Hc1 & _). unfold labels_tail in Hs |- *. rewrite Hc1, Eb in *. cbn [mbind dres_bind] in *.
    rewrite (proj2 (Z.eqb_neq _ _) Hb) in *. destruct fuel as [|fuel]; [done|].
    rewrite (labels_pointer fuel cur own loop c o t) in * by (done || lia). pose proof (byte_len_pos _ _ H) as L. rewrite zlen_word16 in L.
    destruct (IH fuel (Block (zlen pkt - t) t) (Some (default (skip A 2 cur) own)) (loop + 1) c oc k) as (cur' & own' & c' & E & R' & F & P & W & X); try done; [|lia|].
    { split; [done|]. cbn [b_size]. lia. }
    exists cur', own', c'. do 5 (split; [done|]). rewrite X. destruct own as [b'|]; [done|]. cbn [default]. apply block_at_skip; [done | lia].
Qed.
Lemma ready_block c o k : ready c o k -> block_at (parse c) o.
Proof. by intros []. Qed.
Lemma ready_with c o k b o' : ready c o k -> block_at b o' -> ready (with_parse c b) o' k.
Proof. intros [] (? & ? & ?). by split. Qed.
Lemma domain_labels c o k j ls o' : ready c o k -> name_at pkt j o ls o' -> (j <= 255)%nat -> zlen (domain_text j ls) <= k ->
  labels_read c None o k o' (domain_text j ls) (read_labels A pkt (domain_fuel pkt) (parse c) None 0 c).
Proof.
  intros R Hn Hj Hk. pose proof (ready_block _ _ _ R) as B. pose proof B as (Hc & _).
  assert (read_labels A pkt (domain_fuel pkt) (parse c) None 0 c <> Spent) as Hs.
  { apply read_labels_ends; unfold domain_fuel; [done | lia..|]. intros. unfold turns, zlen. lia. }
  destruct (decide (j = 0%nat /\ ls = [])) as [[-> ->]|Hne].
  - inversion Hn as [? H| |]; subst. change (domain_text 0 []) with [46] in *. change (zlen [46]) with 1 in Hk.
    destruct (store_ok c (b_ptr (parse c)) k [46] R Hk) as (c' & E & R' & F & P & W). exists (parse c), None, c'.
    unfold domain_fuel. replace (256 * S (length pkt))%nat with (S (255 + 256 * length pkt)) by lia. cbn [read_labels].
    pose proof R as [_ _ _ _ Hr _ _]. pose proof (byte_len_pos _ _ H) as L. change (zlen [0]) with 1 in L.
    rewrite (byte_at_here _ _ _ H). cbn [mbind dres_bind Z.ltb Z.compare]. destruct B as (_ & Hin & Hb).
    rewrite (proj2 (Z.ltb_ge (b_size (parse c)) _)), (proj2 (Z.ltb_ge (b_size (dest c)) _)) by lia.
    rewrite (bytes_at_here _ []) by (done || (apply here_split; exists (ztake (b_ptr (parse c) + 1) pkt), (zdrop (b_ptr (parse c) + 1) pkt); split; [cbn [app]; by rewrite ztake_drop | zlen])).
    cbn [mbind dres_bind app]. rewrite E. cbn [mbind dres_bind Z.eqb]. rewrite (byte_at_here _ _ _ H). cbn [mbind dres_bind Z.eqb].
    split; [done|]. do 4 (split; [done|]). by apply block_at_skip.
  - assert (domain_text j ls = name_text ls) as Et by (destruct j, ls; naive_solver). rewrite Et in *.
    destruct (name_byte j o ls o' Hn) as (b & Eb & Hb); [destruct j, ls; naive_solver|].
    assert (read_labels A pkt (domain_fuel pkt) (parse c) None 0 c = labels_tail (domain_fuel pkt) (parse c) None 0 c) as El
      by (unfold labels_tail; rewrite Hc, Eb; cbn [mbind dres_bind]; by rewrite (proj2 (Z.eqb_neq _ _) Hb)).
    rewrite El in *. apply (labels_tail_ok j o ls o'); try done. lia.
Qed.
Lemma read_domain_ok c o k s o' : ready c o k -> domain_at pkt o s o' -> zlen s + 1 <= k ->
  exists p c', read_domain A pkt c = Got (p, c') /\ ready c' o' (k - (zlen s + 1)) /\ after c c' /\ text c' p s.
Proof.
  intros R (j & ls & Hn & Hj & ->) Hk.
  destruct (domain_labels c o k j ls o' R Hn Hj) as (cur & own & c1 & E & R1 & F1 & P1 & W1 & X); [lia|].
  unfold read_domain. rewrite E. cbn [mbind dres_bind]. set (fin := default _ own) in *.
  pose proof (ready_with _ _ _ fin o' R1 X) as R1'.
  destruct (store_ok _ _ _ [0] R1') as (c2 & E2 & R2 & F2 & P2 & W2); [change (zlen [0]) with 1; lia|].
  rewrite E2. cbn [mbind dres_bind]. exists (b_ptr (dest c)), c2. split; [done|]. split; [|split].
  - rewrite Z.sub_add_distr. done.
  - etrans; [exact F1|]. etrans; [apply after_parse | exact F2].
  - unfold text. rewrite <- (zlen_written _ _ _ R). apply (held_store c c2 _ [] (_ ++ [0])); [|apply held_nil | by rewrite Z.add_0_r].
    rewrite W2. change (written (with_parse c1 fin)) with (written c1). by rewrite W1, <- app_assoc.
Qed.
End Decode.
