(* ===== verification/DnsRecords.v ===== *)
(** * What the DNS decoder makes of records

    Every form of record data is decoded into the structure of its type, its strings and
    numbers those of the packet; the options of EDNS with it. *)

From S2P Require Import Prelude CLib DnsTypes DnsCodec DnsEncode DnsFormat DnsDecode.

(** ** Meaning and room *)

(** The structure stands for the data: values are the same, pointers lead to its text. *)
Definition option_means (c : idns_context) (opt : Z * list Z) (o : edns0_opt_t) : Prop :=
  o_code o = fst opt /\ o_len o = zlen (snd opt) /\ held c (o_data o) (snd opt).
Definition means `{Floats} (c : idns_context) (r : rdata) (d : dns_rdata) : Prop :=
  match r, d with
  | R_a w, A_a w' => w' = w
  | R_aaaa w, A_aaaa w' => w' = w
  | R_domain s, A_cname p => text c p s
  | R_mx v s, A_mx v' p => v' = v /\ text c p s
  | R_minfo s t, A_minfo p q => text c p s /\ text c q t
  | R_soa m r v1 v2 v3 v4 v5, A_soa p q w1 w2 w3 w4 w5 => text c p m /\ text c q r /\ [w1; w2; w3; w4; w5] = [v1; v2; v3; v4; v5]
  | R_srv v1 v2 v3 s, A_srv w1 w2 w3 p => [w1; w2; w3] = [v1; v2; v3] /\ text c p s
  | R_hinfo s t, A_hinfo p q => text c p s /\ text c q t
  | R_naptr v1 v2 f s r t, A_naptr w1 w2 p q r' t' => [w1; w2] = [v1; v2] /\ text c p f /\ text c q s /\ text c r' r /\ text c t' t
  | R_txt ss, A_txt n p => n = zlen (concat ss) /\ text c p (concat ss)
  | R_wks w v bits, A_wks w' v' n p => w' = w /\ v' = v /\ n = zlen bits /\ raw c p bits
  | R_opt v _ dok opts, A_opt v' fdo os => v' = v /\ fdo = (if dok then Some true else None) /\ Forall2 (option_means c) opts os
  | R_x w, A_x n p => n = zlen w /\ raw c p w
  | _, _ => False
  end.

Lemma raw_later c c' p w : later c c' -> raw c p w -> raw c' p w.
Proof. destruct p as [p|]; [|done]. intros L [??]. split; [done | by eapply held_later]. Qed.
Lemma option_later c c' opt o : later c c' -> option_means c opt o -> option_means c' opt o.
Proof. intros L (? & ? & ?). do 2 (split; [done|]). by eapply held_later. Qed.
Lemma means_later `{Floats} c c' r d : later c c' -> means c r d -> means c' r d.
Proof.
  intros L. destruct r, d; cbn [means]; try done; intuition eauto using text_later, raw_later.
  eapply Forall2_impl; [eassumption|]. intros. by eapply option_later.
Qed.

(** ** Chaining the steps *)

(** One context is in order at a time. *)
Ltac there :=
  match goal with
  | |- here _ ?a _ => match goal with H : here _ ?b _ |- _ => replace a with b by (zlen; lia); exact H end
  | |- domain_at _ ?a _ _ => match goal with H : domain_at _ ?b _ _ |- _ => replace a with b by (zlen; lia); exact H end
  | |- _ => first [eassumption | done | lia]
  end.
Ltac next L :=
  let E := fresh "E" in let c' := fresh "c" in let R := fresh "R" in let G := fresh "G" in let p := fresh "p" in let M := fresh "M" in
  first [edestruct L as (p & c' & E & R & G & M) | edestruct L as (c' & E & R & G)]; [there..|]; rewrite E; cbn [mbind dres_bind]; clear E;
  match goal with R0 : ready _ ?c _ _ |- _ => match type of R with ready _ c _ _ => fail 1 | _ => clear R0 end end.

Ltac chain := first [eassumption | done | etrans; [eassumption | chain]].
Ltac hold := first [eassumption | eapply text_later; [apply after_later; eassumption | hold]].
(** A sequence in the packet, as its parts. *)
Ltac apart := repeat match goal with H : here _ _ (_ ++ _) |- _ => apply here_app in H as [? H] | H : Forall _ (_ :: _) |- _ => apply Forall_cons in H as [? H] end.

Section Records.
Context (A : abi) (pkt : list Z) (Hw : word_ok A) (Hlen : zlen pkt < 2 ^ 32) (Hpkt : Forall is_byte pkt) (Hopt : 0 <= sizeof_edns0_opt_t A < 2 ^ 10).
Context `{F : Floats}.

(** What the data takes of the block, at most. *)
Definition text_need (s : list Z) : Z := zlen s + 1.
Definition opts_need (opts : list (Z * list Z)) : Z := foldr (fun opt n => MEM_ALIGN A + zlen (snd opt) + n) 0 opts.
Definition rdata_need (r : rdata) : Z :=
  match r with
  | R_a _ | R_aaaa _ => 0
  | R_domain s | R_mx _ s | R_srv _ _ _ s => text_need s
  | R_minfo s t | R_soa s t _ _ _ _ _ | R_hinfo s t => text_need s + text_need t
  | R_naptr _ _ f s r t => text_need f + text_need s + text_need r + text_need t
  | R_txt ss => text_need (concat ss)
  | R_wks _ _ bits => raw_need A bits
  | R_opt _ _ _ opts => MEM_ALIGN A + zlen opts * sizeof_edns0_opt_t A + opts_need opts
  | R_x w => raw_need A w
  end.

(** What reading data of [len] bytes at [o] gives. *)
Definition rdata_read (c : idns_context) (o k len : Z) (r : rdata) (m : dres (dns_rdata * idns_context)) : Prop :=
  exists d c', m = Got (d, c') /\ ready pkt c' (o + len) (k - rdata_need r) /\ after c c' /\ means c' r d.
Ltac done_reading :=
  match goal with
  | R : ready _ ?c _ _ |- rdata_read _ _ _ _ _ _ =>
      eexists _, c; split; [reflexivity|]; split;
      [cbn [rdata_need]; unfold text_need in *; match type of R with ready _ _ ?a ?b => match goal with |- ready _ _ ?a' ?b' => replace a' with a by (zlen; lia); replace b' with b by (zlen; lia); exact R end end
      |split; [chain | cbn [means]; split_and?; try done; hold]]
  end.

Lemma decode_domain_ok c o k len s : ready pkt c o k -> domain_at pkt o s (o + len) -> rdata_need (R_domain s) <= k ->
  rdata_read c o k len (R_domain s) (x ← read_domain A pkt c; let '(cname, c) := x in Got (A_cname cname, c)).
Proof. cbn [rdata_need]. unfold text_need. intros R D Hk. next read_domain_ok. done_reading. Qed.
Lemma decode_mx_ok c o k len p s : ready pkt c o k -> 4 <= len -> is16 p -> here pkt o (word16 p) -> domain_at pkt (o + 2) s (o + len) ->
  rdata_need (R_mx p s) <= k -> rdata_read c o k len (R_mx p s) (decode_rr_mx A pkt c len).
Proof.
  cbn [rdata_need]. unfold text_need. intros R Hl Hp H D Hk. unfold decode_rr_mx. rewrite (proj2 (Z.ltb_ge len 4)) by done.
  next get16_ok. next read_domain_ok. done_reading.
Qed.
Lemma decode_minfo_ok c o k len r e mid : ready pkt c o k -> domain_at pkt o r mid -> domain_at pkt mid e (o + len) ->
  rdata_need (R_minfo r e) <= k -> rdata_read c o k len (R_minfo r e) (decode_rr_minfo A pkt c).
Proof.
  cbn [rdata_need]. unfold text_need. intros R D1 D2 Hk. pose proof (zlen_nonneg e). pose proof (zlen_nonneg r). unfold decode_rr_minfo.
  next read_domain_ok. next read_domain_ok. done_reading.
Qed.
Lemma decode_a_ok c o k len w : ready pkt c o k -> len = 4 -> zlen w = 4 -> here pkt o w -> 0 <= k ->
  rdata_read c o k len (R_a w) (decode_rr_a A pkt c len).
Proof. intros R -> Hz H Hk. unfold decode_rr_a. cbn [Z.eqb Pos.eqb negb]. next get_bytes_ok. done_reading. Qed.
Lemma decode_aaaa_ok c o k len w : ready pkt c o k -> len = 16 -> zlen w = 16 -> here pkt o w -> 0 <= k ->
  rdata_read c o k len (R_aaaa w) (decode_rr_aaaa A pkt c len).
Proof. intros R -> Hz H Hk. unfold decode_rr_aaaa. cbn [Z.eqb Pos.eqb negb]. next get_bytes_ok. done_reading. Qed.
Lemma decode_soa_ok c o k len m r mid last v1 v2 v3 v4 v5 : ready pkt c o k -> domain_at pkt o m mid -> domain_at pkt mid r last ->
  last + 20 = o + len -> here pkt last (word32 v1 ++ word32 v2 ++ word32 v3 ++ word32 v4 ++ word32 v5) -> Forall is32 [v1; v2; v3; v4; v5] -> 20 <= len ->
  rdata_need (R_soa m r v1 v2 v3 v4 v5) <= k -> rdata_read c o k len (R_soa m r v1 v2 v3 v4 v5) (decode_rr_soa A pkt c len).
Proof.
  cbn [rdata_need]. unfold text_need. intros R D1 D2 Hl H V Hl2 Hk. pose proof (zlen_nonneg m). pose proof (zlen_nonneg r). apart. unfold decode_rr_soa.
  next read_domain_ok. next read_domain_ok. rewrite (proj2 (Z.ltb_ge len 20)) by done. do 5 next get32_ok. done_reading.
Qed.
Lemma decode_srv_ok c o k len v1 v2 v3 s : ready pkt c o k -> 7 <= len -> here pkt o (word16 v1 ++ word16 v2 ++ word16 v3) -> Forall is16 [v1; v2; v3] ->
  domain_at pkt (o + 6) s (o + len) -> rdata_need (R_srv v1 v2 v3 s) <= k -> rdata_read c o k len (R_srv v1 v2 v3 s) (decode_rr_srv A pkt c len).
Proof.
  cbn [rdata_need]. unfold text_need. intros R Hl H V D Hk. apart. unfold decode_rr_srv. rewrite (proj2 (Z.ltb_ge len 7)) by done.
  do 3 next get16_ok. next read_domain_ok. done_reading.
Qed.
Lemma decode_hinfo_ok c o k len s t : ready pkt c o k -> here pkt o (counted s ++ counted t) -> len = zlen s + zlen t + 2 ->
  rdata_need (R_hinfo s t) <= k -> rdata_read c o k len (R_hinfo s t) (decode_rr_hinfo A pkt c).
Proof.
  cbn [rdata_need]. unfold text_need. intros R H -> Hk. pose proof (zlen_nonneg s). pose proof (zlen_nonneg t). apart. unfold decode_rr_hinfo.
  do 2 next read_string_ok. done_reading.
Qed.
Lemma decode_naptr_ok c o k len v1 v2 f s r mid t : ready pkt c o k ->
  here pkt o (word16 v1 ++ word16 v2 ++ counted f ++ counted s ++ counted r) -> Forall is16 [v1; v2] -> mid = o + 7 + zlen f + zlen s + zlen r ->
  domain_at pkt mid t (o + len) -> 4 <= len ->
  rdata_need (R_naptr v1 v2 f s r t) <= k -> rdata_read c o k len (R_naptr v1 v2 f s r t) (decode_rr_naptr A pkt c len).
Proof.
  cbn [rdata_need]. unfold text_need. intros R H V -> D Hl Hk. pose proof (zlen_nonneg s). pose proof (zlen_nonneg t). pose proof (zlen_nonneg f).
  pose proof (zlen_nonneg r). apart. unfold decode_rr_naptr. rewrite (proj2 (Z.ltb_ge len 4)) by done.
  do 2 next get16_ok. do 3 next read_string_ok. next read_domain_ok. done_reading.
Qed.
Lemma decode_wks_ok c o k len w v bits : ready pkt c o k -> zlen w = 4 -> is16 v -> here pkt o (w ++ word16 v ++ bits) -> len = 6 + zlen bits ->
  rdata_need (R_wks w v bits) <= k -> rdata_read c o k len (R_wks w v bits) (decode_rr_wks A pkt c len).
Proof.
  cbn [rdata_need]. intros R Hz V H -> Hk. pose proof (zlen_nonneg bits). apart. unfold decode_rr_wks. rewrite (proj2 (Z.ltb_ge _ 6)) by lia.
  next get_bytes_ok. next get16_ok. replace (6 + zlen bits - 6) with (zlen bits) by lia. next read_raw_ok. done_reading.
Qed.
Lemma decode_x_ok c o k len w : ready pkt c o k -> here pkt o w -> len = zlen w -> rdata_need (R_x w) <= k ->
  rdata_read c o k len (R_x w) (x ← read_raw A pkt len c; let '(rawdata, c) := x in Got (A_x len rawdata, c)).
Proof. cbn [rdata_need]. intros R H -> Hk. next read_raw_ok. done_reading. Qed.

(** ** Texts *)

Lemma flat_counted_cons s ss : flat_map counted (s :: ss) = counted s ++ flat_map counted ss.
Proof. done. Qed.
Lemma txt_items_ok ss : forall fuel tmp o items total, block_at pkt tmp o -> here pkt o (flat_map counted ss) -> (length ss < fuel)%nat ->
  txt_items A pkt fuel tmp (zlen (flat_map counted ss)) items total = Got (items + zlen ss, total + zlen (concat ss)).
Proof.
  induction ss as [|s ss IH]; intros fuel tmp o items total B H Hf; (destruct fuel as [|fuel]; [cbn in Hf; lia|]); cbn [txt_items].
  - change (zlen (flat_map counted [])) with 0. cbn [Z.eqb]. change (zlen []) with 0. change (zlen (concat [])) with 0. by rewrite !Z.add_0_r.
  - rewrite flat_counted_cons in *. pose proof (byte_len_pos _ _ _ H) as L. apart. pose proof (zlen_nonneg s). pose proof (zlen_nonneg (flat_map counted ss)).
    pose proof B as (Hb & Ho & Hs). rewrite zlen_app, zlen_counted in *. rewrite (proj2 (Z.eqb_neq _ 0)) by lia. rewrite Hb.
    match goal with H1 : here pkt o (counted s) |- _ => rewrite (byte_at_here _ _ _ _ H1) end. cbn [mbind dres_bind]. cbv zeta.
    rewrite (proj2 (Z.ltb_ge (b_size tmp) _)) by lia. replace (zlen s + 1 + zlen (flat_map counted ss) - (zlen s + 1)) with (zlen (flat_map counted ss)) by lia.
    rewrite usize_id by (done || lia). rewrite (IH fuel _ (o + (zlen s + 1))); [|apply block_at_skip; done || lia | there | cbn in Hf; lia].
    cbn [concat]. rewrite zlen_app, zlen_cons. f_equal. f_equal; lia.
Qed.
Lemma txt_copy_ok ss : forall c o k, ready pkt c o k -> here pkt o (flat_map counted ss) -> zlen (concat ss) <= k ->
  exists c', txt_copy A pkt (length ss) c = Got c' /\ ready pkt c' (o + zlen (flat_map counted ss)) (k - zlen (concat ss)) /\ after c c' /\
    written c' = written c ++ concat ss.
Proof.
  induction ss as [|s ss IH]; intros c o k R H Hk; cbn [txt_copy length].
  - exists c. change (zlen (flat_map counted [])) with 0. change (zlen (concat [])) with 0. cbn [concat]. by rewrite Z.add_0_r, Z.sub_0_r, app_nil_r.
  - rewrite flat_counted_cons in *. pose proof (byte_len_pos _ _ _ H) as L. apart. pose proof (zlen_nonneg s). pose proof (zlen_nonneg (concat ss)).
    pose proof (zlen_nonneg (flat_map counted ss)). rewrite zlen_app, zlen_counted in *. cbn [concat] in *. rewrite zlen_app in *.
    pose proof R as [Ha _ _ _ Hr _ _]. rewrite Ha. match goal with H1 : here pkt o (counted s) |- _ => rename H1 into Hs end.
    rewrite (byte_at_here _ _ _ _ Hs). cbn [mbind dres_bind]. rewrite (proj2 (Z.ltb_ge (b_size (dest c)) _)) by lia.
    apply (here_app pkt o [zlen s] s) in Hs as [_ Hs]. rewrite (bytes_at_here _ _ s) by done. cbn [mbind dres_bind].
    destruct (store_ok A pkt Hw c o k s R) as (c1 & E1 & R1 & F1 & P1 & W1); [lia|]. rewrite E1. cbn [mbind dres_bind].
    pose proof (ready_skip A pkt Hw c1 o _ (zlen s + 1) R1 ltac:(lia)) as R2. rewrite P1 in R2.
    destruct (IH _ _ _ R2) as (c2 & E2 & R3 & F2 & W2); [there | lia|]. rewrite E2. exists c2. split; [done|].
    split; [|split].
    + by rewrite Z.add_assoc, Z.sub_add_distr.
    + etrans; [exact F1|]. etrans; [apply after_parse | exact F2].
    + rewrite W2. change (written (with_parse c1 ?b)) with (written c1). by rewrite W1, <- app_assoc.
Qed.
Lemma length_flat_counted ss : zlen ss <= zlen (flat_map counted ss).
Proof. induction ss as [|s ss IH]; [done|]. rewrite flat_counted_cons, zlen_app, zlen_counted, zlen_cons. pose proof (zlen_nonneg s). lia. Qed.
Lemma decode_txt_ok c o k len ss : ready pkt c o k -> here pkt o (flat_map counted ss) -> len = zlen (flat_map counted ss) ->
  rdata_need (R_txt ss) <= k -> rdata_read c o k len (R_txt ss) (decode_rr_txt A pkt c len).
Proof.
  cbn [rdata_need]. unfold text_need. intros R H -> Hk. pose proof (byte_len_pos _ _ _ H). pose proof (length_flat_counted ss). pose proof (zlen_nonneg (concat ss)).
  unfold decode_rr_txt. rewrite (txt_items_ok ss _ _ o) by (done || apply (ready_block _ _ _ _ R) || (pose proof R as [_ ? ? _ _ _ _]; unfold zlen in *; lia)).
  cbn [mbind dres_bind]. rewrite !Z.add_0_l. replace (Z.to_nat (zlen ss)) with (length ss) by (unfold zlen; lia).
  destruct (txt_copy_ok ss c o k R H) as (c1 & E1 & R1 & F1 & W1); [lia|]. rewrite E1. cbn [mbind dres_bind].
  pose proof R1 as [_ _ _ _ Hr _ _]. rewrite (proj2 (Z.eqb_neq _ 0)) by lia.
  destruct (store_ok A pkt Hw c1 _ _ [0] R1) as (c2 & E2 & R2 & F2 & P2 & W2); [change (zlen [0]) with 1; lia|]. rewrite E2. cbn [mbind dres_bind].
  assert (text c2 (b_ptr (dest c)) (concat ss)) as T.
  { rewrite <- (zlen_written _ _ _ _ R). apply (held_store c c2 _ [] (concat ss ++ [0])); [by rewrite W2, W1, <- app_assoc | apply held_nil | by rewrite Z.add_0_r]. }
  clear R R1. done_reading.
Qed.

(** ** Options of EDNS *)

Lemma hex_upper_digit d : 0 <= d < 16 -> digit_of 16 (hex_upper d) = Some d.
Proof.
  intros. assert (Forall (fun d => digit_of 16 (hex_upper d) = Some d) (seqZ 0 16)) as H1 by (apply (bool_decide_unpack _); vm_compute; exact I).
  rewrite Forall_forall in H1. apply H1. apply elem_of_seqZ. lia.
Qed.
Lemma nsid_bytes_ok bs : forall c o oc k, ready pkt c oc k -> here pkt o (nsid_text bs) -> Forall is_byte bs -> zlen bs <= k ->
  exists c', nsid_bytes A pkt (length bs) o c = Got c' /\ ready pkt c' oc (k - zlen bs) /\ after c c' /\ parse c' = parse c /\ written c' = written c ++ bs.
Proof.
  induction bs as [|b bs IH]; intros c o oc k R H Hb Hk; cbn [nsid_bytes length].
  - exists c. change (zlen []) with 0. by rewrite Z.sub_0_r, app_nil_r.
  - apply Forall_cons in Hb as [Hb Hbs]. unfold is_byte in Hb. rewrite zlen_cons in Hk. pose proof (zlen_nonneg bs).
    assert (0 <= b / 16 < 16) as D1 by dlia. assert (0 <= b mod 16 < 16) as D2 by dlia.
    assert (here pkt o [hex_upper (b / 16)] /\ here pkt (o + 1) [hex_upper (b mod 16)] /\ here pkt (o + 2) (nsid_text bs)) as (H1 & H2 & H3).
    { change (nsid_text (b :: bs)) with ([hex_upper (b / 16)] ++ [hex_upper (b mod 16)] ++ nsid_text bs) in H.
      apply here_app in H as [? H]. apply here_app in H as [? H]. change (zlen [_]) with 1 in *. split_and!; there. }
    rewrite (byte_at_here _ _ _ _ H1), (byte_at_here _ _ _ _ H2). cbn [mbind dres_bind]. unfold isxdigit, hexdigit. rewrite !hex_upper_digit by done.
    rewrite !bool_decide_true by eauto. cbn [negb mbind dres_bind]. change (default 0 (Some ?x)) with x.
    destruct (store_ok A pkt Hw c oc k [b] R) as (c1 & E1 & R1 & F1 & P1 & W1); [change (zlen [b]) with 1; lia|].
    assert (Z.lor (Z.shiftl (b / 16) 4) (b mod 16) = b) as -> by (rewrite Z.shiftl_mul_pow2, lor_add_shift by (cbn; lia); cbn; dlia).
    rewrite E1. cbn [mbind dres_bind]. change (zlen [b]) with 1 in R1.
    destruct (IH c1 (o + 2) oc (k - 1) R1 H3 Hbs) as (c2 & E2 & R2 & F2 & P2 & W2); [lia|]. exists c2. rewrite zlen_cons. split; [done|].
    split; [by rewrite Z.sub_add_distr|]. split; [by etrans|]. split; [congruence|]. by rewrite W2, W1, <- app_assoc.
Qed.
(** One option's data. *)
Lemma decode_data_ok c o k opt : ready pkt c o k -> here pkt o (opt_data opt) -> Forall is_byte (snd opt) -> zlen (snd opt) <= k ->
  exists c', (if fst opt =? EDNS0RR_NSID then decode_edns0rr_nsid A pkt (zlen (opt_data opt)) c else decode_edns0rr_raw A pkt (zlen (opt_data opt)) c)
      = Got (zlen (snd opt), c') /\
    ready pkt c' (o + zlen (opt_data opt)) (k - zlen (snd opt)) /\ after c c' /\ written c' = written c ++ snd opt.
Proof.
  intros R H Hb Hk. unfold opt_data in *. pose proof (byte_len_pos _ _ _ H). pose proof R as [Ha _ _ _ Hr _ _]. pose proof (zlen_nonneg (snd opt)).
  destruct (fst opt =? EDNS0RR_NSID).
  - rewrite zlen_nsid_text in *. unfold decode_edns0rr_nsid. rewrite Z_mod_mult, Z_div_mult by lia. cbn [Z.eqb].
    rewrite (proj2 (Z.ltb_ge (b_size (dest c)) _)) by lia. replace (Z.to_nat (zlen (snd opt))) with (length (snd opt)) by (unfold zlen; lia).
    destruct (nsid_bytes_ok (snd opt) c (b_ptr (parse c)) o k R) as (c1 & E1 & R1 & F1 & P1 & W1); [by rewrite Ha | done..|].
    rewrite E1. cbn [mbind dres_bind]. eexists. split; [done|]. split; [apply ready_skip; (done || lia)|]. split; [etrans; [done | apply after_parse] | done].
  - unfold decode_edns0rr_raw. rewrite (proj2 (Z.ltb_ge (b_size (dest c)) _)) by lia. rewrite Ha, (bytes_at_here _ _ _ _ H) by done. cbn [mbind dres_bind].
    destruct (store_ok A pkt Hw c o k (snd opt) R Hk) as (c1 & E1 & R1 & F1 & P1 & W1). rewrite E1. cbn [mbind dres_bind].
    eexists. split; [done|]. split; [apply ready_skip; (done || lia)|]. split; [etrans; [done | apply after_parse] | done].
Qed.

Lemma options_at_le opts : forall o o', options_at pkt o opts o' -> o + 4 * zlen opts <= o'.
Proof.
  induction opts as [|opt r IH]; intros o o'; cbn [options_at].
  - intros ->. change (zlen []) with 0. lia.
  - intros [_ H%IH]. rewrite zlen_wire_opt, zlen_cons in *. pose proof (zlen_nonneg (opt_data opt)). lia.
Qed.
(** The parts of an option. *)
Lemma option_parts o opt : option_at pkt o opt ->
  here pkt o (word16 (fst opt)) /\ here pkt (o + 2) (word16 (zlen (opt_data opt))) /\ here pkt (o + 4) (opt_data opt).
Proof. intros (H & _). unfold wire_opt in H. apart. rewrite !zlen_word16 in *. split_and!; there. Qed.
Lemma count_opts_ok opts : forall fuel o o' n, options_at pkt o opts o' -> (length opts < fuel)%nat ->
  count_opts pkt fuel o (o' - o) n = Got (n + zlen opts).
Proof.
  induction opts as [|opt r IH]; intros fuel o o' n; (destruct fuel as [|fuel]; [cbn [length]; lia|]); cbn [options_at count_opts]; intros H Hf.
  - subst. rewrite Z.sub_diag. cbn [Z.leb Z.compare]. change (zlen []) with 0. by rewrite Z.add_0_r.
  - destruct H as [Ho Hr]. pose proof (options_at_le _ _ _ Hr). pose proof (option_parts _ _ Ho) as (_ & H2 & _). destruct Ho as (_ & _ & H16 & _).
    rewrite zlen_wire_opt in *. pose proof (zlen_nonneg (opt_data opt)). pose proof (zlen_nonneg r).
    rewrite (proj2 (Z.leb_gt (o' - o) 0)) by lia. rewrite (bytes_at_here _ _ _ _ H2) by done. cbn [mbind dres_bind]. rewrite word16_value by done. cbv zeta.
    rewrite (proj2 (Z.ltb_ge (o' - o) _)) by lia. replace (o' - o - (zlen (opt_data opt) + 4)) with (o' - (o + (zlen (opt_data opt) + 4))) by lia.
    rewrite IH by (done || (cbn [length] in Hf; lia)). rewrite zlen_cons. f_equal. lia.
Qed.
Lemma opts_need_cons opt r : opts_need (opt :: r) = MEM_ALIGN A + zlen (snd opt) + opts_need r.
Proof. done. Qed.
Lemma opts_need_nonneg opts : 0 <= opts_need opts.
Proof.
  assert (0 < MEM_ALIGN A) by (destruct Hw as [-> | ->]; lia). induction opts as [|opt r IH]; [done|].
  rewrite opts_need_cons. pose proof (zlen_nonneg (snd opt)). lia.
Qed.
Lemma decode_opts_ok opts : forall c o o' k, ready pkt c o k -> options_at pkt o opts o' -> opts_need opts <= k ->
  exists os c', decode_opts A pkt (length opts) c = Got (os, c') /\ ready pkt c' o' (k - opts_need opts) /\ after c c' /\ Forall2 (option_means c') opts os.
Proof.
  induction opts as [|opt r IH]; intros c o o' k R H Hk; cbn [options_at decode_opts length] in *.
  - subst. exists [], c. cbn [opts_need foldr]. by rewrite Z.sub_0_r.
  - destruct H as [Ho Hr]. rewrite opts_need_cons in *. pose proof (opts_need_nonneg r). pose proof (zlen_nonneg (snd opt)).
    pose proof (option_parts _ _ Ho) as (H1 & H2 & H3). destruct Ho as (_ & V1 & V2 & Hb).
    assert (0 < MEM_ALIGN A) by (destruct Hw as [-> | ->]; lia). rewrite zlen_wire_opt in Hr.
    next get16_ok. next get16_ok.
    match goal with R0 : ready pkt ?c0 _ _ |- _ => destruct (align_memory_ok A pkt Hw c0 _ k R0) as (d & E & R3 & F3); [lia|]; clear R0 end.
    rewrite E. cbn [negb]. cbv zeta. clear E.
    destruct (decode_data_ok _ _ _ opt R3) as (c4 & E & R4 & F4 & W4); [there | done | lia|]. rewrite E. cbn [mbind dres_bind].
    destruct (IH c4 _ o' _ R4) as (os & c5 & E5 & R5 & F5 & M5); [replace (o + 2 + 2 + zlen (opt_data opt)) with (o + (zlen (opt_data opt) + 4)) by lia; done | lia|].
    rewrite E5. cbn [mbind dres_bind]. eexists _, c5. split; [done|]. split; [|split; [chain|]].
    + by rewrite !Z.sub_add_distr.
    + constructor; [|done]. eapply option_later; [apply after_later, F5|]. split; [done|]. split; [done|]. cbn [o_data].
      pose proof (zlen_written _ _ _ _ R3) as Z3. cbn [with_dest dest] in Z3. rewrite <- Z3.
      eapply (held_store _ c4 _ [] (snd opt)); [exact W4 | apply held_nil | by rewrite Z.add_0_r].
Qed.
Lemma alloc_struct_ok c o k n : ready pkt c o k -> 0 <= n -> MEM_ALIGN A + n <= k ->
  exists p d, alloc_struct A (dest c) n = (Some p, d) /\ ready pkt (with_dest c d) o (k - (MEM_ALIGN A + n)) /\ after c (with_dest c d).
Proof.
  intros R Hn Hk. assert (0 < MEM_ALIGN A) by (destruct Hw as [-> | ->]; lia).
  destruct (align_memory_ok A pkt Hw c o k R) as (d & E & R1 & F1); [lia|]. pose proof R as [_ _ _ _ Hr _ _]. pose proof R1 as [Ha Hi Hp Hd1 Hr1 Hm1 Hs1].
  cbn [with_dest parse dest mem] in *. unfold alloc_struct. rewrite (proj2 (Z.eqb_neq _ 0)) by lia. rewrite E. cbn [negb].
  rewrite (proj2 (Z.ltb_ge (b_size d) _)) by lia. rewrite usize_id by (done || lia). eexists _, _. split; [done|]. split.
  - split; cbn [with_dest parse dest mem b_ptr b_size]; try done; lia.
  - etrans; [exact F1|]. split; [|done..]. split; [|done]. unfold written. cbn [with_dest dest mem b_ptr]. apply ztake_prefix_of. lia.
Qed.
Lemma decode_opt_ok c o k len udp ext dok opts : ready pkt c o k -> options_at pkt o opts (o + len) -> len < 2 ^ 16 -> edns c = false ->
  rdata_need (R_opt udp ext dok opts) <= k ->
  exists d c', decode_rr_opt A pkt c udp (if dok then Some true else None) len = Got (d, c') /\
    ready pkt c' (o + len) (k - rdata_need (R_opt udp ext dok opts)) /\ later c c' /\ means c' (R_opt udp ext dok opts) d /\
    edns c' = true /\ response_rcode c' = response_rcode c.
Proof.
  cbn [rdata_need]. intros R H Hl He Hk. pose proof (options_at_le _ _ _ H). pose proof (zlen_nonneg opts). pose proof (opts_need_nonneg opts).
  assert (0 < MEM_ALIGN A) by (destruct Hw as [-> | ->]; lia). assert (0 <= zlen opts * sizeof_edns0_opt_t A < 2 ^ 32) by nia.
  unfold decode_rr_opt. rewrite He. set (c1 := Context_ _ _ _ _ true). cbv zeta.
  assert (ready pkt c1 o k) as R1 by (destruct R; by split). assert (later c c1) as L1 by (by split).
  destruct (Z.eqb_spec len 0) as [->|Hne].
  - assert (opts = []) as -> by (apply zlen_0_nil; lia). eexists _, c1. split; [done|]. rewrite Z.add_0_r.
    split; [eapply ready_less; [done | cbn [opts_need foldr]; change (zlen []) with 0; lia]|]. repeat split; [done|constructor].
  - rewrite (ready_at _ _ _ _ R1).
    pose proof (count_opts_ok opts (S (Z.to_nat len)) o (o + len) 0 H ltac:(unfold zlen in *; lia)) as Ec.
    replace (o + len - o) with len in Ec by lia. rewrite Ec. cbn [mbind dres_bind]. rewrite Z.add_0_l.
    rewrite (Z.mul_comm (sizeof_edns0_opt_t A)), (usize_id A Hw) by done.
    destruct (alloc_struct_ok c1 o k (zlen opts * sizeof_edns0_opt_t A) R1) as (p & d & E & R2 & F2); [lia..|]. rewrite E.
    replace (Z.to_nat (zlen opts)) with (length opts) by (unfold zlen; lia).
    destruct (decode_opts_ok opts _ o (o + len) _ R2 H) as (os & c3 & E3 & R3 & F3 & M3); [lia|]. rewrite E3. cbn [mbind dres_bind].
    eexists _, c3. split; [done|]. rewrite Z.sub_add_distr. split; [done|]. split; [etrans; [exact L1|]; etrans; apply after_later; [exact F2 | exact F3]|].
    split; [done|]. destruct F2 as [_ F21 F22], F3 as [_ F31 F32]. split; [by rewrite F32, F22 | by rewrite F31, F21].
Qed.

(** ** Every type *)

Ltac each_type H := repeat (apply elem_of_cons in H as [->|H]; [reflexivity|]); by apply not_elem_of_nil in H.
Lemma rdata_domain c type len opt : type ∈ domain_types ->
  decode_rdata A pkt c type len opt = (x ← read_domain A pkt c; let '(cname, c) := x in Got (A_cname cname, c)).
Proof. intros H. each_type H. Qed.
Lemma rdata_mx c type len opt : type ∈ mx_types -> decode_rdata A pkt c type len opt = decode_rr_mx A pkt c len.
Proof. intros H. each_type H. Qed.
Lemma rdata_minfo c type len opt : type ∈ minfo_types -> decode_rdata A pkt c type len opt = decode_rr_minfo A pkt c.
Proof. intros H. each_type H. Qed.
Lemma rdata_hinfo c type len opt : type ∈ hinfo_types -> decode_rdata A pkt c type len opt = decode_rr_hinfo A pkt c.
Proof. intros H. each_type H. Qed.
Lemma rdata_txt c type len opt : type ∈ txt_types -> decode_rdata A pkt c type len opt = decode_rr_txt A pkt c len.
Proof. intros H. each_type H. Qed.
Lemma rdata_x c type len opt : type ∉ known_types ->
  decode_rdata A pkt c type len opt = (x ← read_raw A pkt len c; let '(rawdata, c) := x in Got (A_x len rawdata, c)).
Proof.
  unfold known_types, own_types. rewrite !not_elem_of_app, !not_elem_of_cons. intros H. decompose [and] H. unfold decode_rdata, as_type.
  rewrite !(proj2 (Z.eqb_neq type _)) by done. by rewrite !bool_decide_false by done.
Qed.
(** The flags an OPT record has in the place of its time to live, as they are passed on. *)
Definition opt_args (r : rdata) : Z * option bool :=
  match r with R_opt udp _ dok _ => (udp, if dok then Some true else None) | _ => (0, None) end.
Lemma rdata_need_nonneg r : 0 <= rdata_need r.
Proof.
  assert (0 < MEM_ALIGN A) by (destruct Hw as [-> | ->]; lia). assert (forall w : list Z, 0 <= zlen w) as Z0 by (intros; apply zlen_nonneg).
  assert (forall w, 0 <= raw_need A w) as W0 by (intros w; unfold raw_need; destruct (decide _); [done|]; pose proof (Z0 w); lia).
  assert (forall s, 0 <= text_need s) as T0 by (intros s; unfold text_need; pose proof (Z0 s); lia).
  destruct r; cbn [rdata_need]; auto using Z.add_nonneg_nonneg; try done.
  pose proof (opts_need_nonneg opts). pose proof (zlen_nonneg opts). nia.
Qed.
Lemma decode_rdata_ok c o k type len r : ready pkt c o k -> rdata_at pkt type o len r -> rdata_need r <= k -> len < 2 ^ 16 -> edns c = false \/ rdata_opt r = false ->
  exists d c', decode_rdata A pkt c type len (opt_args r) = Got (d, c') /\ ready pkt c' (o + len) (k - rdata_need r) /\ later c c' /\ means c' r d /\
    edns c' = (edns c || rdata_opt r) /\ response_rcode c' = response_rcode c.
Proof.
  intros R H Hk Hl He. pose proof (rdata_need_nonneg r) as Hn.
  assert (forall m, rdata_read c o k len r m -> rdata_opt r = false -> exists d c', m = Got (d, c') /\ ready pkt c' (o + len) (k - rdata_need r) /\
    later c c' /\ means c' r d /\ edns c' = (edns c || rdata_opt r) /\ response_rcode c' = response_rcode c) as Done.
  { intros m (d & c' & E & R' & [L1 L2 L3] & M) Ho. exists d, c'. rewrite Ho, orb_false_r. done. }
  destruct H; try (apply Done; [|done]); subst.
  - by apply decode_a_ok.
  - by apply decode_aaaa_ok.
  - rewrite rdata_domain by done. by apply decode_domain_ok.
  - rewrite rdata_mx by done. by apply decode_mx_ok.
  - rewrite rdata_minfo by done. by eapply decode_minfo_ok.
  - by eapply decode_soa_ok.
  - by apply decode_srv_ok.
  - rewrite rdata_hinfo by done. by apply decode_hinfo_ok.
  - by eapply decode_naptr_ok.
  - rewrite rdata_txt by done. by apply decode_txt_ok.
  - by apply decode_wks_ok.
  - destruct He as [He|]; [|done]. destruct (decode_opt_ok c o k len udp ext dok opts R) as (d & c' & E & R' & L & M & E1 & E2); [done..|].
    exists d, c'. rewrite E1, orb_true_r. done.
  - rewrite rdata_x by done. by apply decode_x_ok.
Qed.
End Records.
