(* ===== verification/DnsMessage.v ===== *)
(** * What the DNS decoder makes of messages

    A packet that is a message, with room in the block: [dns_decode] gives the response
    that stands for it, section by section, its strings in the block.  What an encoded
    query decodes to follows. *)

From S2P Require Import Prelude CLib DnsTypes DnsCodec DnsTotal DnsEncode DnsFormat DnsDecode DnsRecords.

Definition question_means (c : idns_context) (q : question) (x : dns_question_t) : Prop :=
  q_type x = qs_type q /\ q_class x = qs_class q /\ text c (q_name x) (qs_name q).
Definition answer_means `{Floats} (c : idns_context) (r : answer) (a : dns_answer_t) : Prop :=
  a_type a = r_type r /\ a_class a = r_class r /\ a_ttl a = r_ttl r /\ text c (a_name a) (r_name r) /\ means c (r_data r) (a_data a).
(** The response code, with the bits an OPT record adds. *)
Definition rcode_with (rc : Z) (r : answer) : Z := match r_data r with R_opt _ ext _ _ => Z.lor (Z.shiftl ext 4) rc | _ => rc end.

Section Message.
Context (A : abi) (pkt : list Z) (Hw : word_ok A) (Hopt : 0 <= sizeof_edns0_opt_t A < 2 ^ 10) (Hlen : zlen pkt < 2 ^ 32) (Hpkt : Forall is_byte pkt).
Context `{F : Floats}.

Definition question_need (q : question) : Z := text_need (qs_name q).
Definition answer_need (r : answer) : Z := text_need (r_name r) + rdata_need A (r_data r).
Definition all_need {X} (need : X -> Z) (l : list X) : Z := foldr (fun x n => need x + n) 0 l.

Lemma question_later c c' q x : later c c' -> question_means c q x -> question_means c' q x.
Proof. intros L (? & ? & ?). do 2 (split; [done|]). by eapply text_later. Qed.
Lemma answer_later c c' r a : later c c' -> answer_means c r a -> answer_means c' r a.
Proof. intros L (? & ? & ? & ? & ?). do 3 (split; [done|]). split; [by eapply text_later | by eapply means_later]. Qed.

Lemma decode_question_ok c o k q o' : ready pkt c o k -> question_at pkt o q o' -> question_need q <= k ->
  exists x c', decode_question A pkt c = Got (x, c') /\ ready pkt c' o' (k - question_need q) /\ after c c' /\ question_means c' q x.
Proof.
  unfold question_need, text_need. intros R (mid & D & H & V1 & V2 & Hn & ->) Hk. pose proof (byte_len_pos _ _ _ H) as L. rewrite zlen_app, !zlen_word16 in L.
  pose proof (zlen_nonneg (qs_name q)). apart. unfold decode_question. next read_domain_ok.
  match goal with R : ready _ ?c1 _ _ |- _ => pose proof R as [_ _ ? _ _ _ _]; rewrite (proj2 (Z.ltb_ge (b_size (parse c1)) 4)) by lia end.
  do 2 next get16_ok. rewrite (proj2 (Z.eqb_neq _ RR_OPT)) by done.
  match goal with R : ready _ ?c1 _ _ |- _ => eexists _, c1; split; [done|]; split; [by replace (mid + 4) with (mid + 2 + 2) by lia|] end.
  split; [chain|]. split; [done|]. split; [done|]. cbn [q_name]. hold.
Qed.

(** The flags of an OPT record, four bytes. *)
Lemma opt_flags (dok : bool) :
  (if Z.land (if dok then 0x80 else 0) 0x80 =? 0x80 then Some true else None) = (if dok then Some true else None) /\
  Z.land (if dok then 0x80 else 0) 0x7F = 0.
Proof. by destruct dok. Qed.
Lemma answer_need_parts r : 0 <= zlen (r_name r) /\ 0 <= rdata_need A (r_data r).
Proof. split; [apply zlen_nonneg | by apply rdata_need_nonneg]. Qed.
(** What stands before the data of a record. *)
Definition fixed_read (c : idns_context) (mid k : Z) (r : answer) (len : Z) : Prop :=
  exists c', decode_fixed A pkt c = Got (r_type r, r_class r, r_ttl r, opt_args (r_data r), len, c') /\ ready pkt c' (mid + 10) k /\
    later c c' /\ edns c' = edns c /\ response_rcode c' = rcode_with (response_rcode c) r.
Lemma decode_fixed_ok c mid k r len : ready pkt c mid k -> here pkt mid (word16 (r_type r) ++ middle r len) -> rdata_opt (r_data r) = false -> r_type r <> RR_OPT ->
  is16 (r_type r) -> is16 (r_class r) -> is32 (r_ttl r) -> is16 len -> fixed_read c mid k r len.
Proof.
  intros R H Ho Hn V1 V2 V3 V4.
  assert (middle r len = word16 (r_class r) ++ word32 (r_ttl r) ++ word16 len) as M by (unfold middle; by destruct (r_data r)).
  assert (forall rc, rcode_with rc r = rc) as N by (unfold rcode_with; by destruct (r_data r)).
  assert (opt_args (r_data r) = (0, None)) as Oa by (by destruct (r_data r)). unfold fixed_read. rewrite M in H. rewrite N, Oa. clear M N Oa. apart.
  unfold decode_fixed. next get16_ok. rewrite (proj2 (Z.eqb_neq _ RR_OPT)) by done. next get16_ok. next get32_ok. next get16_ok.
  match goal with R : ready _ ?c1 _ _ |- _ => exists c1; split; [done|]; split; [by replace (mid + 10) with (mid + 2 + 2 + 4 + 2) by lia|];
    assert (after c c1) as [] by chain end. done.
Qed.
Lemma decode_fixed_opt_ok c mid k r len udp ext dok opts : ready pkt c mid k -> here pkt mid (word16 (r_type r) ++ middle r len) ->
  r_data r = R_opt udp ext dok opts -> r_type r = RR_OPT -> is16 udp -> r_class r = CLASS_UNKNOWN -> r_ttl r = 0 -> is16 len -> fixed_read c mid k r len.
Proof.
  intros R H Ho Ht V1 Hc Hl V4. unfold fixed_read, middle, rcode_with in *. rewrite Ho, Ht, Hc, Hl in *. clear Ho Ht Hc Hl. apart.
  assert (is16 RR_OPT) by done. unfold decode_fixed. next get16_ok. cbn [Z.eqb Pos.eqb RR_OPT]. next get16_ok.
  match goal with R : ready _ ?c1 _ _ |- _ => rename c1 into c2; rename R into R2 end. change (RR_OPT =? RR_OPT) with true. cbv iota.
  set (flags := if dok then 128 else 0) in *. assert (here pkt (mid + 2 + 2) [ext; 0; flags; 0]) as Hf by there.
  assert (here pkt (mid + 2 + 2 + 4) (word16 len)) as Hl by (change (zlen [ext; 0; flags; 0]) with 4 in *; there).
  rewrite (ready_at _ _ _ _ R2), (bytes_at_here _ _ _ _ Hf) by done. cbn [mbind dres_bind]. nths. cbn [Z.eqb negb]. cbv zeta.
  unfold flags at 1 2. destruct (opt_flags dok) as [-> ->]. cbn [Z.eqb negb mbind dres_bind].
  set (c3 := Context_ (parse c2) _ _ _ _). assert (ready pkt c3 (mid + 2 + 2) k) as R3 by (destruct R2; by split).
  pose proof (byte_len_pos _ _ _ Hf) as L. change (zlen [ext; 0; flags; 0]) with 4 in L.
  pose proof (ready_skip A pkt Hw c3 _ _ 4 R3 ltac:(lia)) as R4. clear R2 R3.
  assert (after c c2) as [[Lw Ll] Lr Le] by chain. next get16_ok.
  match goal with R : ready _ ?c1 _ _, G : after (with_parse c3 _) ?c1 |- _ => exists c1; split; [done|]; split; [by replace (mid + 10) with (mid + 2 + 2 + 4 + 2) by lia|];
    destruct G as [[Gw Gl] Gr Ge] end.
  split; [|split; [by rewrite Ge | by rewrite Gr; cbn [with_parse response_rcode c3]; rewrite Lr]].
  split; [by etrans; [exact Lw | exact Gw] | by rewrite Gl].
Qed.
Lemma decode_answer_ok c o k r o' : ready pkt c o k -> answer_at pkt o r o' -> answer_need r <= k -> edns c = false \/ is_opt r = false ->
  exists a c', decode_answer A pkt c = Got (a, c') /\ ready pkt c' o' (k - answer_need r) /\ later c c' /\ answer_means c' r a /\
    edns c' = (edns c || is_opt r) /\ response_rcode c' = rcode_with (response_rcode c) r.
Proof.
  unfold answer_need, is_opt. intros R (mid & len & D & H & V1 & V2 & V3 & V4 & Vr & Hd & -> & Hend) Hk He.
  destruct (answer_need_parts r) as [Z1 Z2]. unfold text_need in *. unfold decode_answer.
  destruct (read_domain_ok A pkt Hw Hlen Hpkt c o k (r_name r) mid R D) as (p & c1 & E & R1 & F1 & T); [lia|]. rewrite E. cbn [mbind dres_bind]. clear E R.
  assert (10 <= zlen pkt - mid) as L10 by (unfold is16 in V4; lia). pose proof R1 as [_ _ Hp _ _ _ _]. rewrite (proj2 (Z.ltb_ge (b_size (parse c1)) 10)) by lia.
  assert (fixed_read c1 mid (k - (zlen (r_name r) + 1)) r len) as (c2 & E & R2 & L2 & Ee & Er).
  { destruct (rdata_opt (r_data r)) eqn:Eo.
    - destruct (r_data r) as [| | | | | | | | | | |udp ext dok opts|] eqn:Ed; try done. destruct Vr as (U & B & C & T0).
      assert (r_type r = RR_OPT) as Ht by (by inversion Hd). by apply (decode_fixed_opt_ok c1 mid _ r len udp ext dok opts).
    - apply decode_fixed_ok; try done. by destruct (r_data r). }
  rewrite E. cbn [mbind dres_bind]. cbv zeta. pose proof (ready_at _ _ _ _ R2) as Ha. rewrite Ha. unfold is16 in V4.
  rewrite (proj2 (Z.ltb_ge (zlen pkt - (mid + 10)) _)) by lia.
  destruct (decode_rdata_ok A pkt Hw Hlen Hpkt Hopt c2 (mid + 10) _ (r_type r) len (r_data r) R2 Hd) as (d & c3 & E3 & R3 & L3 & M3 & Ee3 & Er3);
    [lia..| |].
  { destruct F1 as [_ _ Fe]. rewrite Ee, Fe. done. }
  rewrite E3. cbn [mbind dres_bind]. destruct F1 as [L1 Fr Fe]. eexists _, c3. split; [done|]. rewrite Z.sub_add_distr. split; [done|].
  split; [by etrans; [exact L1|]; etrans|]. split; [|by rewrite Ee3, Er3, Ee, Er, Fe, Fr].
  do 3 (split; [done|]). split; [|done]. cbn [a_name]. eapply text_later; [exact L3|]. by eapply text_later.
Qed.

(** ** Sections *)

Lemma all_need_nonneg {X} (need : X -> Z) l : (forall x, 0 <= need x) -> 0 <= all_need need l.
Proof. intros H. induction l as [|x l IH]; cbn [all_need foldr]; [done|]. pose proof (H x). unfold all_need in IH. lia. Qed.
Lemma all_need_cons {X} (need : X -> Z) x l : all_need need (x :: l) = need x + all_need need l.
Proof. done. Qed.
Lemma answer_need_nonneg r : 0 <= answer_need r.
Proof. destruct (answer_need_parts r). unfold answer_need, text_need. lia. Qed.
Lemma question_need_nonneg q : 0 <= question_need q.
Proof. unfold question_need, text_need. pose proof (zlen_nonneg (qs_name q)). lia. Qed.
Lemma decode_questions_ok qs : forall c o k o', ready pkt c o k -> many_at (question_at pkt) o qs o' -> all_need question_need qs <= k ->
  exists xs c', decode_many (decode_question A pkt) (length qs) c = Got (xs, c') /\ ready pkt c' o' (k - all_need question_need qs) /\ after c c' /\
    Forall2 (question_means c') qs xs.
Proof.
  induction qs as [|q qs IH]; intros c o k o' R H Hk; cbn [many_at decode_many length] in *.
  - subst. exists [], c. cbn [all_need foldr]. by rewrite Z.sub_0_r.
  - destruct H as (mid & Hq & Hqs). rewrite all_need_cons in *. pose proof (all_need_nonneg question_need qs question_need_nonneg). pose proof (question_need_nonneg q).
    destruct (decode_question_ok c o k q mid R Hq) as (x & c1 & E1 & R1 & F1 & M1); [lia|]. rewrite E1. cbn [mbind dres_bind].
    destruct (IH c1 mid _ o' R1 Hqs) as (xs & c2 & E2 & R2 & F2 & M2); [lia|]. rewrite E2. cbn [mbind dres_bind].
    eexists _, c2. split; [done|]. rewrite Z.sub_add_distr. split; [done|]. split; [by etrans|]. constructor; [|done].
    eapply question_later; [apply after_later, F2 | done].
Qed.
Lemma decode_answers_ok rs : forall c o k o', ready pkt c o k -> many_at (answer_at pkt) o rs o' -> all_need answer_need rs <= k ->
  (length (List.filter is_opt rs) + (if edns c then 1 else 0) <= 1)%nat ->
  exists xs c', decode_many (decode_answer A pkt) (length rs) c = Got (xs, c') /\ ready pkt c' o' (k - all_need answer_need rs) /\ later c c' /\
    Forall2 (answer_means c') rs xs /\ edns c' = (edns c || existsb is_opt rs) /\ response_rcode c' = foldl rcode_with (response_rcode c) rs.
Proof.
  induction rs as [|r rs IH]; intros c o k o' R H Hk Hn; cbn [many_at decode_many length existsb foldl List.filter] in *.
  - subst. exists [], c. cbn [all_need foldr]. by rewrite Z.sub_0_r, orb_false_r.
  - destruct H as (mid & Hq & Hqs). rewrite all_need_cons in *. pose proof (all_need_nonneg answer_need rs answer_need_nonneg). pose proof (answer_need_nonneg r).
    destruct (decode_answer_ok c o k r mid R Hq) as (x & c1 & E1 & R1 & F1 & M1 & Ee1 & Er1); [lia | |].
    { destruct (is_opt r), (edns c); cbn [length] in Hn; (by right) || (by left) || lia. }
    rewrite E1. cbn [mbind dres_bind].
    destruct (IH c1 mid _ o' R1 Hqs) as (xs & c2 & E2 & R2 & F2 & M2 & Ee2 & Er2); [lia | |].
    { rewrite Ee1. destruct (is_opt r), (edns c); cbn [length orb] in *; lia. }
    rewrite E2. cbn [mbind dres_bind]. eexists _, c2. split; [done|]. rewrite Z.sub_add_distr. split; [done|]. split; [by etrans|].
    split; [constructor; [|done]; by eapply answer_later|]. rewrite Ee2, Er2, Ee1, Er1. split; [by rewrite orb_assoc | done].
Qed.
End Message.

(** ** The message *)

Definition with_rcode (h : dns_header) (rc : Z) : dns_header :=
  mkHeader (id h) (query h) (opcode h) (aa h) (tc h) (rd h) (ra h) (ad h) (cd h) rc.
Definition response_means `{Floats} (c : idns_context) (m : message) (resp : dns_response) : Prop :=
  Forall2 (question_means c) (m_questions m) (questions resp) /\ Forall2 (answer_means c) (m_answers m) (answers resp) /\
  Forall2 (answer_means c) (m_nameservers m) (nameservers resp) /\ Forall2 (answer_means c) (m_additional m) (additional resp).
(** The arrays of the four sections, and what is in them. *)
Definition array_need (A : abi) (n sizeof : Z) : Z := MEM_ALIGN A + n * sizeof.
Definition arrays_need (A : abi) (m : message) : Z :=
  array_need A (zlen (m_questions m)) (sizeof_dns_question_t A) + array_need A (zlen (m_answers m)) (sizeof_dns_answer_t A) +
  array_need A (zlen (m_nameservers m)) (sizeof_dns_answer_t A) + array_need A (zlen (m_additional m)) (sizeof_dns_answer_t A).
Definition message_need (A : abi) (m : message) : Z :=
  sizeof_dns_query_t A + arrays_need A m + all_need question_need (m_questions m) + all_need (answer_need A) (m_answers m) +
  all_need (answer_need A) (m_nameservers m) + all_need (answer_need A) (m_additional m).

Section Top.
Context (A : abi) (pkt : list Z) (HA : abi_ok A) (Hlen : zlen pkt < 2 ^ 32) (Hpkt : Forall is_byte pkt).
Context `{F : Floats}.

Lemma alloc_array_ok c o k n sizeof : ready pkt c o k -> is16 n -> 0 < sizeof < 256 -> array_need A n sizeof <= k ->
  exists d, alloc_array A (dest c) n sizeof = (false, d) /\ ready pkt (with_dest c d) o (k - array_need A n sizeof) /\ after c (with_dest c d).
Proof.
  destruct HA as (Hw & _). unfold array_need, is16, alloc_array. intros R Hn Hs Hk. rewrite usize_id by (done || nia).
  destruct (alloc_struct_ok A pkt Hw c o k (n * sizeof) R) as (p & d & E & R' & F'); [nia | done|].
  rewrite E. exists d. rewrite bool_decide_false by done. by rewrite andb_false_r.
Qed.
(** The header's counts. *)
Lemma word16_sum v : is16 v -> znth (word16 v) 0 * 256 + znth (word16 v) 1 = v.
Proof.
  intros V. unfold is16 in V. unfold word16, u16. rewrite Z.mod_small by done. nths. change 0xFF with (Z.ones 8).
  rewrite !Z.land_ones, Z.shiftr_div_pow2 by lia. dlia.
Qed.
Lemma foldl_rcode rs rc : Forall (fun r => is_opt r = false) rs -> foldl rcode_with rc rs = rc.
Proof.
  induction 1 as [|r rs Hr _ IH]; [done|]. cbn [foldl]. assert (rcode_with rc r = rc) as -> by (unfold rcode_with, is_opt in *; by destruct (r_data r)). done.
Qed.
Lemma no_opt rs : Forall (fun r => is_opt r = false) rs -> List.filter is_opt rs = [] /\ existsb is_opt rs = false.
Proof. induction 1 as [|r rs Hr _ [IH1 IH2]]; [done|]. cbn [List.filter existsb]. by rewrite Hr. Qed.
(** The sections, behind the arrays. *)
Lemma decode_sections c o k m : ready pkt c o k -> edns c = false ->
  all_need question_need (m_questions m) + all_need (answer_need A) (m_answers m) + all_need (answer_need A) (m_nameservers m) +
    all_need (answer_need A) (m_additional m) <= k ->
  Forall (fun r => is_opt r = false) (m_answers m) -> Forall (fun r => is_opt r = false) (m_nameservers m) ->
  (length (List.filter is_opt (m_additional m)) <= 1)%nat ->
  (exists o1 o2 o3 o4, many_at (question_at pkt) o (m_questions m) o1 /\ many_at (answer_at pkt) o1 (m_answers m) o2 /\
    many_at (answer_at pkt) o2 (m_nameservers m) o3 /\ many_at (answer_at pkt) o3 (m_additional m) o4) ->
  exists qs ans ns ar c1 c2 c3 c4 o4 k4,
    decode_many (decode_question A pkt) (length (m_questions m)) c = Got (qs, c1) /\
    decode_many (decode_answer A pkt) (length (m_answers m)) c1 = Got (ans, c2) /\ edns c2 = false /\
    decode_many (decode_answer A pkt) (length (m_nameservers m)) c2 = Got (ns, c3) /\ edns c3 = false /\
    decode_many (decode_answer A pkt) (length (m_additional m)) c3 = Got (ar, c4) /\
    ready pkt c4 o4 k4 /\ later c c4 /\ Forall2 (question_means c4) (m_questions m) qs /\ Forall2 (answer_means c4) (m_answers m) ans /\
    Forall2 (answer_means c4) (m_nameservers m) ns /\ Forall2 (answer_means c4) (m_additional m) ar /\
    response_rcode c4 = foldl rcode_with (response_rcode c) (m_additional m).
Proof.
  destruct HA as (Hw & _ & _ & _ & Ho). assert (0 <= sizeof_edns0_opt_t A < 2 ^ 10) as Hopt by lia.
  intros R He Hk N1 N2 N3 (o1 & o2 & o3 & o4 & H1 & H2 & H3 & H4).
  pose proof (all_need_nonneg question_need (m_questions m) question_need_nonneg).
  pose proof (fun rs => all_need_nonneg (answer_need A) rs (answer_need_nonneg A Hw Hopt)) as NN.
  pose proof (NN (m_answers m)). pose proof (NN (m_nameservers m)). pose proof (NN (m_additional m)). clear NN.
  destruct (no_opt _ N1) as [F1 X1], (no_opt _ N2) as [F2 X2].
  destruct (decode_questions_ok A pkt Hw Hlen Hpkt _ c o k o1 R H1) as (qs & c1 & E1 & R1 & [L1 Lr1 Le1] & M1); [lia|].
  destruct (decode_answers_ok A pkt Hw Hopt Hlen Hpkt _ c1 o1 _ o2 R1 H2) as (ans & c2 & E2 & R2 & L2 & M2 & Ee2 & Er2); [lia | by rewrite F1, Le1, He; cbn; lia|].
  assert (edns c2 = false) as Ef2 by (by rewrite Ee2, Le1, He, X1).
  destruct (decode_answers_ok A pkt Hw Hopt Hlen Hpkt _ c2 o2 _ o3 R2 H3) as (ns & c3 & E3 & R3 & L3 & M3 & Ee3 & Er3); [lia | by rewrite F2, Ef2; cbn; lia|].
  assert (edns c3 = false) as Ef3 by (by rewrite Ee3, Ef2, X2).
  destruct (decode_answers_ok A pkt Hw Hopt Hlen Hpkt _ c3 o3 _ o4 R3 H4) as (ar & c4 & E4 & R4 & L4 & M4 & Ee4 & Er4); [lia | by rewrite Ef3, Nat.add_0_r|].
  exists qs, ans, ns, ar, c1, c2, c3, c4, o4. eexists. do 6 (split; [done|]). split; [exact R4|].
  assert (later c3 c4) as L34 by done. assert (later c2 c4) as L24 by (by etrans). assert (later c1 c4) as L14 by (by etrans).
  split; [etrans; [exact L1 | done]|]. split; [eapply Forall2_impl; [exact M1|]; intros; by apply (question_later _ _ _ _ L14)|].
  split; [eapply Forall2_impl; [exact M2|]; intros; by apply (answer_later _ _ _ _ L24)|]. split; [eapply Forall2_impl; [exact M3|]; intros; by apply (answer_later _ _ _ _ L34)|].
  split; [done|]. rewrite Er4, Er3, Er2, Lr1. by rewrite (foldl_rcode _ _ N1), (foldl_rcode _ _ N2).
Qed.

(** The block's first structure, and the arrays behind it. *)
Lemma alloc_query (memory : list Z) : 0 < zlen memory -> sizeof_dns_query_t A <= zlen memory < 2 ^ 32 -> zlen memory mod MEM_ALIGN A = 0 ->
  alloc_struct A (Block (zlen memory) 0) (sizeof_dns_query_t A) = (Some 0, Block (zlen memory - sizeof_dns_query_t A) (sizeof_dns_query_t A)).
Proof.
  destruct HA as (Hw & Hq & _). intros Hp Hs Hm. unfold alloc_struct, align_memory. cbn [b_size b_ptr]. rewrite (proj2 (Z.eqb_neq _ 0)) by lia.
  assert (0 < MEM_ALIGN A) as H0 by (destruct Hw as [-> | ->]; lia).
  assert (MEM_ALIGN A <= zlen memory) by (destruct (Z.le_gt_cases (MEM_ALIGN A) (zlen memory)); [done|]; rewrite Z.mod_small in Hm; lia).
  rewrite (proj2 (Z.ltb_ge (zlen memory) (MEM_ALIGN A))) by done. rewrite (align_mask A Hw), Hm, Z.sub_0_r, Z.eqb_refl. cbn [negb b_size b_ptr].
  rewrite (proj2 (Z.ltb_ge (zlen memory) _)) by lia. by rewrite usize_id by (done || lia).
Qed.
Lemma arrays_need_nonneg m :
  0 <= array_need A (zlen (m_questions m)) (sizeof_dns_question_t A) /\ 0 <= array_need A (zlen (m_answers m)) (sizeof_dns_answer_t A) /\
  0 <= array_need A (zlen (m_nameservers m)) (sizeof_dns_answer_t A) /\ 0 <= array_need A (zlen (m_additional m)) (sizeof_dns_answer_t A) /\
  0 <= arrays_need A m.
Proof.
  destruct HA as (Hw & _ & Hs1 & Hs2 & _). assert (0 < MEM_ALIGN A) by (destruct Hw as [-> | ->]; lia).
  assert (forall X (l : list X) s, 0 < s -> 0 <= array_need A (zlen l) s) as NN by (unfold array_need; intros X l s ?; pose proof (zlen_nonneg l); nia).
  pose proof (NN _ (m_questions m) _ (proj1 Hs1)). pose proof (NN _ (m_answers m) _ (proj1 Hs2)).
  pose proof (NN _ (m_nameservers m) _ (proj1 Hs2)). pose proof (NN _ (m_additional m) _ (proj1 Hs2)). unfold arrays_need. split_and!; lia.
Qed.
Lemma alloc_arrays_ok c o k m : ready pkt c o k -> arrays_need A m <= k ->
  Forall is16 [zlen (m_questions m); zlen (m_answers m); zlen (m_nameservers m); zlen (m_additional m)] ->
  exists d1 d2 d3 d4, alloc_array A (dest c) (zlen (m_questions m)) (sizeof_dns_question_t A) = (false, d1) /\
    alloc_array A d1 (zlen (m_answers m)) (sizeof_dns_answer_t A) = (false, d2) /\
    alloc_array A d2 (zlen (m_nameservers m)) (sizeof_dns_answer_t A) = (false, d3) /\
    alloc_array A d3 (zlen (m_additional m)) (sizeof_dns_answer_t A) = (false, d4) /\
    ready pkt (with_dest c d4) o (k - arrays_need A m) /\ later c (with_dest c d4).
Proof.
  destruct HA as (Hw & _ & Hs1 & Hs2 & _). unfold arrays_need. intros R Hk V. apart.
  destruct (arrays_need_nonneg m) as (Z1 & Z2 & Z3 & Z4 & _).
  destruct (alloc_array_ok c o k (zlen (m_questions m)) (sizeof_dns_question_t A) R) as (d1 & E1 & R1 & [L1 _ _]); [done..|lia|].
  destruct (alloc_array_ok _ o _ (zlen (m_answers m)) (sizeof_dns_answer_t A) R1) as (d2 & E2 & R2 & [L2 _ _]); [done | exact Hs2 | lia|].
  destruct (alloc_array_ok _ o _ (zlen (m_nameservers m)) (sizeof_dns_answer_t A) R2) as (d3 & E3 & R3 & [L3 _ _]); [done | exact Hs2 | lia|].
  destruct (alloc_array_ok _ o _ (zlen (m_additional m)) (sizeof_dns_answer_t A) R3) as (d4 & E4 & R4 & [L4 _ _]); [done | exact Hs2 | lia|].
  exists d1, d2, d3, d4. do 4 (split; [done|]). split; [by rewrite !Z.sub_add_distr|].
  etrans; [exact L1|]. etrans; [exact L2|]. etrans; [exact L3 | exact L4].
Qed.
(** The header of a message. *)
Lemma message_header w n1 n2 n3 n4 : here pkt 0 w -> zlen w = 4 -> here pkt 4 (word16 n1 ++ word16 n2 ++ word16 n3 ++ word16 n4) -> Forall is16 [n1; n2; n3; n4] ->
  exists v, bytes_at pkt 0 sizeof_idns_header = Got v /\ znth v 3 = znth w 3 /\ decode_header v = decode_header w /\
    znth v 4 * 256 + znth v 5 = n1 /\ znth v 6 * 256 + znth v 7 = n2 /\ znth v 8 * 256 + znth v 9 = n3 /\ znth v 10 * 256 + znth v 11 = n4.
Proof.
  intros Hw Hz Hc V. apart. exists (w ++ word16 n1 ++ word16 n2 ++ word16 n3 ++ word16 n4).
  destruct w as [|w0 [|w1 [|w2 [|w3 [|]]]]]; try (unfold zlen in Hz; cbn [length] in Hz; lia). clear Hz.
  split; [apply bytes_at_here; [|done]; rewrite !here_app; split_and!; there|].
  do 2 (split; [reflexivity|]). split_and!; by apply word16_sum.
Qed.
End Top.

(** The decoder on a whole message. *)
Lemma dns_decode_wire `{F : Floats} A pkt memory w m : abi_ok A -> zlen pkt < 2 ^ 32 -> Forall is_byte pkt ->
  zlen memory < 2 ^ 32 -> zlen memory mod MEM_ALIGN A = 0 -> message_at pkt w m -> message_need A m <= zlen memory ->
  exists resp c, dns_decode A pkt memory = Got (resp, mem c, b_ptr (dest c)) /\
    header resp = with_rcode (decode_header w) (foldl rcode_with (rcode (decode_header w)) (m_additional m)) /\
    response_means c m resp /\ b_ptr (dest c) <= zlen memory /\ zlen (mem c) = zlen memory.
Proof.
  intros HA Hlen Hpkt Hm Hmod (H0 & Hz & Hzb & Hc & V & N1 & N2 & N3 & Hs) Hn. pose proof HA as (Hw & Hq & _ & _ & Ho). unfold message_need in Hn.
  assert (0 <= sizeof_edns0_opt_t A < 2 ^ 10) as Hopt by lia.
  pose proof (all_need_nonneg question_need (m_questions m) question_need_nonneg).
  pose proof (fun rs => all_need_nonneg (answer_need A) rs (answer_need_nonneg A Hw Hopt)) as NN.
  pose proof (NN (m_answers m)). pose proof (NN (m_nameservers m)). pose proof (NN (m_additional m)). clear NN.
  destruct (arrays_need_nonneg A HA m) as (_ & _ & _ & _ & Ha).
  assert (12 <= zlen pkt) as L by (pose proof (byte_len_pos _ _ _ Hc) as L; rewrite !zlen_app, !zlen_word16 in L; lia).
  destruct (message_header pkt w _ _ _ _ H0 Hz Hc V) as (v & Ev & E3 & Eh & Eq & Ea & Ens & Ear).
  unfold dns_decode. rewrite (proj2 (Z.ltb_ge (zlen memory) _)), Hmod by lia. cbn [orb negb Z.eqb]. rewrite (alloc_query A HA) by (done || lia).
  rewrite Ev. cbn [mbind dres_bind]. rewrite E3, Hzb. cbn [negb Z.eqb]. cbv zeta. rewrite Eq, Ea, Ens, Ear, Eh.
  set (c0 := Context_ (Block (zlen pkt - 12) 12) (Block (zlen memory - sizeof_dns_query_t A) (sizeof_dns_query_t A)) memory (rcode (decode_header w)) false).
  assert (ready pkt c0 12 (zlen memory - sizeof_dns_query_t A)) as R0 by (split; cbn [c0 parse dest mem b_ptr b_size]; lia).
  destruct (alloc_arrays_ok A pkt HA c0 12 _ m R0) as (d1 & d2 & d3 & d4 & A1 & A2 & A3 & A4 & R1 & L1); [lia | done|].
  change (dest c0) with (Block (zlen memory - sizeof_dns_query_t A) (sizeof_dns_query_t A)) in A1. rewrite A1, A2, A3, A4.
  cbn [orb]. destruct (decode_sections A pkt HA Hlen Hpkt _ 12 _ m R1) as (qs & ans & ns & ar & c1 & c2 & c3 & c4 & o4 & k4 & E1 & E2 & X2 & E3' & X3 & E4 & R4 & L4 & M1 & M2 & M3 & M4 & Er);
    [done | lia | done..|].
  change (with_dest c0 d4) with (Context_ (Block (zlen pkt - 12) 12) d4 memory (rcode (decode_header w)) false) in E1.
  replace (Z.to_nat (zlen (m_questions m))) with (length (m_questions m)) by (unfold zlen; lia).
  replace (Z.to_nat (zlen (m_answers m))) with (length (m_answers m)) by (unfold zlen; lia).
  replace (Z.to_nat (zlen (m_nameservers m))) with (length (m_nameservers m)) by (unfold zlen; lia).
  replace (Z.to_nat (zlen (m_additional m))) with (length (m_additional m)) by (unfold zlen; lia).
  unfold sizeof_idns_header. rewrite E1. cbn [mbind dres_bind]. rewrite E2. cbn [mbind dres_bind]. rewrite X2, E3'. cbn [mbind dres_bind]. rewrite X3, E4. cbn [mbind dres_bind].
  eexists _, c4. split; [done|]. cbn [header]. split; [by rewrite Er|]. split; [by split_and!|].
  pose proof R4 as [_ _ _ _ Hr4 Hm4 _]. destruct L1 as [_ L1], L4 as [_ L4]. rewrite L1 in L4. change (mem c0) with memory in L4. split; [lia | done].
Qed.

(** C14: dns_decode on a packet that is a message: with room for it in the block, the
    response has the header of the packet, and its four sections stand for those of the
    message, in order.  Names are followed through compression pointers, and every string
    is in the block, terminated and below the size that is returned. *)
Theorem dns_decode_message `{F : Floats} A pkt memory w m : abi_ok A -> zlen pkt < 2 ^ 32 -> Forall is_byte pkt ->
  zlen memory < 2 ^ 32 -> zlen memory mod MEM_ALIGN A = 0 -> message_at pkt w m -> message_need A m <= zlen memory ->
  exists resp c, dns_decode A pkt memory = Got (resp, mem c, b_ptr (dest c)) /\
    header resp = with_rcode (decode_header w) (foldl rcode_with (rcode (decode_header w)) (m_additional m)) /\
    response_means c m resp /\ b_ptr (dest c) <= zlen memory /\ zlen (mem c) = zlen memory.
Proof. apply dns_decode_wire. Qed.

(** ** An example *)

(** The answer to a question for www.example.com: an alias, its address, a mail exchanger
    and an OPT record, with names that share their ends. *)
Definition example_packet : list Z :=
  [0x12; 0x34; 0x81; 0x80; 0; 1; 0; 3; 0; 0; 0; 1] ++
  counted (str "www") ++ counted (str "example") ++ counted (str "com") ++ [0] ++ [0; 1; 0; 1] ++
  [0xC0; 12; 0; 5; 0; 1; 0; 0; 1; 44; 0; 4; 1; 97; 0xC0; 16] ++
  [0xC0; 45; 0; 1; 0; 1; 0; 0; 1; 44; 0; 4; 10; 0; 0; 1] ++
  [0xC0; 16; 0; 15; 0; 1; 0; 0; 1; 44; 0; 4; 0; 10; 0xC0; 12] ++
  [0; 0; 41; 16; 0; 0; 0; 0x80; 0; 0; 0].
Definition example_message : message :=
  mkMessage [mkQ (str "www.example.com.") RR_A CLASS_IN]
    [mkRR (str "www.example.com.") RR_CNAME CLASS_IN 300 (R_domain (str "a.example.com."));
     mkRR (str "a.example.com.") RR_A CLASS_IN 300 (R_a [10; 0; 0; 1]);
     mkRR (str "example.com.") RR_MX CLASS_IN 300 (R_mx 10 (str "www.example.com."))]
    [] [mkRR [46] RR_OPT CLASS_UNKNOWN 0 (R_opt 4096 0 true [])].
Ltac computed := apply (bool_decide_unpack _); vm_compute; exact I.
Lemma example_com : name_at example_packet 0 16 [str "example"; str "com"] 29.
Proof. apply (Name_label _ 0 16 (str "example")); [computed|computed|]. apply (Name_label _ 0 24 (str "com")); [computed|computed|]. apply (Name_end _ 28); computed. Qed.
Lemma www_example_com : name_at example_packet 0 12 [str "www"; str "example"; str "com"] 29.
Proof. apply (Name_label _ 0 12 (str "www")); [done|done|apply example_com]. Qed.
Lemma a_example_com : name_at example_packet 1 45 [str "a"; str "example"; str "com"] 49.
Proof. apply (Name_label _ 1 45 (str "a")); [computed|computed|]. eapply (Name_pointer _ 0 47 16); [computed..|apply example_com]. Qed.
Ltac points j o t H := eexists j, _; split; [eapply (Name_pointer _ _ o t); [computed..|exact H]|split; [computed|done]].
Lemma example_message_at : message_at example_packet [0x12; 0x34; 0x81; 0x80] example_message.
Proof.
  do 5 (split; [computed|]). do 3 (split; [computed|]).
  exists 33, 81, 81, 92. split_and!; [|exists 49; split; [|exists 65; split; [|exists 81; split; [|done]]]|done|exists 92; split; [|done]].
  - exists 33. split; [|done]. exists 29. split; [exists 0%nat; eexists; split; [apply www_example_com|split; [computed|done]]|computed].
  - exists 35, 4. split; [points 1%nat 33 12 www_example_com|]. do 5 (split; [computed|]); split; [by cbn; repeat split|]. split; [|done].
    apply At_domain; [computed|]. eexists 1%nat, _. split; [apply a_example_com|split; [computed|done]].
  - exists 51, 4. split; [points 2%nat 49 45 a_example_com|]. do 5 (split; [computed|]); split; [by cbn; repeat split|]. split; [|done]. by apply At_a.
  - exists 67, 4. split; [points 1%nat 65 16 example_com|]. do 5 (split; [computed|]); split; [by cbn; repeat split|]. split; [|done].
    apply At_mx; [computed|done..|]. points 1%nat 79 12 www_example_com.
  - exists 82, 0. split; [exists 0%nat, []; split; [apply (Name_end _ 81); computed|split; [computed|done]]|]. do 5 (split; [computed|]); split; [by cbn; repeat split|]. split; [|done]. by apply At_opt.
Qed.
Lemma dns_decode_message_witness : let F := Z_floats in
  exists resp c, dns_decode amd64 example_packet (zrep 2048 0) = Got (resp, mem c, b_ptr (dest c)) /\ response_means c example_message resp.
Proof.
  cbv zeta. destruct (dns_decode_message (F := Z_floats) amd64 example_packet (zrep 2048 0) [0x12; 0x34; 0x81; 0x80] example_message) as (resp & c & E & _ & M & _).
  - computed.
  - done.
  - computed.
  - done.
  - done.
  - apply example_message_at.
  - vm_compute. discriminate.
  - exists resp, c. exact (conj E M).
Defined.
