(* ===== verification/DnsQuery.v ===== *)
(** * Queries there and back

    What [dns_encode] writes is a message, and [dns_decode] reads the query from it: the
    names, the header with its extended response code, and the options of EDNS. *)

From S2P Require Import Prelude CLib DnsTypes DnsCodec DnsTotal DnsEncode DnsFormat DnsDecode DnsRecords DnsMessage.

(** ** The header *)

Definition bits := [true; false].
Definition byte2 (op : Z) (q a t r : bool) : Z :=
  Z.lor (Z.lor (Z.lor (Z.lor (Z.shiftl (Z.land op 0x0F) 3) (flag (negb q) 0x80)) (flag a 0x04)) (flag t 0x02)) (flag r 0x01).
Definition byte3 (rc : Z) (r a c : bool) : Z := Z.lor (Z.lor (Z.lor (Z.land rc 0x0F) (flag r 0x80)) (flag a 0x20)) (flag c 0x10).
Lemma nibble_cases (P : Z -> Prop) : Forall P (seqZ 0 16) -> forall z, 0 <= z < 16 -> P z.
Proof. rewrite Forall_forall. intros H z Hz. apply H, elem_of_seqZ. lia. Qed.
Lemma byte2_ok op q a t r : 0 <= op < 16 -> let b := byte2 op q a t r in
  (0 <= b < 256) /\ negb (Z.land b 0x80 =? 0x80) = q /\ Z.land (Z.shiftr b 3) 0x0F = op /\
  (Z.land b 0x04 =? 0x04) = a /\ (Z.land b 0x02 =? 0x02) = t /\ (Z.land b 0x01 =? 0x01) = r.
Proof.
  revert op. apply (nibble_cases (fun op => let b := byte2 op q a t r in _)).
  destruct q, a, t, r; cbv zeta; apply (bool_decide_unpack _); vm_compute; exact I.
Qed.
Lemma byte3_ok rc r a c : 0 <= rc < 16 -> let b := byte3 rc r a c in
  (0 <= b < 256) /\ Z.land b 0x40 = 0 /\ (Z.land b 0x80 =? 0x80) = r /\ (Z.land b 0x20 =? 0x20) = a /\ (Z.land b 0x10 =? 0x10) = c /\ Z.land b 0x0F = rc.
Proof.
  revert rc. apply (nibble_cases (fun rc => let b := byte3 rc r a c in _)).
  destruct r, a, c; cbv zeta; apply (bool_decide_unpack _); vm_compute; exact I.
Qed.
Lemma zland_low rc : Z.land rc 0x0F = rc mod 16.
Proof. change 0x0F with (Z.ones 4). by rewrite Z.land_ones. Qed.

(** A header the encoder writes and the decoder reads. *)
Definition header_ok (h : dns_header) : Prop := is16 (id h) /\ 0 <= opcode h < 16 /\ 0 <= rcode h < 2 ^ 12.
Definition hdr_bytes (h : dns_header) : list Z :=
  word16 (id h) ++ [byte2 (opcode h) (query h) (aa h) (tc h) (rd h); byte3 (rcode h) (ra h) (ad h) (cd h)].
Lemma encode_header_bytes h qd ar : encode_header h qd ar = hdr_bytes h ++ word16 qd ++ word16 0 ++ word16 0 ++ word16 ar.
Proof. unfold encode_header, hdr_bytes. by rewrite <- app_assoc. Qed.
Lemma byte3_low rc r a c : byte3 rc r a c = byte3 (rc mod 16) r a c.
Proof. unfold byte3. by rewrite !zland_low, Zmod_mod. Qed.
Lemma decode_header_bytes h : header_ok h ->
  decode_header (hdr_bytes h) = with_rcode h (rcode h mod 16) /\ Z.land (znth (hdr_bytes h) 3) 0x40 = 0 /\ zlen (hdr_bytes h) = 4.
Proof.
  intros (Hi & Ho & Hr). destruct (byte2_ok (opcode h) (query h) (aa h) (tc h) (rd h) Ho) as (_ & Q & O & A' & T & D).
  pose proof (byte3_ok (rcode h mod 16) (ra h) (ad h) (cd h) ltac:(apply Z.mod_pos_bound; lia)) as (_ & Z' & Ra & Ad & Cd & Rc).
  split; [|split; [|done]].
  - unfold decode_header, hdr_bytes. rewrite byte3_low.
    change (znth (word16 (id h) ++ [?b2; ?b3]) 0) with (znth (word16 (id h)) 0). change (znth (word16 (id h) ++ [?b2; ?b3]) 1) with (znth (word16 (id h)) 1).
    change (znth (word16 (id h) ++ [?b2; ?b3]) 2) with b2. change (znth (word16 (id h) ++ [?b2; ?b3]) 3) with b3.
    rewrite word16_sum by done. rewrite Q, O, A', T, D, Ra, Ad, Cd, Rc. done.
  - unfold hdr_bytes. rewrite byte3_low. exact Z'.
Qed.

(** ** The sections *)

Section Wire.
Context (pkt : list Z).

Lemma here_cut o w1 w2 o' : o' = o + zlen w1 -> here pkt o (w1 ++ w2) -> here pkt o w1 /\ here pkt o' w2.
Proof. intros -> H. by apply here_app. Qed.
Lemma name_at_wire ls : forall o, Forall (fun l => 0 < zlen l <= 63) ls -> here pkt o (wire_labels ls ++ [0]) -> name_at pkt 0 o ls (o + zlen (wire_labels ls) + 1).
Proof.
  induction ls as [|l ls IH]; intros o Hls H.
  - change (zlen (wire_labels [])) with 0. rewrite Z.add_0_r. by apply Name_end.
  - apply Forall_cons in Hls as [Hl Hls]. rewrite wire_labels_cons, <- app_assoc in *. apply here_app in H as [H1 H2]. change (zlen l :: l) with (counted l) in *.
    rewrite zlen_app, zlen_counted in *. apply Name_label; [done..|].
    replace (o + (zlen l + 1 + zlen (wire_labels ls)) + 1) with (o + 1 + zlen l + zlen (wire_labels ls) + 1) by lia.
    apply IH; [done|]. by replace (o + 1 + zlen l) with (o + (zlen l + 1)) by lia.
Qed.
Definition labels_ok (ls : list (list Z)) : Prop := ls <> [] /\ Forall (fun l => dotless l /\ 0 < zlen l <= 63) ls.
Lemma question_at_wire o ls q : labels_ok ls -> qs_name q = name_text ls -> is16 (qs_type q) -> is16 (qs_class q) -> qs_type q <> RR_OPT ->
  here pkt o (wire_question ls q) -> question_at pkt o q (o + zlen (wire_question ls q)).
Proof.
  intros [Hne Hls] Hn V1 V2 Ho H. unfold wire_question in *. rewrite (app_assoc (wire_labels ls)) in H. apply here_app in H as [H1 H2].
  exists (o + zlen (wire_labels ls) + 1). split.
  - exists 0%nat, ls. split; [apply name_at_wire; [|done]; eapply Forall_impl; [exact Hls|]; by intros l [_ ?]|]. split; [lia|].
    rewrite Hn. by destruct ls.
  - split; [by replace (o + zlen (wire_labels ls) + 1) with (o + zlen (wire_labels ls ++ [0])) by zlen|]. do 3 (split; [done|]).
    rewrite !zlen_app, !zlen_word16. change (zlen [0]) with 1. lia.
Qed.
Lemma options_at_wire opts : forall o, here pkt o (flat_map wire_opt opts) ->
  Forall (fun opt => is16 (fst opt) /\ is16 (zlen (opt_data opt)) /\ Forall is_byte (snd opt)) opts -> options_at pkt o opts (o + zlen (flat_map wire_opt opts)).
Proof.
  induction opts as [|opt r IH]; intros o H Hf.
  - change (zlen (flat_map wire_opt [])) with 0. apply Z.add_0_r.
  - apply Forall_cons in Hf as [Ho Hr]. cbn [flat_map options_at] in *. apply here_app in H as [H1 H2]. split; [done|].
    rewrite zlen_app, Z.add_assoc. by apply IH.
Qed.
(** The record of an [opt_rr], as the decoder finds it. *)
Definition opt_answer (rc : Z) (opt : opt_rr) : answer :=
  mkRR [46] RR_OPT CLASS_UNKNOWN 0 (R_opt (udp_payload opt) (u8 (Z.shiftr rc 4)) (opt_fdo opt) (opt_opts opt)).
Definition opt_ok (opt : opt_rr) : Prop :=
  is16 (udp_payload opt) /\ opt_version opt = 0 /\ is16 (zlen (flat_map wire_opt (opt_opts opt))) /\
  Forall (fun o => is16 (fst o) /\ is16 (zlen (opt_data o)) /\ Forall is_byte (snd o)) (opt_opts opt).
Lemma answer_at_wire o rc opt : opt_ok opt -> here pkt o (wire_opt_rr rc opt) -> answer_at pkt o (opt_answer rc opt) (o + zlen (wire_opt_rr rc opt)).
Proof.
  intros (V1 & Hv & V2 & V3) H. unfold wire_opt_rr in *. rewrite Hv in *. set (data := flat_map wire_opt (opt_opts opt)) in *.
  pose proof (byte_len_pos _ _ _ H) as L. set (fl := [u8 _; u8 0; _; 0]) in *. assert (zlen fl = 4) as Lf by done. rewrite !zlen_app, !zlen_word16, Lf in L |- *. change (zlen [0]) with 1 in L |- *.
  assert (here pkt o [0] /\ here pkt (o + 1) (word16 RR_OPT ++ word16 (udp_payload opt) ++ fl ++ word16 (zlen data)) /\ here pkt (o + 1 + 10) data) as (H1 & H2 & H3).
  { apply here_app in H as [Ha H]. split; [done|]. change (zlen [0]) with 1 in H. apply here_app. by rewrite <- !app_assoc. }
  exists (o + 1), (zlen data). split; [exists 0%nat, []; split; [by apply Name_end | split; [lia | done]]|].
  split; [unfold middle; cbn [opt_answer r_data r_type]; exact H2|]. cbn [opt_answer r_data r_type r_class r_ttl].
  do 4 (split; [done|]). split; [split; [done|split; [apply Z.mod_pos_bound; lia|done]]|]. split; [|lia].
  apply At_opt; [done|]. by apply options_at_wire.
Qed.
End Wire.

(** ** The query *)

(** A query that can be read again: no question is for the root, which the encoder
    writes as two zero bytes. *)
Record query_ok (q : dns_query) (names : list (list (list Z))) : Prop := {
  ok_header : header_ok (q_header q);
  ok_names : Forall2 (fun ls x => qs_name x = name_text ls /\ labels_ok ls /\ Forall is_byte (qs_name x)) names (q_questions q);
  ok_types : Forall (fun x => is16 (qs_type x) /\ is16 (qs_class x) /\ qs_type x <> RR_OPT) (q_questions q);
  ok_count : is16 (zlen (q_questions q));
  ok_opt : Forall opt_ok (q_additional q);
  ok_one : (length (q_additional q) <= 1)%nat;
  ok_rcode : q_additional q = [] -> rcode (q_header q) < 16;
}.
Definition query_message (q : dns_query) : message :=
  mkMessage (q_questions q) [] [] (map (opt_answer (rcode (q_header q))) (q_additional q)).

Lemma query_asks q names : query_ok q names -> asks names (q_questions q).
Proof.
  intros [_ H _ _ _ _ _]. eapply Forall2_impl; [exact H|]. intros ls x (? & (? & Hl) & _). do 2 (split; [done|]).
  exact Hl.
Qed.
Section Query.
Context (pkt : list Z).

Lemma questions_at_wire names qs : forall o,
  Forall2 (fun ls x => qs_name x = name_text ls /\ labels_ok ls /\ Forall is_byte (qs_name x)) names qs ->
  Forall (fun x => is16 (qs_type x) /\ is16 (qs_class x) /\ qs_type x <> RR_OPT) qs -> here pkt o (concat (zip_with wire_question names qs)) ->
  many_at (question_at pkt) o qs (o + zlen (concat (zip_with wire_question names qs))).
Proof.
  intros o H. revert o. induction H as [|ls x names qs (Hn & Hl & _) _ IH]; intros o Hf Hh; cbn [zip_with concat many_at] in *.
  - apply Z.add_0_r.
  - apply Forall_cons in Hf as [(V1 & V2 & V3) Hf]. apply here_app in Hh as [H1 H2]. eexists. split; [by apply question_at_wire|].
    rewrite zlen_app, Z.add_assoc. by apply IH.
Qed.
Lemma opts_at_wire rc opts : forall o, Forall opt_ok opts -> here pkt o (flat_map (wire_opt_rr rc) opts) ->
  many_at (answer_at pkt) o (map (opt_answer rc) opts) (o + zlen (flat_map (wire_opt_rr rc) opts)).
Proof.
  induction opts as [|opt r IH]; intros o Hf Hh; cbn [map many_at flat_map] in *.
  - apply Z.add_0_r.
  - apply Forall_cons in Hf as [Ho Hf]. apply here_app in Hh as [H1 H2]. eexists. split; [by apply answer_at_wire|].
    rewrite zlen_app, Z.add_assoc. by apply IH.
Qed.
End Query.

Lemma query_message_at q names : query_ok q names -> message_at (wire_query q names) (hdr_bytes (q_header q)) (query_message q).
Proof.
  intros [Hh Hn Ht Hc Ho H1 _]. destruct (decode_header_bytes _ Hh) as (_ & Hz & Hl). unfold wire_query. rewrite encode_header_bytes.
  set (qs := concat _). set (os := flat_map _ _). set (cs := word16 _ ++ word16 0 ++ word16 0 ++ word16 _). set (hb := hdr_bytes _) in *.
  assert (zlen cs = 8) as Hcs by done.
  assert (here ((hb ++ cs) ++ qs ++ os) 0 hb /\ here ((hb ++ cs) ++ qs ++ os) 4 cs /\ here ((hb ++ cs) ++ qs ++ os) 12 qs /\
    here ((hb ++ cs) ++ qs ++ os) (12 + zlen qs) os) as (W1 & W2 & W3 & W4).
  { rewrite !here_split. split_and!; [exists [], (cs ++ qs ++ os) | exists hb, (qs ++ os) | exists (hb ++ cs), os | exists (hb ++ cs ++ qs), []];
      (split; [by rewrite ?app_nil_r, <- ?app_assoc | rewrite ?zlen_app, ?Hl, ?Hcs; reflexivity || lia]). }
  unfold query_message, message_at. cbn [m_questions m_answers m_nameservers m_additional].
  replace (zlen (map (opt_answer (rcode (q_header q))) (q_additional q))) with (zlen (q_additional q)) by (unfold zlen; by rewrite length_map).
  split; [done|]. split; [done|]. split; [done|]. split; [exact W2|]. split.
  { change (zlen (@nil answer)) with 0. rewrite !Forall_cons. unfold is16 in *. unfold zlen in *. split_and!; (lia || done). }
  do 2 (split; [constructor|]). split.
  { etrans; [apply List.filter_length_le|]. by rewrite length_map. }
  eexists _, _, _, _. split; [apply questions_at_wire; done|]. do 2 (split; [done|]). by apply opts_at_wire.
Qed.

(** ** Bytes *)

Lemma word16_is_byte v : Forall is_byte (word16 v).
Proof.
  unfold word16. change 0xFF with (Z.ones 8). rewrite !Z.land_ones by lia. repeat constructor; apply Z.mod_pos_bound; lia.
Qed.
Lemma header_is_byte h : header_ok h -> Forall is_byte (hdr_bytes h).
Proof.
  intros (_ & Ho & _). unfold hdr_bytes. apply Forall_app. split; [apply word16_is_byte|]. rewrite byte3_low.
  repeat constructor; [by apply byte2_ok.. | |]; apply byte3_ok; apply Z.mod_pos_bound; lia.
Qed.
Lemma name_is_byte ls : Forall (fun l => dotless l /\ 0 < zlen l <= 63) ls -> Forall is_byte (name_text ls) -> Forall is_byte (wire_labels ls).
Proof.
  induction 1 as [|l ls [_ Hl] _ IH]; [done|]. rewrite name_text_cons, wire_labels_cons, !Forall_app, !Forall_cons. intros (? & _ & ?).
  split; [split; [unfold is_byte; lia | done] | by apply IH].
Qed.
Lemma nsid_is_byte d : Forall is_byte d -> Forall is_byte (nsid_text d).
Proof.
  unfold is_byte. induction 1 as [|b d Hb _ IH]; [done|]. cbn [nsid_text flat_map app]. unfold hex_upper.
  assert (0 <= b / 16 < 16) by dlia. assert (0 <= b mod 16 < 16) by dlia.
  constructor; [destruct (_ <? _); lia|]. constructor; [destruct (_ <? _); lia | done].
Qed.
Lemma opts_is_byte opts : Forall (fun o => is16 (fst o) /\ is16 (zlen (opt_data o)) /\ Forall is_byte (snd o)) opts -> Forall is_byte (flat_map wire_opt opts).
Proof.
  induction 1 as [|o opts (_ & _ & Hb) _ IH]; [done|]. cbn [flat_map]. unfold wire_opt, opt_data in *. rewrite !Forall_app.
  split_and!; [apply word16_is_byte.. | destruct (_ =? _); [by apply nsid_is_byte | done] | done].
Qed.
Lemma query_is_byte q names : query_ok q names -> Forall is_byte (wire_query q names).
Proof.
  intros [Hh Hn _ _ Ho _ _]. unfold wire_query. rewrite encode_header_bytes, !Forall_app. split_and!; try apply word16_is_byte; [by apply header_is_byte| |].
  - induction Hn as [|ls x names qs (Hn & [_ Hl] & Hb) _ IH]; cbn [zip_with concat]; [done|]. apply Forall_app. split; [|exact IH].
    unfold wire_question. rewrite !Forall_app. split_and!; try apply word16_is_byte; [apply name_is_byte; [done | by rewrite <- Hn] | by repeat constructor].
  - induction Ho as [|opt os (_ & Hv & _ & Hb) _ IH]; cbn [flat_map]; [done|]. apply Forall_app. split; [|exact IH].
    unfold wire_opt_rr. rewrite !Forall_app. split_and!; try apply word16_is_byte; [by repeat constructor| |by apply opts_is_byte].
    rewrite Hv. repeat constructor; try (apply Z.mod_pos_bound; lia); by destruct (opt_fdo opt).
Qed.

Lemma Got_pair_inj {X Y} (a c : X) (b d : Y) : Got (a, b) = Got (c, d) -> a = c /\ b = d.
Proof. by intros [= -> ->]. Qed.
(** The response code, in two places. *)
Lemma rcode_again q names : query_ok q names ->
  foldl rcode_with (rcode (q_header q) mod 16) (map (opt_answer (rcode (q_header q))) (q_additional q)) = rcode (q_header q).
Proof.
  intros [(_ & _ & Hr) _ _ _ _ H1 H0]. destruct (q_additional q) as [|opt [|]]; [| |cbn [length] in H1; lia]; cbn [map foldl].
  - specialize (H0 eq_refl). apply Z.mod_small. lia.
  - unfold rcode_with. cbn [opt_answer r_data]. rewrite Z.shiftr_div_pow2 by lia. unfold u8. rewrite (Z.mod_small (_ / _)) by dlia.
    rewrite Z.shiftl_mul_pow2, lor_add_shift by (lia || (apply Z.mod_pos_bound; lia)). dlia.
Qed.

Lemma example_query_ok : query_ok example_query example_names.
Proof.
  split; [computed | | computed | computed | | computed | done].
  - constructor; [|constructor]. unfold labels_ok, dotless. computed.
  - constructor; [|constructor]. unfold opt_ok. computed.
Qed.
