(* ===== verification/DnsUnsafe.v ===== *)
(** * Where the DNS decoder leaves its buffers

    The decoder tests lengths before it uses them, but not in three places: it looks at the
    first byte of a name before it knows that there is one, it stores a dot behind a label
    it has room for only just, and its alignment moves a pointer the wrong way. *)

From S2P Require Import Prelude CLib DnsTypes DnsCodec DnsTotal DnsFormat DnsDecode DnsRecords DnsMessage.

(** ** Reading behind the packet *)

(** C40: A packet that ends with its header but announces questions: dns_decode reads behind
    it, whatever the header says otherwise. *)
Theorem dns_decode_header_only `{F : Floats} A pkt memory w m : abi_ok A -> zlen pkt = sizeof_idns_header ->
  zlen memory < 2 ^ 32 -> zlen memory mod MEM_ALIGN A = 0 -> here pkt 0 w -> zlen w = 4 -> Z.land (znth w 3) 0x40 = 0 ->
  here pkt 4 (word16 (zlen (m_questions m)) ++ word16 (zlen (m_answers m)) ++ word16 (zlen (m_nameservers m)) ++ word16 (zlen (m_additional m))) ->
  Forall is16 [zlen (m_questions m); zlen (m_answers m); zlen (m_nameservers m); zlen (m_additional m)] ->
  0 < zlen (m_questions m) -> sizeof_dns_query_t A + arrays_need A m <= zlen memory ->
  dns_decode A pkt memory = Bad.
Proof.
  intros HA Hp Hm Hmod H0 Hz Hzb Hc V Hq0 Hn. pose proof HA as (Hw & Hq & _). unfold sizeof_idns_header in Hp.
  destruct (arrays_need_nonneg A HA m) as (_ & _ & _ & _ & Ha).
  destruct (message_header pkt w _ _ _ _ H0 Hz Hc V) as (v & Ev & E3 & Eh & Eq & Ea & Ens & Ear).
  unfold dns_decode. rewrite (proj2 (Z.ltb_ge (zlen memory) _)), Hmod by lia. cbn [orb negb Z.eqb]. rewrite (alloc_query A HA) by (done || lia).
  rewrite Ev. cbn [mbind dres_bind]. rewrite E3, Hzb. cbn [negb Z.eqb]. cbv zeta. rewrite Eq, Ea, Ens, Ear, Eh.
  set (c0 := Context_ (Block (zlen pkt - 12) 12) (Block (zlen memory - sizeof_dns_query_t A) (sizeof_dns_query_t A)) memory (rcode (decode_header w)) false).
  assert (ready pkt c0 12 (zlen memory - sizeof_dns_query_t A)) as R0 by (split; cbn [c0 parse dest mem b_ptr b_size]; lia).
  destruct (alloc_arrays_ok A pkt HA c0 12 _ m R0) as (d1 & d2 & d3 & d4 & A1 & A2 & A3 & A4 & _); [lia | done|].
  change (dest c0) with (Block (zlen memory - sizeof_dns_query_t A) (sizeof_dns_query_t A)) in A1. rewrite A1, A2, A3, A4. cbn [orb].
  destruct (Z.to_nat (zlen (m_questions m))) as [|n] eqn:En; [lia|]. cbn [decode_many]. unfold decode_question, read_domain, domain_fuel.
  replace (256 * S (length pkt))%nat with (S (255 + 256 * length pkt)) by lia. cbn [read_labels parse b_ptr].
  change (byte_at pkt sizeof_idns_header) with (byte_at pkt 12). assert (byte_at pkt 12 = Bad) as -> by (unfold byte_at; by rewrite Hp). done.
Qed.

Definition one_question : message := mkMessage [mkQ [] 1 1] [] [] [].
Lemma dns_decode_header_only_witness : let F := Z_floats in
  dns_decode mips32 [0; 1; 0x80; 0; 0; 1; 0; 0; 0; 0; 0; 0] (zrep 256 0) = Bad.
Proof.
  cbv zeta. apply (dns_decode_header_only (F := Z_floats) mips32 _ (zrep 256 0) [0; 1; 0x80; 0] one_question); computed.
Defined.

(** ** Writing behind the block *)

(** A label that just fits into what is left of the block is copied, and its dot is
    stored behind the block: read_domain should have reported that memory is short. *)
Theorem read_domain_overruns A pkt c o l : word_ok A -> ready pkt c o (zlen l) -> 0 < zlen l <= 63 -> here pkt o (counted l) ->
  b_size (dest c) = zlen l -> read_domain A pkt c = Bad.
Proof.
  intros Hw [Ha Hi Hp Hd Hr Hm Hs] Hl H Hb. pose proof (byte_len_pos _ _ _ H) as L. rewrite zlen_counted in L.
  unfold read_domain, domain_fuel. replace (256 * S (length pkt))%nat with (S (255 + 256 * length pkt)) by lia. cbn [read_labels].
  rewrite Ha, (byte_at_here _ _ _ _ H). cbn [mbind dres_bind].
  rewrite (proj2 (Z.ltb_lt (zlen l) 64)), (proj2 (Z.ltb_ge (b_size (parse c)) _)), (proj2 (Z.ltb_ge (b_size (dest c)) _)) by lia.
  apply (here_app pkt o [zlen l] l) in H as [_ H]. rewrite (bytes_at_here _ _ l) by done. cbn [mbind dres_bind]. unfold store.
  rewrite (proj2 (Z.leb_gt (b_ptr (dest c) + _) (zlen (mem c)))) by zlen. by rewrite andb_false_r.
Qed.

(** ** Alignment *)

(** align_memory counts from the wrong side: with the end of the block aligned, the
    pointer it leaves is a multiple of the alignment only where twice the size was one, and
    that is not what it is for. *)
Theorem align_memory_misplaces A pool pool' : word_ok A -> MEM_ALIGN A <= b_size pool < 2 ^ 32 -> (b_ptr pool + b_size pool) mod MEM_ALIGN A = 0 ->
  align_memory A pool = (true, pool') ->
  b_ptr pool' + b_size pool' = b_ptr pool + b_size pool /\ (b_ptr pool' mod MEM_ALIGN A = 0 <-> 2 * b_size pool mod MEM_ALIGN A = 0).
Proof.
  intros Hw Hs He. unfold align_memory. rewrite align_mask by done. rewrite (proj2 (Z.ltb_ge _ _)) by lia. cbv zeta.
  destruct (Z.eqb_spec (b_size pool - b_size pool mod MEM_ALIGN A) (b_size pool)).
  - intros [= <-]. split; [done|]. destruct Hw as [Hw|Hw]; rewrite Hw in *; split; intros; dlia.
  - intros [= <-]. cbn [b_size b_ptr]. assert (0 < MEM_ALIGN A <= 8) by (destruct Hw as [-> | ->]; lia).
    pose proof (Z.mod_pos_bound (b_size pool) (MEM_ALIGN A)). rewrite (usize_small A (_ + _ - _)) by (done || lia). rewrite usize_small by (done || lia).
    split; [lia|]. destruct Hw as [Hw|Hw]; rewrite Hw in *; split; intros; dlia.
Qed.
Lemma align_memory_misplaces_witness :
  align_memory mips32 (Block 99 1) = (true, Block 98 2) /\ (b_ptr (Block 98 2) mod MEM_ALIGN mips32 = 0 <-> 2 * b_size (Block 99 1) mod MEM_ALIGN mips32 = 0).
Proof.
  assert (align_memory mips32 (Block 99 1) = (true, Block 98 2)) as E by done. split; [exact E|].
  refine (proj2 (align_memory_misplaces mips32 (Block 99 1) (Block 98 2) _ _ _ E)); [by left | computed | done].
Defined.
