(* ===== verification/Interact.v ===== *)
(** * Programs that talk to the system

    A program that makes system calls is an interaction tree over them.  [runs] gives the
    finite behaviours of a tree, call by call; a protocol - which calls may be made, and
    where they lead - is a step relation [next] on abstract states, and [safe] says that a
    tree follows it, for ever if need be.  [ends] bounds the number of steps.

    [prog] adds the program's variables, the status it exits with, and undefined
    behaviour; it has one rule for each way programs are put together. *)

From ITree Require Import Core.ITreeDefinition.
From S2P Require Import Prelude.

(** ** Behaviours *)

(** A call with its answer. *)
Record event (E : Type -> Type) : Type := Ev { ev_type : Type; ev_call : E ev_type; ev_answer : ev_type }.
Arguments Ev {E ev_type} _ _.

Inductive runs {E R} : itree E R -> list (event E) -> itree E R -> Prop :=
| runs_here t : runs t [] t
| runs_tau t t' tr u : observe t = TauF t' -> runs t' tr u -> runs t tr u
| runs_call X (e : E X) k x t tr u : observe t = VisF e k -> runs (k x) tr u -> runs t (Ev e x :: tr) u.

(** The behaviour when [answer] answers, as long as it does. *)
Fixpoint play {E R W} (answer : forall X, E X -> W -> option (X * W)) (fuel : nat) (t : itree E R) (w : W) : list (event E) * itree E R :=
  match fuel with
  | O => ([], t)
  | S fuel' =>
      match observe t with
      | RetF _ => ([], t)
      | TauF t' => play answer fuel' t' w
      | VisF e k =>
          match answer _ e w with
          | Some (x, w') => let '(tr, u) := play answer fuel' (k x) w' in (Ev e x :: tr, u)
          | None => ([], t)
          end
      end
  end.
(** What a tree has returned. *)
Definition returned {E R} (t : itree E R) : option R := match observe t with RetF r => Some r | _ => None end.

Lemma play_runs {E R W} (answer : forall X, E X -> W -> option (X * W)) fuel : forall (t : itree E R) w,
  runs t (fst (play answer fuel t w)) (snd (play answer fuel t w)).
Proof.
  induction fuel as [|fuel IH]; intros t w; cbn [play]; [constructor|]. destruct (observe t) as [r|t'|X e k] eqn:E1; [constructor | |].
  - eapply runs_tau; [done | apply IH].
  - destruct (answer X e w) as [[x w']|]; [|constructor]. specialize (IH (k x) w'). destruct (play answer fuel (k x) w'). by eapply runs_call.
Qed.

(** ** Protocols *)

Section Protocol.
Context {E : Type -> Type} {G : Type}.
(** What the system may answer, and the steps of the protocol. *)
Context (legal : forall X, E X -> X -> Prop) (next : G -> event E -> G -> Prop).

Inductive path : G -> list (event E) -> G -> Prop :=
| path_nil g : path g [] g
| path_cons g ev g1 tr g2 : next g ev g1 -> path g1 tr g2 -> path g (ev :: tr) g2.
Definition legal_event (ev : event E) : Prop := legal _ (ev_call _ ev) (ev_answer _ ev).

Lemma path_app g tr1 g1 tr2 g2 : path g tr1 g1 -> path g1 tr2 g2 -> path g (tr1 ++ tr2) g2.
Proof. induction 1; intros; [done|]. econstructor; [done | by auto]. Qed.

(** [n] steps follow the protocol, and a result satisfies [Q]; [fin] is what holds when the
    steps are used up. *)
Fixpoint follows {R} (fin : Prop) (n : nat) (t : itree E R) (g : G) (Q : R -> G -> Prop) : Prop :=
  match n with
  | O => fin
  | S n' =>
      match observe t with
      | RetF r => Q r g
      | TauF t' => follows fin n' t' g Q
      | VisF e k => forall x, legal _ e x -> exists g', next g (Ev e x) g' /\ follows fin n' (k x) g' Q
      end
  end.
Definition safe {R} (t : itree E R) (g : G) (Q : R -> G -> Prop) : Prop := forall n, follows True n t g Q.
Definition ends {R} (n : nat) (t : itree E R) (g : G) (Q : R -> G -> Prop) : Prop := follows False n t g Q.

Lemma follows_mono {R} (fin fin' : Prop) n : forall (t : itree E R) g (Q Q' : R -> G -> Prop), (fin -> fin') -> (forall r g, Q r g -> Q' r g) ->
  follows fin n t g Q -> follows fin' n t g Q'.
Proof.
  induction n as [|n IH]; intros t g Q Q' Hf HQ; cbn [follows]; [done|]. destruct (observe t) as [r|t'|X e k]; [apply HQ | by apply IH|].
  intros H x Hx. destruct (H x Hx) as (g' & Hg & H'). exists g'. split; [done|]. by eapply IH.
Qed.
Lemma follows_more {R} n m : forall (t : itree E R) g (Q : R -> G -> Prop), (n <= m)%nat -> follows False n t g Q -> follows False m t g Q.
Proof.
  revert m. induction n as [|n IH]; intros m t g Q Hm; cbn [follows]; [done|]. destruct m as [|m]; [lia|]. cbn [follows].
  destruct (observe t) as [r|t'|X e k]; [done | apply IH; lia|]. intros H x Hx. destruct (H x Hx) as (g' & Hg & H'). exists g'. split; [done|].
  apply IH; [lia | done].
Qed.

Lemma follows_less {R} n m : forall (t : itree E R) g (Q : R -> G -> Prop), (m <= n)%nat -> follows True n t g Q -> follows True m t g Q.
Proof.
  revert m. induction n as [|n IH]; intros m t g Q Hm; (destruct m as [|m]; [done|]); [lia|]. cbn [follows].
  destruct (observe t) as [r|t'|X e k]; [done | apply IH; lia|]. intros H x Hx. destruct (H x Hx) as (g' & Hg & H'). exists g'. split; [done|].
  apply IH; [lia | done].
Qed.
Lemma observe_bind {R U} (t : itree E R) (k : R -> itree E U) :
  observe (ITree.bind t k) =
  match observe t with RetF r => observe (k r) | TauF t' => TauF (ITree.bind t' k) | VisF e h => VisF e (fun x => ITree.bind (h x) k) end.
Proof.
  transitivity (observe match observe t with
    | RetF r => k r
    | TauF t' => go (TauF (ITree.bind t' k))
    | VisF e h => go (VisF e (fun x => ITree.bind (h x) k))
    end); [reflexivity | by destruct (observe t)].
Qed.
Lemma observe_iter {R I} (body : I -> itree E (I + R)) i :
  observe (ITree.iter body i) =
  observe (ITree.bind (body i) (fun lr => match lr with inl i' => go (TauF (ITree.iter body i')) | inr r => go (RetF r) end)).
Proof. reflexivity. Qed.
Lemma follows_observe {R} fin n (t u : itree E R) g (Q : R -> G -> Prop) : observe t = observe u -> follows fin n t g Q -> follows fin n u g Q.
Proof. destruct n as [|n]; cbn [follows]; [done|]. by intros ->. Qed.

(** Sequences and loops. *)
Lemma follows_bind_safe {R U} n : forall (t : itree E R) (k : R -> itree E U) g (Q : U -> G -> Prop),
  follows True n t g (fun r g => follows True n (k r) g Q) -> follows True n (ITree.bind t k) g Q.
Proof.
  induction n as [|n IH]; intros t k g Q; [done|]. cbn [follows]. rewrite observe_bind. destruct (observe t) as [r|t'|X e h]; [done| |].
  - intros H. apply IH. eapply follows_mono; [done| |exact H]. intros r g1. apply (follows_less (S n)). lia.
  - intros H x Hx. destruct (H x Hx) as (g' & Hg & H'). exists g'. split; [done|]. apply IH.
    eapply follows_mono; [done| |exact H']. intros r g1. apply (follows_less (S n)). lia.
Qed.
Lemma follows_bind_ends {R U} n m : forall (t : itree E R) (k : R -> itree E U) g (Q : U -> G -> Prop),
  follows False n t g (fun r g => follows False m (k r) g Q) -> follows False (n + m) (ITree.bind t k) g Q.
Proof.
  induction n as [|n IH]; intros t k g Q; [done|]. cbn [follows Nat.add]. rewrite observe_bind. destruct (observe t) as [r|t'|X e h].
  - intros H. change (follows False (S (n + m)) (k r) g Q). eapply follows_more; [|exact H]. lia.
  - apply IH.
  - intros H x Hx. destruct (H x Hx) as (g' & Hg & H'). exists g'. split; [done|]. by apply IH.
Qed.
Lemma safe_ret {R} (r : R) g (Q : R -> G -> Prop) : Q r g -> safe (go (RetF r)) g Q.
Proof. intros H [|n]; done. Qed.
Lemma safe_mono {R} (t : itree E R) g (Q Q' : R -> G -> Prop) : safe t g Q -> (forall r g, Q r g -> Q' r g) -> safe t g Q'.
Proof. intros H HQ n. by eapply follows_mono; [| |exact (H n)]. Qed.
Lemma safe_bind {R U} (t : itree E R) (k : R -> itree E U) g (Q : U -> G -> Prop) :
  safe t g (fun r g => safe (k r) g Q) -> safe (ITree.bind t k) g Q.
Proof. intros H n. apply follows_bind_safe. eapply follows_mono; [done| |exact (H n)]. intros r g' H'. apply H'. Qed.
Lemma safe_iter {R I} (body : I -> itree E (I + R)) (Inv : I -> G -> Prop) (Q : R -> G -> Prop) :
  (forall i g, Inv i g -> safe (body i) g (fun lr g => match lr with inl i' => Inv i' g | inr r => Q r g end)) ->
  forall i g, Inv i g -> safe (ITree.iter body i) g Q.
Proof.
  intros Hbody i g HI n. revert i g HI. induction n as [|n IH]; intros i g HI; [done|].
  eapply follows_observe; [symmetry; apply observe_iter|]. apply follows_bind_safe.
  eapply follows_mono; [done| |exact (Hbody i g HI (S n))]. intros [i'|r] g' H; cbn [follows observe]; [by apply IH | done].
Qed.
Lemma ends_ret {R} n (r : R) g (Q : R -> G -> Prop) : Q r g -> ends (S n) (go (RetF r)) g Q.
Proof. done. Qed.
Lemma ends_more {R} n m (t : itree E R) g (Q : R -> G -> Prop) : (n <= m)%nat -> ends n t g Q -> ends m t g Q.
Proof. apply follows_more. Qed.
Lemma ends_mono {R} n (t : itree E R) g (Q Q' : R -> G -> Prop) : ends n t g Q -> (forall r g, Q r g -> Q' r g) -> ends n t g Q'.
Proof. intros H HQ. by eapply follows_mono; [| |exact H]. Qed.
Lemma bind_ends {R U} n m (t : itree E R) (k : R -> itree E U) g (Q : U -> G -> Prop) :
  ends n t g (fun r g => ends m (k r) g Q) -> ends (n + m) (ITree.bind t k) g Q.
Proof. apply follows_bind_ends. Qed.
(** Every turn takes at most [n] steps and makes the measure smaller. *)
Lemma ends_iter {R I} (body : I -> itree E (I + R)) (Inv : I -> G -> Prop) (measure : I -> nat) n (Q : R -> G -> Prop) :
  (forall i g, Inv i g -> ends n (body i) g (fun lr g => match lr with inl i' => Inv i' g /\ (measure i' < measure i)%nat | inr r => Q r g end)) ->
  forall m i g, Inv i g -> (measure i <= m)%nat -> ends (S m * S (S n)) (ITree.iter body i) g Q.
Proof.
  intros Hbody m. induction m as [|m IH]; intros i g HI Hm; (eapply follows_observe; [symmetry; apply observe_iter|]).
  - eapply ends_more; [|apply (bind_ends n 1); eapply ends_mono; [exact (Hbody i g HI)|]]; [lia|].
    intros [i'|r] g' H; [lia | exact H].
  - eapply ends_more; [|apply (bind_ends n (S (S m * S (S n)))); eapply ends_mono; [exact (Hbody i g HI)|]]; [lia|].
    intros [i'|r] g'; [|done]. intros [HI' Hlt]. cbn [ends follows observe]. apply IH; [done | lia].
Qed.

(** What these mean for behaviours, when the steps of the protocol are determined by the
    calls. *)
Hypothesis next_det : forall g ev g1 g2, next g ev g1 -> next g ev g2 -> g1 = g2.

Theorem safe_runs {R} (t : itree E R) tr u : runs t tr u -> forall g (Q : R -> G -> Prop), safe t g Q -> Forall legal_event tr ->
  exists g', path g tr g' /\ safe u g' Q.
Proof.
  induction 1 as [t|t t' tr u Et _ IH|X e k x t tr u Et _ IH]; intros g Q Hs Hl.
  - exists g. split; [constructor | done].
  - apply IH; [|done]. intros n. specialize (Hs (S n)). cbn [follows] in Hs. by rewrite Et in Hs.
  - apply Forall_cons in Hl as [Hx Hl]. pose proof (fun n => Hs (S n)) as H1. cbn [follows] in H1. rewrite Et in H1.
    destruct (H1 O x Hx) as (g1 & Hg & _). destruct (IH g1 Q) as (g' & Hp & Hs'); [|done|].
    + intros n. destruct (H1 n x Hx) as (g2 & Hg2 & H2). by rewrite (next_det _ _ _ _ Hg Hg2).
    + exists g'. split; [by econstructor | done].
Qed.
Lemma safe_returned {R} (t : itree E R) g (Q : R -> G -> Prop) r : safe t g Q -> returned t = Some r -> Q r g.
Proof. intros H. specialize (H 1%nat). cbn [follows] in H. unfold returned. destruct (observe t); [|done..]. by intros [= ->]. Qed.
(** No behaviour has more calls than steps, and when every call has been answered so often
    there is a result. *)
Theorem ends_runs {R} (t : itree E R) tr u : runs t tr u -> forall n g (Q : R -> G -> Prop), ends n t g Q -> Forall legal_event tr ->
  (length tr < n)%nat /\ exists g', path g tr g' /\ ends (n - length tr) u g' Q.
Proof.
  induction 1 as [t|t t' tr u Et _ IH|X e k x t tr u Et _ IH]; intros n g Q Hs Hl; (destruct n as [|n]; [done|]).
  - split; [cbn; lia|]. exists g. split; [constructor | by rewrite Nat.sub_0_r].
  - unfold ends in Hs. cbn [follows] in Hs. rewrite Et in Hs. destruct (IH n g Q Hs Hl) as (Hn & g' & Hp & He). split; [lia|]. exists g'.
    split; [done|]. eapply ends_more; [|exact He]. lia.
  - apply Forall_cons in Hl as [Hx Hl]. unfold ends in Hs. cbn [follows] in Hs. rewrite Et in Hs. destruct (Hs x Hx) as (g1 & Hg & H1).
    destruct (IH n g1 Q H1 Hl) as (Hn & g' & Hp & He). cbn [length]. split; [lia|]. exists g'. split; [by econstructor | done].
Qed.
(** After silent steps a tree that ends has returned or asks something. *)
Lemma ends_asks {R} n : forall (t : itree E R) g (Q : R -> G -> Prop), ends n t g Q ->
  exists u, runs t [] u /\ (is_Some (returned u) \/ exists X (e : E X) k, observe u = VisF e k).
Proof.
  induction n as [|n IH]; intros t g Q; [done|]. unfold ends. cbn [follows]. destruct (observe t) as [r|t'|X e k] eqn:Et.
  - intros _. exists t. split; [constructor|]. left. unfold returned. rewrite Et. by eexists.
  - intros H. destruct (IH t' g Q H) as (u & Hu & Ha). exists u. split; [by eapply runs_tau | done].
  - intros _. exists t. split; [constructor|]. right. by exists X, e, k.
Qed.
End Protocol.

(** ** Programs with variables *)

(** How a piece of program ends: it goes on with a value, the process stops with a status,
    or something undefined happens: a number does not fit into its type, an access is
    outside of its object, a jump goes where nothing runs. *)
Inductive undefined : Type := Overflow | Outside | Nowhere.
Inductive reply (S A : Type) : Type :=
| Goes (s : S) (a : A)
| Stops (code : Z)
| Breaks (why : undefined).
Arguments Goes {S A} s a.
Arguments Stops {S A} code.
Arguments Breaks {S A} why.

Definition prog (E : Type -> Type) (S A : Type) : Type := S -> itree E (reply S A).

#[global] Instance prog_ret E S : MRet (prog E S) := fun A a s => go (RetF (Goes s a)).
#[global] Instance prog_bind E S : MBind (prog E S) := fun A B f m s =>
  ITree.bind (m s) (fun r => match r with Goes s a => f a s | Stops c => go (RetF (Stops c)) | Breaks w => go (RetF (Breaks w)) end).

Section Prog.
Context {E : Type -> Type} {S : Type}.

Definition call {X} (e : E X) : prog E S X := fun s => go (VisF e (fun x => go (RetF (Goes s x)))).
Definition get {A} (f : S -> A) : prog E S A := fun s => go (RetF (Goes s (f s))).
Definition modify (f : S -> S) : prog E S () := fun s => go (RetF (Goes (f s) ())).
Definition stop {A} (code : Z) : prog E S A := fun s => go (RetF (Stops code)).
Definition break {A} (why : undefined) : prog E S A := fun s => go (RetF (Breaks why)).
(** A loop whose turns say whether there is another one. *)
Definition loop {I A} (body : I -> prog E S (I + A)) (i : I) : prog E S A := fun s =>
  ITree.iter (fun si => ITree.bind (body (snd si) (fst si)) (fun r => go (RetF match r with
    | Goes s (inl i) => inl (s, i)
    | Goes s (inr a) => inr (Goes s a)
    | Stops c => inr (Stops c)
    | Breaks w => inr (Breaks w)
    end))) (s, i).
End Prog.

(** ** Their rules *)

Section Rules.
Context {E : Type -> Type} {S G : Type}.
Context (legal : forall X, E X -> X -> Prop) (next : G -> event E -> G -> Prop).
(** What must hold when the process stops, or breaks. *)
Context (stopped : Z -> G -> Prop) (broken : undefined -> G -> Prop).

Definition post {A} (Q : A -> S -> G -> Prop) (r : reply S A) (g : G) : Prop :=
  match r with Goes s a => Q a s g | Stops c => stopped c g | Breaks w => broken w g end.
Definition hoare {A} (m : prog E S A) (s : S) (g : G) (Q : A -> S -> G -> Prop) : Prop := safe legal next (m s) g (post Q).
Definition total {A} (n : nat) (m : prog E S A) (s : S) (g : G) (Q : A -> S -> G -> Prop) : Prop := ends legal next n (m s) g (post Q).

Lemma post_mono {A} (Q Q' : A -> S -> G -> Prop) r g : (forall a s g, Q a s g -> Q' a s g) -> post Q r g -> post Q' r g.
Proof. destruct r; cbn; auto. Qed.
Lemma hoare_mono {A} (m : prog E S A) s g Q Q' : hoare m s g Q -> (forall a s g, Q a s g -> Q' a s g) -> hoare m s g Q'.
Proof. intros H HQ. eapply safe_mono; [exact H|]. intros r g'. by apply post_mono. Qed.
Lemma hoare_ret {A} (a : A) s g (Q : A -> S -> G -> Prop) : Q a s g -> hoare (mret a) s g Q.
Proof. intros H. by apply safe_ret. Qed.
Lemma hoare_get {A} (f : S -> A) s g (Q : A -> S -> G -> Prop) : Q (f s) s g -> hoare (get f) s g Q.
Proof. intros H. by apply safe_ret. Qed.
Lemma hoare_modify f s g (Q : () -> S -> G -> Prop) : Q () (f s) g -> hoare (modify f) s g Q.
Proof. intros H. by apply safe_ret. Qed.
Lemma hoare_stop {A} c s g (Q : A -> S -> G -> Prop) : stopped c g -> hoare (stop c) s g Q.
Proof. intros H. by apply safe_ret. Qed.
Lemma hoare_break {A} w s g (Q : A -> S -> G -> Prop) : broken w g -> hoare (break w) s g Q.
Proof. intros H. by apply safe_ret. Qed.
Lemma hoare_call {X} (e : E X) s g (Q : X -> S -> G -> Prop) :
  (forall x, legal _ e x -> exists g', next g (Ev e x) g' /\ Q x s g') -> hoare (call e) s g Q.
Proof. intros H [|n]; [done|]. cbn. intros x Hx. destruct (H x Hx) as (g' & ? & ?). exists g'. split; [done|]. by destruct n. Qed.
Lemma hoare_bind {A B} (m : prog E S A) (f : A -> prog E S B) s g Q :
  hoare m s g (fun a s g => hoare (f a) s g Q) -> hoare (m ≫= f) s g Q.
Proof. intros H. apply safe_bind. eapply safe_mono; [exact H|]. intros [s' a|c|w] g' H'; [exact H' | by apply safe_ret..]. Qed.
Lemma hoare_loop {I A} (body : I -> prog E S (I + A)) (Inv : I -> S -> G -> Prop) Q :
  (forall i s g, Inv i s g -> hoare (body i) s g (fun r s g => match r with inl i => Inv i s g | inr a => Q a s g end)) ->
  forall i s g, Inv i s g -> hoare (loop body i) s g Q.
Proof.
  intros Hb i s g HI. apply (safe_iter legal next _ (fun si g => Inv (snd si) (fst si) g)); [|done]. clear i s g HI. intros [s i] g HI.
  apply safe_bind. eapply safe_mono; [exact (Hb i s g HI)|]. by intros [s' [i'|a]|c|w] g' H'; apply safe_ret.
Qed.

Lemma total_mono {A} n (m : prog E S A) s g Q Q' : total n m s g Q -> (forall a s g, Q a s g -> Q' a s g) -> total n m s g Q'.
Proof. intros H HQ. eapply ends_mono; [exact H|]. intros r g'. by apply post_mono. Qed.
Lemma total_more {A} n n' (m : prog E S A) s g Q : (n <= n')%nat -> total n m s g Q -> total n' m s g Q.
Proof. apply ends_more. Qed.
Lemma total_ret {A} n (a : A) s g (Q : A -> S -> G -> Prop) : Q a s g -> total (Datatypes.S n) (mret a) s g Q.
Proof. done. Qed.
Lemma total_get {A} n (f : S -> A) s g (Q : A -> S -> G -> Prop) : Q (f s) s g -> total (Datatypes.S n) (get f) s g Q.
Proof. done. Qed.
Lemma total_modify n f s g (Q : () -> S -> G -> Prop) : Q () (f s) g -> total (Datatypes.S n) (modify f) s g Q.
Proof. done. Qed.
Lemma total_stop {A} n c s g (Q : A -> S -> G -> Prop) : stopped c g -> total (Datatypes.S n) (stop c) s g Q.
Proof. done. Qed.
Lemma total_call {X} n (e : E X) s g (Q : X -> S -> G -> Prop) :
  (forall x, legal _ e x -> exists g', next g (Ev e x) g' /\ Q x s g') -> total (2 + n) (call e) s g Q.
Proof. intros H. cbn. intros x Hx. destruct (H x Hx) as (g' & ? & ?). by exists g'. Qed.
Lemma total_bind {A B} n n' (m : prog E S A) (f : A -> prog E S B) s g Q :
  total n m s g (fun a s g => total (Datatypes.S n') (f a) s g Q) -> total (n + Datatypes.S n') (m ≫= f) s g Q.
Proof. intros H. apply bind_ends. eapply ends_mono; [exact H|]. by intros [s' a|c|w] g' H'. Qed.
Lemma total_loop {I A} (body : I -> prog E S (I + A)) (Inv : I -> S -> G -> Prop) (measure : I -> nat) n Q :
  (forall i s g, Inv i s g ->
     total n (body i) s g (fun r s g => match r with inl i' => Inv i' s g /\ (measure i' < measure i)%nat | inr a => Q a s g end)) ->
  forall m i s g, Inv i s g -> (measure i <= m)%nat -> total (Datatypes.S m * (n + 3)) (loop body i) s g Q.
Proof.
  intros Hb m i s g HI Hm. replace (n + 3)%nat with (Datatypes.S (Datatypes.S (n + 1))) by lia.
  apply (ends_iter legal next _ (fun si g => Inv (snd si) (fst si) g) (fun si => measure (snd si)) (n + 1)); [|done..]. clear i s g HI Hm. intros [s i] g HI.
  apply bind_ends. eapply ends_mono; [exact (Hb i s g HI)|]. by intros [s' [i'|a]|c|w] g' H'; apply ends_ret.
Qed.
End Rules.
