(* ===== verification/Autossh.v ===== *)
(** * Keeping an ssh session alive (contrib/autossh/autossh.c)

    [sysE] are the system calls of the program, [state] its variables that change once it
    runs, [vars] those set from the environment and the command line.  Signals are handled
    by [sig_catch]: what it does is visible where [restart_ssh] is looked at, so the signals
    that came since then are asked for there ([Caught]), and in [pause], which ends with a
    signal ([Pause]).  Numbers kept in a [double] are whole numbers, rounded as a [double]
    is; the one computation that is not is done with the floating-point numbers of the
    standard library.  Messages to the log are left out. *)

From Stdlib Require Import Floats.SpecFloat.
From ITree Require Import Core.ITreeDefinition.
From S2P Require Import Prelude CLib CFormat Interact.

Definition POLL_TIME : Z := 600.
Definition GATE_TIME : Z := 30.
Definition MAX_LIFETIME : Z := 0.
Definition TIMEO_NET : Z := 15000.
Definition MAX_CONN_TRIES : Z := 3.
Definition MAX_START : Z := -1.
Definition MAX_MESSAGE : Z := 64.
Inductive verdict : Type := P_CONTINUE | P_RESTART | P_EXIT.
#[global] Instance verdict_eq_dec : EqDecision verdict.
Proof. solve_decision. Defined.
Definition NO_RD_SOCK : Z := -2.
Definition OPTION_STRING : list Z := str "M:V1246ab:c:e:fgi:kl:m:no:p:qstvw:xACD:F:I:L:NO:PR:S:TXY".
Definition START_AV_SZ : Z := 16.
Definition mhost : list Z := str "127.0.0.1".

(** Signals, errors and poll's flags as FreeBSD numbers them. *)
Definition SIGHUP : Z := 1.
Definition SIGINT : Z := 2.
Definition SIGQUIT : Z := 3.
Definition SIGABRT : Z := 6.
Definition SIGKILL : Z := 9.
Definition SIGALRM : Z := 14.
Definition SIGTERM : Z := 15.
Definition SIGCHLD : Z := 20.
Definition SIGUSR1 : Z := 30.
Definition SIGUSR2 : Z := 31.
Definition EINTR : Z := 4.
Definition EAGAIN : Z := 35.
Definition POLLIN : Z := 1.
Definition POLLOUT : Z := 4.
Definition POLLHUP : Z := 16.
Definition LOG_EMERG : Z := 0.
Definition LOG_INFO : Z := 6.
Definition LOG_DEBUG : Z := 7.

(** What waitpid says: the child's end, nothing yet, an error. *)
Inductive ended : Type := Signaled (sig : Z) | Exited (code : Z).
Inductive waited : Type := Reaped (e : ended) | NotYet | WaitFailed (errno : Z).

Variant sysE : Type -> Type :=
| Time : sysE Z
| Gettimeofday : sysE (Z * Z)
| Srandom (seed : Z) : sysE ()
| Random : sysE Z
| Getpid : sysE Z
| Uname : sysE (list Z)
| Sigaction (sig : Z) (restart : bool) : sysE ()
| Caught : sysE (list Z)
| Pause : sysE Z
| Alarm (secs : Z) : sysE Z
| Sleep (secs : Z) : sysE ()
| Fork : sysE Z
| Execvp (av : list (list Z)) : sysE ()
| Waitpid (pid : Z) (nohang : bool) : sysE waited
| Kill (pid sig : Z) : sysE ()
| Daemon : sysE Z
| Fopen (path : list Z) (mode : list Z) : sysE bool
| Fprintf (data : list Z) : sysE Z
| Fclose : sysE ()
| Unlink (path : list Z) : sysE ()
| Getaddrinfo (host port : list Z) : sysE (option Z)
| Freeaddrinfo (res : Z) : sysE ()
| Socket (res : Z) : sysE Z
| Connect (fd res : Z) : sysE Z
| Setsockopt (fd : Z) : sysE Z
| Bind (fd res : Z) : sysE Z
| Listen (fd backlog : Z) : sysE Z
| Cloexec (fd : Z) : sysE ()
| Accept (fd : Z) : sysE Z
| Poll (fds : list (Z * Z)) (timeout : Z) : sysE (Z * list Z)
| Write (fd : Z) (data : list Z) : sysE (Z + Z)
| Read (fd len : Z) : sysE (list Z + Z)
| Shutdown (fd : Z) : sysE ()
| Close (fd : Z) : sysE ().

(** What the calls answer, as far as the program relies on it. On the right the errors. *)
Definition legal (X : Type) (e : sysE X) : X -> Prop :=
  match e in sysE X return X -> Prop with
  | Fork => fun pid => -1 <= pid
  | Waitpid _ nohang => fun w => w = NotYet -> nohang = true
  | Random => fun n => 0 <= n < 2 ^ 31
  | Write _ data => fun n => match n with inl n => 0 <= n <= zlen data | inr _ => True end
  | Read _ len => fun d => match d with inl d => zlen d <= len | inr _ => True end
  | Poll fds _ => fun r => zlen (snd r) = zlen fds
  | Socket _ => fun fd => -1 <= fd
  | Accept _ => fun fd => -1 <= fd
  | Connect _ _ => fun r => -1 <= r <= 0
  | _ => fun _ => True
  end.

Record state : Type := State {
  pid_file_name : option (list Z);
  pid_file_created : bool;
  start_count : Z;
  start_time : Z;
  cchild : Z;
  restart_ssh : bool;
  dolongjmp : bool;
  secs_left : Z;        (* of ssh_watch *)
  tries : Z;            (* of grace_time *)
  res : option Z        (* of conn_remote *)
}.
Definition initial : state := State None false 0 0 0 false false 0 0 None.

Definition set_pid_file (name : option (list Z)) (created : bool) (s : state) : state :=
  State name created (start_count s) (start_time s) (cchild s) (restart_ssh s) (dolongjmp s) (secs_left s) (tries s) (res s).
Definition set_start (count time : Z) (s : state) : state :=
  State (pid_file_name s) (pid_file_created s) count time (cchild s) (restart_ssh s) (dolongjmp s) (secs_left s) (tries s) (res s).
Definition set_cchild (pid : Z) (s : state) : state :=
  State (pid_file_name s) (pid_file_created s) (start_count s) (start_time s) pid (restart_ssh s) (dolongjmp s) (secs_left s) (tries s) (res s).
Definition set_signals (restart jump : bool) (s : state) : state :=
  State (pid_file_name s) (pid_file_created s) (start_count s) (start_time s) (cchild s) restart jump (secs_left s) (tries s) (res s).
Definition set_secs_left (n : Z) (s : state) : state :=
  State (pid_file_name s) (pid_file_created s) (start_count s) (start_time s) (cchild s) (restart_ssh s) (dolongjmp s) n (tries s) (res s).
Definition set_tries (n : Z) (s : state) : state :=
  State (pid_file_name s) (pid_file_created s) (start_count s) (start_time s) (cchild s) (restart_ssh s) (dolongjmp s) (secs_left s) n (res s).
Definition set_res (r : option Z) (s : state) : state :=
  State (pid_file_name s) (pid_file_created s) (start_count s) (start_time s) (cchild s) (restart_ssh s) (dolongjmp s) (secs_left s) (tries s) r.

(** The variables that are set once. *)
Record vars : Type := Vars {
  progname : list Z;
  ssh_path : list Z;
  loglevel : Z;
  first_poll_time : Z;
  poll_time : Z;
  gate_time : Z;
  max_start : Z;
  echo_message : list Z;
  env_port : option (list Z);
  max_lifetime : Z;
  pid_start_time : Z;
  net_timeout : Z;
  writep : option (list Z)
}.

Notation M := (prog sysE state).

(** ** Arithmetic *)

(** A whole number as a [double]: 53 digits, ties to even. *)
Definition to_double (z : Z) : Z :=
  let a := Z.abs z in
  if a <=? 2 ^ 53 then z else
  let e := Z.log2 a - 52 in
  let q := a / 2 ^ e in
  let r := a mod 2 ^ e in
  let q := if (2 ^ (e - 1) <? r) || ((r =? 2 ^ (e - 1)) && Z.odd q) then q + 1 else q in
  Z.sgn z * (q * 2 ^ e).
Definition difftime (a b : Z) : Z := to_double (a - b).
(** A [double] converted to [int]: undefined beyond the range. *)
Definition to_int {S} (d : Z) : prog sysE S Z := if (- 2 ^ 31 <=? d) && (d <? 2 ^ 31) then mret d else break Overflow.
(** The same for the floating-point numbers. *)
Definition dbl (z : Z) : spec_float := binary_normalize 53 1024 z 0 false.
Definition truncate (x : spec_float) : option Z :=
  match x with
  | S754_zero _ => Some 0
  | S754_finite s m e => let v := if 0 <=? e then Zpos m * 2 ^ e else Zpos m / 2 ^ (- e) in Some (if s then - v else v)
  | _ => None
  end.
(** [n] in grace_time. *)
Definition grace_secs (poll_time tries : Z) : option Z :=
  let t := dbl (tries - 5) in
  truncate (SFmul 53 1024 (SFdiv 53 1024 (dbl poll_time) (dbl 100)) (SFmul 53 1024 t (SFdiv 53 1024 t (dbl 3)))).

(** [strtol]: the value and what follows the number. *)
Definition strtol (s : list Z) : Z * list Z :=
  let s1 := skip_while isspace s in
  let '(neg, s2) := match s1 with 45 :: r => (true, r) | 43 :: r => (false, r) | _ => (false, s1) end in
  let '(base, s3) := match hex_prefix s2 with Some r => (16, r) | None => match s2 with 48 :: _ => (8, s2) | _ => (10, s2) end end in
  let '(v, any, r) := digits base s3 0 false in
  if any then (if neg then Z.max (- 2 ^ 63) (- v) else Z.min (2 ^ 63 - 1) v, r) else (0, s).
(** A number that is all of the string. *)
Definition whole_number (s : list Z) (rest : list Z) : bool := negb (bool_decide (s = [])) && bool_decide (rest = []).

(** ** Ending *)

Definition unlink_pid_file : M () :=
  created ← get pid_file_created;
  name ← get pid_file_name;
  (match name with Some n => if (created : bool) then call (Unlink n) else mret () | None => mret () end);;
  modify (set_pid_file name false).
(** The child is waited for however often that is interrupted. *)
Definition ssh_kill : M () :=
  pid ← get cchild;
  if pid =? 0 then mret () else
  call (Kill pid SIGTERM);;
  loop (fun _ =>
    w ← call (Waitpid pid false);
    mret match w with WaitFailed errno => if errno =? EINTR then inl () else inr () | _ => inr () end) ().
Definition xerrlog {A} : M A := ssh_kill;; unlink_pid_file;; stop 1.
(** What must not fail. *)
Definition must (ok : bool) : M () := if ok then mret () else xerrlog.

(** ** Signals *)

(** The handler; [true] when it jumps to where sigsetjmp was. *)
Definition sig_catch (sig : Z) : M bool :=
  restart ← get restart_ssh;
  jump ← get dolongjmp;
  modify (set_signals (restart || (sig =? SIGUSR1)) false);;
  mret jump.
(** Signals outside of [pause]: there is nowhere to jump to. *)
Fixpoint catch (sigs : list Z) : M () :=
  match sigs with
  | [] => mret ()
  | sig :: sigs => jump ← sig_catch sig; if (jump : bool) then break Nowhere else catch sigs
  end.

(** ** The connection test *)

Definition conn_addr (host port : list Z) : M Z :=
  r ← call (Getaddrinfo host port);
  match r with Some a => mret a | None => xerrlog end.
Definition conn_remote (host port : list Z) : M Z :=
  cached ← get res;
  a ← (match cached with
       | Some a => mret a
       | None => a ← conn_addr host port; modify (set_res (Some a));; mret a
       end);
  sock ← call (Socket a);
  must (negb (sock =? -1));;
  r ← call (Connect sock a);
  if r =? -1 then call (Close sock);; mret (-1) else mret sock.
Definition conn_listen (host port : list Z) : M Z :=
  a ← conn_addr host port;
  sock ← call (Socket a);
  must (negb (sock =? -1));;
  r ← call (Setsockopt sock);
  must (r =? 0);;
  r ← call (Bind sock a);
  must (negb (r =? -1));;
  r ← call (Listen sock 1);
  must (0 <=? r);;
  call (Freeaddrinfo a);;
  mret sock.

(** Has the answer to [poll] one of these bits. *)
Definition revents (r : list Z) (i : nat) (bits : Z) : bool := negb (Z.land (nth i r 0) bits =? 0).

Definition conn_poll_for_accept (v : vars) (sock : Z) : M Z :=
  r ← call (Poll [(sock, POLLIN)] (net_timeout v));
  if (r.1 =? 0) || (r.1 =? -1) then mret (-1)
  else if revents r.2 0 POLLIN then call (Accept sock)
  else mret 0.

(** The loop that writes: what is left to write, and whether writing went wrong. *)
Definition send (fd : Z) : list Z -> M (list Z * bool) :=
  loop (fun todo =>
    if bool_decide (todo = []) then mret (inr ([], false)) else
    r ← call (Write fd todo);
    mret match r with
         | inl n => if n =? 0 then inr ([], false) else inl (zdrop n todo)
         | inr errno => if (errno =? EINTR) || (errno =? EAGAIN) then inr (todo, false) else inr (todo, true)
         end).
(** The loop that reads: [rleft], what has come, and whether reading went wrong. *)
Definition receive (fd : Z) : Z * list Z -> M (Z * list Z * bool) :=
  loop (fun '(rleft, got) =>
    if rleft <=? 0 then mret (inr (rleft, got, false)) else
    r ← call (Read fd rleft);
    mret match r with
         | inl d => if bool_decide (d = []) then inr (0, got, false) else inl (rleft - zlen d, got ++ d)
         | inr errno => if (errno =? EINTR) || (errno =? EAGAIN) then inr (rleft, got, false) else inr (rleft, got, true)
         end).
(** A turn of the loop that polls; what it goes around with, or what is returned. *)
Definition exchange (v : vars) (ird iwr : nat) '((pfd, todo, rleft, got, loops) : list (Z * Z) * list Z * Z * list Z * Z)
    : M (list (Z * Z) * list Z * Z * list Z * Z + Z * list Z) :=
  if rleft <=? 0 then mret (inr (0, got)) else
  r ← call (Poll pfd (net_timeout v));
  if r.1 =? 0 then mret (inr (1, got)) else
  if r.1 =? -1 then mret (inr (-1, got)) else
  w ← (if negb (bool_decide (todo = [])) && revents r.2 iwr POLLOUT then
         w ← send (fst (nth iwr pfd (0, 0))) todo;
         if bool_decide (w.1 = []) then
           mret (w, if Nat.eqb iwr ird then [(fst (nth ird pfd (0, 0)), POLLIN)] else take 1 pfd)
         else mret (w, pfd)
       else mret (todo, false, pfd));
  let '(todo, failed, pfd) := w in
  if (failed : bool) then mret (inr (-1, got)) else
  g ← (if revents r.2 ird POLLIN || revents r.2 ird POLLHUP then receive (fst (nth ird pfd (0, 0))) (rleft, got) else mret (rleft, got, false));
  let '(rleft, got, failed) := g in
  if (failed : bool) then mret (inr (-1, got)) else
  if 5 <? loops then
    call (Sleep 1);;
    if 10 <? loops + 1 then mret (inr (-1, got)) else mret (inl (pfd, todo, rleft, got, loops + 1))
  else mret (inl (pfd, todo, rleft, got, loops + 1)).
(** 1 for another try, 0, or -1 for an error; with what has been read into the buffer. *)
Definition conn_send_and_receive (v : vars) (wp : list Z) (pfd : list (Z * Z)) : M (Z * list Z) :=
  let '(ird, iwr) := if Nat.eqb (length pfd) 2 then (0%nat, 1%nat) else (0%nat, 0%nat) in
  loop (exchange v ird iwr) (pfd, wp, zlen wp, [], 0).

Section Nodename.
(** sizeof(uts.nodename). *)
Context (nodename_size : Z).

(** Whether what comes back is what was sent, in at most two attempts. *)
Definition conn_test (v : vars) (sock : Z) (host write_port : list Z) : M bool :=
  uts ← call Uname;
  id ← call Random;
  wd ← conn_remote host write_port;
  if wd =? -1 then mret false else
  r ← loop (fun '(tries, rd) =>
    let tries := tries + 1 in
    if MAX_CONN_TRIES <=? tries then mret (inr (false, rd)) else
    rd ← (if negb (sock =? NO_RD_SOCK) && negb (rd =? -1) then call (Shutdown rd);; call (Close rd);; mret (-1) else mret rd);
    pid ← call Getpid;
    let wbuf := uts ++ str " " ++ progname v ++ str " " ++ print_d pid ++ str " " ++ print_d id ++ str " " ++ echo_message v ++ [CR; LF] in
    must (zlen wbuf <? 64 + nodename_size + MAX_MESSAGE);;
    rd ← (if negb (sock =? NO_RD_SOCK) then conn_poll_for_accept v sock else mret rd);
    if negb (sock =? NO_RD_SOCK) && (rd <? 0) then mret (inr (false, rd)) else
    x ← conn_send_and_receive v wbuf (if negb (sock =? NO_RD_SOCK) then [(rd, POLLIN); (wd, POLLOUT)] else [(wd, Z.lor POLLIN POLLOUT)]);
    mret (if x.1 =? 0 then if streq (cstr (x.2 ++ [0])) wbuf then inr (true, rd) else inl (tries, rd)
          else if x.1 =? 1 then inl (tries, rd)
          else inr (false, rd))) (0, -1);
  call (Shutdown wd);;
  call (Close wd);;
  (if negb (sock =? NO_RD_SOCK) then call (Shutdown r.2);; call (Close r.2) else mret ());;
  mret r.1.

(** ** Watching the child *)

Definition exceeded_lifetime (v : vars) : M bool :=
  if 0 <? max_lifetime v then
    now ← call Time;
    mret (max_lifetime v <=? difftime now (pid_start_time v))
  else mret false.
(** What becomes of a child that ended. *)
Definition verdict_of (v : vars) (count : Z) (quick : bool) (e : ended) : verdict :=
  match e with
  | Signaled sig => if (sig =? SIGINT) || (sig =? SIGTERM) || (sig =? SIGKILL) then P_EXIT else P_RESTART
  | Exited code =>
      if quick then P_EXIT
      else if code =? 255 then P_RESTART
      else if (code =? 1) && ((1 <? count) || (gate_time v =? 0)) then P_RESTART
      else P_EXIT
  end.
Definition ssh_wait (v : vars) (nohang : bool) : M verdict :=
  pid ← get cchild;
  w ← call (Waitpid pid nohang);
  match w with
  | Reaped e =>
      count ← get start_count;
      start ← get start_time;
      quick ← (match e with
               | Exited _ =>
                   if (count =? 1) && negb (gate_time v =? 0) then now ← call Time; mret (difftime now start <=? gate_time v)
                   else mret false
               | Signaled _ => mret false
               end);
      mret (verdict_of v count quick e)
  | _ => mret P_CONTINUE
  end.
(** What is done about a signal that ended [pause]. *)
Definition handle (v : vars) (sock val : Z) : M verdict :=
  if (val =? SIGINT) || (val =? SIGTERM) || (val =? SIGQUIT) || (val =? SIGABRT) then ssh_kill;; mret P_EXIT
  else if val =? SIGALRM then
    over ← exceeded_lifetime v;
    if (over : bool) then ssh_kill;; mret P_EXIT else
    match writep v with
    | Some port =>
        if sock =? -1 then mret P_CONTINUE else
        ok ← conn_test v sock mhost port;
        if (ok : bool) then mret P_CONTINUE else ssh_kill;; mret P_RESTART
    | None => mret P_CONTINUE
    end
  else mret P_CONTINUE.
(** A turn; the argument is [my_poll_time]. *)
Definition watch (v : vars) (sock my_poll_time : Z) : M (Z + verdict) :=
  sigs ← call Caught;
  catch sigs;;
  restart ← get restart_ssh;
  if (restart : bool) then ssh_kill;; mret (inr P_RESTART) else
  r ← ssh_wait v true;
  if negb (bool_decide (r = P_CONTINUE)) then mret (inr r) else
  left_ ← call (Alarm 0);
  modify (set_secs_left (if s32 left_ =? 0 then my_poll_time else s32 left_));;
  (if negb (max_lifetime v =? 0) then
     now ← call Time;
     let secs_to_shutdown := to_double (max_lifetime v - difftime now (pid_start_time v)) in
     if secs_to_shutdown <? poll_time v then n ← to_int secs_to_shutdown; modify (set_secs_left n) else mret ()
   else mret ());;
  secs ← get secs_left;
  call (Alarm (u32 secs));;
  restart ← get restart_ssh;
  modify (set_signals restart true);;
  sig ← call Pause;
  sig_catch sig;;
  r ← handle v sock sig;
  mret (if bool_decide (r = P_CONTINUE) then inl (poll_time v) else inr r).
Definition ssh_watch (v : vars) (sock : Z) : M verdict := loop (watch v sock) (first_poll_time v).

(** Backing off when restarts follow each other quickly. *)
Definition grace_time (v : vars) (last_start : Z) : M () :=
  let min_time := Z.max 10 (Z.quot (poll_time v) 10) in
  now ← call Time;
  n ← get tries;
  (if min_time <=? difftime now last_start then modify (set_tries 0)
   else if n + 1 <? 2 ^ 31 then modify (set_tries (n + 1)) else break Overflow);;
  n ← get tries;
  if 5 <? n then
    match grace_secs (poll_time v) n with
    | Some n =>
        if (- 2 ^ 31 <=? n) && (n <? 2 ^ 31) then
          let interval := if poll_time v <? n then poll_time v else n in
          if negb (interval =? 0) then call (Sleep (u32 interval)) else mret ()
        else break Overflow
    | None => break Overflow
    end
  else mret ().

(** ** Running ssh *)

(** In the child; [execvp] comes back only when it fails. *)
Definition child (av : list (list Z)) : M verdict :=
  call (Execvp av);;
  xerrlog.
(** A turn of the loop that starts ssh. *)
Definition start (v : vars) (sock : Z) (av : list (list Z)) : M (() + ()) :=
  count ← get start_count;
  if negb ((max_start v <? 0) || (count <? max_start v)) then mret (inr ()) else
  over ← exceeded_lifetime v;
  if (over : bool) then mret (inr ()) else
  jump ← get dolongjmp;
  modify (set_signals false jump);;
  if negb (count + 1 <? 2 ^ 31) then break Overflow else
  last ← get start_time;
  modify (set_start (count + 1) last);;
  grace_time v last;;
  now ← call Time;
  modify (set_start (count + 1) now);;
  pid ← call Fork;
  modify (set_cchild pid);;
  r ← (if pid =? 0 then child av
       else if pid =? -1 then modify (set_cchild 0);; xerrlog
       else ssh_watch v sock);
  mret (if bool_decide (r = P_EXIT) then inr () else inl ()).
Definition ssh_run (v : vars) (sock : Z) (av : list (list Z)) : M () :=
  call (Sigaction SIGTERM false);;
  call (Sigaction SIGINT false);;
  call (Sigaction SIGHUP false);;
  call (Sigaction SIGUSR1 false);;
  call (Sigaction SIGUSR2 false);;
  call (Sigaction SIGCHLD false);;
  call (Sigaction SIGALRM true);;
  tv ← call Gettimeofday;
  pid ← call Getpid;
  call (Srandom (u32 (Z.lxor (Z.lxor pid tv.2) tv.1)));;
  loop (fun _ => start v sock av) ().
End Nodename.

(** ** Arguments *)

(** The vector for ssh, which is allocated with the first argument. *)
Record arguments : Type := Args { newav : list (list Z); newamax : Z }.
Definition no_arguments : arguments := Args [] START_AV_SZ.
Definition add_arg (s : list Z) (a : arguments) : outcome arguments :=
  if bool_decide (s = []) then Ok a else
  let newac := zlen (newav a) in
  let newamax := if negb (bool_decide (newav a = [])) && (newamax a - 1 <=? newac) then newamax a * 2 else newamax a in
  (* both the argument and the NULL behind it *)
  if newac + 1 <? newamax then Ok (Args (newav a ++ [s]) newamax) else UB.
Fixpoint add_args (l : list (list Z)) (a : arguments) : outcome arguments :=
  match l with
  | [] => Ok a
  | s :: l => a ← add_arg s a; add_args l a
  end.

(** Does an option of this letter take an argument. *)
Definition takes_argument (opts : list Z) (c : Z) : bool :=
  match strchr opts c with Some (_ :: 58 :: _) => true | _ => false end.
(** The loop of strip_arg; behind a letter that is taken out the next one is passed over. *)
Fixpoint strip (ch : Z) (opts f : list Z) : list Z :=
  match f with
  | [] => []
  | c :: r =>
      if takes_argument opts c then f
      else if c =? ch then match r with [] => [] | x :: r => x :: strip ch opts r end
      else c :: strip ch opts r
  end.
Definition strip_arg (arg : list Z) (ch : Z) (opts : list Z) : list Z :=
  match arg with
  | 45 :: _ :: _ => let arg := strip ch opts arg in match arg with [_] => [] | _ => arg end
  | _ => arg
  end.

(** The port-forwarding arguments. *)
Definition forwards (wmbuf : list Z) (rmbuf : option (list Z)) : list (list Z) :=
  str "-L" :: wmbuf :: match rmbuf with Some r => [str "-R"; r] | None => [] end.
(** A turn of the loop over the arguments: the vector, [done_fwds] and [sawargstop], the
    argument as it is left, and whether the next one is passed over. *)
Record turn : Type := Turn { t_args : arguments; t_done : bool; t_stop : bool; t_arg : list Z; t_skip : bool }.
Definition one_arg (arg : list Z) (fwd : option (list (list Z))) (env done_fwds sawargstop : bool) (a : arguments) : outcome turn :=
  if (znth arg 0 =? 45) && (znth arg 1 =? 45) && negb sawargstop then Ok (Turn a done_fwds true arg false)
  else
  let fwds := if done_fwds then None else fwd in
  if negb (env && bool_decide (is_Some fwds)) && negb sawargstop && (znth arg 0 =? 45) && (znth arg 1 =? 77) then
    a ← add_args (default [] fwds) a;
    Ok (Turn a (done_fwds || bool_decide (is_Some fwds)) sawargstop arg (znth arg 2 =? 0))
  else
    let fwds := if (env : bool) then fwds else None in
    a ← add_args (default [] fwds) a;
    let arg := strip_arg arg 102 OPTION_STRING in
    a ← add_arg arg a;
    Ok (Turn a (done_fwds || bool_decide (is_Some fwds)) sawargstop arg false).
(** The vector, and the arguments as they are left. *)
Fixpoint new_args (argv : list (list Z)) (fwd : option (list (list Z))) (env done_fwds sawargstop : bool) (a : arguments)
    : outcome (arguments * list (list Z)) :=
  match argv with
  | [] => Ok (a, [])
  | arg :: rest =>
      t ← one_arg arg fwd env done_fwds sawargstop a;
      match rest with
      | skipped :: rest' =>
          if t_skip t then r ← new_args rest' fwd env (t_done t) (t_stop t) (t_args t); Ok (r.1, t_arg t :: skipped :: r.2)
          else r ← new_args rest fwd env (t_done t) (t_stop t) (t_args t); Ok (r.1, t_arg t :: r.2)
      | [] => Ok (t_args t, [t_arg t])
      end
  end.

(** ** The environment and the command line *)

Section Main.
Context (nodename_size : Z).
Context (getenv : list Z -> option (list Z)).
(** The options [getopt] finds with their arguments, which are places in the vector: the
    argument and the offset in it. *)
Context (getopt : list (list Z) -> list (Z * option (nat * nat))).

(** [__progname]: the name the C library keeps, or autossh where it has none. *)
Context (program : list Z).

(** A number from the environment, with a test and what replaces it. *)
Definition env_int (name : list Z) (default : Z) (parse : list Z -> Z * list Z) (bad : Z -> bool) : M Z :=
  match getenv name with
  | None => mret default
  | Some s =>
      let '(v, rest) := parse s in
      must (whole_number s rest && negb (bad v));;
      mret v
  end.
Definition ulong_int (s : list Z) : Z * list Z := let '(v, rest, _) := strtoul s 0 in (s32 v, rest).
Definition long_int (s : list Z) : Z * list Z := let '(v, rest) := strtol s in (s32 v, rest).
Definition long_double (s : list Z) : Z * list Z := let '(v, rest) := strtol s in (to_double v, rest).
Definition ulong_double (s : list Z) : Z * list Z := let '(v, rest, _) := strtoul s 0 in (to_double v, rest).
(** A value that is there and not empty. *)
Definition env_text (name : list Z) : option (list Z) := match getenv name with Some [] => None | r => r end.

Definition get_env_args : M vars :=
  let ssh_path := default (str "/usr/bin/ssh") (getenv (str "AUTOSSH_PATH")) in
  level ← (match getenv (str "AUTOSSH_DEBUG") with
           | Some _ => mret LOG_DEBUG
           | None => env_int (str "AUTOSSH_LOGLEVEL") LOG_INFO ulong_int (fun v => (v <? LOG_EMERG) || (LOG_DEBUG <? v))
           end);
  first ← env_int (str "AUTOSSH_FIRST_POLL") POLL_TIME ulong_int (fun v => v =? 0);
  let first := if first <=? 0 then POLL_TIME else first in
  poll ← env_int (str "AUTOSSH_POLL") POLL_TIME ulong_int (fun v => v =? 0);
  let poll := if poll <=? 0 then POLL_TIME else poll in
  gate ← env_int (str "AUTOSSH_GATETIME") GATE_TIME long_double (fun v => v <? 0);
  starts ← env_int (str "AUTOSSH_MAXSTART") MAX_START long_int (fun v => v <? 0);
  let message := default [] (env_text (str "AUTOSSH_MESSAGE")) in
  must (zlen message <=? MAX_MESSAGE);;
  let port := env_text (str "AUTOSSH_PORT") in
  life ← env_int (str "AUTOSSH_MAXLIFETIME") MAX_LIFETIME ulong_double (fun _ => false);
  let poll' := if (0 <? life) && (life <? poll) then life else poll in
  let first' := if (0 <? life) && (life <? first) then life else first in
  born ← (if 0 <? life then call Time else mret 0);
  modify (set_pid_file (env_text (str "AUTOSSH_PIDFILE")) false);;
  (match getenv (str "AUTOSSH_LOGFILE") with
   | Some f => ok ← call (Fopen f (str "a")); must ok
   | None => mret ()
   end);;
  mret (Vars program ssh_path level first' poll' gate starts message port life born TIMEO_NET None).

Definition usage {A} (code : Z) : M A := stop code.
(** The options: where the port is, and whether to run as a daemon. *)
Fixpoint options (env : bool) (l : list (Z * option (nat * nat))) (port : option (nat * nat)) (runasdaemon : bool)
    : M (option (nat * nat) * bool) :=
  match l with
  | [] => mret (port, runasdaemon)
  | (ch, optarg) :: l =>
      if ch =? 77 then options env l (if env then port else optarg) runasdaemon
      else if ch =? 86 then stop 0
      else if ch =? 102 then options env l port true
      else if ch =? 63 then usage 1
      else options env l port runasdaemon
  end.
Definition at_place (argv : list (list Z)) (p : nat * nat) : list Z := drop p.2 (nth p.1 argv []).
(** The port and the echo port, whose colon becomes the end of the string. *)
Definition split_port (s : list Z) : list Z * option (list Z) :=
  match strchr s 58 with Some (_ :: echo) => (take_while (fun c => negb (c =? 58)) s, Some echo) | _ => (s, None) end.

(** The second part of main, from the socket on. *)
Definition main_run (v : vars) (readp : list Z) (echo runasdaemon : bool) (av : list (list Z)) : M () :=
  sock ← (if bool_decide (writep v = None) then mret (-1)
          else if (echo : bool) then mret NO_RD_SOCK
          else sock ← conn_listen mhost readp; call (Cloexec sock);; mret sock);
  (if (runasdaemon : bool) then r ← call Daemon; must (negb (r =? -1)) else mret ());;
  name ← get pid_file_name;
  (match name with
   | Some n =>
       ok ← call (Fopen n (str "w"));
       must ok;;
       modify (set_pid_file name true);;
       pid ← call Getpid;
       w ← call (Fprintf (print_d pid ++ [LF]));
       must (negb (w =? 0));;
       call Fclose
   | None => mret ()
   end);;
  ssh_run nodename_size v sock av;;
  (if 0 <=? sock then call (Shutdown sock);; call (Close sock) else mret ());;
  (* exit (0), with what atexit has registered *)
  unlink_pid_file;;
  stop 0.
Definition main (argv : list (list Z)) : M () :=
  v ← get_env_args;
  let env := bool_decide (is_Some (env_port v)) in
  o ← options env (getopt argv) None false;
  let '(place, runasdaemon) := o in
  (* usage (1) *)
  (if (if env then zlen argv <? 2 else negb (bool_decide (is_Some place)) || (zlen argv <? 4)) then usage 1 else mret ());;
  let writep := match env_port v, place with Some p, _ => p | None, Some p => at_place argv p | None, None => [] end in
  let '(writep, echop) := split_port writep in
  let argv := match env_port v, place with
              | None, Some p => <[p.1 := take (p.2 + length writep) (nth p.1 argv [])]> argv
              | _, _ => argv
              end in
  ep ← (match echop with
        | Some e => let '(n, rest) := ulong_int e in must (whole_number e rest && negb (n =? 0));; mret n
        | None => mret 0
        end);
  let '(wp, rest) := ulong_int writep in
  must (whole_number writep rest);;
  must ((0 <=? wp) && (wp <=? 65534));;
  let readp := print_d (wp + 1) in
  let wmbuf := print_d wp ++ str ":" ++ mhost ++ str ":" ++ print_d (if bool_decide (is_Some echop) then ep else wp) in
  let rmbuf := print_d wp ++ str ":" ++ mhost ++ str ":" ++ print_d (wp + 1) in
  let fwd := if wp =? 0 then None else Some (forwards wmbuf (if bool_decide (is_Some echop) then None else Some rmbuf)) in
  (if poll_time v * 1000 <? 2 ^ 31 then mret () else break Overflow);;
  let timeout := Z.min (net_timeout v) (Z.quot (poll_time v * 1000) 2) in
  built ← (match (a ← add_arg (ssh_path v) no_arguments; new_args (drop 1 argv) fwd env false false a) with
           | Ok r => mret r
           | _ => break Outside
           end);
  let '(args, rest) := built in
  (* the arguments have been changed in place *)
  let port := match env_port v, place with None, Some p => at_place (take 1 argv ++ rest) p | _, _ => writep end in
  let v := Vars (progname v) (ssh_path v) (loglevel v) (first_poll_time v) (poll_time v) (gate_time v) (max_start v) (echo_message v) (env_port v)
             (max_lifetime v) (pid_start_time v) timeout (if wp =? 0 then None else Some port) in
  main_run v readp (bool_decide (is_Some echop)) runasdaemon (newav args).
End Main.
