(* ===== verification/AutosshArgs.v ===== *)
(** * The arguments autossh gives to ssh

    The vector never overflows; what gets into it is the command line without -M and -f,
    with the port forwardings in the place of -M. *)

From S2P Require Import Prelude CLib CFormat Interact Autossh.

(** Room for the arguments and the NULL behind them. *)
Definition args_ok (a : arguments) : Prop := zlen (newav a) + 1 <= newamax a /\ START_AV_SZ <= newamax a.
Definition nonempty (s : list Z) : bool := negb (bool_decide (s = [])).

Lemma add_arg_ok s a : args_ok a -> exists a', add_arg s a = Ok a' /\ args_ok a' /\ newav a' = newav a ++ if nonempty s then [s] else [].
Proof.
  intros [H1 H2]. unfold add_arg, nonempty. destruct (bool_decide_reflect (s = [])) as [->|Hs]; cbn [negb].
  { exists a. by rewrite app_nil_r. }
  pose proof (zlen_nonneg (newav a)). unfold START_AV_SZ in H2. set (cap := if _ && _ then _ else _).
  assert (zlen (newav a) + 1 < cap /\ newamax a <= cap) as [Hc1 Hc2].
  { unfold cap. destruct (bool_decide_reflect (newav a = [])) as [->|]; cbn [negb andb]; [change (zlen []) with 0; lia|].
    destruct (Z.leb_spec (newamax a - 1) (zlen (newav a))); lia. }
  rewrite (proj2 (Z.ltb_lt _ _) Hc1). eexists. split; [done|]. cbn. split; [|done]. split; cbn; [zlen | unfold START_AV_SZ; lia].
Qed.
Lemma add_args_ok l : forall a, args_ok a -> exists a', add_args l a = Ok a' /\ args_ok a' /\ newav a' = newav a ++ filter nonempty l.
Proof.
  induction l as [|s l IH]; intros a Ha; cbn [add_args]; [exists a; by rewrite app_nil_r|].
  destruct (add_arg_ok s a Ha) as (a1 & -> & Ha1 & E1). bsimpl. destruct (IH a1 Ha1) as (a2 & -> & Ha2 & E2). exists a2. split; [done|]. split; [done|].
  rewrite E2, E1, <- app_assoc, filter_cons. by destruct (nonempty s).
Qed.

(** *** What is left of an argument *)

(** The letters of the options of ssh that take an argument. *)
Definition with_argument : list Z := str "MbceilmopwDFILORS".
(** The options in a cluster: what follows the dash up to one that takes an argument. *)
Definition flags_of (cluster : list Z) : list Z := take_while (fun c => negb (bool_decide (c ∈ with_argument))) cluster.
(** An argument without the f of its options; a dash of which nothing else is left goes
    too.  Arguments that are no options are as they were. *)
Definition cleaned (arg : list Z) : list Z :=
  match arg with
  | 45 :: (_ :: _) as cluster =>
      let flags := flags_of cluster in
      match filter (fun c => c <> 102) flags ++ drop (length flags) cluster with
      | [] => []
      | kept => 45 :: kept
      end
  | _ => arg
  end.
(** Every f among the options has another option behind it that takes no argument, or
    nothing.  (The letter behind an f is not looked at, whatever it is.) *)
Definition lone_f (cluster : list Z) : Prop :=
  (forall p r, flags_of cluster <> p ++ 102 :: 102 :: r) /\ (last (flags_of cluster) = Some 102 -> flags_of cluster = cluster).

Lemma strchr_absent l c : c ∉ l -> strchr l c = None.
Proof.
  induction l as [|b l IH]; intros Hl; cbn [strchr]; [done|].
  apply not_elem_of_cons in Hl as [Hb Hl]. rewrite (proj2 (Z.eqb_neq b c)) by done. by apply IH.
Qed.
Lemma takes_argument_letters c : takes_argument OPTION_STRING c = bool_decide (c ∈ with_argument).
Proof.
  destruct (decide (c ∈ OPTION_STRING)) as [H|H].
  - assert (Forall (fun c => takes_argument OPTION_STRING c = bool_decide (c ∈ with_argument)) OPTION_STRING) as Hall
      by (apply (bool_decide_unpack _); vm_compute; exact I).
    rewrite Forall_forall in Hall. by apply Hall.
  - unfold takes_argument. rewrite strchr_absent by done. symmetry. apply bool_decide_eq_false_2.
    assert (Forall (fun c => c ∈ OPTION_STRING) with_argument) as Hall by (apply (bool_decide_unpack _); vm_compute; exact I).
    rewrite Forall_forall in Hall. intros Hw. by apply H, Hall.
Qed.
Lemma flags_of_cons c l : flags_of (c :: l) = if bool_decide (c ∈ with_argument) then [] else c :: flags_of l.
Proof. unfold flags_of. cbn [take_while]. by destruct (bool_decide _). Qed.
Lemma lone_f_tail c l : bool_decide (c ∈ with_argument) = false -> lone_f (c :: l) -> lone_f l.
Proof.
  unfold lone_f. rewrite flags_of_cons. intros -> [H1 H2]. split; [intros p r E; apply (H1 (c :: p) r); by rewrite E|].
  intros Hl. assert (c :: flags_of l = c :: l) as E; [|by injection E]. apply H2. by destruct (flags_of l).
Qed.
Lemma strip_flags l : lone_f l -> strip 102 OPTION_STRING l = filter (fun c => c <> 102) (flags_of l) ++ drop (length (flags_of l)) l.
Proof.
  induction l as [l IH] using (well_founded_induction (Wf_nat.well_founded_ltof _ length)). unfold Wf_nat.ltof in IH.
  destruct l as [|c l]; intros Hl; [done|]. cbn [strip]. rewrite takes_argument_letters, flags_of_cons.
  destruct (bool_decide (c ∈ with_argument)) eqn:Hc; [done|]. pose proof (lone_f_tail _ _ Hc Hl) as Hl1.
  cbn [length drop]. rewrite filter_cons. destruct (Z.eqb_spec c 102) as [->|Hne].
  2:{ rewrite decide_True by done. rewrite IH; [done | cbn; lia | done]. }
  rewrite decide_False by (intros H; by apply H). destruct l as [|x l]; [done|]. destruct Hl as [H1 H2]. rewrite !flags_of_cons, Hc in *.
  destruct (bool_decide (x ∈ with_argument)) eqn:Hx; [by specialize (H2 eq_refl)|].
  cbn [length drop]. rewrite filter_cons, decide_True by (intros ->; by apply (H1 [] (flags_of l))).
  rewrite IH; [done | cbn; lia | by eapply lone_f_tail].
Qed.
Lemma strip_arg_cleaned arg : lone_f (tail arg) -> strip_arg arg 102 OPTION_STRING = cleaned arg.
Proof.
  intros Hl. destruct arg as [|c [|x r]]; [done|by destruct c as [|[]|]|]. destruct (decide (c = 45)) as [->|Hne].
  - unfold strip_arg, cleaned. cbn [tail] in Hl. rewrite <- (strip_flags _ Hl).
    change (strip 102 OPTION_STRING (45 :: x :: r)) with (45 :: strip 102 OPTION_STRING (x :: r)).
    cbv zeta. by destruct (strip 102 OPTION_STRING (x :: r)).
  - unfold strip_arg, cleaned. repeat case_match; congruence.
Qed.

(** What is passed on of an argument. *)
Definition passed (l : list (list Z)) : list (list Z) := filter nonempty (map (fun arg => strip_arg arg 102 OPTION_STRING) l).
Definition no_stop (arg : list Z) : Prop := ~ (znth arg 0 = 45 /\ znth arg 1 = 45).
Definition no_monitor (arg : list Z) : Prop := ~ (znth arg 0 = 45 /\ znth arg 1 = 77).
Definition ordinary (arg : list Z) : Prop := no_stop arg /\ no_monitor arg.

Lemma eqb2_false x y a b : ~ (x = a /\ y = b) -> (x =? a) && (y =? b) = false.
Proof. intros. destruct (Z.eqb_spec x a), (Z.eqb_spec y b); naive_solver. Qed.
Lemma no_stop_false arg : no_stop arg -> (znth arg 0 =? 45) && (znth arg 1 =? 45) = false.
Proof. apply eqb2_false. Qed.
Lemma no_monitor_false arg : no_monitor arg -> (znth arg 0 =? 45) && (znth arg 1 =? 77) = false.
Proof. apply eqb2_false. Qed.
(** A loop that adds [l] to the vector. *)
Definition adds (a : arguments) (l : list (list Z)) (r : outcome (arguments * list (list Z))) : Prop :=
  exists a' rest, r = Ok (a', rest) /\ args_ok a' /\ newav a' = newav a ++ l.
Lemma adds_app a l1 l2 a1 r : newav a1 = newav a ++ l1 -> adds a1 l2 r -> adds a (l1 ++ l2) r.
Proof. intros E1 (a' & rest & -> & Ha & E2). exists a', rest. by rewrite E2, E1, app_assoc. Qed.
Lemma passed_cons arg l : passed (arg :: l) = (if nonempty (strip_arg arg 102 OPTION_STRING) then [strip_arg arg 102 OPTION_STRING] else []) ++ passed l.
Proof. unfold passed. cbn [map]. rewrite filter_cons. by destruct (nonempty _). Qed.
(** A turn that does not pass over an argument. *)
Lemma new_args_turn arg rest fwd env done_fwds stop a t l : one_arg arg fwd env done_fwds stop a = Ok t -> t_skip t = false -> args_ok (t_args t) ->
  adds (t_args t) l (new_args rest fwd env (t_done t) (t_stop t) (t_args t)) -> adds (t_args t) l (new_args (arg :: rest) fwd env done_fwds stop a).
Proof.
  intros E Hs Ha (a' & r & Er & Ha' & E'). cbn [new_args]. rewrite E. bsimpl. destruct rest as [|x rest].
  - cbn in Er. injection Er as <- _. by eexists _, _.
  - rewrite Hs, Er. bsimpl. by eexists _, _.
Qed.

(** An argument that is neither -- nor -M, when no forwardings are due. *)
Lemma one_arg_ordinary arg fwd env done_fwds stop a : args_ok a -> (fwd = None \/ env = false \/ done_fwds = true) ->
  (stop = true \/ ordinary arg) -> exists a', one_arg arg fwd env done_fwds stop a = Ok (Turn a' done_fwds stop (strip_arg arg 102 OPTION_STRING) false) /\
    args_ok a' /\ newav a' = newav a ++ passed [arg].
Proof.
  intros Ha Hf Ho. unfold one_arg. assert ((znth arg 0 =? 45) && (znth arg 1 =? 45) && negb stop = false) as ->.
  { destruct Ho as [->|[H _]]; [by rewrite andb_false_r|]. by rewrite no_stop_false. }
  assert (forall b, b && negb stop && (znth arg 0 =? 45) && (znth arg 1 =? 77) = false) as ->.
  { intros b. destruct Ho as [->|[_ H]]; [by rewrite andb_false_r|]. by rewrite <- andb_assoc, no_monitor_false, andb_false_r. }
  assert ((if env then (if done_fwds then None else fwd) else None) = None) as ->.
  { destruct Hf as [->|[-> | ->]]; [by destruct env, done_fwds | done | by destruct env]. }
  cbn [default add_args]. bsimpl. destruct (add_arg_ok (strip_arg arg 102 OPTION_STRING) a Ha) as (a1 & -> & Ha1 & E1). bsimpl.
  exists a1. rewrite bool_decide_eq_false_2, orb_false_r by (by intros []). split; [done|]. split; [done|]. by rewrite passed_cons, app_nil_r.
Qed.
Lemma new_args_all args fwd env done_fwds stop : (fwd = None \/ env = false \/ done_fwds = true) -> (stop = true \/ Forall ordinary args) ->
  forall rest l, (forall a1, args_ok a1 -> adds a1 l (new_args rest fwd env done_fwds stop a1)) ->
  forall a, args_ok a -> adds a (passed args ++ l) (new_args (args ++ rest) fwd env done_fwds stop a).
Proof.
  intros Hf. induction args as [|arg args IH]; intros Ho rest l Hr a Ha; [by apply Hr|].
  destruct (one_arg_ordinary arg fwd env done_fwds stop a Ha Hf) as (a1 & E & Ha1 & E1).
  { destruct Ho as [->|Ho]; [by left | right; by apply Forall_cons in Ho as [? _]]. }
  change (arg :: args) with ([arg] ++ args). unfold passed. rewrite map_app, filter_app, <- app_assoc. eapply adds_app; [exact E1|].
  eapply (new_args_turn _ _ _ _ _ _ _ _ _ E); [done..|]. apply IH; [|done..].
  destruct Ho as [->|Ho]; [by left | right; by apply Forall_cons in Ho as [_ ?]].
Qed.
(** The end of the vector: ordinary arguments, and behind a -- any. *)
Definition tail_args (args : list (list Z)) (stop : option (list Z * list (list Z))) : list (list Z) :=
  args ++ match stop with Some (dashes, more) => dashes :: more | None => [] end.
Definition dashes_of (stop : option (list Z * list (list Z))) : Prop :=
  match stop with Some (d, _) => znth d 0 = 45 /\ znth d 1 = 45 | None => True end.
Lemma new_args_tail args stop fwd env done_fwds a : (fwd = None \/ env = false \/ done_fwds = true) -> args_ok a -> Forall ordinary args -> dashes_of stop ->
  adds a (passed args ++ match stop with Some (_, more) => passed more | None => [] end) (new_args (tail_args args stop) fwd env done_fwds false a).
Proof.
  intros Hf Ha Ho Hd. unfold tail_args. apply new_args_all; [done | by right| |done]. clear a Ha. intros a Ha.
  destruct stop as [[d more]|]; [|exists a, []; by rewrite app_nil_r]. destruct Hd as [Hd1 Hd2].
  assert (one_arg d fwd env done_fwds false a = Ok (Turn a done_fwds true d false)) as E by (unfold one_arg; by rewrite Hd1, Hd2).
  apply (new_args_turn _ _ _ _ _ _ _ _ _ E); [done..|]. cbn [t_args t_done t_stop]. rewrite <- (app_nil_r more), <- (app_nil_r (passed _)).
  rewrite (app_nil_r more) at 1. apply new_args_all; [done | by left| |done]. intros a1 Ha1. exists a1, []. by rewrite app_nil_r.
Qed.

(** The option -M with its argument, in one piece or two. *)
Definition monitor_option (m port : list Z) : list (list Z) := if znth m 2 =? 0 then [m; port] else [m].
Definition monitor_args (mon : option (list Z * list Z)) : list (list Z) :=
  match mon with Some (m, port) => monitor_option m port | None => [] end.
Definition monitor_ok (mon : option (list Z * list Z)) : Prop :=
  match mon with Some (m, _) => znth m 0 = 45 /\ znth m 1 = 77 | None => True end.
Definition fwd_args (fwd : option (list (list Z))) : list (list Z) := match fwd with Some l => filter nonempty l | None => [] end.

(** -M adds the forwardings that are still due. *)
Lemma new_args_monitor m port rest fwd env done_fwds a : args_ok a -> znth m 0 = 45 -> znth m 1 = 77 -> (fwd = None \/ env = false \/ done_fwds = true) ->
  let due := if done_fwds then None else fwd in
  forall l, (forall a1, args_ok a1 -> adds a1 l (new_args rest fwd env (done_fwds || bool_decide (is_Some due)) false a1)) ->
  adds a (fwd_args due ++ l) (new_args (monitor_option m port ++ rest) fwd env done_fwds false a).
Proof.
  intros Ha H0 H1 Hf due l Hr. destruct (add_args_ok (default [] due) a Ha) as (a1 & Ea & Ha1 & E1).
  assert (newav a1 = newav a ++ fwd_args due) as E1' by (rewrite E1; by destruct due).
  assert (one_arg m fwd env done_fwds false a = Ok (Turn a1 (done_fwds || bool_decide (is_Some due)) false m (znth m 2 =? 0))) as E.
  { unfold one_arg. fold due. rewrite H0, H1.
    assert (env && bool_decide (is_Some due) = false) as ->.
    { unfold due. destruct Hf as [->|[-> | ->]]; [by destruct done_fwds; rewrite andb_false_r | done | by rewrite andb_false_r]. }
    cbn [Z.eqb Pos.eqb andb negb orb]. rewrite Ea. by bsimpl. }
  eapply adds_app; [exact E1'|]. unfold monitor_option. destruct (Z.eqb_spec (znth m 2) 0) as [H2|H2].
  - destruct (Hr a1 Ha1) as (a2 & r & Er & Ha2 & E2). cbn [app new_args]. rewrite E. bsimpl. cbn [t_skip t_done t_stop t_args]. rewrite Er. bsimpl. by eexists _, _.
  - by eapply (new_args_turn _ _ _ _ _ _ _ _ _ E), Hr.
Qed.
(** From -M, if there is one, to the end. *)
Lemma new_args_rest mon post stop fwd env done_fwds a : args_ok a -> monitor_ok mon -> Forall ordinary post -> dashes_of stop ->
  (fwd = None \/ env = false \/ done_fwds = true) ->
  adds a ((if mon then fwd_args (if done_fwds then None else fwd) else []) ++ passed post ++ match stop with Some (_, more) => passed more | None => [] end)
    (new_args (monitor_args mon ++ tail_args post stop) fwd env done_fwds false a).
Proof.
  intros Ha Hm Hpost Hstop Hf. destruct mon as [[m port]|]; [|by apply new_args_tail]. destruct Hm as [H0 H1].
  apply new_args_monitor; [done..|]. intros a1 Ha1. apply new_args_tail; [|done..].
  destruct Hf as [?|[?| ->]]; [by left | by right; left | by right; right].
Qed.
(** With the port from the environment the forwardings come in front of the first argument. *)
Lemma one_arg_env arg fwds stop a : args_ok a -> no_stop arg ->
  exists a', one_arg arg (Some fwds) true false stop a = Ok (Turn a' true stop (strip_arg arg 102 OPTION_STRING) false) /\
    args_ok a' /\ newav a' = newav a ++ fwd_args (Some fwds) ++ passed [arg].
Proof.
  intros Ha Harg. destruct (add_args_ok fwds a Ha) as (a1 & Ea1 & Ha1 & E1). destruct (add_arg_ok (strip_arg arg 102 OPTION_STRING) a1 Ha1) as (a2 & Ea2 & Ha2 & E2).
  exists a2. unfold one_arg. rewrite no_stop_false by done. rewrite bool_decide_eq_true_2 by done. cbn [andb negb from_option id].
  change (default [] (Some fwds)) with fwds. rewrite Ea1. bsimpl. rewrite Ea2. bsimpl. split; [done|]. split; [done|].
  by rewrite E2, E1, passed_cons, app_nil_r, <- app_assoc.
Qed.
Lemma passed_app l1 l2 : passed (l1 ++ l2) = passed l1 ++ passed l2.
Proof. unfold passed. by rewrite map_app, filter_app. Qed.
Lemma new_args_env pre mon post stop fwd a : args_ok a -> pre <> [] -> Forall ordinary pre -> monitor_ok mon -> Forall ordinary post -> dashes_of stop ->
  adds a (fwd_args fwd ++ passed pre ++ passed post ++ match stop with Some (_, more) => passed more | None => [] end)
    (new_args (pre ++ monitor_args mon ++ tail_args post stop) fwd true false false a).
Proof.
  intros Ha Hne Hpre Hm Hpost Hstop. set (e := match stop with Some _ => _ | None => _ end).
  assert (forall done_fwds, (fwd = None \/ done_fwds = true) -> (if mon then fwd_args (if done_fwds then None else fwd) else []) = []) as Hnil
    by (intros d [->| ->]; by destruct mon, d || destruct mon).
  destruct fwd as [fwds|].
  - destruct pre as [|x pre]; [done|]. apply Forall_cons in Hpre as [Hx Hpre]. destruct (one_arg_env x fwds false a Ha (proj1 Hx)) as (a1 & E & Ha1 & E1).
    replace (fwd_args (Some fwds) ++ passed (x :: pre) ++ passed post ++ e) with ((fwd_args (Some fwds) ++ passed [x]) ++ passed pre ++ passed post ++ e)
      by (change (x :: pre) with ([x] ++ pre); rewrite passed_app, <- !app_assoc; done).
    eapply adds_app; [exact E1|]. cbn [app]. apply (new_args_turn _ _ _ _ _ _ _ _ _ E); [done..|]. cbn [t_args t_done t_stop].
    apply new_args_all; [by right; right | by right | | done]. intros a2 Ha2.
    pose proof (new_args_rest mon post stop (Some fwds) true true a2 Ha2 Hm Hpost Hstop (or_intror (or_intror eq_refl))) as H. by rewrite Hnil in H by by right.
  - apply new_args_all; [by left | by right | | done]. intros a2 Ha2.
    pose proof (new_args_rest mon post stop None true false a2 Ha2 Hm Hpost Hstop (or_introl eq_refl)) as H. by rewrite Hnil in H by by left.
Qed.
Definition cleaned_all (l : list (list Z)) : list (list Z) := filter nonempty (map cleaned l).
Lemma passed_cleaned l : Forall (fun arg => lone_f (tail arg)) l -> passed l = cleaned_all l.
Proof. intros H. unfold passed, cleaned_all. f_equal. induction H as [|arg l Ha _ IH]; [done|]. cbn [map]. by rewrite IH, strip_arg_cleaned. Qed.

Lemma lone_f_none l : Forall (fun c => c <> 102) l -> lone_f l.
Proof.
  intros H. assert (Forall (fun c => c <> 102) (flags_of l)) as Hf.
  { rewrite (proj1 (take_while_spec (fun c => negb (bool_decide (c ∈ with_argument))) l)) in H.
    by apply Forall_app in H as [H _]. }
  split.
  - intros p r E. rewrite E in Hf. apply Forall_app in Hf as [_ Hf]. by apply Forall_cons in Hf as [? _].
  - intros E. apply last_Some_elem_of in E. rewrite Forall_forall in Hf. by apply Hf in E.
Qed.

(** With the port in the environment -M is not looked for in the first argument, which goes
    to ssh, where it means something else. *)
Theorem env_port_passes_monitor ssh arg rest fwds l : ssh <> [] -> no_stop arg -> Forall (fun s => s <> []) fwds ->
  (forall a, args_ok a -> adds a l (new_args rest (Some fwds) true true false a)) ->
  exists a r, (a ← add_arg ssh no_arguments; new_args (arg :: rest) (Some fwds) true false false a) = Ok (a, r) /\
    newav a = ssh :: fwds ++ passed [arg] ++ l.
Proof.
  intros Hssh Harg Hf Hl. destruct (add_arg_ok ssh no_arguments) as (a0 & -> & Ha0 & E0); [by split|]. bsimpl.
  destruct (add_args_ok fwds a0 Ha0) as (a1 & Ea1 & Ha1 & E1). destruct (add_arg_ok (strip_arg arg 102 OPTION_STRING) a1 Ha1) as (a2 & Ea2 & Ha2 & E2).
  assert (one_arg arg (Some fwds) true false false a0 = Ok (Turn a2 true false (strip_arg arg 102 OPTION_STRING) false)) as E.
  { unfold one_arg. rewrite no_stop_false by done. rewrite bool_decide_eq_true_2 by done. cbn [andb negb from_option id]. change (default [] (Some fwds)) with fwds. rewrite Ea1. bsimpl. rewrite Ea2. by bsimpl. }
  destruct (new_args_turn _ rest _ _ _ _ _ _ l E eq_refl Ha2 (Hl a2 Ha2)) as (a3 & r & -> & _ & E3). cbn [t_args] in E3.
  exists a3, r. split; [done|]. rewrite E3, E2, E1, E0. unfold nonempty at 1. rewrite bool_decide_eq_false_2 by done. cbn [newav no_arguments app].
  assert (filter nonempty fwds = fwds) as ->.
  { clear - Hf. induction Hf as [|s fwds Hs _ IH]; [done|]. rewrite filter_cons, IH. unfold nonempty. by rewrite bool_decide_eq_false_2. }
  by rewrite passed_cons, app_nil_r, <- !app_assoc.
Qed.

(** Whatever the command line, there is room. *)
Lemma one_arg_total arg fwd env done_fwds stop a : args_ok a -> exists t, one_arg arg fwd env done_fwds stop a = Ok t /\ args_ok (t_args t).
Proof.
  intros Ha. unfold one_arg. destruct (_ && negb stop); [by eexists|].
  destruct (_ && (znth arg 1 =? 77)).
  - destruct (add_args_ok (default [] (if done_fwds then None else fwd)) a Ha) as (a1 & -> & Ha1 & _). bsimpl. by eexists.
  - destruct (add_args_ok (default [] (if env then if done_fwds then None else fwd else None)) a Ha) as (a1 & -> & Ha1 & _). bsimpl.
    destruct (add_arg_ok (strip_arg arg 102 OPTION_STRING) a1 Ha1) as (a2 & -> & Ha2 & _). bsimpl. by eexists.
Qed.
Lemma new_args_total argv : forall fwd env done_fwds stop a, args_ok a -> exists a' rest, new_args argv fwd env done_fwds stop a = Ok (a', rest) /\ args_ok a'.
Proof.
  induction argv as [argv IH] using (well_founded_induction (Wf_nat.well_founded_ltof _ length)). unfold Wf_nat.ltof in IH.
  intros fwd env done_fwds stop a Ha. destruct argv as [|arg rest]; [by eexists _, _|]. cbn [new_args].
  destruct (one_arg_total arg fwd env done_fwds stop a Ha) as (t & -> & Ht). bsimpl. destruct rest as [|x rest]; [by eexists _, _|].
  destruct (t_skip t).
  - destruct (IH rest ltac:(cbn; lia) fwd env (t_done t) (t_stop t) _ Ht) as (a' & r & -> & Ha'). bsimpl. by eexists _, _.
  - destruct (IH (x :: rest) ltac:(cbn; lia) fwd env (t_done t) (t_stop t) _ Ht) as (a' & r & -> & Ha'). bsimpl. by eexists _, _.
Qed.

(** The letter behind a stripped one is not looked at: a second f stays, and if it is an
    option that takes an argument, the argument is stripped too; -M in a cluster, which getopt
    understands, is not found again: it goes to ssh, and nothing is forwarded. *)
Example strip_double : strip_arg (str "-ff") 102 OPTION_STRING = str "-f" /\ strip_arg (str "-fNf") 102 OPTION_STRING = str "-N" /\
  strip_arg (str "-fLfirst:22") 102 OPTION_STRING = str "-Lirst:22".
Proof. by vm_compute. Qed.
Example monitor_in_cluster :
  (r ← new_args (map str ["-fM"; "20000"; "host"]) (Some (forwards (str "20000:127.0.0.1:20000") None)) false false false no_arguments; Ok (newav r.1))
    = Ok (map str ["-M"; "20000"; "host"]).
Proof. by vm_compute. Qed.
(** With AUTOSSH_PORT the first argument is not looked at. *)
Example monitor_with_env :
  (r ← new_args (map str ["-M"; "20000"; "host"]) (Some (forwards (str "30000:127.0.0.1:30000") None)) true false false no_arguments; Ok (newav r.1))
    = Ok (map str ["-L"; "30000:127.0.0.1:30000"; "-M"; "20000"; "host"]).
Proof. by vm_compute. Qed.
