(* ===== verification/AutosshRun.v ===== *)
(** * autossh as a supervisor

    [supervises] is what the program promises about processes: it never has two children,
    starts them as often as it may, stops those it stops by a signal it waits for, starts no
    other one when it was told to exit in [pause] or the last one ended for good, and does not leave
    one behind.  [supervise] is the same as a function. *)

From ITree Require Import Core.ITreeDefinition.
From S2P Require Import Prelude CLib CFormat Interact Autossh AutosshArgs.

(** ** The promise *)

Inductive phase : Type :=
| Idle                            (* no child *)
| Running (pid : Z)
| Doomed (pid : Z)                (* told to exit, the child still runs *)
| Stopping (pid : Z) (last : bool)
| Over                            (* no child, and none to come *)
| Child.                          (* the other side of fork *)
Record sup : Type := Sup { ph : phase; starts : Z }.

(** Signals that make autossh exit, and ends of a child after which there may be another. *)
Definition exit_signal (sig : Z) : bool := (sig =? SIGINT) || (sig =? SIGTERM) || (sig =? SIGQUIT) || (sig =? SIGABRT).
Definition restartable (gate starts : Z) (e : ended) : bool :=
  match e with
  | Signaled sig => negb ((sig =? SIGINT) || (sig =? SIGTERM) || (sig =? SIGKILL))
  | Exited code => (code =? 255) || ((code =? 1) && ((1 <? starts) || (gate =? 0)))
  end.
(** Calls that are not about processes. *)
Definition neutral {X} (e : sysE X) : bool :=
  match e with Pause | Fork | Execvp _ | Waitpid _ _ | Kill _ _ => false | _ => true end.
Definition is_unlink {X} (e : sysE X) : bool := match e with Unlink _ => true | _ => false end.

Section Promise.
Context (max gate : Z).

Definition may_start (n : Z) : bool := (max <? 0) || (n <? max).

Inductive supervises : sup -> event sysE -> sup -> Prop :=
| sup_fork n pid : may_start n = true -> 0 < pid -> supervises (Sup Idle n) (Ev Fork pid) (Sup (Running pid) (n + 1))
| sup_fork_child n : may_start n = true -> supervises (Sup Idle n) (Ev Fork 0) (Sup Child (n + 1))
| sup_fork_fails n pid : may_start n = true -> pid < 0 -> supervises (Sup Idle n) (Ev Fork pid) (Sup Idle (n + 1))
| sup_exec n av : supervises (Sup Child n) (Ev (Execvp av) ()) (Sup Child n)
| sup_runs pid n w : (forall e, w <> Reaped e) -> supervises (Sup (Running pid) n) (Ev (Waitpid pid true) w) (Sup (Running pid) n)
| sup_ended pid n e :
    supervises (Sup (Running pid) n) (Ev (Waitpid pid true) (Reaped e)) (Sup (if restartable gate n e then Idle else Over) n)
| sup_signal pid n sig : supervises (Sup (Running pid) n) (Ev Pause sig) (Sup (if exit_signal sig then Doomed pid else Running pid) n)
| sup_kill pid n : supervises (Sup (Running pid) n) (Ev (Kill pid SIGTERM) ()) (Sup (Stopping pid false) n)
| sup_kill_doomed pid n : supervises (Sup (Doomed pid) n) (Ev (Kill pid SIGTERM) ()) (Sup (Stopping pid true) n)
| sup_stopping pid last n :
    supervises (Sup (Stopping pid last) n) (Ev (Waitpid pid false) (WaitFailed EINTR)) (Sup (Stopping pid last) n)
| sup_stopped pid last n w : w <> WaitFailed EINTR ->
    supervises (Sup (Stopping pid last) n) (Ev (Waitpid pid false) w) (Sup (if last then Over else Idle) n)
| sup_neutral g X (e : sysE X) x : neutral e = true -> match ph g with Idle | Over | Running _ => True | Child => is_unlink e = true | _ => False end ->
    supervises g (Ev e x) g.

Definition supervise (g : sup) (X : Type) (e : sysE X) : X -> option sup :=
  let n := starts g in
  match e in sysE X return X -> option sup with
  | Fork => fun pid =>
      match ph g with
      | Idle => if may_start n then Some (Sup (if 0 <? pid then Running pid else if pid =? 0 then Child else Idle) (n + 1)) else None
      | _ => None
      end
  | Execvp _ => fun _ => match ph g with Child => Some g | _ => None end
  | Waitpid pid nohang => fun w =>
      match ph g, nohang with
      | Running p, true =>
          if pid =? p then Some match w with Reaped e => Sup (if restartable gate n e then Idle else Over) n | _ => g end else None
      | Stopping p last, false =>
          if pid =? p then
            Some match w with
                 | WaitFailed errno => if errno =? EINTR then g else Sup (if last then Over else Idle) n
                 | _ => Sup (if last then Over else Idle) n
                 end
          else None
      | _, _ => None
      end
  | Pause => fun sig => match ph g with Running p => Some (Sup (if exit_signal sig then Doomed p else Running p) n) | _ => None end
  | Kill pid sig => fun _ =>
      match ph g with
      | Running p => if (pid =? p) && (sig =? SIGTERM) then Some (Sup (Stopping p false) n) else None
      | Doomed p => if (pid =? p) && (sig =? SIGTERM) then Some (Sup (Stopping p true) n) else None
      | _ => None
      end
  | Unlink _ => fun _ => match ph g with Idle | Over | Running _ | Child => Some g | _ => None end
  | _ => fun _ => match ph g with Idle | Over | Running _ => Some g | _ => None end
  end.
Definition next (g : sup) (ev : event sysE) (g' : sup) : Prop := supervise g _ (ev_call _ ev) (ev_answer _ ev) = Some g'.

Lemma next_det g ev g1 g2 : next g ev g1 -> next g ev g2 -> g1 = g2.
Proof. unfold next. congruence. Qed.
Lemma next_supervises g ev g' : next g ev g' -> supervises g ev g'.
Proof.
  unfold next. destruct ev as [X e x], g as [p n]. cbn [ev_call ev_answer ev_type ph starts].
  destruct e; cbn [supervise ph starts]; try (destruct p; intros [= <-]; by apply sup_neutral).
  - destruct p; [done| |done..]. intros [= <-]. apply sup_signal.
  - destruct p; [|done..]. destruct (may_start n) eqn:Hm; [|done]. intros [= <-]. destruct (Z.ltb_spec 0 x); [by apply sup_fork|].
    destruct (Z.eqb_spec x 0) as [->|]; [by apply sup_fork_child|]. apply sup_fork_fails; [done | lia].
  - destruct x. destruct p; try done. intros [= <-]. apply sup_exec.
  - destruct p as [|q|q|q last| |], nohang; try done.
    + destruct (Z.eqb_spec pid q) as [->|]; [|done]. intros [= <-]. destruct x; [apply sup_ended | by apply sup_runs..].
    + destruct (Z.eqb_spec pid q) as [->|]; [|done]. intros [= <-]. destruct x as [| |errno]; try by apply sup_stopped.
      destruct (Z.eqb_spec errno EINTR) as [->|]; [apply sup_stopping|]. apply sup_stopped. congruence.
  - destruct x. destruct p; try done; destruct (Z.eqb_spec pid pid0) as [->|]; try done; destruct (Z.eqb_spec sig SIGTERM) as [->|]; try done;
      intros [= <-]; constructor.
Qed.
Lemma path_supervises g tr g' : path next g tr g' -> path supervises g tr g'.
Proof. induction 1; [constructor|]. econstructor; [by apply next_supervises | done]. Qed.

(** When the program stops no child is left behind. *)
Definition stopped (c : Z) (g : sup) : Prop :=
  match ph g with Idle | Over => c = 0 \/ c = 1 | Child => c = 1 | _ => False end.
(** Nothing is undefined but numbers that have grown too large. *)
Definition broken (w : undefined) (g : sup) : Prop := w = Overflow.
Abbreviation holds m s g Q := (hoare (S := state) legal next stopped broken m s g Q).

(** ** The functions *)

Lemma call_neutral {X} (e : sysE X) s g Q : neutral e = true -> match ph g with Idle | Over | Running _ => True | Child => is_unlink e = true | _ => False end ->
  (forall x, legal _ e x -> Q x s g) -> holds (call e) s g Q.
Proof.
  intros He Hg HQ. apply hoare_call. intros x Hx. exists g. split; [|by apply HQ]. unfold next. cbn [ev_call ev_answer ev_type].
  destruct g as [p n]. cbn [ph] in Hg. destruct e; try done; destruct p; done.
Qed.

(** What the supervision depends on stays. *)
Definition kept (s s' : state) : Prop := cchild s' = cchild s /\ start_count s' = start_count s /\ dolongjmp s' = dolongjmp s.
Lemma kept_refl s : kept s s.
Proof. done. Qed.
Lemma kept_trans s1 s2 s3 : kept s1 s2 -> kept s2 s3 -> kept s1 s3.
Proof. unfold kept. intros (-> & -> & ->) (-> & -> & ->). done. Qed.

(** There is no child to stop, or it is the one that runs. *)
Definition in_charge (s : state) (g : sup) : Prop :=
  match ph g with Idle | Child => cchild s = 0 | Running pid => cchild s = pid /\ 0 < pid | _ => False end.
Lemma in_charge_kept s s' g : kept s s' -> in_charge s g -> in_charge s' g.
Proof. unfold in_charge. by intros (-> & _ & _). Qed.
(** Code that leaves the child and these variables alone. *)
Definition quiet {A} (m : M A) : Prop := forall s g Q, in_charge s g -> ph g <> Child -> (forall a s', kept s s' -> Q a s' g) -> holds m s g Q.

Lemma ssh_kill_ok (last : bool) pid n s Q : cchild s = pid -> 0 < pid -> Q () s (Sup (if last then Over else Idle) n) ->
  holds ssh_kill s (Sup (if last then Doomed pid else Running pid) n) Q.
Proof.
  intros Hc Hp HQ. unfold ssh_kill. apply hoare_bind, hoare_get. rewrite Hc, (proj2 (Z.eqb_neq pid 0)) by lia.
  apply hoare_bind, hoare_call. intros [] _. exists (Sup (Stopping pid last) n). split; [destruct last; unfold next; cbn; by rewrite Z.eqb_refl|].
  apply (hoare_loop _ _ _ _ _ (fun _ s' g => s' = s /\ g = Sup (Stopping pid last) n)); [|done].
  intros [] s' g [-> ->]. apply hoare_bind, hoare_call. intros w _. unfold next. cbn. rewrite Z.eqb_refl.
  destruct w as [e| |errno]; [eexists; split; [done|]; by apply hoare_ret..|].
  destruct (errno =? EINTR); (eexists; split; [done|]; by apply hoare_ret).
Qed.
Lemma unlink_ok s g Q : match ph g with Idle | Over | Running _ | Child => True | _ => False end ->
  Q () (set_pid_file (pid_file_name s) false s) g -> holds unlink_pid_file s g Q.
Proof.
  intros Hg HQ. unfold unlink_pid_file. apply hoare_bind, hoare_get, hoare_bind, hoare_get, hoare_bind.
  assert (holds (modify (set_pid_file (pid_file_name s) false)) s g Q) as H by by apply hoare_modify.
  destruct (pid_file_name s) as [f|]; [destruct (pid_file_created s)|]; [|by apply hoare_ret..].
  apply call_neutral; [done | by destruct (ph g)|done].
Qed.
Lemma xerrlog_ok {A} s g (Q : A -> state -> sup -> Prop) : in_charge s g -> holds xerrlog s g Q.
Proof.
  intros H. destruct g as [p n]. unfold xerrlog. apply hoare_bind. assert (forall p, match p with Idle | Child => True | _ => False end ->
    holds (unlink_pid_file;; stop 1) s (Sup p n) Q) as Hend.
  { intros q Hq. apply hoare_bind, unlink_ok; [by destruct q|]. apply hoare_stop. unfold stopped. cbn. destruct q; try done; by right. }
  unfold in_charge in H. cbn [ph] in H. destruct p; try done.
  - unfold ssh_kill. apply hoare_bind, hoare_get. rewrite H. apply hoare_ret. by apply Hend.
  - destruct H. apply (ssh_kill_ok false); [done..|]. by apply Hend.
  - unfold ssh_kill. apply hoare_bind, hoare_get. rewrite H. apply hoare_ret. by apply Hend.
Qed.

(** Quiet pieces make quiet programs. *)
Lemma quiet_ret {A} (a : A) : quiet (mret a).
Proof. intros s g Q _ _ HQ. apply hoare_ret, HQ, kept_refl. Qed.
Lemma quiet_get {A} (f : state -> A) : quiet (get f).
Proof. intros s g Q _ _ HQ. apply hoare_get, HQ, kept_refl. Qed.
Lemma quiet_call {X} (e : sysE X) : neutral e = true -> quiet (call e).
Proof.
  intros He s g Q Hc Hch HQ. apply call_neutral; [done| |intros; apply HQ, kept_refl]. unfold in_charge in Hc. by destruct (ph g).
Qed.
Lemma quiet_bind {A B} (m : M A) (f : A -> M B) : quiet m -> (forall a, quiet (f a)) -> quiet (m ≫= f).
Proof.
  intros Hm Hf s g Q Hc Hch HQ. apply hoare_bind. apply Hm; [done..|]. intros a s' Hs'. apply Hf; [by eapply in_charge_kept | done|].
  intros b s'' Hs''. apply HQ. by eapply kept_trans.
Qed.
Lemma quiet_loop {I A} (body : I -> M (I + A)) i : (forall i, quiet (body i)) -> quiet (loop body i).
Proof.
  intros Hb s g Q Hc Hch HQ. apply (hoare_loop _ _ _ _ _ (fun _ s' g' => g' = g /\ kept s s')); [|by auto using kept_refl].
  intros j s' g' [-> Hs']. apply Hb; [by eapply in_charge_kept | done|]. intros [j'|a] s'' Hs''; [|apply HQ]; eauto using kept_trans.
Qed.
Lemma quiet_xerrlog {A} : quiet (@xerrlog A).
Proof. intros s g Q Hc _ _. by apply xerrlog_ok. Qed.
Lemma quiet_must b : quiet (must b).
Proof. destruct b; [apply quiet_ret | apply quiet_xerrlog]. Qed.
Lemma quiet_modify f : (forall s, kept s (f s)) -> quiet (modify f).
Proof. intros Hf s g Q _ _ HQ. by apply hoare_modify, HQ. Qed.
Create HintDb quiet discriminated.
#[local] Hint Resolve quiet_ret quiet_get quiet_bind quiet_loop quiet_xerrlog quiet_must : quiet.
#[local] Hint Extern 1 (quiet (modify _)) => (apply quiet_modify; done) : quiet.
#[local] Hint Extern 1 (quiet (call _)) => (apply quiet_call; reflexivity) : quiet.
Lemma quiet_overflow {A} : quiet (@break sysE state A Overflow).
Proof. intros s g Q _ _ _. by apply hoare_break. Qed.
#[local] Hint Resolve quiet_overflow : quiet.
(** Take a program apart along its sequences, loops and branches. *)
Ltac quiet := repeat first
  [ match goal with
    | |- forall _, _ => intro
    | |- quiet (loop _ _) => apply quiet_loop
    | |- quiet (_ ≫= _) => apply quiet_bind
    | |- quiet (call _) => apply quiet_call; reflexivity
    | |- quiet (if ?b then _ else _) => destruct b
    | |- quiet (match ?x with _ => _ end) => destruct x
    | |- quiet (let '(_, _) := ?x in _) => destruct x
    end
  | solve [auto with quiet] ].
(** A quiet piece in front. *)
Lemma quiet_then {A B} (m : M A) (f : A -> M B) s g Q : quiet m -> in_charge s g -> ph g <> Child ->
  (forall a s', in_charge s' g -> kept s s' -> holds (f a) s' g Q) -> holds (m ≫= f) s g Q.
Proof. intros Hm Hc Hch HQ. apply hoare_bind, Hm; [done..|]. intros a s' Hs'. apply HQ; [by eapply in_charge_kept | done]. Qed.

Lemma conn_addr_quiet host port : quiet (conn_addr host port).
Proof. unfold conn_addr. quiet. Qed.
#[local] Hint Resolve conn_addr_quiet : quiet.
Lemma conn_remote_quiet host port : quiet (conn_remote host port).
Proof. unfold conn_remote. quiet. Qed.
Lemma conn_listen_quiet host port : quiet (conn_listen host port).
Proof. unfold conn_listen. quiet. Qed.
Lemma conn_send_and_receive_quiet v wp pfd : quiet (conn_send_and_receive v wp pfd).
Proof. unfold conn_send_and_receive, exchange, send, receive. quiet. Qed.
#[local] Hint Resolve conn_remote_quiet conn_send_and_receive_quiet : quiet.
Lemma conn_test_quiet size v sock host port : quiet (conn_test size v sock host port).
Proof. unfold conn_test, conn_poll_for_accept. quiet. Qed.
Lemma exceeded_lifetime_quiet v : quiet (exceeded_lifetime v).
Proof. unfold exceeded_lifetime. quiet. Qed.
#[local] Hint Resolve conn_listen_quiet conn_test_quiet exceeded_lifetime_quiet : quiet.

(** What a verdict means for the child that was watched. *)
Definition watched (r : verdict) (n : Z) (g : sup) : Prop :=
  match r with P_CONTINUE => False | P_RESTART => g = Sup Idle n | P_EXIT => g = Sup Idle n \/ g = Sup Over n end.
(** The child runs, and no jump is prepared. *)
Definition watching (pid n : Z) (s : state) (g : sup) : Prop :=
  g = Sup (Running pid) n /\ cchild s = pid /\ 0 < pid /\ start_count s = n /\ dolongjmp s = false.
(** Nothing is watched. *)
Definition settled (n : Z) (s : state) : Prop := start_count s = n /\ dolongjmp s = false.

Lemma watching_kept pid n s s' g : kept s s' -> watching pid n s g -> watching pid n s' g.
Proof. unfold watching. by intros (-> & -> & ->). Qed.
Lemma watching_settled pid n s g : watching pid n s g -> settled n s.
Proof. by intros (_ & _ & _ & ? & ?). Qed.
Lemma watching_quiet {A} (m : M A) pid n s g Q : quiet m -> watching pid n s g -> (forall a s', watching pid n s' g -> Q a s' g) -> holds m s g Q.
Proof.
  intros Hm Hw HQ. apply Hm.
  - destruct Hw as (-> & ? & ? & _). done.
  - by destruct Hw as (-> & _).
  - intros a s' Hs'. apply HQ. by eapply watching_kept.
Qed.
Lemma watching_kill pid n s g Q : watching pid n s g -> (settled n s -> Q () s (Sup Idle n)) -> holds ssh_kill s g Q.
Proof. intros (-> & ? & ? & ? & ?) HQ. by apply (ssh_kill_ok false), HQ. Qed.

Lemma verdict_restarts v n quick e : gate_time v = gate -> verdict_of v n quick e = P_RESTART -> restartable gate n e = true.
Proof.
  intros <-. destruct e as [sig|code]; cbn [verdict_of restartable].
  - by destruct (_ || _).
  - destruct quick; [done|]. destruct (code =? 255); [done|]. by destruct (_ && _).
Qed.
Lemma verdict_watched v n quick e : gate_time v = gate -> watched (verdict_of v n quick e) n (Sup (if restartable gate n e then Idle else Over) n).
Proof.
  intros Hg. destruct (verdict_of v n quick e) eqn:Ev; cbn.
  - destruct e; cbn [verdict_of] in Ev; by repeat case_match.
  - by rewrite (verdict_restarts v n quick e Hg Ev).
  - destruct (restartable gate n e); auto.
Qed.
Lemma ssh_wait_ok v pid n s g Q : gate_time v = gate -> watching pid n s g -> Q P_CONTINUE s g ->
  (forall r g', watched r n g' -> Q r s g') -> holds (ssh_wait v true) s g Q.
Proof.
  intros Hgate (-> & Hc & Hp & Hn & Hj) H0 HQ. unfold ssh_wait. apply hoare_bind, hoare_get, hoare_bind, hoare_call. intros w _.
  unfold next. cbn. rewrite Hc, Z.eqb_refl. destruct w as [e| |errno]; (eexists; split; [done|]); [|by apply hoare_ret..].
  apply hoare_bind, hoare_get, hoare_bind, hoare_get, hoare_bind. rewrite Hn.
  set (g' := Sup _ n).
  assert (forall b, holds (mret (verdict_of v n b e)) s g' Q) as Hend by (intros b; by apply hoare_ret, HQ, verdict_watched).
  destruct e as [sig|code]; [by apply hoare_ret|]. destruct (_ && _); [|by apply hoare_ret].
  apply hoare_bind, call_neutral; [done|unfold g'; cbn; by destruct (_ || _)|]. intros now _. by apply hoare_ret.
Qed.
Lemma handle_ok size v sock pid n s g sig Q : watching pid n s (Sup (Running pid) n) ->
  g = Sup (if exit_signal sig then Doomed pid else Running pid) n ->
  (forall s', watching pid n s' (Sup (Running pid) n) -> Q P_CONTINUE s' (Sup (Running pid) n)) ->
  (forall r s' g', settled n s' -> watched r n g' -> Q r s' g') -> holds (handle size v sock sig) s g Q.
Proof.
  intros Hw -> HC HQ. unfold handle. fold (exit_signal sig). destruct (exit_signal sig) eqn:Ex.
  - destruct Hw as (_ & Hc & Hp & Hn & Hj). apply hoare_bind, (ssh_kill_ok true); [done..|]. apply hoare_ret, HQ; [done | by right].
  - destruct (sig =? SIGALRM); [|by apply hoare_ret, HC]. apply hoare_bind, (watching_quiet _ pid n); [auto with quiet | done|].
    intros over s1 H1. destruct over.
    { apply hoare_bind, (watching_kill pid n); [done|]. intros Hs. apply hoare_ret, HQ; [done | by left]. }
    destruct (writep v) as [port|]; [|by apply hoare_ret, HC]. destruct (sock =? -1); [by apply hoare_ret, HC|].
    apply hoare_bind, (watching_quiet _ pid n); [auto with quiet | done|]. intros ok s2 H2. destruct ok; [by apply hoare_ret, HC|].
    apply hoare_bind, (watching_kill pid n); [done|]. intros Hs. by apply hoare_ret, HQ.
Qed.
Lemma sig_catch_ok sig s g (Q : bool -> state -> sup -> Prop) :
  (forall r, Q (dolongjmp s) (set_signals r false s) g) -> holds (sig_catch sig) s g Q.
Proof.
  intros HQ. unfold sig_catch. by apply hoare_bind, hoare_get, hoare_bind, hoare_get, hoare_bind, hoare_modify, hoare_ret.
Qed.
Lemma catch_ok pid n sigs : forall s g (Q : () -> state -> sup -> Prop), watching pid n s g -> (forall s', watching pid n s' g -> Q () s' g) -> holds (catch sigs) s g Q.
Proof.
  induction sigs as [|sig sigs IH]; intros s g Q Hw HQ; cbn [catch]; [by apply hoare_ret, HQ|].
  apply hoare_bind, sig_catch_ok. intros r. destruct Hw as (Hg & Hc & Hp & Hn & ->). by apply IH.
Qed.
Lemma watch_ok size v sock poll pid n s g Q : gate_time v = gate -> watching pid n s g ->
  (forall s', watching pid n s' g -> forall p, Q (inl p) s' g) ->
  (forall r s' g', settled n s' -> watched r n g' -> Q (inr r) s' g') -> holds (watch size v sock poll) s g Q.
Proof.
  intros Hgate Hw HC HQ. unfold watch. apply hoare_bind, (watching_quiet _ pid n); [auto with quiet | done|]. intros sigs s1 Hw1.
  apply hoare_bind, (catch_ok pid n); [done|]. intros s2 Hw2. apply hoare_bind, hoare_get. destruct (restart_ssh s2).
  { apply hoare_bind, (watching_kill pid n); [done|]. intros. by apply hoare_ret, HQ. }
  apply hoare_bind, (ssh_wait_ok v pid n); [done..| |].
  2:{ intros r g' Hr. destruct r; [done|..]; apply hoare_ret, HQ; (by apply (watching_settled pid n) in Hw2) || done. }
  cbn [bool_decide negb]. rewrite (bool_decide_eq_true_2 (P_CONTINUE = P_CONTINUE)) by done. cbn [negb].
  apply hoare_bind, (watching_quiet _ pid n); [auto with quiet | done|]. intros left_ s3 Hw3.
  apply hoare_bind, hoare_modify. set (s4 := set_secs_left _ s3). assert (watching pid n s4 g) as Hw4 by done. clearbody s4.
  apply hoare_bind. match goal with |- holds _ _ _ ?Q' => assert (forall s', watching pid n s' g -> Q' () s' g) as Hrest end.
  { intros s5 Hw5. apply hoare_bind, hoare_get, hoare_bind, (watching_quiet _ pid n); [auto with quiet | done|]. intros _ s6 Hw6.
    apply hoare_bind, hoare_get, hoare_bind, hoare_modify, hoare_bind, hoare_call. intros sig _.
    destruct Hw6 as (-> & Hc & Hp & Hn & Hj). eexists; split; [unfold next; cbn; reflexivity|]. apply hoare_bind, sig_catch_ok. intros r.
    apply hoare_bind, (handle_ok size v sock pid n); [done | done|intros s7 Hw7; by apply hoare_ret, HC|].
    intros x s7 g' Hs Hx. destruct x; [done|..]; by apply hoare_ret, HQ. }
  destruct (negb _); [|by apply hoare_ret, Hrest]. apply hoare_bind, (watching_quiet _ pid n); [auto with quiet | done|]. intros now s5 Hw5.
  destruct (_ <? _); [|by apply hoare_ret, Hrest]. apply hoare_bind. unfold to_int. destruct (_ && _); [|by apply hoare_break].
  apply hoare_ret, hoare_modify. by apply Hrest.
Qed.
Lemma ssh_watch_ok size v sock pid n s g Q : gate_time v = gate -> watching pid n s g ->
  (forall r s' g', settled n s' -> watched r n g' -> Q r s' g') -> holds (ssh_watch size v sock) s g Q.
Proof.
  intros Hgate Hw HQ. unfold ssh_watch. apply (hoare_loop _ _ _ _ _ (fun _ s' g' => watching pid n s' g')); [|done].
  intros poll s' g' Hw'. apply (watch_ok size v sock poll pid n); [done | done | by auto | done].
Qed.
(** Between children. *)
Lemma grace_time_ok v last n s Q : dolongjmp s = false -> start_count s = n -> (forall s', settled n s' -> Q () s' (Sup Idle (n - 1))) ->
  holds (grace_time v last) s (Sup Idle (n - 1)) Q.
Proof.
  intros Hj Hn HQ. unfold grace_time. apply hoare_bind, call_neutral; [done..|]. intros now _. apply hoare_bind, hoare_get, hoare_bind.
  match goal with |- holds _ _ _ ?Q' => assert (forall k, Q' () (set_tries k s) (Sup Idle (n - 1))) as Hrest end.
  { intros k. apply hoare_bind, hoare_get. destruct (5 <? _); [|by apply hoare_ret, HQ]. destruct (grace_secs _ _) as [m|]; [|by apply hoare_break].
    destruct (_ && _); [|by apply hoare_break]. cbv zeta. destruct (negb _); [|by apply hoare_ret, HQ]. by apply call_neutral; [..|intros []; intros; apply HQ]. }
  destruct (_ <=? _); [by apply hoare_modify|]. destruct (_ <? 2 ^ 31); [by apply hoare_modify | by apply hoare_break].
Qed.
Lemma exceeded_ok v n s (Q : bool -> state -> sup -> Prop) : (forall b, Q b s (Sup Idle n)) -> holds (exceeded_lifetime v) s (Sup Idle n) Q.
Proof.
  intros HQ. unfold exceeded_lifetime. destruct (0 <? _); [|apply hoare_ret, HQ]. apply hoare_bind, call_neutral; [done..|].
  intros now _. apply hoare_ret, HQ.
Qed.
(** The loop that starts ssh ends with nothing running, or in the child, which ends itself. *)
Lemma start_ok size v sock av n s Q : gate_time v = gate -> max_start v = max -> settled n s ->
  (forall s', settled (n + 1) s' -> Q (inl ()) s' (Sup Idle (n + 1))) ->
  (forall s' p n', match p with Idle | Over => True | _ => False end -> Q (inr ()) s' (Sup p n')) ->
  holds (start size v sock av) s (Sup Idle n) Q.
Proof.
  intros Hgate Hmax [Hn Hj] HC HQ. unfold start. apply hoare_bind, hoare_get. rewrite Hmax, Hn. fold (may_start n).
  destruct (may_start n) eqn:Hm; cbn [negb]; [|by apply hoare_ret, HQ]. apply hoare_bind, exceeded_ok. intros over. destruct over; [by apply hoare_ret, HQ|]. apply hoare_bind, hoare_get, hoare_bind, hoare_modify.
  destruct (n + 1 <? 2 ^ 31); cbn [negb]; [|by apply hoare_break]. apply hoare_bind, hoare_get, hoare_bind, hoare_modify, hoare_bind.
  replace (Sup Idle n) with (Sup Idle (n + 1 - 1)) by (f_equal; lia). apply grace_time_ok; [done..|]. intros s1 [Hn1 Hj1].
  apply hoare_bind, call_neutral; [done..|]. intros now _. apply hoare_bind, hoare_modify, hoare_bind, hoare_call. intros pid Hpid. cbn in Hpid.
  unfold next. cbn. replace (n + 1 - 1) with n by lia. rewrite Hm. eexists; split; [done|]. apply hoare_bind, hoare_modify, hoare_bind.
  destruct (Z.eqb_spec pid 0) as [->|]; [|destruct (Z.eqb_spec pid (-1)) as [->|]].
  - unfold child. apply hoare_bind, hoare_call. intros [] _. eexists; split; [done|]. by apply xerrlog_ok.
  - apply hoare_bind, hoare_modify. by apply xerrlog_ok.
  - rewrite (proj2 (Z.ltb_lt 0 pid)) by lia. apply (ssh_watch_ok size v sock pid (n + 1)); [done | by split_and!; try done; lia|].
    intros r s' g' Hs Hr. apply hoare_ret. destruct r; cbn in Hr; [done | subst g'; by apply HC|]. destruct Hr as [-> | ->]; by apply HQ.
Qed.
Lemma ssh_run_ok size v sock av s Q : gate_time v = gate -> max_start v = max -> settled 0 s ->
  (forall s' p n, match p with Idle | Over => True | _ => False end -> Q () s' (Sup p n)) ->
  holds (ssh_run size v sock av) s (Sup Idle 0) Q.
Proof.
  intros Hgate Hmax Hs HQ. unfold ssh_run. do 9 (apply hoare_bind, call_neutral; [done..|intros ? _]).
  apply hoare_bind, call_neutral; [done..|]. intros [] _.
  apply (hoare_loop _ _ _ _ _ (fun _ s' g' => exists n, settled n s' /\ g' = Sup Idle n)); [|by exists 0].
  intros i s' g' (n & Hn & ->). apply (start_ok size v sock av n); [done..| |done]. intros s'' Hs''. by exists (n + 1).
Qed.

(** ** The whole program *)

Section Environment.
Context (getenv : list Z -> option (list Z)).

(** What a variable of the environment sets. *)
Definition env_value (name : list Z) (default : Z) (parse : list Z -> Z * list Z) : Z :=
  match getenv name with Some s => fst (parse s) | None => default end.
Definition env_max_start : Z := env_value (str "AUTOSSH_MAXSTART") MAX_START long_int.
Definition env_gate_time : Z := env_value (str "AUTOSSH_GATETIME") GATE_TIME long_double.

Lemma env_int_quiet name d parse bad : quiet (env_int getenv name d parse bad).
Proof. unfold env_int. quiet. Qed.
#[local] Hint Resolve env_int_quiet : quiet.
Lemma env_int_ok name d parse bad s g Q : in_charge s g -> ph g <> Child -> (forall s', kept s s' -> Q (env_value name d parse) s' g) ->
  holds (env_int getenv name d parse bad) s g Q.
Proof.
  intros Hc Hch HQ. unfold env_int, env_value in *. destruct (getenv name) as [t|]; [|by apply hoare_ret, HQ].
  destruct (parse t) as [v rest]. apply hoare_bind, quiet_must; [done..|]. intros [] s' Hs'. by apply hoare_ret, HQ.
Qed.
Lemma get_env_args_ok program s g Q : in_charge s g -> ph g <> Child ->
  (forall v s', gate_time v = env_gate_time -> max_start v = env_max_start -> kept s s' -> Q v s' g) -> holds (get_env_args getenv program) s g Q.
Proof.
  intros Hc Hch HQ. unfold get_env_args. cbv zeta.
  apply quiet_then; [quiet | done..|]. intros level s1 Hc1 Hk1. apply quiet_then; [auto with quiet | done..|]. intros first s2 Hc2 Hk2.
  apply quiet_then; [auto with quiet | done..|]. intros poll s3 Hc3 Hk3.
  apply hoare_bind, env_int_ok; [done..|]. intros s4 Hk4. apply hoare_bind, env_int_ok; [by eapply in_charge_kept|done|]. intros s5 Hk5.
  fold env_gate_time env_max_start. assert (in_charge s5 g) as Hc5 by (eapply in_charge_kept; [exact Hk5|]; by eapply in_charge_kept).
  apply quiet_then; [auto with quiet | done..|]. intros _ s6 Hc6 Hk6. apply quiet_then; [auto with quiet | done..|]. intros life s7 Hc7 Hk7.
  apply quiet_then; [quiet | done..|]. intros born s8 Hc8 Hk8. apply quiet_then; [auto with quiet | done..|]. intros _ s9 Hc9 Hk9.
  apply quiet_then; [quiet | done..|]. intros _ s10 Hc10 Hk10. apply hoare_ret, HQ; [done..|]. eauto 12 using kept_trans.
Qed.

Lemma options_ok env l : forall port daemon s n Q, (forall o, Q o s (Sup Idle n)) -> holds (options env l port daemon) s (Sup Idle n) Q.
Proof.
  induction l as [|[ch optarg] l IH]; intros port daemon s n Q HQ; cbn [options]; [by apply hoare_ret|].
  repeat case_match; first [by apply IH | apply hoare_stop; cbn; auto].
Qed.
Lemma main_run_ok size v readp echo daemon av s : gate_time v = gate -> max_start v = max -> settled 0 s -> cchild s = 0 ->
  holds (main_run size v readp echo daemon av) s (Sup Idle 0) (fun _ _ _ => False).
Proof.
  intros Hgate Hmax Hs Hc. unfold main_run. assert (ph (Sup Idle 0) <> Child) as Hch by done.
  apply quiet_then; [quiet | done..|]. intros sock s1 Hc1 Hk1. apply quiet_then; [quiet | done..|]. intros _ s2 Hc2 Hk2.
  apply hoare_bind, hoare_get. apply quiet_then; [quiet | done..|]. intros _ s3 Hc3 Hk3.
  assert (settled 0 s3) as Hs3.
  { destruct Hs as [Hn Hj]. destruct Hk1 as (_ & En1 & Ej1), Hk2 as (_ & En2 & Ej2), Hk3 as (_ & En3 & Ej3). split; congruence. }
  apply hoare_bind, ssh_run_ok; [done..|]. intros s4 p n Hp. apply hoare_bind.
  match goal with |- holds _ _ _ ?Q' => assert (Q' () s4 (Sup p n)) as Hrest end.
  { apply hoare_bind, unlink_ok; [by destruct p|]. apply hoare_stop. cbn. destruct p; try done; by left. }
  destruct (0 <=? sock); [|by apply hoare_ret]. apply hoare_bind, call_neutral; [done | by destruct p|]. intros [] _.
  apply call_neutral; [done | by destruct p|]. by intros [] _.
Qed.
Lemma main_ok size getopt program argv s : max = env_max_start -> gate = env_gate_time -> settled 0 s -> cchild s = 0 ->
  holds (main size getenv getopt program argv) s (Sup Idle 0) (fun _ _ _ => False).
Proof.
  intros Hmax Hgate Hs Hc. unfold main. assert (ph (Sup Idle 0) <> Child) as Hch by done.
  apply hoare_bind, get_env_args_ok; [done..|]. intros v s1 Hg Hm Hk1. rewrite <- Hgate in Hg. rewrite <- Hmax in Hm.
  assert (in_charge s1 (Sup Idle 0)) as Hc1 by by eapply in_charge_kept. cbv zeta.
  apply hoare_bind, options_ok. intros [place daemon].
  apply hoare_bind. match goal with |- holds _ _ _ ?Q' => assert (Q' () s1 (Sup Idle 0)) as Hrest end.
  2:{ match goal with |- context [if ?b then usage 1 else _] => destruct b end; [apply hoare_stop; cbn; auto | by apply hoare_ret]. }
  destruct (split_port _) as [wp echop]. apply quiet_then; [quiet | done..|]. intros ep s2 Hc2 Hk2.
  destruct (ulong_int wp) as [n rest]. apply quiet_then; [auto with quiet | done..|]. intros _ s3 Hc3 Hk3.
  apply quiet_then; [auto with quiet | done..|]. intros _ s4 Hc4 Hk4. apply quiet_then; [quiet | done..|]. intros _ s5 Hc5 Hk5.
  assert (settled 0 s5) as Hs5.
  { destruct Hs as [Hn Hj], Hk1 as (_ & En1 & Ej1), Hk2 as (_ & En2 & Ej2), Hk3 as (_ & En3 & Ej3), Hk4 as (_ & En4 & Ej4), Hk5 as (_ & En5 & Ej5).
    split; congruence. }
  destruct (add_arg_ok (ssh_path v) no_arguments) as (a0 & -> & Ha0 & _); [by split|]. bsimpl.
  match goal with |- context [new_args ?l ?f ?e false false a0] => destruct (new_args_total l f e false false a0 Ha0) as (a & rest' & -> & _) end.
  apply hoare_bind, hoare_ret. by apply main_run_ok.
Qed.
End Environment.
End Promise.

(** C20: whatever the environment, the command line and the answers of the system, what
    autossh does follows the promise: never two children, no more starts than
    AUTOSSH_MAXSTART, another one only after a child that was stopped or ended in a way
    that allows it, none after a signal to exit that ends [pause], where it waits (one that
    arrives elsewhere is forgotten, see [term_in_test_restarts]); a process it stops is
    waited for; when the program stops nothing is left running.  It never jumps to a place that has been left
    and writes no argument beside the vector; only counters that grow beyond an int are
    undefined. *)
Theorem autossh_supervises size getenv getopt program argv tr u :
  runs (main size getenv getopt program argv initial) tr u -> Forall (legal_event legal) tr ->
  exists g, path (supervises (env_max_start getenv) (env_gate_time getenv)) (Sup Idle 0) tr g /\
    match returned u with
    | Some (Goes _ _) => False
    | Some (Stops c) => stopped c g
    | Some (Breaks w) => w = Overflow
    | None => True
    end.
Proof.
  intros Hr Hl. pose proof (main_ok (env_max_start getenv) (env_gate_time getenv) getenv size getopt program argv initial eq_refl eq_refl (conj eq_refl eq_refl) eq_refl) as H.
  destruct (safe_runs _ _ (next_det _ _) _ _ _ Hr _ _ H Hl) as (g & Hp & Hs). exists g. split; [by apply path_supervises|].
  destruct (returned u) as [r|] eqn:Eu; [|done]. pose proof (safe_returned _ _ _ _ _ r Hs Eu) as Hpost. by destruct r.
Qed.

(** ** What the promise means *)

Definition is_fork (ev : event sysE) : bool := match ev_call _ ev with Fork => true | _ => false end.

(** There are no more starts than [max_start] allows. *)
Lemma supervises_starts max gate g ev g' : supervises max gate g ev g' -> starts g' = starts g + (if is_fork ev then 1 else 0).
Proof. destruct 1 as [| | | | | | | | | | |g X e x He Hg]; cbn; try lia. destruct e; cbn in *; try done; lia. Qed.
Lemma path_starts max gate g tr g' : 0 <= max -> path (supervises max gate) g tr g' -> starts g <= max ->
  starts g' = starts g + zlen (filter is_fork tr) /\ starts g' <= max.
Proof.
  intros Hmax. induction 1 as [g|g ev g1 tr g2 Hev _ IH]; intros Hg; [change (zlen _) with 0; lia|].
  pose proof (supervises_starts _ _ _ _ _ Hev) as Hn.
  assert (starts g1 <= max) as Hg1.
  { inversion Hev as [n pid Hm|n Hm|n pid Hm| | | | | | | | |]; subst; cbn in *; unfold may_start in *; lia. }
  destruct (IH Hg1) as [IH1 IH2]. split; [|done]. rewrite IH1, Hn, filter_cons. destruct (decide _) as [Hd|Hd].
  - rewrite zlen_cons. destruct (is_fork ev); [lia | done].
  - destruct (is_fork ev); [done | lia].
Qed.

(** A session: the first ssh loses its connection, the second runs until autossh is told to
    exit. *)
Definition example_world (X : Type) (e : sysE X) (forks : Z) : option (X * Z) :=
  match e in sysE X return option (X * Z) with
  | Time => Some (1000 + 100 * forks, forks)
  | Gettimeofday => Some ((0, 0), forks)
  | Getpid => Some (50, forks)
  | Sigaction _ _ | Srandom _ | Kill _ _ => Some ((), forks)
  | Caught => Some ([], forks)
  | Pause => Some (SIGTERM, forks)
  | Alarm _ => Some (0, forks)
  | Fork => Some (100 + forks, forks + 1)
  | Waitpid _ nohang => Some (if negb nohang then Reaped (Signaled SIGTERM) else if forks =? 1 then Reaped (Exited 255) else NotYet, forks)
  | _ => None
  end.
Definition example_session : itree sysE (reply state ()) :=
  main 256 (fun _ => None) (fun _ => [(77, Some (2%nat, 0%nat))]) (str "autossh") (map str ["autossh"; "-M"; "0"; "host"]) initial.
Definition example_run : list (event sysE) * itree sysE (reply state ()) := play example_world 300 example_session 0.
Definition example_calls : list (event sysE) := Eval vm_compute in example_run.1.
Lemma autossh_supervises_witness :
  returned example_run.2 = Some (Stops 0) /\ zlen (filter is_fork example_run.1) = 2 /\
  exists g, path (supervises (-1) 30) (Sup Idle 0) example_run.1 g /\
    match returned example_run.2 with
    | Some (Goes _ _) => False
    | Some (Stops c) => stopped c g
    | Some (Breaks w) => w = Overflow
    | None => True
    end.
Proof.
  split; [by vm_compute|]. split; [by vm_compute|].
  apply (autossh_supervises 256 (fun _ => None) (fun _ => [(77, Some (2%nat, 0%nat))]) (str "autossh") (map str ["autossh"; "-M"; "0"; "host"])).
  - exact (play_runs example_world 300 example_session 0).
  - replace example_run.1 with example_calls by by vm_compute. repeat constructor; cbn; by discriminate || lia.
Defined.

(** ** What goes wrong *)

(** After 32773 quick restarts the pause no longer fits an [int]. *)
Example grace_overflows : grace_secs 600 32772 = Some 2147352578 /\ grace_secs 600 32773 = Some (2 ^ 31).
Proof. by vm_compute. Qed.
(** When the time to live is over before a child is watched the alarm is set for the
    remaining, negative time: it is not in sight. *)
Definition late_world (X : Type) (e : sysE X) (u : ()) : option (X * ()) :=
  match e in sysE X return option (X * ()) with
  | Caught => Some ([], u)
  | Waitpid _ _ => Some (NotYet, u)
  | Alarm _ => Some (0, u)
  | Time => Some (1130, u)
  | _ => None
  end.
Definition alarms (tr : list (event sysE)) : list Z := concat (map (fun ev => match ev_call _ ev with Alarm n => [n] | _ => [] end) tr).
Example lifetime_missed :
  alarms (play late_world 100 (ssh_watch 256 (Vars (str "autossh") (str "ssh") 6 100 100 30 (-1) [] None 120 1000 15000 None) (-1)
    (set_cchild 50 initial)) ()).1 = [0; 2 ^ 32 - 10].
Proof. by vm_compute. Qed.
(** A signal to exit that comes during the test of the connection: [poll] is interrupted,
    the test fails, and ssh is started again. *)
Definition busy_world (X : Type) (e : sysE X) (u : ()) : option (X * ()) :=
  match e in sysE X return option (X * ()) with
  | Caught => Some ([], u)
  | Waitpid _ nohang => Some (if nohang then NotYet else Reaped (Signaled SIGTERM), u)
  | Alarm _ => Some (0, u)
  | Pause => Some (SIGALRM, u)
  | Uname => Some (str "router", u)
  | Random => Some (7, u)
  | Getpid => Some (40, u)
  | Getaddrinfo _ _ => Some (Some 1, u)
  | Socket _ => Some (5, u)
  | Connect _ _ => Some (0, u)
  | Poll _ _ => Some ((-1, [0]), u)
  | Shutdown _ | Close _ | Kill _ _ => Some ((), u)
  | _ => None
  end.
Example term_in_test_restarts :
  match returned (play busy_world 200 (ssh_watch 256 (Vars (str "autossh") (str "ssh") 6 100 100 30 (-1) [] None 0 0 15000 (Some (str "20000"))) 4
    (set_cchild 50 initial)) ()).2 with Some (Goes _ r) => r = P_RESTART | _ => False end.
Proof. by vm_compute. Qed.
(** The child in which ssh could not be executed removes the pid file of its parent. *)
Example child_unlinks :
  match observe (child [str "ssh"] (set_pid_file (Some (str "/var/run/autossh.pid")) true initial)) with
  | VisF (Execvp _) k => forall x, match observe (k x) with VisF (Unlink f) _ => f = str "/var/run/autossh.pid" | _ => False end
  | _ => False
  end.
Proof. by vm_compute. Qed.
