(* ===== verification/AutosshConn.v ===== *)
(** * The connection test of autossh

    It says yes only to its own message, and it comes to an end. *)

From ITree Require Import Core.ITreeDefinition.
From S2P Require Import Prelude CLib CFormat Interact Autossh.

(** ** What has been read *)

(** The protocol that only writes down the calls. *)
Definition recorded (g : list (event sysE)) (ev : event sysE) (g' : list (event sysE)) : Prop := g' = g ++ [ev].
Definition read_by {X} (e : sysE X) : X -> list Z :=
  match e in sysE X return X -> list Z with Read _ _ => fun r => match r with inl d => d | inr _ => [] end | _ => fun _ => [] end.
Definition bytes_read (tr : list (event sysE)) : list Z := concat (map (fun ev => read_by (ev_call _ ev) (ev_answer _ ev)) tr).
(** The message of a test. *)
Definition message (v : vars) (uts : list Z) (pid id : Z) : list Z :=
  uts ++ str " " ++ progname v ++ str " " ++ print_d pid ++ str " " ++ print_d id ++ str " " ++ echo_message v ++ [CR; LF].

Lemma bytes_read_app tr1 tr2 : bytes_read (tr1 ++ tr2) = bytes_read tr1 ++ bytes_read tr2.
Proof. unfold bytes_read. by rewrite map_app, concat_app. Qed.
Lemma recorded_path tr : forall g g', path recorded g tr g' -> g' = g ++ tr.
Proof.
  induction tr as [|ev tr IH]; intros g g' H; inversion H as [|g0 ev' g1 tr' g2 Hev Hp]; subst; [by rewrite app_nil_r|].
  rewrite (IH _ _ Hp), Hev. by rewrite <- app_assoc.
Qed.

Abbreviation holds m s g Q := (hoare (S := state) legal recorded (fun _ _ => True) (fun _ _ => True) m s g Q).

(** Code that reads nothing. *)
Definition reads_none {A} (m : M A) : Prop :=
  forall s g Q, (forall a s' tr, bytes_read tr = [] -> Q a s' (g ++ tr)) -> holds m s g Q.
Lemma none_ret {A} (a : A) : reads_none (mret a).
Proof. intros s g Q HQ. apply hoare_ret. specialize (HQ a s [] eq_refl). by rewrite app_nil_r in HQ. Qed.
Lemma none_get {A} (f : state -> A) : reads_none (get f).
Proof. intros s g Q HQ. apply hoare_get. specialize (HQ (f s) s [] eq_refl). by rewrite app_nil_r in HQ. Qed.
Lemma none_modify f : reads_none (modify f).
Proof. intros s g Q HQ. apply hoare_modify. specialize (HQ () (f s) [] eq_refl). by rewrite app_nil_r in HQ. Qed.
Lemma none_stop {A} c : reads_none (@stop sysE state A c).
Proof. intros s g Q HQ. by apply hoare_stop. Qed.
Lemma none_call {X} (e : sysE X) : (forall x, read_by e x = []) -> reads_none (call e).
Proof.
  intros He s g Q HQ. apply hoare_call. intros x _. eexists; split; [done|]. apply (HQ x s [Ev e x]). unfold bytes_read. cbn. by rewrite He.
Qed.
Lemma none_bind {A B} (m : M A) (f : A -> M B) : reads_none m -> (forall a, reads_none (f a)) -> reads_none (m ≫= f).
Proof.
  intros Hm Hf s g Q HQ. apply hoare_bind, Hm. intros a s1 tr1 H1. apply Hf. intros b s2 tr2 H2. rewrite <- app_assoc. apply HQ.
  by rewrite bytes_read_app, H1, H2.
Qed.
Lemma none_loop {I A} (body : I -> M (I + A)) i : (forall i, reads_none (body i)) -> reads_none (loop body i).
Proof.
  intros Hb s g Q HQ. apply (hoare_loop _ _ _ _ _ (fun _ _ g' => exists tr, g' = g ++ tr /\ bytes_read tr = [])); [|by exists []; rewrite app_nil_r].
  intros j s1 g1 (tr & -> & Htr). apply Hb. intros [j'|a] s2 tr2 H2; rewrite <- app_assoc.
  - eexists; split; [done|]. by rewrite bytes_read_app, Htr, H2.
  - apply HQ. by rewrite bytes_read_app, Htr, H2.
Qed.
Create HintDb none discriminated.
#[local] Hint Resolve none_ret none_get none_modify none_stop : none.
Ltac none := repeat first
  [ match goal with
    | |- forall _, _ => intro
    | |- reads_none (loop _ _) => apply none_loop
    | |- reads_none (_ ≫= _) => apply none_bind
    | |- reads_none (call _) => apply none_call; reflexivity
    | |- reads_none (if ?b then _ else _) => destruct b
    | |- reads_none (match ?x with _ => _ end) => destruct x
    end
  | solve [auto with none] ].

Lemma xerrlog_none {A} : reads_none (@xerrlog A).
Proof. unfold xerrlog, ssh_kill, unlink_pid_file. none. Qed.
#[local] Hint Resolve xerrlog_none : none.
Lemma must_none b : reads_none (must b).
Proof. unfold must. none. Qed.
Lemma conn_remote_none host port : reads_none (conn_remote host port).
Proof. unfold conn_remote, conn_addr, must. none. Qed.
Lemma accept_none v sock : reads_none (conn_poll_for_accept v sock).
Proof. unfold conn_poll_for_accept. none. Qed.
Lemma send_none fd todo : reads_none (send fd todo).
Proof. unfold send. none. Qed.
#[local] Hint Resolve must_none conn_remote_none accept_none send_none : none.

Lemma receive_reads fd rleft s g Q got : 0 <= rleft ->
  (forall r d failed s' tr, bytes_read tr = d -> 0 <= r -> r + zlen d <= rleft -> Q (r, got ++ d, failed) s' (g ++ tr)) ->
  holds (receive fd (rleft, got)) s g Q.
Proof.
  intros Hr HQ. unfold receive.
  apply (hoare_loop _ _ _ _ _ (fun x _ g' => exists d tr, x.2 = got ++ d /\ g' = g ++ tr /\ bytes_read tr = d /\ 0 <= x.1 /\ x.1 + zlen d <= rleft)).
  2:{ exists [], []. rewrite !app_nil_r. split_and!; cbn [fst snd]; (done || (zlen; lia)). }
  clear s. intros [r x] s g' (d & tr & Ex & -> & Htr & Hr0 & Hrd). cbn [fst snd] in *. subst x.
  destruct (Z.leb_spec r 0); [by apply hoare_ret, HQ|]. apply hoare_bind, hoare_call. intros a Ha. cbn [legal] in Ha.
  eexists; split; [done|]. apply hoare_ret. rewrite <- app_assoc. set (tr' := tr ++ [Ev (Read fd r) a]).
  assert (bytes_read tr' = d ++ match a with inl b => b | inr _ => [] end) as Htr'.
  { unfold tr'. rewrite bytes_read_app, Htr. unfold bytes_read. cbn. by rewrite app_nil_r. }
  destruct a as [b|errno].
  - destruct (bool_decide_reflect (b = [])) as [->|Hb].
    + rewrite app_nil_r in Htr'. apply HQ; [done|lia|]. pose proof (zlen_nonneg d). lia.
    + exists (d ++ b), tr'. pose proof (zlen_nonneg b). rewrite <- app_assoc. split_and!; cbn [fst snd]; (done || (zlen; lia)).
  - rewrite app_nil_r in Htr'. destruct (_ || _); by apply HQ.
Qed.
(** Where the exchange is. *)
Definition exchanged (len : Z) (g0 : list (event sysE)) (rleft : Z) (got : list Z) (g : list (event sysE)) : Prop :=
  exists tr, g = g0 ++ tr /\ bytes_read tr = got /\ 0 <= rleft /\ rleft + zlen got <= len.
Lemma exchanged_none len g0 rleft got g tr : exchanged len g0 rleft got g -> bytes_read tr = [] -> exchanged len g0 rleft got (g ++ tr).
Proof. intros (t & -> & E & H) Htr. exists (t ++ tr). by rewrite app_assoc, bytes_read_app, E, Htr, app_nil_r. Qed.

Lemma exchange_reads v ird iwr len g0 pfd todo rleft got loops s g Q : exchanged len g0 rleft got g ->
  (forall pfd todo rleft got loops s g, exchanged len g0 rleft got g -> Q (inl (pfd, todo, rleft, got, loops)) s g) ->
  (forall r rleft got s g, exchanged len g0 rleft got g -> Q (inr (r, got)) s g) ->
  holds (exchange v ird iwr (pfd, todo, rleft, got, loops)) s g Q.
Proof.
  intros Hx HC HQ. unfold exchange. destruct (rleft <=? 0); [by eapply hoare_ret, HQ|].
  apply hoare_bind, hoare_call. intros [n r] _. eexists; split; [done|].
  assert (exchanged len g0 rleft got (g ++ [Ev (Poll pfd (net_timeout v)) (n, r)])) as Hx1 by by apply exchanged_none.
  set (g1 := g ++ _) in *. clearbody g1. cbn [fst snd].
  destruct (n =? 0); [by eapply hoare_ret, HQ|]. destruct (n =? -1); [by eapply hoare_ret, HQ|].
  apply hoare_bind. match goal with |- holds ?m _ _ _ => assert (reads_none m) as Hw by none end. apply Hw. clear Hw.
  intros [[todo' failed] pfd'] s1 tr1 Htr1. pose proof (exchanged_none _ _ _ _ _ _ Hx1 Htr1) as Hx2. set (g2 := g1 ++ tr1) in *. clearbody g2.
  destruct failed; [by eapply hoare_ret, HQ|]. apply hoare_bind.
  match goal with |- holds _ _ _ ?Q' => assert (forall rleft got failed s g, exchanged len g0 rleft got g -> Q' (rleft, got, failed) s g) as Hrest end.
  { intros rl gt fl s2 g3 H3. destruct fl; [by eapply hoare_ret, HQ|]. destruct (5 <? loops); [|by apply hoare_ret, HC].
    apply hoare_bind, none_call; [done|]. intros _ s3 tr3 Htr3. pose proof (exchanged_none _ _ _ _ _ _ H3 Htr3).
    destruct (10 <? _); [by eapply hoare_ret, HQ | by apply hoare_ret, HC]. }
  destruct (_ || _); [|exact (hoare_ret _ _ _ _ _ _ _ _ (Hrest _ _ false _ _ Hx2))]. destruct Hx2 as (tr & -> & Htr & H0 & Hl). apply receive_reads; [done|].
  intros rl d fl s2 tr2 Htr2 Hrl Hd. refine (Hrest _ _ _ _ _ _). exists (tr ++ tr2). rewrite app_assoc, bytes_read_app, Htr, Htr2. split_and!; (done || (zlen; lia)).
Qed.
Lemma conn_send_and_receive_reads v wp pfd s g Q :
  (forall r got s' tr, bytes_read tr = got -> zlen got <= zlen wp -> Q (r, got) s' (g ++ tr)) -> holds (conn_send_and_receive v wp pfd) s g Q.
Proof.
  intros HQ. unfold conn_send_and_receive.
  assert (forall ird iwr, holds (loop (exchange v ird iwr) (pfd, wp, zlen wp, [], 0)) s g Q) as H; [|by destruct (Nat.eqb _ _)].
  intros ird iwr. apply (hoare_loop _ _ _ _ _ (fun x _ g' => exchanged (zlen wp) g x.1.1.2 x.1.2 g')).
  2:{ exists []. rewrite app_nil_r. pose proof (zlen_nonneg wp). split_and!; cbn [fst snd]; (done || (zlen; lia)). }
  clear s. intros [[[[pfd' todo] rleft] got] loops] s g' Hx. apply (exchange_reads v ird iwr (zlen wp) g); [done|by intros|].
  intros r rl gt s' g'' (tr & -> & Htr & H0 & Hl). apply HQ; [done | lia].
Qed.

(** The record ends with the message having been read. *)
Definition echoed (v : vars) (g : list (event sysE)) : Prop :=
  exists uts pid id pre, Ev Uname uts ∈ g /\ Ev Getpid pid ∈ g /\ Ev Random id ∈ g /\ bytes_read g = pre ++ message v uts pid id.
Lemma echoed_none v g tr : echoed v g -> bytes_read tr = [] -> echoed v (g ++ tr).
Proof.
  intros (uts & pid & id & pre & H1 & H2 & H3 & E) Htr. exists uts, pid, id, pre. rewrite bytes_read_app, Htr, app_nil_r.
  split_and!; [by apply elem_of_app; left..|done].
Qed.
Lemma zlen_cstr_le l : zlen (cstr l) <= zlen l.
Proof. induction l as [|b l IH]; cbn; [lia|]. destruct (b =? 0); zlen; pose proof (zlen_nonneg l); lia. Qed.
Lemma cstr_prefix l : exists r, l = cstr l ++ r.
Proof. induction l as [|b l [r IH]]; cbn; [by exists []|]. destruct (b =? 0); [by eexists|]. exists r. cbn. by f_equal. Qed.
(** A buffer that holds the message as a string, and no more than it, is the message. *)
Lemma buffer_is got m : cstr (got ++ [0]) = m -> zlen got <= zlen m -> got = m.
Proof.
  intros <- Hl. destruct (cstr_prefix (got ++ [0])) as [r Hr]. pose proof (f_equal zlen Hr) as Hz. rewrite !zlen_app in Hz. change (zlen [0]) with 1 in Hz.
  assert (zlen r = 1 \/ zlen r = 0) as [H1|H0] by (pose proof (zlen_nonneg r); lia).
  - destruct r as [|x [|y r]]; [done| |rewrite !zlen_cons in H1; pose proof (zlen_nonneg r); lia]. by apply app_inj_tail in Hr as [? _].
  - apply zlen_0_nil in H0. subst r. rewrite app_nil_r in Hr. exfalso. assert (0 ∈ cstr (got ++ [0])) as Hin.
    { rewrite <- Hr. apply elem_of_app. right. by left. }
    pose proof (cstr_nonul (got ++ [0])) as Hn. by apply (proj1 (Forall_forall _ _) Hn 0 Hin).
Qed.

Lemma conn_test_reads size v sock host port s : 
  holds (conn_test size v sock host port) s [] (fun ok _ g => ok = true -> echoed v g).
Proof.
  unfold conn_test. apply hoare_bind, hoare_call. intros uts _. eexists; split; [done|]. apply hoare_bind, hoare_call. intros id _. eexists; split; [done|].
  set (g0 := ([] ++ _) ++ _). assert (Ev Uname uts ∈ g0 /\ Ev Random id ∈ g0) as [Hu Hi] by (unfold g0; cbn; split; [left | right; left]).
  clearbody g0. apply hoare_bind, conn_remote_none. intros wd s1 tr1 Htr1. destruct (wd =? -1); [by apply hoare_ret|].
  apply hoare_bind. match goal with |- holds _ _ _ ?Q' => assert (forall r s g, (r.1 = true -> echoed v g) -> Q' r s g) as Hrest end.
  { intros r s2 g2 H2. apply hoare_bind, none_call; [done|]. intros _ s3 tr3 Htr3. apply hoare_bind, none_call; [done|]. intros _ s4 tr4 Htr4.
    apply hoare_bind. match goal with |- holds ?m _ _ _ => assert (reads_none m) as Hn by none end. apply Hn. intros _ s5 tr5 Htr5.
    apply hoare_ret. intros Hr. by do 3 (apply echoed_none; [|done]); apply H2. }
  apply (hoare_loop _ _ _ _ _ (fun _ _ g => exists tr, g = g0 ++ tr)); [|by exists tr1].
  clear s s1 tr1 Htr1. intros [tries rd] s g (tr & ->). cbv zeta. destruct (MAX_CONN_TRIES <=? _); [by apply hoare_ret, Hrest|].
  apply hoare_bind. match goal with |- holds ?m _ _ _ => assert (reads_none m) as Hn by none end. apply Hn. clear Hn. intros rd1 s1 tr1 _.
  apply hoare_bind, hoare_call. intros pid _. eexists; split; [done|]. fold (message v uts pid id). apply hoare_bind, must_none. intros _ s2 tr2 _.
  apply hoare_bind. match goal with |- holds ?m _ _ _ => assert (reads_none m) as Hn by none end. apply Hn. clear Hn. intros rd2 s3 tr3 _.
  destruct (negb _ && (rd2 <? 0)); [by apply hoare_ret, Hrest|]. apply hoare_bind, conn_send_and_receive_reads. intros r got s4 tr4 Htr4 Hlen.
  apply hoare_ret. rewrite <- !app_assoc. cbn [fst snd].
  assert (forall l, exists tr', g0 ++ l = g0 ++ tr') as Hany by by eexists.
  destruct (r =? 0); [|destruct (r =? 1); [by apply Hany | by apply Hrest]].
  destruct (streq (cstr (got ++ [0])) (message v uts pid id)) eqn:Eq; [|by apply Hany]. apply streq_true in Eq. apply Hrest. intros _.
  pose proof (buffer_is _ _ Eq Hlen) as ->. exists uts, pid, id, (bytes_read (g0 ++ tr ++ tr1 ++ [Ev Getpid pid] ++ tr2 ++ tr3)).
  split_and!; [apply elem_of_app; by left| |apply elem_of_app; by left|].
  - do 3 (apply elem_of_app; right). apply elem_of_app. left. by left.
  - rewrite !bytes_read_app, Htr4, <- !app_assoc. done.
Qed.

(** ** The test ends *)

(** No wait for a child is interrupted for ever. *)
Definition uninterrupted (X : Type) (e : sysE X) (x : X) : Prop :=
  legal X e x /\ (match e in sysE X return X -> Prop with Waitpid _ _ => fun w => w <> WaitFailed EINTR | _ => fun _ => True end) x.
Definition anything (g : ()) (ev : event sysE) (g' : ()) : Prop := True.
Definition ends_in {A} (n : nat) (m : M A) (R : A -> Prop) : Prop :=
  forall s, total (S := state) uninterrupted anything (fun _ _ => True) (fun _ _ => True) n m s () (fun a _ _ => R a).
Notation any := (fun _ => True).

Lemma ends_in_ret {A} (a : A) (R : A -> Prop) : R a -> ends_in 1 (mret a) R.
Proof. intros H s. by apply total_ret. Qed.
Lemma ends_in_get {A} (f : state -> A) : ends_in 1 (get f) any.
Proof. intros s. by apply total_get. Qed.
Lemma ends_in_modify f : ends_in 1 (modify f) any.
Proof. intros s. by apply total_modify. Qed.
Lemma ends_in_stop {A} c R : ends_in 1 (@stop sysE state A c) R.
Proof. intros s. by apply total_stop. Qed.
Lemma ends_in_call {X} (e : sysE X) (R : X -> Prop) : (forall x, uninterrupted X e x -> R x) -> ends_in 2 (call e) R.
Proof. intros H s. apply (total_call _ _ _ _ 0). intros x Hx. exists (). split; [done | by apply H]. Qed.
Lemma ends_in_bind {A B} n n' (m : M A) (f : A -> M B) R R' : ends_in n m R -> (forall a, R a -> ends_in (S n') (f a) R') -> ends_in (n + S n') (m ≫= f) R'.
Proof. intros Hm Hf s. apply total_bind. eapply total_mono; [exact (Hm s)|]. intros a s' [] Ha. by apply Hf. Qed.
Lemma ends_in_more {A} n n' (m : M A) (R : A -> Prop) : ends_in n m R -> (n <= n')%nat -> ends_in n' m R.
Proof. intros H Hn s. by eapply total_more. Qed.
Lemma ends_in_mono {A} n (m : M A) (R R' : A -> Prop) : ends_in n m R -> (forall a, R a -> R' a) -> ends_in n m R'.
Proof. intros H HR s. eapply total_mono; [exact (H s)|]. eauto. Qed.
Lemma ends_in_loop {I A} (body : I -> M (I + A)) (Inv : I -> Prop) (measure : I -> nat) n (R : A -> Prop) :
  (forall i, Inv i -> ends_in n (body i) (fun r => match r with inl i' => Inv i' /\ (measure i' < measure i)%nat | inr a => R a end)) ->
  forall m i, Inv i -> (measure i <= m)%nat -> ends_in (S m * (n + 3)) (loop body i) R.
Proof. intros Hb m i HI Hm s. apply (total_loop _ _ _ _ body (fun i _ _ => Inv i) measure); [|done..]. intros j s' [] HJ. by apply Hb. Qed.

Lemma xerrlog_ends {A} R : ends_in 16 (@xerrlog A) R.
Proof.
  unfold xerrlog. apply (ends_in_bind 10 5 _ _ any); [|intros _ _; apply (ends_in_bind 5 0 _ _ any); [|intros; apply ends_in_stop]].
  - unfold ssh_kill. apply (ends_in_bind 1 8 _ _ any); [apply ends_in_get|]. intros pid _. destruct (pid =? 0); [by eapply ends_in_more; [apply ends_in_ret|lia]|].
    apply (ends_in_bind 2 6 _ _ any); [by apply ends_in_call|]. intros _ _.
    eapply ends_in_more; [apply (ends_in_loop _ any (fun _ => 0%nat) 3) with (m := 0%nat); [|done|done]|lia]. intros _ _.
    apply (ends_in_bind 2 0 _ _ (fun w => w <> WaitFailed EINTR)); [apply ends_in_call; by intros w [_ Hw]|]. intros w Hw. apply ends_in_ret.
    destruct w as [| |errno]; [done..|]. destruct (Z.eqb_spec errno EINTR); [congruence | done].
  - unfold unlink_pid_file. apply (ends_in_bind 1 3 _ _ any); [apply ends_in_get|]. intros created _. apply (ends_in_bind 1 2 _ _ any); [apply ends_in_get|].
    intros name _. apply (ends_in_bind 2 0 _ _ any); [|intros _ _; apply ends_in_modify].
    destruct name; [destruct created|]; [by apply ends_in_call | by eapply ends_in_more; [apply ends_in_ret|lia]..].
Qed.
(** The same with bounds that are put together by the tactic [ends]. *)
Lemma ends_in_then {A B} n n' (m : M A) (f : A -> M B) R : ends_in n m any -> (forall a, ends_in n' (f a) R) -> ends_in (n + S n') (m ≫= f) R.
Proof. intros Hm Hf. apply (ends_in_bind n n' m f any); [done|]. intros a _. eapply ends_in_more; [apply Hf | lia]. Qed.
Lemma ends_in_if {A} n n' (b : bool) (m m' : M A) R : ends_in n m R -> ends_in n' m' R -> ends_in (n `max` n') (if b then m else m') R.
Proof. intros H H'. destruct b; (eapply ends_in_more; [done | lia]). Qed.
Lemma ends_in_option {A B} n n' (x : option B) (m : M A) (f : B -> M A) R :
  (forall b, ends_in n (f b) R) -> ends_in n' m R -> ends_in (n `max` n') (match x with Some b => f b | None => m end) R.
Proof. intros H H'. destruct x; (eapply ends_in_more; [done | lia]). Qed.
Ltac ends := lazymatch goal with
  | |- ends_in _ (_ ≫= _) _ => eapply ends_in_then; [ends | intros; ends]
  | |- ends_in _ (if _ then _ else _) _ => eapply ends_in_if; ends
  | |- ends_in _ (match _ with Some _ => _ | None => _ end) _ => eapply ends_in_option; [intros; ends | ends]
  | |- ends_in _ (call _) _ => by apply ends_in_call
  | |- ends_in _ (mret _) _ => by apply ends_in_ret
  | |- ends_in _ (get _) _ => apply ends_in_get
  | |- ends_in _ (modify _) _ => apply ends_in_modify
  | |- ends_in _ xerrlog _ => apply xerrlog_ends
  end.
Tactic Notation "ends" "within" := eapply ends_in_more; [ends | lia].

Lemma conn_remote_ends host port : ends_in 70 (conn_remote host port) any.
Proof. unfold conn_remote, conn_addr, must. ends within. Qed.
Lemma accept_ends v sock : ends_in 10 (conn_poll_for_accept v sock) any.
Proof. unfold conn_poll_for_accept. ends within. Qed.
Lemma must_ends b : ends_in 16 (must b) any.
Proof. unfold must. ends within. Qed.

(** Writing and reading take at most one call for each byte, and one more. *)
Lemma send_ends fd todo : ends_in (S (length todo) * 6) (send fd todo) (fun r => zlen r.1 <= zlen todo).
Proof.
  unfold send. apply (ends_in_loop _ (fun l => zlen l <= zlen todo) length 3); [|lia..]. intros l Hl. pose proof (zlen_nonneg todo).
  destruct (bool_decide_reflect (l = [])) as [|Hne]; [by eapply ends_in_more; [apply ends_in_ret|lia]|].
  apply (ends_in_bind 2 0 _ _ (fun r => match r with inl n => 0 <= n <= zlen l | inr _ => True end)); [by apply ends_in_call; intros x [Hx _]|].
  intros [n|errno] Hn; apply ends_in_ret; [|by destruct (_ || _)]. destruct (Z.eqb_spec n 0); [done|]. split; [zlen|].
  pose proof (zlen_drop n l) as E. assert (zlen l <> 0) by (intros E0; by apply zlen_0_nil in E0). unfold zlen in *. lia.
Qed.
Lemma receive_ends fd rleft got len : 0 <= rleft <= Z.of_nat len -> ends_in (S len * 6) (receive fd (rleft, got)) (fun r => 0 <= r.1.1 <= rleft).
Proof.
  intros Hr. unfold receive. apply (ends_in_loop _ (fun x => 0 <= x.1 <= rleft) (fun x => Z.to_nat x.1) 3); cbn [fst]; [|lia..]. intros [r x] Hx. cbn [fst] in *.
  destruct (Z.leb_spec r 0); [by eapply ends_in_more; [apply ends_in_ret|lia]|].
  apply (ends_in_bind 2 0 _ _ (fun a => match a with inl d => zlen d <= r | inr _ => True end)); [by apply ends_in_call; intros a [Ha _]|].
  intros [d|errno] Hd; apply ends_in_ret; [|by destruct (_ || _)]. destruct (bool_decide_reflect (d = [])) as [|Hne]; cbn [fst]; [lia|].
  pose proof (zlen_nonneg d). assert (zlen d <> 0) by (intros E0; by apply zlen_0_nil in E0). lia.
Qed.
Lemma exchange_ends v ird iwr len pfd todo rleft got loops : zlen todo <= Z.of_nat len -> 0 <= rleft <= Z.of_nat len -> 0 <= loops <= 10 ->
  ends_in (12 * len + 40) (exchange v ird iwr (pfd, todo, rleft, got, loops))
    (fun r => match r with inl (_, todo', rleft', _, loops') => zlen todo' <= Z.of_nat len /\ 0 <= rleft' <= Z.of_nat len /\ loops' = loops + 1 /\ loops' <= 10 | inr _ => True end).
Proof.
  intros Ht Hr Hl. unfold exchange. destruct (rleft <=? 0); [by eapply ends_in_more; [apply ends_in_ret|lia]|].
  eapply ends_in_more; [apply (ends_in_bind 2 (12 * len + 36) _ _ any); [by apply ends_in_call|]|lia]. intros [n r] _. cbn [fst snd].
  destruct (n =? 0); [by eapply ends_in_more; [apply ends_in_ret|lia]|]. destruct (n =? -1); [by eapply ends_in_more; [apply ends_in_ret|lia]|].
  eapply ends_in_more; [apply (ends_in_bind (6 * len + 8) (6 * len + 25) _ _ (fun w => zlen w.1.1 <= Z.of_nat len))|lia].
  { destruct (_ && _); [|by eapply ends_in_more; [by apply ends_in_ret|lia]].
    eapply ends_in_more; [apply (ends_in_bind (S (length todo) * 6) 0 _ _ (fun w => zlen w.1 <= zlen todo)); [apply send_ends|]|unfold zlen in Ht; lia].
    intros [w fl] Hw. cbn [fst] in *. destruct (bool_decide _); apply ends_in_ret; cbn [fst]; lia. }
  intros [[todo' failed] pfd'] Hw. cbn [fst] in Hw. destruct failed; [by eapply ends_in_more; [apply ends_in_ret|lia]|].
  eapply ends_in_more; [apply (ends_in_bind (6 * len + 7) 10 _ _ (fun w => 0 <= w.1.1 <= Z.of_nat len))|lia].
  { destruct (_ || _); [|by eapply ends_in_more; [by apply ends_in_ret|lia]].
    eapply ends_in_more; [eapply ends_in_mono; [by apply (receive_ends _ _ _ len)|]|lia]. intros [[rl gt] fl]. cbn [fst]. lia. }
  intros [[rl gt] fl] Hrl. cbn [fst] in Hrl. destruct fl; [by eapply ends_in_more; [apply ends_in_ret|lia]|].
  destruct (Z.ltb_spec 5 loops); [|eapply ends_in_more; [apply ends_in_ret; split_and!; lia|lia]].
  eapply ends_in_more; [apply (ends_in_bind 2 0 _ _ any); [by apply ends_in_call|]|lia]. intros _ _.
  destruct (Z.ltb_spec 10 (loops + 1)); apply ends_in_ret; [done | split_and!; lia].
Qed.
Lemma conn_send_and_receive_ends v wp pfd len : zlen wp <= Z.of_nat len -> ends_in (144 * len + 600) (conn_send_and_receive v wp pfd) any.
Proof.
  intros Hl. unfold conn_send_and_receive. pose proof (zlen_nonneg wp).
  assert (forall ird iwr, ends_in (144 * len + 600) (loop (exchange v ird iwr) (pfd, wp, zlen wp, [], 0)) any) as H0; [|by destruct (Nat.eqb _ _)].
  intros ird iwr. eapply ends_in_more;
    [apply (ends_in_loop _ (fun x => zlen x.1.1.1.2 <= Z.of_nat len /\ 0 <= x.1.1.2 <= Z.of_nat len /\ 0 <= x.2 <= 10) (fun x => Z.to_nat (10 - x.2)) (12 * len + 40))
      with (m := 10%nat); cbn [fst snd]; [|lia..]|lia].
  intros [[[[pfd' todo] rleft] got] loops] (H1 & H2 & H3). cbn [fst snd] in *. eapply ends_in_mono; [by apply exchange_ends|].
  intros [[[[[p t] r] g] l]|]; [|done]. cbn [fst snd]. lia.
Qed.
(** The loop over the attempts, and all of the test. *)
Definition test_calls (size : Z) : nat := 600 * (Z.to_nat size + 128) + 4000.
Lemma must_then {A} b n (m : M A) R : (b = true -> ends_in n m R) -> ends_in (n + 18) (must b;; m) R.
Proof.
  intros H. unfold must. destruct b.
  - eapply ends_in_more; [apply (ends_in_bind 1 n _ _ any); [by apply ends_in_ret|]|lia]. intros _ _. eapply ends_in_more; [by apply H | lia].
  - eapply ends_in_more; [apply (ends_in_bind 16 0 _ _ (fun _ => False)); [apply xerrlog_ends | by intros]|lia].
Qed.
Lemma conn_test_ends_in size v sock host port : 0 <= size -> ends_in (test_calls size) (conn_test size v sock host port) any.
Proof.
  intros Hs. unfold conn_test, test_calls. set (len := (Z.to_nat size + 128)%nat).
  eapply ends_in_more; [apply (ends_in_then 2 (600 * len + 3990)); [by apply ends_in_call|]|lia]. intros uts.
  eapply ends_in_more; [apply (ends_in_then 2 (600 * len + 3980)); [by apply ends_in_call|]|lia]. intros id.
  eapply ends_in_more; [apply (ends_in_then 70 (600 * len + 3900)); [apply conn_remote_ends|]|lia]. intros wd.
  destruct (wd =? -1); [by eapply ends_in_more; [apply ends_in_ret|lia]|].
  eapply ends_in_more; [apply (ends_in_then (4 * (144 * len + 700 + 3)) 100); [|intros r; ends within]|lia].
  apply (ends_in_loop _ (fun x => 0 <= x.1 <= 3) (fun x => Z.to_nat (3 - x.1))) with (m := 3%nat); cbn [fst]; [|lia..].
  intros [tries rd] Ht. cbn [fst] in Ht. cbv zeta. change MAX_CONN_TRIES with 3.
  destruct (Z.leb_spec 3 (tries + 1)); [by eapply ends_in_more; [apply ends_in_ret|lia]|].
  eapply ends_in_more; [apply (ends_in_then 10 (144 * len + 680)); [ends within|]|lia]. intros rd1.
  eapply ends_in_more; [apply (ends_in_then 2 (144 * len + 670)); [by apply ends_in_call|]|lia]. intros pid.
  eapply ends_in_more; [apply (must_then _ (144 * len + 640))|lia]. intros Hlen. apply Z.ltb_lt in Hlen. change MAX_MESSAGE with 64 in Hlen.
  eapply ends_in_more; [apply (ends_in_then 10 (144 * len + 620)); [|]|lia].
  { destruct (negb _); [apply accept_ends | by eapply ends_in_more; [apply ends_in_ret|lia]]. }
  intros rd2. destruct (_ && _); [by eapply ends_in_more; [apply ends_in_ret|lia]|].
  eapply ends_in_more; [apply (ends_in_bind (144 * len + 600) 0 _ _ any); [apply conn_send_and_receive_ends; lia|]|lia]. intros x _. apply ends_in_ret.
  destruct (x.1 =? 0); [destruct (streq _ _)|destruct (x.1 =? 1)]; cbn [fst]; (done || lia).
Qed.

(** C21: the test of the connection says yes only if the bytes it has read end with its own
    message: the name of the host, the process and the random number of this test with the
    text of AUTOSSH_MESSAGE. *)
Theorem conn_test_echo size v sock host port s s' tr u :
  runs (conn_test size v sock host port s) tr u -> Forall (legal_event legal) tr -> returned u = Some (Goes s' true) -> echoed v tr.
Proof.
  intros Hr Hl Hu. pose proof (conn_test_reads size v sock host port s) as H.
  destruct (safe_runs _ _ (fun g ev g1 g2 (H1 : recorded g ev g1) (H2 : recorded g ev g2) => eq_trans H1 (eq_sym H2)) _ _ _ Hr _ _ H Hl) as (g & Hp & Hs).
  apply recorded_path in Hp. cbn in Hp. subst g. by apply (safe_returned _ _ _ _ _ _ Hs Hu).
Qed.
(** C22: a test of the connection ends: it makes no more calls than the length of its message
    allows, whatever the network answers, and after the last of them it has returned or
    stopped the process. *)
Theorem conn_test_ends size v sock host port s tr u : 0 <= size ->
  runs (conn_test size v sock host port s) tr u -> Forall (legal_event uninterrupted) tr ->
  (length tr < test_calls size)%nat /\
  exists u', runs u [] u' /\ (is_Some (returned u') \/ exists X (e : sysE X) k, observe u' = VisF e k).
Proof.
  intros Hs Hr Hl.
  destruct (ends_runs _ _ _ _ _ Hr _ _ _ (conn_test_ends_in size v sock host port Hs s) Hl) as (Hn & g & _ & He).
  split; [done|]. by eapply ends_asks.
Qed.

(** A network that sends everything back. *)
Definition echo_world (X : Type) (e : sysE X) (sent : list Z) : option (X * list Z) :=
  match e in sysE X return option (X * list Z) with
  | Uname => Some (str "router", sent)
  | Random => Some (7, sent)
  | Getpid => Some (50, sent)
  | Getaddrinfo _ _ => Some (Some 1, sent)
  | Socket _ => Some (5, sent)
  | Connect _ _ => Some (0, sent)
  | Poll fds _ => Some (zlen fds, map snd fds, sent)
  | Accept _ => Some (6, sent)
  | Write _ data => Some (inl (zlen data), sent ++ data)
  | Read _ len => Some (inl (ztake len sent), zdrop len sent)
  | Shutdown _ | Close _ => Some ((), sent)
  | _ => None
  end.
Definition example_vars : vars := Vars (str "autossh") (str "ssh") 6 600 600 30 (-1) (str "hello") None 0 0 15000 (Some (str "20000")).
Definition example_test : itree sysE (reply state bool) := conn_test 256 example_vars 4 mhost (str "20000") initial.
Definition example_run : list (event sysE) * itree sysE (reply state bool) := play echo_world 300 example_test [].
Definition example_calls : list (event sysE) := Eval vm_compute in example_run.1.
Definition example_state : state := set_res (Some 1) initial.

Lemma conn_test_echo_witness :
  returned example_run.2 = Some (Goes example_state true) /\ bytes_read example_calls = str "router autossh 50 7 hello" ++ [CR; LF] /\ echoed example_vars example_run.1.
Proof.
  split; [by vm_compute|]. split; [by vm_compute|].
  apply (conn_test_echo 256 example_vars 4 mhost (str "20000") initial example_state example_run.1 example_run.2).
  - exact (play_runs echo_world 300 example_test []).
  - replace example_run.1 with example_calls by by vm_compute. repeat constructor; cbn; by discriminate || lia.
  - by vm_compute.
Defined.
Lemma conn_test_ends_witness : (length example_run.1 < test_calls 256)%nat /\
  exists u', runs example_run.2 [] u' /\ (is_Some (returned u') \/ exists X (e : sysE X) k, observe u' = VisF e k).
Proof.
  apply (conn_test_ends 256 example_vars 4 mhost (str "20000") initial); [lia|exact (play_runs echo_world 300 example_test [])|].
  replace example_run.1 with example_calls by by vm_compute. repeat constructor; cbn; by discriminate || lia.
Defined.
