(* ===== verification/Hash.v ===== *)
(** * Hashes over blocks of 64 bytes

    What SHA-1 and MD5 have in common: words of which only the low 32 bits count, messages
    padded to whole blocks, and a buffer for the bytes of a block that has begun.  [absorb]
    compresses the whole blocks of a text; a context [holds] a text when its state is that
    after the whole blocks and its buffer begins with what is left. *)

From Stdlib Require Import Morphisms Setoid.
From S2P Require Import Prelude.

(** ** Words modulo 2^32 *)

Definition same32 (a b : Z) : Prop := a mod 2 ^ 32 = b mod 2 ^ 32.
#[global] Instance same32_equiv : Equivalence same32.
Proof. split; unfold same32; [by intros x | by intros x y | intros x y z; congruence]. Qed.
#[global] Instance add_same32 : Proper (same32 ==> same32 ==> same32) Z.add.
Proof. intros a b H c d H'. unfold same32 in *. by rewrite Z.add_mod, H, H', <- Z.add_mod by lia. Qed.

Lemma mod_land a : a mod 2 ^ 32 = Z.land a (Z.ones 32).
Proof. by rewrite Z.land_ones by lia. Qed.
Lemma same32_bits a b : same32 a b <-> forall i, 0 <= i < 32 -> Z.testbit a i = Z.testbit b i.
Proof.
  unfold same32. split.
  - intros H i Hi. rewrite <- (Z.mod_pow2_bits_low a 32 i), <- (Z.mod_pow2_bits_low b 32 i) by lia. by rewrite H.
  - intros H. apply Z.bits_inj'. intros i Hi. destruct (Z.ltb_spec i 32).
    + rewrite !Z.mod_pow2_bits_low by lia. apply H. lia.
    + by rewrite !Z.mod_pow2_bits_high by lia.
Qed.
Local Ltac bitwise spec := intros a b H c d H'; apply same32_bits; intros i Hi; rewrite !spec;
  by rewrite (proj1 (same32_bits a b) H i Hi), (proj1 (same32_bits c d) H' i Hi).
#[global] Instance land_same32 : Proper (same32 ==> same32 ==> same32) Z.land.
Proof. bitwise Z.land_spec. Qed.
#[global] Instance lor_same32 : Proper (same32 ==> same32 ==> same32) Z.lor.
Proof. bitwise Z.lor_spec. Qed.
#[global] Instance lxor_same32 : Proper (same32 ==> same32 ==> same32) Z.lxor.
Proof. bitwise Z.lxor_spec. Qed.
(** Nothing is lost that counts in a word of at least 32 bits. *)
Lemma wrap_same32 w a : 32 <= w -> same32 (a mod 2 ^ w) a.
Proof.
  intros Hw. apply same32_bits. intros i Hi. by rewrite Z.mod_pow2_bits_low by lia.
Qed.
Lemma u32_same32 a : same32 (u32 a) a.
Proof. by apply wrap_same32. Qed.
Lemma same32_eq a b : 0 <= a < 2 ^ 32 -> 0 <= b < 2 ^ 32 -> same32 a b -> a = b.
Proof. unfold same32. intros Ha Hb H. by rewrite !Z.mod_small in H. Qed.
Lemma same32_u32 a b : same32 a b <-> u32 a = u32 b.
Proof. done. Qed.

(** Rotation to the left, as the standards have it. *)
Definition rotl (n : nat) (x : Z) : Z := u32 (Z.lor (Z.shiftl x (Z.of_nat n)) (Z.shiftr (u32 x) (32 - Z.of_nat n))).
Lemma shiftl_same32 a b n : 0 <= n -> same32 a b -> same32 (Z.shiftl a n) (Z.shiftl b n).
Proof.
  intros Hn H. apply same32_bits. intros i Hi. destruct (Z.leb_spec n i); [|by rewrite !Z.shiftl_spec_low by lia].
  rewrite !Z.shiftl_spec by lia. apply (proj1 (same32_bits a b) H). lia.
Qed.
#[global] Instance rotl_same32 n : Proper (same32 ==> eq) (rotl n).
Proof.
  intros a b H. unfold rotl. apply same32_u32. rewrite (proj1 (same32_u32 a b) H). apply lor_same32; [apply shiftl_same32; [lia | done] | done].
Qed.
Lemma rotl_range n x : 0 <= rotl n x < 2 ^ 32.
Proof. apply u32_range. Qed.

(** The choice of two words, as it is computed. *)
Lemma ch_bits x y z : Z.lxor z (Z.land x (Z.lxor y z)) = Z.lor (Z.land x y) (Z.land (Z.lnot x) z).
Proof.
  apply Z.bits_inj'. intros i Hi. rewrite !Z.lxor_spec, Z.lor_spec, !Z.land_spec, Z.lnot_spec, Z.lxor_spec by done.
  by destruct (Z.testbit x i), (Z.testbit y i), (Z.testbit z i).
Qed.

(** ** Blocks *)

(** The whole blocks of a text are compressed, the rest remains. *)
Fixpoint absorb {S} (f : S -> list Z -> S) (fuel : nat) (s : S) (l : list Z) : S * list Z :=
  match fuel with
  | O => (s, l)
  | S fuel' => if 64 <=? zlen l then absorb f fuel' (f s (ztake 64 l)) (zdrop 64 l) else (s, l)
  end.
Definition blocks {S} (f : S -> list Z -> S) (s : S) (l : list Z) : S * list Z := absorb f (length l) s l.

Section Blocks.
Context {S : Type} (f : S -> list Z -> S).

Lemma absorb_enough fuel fuel' : forall s l, zlen l < 64 * (Z.of_nat fuel + 1) -> zlen l < 64 * (Z.of_nat fuel' + 1) -> absorb f fuel s l = absorb f fuel' s l.
Proof.
  revert fuel'. induction fuel as [|fuel IH]; intros fuel' s l H H'; (destruct fuel' as [|fuel']; cbn [absorb]; [done || by rewrite (proj2 (Z.leb_gt 64 (zlen l))) by lia|]).
  - by rewrite (proj2 (Z.leb_gt 64 (zlen l))) by lia.
  - destruct (Z.leb_spec 64 (zlen l)); [|done]. apply IH; zlen.
Qed.
Lemma absorb_blocks fuel s l : zlen l < 64 * (Z.of_nat fuel + 1) -> absorb f fuel s l = blocks f s l.
Proof. intros H. apply absorb_enough; [done|]. unfold zlen. lia. Qed.
Lemma blocks_short s l : zlen l < 64 -> blocks f s l = (s, l).
Proof. intros H. rewrite <- (absorb_blocks 0) by lia. done. Qed.
Lemma blocks_block s b l : zlen b = 64 -> blocks f s (b ++ l) = blocks f (f s b) l.
Proof.
  intros Hb. pose proof (zlen_nonneg l). rewrite <- (absorb_blocks (Datatypes.S (length l))) by (unfold zlen in *; rewrite length_app; lia). cbn [absorb].
  rewrite (proj2 (Z.leb_le 64 _)) by (zlen; lia). rewrite <- Hb, ztake_prefix. replace (zdrop (zlen b) (b ++ l)) with l.
  - done.
  - unfold zdrop, zlen. by rewrite Nat2Z.id, drop_app_length.
Qed.
Lemma blocks_rest s l : forall s' r, blocks f s l = (s', r) -> zlen r < 64 /\ zlen r = zlen l mod 64.
Proof.
  unfold blocks. assert (zlen l < 64 * (Z.of_nat (length l) + 1)) as Hf by (unfold zlen; lia). revert s Hf. generalize (length l) as fuel.
  intros fuel. revert l. induction fuel as [|fuel IH]; intros l s Hf s' r; cbn [absorb].
  - intros [= <- <-]. pose proof (zlen_nonneg l). rewrite Z.mod_small; lia.
  - destruct (Z.leb_spec 64 (zlen l)).
    + intros E. destruct (IH (zdrop 64 l) (f s (ztake 64 l)) ltac:(zlen) s' r E) as [H1 H2]. split; [done|]. rewrite H2, zlen_drop.
      rewrite Z.min_l, Z.max_r by lia. by rewrite <- Zminus_mod_idemp_r, Z_mod_same_full, Z.sub_0_r.
    + intros [= <- <-]. pose proof (zlen_nonneg l). rewrite Z.mod_small; lia.
Qed.
Lemma blocks_rest_Forall (P : Z -> Prop) l : forall s s' r, Forall P l -> blocks f s l = (s', r) -> Forall P r.
Proof.
  unfold blocks. generalize (length l) as fuel. intros fuel. revert l. induction fuel as [|fuel IH]; intros l s s' r Hl; cbn [absorb]; [by intros [= <- <-]|].
  destruct (64 <=? zlen l); [|by intros [= <- <-]]. apply IH. by apply Forall_drop.
Qed.
(** What is left begins the next text. *)
Lemma blocks_app l2 : forall l1 s, blocks f s (l1 ++ l2) = (let '(s', r) := blocks f s l1 in blocks f s' (r ++ l2)).
Proof.
  intros l1. remember (length l1) as n eqn:Hn. revert l1 Hn. induction n as [n IH] using lt_wf_ind. intros l1 -> s.
  destruct (Z.ltb_spec (zlen l1) 64); [by rewrite (blocks_short s l1)|].
  rewrite <- (ztake_drop 64 l1). rewrite <- app_assoc. assert (zlen (ztake 64 l1) = 64) as H64 by zlen. rewrite (blocks_block _ _ (zdrop 64 l1 ++ l2)), (blocks_block _ _ (zdrop 64 l1)) by done.
  refine (IH (length (zdrop 64 l1)) _ (zdrop 64 l1) eq_refl _). unfold zdrop. rewrite length_drop. unfold zlen in *. lia.
Qed.
End Blocks.

(** Two compressions that agree on related states agree on texts. *)
Lemma blocks_related {S T} (R : S -> T -> Prop) (f : S -> list Z -> S) (g : T -> list Z -> T) :
  (forall s t b, R s t -> zlen b = 64 -> Forall is_byte b -> R (f s b) (g t b)) ->
  forall l s t, Forall is_byte l -> R s t -> R (blocks f s l).1 (blocks g t l).1 /\ (blocks f s l).2 = (blocks g t l).2.
Proof.
  intros Hfg l. unfold blocks. generalize (length l) as fuel. intros fuel. revert l. induction fuel as [|fuel IH]; intros l s t Hl H; cbn [absorb]; [done|].
  destruct (Z.leb_spec 64 (zlen l)); [|done]. apply IH; [by apply Forall_drop|]. apply Hfg; [done | zlen | by apply Forall_take].
Qed.

(** ** The buffer *)

(** What has begun is completed by the head of the input, *)
Lemma blocks_complete {S} (f : S -> list Z -> S) s m s1 rest input : blocks f s m = (s1, rest) -> let fill := 64 - zlen rest in fill <= zlen input ->
  blocks f s (m ++ input) = blocks f (f s1 (rest ++ ztake fill input)) (zdrop fill input).
Proof.
  intros E fill Hf. pose proof (blocks_rest f s m _ _ E) as [Hr _]. rewrite blocks_app, E, <- (ztake_drop fill input) at 1. rewrite app_assoc.
  pose proof (zlen_nonneg rest). apply blocks_block. unfold fill in *. zlen.
Qed.
(** or is still not a block. *)
Lemma blocks_begin {S} (f : S -> list Z -> S) s m s1 rest input : blocks f s m = (s1, rest) -> zlen rest + zlen input < 64 ->
  blocks f s (m ++ input) = (s1, rest ++ input).
Proof. intros E H. rewrite blocks_app, E. apply blocks_short. zlen. Qed.

Definition begins (buf rest : list Z) : Prop := zlen buf = 64 /\ ztake (zlen rest) buf = rest.
Lemma begins_write buf rest d : begins buf rest -> zlen rest + zlen d <= 64 ->
  exists buf', bwrite (zlen rest) d buf = Ok buf' /\ begins buf' (rest ++ d).
Proof.
  intros [Hb Hr] Hd. pose proof (zlen_nonneg rest). pose proof (zlen_nonneg d). eexists. split; [apply bwrite_in; lia|]. split; [rewrite zlen_splice; lia|].
  unfold splice. rewrite Hr, app_assoc. apply ztake_prefix.
Qed.
Lemma begins_full buf rest : begins buf rest -> zlen rest = 64 -> buf = rest.
Proof. intros [Hb Hr] H. by rewrite <- Hr, ztake_all by lia. Qed.
Lemma begins_nil buf : zlen buf = 64 -> begins buf [].
Proof. by split. Qed.

(** ** Bytes of words *)

Lemma slice_word l o : 0 <= o -> o + 4 <= zlen l -> slice o 4 l = [znth l o; znth l (o + 1); znth l (o + 2); znth l (o + 3)].
Proof.
  intros. rewrite !slice_head by lia. rewrite <- !Z.add_assoc. done.
Qed.
Lemma le_bytes_app n k v : le_bytes (n + k) v = le_bytes k v ++ le_bytes n (v / 256 ^ Z.of_nat k).
Proof.
  revert v. induction k as [|k IH]; intros v; [by rewrite Nat.add_0_r, Z.div_1_r|].
  replace (n + Datatypes.S k)%nat with (Datatypes.S (n + k)) by lia. change (v mod 256 :: le_bytes (n + k) (v / 256) = v mod 256 :: (le_bytes k (v / 256) ++ le_bytes n (v / 256 ^ Z.of_nat (Datatypes.S k)))). rewrite IH. do 3 f_equal.
  rewrite Z.div_div by lia. f_equal. rewrite Nat2Z.inj_succ, Z.pow_succ_r by lia. done.
Qed.
Lemma be_bytes_app n k v : be_bytes (n + k) v = be_bytes n (v / 256 ^ Z.of_nat k) ++ be_bytes k v.
Proof. unfold be_bytes. by rewrite <- rev_app_distr, <- le_bytes_app. Qed.
Lemma le_bytes_same32 a b : same32 a b -> le_bytes 4 a = le_bytes 4 b.
Proof. intros H. rewrite <- (le_bytes_mod 4 a), <- (le_bytes_mod 4 b). f_equal. apply H. Qed.
Lemma be_bytes_same32 a b : same32 a b -> be_bytes 4 a = be_bytes 4 b.
Proof. intros H. unfold be_bytes. f_equal. by apply le_bytes_same32. Qed.

(** ** The watchdog *)

(** With a watchdog the input is hashed in pieces of [chunk_sz] bytes.  [None]: the fuel,
    one step for each byte, is not enough. *)
Section Watchdog.
Context {C : Type} (update : C -> list Z -> outcome C).
Fixpoint wd_loop (fuel : nat) (ctx : C) (curr : list Z) (chunk_sz : Z) : option (outcome C) :=
  if zlen curr <=? 0 then Some (Ok ctx) else
  match fuel with
  | O => None
  | S fuel =>
      let chunk := if chunk_sz <? zlen curr then chunk_sz else zlen curr in
      match update ctx (ztake chunk curr) with
      | Ok ctx => wd_loop fuel ctx (zdrop chunk curr) chunk_sz
      | e => Some e
      end
  end.
Definition wd_update (watchdog : bool) (ctx : C) (input : list Z) (chunk_sz : Z) : option (outcome C) :=
  if watchdog then wd_loop (length input) ctx input chunk_sz else Some (update ctx input).
Lemma wd_update_holds (I : C -> list Z -> Prop) (n : Z) watchdog chunk_sz :
  (forall ctx m c, I ctx m -> Forall is_byte c -> zlen c <= n -> zlen m + zlen c < 2 ^ 61 -> exists ctx', update ctx c = Ok ctx' /\ I ctx' (m ++ c)) ->
  0 < chunk_sz -> forall ctx m input, I ctx m -> Forall is_byte input -> zlen input <= n -> zlen m + zlen input < 2 ^ 61 ->
  exists ctx', wd_update watchdog ctx input chunk_sz = Some (Ok ctx') /\ I ctx' (m ++ input).
Proof.
  intros Hu Hc ctx m input. unfold wd_update. destruct watchdog.
  - assert (zlen input <= Z.of_nat (length input)) as Hf by done. revert Hf ctx m. generalize (length input) as fuel. intros fuel. revert input.
    induction fuel as [|fuel IH]; intros input Hf ctx m HI Hb Hn Hs; cbn [wd_loop]; pose proof (zlen_nonneg input).
    + rewrite (proj2 (Z.leb_le _ _)) by lia. rewrite (zlen_0_nil input), app_nil_r by lia. eauto.
    + destruct (Z.leb_spec (zlen input) 0); [rewrite (zlen_0_nil input), app_nil_r by lia; eauto|]. cbv zeta.
      set (chunk := if _ <? _ then _ else _). assert (0 < chunk <= zlen input) as Hk by (unfold chunk; destruct (Z.ltb_spec chunk_sz (zlen input)); lia). clearbody chunk.
      destruct (Hu ctx m (ztake chunk input) HI ltac:(by apply Forall_take)) as (ctx1 & -> & H1); [rewrite zlen_take; lia..|].
      assert (m ++ input = (m ++ ztake chunk input) ++ zdrop chunk input) as -> by (by rewrite <- app_assoc, ztake_drop). apply IH; [rewrite zlen_drop; lia | done | by apply Forall_drop | rewrite zlen_drop; lia|].
      rewrite zlen_app, zlen_take, zlen_drop. lia.
  - intros HI Hb Hn Hs. destruct (Hu ctx m input HI Hb Hn Hs) as (ctx' & -> & H'). eauto.
Qed.
End Watchdog.
