(* ===== verification/Sha1.v ===== *)
(** * SHA-1 (contrib/uboot_mkimage/lib/sha1.c)

    The functions work on [unsigned long], whose width [w] is a parameter: on machines where
    it has more than 32 bits the high halves of the words fill with garbage, which the
    theorems show to be harmless.  [digest] is the standard's definition. *)

From S2P Require Import Prelude CLib Endian Hash.

Section Long.
(** The bits of an unsigned long. *)
Context (w : Z).
Definition ul (z : Z) : Z := z mod 2 ^ w.

(** ** The code *)

Record sha1_context : Type := Sha1 {
  sha1_total : Z * Z;
  sha1_state : list Z;
  sha1_buffer : list Z
}.
Definition GET_UINT32_BE (b : list Z) (i : Z) : Z :=
  Z.lor (Z.lor (Z.lor (Z.shiftl (znth b i) 24) (Z.shiftl (znth b (i + 1)) 16)) (Z.shiftl (znth b (i + 2)) 8)) (znth b (i + 3)).
Definition PUT_UINT32_BE (n : Z) : list Z := [u8 (Z.shiftr n 24); u8 (Z.shiftr n 16); u8 (Z.shiftr n 8); u8 n].

(** The buffer keeps what was there. *)
Definition sha1_starts (buffer : list Z) : sha1_context :=
  Sha1 (0, 0) [0x67452301; 0xEFCDAB89; 0x98BADCFE; 0x10325476; 0xC3D2E1F0] buffer.

(** The macros S, R, F, K and P; the five variables of P go around, as the arguments of its
    eighty uses do. *)
Definition S_ (x n : Z) : Z := Z.lor (ul (Z.shiftl x n)) (Z.shiftr (Z.land x 0xFFFFFFFF) (32 - n)).
Definition at_ (l : list Z) (i : nat) : Z := nth i l 0.
Definition R_ (W : list Z) (t : nat) : list Z :=
  let temp := Z.lxor (Z.lxor (Z.lxor (at_ W ((t - 3) mod 16)) (at_ W ((t - 8) mod 16))) (at_ W ((t - 14) mod 16))) (at_ W (t mod 16)) in
  <[(t mod 16)%nat := S_ temp 1]> W.
Definition F_ (t : nat) (x y z : Z) : Z :=
  if (t <? 20)%nat then Z.lxor z (Z.land x (Z.lxor y z))
  else if (t <? 40)%nat then Z.lxor (Z.lxor x y) z
  else if (t <? 60)%nat then Z.lor (Z.land x y) (Z.land z (Z.lor x y))
  else Z.lxor (Z.lxor x y) z.
Definition K_ (t : nat) : Z :=
  if (t <? 20)%nat then 0x5A827999 else if (t <? 40)%nat then 0x6ED9EBA1 else if (t <? 60)%nat then 0x8F1BBCDC else 0xCA62C1D6.
Definition P_ (t : nat) (v : list Z) (x : Z) : list Z :=
  let ia := ((80 - t) mod 5)%nat in let ib := ((81 - t) mod 5)%nat in let ic := ((82 - t) mod 5)%nat in
  let id := ((83 - t) mod 5)%nat in let ie := ((84 - t) mod 5)%nat in
  let v := <[ie := ul (at_ v ie + (S_ (at_ v ia) 5 + F_ t (at_ v ib) (at_ v ic) (at_ v id) + K_ t + x))]> v in
  <[ib := S_ (at_ v ib) 30]> v.
Definition round (vW : list Z * list Z) (t : nat) : list Z * list Z :=
  let '(v, W) := vW in
  let W := if (t <? 16)%nat then W else R_ W t in
  (P_ t v (at_ W (t mod 16)), W).
Definition sha1_process (state data : list Z) : list Z :=
  let W := map (fun i => GET_UINT32_BE data (4 * Z.of_nat i)) (seq 0 16) in
  let '(v, _) := fold_left round (seq 0 80) (state, W) in
  zip_with (fun s x => ul (s + x)) state v.

(** The length of the input is passed as an int. *)
Definition sha1_update (ctx : sha1_context) (input : list Z) : outcome sha1_context :=
  let ilen := s32 (zlen input) in
  let input := ztake ilen input in
  if ilen <=? 0 then Ok ctx else
  let '(t0, t1) := sha1_total ctx in
  let left_ := Z.land t0 0x3F in
  let fill := 64 - left_ in
  let t0 := Z.land (ul (t0 + ilen)) 0xFFFFFFFF in
  let t1 := if t0 <? ilen then ul (t1 + 1) else t1 in
  let first := negb (left_ =? 0) && (fill <=? ilen) in
  buffer ← (if first then bwrite left_ (ztake fill input) (sha1_buffer ctx) else Ok (sha1_buffer ctx));
  let state := if first then sha1_process (sha1_state ctx) buffer else sha1_state ctx in
  let input := if first then zdrop fill input else input in
  let left_ := if first then 0 else left_ in
  let '(state, input) := absorb sha1_process (length input) state input in
  buffer ← (if 0 <? zlen input then bwrite left_ input buffer else Ok buffer);
  Ok (Sha1 (t0, t1) state buffer).

Definition sha1_padding : list Z := 0x80 :: zrep 63 0.
(** The digest, and the context as it is left. *)
Definition sha1_finish (ctx : sha1_context) : outcome (list Z * sha1_context) :=
  let '(t0, t1) := sha1_total ctx in
  let high := Z.lor (Z.shiftr t0 29) (ul (Z.shiftl t1 3)) in
  let low := ul (Z.shiftl t0 3) in
  let msglen := PUT_UINT32_BE high ++ PUT_UINT32_BE low in
  let last := Z.land t0 0x3F in
  let padn := if last <? 56 then 56 - last else 120 - last in
  padding ← bread 0 padn sha1_padding;
  ctx ← sha1_update ctx padding;
  ctx ← sha1_update ctx msglen;
  Ok (concat (map PUT_UINT32_BE (sha1_state ctx)), ctx).

Definition sha1_csum (buffer input : list Z) : outcome (list Z) :=
  ctx ← sha1_update (sha1_starts buffer) input;
  r ← sha1_finish ctx;
  Ok r.1.
(** [watchdog]: compiled with CONFIG_WATCHDOG. *)
Definition sha1_csum_wd (watchdog : bool) (buffer input : list Z) (chunk_sz : Z) : option (outcome (list Z)) :=
  match wd_update sha1_update watchdog (sha1_starts buffer) input chunk_sz with
  | None => None
  | Some ctx => Some (ctx ← ctx; r ← sha1_finish ctx; Ok r.1)
  end.
(** Of a key only the first 64 bytes count. *)
Definition key_pad (b : Z) (key : list Z) : list Z := map (Z.lxor b) (ztake 64 key) ++ zrep (64 - zlen key) b.
Definition sha1_hmac (buffer key input : list Z) : outcome (list Z) :=
  ctx ← sha1_update (sha1_starts buffer) (key_pad 0x36 key);
  ctx ← sha1_update ctx input;
  r ← sha1_finish ctx;
  let '(tmpbuf, ctx) := r in
  ctx ← sha1_update (sha1_starts (sha1_buffer ctx)) (key_pad 0x5C key);
  ctx ← sha1_update ctx tmpbuf;
  r ← sha1_finish ctx;
  Ok r.1.
End Long.

(** ** The standard *)

Definition f_of (t : nat) (b c d : Z) : Z :=
  if (t <? 20)%nat then Z.lor (Z.land b c) (Z.land (Z.lnot b) d)
  else if (t <? 40)%nat then Z.lxor (Z.lxor b c) d
  else if (t <? 60)%nat then Z.lor (Z.lor (Z.land b c) (Z.land b d)) (Z.land c d)
  else Z.lxor (Z.lxor b c) d.
Definition next_word (ws : list Z) : Z :=
  let t := length ws in rotl 1 (Z.lxor (Z.lxor (Z.lxor (at_ ws (t - 3)) (at_ ws (t - 8))) (at_ ws (t - 14))) (at_ ws (t - 16))).
Fixpoint schedule (n : nat) (ws : list Z) : list Z :=
  match n with O => ws | S n => schedule n (ws ++ [next_word ws]) end.
Definition words_of (block : list Z) : list Z := map (fun i => be_val (slice (4 * Z.of_nat i) 4 block)) (seq 0 16).
Inductive vars5 : Type := V5 (a b c d e : Z).
Definition step5 (ws : list Z) (v : vars5) (t : nat) : vars5 :=
  let '(V5 a b c d e) := v in V5 (u32 (rotl 5 a + f_of t b c d + e + K_ t + at_ ws t)) a (rotl 30 b) c d.
Definition compress (h : vars5) (block : list Z) : vars5 :=
  let '(V5 h0 h1 h2 h3 h4) := h in
  let '(V5 a b c d e) := fold_left (step5 (schedule 64 (words_of block))) (seq 0 80) h in
  V5 (u32 (h0 + a)) (u32 (h1 + b)) (u32 (h2 + c)) (u32 (h3 + d)) (u32 (h4 + e)).
Definition h_init : vars5 := V5 0x67452301 0xEFCDAB89 0x98BADCFE 0x10325476 0xC3D2E1F0.
(** One bit, zeros up to eight bytes before the end of a block, the length in bits. *)
Definition padded (m : list Z) : list Z := m ++ 0x80 :: zrep ((55 - zlen m) mod 64) 0 ++ be_bytes 8 (8 * zlen m).
Definition digest (m : list Z) : list Z :=
  let '(V5 a b c d e) := (blocks compress h_init (padded m)).1 in
  be_bytes 4 a ++ be_bytes 4 b ++ be_bytes 4 c ++ be_bytes 4 d ++ be_bytes 4 e.
(** HMAC, with the hash of a key that is longer than a block. *)
Definition hmac (key m : list Z) : list Z :=
  let k := if 64 <? zlen key then digest key else key in
  digest (key_pad 0x5C k ++ digest (key_pad 0x36 k ++ m)).

Example digest_abc : digest (str "abc") =
  [0xA9; 0x99; 0x3E; 0x36; 0x47; 0x06; 0x81; 0x6A; 0xBA; 0x3E; 0x25; 0x71; 0x78; 0x50; 0xC2; 0x6C; 0x9C; 0xD0; 0xD8; 0x9D].
Proof. by vm_compute. Qed.
Example sha1_abc : sha1_csum 64 (zrep 64 7) (str "abcdbcdecdefdefgefghfghighijhijkijkljklmklmnlmnomnopnopq") =
  Ok [0x84; 0x98; 0x3E; 0x44; 0x1C; 0x3B; 0xD2; 0x6E; 0xBA; 0xAE; 0x4A; 0xA1; 0xF9; 0x51; 0x29; 0xE5; 0xE5; 0x46; 0x70; 0xF1].
Proof. by vm_compute. Qed.

(** ** The rounds *)

Lemma maj_bits x y z : Z.lor (Z.land x y) (Z.land z (Z.lor x y)) = Z.lor (Z.lor (Z.land x y) (Z.land x z)) (Z.land y z).
Proof.
  apply Z.bits_inj'. intros i Hi. rewrite !Z.lor_spec, !Z.land_spec, !Z.lor_spec.
  by destruct (Z.testbit x i), (Z.testbit y i), (Z.testbit z i).
Qed.
Lemma F_f t x y z : F_ t x y z = f_of t x y z.
Proof. unfold F_, f_of. destruct (t <? 20)%nat; [apply ch_bits|]. destruct (t <? 40)%nat; [done|]. destruct (t <? 60)%nat; [apply maj_bits | done]. Qed.
Lemma F_same32 t a a' b b' c c' : same32 a a' -> same32 b b' -> same32 c c' -> same32 (F_ t a b c) (F_ t a' b' c').
Proof. intros Ha Hb Hc. unfold F_. destruct (t <? 20)%nat, (t <? 40)%nat, (t <? 60)%nat; by rewrite Ha, Hb, Hc. Qed.

Lemma length_schedule n : forall ws, length (schedule n ws) = (n + length ws)%nat.
Proof. induction n as [|n IH]; intros ws; cbn [schedule]; [done|]. rewrite IH, length_app. cbn. lia. Qed.
Lemma schedule_prefix n : forall ws j, (j < length ws)%nat -> at_ (schedule n ws) j = at_ ws j.
Proof.
  induction n as [|n IH]; intros ws j Hj; cbn [schedule]; [done|].
  rewrite IH by (rewrite length_app; cbn; lia). unfold at_. by rewrite app_nth1.
Qed.
(** Every word after the sixteenth comes from those 3, 8, 14 and 16 before. *)
Lemma schedule_next n : forall ws t, (16 <= length ws)%nat -> (length ws <= t < length ws + n)%nat ->
  at_ (schedule n ws) t = rotl 1 (Z.lxor (Z.lxor (Z.lxor (at_ (schedule n ws) (t - 3)) (at_ (schedule n ws) (t - 8))) (at_ (schedule n ws) (t - 14))) (at_ (schedule n ws) (t - 16))).
Proof.
  induction n as [|n IH]; intros ws t Hl Ht; [lia|]. cbn [schedule].
  destruct (decide (t = length ws)) as [->|Hne].
  - rewrite !schedule_prefix by (rewrite length_app; cbn; lia). unfold at_.
    rewrite nth_middle, !app_nth1 by lia. done.
  - apply IH; rewrite length_app; cbn; lia.
Qed.

Definition hv (h : vars5) : list Z := let '(V5 a b c d e) := h in [a; b; c; d; e].
(** The variables as the round [t] names them. *)
Definition vars_of (t : nat) (v : list Z) : list Z := map (fun i => at_ v ((80 - t + i) mod 5)) (seq 0 5).

Section Rounds.
Context (w : Z) (Hw : 32 <= w).

Lemma S_rotl n x y : (n <= 32)%nat -> same32 x y -> same32 (S_ w x (Z.of_nat n)) (rotl n y).
Proof.
  intros Hn H. unfold S_, rotl, ul. rewrite u32_same32. apply lor_same32.
  - rewrite wrap_same32 by done. apply shiftl_same32; [lia | done].
  - replace (Z.land x 0xFFFFFFFF) with (u32 y); [done|]. change 0xFFFFFFFF with (Z.ones 32). rewrite Z.land_ones by lia. symmetry. apply H.
Qed.

Lemma index_mod k t i : (t < 80)%nat -> ((80 - t + k + i) mod 5 = (5 - t mod 5 + k + i) mod 5)%nat.
Proof.
  intros Ht. pose proof (Nat.div_mod_eq t 5). pose proof (Nat.mod_upper_bound t 5 ltac:(done)).
  replace (80 - t + k + i)%nat with (5 - t mod 5 + k + i + (15 - t / 5) * 5)%nat by lia. apply Nat.Div0.mod_add.
Qed.
Lemma P_vars t v x : (t < 80)%nat -> length v = 5%nat ->
  vars_of (S t) (P_ w t v x) = (let n := vars_of t v in
    [ul w (at_ n 4 + (S_ w (at_ n 0) 5 + F_ t (at_ n 1) (at_ n 2) (at_ n 3) + K_ t + x)); at_ n 0; S_ w (at_ n 1) 30; at_ n 2; at_ n 3]).
Proof.
  intros Ht Hv. destruct v as [|a [|b [|c [|d [|e [|]]]]]]; [done..| |done].
  assert (exists r, (r < 5)%nat /\ (t mod 5 = r)%nat) as (r & Hr & E) by (exists (t mod 5)%nat; split; [by apply Nat.mod_upper_bound | done]).
  assert (forall i, ((80 - t + i) mod 5 = (5 - r + i) mod 5)%nat) as HI by (intros i; rewrite <- E, <- (Nat.add_0_r (80 - t)), index_mod, Nat.add_0_r by done; done).
  assert (forall i, ((80 - S t + i) mod 5 = (9 - r + i) mod 5)%nat) as HS.
  { intros i. replace (9 - r + i)%nat with (5 - r + 4 + i)%nat by lia. rewrite <- E, <- index_mod by done.
    replace (80 - t + 4 + i)%nat with (80 - S t + i + 1 * 5)%nat by lia. symmetry. apply Nat.Div0.mod_add. }
  unfold P_. replace ((80 - t) mod 5)%nat with ((80 - t + 0) mod 5)%nat by (f_equal; lia). replace (81 - t)%nat with (80 - t + 1)%nat by lia. replace (82 - t)%nat with (80 - t + 2)%nat by lia.
  replace (83 - t)%nat with (80 - t + 3)%nat by lia. replace (84 - t)%nat with (80 - t + 4)%nat by lia.
  unfold vars_of. cbn [seq map]. rewrite !HI, !HS.
  generalize (S_ w) (F_ t) (ul w) (K_ t). intros s f u k.
  destruct r as [|[|[|[|[|]]]]]; [reflexivity..|lia].
Qed.
Lemma at_insert (l : list Z) i j x : (i < length l)%nat -> at_ (<[i := x]> l) j = if decide (i = j) then x else at_ l j.
Proof.
  intros Hi. unfold at_. rewrite !nth_lookup. destruct (decide (i = j)) as [->|Hne]; [by rewrite list_lookup_insert_eq | by rewrite list_lookup_insert_ne].
Qed.
(** The code keeps the last sixteen words only. *)
Definition window (t : nat) (W ws : list Z) : Prop :=
  forall s, (Nat.max t 16 - 16 <= s < Nat.max t 16)%nat -> same32 (at_ W (s mod 16)) (at_ ws s).
Lemma mod16_inj s t : (t - 16 < s < t)%nat -> (t mod 16)%nat <> (s mod 16)%nat.
Proof. intros H E. pose proof (Nat.div_mod_eq t 16). pose proof (Nat.div_mod_eq s 16). lia. Qed.
Lemma R_window t W ws0 (ws := schedule 64 ws0) : (16 <= t < 80)%nat -> length W = 16%nat -> length ws0 = 16%nat ->
  window t W ws -> window (S t) (R_ w W t) ws /\ length (R_ w W t) = 16%nat.
Proof.
  intros Ht HW Hl H. split; [|unfold R_; by rewrite length_insert]. intros s Hst. rewrite Nat.max_l in Hst by lia.
  assert (t mod 16 < length W)%nat as Hi by (rewrite HW; by apply Nat.mod_upper_bound).
  unfold R_. rewrite at_insert by done. destruct (decide (s = t)) as [->|Hne].
  - rewrite decide_True by done. unfold ws. rewrite (schedule_next 64 _ t) by lia. fold ws.
    apply (S_rotl 1); [lia|]. replace (t mod 16)%nat with ((t - 16) mod 16)%nat.
    + by repeat (apply lxor_same32); apply H; lia.
    + replace t with (t - 16 + 1 * 16)%nat at 2 by lia. by rewrite Nat.Div0.mod_add.
  - rewrite decide_False by (apply mod16_inj; lia). apply H. lia.
Qed.

Definition matches (ws : list Z) (t : nat) (vW : list Z * list Z) (h : vars5) : Prop :=
  length vW.1 = 5%nat /\ length vW.2 = 16%nat /\ window t vW.2 ws /\ Forall2 same32 (vars_of t vW.1) (hv h).
Lemma length_P t v x : length (P_ w t v x) = length v.
Proof. unfold P_. by rewrite !length_insert. Qed.
Lemma P_step ws t v h x : (t < 80)%nat -> length v = 5%nat -> same32 x (at_ ws t) ->
  Forall2 same32 (vars_of t v) (hv h) -> Forall2 same32 (vars_of (S t) (P_ w t v x)) (hv (step5 ws h t)).
Proof.
  intros Ht Hv Hx H. rewrite P_vars by done. cbv zeta. destruct h as [a b c d e]. cbn [hv step5] in *.
  revert H. generalize (vars_of t v) as l. intros l H.
  apply Forall2_cons_inv_r in H as (a' & l1 & Ha & H & ->). apply Forall2_cons_inv_r in H as (b' & l2 & Hb & H & ->).
  apply Forall2_cons_inv_r in H as (c' & l3 & Hc & H & ->). apply Forall2_cons_inv_r in H as (d' & l4 & Hd & H & ->).
  apply Forall2_cons_inv_r in H as (e' & l5 & He & _ & ->). unfold at_ in *. cbn [nth].
  constructor; [|constructor; [exact Ha|]; constructor; [by apply (S_rotl 30); [lia|]|]; by repeat constructor].
  unfold ul. rewrite wrap_same32, u32_same32 by done. rewrite F_f, Hx. clear Hx.
  assert (same32 (S_ w a' 5) (rotl 5 a)) as -> by (apply (S_rotl 5); [lia | done]).
  assert (same32 (f_of t b' c' d') (f_of t b c d)) as -> by (rewrite <- !F_f; by apply F_same32).
  rewrite He. unfold same32. f_equal. lia.
Qed.
Lemma round_step ws0 (ws := schedule 64 ws0) t vW h : (t < 80)%nat -> length ws0 = 16%nat ->
  matches ws t vW h -> matches ws (S t) (round w vW t) (step5 ws h t).
Proof.
  destruct vW as [v W]. intros Ht Hl (Hv & HW & Hw' & HF). cbn [fst snd] in *. unfold round.
  assert (window (S t) (if (t <? 16)%nat then W else R_ w W t) ws /\ length (if (t <? 16)%nat then W else R_ w W t) = 16%nat) as [Hw2 HW2].
  { destruct (Nat.ltb_spec t 16); [|by apply R_window]. split; [|done]. intros s Hst. apply Hw'. lia. }
  repeat split; cbn [fst snd]; [by rewrite length_P | done | done|]. apply P_step; [done..| |done]. apply Hw2. lia.
Qed.
Lemma rounds_step ws0 (ws := schedule 64 ws0) : length ws0 = 16%nat ->
  forall n t vW h, (t + n <= 80)%nat -> matches ws t vW h ->
  matches ws (t + n) (fold_left (round w) (seq t n) vW) (fold_left (step5 ws) (seq t n) h).
Proof.
  intros Hl n. induction n as [|n IH]; intros t vW h Ht H; cbn [seq fold_left]; [by rewrite Nat.add_0_r|].
  rewrite <- Nat.add_succ_comm. apply IH; [lia|]. apply round_step; [lia | done..].
Qed.

(** ** Blocks and contexts *)

Lemma GET_be data i : Forall is_byte data -> 0 <= i -> i + 4 <= zlen data -> GET_UINT32_BE data i = be_val (slice i 4 data).
Proof.
  intros Hb Hi Hl. rewrite slice_word by done. unfold GET_UINT32_BE.
  assert (forall j, 0 <= j < zlen data -> is_byte (znth data j)) as B.
  { intros j Hj. unfold znth. apply Forall_nth; [done|]. unfold zlen in Hj. lia. }
  pose proof (B i ltac:(lia)). pose proof (B (i + 1) ltac:(lia)). pose proof (B (i + 2) ltac:(lia)). pose proof (B (i + 3) ltac:(lia)).
  rewrite <- (u32_small (Z.shiftl (znth data i) 24)), <- (u32_small (Z.shiftl (znth data (i + 1)) 16)), <- (u32_small (Z.shiftl (znth data (i + 2)) 8))
    by (unfold is_byte in *; rewrite Z.shiftl_mul_pow2; lia).
  rewrite lor_bytes4 by done. unfold be_val. cbn [rev app le_val]. lia.
Qed.
Lemma PUT_be x y : same32 x y -> PUT_UINT32_BE x = be_bytes 4 y.
Proof.
  intros H. rewrite <- (be_bytes_same32 x y H). unfold PUT_UINT32_BE, be_bytes, u8. rewrite !Z.shiftr_div_pow2 by lia.
  unfold le_bytes. cbn [rev app]. rewrite !Z.div_div by lia. done.
Qed.
Lemma sha1_process_compress st h data : Forall is_byte data -> zlen data = 64 -> Forall2 same32 st (hv h) ->
  Forall2 same32 (sha1_process w st data) (hv (compress h data)).
Proof.
  intros Hb Hl H. unfold sha1_process, compress. set (W := map _ _).
  assert (W = words_of data) as EW.
  { unfold W, words_of. apply map_ext_in. intros i Hi%in_seq. apply GET_be; [done | lia..]. }
  clearbody W. subst W. assert (length (words_of data) = 16%nat) as Hw16 by (unfold words_of; by rewrite length_map, length_seq).
  pose proof (Forall2_length _ _ _ H) as Hst. destruct h as [h0 h1 h2 h3 h4]. cbn [hv length] in Hst, H.
  assert (matches (schedule 64 (words_of data)) 0 (st, words_of data) (V5 h0 h1 h2 h3 h4)) as M.
  { repeat split; cbn [fst snd]; [done..| |].
    - intros s Hs. rewrite schedule_prefix by (rewrite Hw16; lia). rewrite Nat.mod_small by lia. done.
    - destruct st as [|? [|? [|? [|? [|? [|]]]]]]; [done..|exact H|done]. }
  pose proof (rounds_step (words_of data) Hw16 80 0 _ _ ltac:(lia) M) as (Hv & _ & _ & HF). cbn [Nat.add] in *.
  destruct (fold_left (round w) (seq 0 80) (st, words_of data)) as [v W']. cbn [fst snd] in *.
  destruct (fold_left (step5 _) (seq 0 80) _) as [a b c d e]. cbn [hv] in *. clear M.
  assert (vars_of 80 v = v) as Ev by (destruct v as [|? [|? [|? [|? [|? [|]]]]]]; done). rewrite Ev in HF. clear Ev Hv.
  assert (forall x x' y y', same32 x x' -> same32 y y' -> same32 (ul w (x + y)) (u32 (x' + y'))) as A.
  { intros x x' y y' Hx Hy. unfold ul. by rewrite wrap_same32, u32_same32, Hx, Hy. }
  revert H HF. intros H HF. repeat (apply Forall2_cons_inv_r in H as (? & ? & ? & H & ->)). apply Forall2_nil_inv_r in H as ->.
  repeat (apply Forall2_cons_inv_r in HF as (? & ? & ? & HF & ->)). cbn [zip_with]. repeat (constructor; [by apply A|]). constructor.
Qed.

(** The context holds the text [m]. *)
Definition Holds (ctx : sha1_context) (m : list Z) : Prop :=
  Forall is_byte m /\ zlen m < 2 ^ 61 /\
  sha1_total ctx = (zlen m mod 2 ^ 32, zlen m / 2 ^ 32) /\
  let '(h, rest) := blocks compress h_init m in Forall2 same32 (sha1_state ctx) (hv h) /\ begins (sha1_buffer ctx) rest.
Lemma sha1_starts_holds buffer : zlen buffer = 64 -> Holds (sha1_starts buffer) [].
Proof. intros H. split; [done|]. split; [done|]. split; [done|]. split; [by repeat constructor | by apply begins_nil]. Qed.

Lemma absorb_compress st h l : Forall is_byte l -> Forall2 same32 st (hv h) ->
  exists st' h' rest, absorb (sha1_process w) (length l) st l = (st', rest) /\ blocks compress h l = (h', rest) /\ Forall2 same32 st' (hv h').
Proof.
  intros Hl H. pose proof (blocks_related (fun st h => Forall2 same32 st (hv h)) (sha1_process w) compress) as B.
  destruct (B ltac:(intros; by apply sha1_process_compress) l st h Hl H) as [B1 B2]. unfold blocks at 1 in B1. unfold blocks at 1 in B2.
  destruct (absorb (sha1_process w) (length l) st l) as [st' rest], (blocks compress h l) as [h' rest']. cbn [fst snd] in *. subst. eauto 8.
Qed.
Lemma total_add n k : 0 <= n -> 0 < k < 2 ^ 31 -> n + k < 2 ^ 61 ->
  let t0 := Z.land (ul w (n mod 2 ^ 32 + k)) 0xFFFFFFFF in
  t0 = (n + k) mod 2 ^ 32 /\ (if t0 <? k then ul w (n / 2 ^ 32 + 1) else n / 2 ^ 32) = (n + k) / 2 ^ 32.
Proof.
  intros Hn Hk Hs t0. assert (t0 = (n + k) mod 2 ^ 32) as E.
  { unfold t0. change 0xFFFFFFFF with (Z.ones 32). rewrite Z.land_ones by lia. unfold ul. pose proof (wrap_same32 w (n mod 2 ^ 32 + k) Hw) as W.
    unfold same32 in W. rewrite W. by rewrite Zplus_mod_idemp_l. }
  split; [done|]. rewrite E. assert (2 ^ 32 <= 2 ^ w) by (apply Z.pow_le_mono_r; lia).
  unfold ul. rewrite (Z.mod_small (n / 2 ^ 32 + 1)) by dlia. destruct (Z.ltb_spec ((n + k) mod 2 ^ 32) k); dlia.
Qed.
Lemma begins_prefix buf a b : begins buf (a ++ b) -> begins buf a.
Proof.
  intros [Hb H]. split; [done|]. pose proof (f_equal (ztake (zlen a)) H) as E. rewrite ztake_prefix in E. rewrite <- E at 2.
  unfold ztake. rewrite take_take. f_equal. unfold zlen. rewrite length_app. lia.
Qed.
(** The whole blocks are compressed and the rest begins the buffer. *)
Lemma absorb_rest st h buf l : Forall is_byte l -> Forall2 same32 st (hv h) -> zlen buf = 64 ->
  exists st' h' rest buf', absorb (sha1_process w) (length l) st l = (st', rest) /\ (if 0 <? zlen rest then bwrite 0 rest buf else Ok buf) = Ok buf' /\
    blocks compress h l = (h', rest) /\ Forall2 same32 st' (hv h') /\ begins buf' rest.
Proof.
  intros Hl H Hb. destruct (absorb_compress st h l Hl H) as (st' & h' & rest & Ea & Eb & H').
  pose proof (blocks_rest compress h l _ _ Eb) as [Hr _]. pose proof (zlen_nonneg rest).
  destruct (Z.ltb_spec 0 (zlen rest)) as [Hp|Hz].
  - destruct (begins_write buf [] rest (begins_nil _ Hb) ltac:(rewrite zlen_nil; lia)) as (buf' & Ew & Hw').
    exists st', h', rest, buf'. by rewrite (proj2 (Z.ltb_lt _ _) Hp).
  - exists st', h', rest, buf. rewrite (proj2 (Z.ltb_ge _ _) Hz). repeat split; [done..|]. by rewrite (zlen_0_nil rest) by lia.
Qed.
(** The input is counted and its whole blocks are compressed. *)
Lemma sha1_update_holds ctx m input : Holds ctx m -> Forall is_byte input -> zlen input < 2 ^ 31 -> zlen m + zlen input < 2 ^ 61 ->
  exists ctx', sha1_update w ctx input = Ok ctx' /\ Holds ctx' (m ++ input).
Proof.
  intros (Hm & Hmax & Ht & Hst) Hi Hl Hs. pose proof (zlen_nonneg input). pose proof (zlen_nonneg m). unfold sha1_update.
  rewrite s32_small, (ztake_all (zlen input) input) by lia. destruct (Z.leb_spec (zlen input) 0).
  { rewrite (zlen_0_nil input), app_nil_r by lia. eexists. split; [done|]. by repeat split. }
  destruct (total_add (zlen m) (zlen input)) as [E0 E1]; [lia..|]. rewrite Ht. cbv zeta. cbn [fst snd]. rewrite E1, E0.
  destruct (blocks compress h_init m) as [h rest] eqn:EB. pose proof (blocks_rest compress h_init m _ _ EB) as [Hr Hr'].
  pose proof (blocks_rest_Forall compress is_byte m _ _ _ Hm EB) as Hrest. destruct Hst as [Hst Hb].
  assert (Z.land (zlen m mod 2 ^ 32) 63 = zlen rest) as -> by (change 63 with (Z.ones 6); rewrite Z.land_ones, Hr' by lia; dlia).
  pose proof (zlen_nonneg rest).
  assert (forall st' h' rest' buf', Forall2 same32 st' (hv h') -> blocks compress h_init (m ++ input) = (h', rest') -> begins buf' rest' ->
    Holds (Sha1 ((zlen m + zlen input) mod 2 ^ 32, (zlen m + zlen input) / 2 ^ 32) st' buf') (m ++ input)) as Done.
  { intros st' h' rest' buf' A1 A2 A3. split; [by apply Forall_app|]. rewrite zlen_app. split; [lia|]. split; [done|]. by rewrite A2. }
  destruct (Z.eqb_spec (zlen rest) 0) as [E|E]; cbn [negb andb].
  - pose proof (zlen_0_nil rest E) as ->. bsimpl. destruct (absorb_rest (sha1_state ctx) h (sha1_buffer ctx) input Hi Hst (proj1 Hb)) as (st' & h' & rest' & buf' & -> & Ew & Ei & Hst' & Hb').
    cbv beta iota. change (zlen (@nil Z)) with 0. rewrite Ew. bsimpl. eexists. split; [done|]. eapply Done; [done| |done]. by rewrite blocks_app, EB.
  - destruct (Z.leb_spec (64 - zlen rest) (zlen input)) as [Hf|Hf].
    + destruct (begins_write (sha1_buffer ctx) rest (ztake (64 - zlen rest) input) Hb ltac:(rewrite zlen_take; lia)) as (buf1 & -> & Hb1). bsimpl.
      set (blk := rest ++ ztake (64 - zlen rest) input) in *. assert (zlen blk = 64) as H64 by (unfold blk; rewrite zlen_app, zlen_take; lia).
      rewrite (begins_full buf1 blk Hb1 H64). assert (Forall is_byte blk) as Hblk by (apply Forall_app; split; [done | by apply Forall_take]).
      destruct (absorb_rest _ _ blk (zdrop (64 - zlen rest) input) ltac:(by apply Forall_drop) (sha1_process_compress (sha1_state ctx) h _ Hblk H64 Hst) H64)
        as (st' & h' & rest' & buf' & -> & Ew & Ei & Hst' & Hb').
      cbv beta iota. rewrite Ew. bsimpl. eexists. split; [done|]. eapply Done; [done| |done]. rewrite (blocks_complete _ _ _ _ _ _ EB) by done. done.
    + bsimpl. rewrite absorb_enough with (fuel' := O) by (unfold zlen in *; lia). cbn [absorb]. rewrite (proj2 (Z.ltb_lt 0 (zlen input))) by lia.
      destruct (begins_write (sha1_buffer ctx) rest input Hb ltac:(lia)) as (buf' & -> & Hb'). bsimpl.
      eexists. split; [done|]. eapply Done; [done| |done]. apply blocks_begin; [done | lia].
Qed.

(** ** The digest *)

Lemma padding_bytes n : 0 < n <= 64 -> bread 0 n sha1_padding = Ok (0x80 :: zrep (n - 1) 0).
Proof.
  intros Hn. rewrite bread_in by (lia || (unfold sha1_padding; rewrite zlen_cons, zlen_rep; lia)). f_equal. rewrite slice_0. unfold ztake.
  replace (Z.to_nat n) with (S (Z.to_nat (n - 1))) by lia. unfold sha1_padding. rewrite firstn_cons. f_equal. unfold zrep. rewrite take_replicate. f_equal. lia.
Qed.
Lemma zeros_bytes n : Forall is_byte (0x80 :: zrep n 0).
Proof. constructor; [done|]. by apply Forall_replicate. Qed.
Lemma msglen_bytes n : 0 <= n < 2 ^ 61 ->
  PUT_UINT32_BE (Z.lor (Z.shiftr (n mod 2 ^ 32) 29) (ul w (Z.shiftl (n / 2 ^ 32) 3))) ++ PUT_UINT32_BE (ul w (Z.shiftl (n mod 2 ^ 32) 3)) = be_bytes 8 (8 * n).
Proof.
  intros Hn. rewrite (be_bytes_app 4 4). f_equal; apply PUT_be; unfold ul.
  - assert (2 ^ 32 <= 2 ^ w) by (apply Z.pow_le_mono_r; lia). rewrite Z.shiftl_mul_pow2, Z.shiftr_div_pow2 by lia.
    rewrite (Z.mod_small (n / 2 ^ 32 * 2 ^ 3)) by dlia. rewrite Z.lor_comm, lor_add_shift by dlia.
    unfold same32. f_equal. change (256 ^ Z.of_nat 4) with (2 ^ 32). dlia.
  - rewrite wrap_same32 by done. rewrite Z.shiftl_mul_pow2 by lia. unfold same32. dlia.
Qed.
Lemma padded_length m : zlen (padded m) mod 64 = 0.
Proof. pose proof (zlen_nonneg m). unfold padded. zlen. rewrite Z.max_r by dlia. dlia. Qed.
Lemma sha1_finish_digest ctx m : Holds ctx m -> zlen m < 2 ^ 60 ->
  exists ctx', sha1_finish w ctx = Ok (digest m, ctx') /\ zlen (sha1_buffer ctx') = 64.
Proof.
  intros H Hs. pose proof (zlen_nonneg m). pose proof H as (Hm & _ & Ht & _). unfold sha1_finish. rewrite Ht.
  assert (Z.land (zlen m mod 2 ^ 32) 63 = zlen m mod 64) as -> by (change 63 with (Z.ones 6); rewrite Z.land_ones by lia; dlia).
  cbv zeta. rewrite msglen_bytes by lia. set (padn := if _ <? _ then _ else _).
  assert (0 < padn <= 64 /\ padn - 1 = (55 - zlen m) mod 64) as [Hp Ep] by (unfold padn; destruct (Z.ltb_spec (zlen m mod 64) 56); dlia).
  rewrite padding_bytes by done. bsimpl. rewrite Ep. clearbody padn.
  destruct (sha1_update_holds ctx m (0x80 :: zrep ((55 - zlen m) mod 64) 0) H (zeros_bytes _)) as (ctx1 & -> & H1); [zlen..|]. bsimpl.
  destruct (sha1_update_holds ctx1 _ (be_bytes 8 (8 * zlen m)) H1) as (ctx2 & -> & H2); [apply Forall_rev, le_bytes_is_byte | zlen..|]. bsimpl.
  assert ((m ++ 0x80 :: zrep ((55 - zlen m) mod 64) 0) ++ be_bytes 8 (8 * zlen m) = padded m) as E by (unfold padded; by rewrite <- app_assoc).
  rewrite E in H2. destruct H2 as (_ & _ & _ & Hst). exists ctx2. unfold digest. destruct (blocks compress h_init (padded m)) as [[a b c d e] rest].
  destruct Hst as [Hst [Hb _]]. split; [|done]. cbn [hv fst] in *.
  repeat (apply Forall2_cons_inv_r in Hst as (? & ? & ? & Hst & ->)). apply Forall2_nil_inv_r in Hst as ->. cbn [map concat].
  rewrite app_nil_r.
  by repeat match goal with H : same32 ?x _ |- context [PUT_UINT32_BE ?x] => rewrite (PUT_be _ _ H); clear H end.
Qed.

(** Several updates. *)
Fixpoint sha1_updates (ctx : sha1_context) (chunks : list (list Z)) : outcome sha1_context :=
  match chunks with [] => Ok ctx | c :: chunks => ctx ← sha1_update w ctx c; sha1_updates ctx chunks end.
Definition fits (c : list Z) : Prop := Forall is_byte c /\ zlen c < 2 ^ 31.
Lemma sha1_updates_holds chunks : forall ctx m, Holds ctx m -> Forall fits chunks -> zlen m + zlen (concat chunks) < 2 ^ 61 ->
  exists ctx', sha1_updates ctx chunks = Ok ctx' /\ Holds ctx' (m ++ concat chunks).
Proof.
  induction chunks as [|c chunks IH]; intros ctx m H Hc Hs; cbn [sha1_updates concat] in *.
  - rewrite app_nil_r. eauto.
  - inversion Hc as [|? ? [Hb Hl] Hc']; subst. rewrite zlen_app in Hs. pose proof (zlen_nonneg (concat chunks)).
    destruct (sha1_update_holds ctx m c H Hb Hl ltac:(lia)) as (ctx1 & -> & H1). bsimpl. rewrite app_assoc. apply IH; [done..|]. rewrite zlen_app. lia.
Qed.
End Rounds.

Lemma sha1_csum_wd_digest w watchdog buffer input chunk_sz : 32 <= w -> zlen buffer = 64 -> fits input -> 0 < chunk_sz ->
  sha1_csum_wd w watchdog buffer input chunk_sz = Some (Ok (digest input)).
Proof.
  intros Hw Hb [Hi Hl] Hc. unfold sha1_csum_wd.
  destruct (wd_update_holds (sha1_update w) Holds (2 ^ 31 - 1) watchdog chunk_sz) with (ctx := sha1_starts buffer) (m := @nil Z) (input := input) as (ctx & -> & H);
    [intros; apply sha1_update_holds; done || lia | done | by apply sha1_starts_holds | done | lia | rewrite zlen_nil; lia|].
  bsimpl. destruct (sha1_finish_digest w Hw ctx _ H) as (ctx' & -> & _); [cbn [app]; lia | done].
Qed.

(** C24: [sha1_update] and [sha1_finish] compute SHA-1: however a text of less than 2^60 bytes is
    cut into inputs of less than 2^31, whatever the buffer held before, and however wide an
    unsigned long is from 32 bits on, the updates and the final step run within the buffer
    and give the digest of the standard. *)
Theorem sha1_chunks w buffer chunks : 32 <= w -> zlen buffer = 64 -> Forall fits chunks -> zlen (concat chunks) < 2 ^ 60 ->
  (ctx ← sha1_updates w (sha1_starts buffer) chunks; r ← sha1_finish w ctx; Ok r.1) = Ok (digest (concat chunks)).
Proof.
  intros Hw Hb Hc Hs. destruct (sha1_updates_holds w Hw chunks _ _ (sha1_starts_holds buffer Hb) Hc) as (ctx & -> & H); [rewrite zlen_nil; lia|]. bsimpl.
  destruct (sha1_finish_digest w Hw ctx _ H Hs) as (ctx' & -> & _). done.
Qed.
Lemma sha1_chunks_witness :
  (ctx ← sha1_updates 64 (sha1_starts (zrep 64 1)) [str "ab"; str "c"]; r ← sha1_finish 64 ctx; Ok r.1) = Ok (digest (str "abc")).
Proof. apply (sha1_chunks 64 (zrep 64 1) [str "ab"; str "c"]); [done | done | by repeat constructor | done]. Defined.

(** *** HMAC *)

Lemma key_pad_block b key : is_byte b -> Forall is_byte key -> zlen (key_pad b key) = 64 /\ Forall is_byte (key_pad b key).
Proof.
  intros Hb Hk. unfold key_pad. split.
  - rewrite zlen_app, zlen_rep. unfold zlen at 1. rewrite length_map. fold (zlen (ztake 64 key)). pose proof (zlen_nonneg key). rewrite zlen_take. lia.
  - apply Forall_app. split; [|by apply Forall_replicate]. apply Forall_map, Forall_take. eapply Forall_impl; [exact Hk|]. intros x Hx. by apply lxor_byte.
Qed.
Lemma digest_bytes m : Forall is_byte (digest m) /\ zlen (digest m) = 20.
Proof.
  unfold digest. destruct (blocks _ _ _).1 as [a b c d e]. split; [|by zlen].
  rewrite !Forall_app. repeat split; apply Forall_rev, le_bytes_is_byte.
Qed.
(** For keys of up to 64 bytes the standard's HMAC; longer keys are cut, not hashed. *)
Lemma sha1_hmac_short w buffer key input : 32 <= w -> zlen buffer = 64 -> Forall is_byte key -> zlen key <= 64 -> fits input ->
  sha1_hmac w buffer key input = Ok (hmac key input).
Proof.
  intros Hw Hb Hk Hl [Hi Hs]. unfold sha1_hmac, hmac. rewrite (proj2 (Z.ltb_ge 64 (zlen key))) by lia.
  destruct (key_pad_block 0x36 key ltac:(done) Hk) as [L1 B1]. destruct (key_pad_block 0x5C key ltac:(done) Hk) as [L2 B2].
  destruct (digest_bytes (key_pad 0x36 key ++ input)) as [BD LD]. pose proof (zlen_nonneg input).
  destruct (sha1_update_holds w Hw _ [] _ (sha1_starts_holds buffer Hb) B1) as (c1 & -> & H1); [rewrite ?zlen_nil; lia..|]. bsimpl. cbn [app] in H1.
  destruct (sha1_update_holds w Hw _ _ input H1 Hi Hs) as (c2 & -> & H2); [lia|]. bsimpl.
  destruct (sha1_finish_digest w Hw c2 _ H2) as (c3 & -> & H3); [rewrite zlen_app; lia|]. bsimpl.
  destruct (sha1_update_holds w Hw _ [] _ (sha1_starts_holds _ H3) B2) as (c4 & -> & H4); [rewrite ?zlen_nil; lia..|]. bsimpl. cbn [app] in H4.
  destruct (sha1_update_holds w Hw _ _ _ H4 BD) as (c5 & -> & H5); [lia..|]. bsimpl.
  destruct (sha1_finish_digest w Hw c5 _ H5) as (c6 & -> & _); [rewrite zlen_app; lia|]. done.
Qed.
Example long_key_cut : sha1_hmac 32 (zrep 64 0) (zrep 65 1) (str "x") = sha1_hmac 32 (zrep 64 0) (zrep 64 1) (str "x") /\
  sha1_hmac 32 (zrep 64 0) (zrep 65 1) (str "x") <> Ok (hmac (zrep 65 1) (str "x")).
Proof. split; by vm_compute. Qed.
