(* ===== verification/Md5.v ===== *)
(** * MD5 (contrib/uboot_mkimage/lib/md5.c)

    The context keeps bytes which [byteReverse] turns into words of the host, whose byte
    order is [big].  [md5_digest] is the definition of RFC 1321, with the table made from
    the sine. *)

From S2P Require Import Prelude CLib Endian Hash.

Section Host.
Context (big : bool).

(** ** The code *)

Record MD5Context : Type := MD5C {
  md5_buf : list Z;
  md5_bits : Z * Z;
  md5_in : list Z
}.
Fixpoint byteReverse (longs : nat) (buf : list Z) : list Z :=
  match longs with
  | O => buf
  | S longs =>
      let t := Z.lor (u32 (Z.shiftl (Z.lor (Z.shiftl (znth buf 3) 8) (znth buf 2)) 16)) (Z.lor (Z.shiftl (znth buf 1) 8) (znth buf 0)) in
      host_bytes big 4 t ++ byteReverse longs (zdrop 4 buf)
  end.
(** Memory read as words. *)
Definition host_words (n : nat) (l : list Z) : list Z := map (fun i => host_val big (slice (4 * Z.of_nat i) 4 l)) (seq 0 n).

Definition MD5Init (in_ : list Z) : MD5Context := MD5C [0x67452301; 0xefcdab89; 0x98badcfe; 0x10325476] (0, 0) in_.

Definition F1 (x y z : Z) : Z := Z.lxor z (Z.land x (Z.lxor y z)).
Definition F2 (x y z : Z) : Z := F1 z x y.
Definition F3 (x y z : Z) : Z := Z.lxor (Z.lxor x y) z.
Definition F4 (x y z : Z) : Z := Z.lxor y (Z.lor x (u32 (Z.lnot z))).
Definition f_at (t : nat) : Z -> Z -> Z -> Z :=
  if (t <? 16)%nat then F1 else if (t <? 32)%nat then F2 else if (t <? 48)%nat then F3 else F4.
(** The four variables go around, as the arguments of the 64 uses do. *)
Definition MD5STEP (f : Z -> Z -> Z -> Z) (t : nat) (v : list Z) (data s : Z) : list Z :=
  let at_ i := nth ((64 - t + i) mod 4) v 0 in
  let w := u32 (at_ 0%nat + u32 (f (at_ 1%nat) (at_ 2%nat) (at_ 3%nat) + data)) in
  let w := Z.lor (u32 (Z.shiftl w s)) (Z.shiftr w (32 - s)) in
  <[((64 - t) mod 4)%nat := u32 (w + at_ 1%nat)]> v.
(** The word, the constant and the shift of each step. *)
Definition md5_steps : list (Z * Z * Z) :=
  [(0, 0xd76aa478, 7); (1, 0xe8c7b756, 12); (2, 0x242070db, 17); (3, 0xc1bdceee, 22);
   (4, 0xf57c0faf, 7); (5, 0x4787c62a, 12); (6, 0xa8304613, 17); (7, 0xfd469501, 22);
   (8, 0x698098d8, 7); (9, 0x8b44f7af, 12); (10, 0xffff5bb1, 17); (11, 0x895cd7be, 22);
   (12, 0x6b901122, 7); (13, 0xfd987193, 12); (14, 0xa679438e, 17); (15, 0x49b40821, 22);
   (1, 0xf61e2562, 5); (6, 0xc040b340, 9); (11, 0x265e5a51, 14); (0, 0xe9b6c7aa, 20);
   (5, 0xd62f105d, 5); (10, 0x02441453, 9); (15, 0xd8a1e681, 14); (4, 0xe7d3fbc8, 20);
   (9, 0x21e1cde6, 5); (14, 0xc33707d6, 9); (3, 0xf4d50d87, 14); (8, 0x455a14ed, 20);
   (13, 0xa9e3e905, 5); (2, 0xfcefa3f8, 9); (7, 0x676f02d9, 14); (12, 0x8d2a4c8a, 20);
   (5, 0xfffa3942, 4); (8, 0x8771f681, 11); (11, 0x6d9d6122, 16); (14, 0xfde5380c, 23);
   (1, 0xa4beea44, 4); (4, 0x4bdecfa9, 11); (7, 0xf6bb4b60, 16); (10, 0xbebfbc70, 23);
   (13, 0x289b7ec6, 4); (0, 0xeaa127fa, 11); (3, 0xd4ef3085, 16); (6, 0x04881d05, 23);
   (9, 0xd9d4d039, 4); (12, 0xe6db99e5, 11); (15, 0x1fa27cf8, 16); (2, 0xc4ac5665, 23);
   (0, 0xf4292244, 6); (7, 0x432aff97, 10); (14, 0xab9423a7, 15); (5, 0xfc93a039, 21);
   (12, 0x655b59c3, 6); (3, 0x8f0ccc92, 10); (10, 0xffeff47d, 15); (1, 0x85845dd1, 21);
   (8, 0x6fa87e4f, 6); (15, 0xfe2ce6e0, 10); (6, 0xa3014314, 15); (13, 0x4e0811a1, 21);
   (4, 0xf7537e82, 6); (11, 0xbd3af235, 10); (2, 0x2ad7d2bb, 15); (9, 0xeb86d391, 21)].
Definition MD5Transform (buf in_ : list Z) : list Z :=
  let v := fold_left (fun v '(t, (k, c, s)) => MD5STEP (f_at t) t v (u32 (znth in_ k + c)) s) (zip (seq 0 64) md5_steps) buf in
  zip_with (fun h x => u32 (h + x)) buf v.

(** The words of a block, which stays behind in the order of the host. *)
Definition md5_block (st : list Z * list Z) (block : list Z) : list Z * list Z :=
  let in_ := byteReverse 16 block in (MD5Transform st.1 (host_words 16 in_), in_).

Definition MD5Update (ctx : MD5Context) (buf : list Z) : outcome MD5Context :=
  let len := u32 (zlen buf) in
  let buf := ztake len buf in
  let '(b0, b1) := md5_bits ctx in
  let t := b0 in
  let b0 := u32 (t + u32 (Z.shiftl len 3)) in
  let b1 := if b0 <? t then u32 (b1 + 1) else b1 in
  let b1 := u32 (b1 + Z.shiftr len 29) in
  let t := Z.land (Z.shiftr t 3) 0x3f in
  if negb (t =? 0) && (len <? 64 - t) then
    in_ ← bwrite t buf (md5_in ctx);
    Ok (MD5C (md5_buf ctx) (b0, b1) in_)
  else
    in_ ← (if t =? 0 then Ok (md5_in ctx) else bwrite t (ztake (64 - t) buf) (md5_in ctx));
    let st := if t =? 0 then (md5_buf ctx, in_) else md5_block (md5_buf ctx, in_) in_ in
    let buf := if t =? 0 then buf else zdrop (64 - t) buf in
    let '((h, in_), buf) := absorb md5_block (length buf) st buf in
    in_ ← bwrite 0 buf in_;
    Ok (MD5C h (b0, b1) in_).

(** The digest, and the context cleared. *)
Definition MD5Final (ctx : MD5Context) : outcome (list Z * MD5Context) :=
  let '(b0, b1) := md5_bits ctx in
  let count := Z.land (Z.shiftr b0 3) 0x3F in
  in_ ← bwrite count [0x80] (md5_in ctx);
  let p := count + 1 in
  let count := 64 - 1 - count in
  r ← (if count <? 8 then
         in_ ← bwrite p (zrep count 0) in_;
         let '(h, in_) := md5_block (md5_buf ctx, in_) in_ in
         in_ ← bwrite 0 (zrep 56 0) in_;
         Ok (h, in_)
       else
         in_ ← bwrite p (zrep (count - 8) 0) in_;
         Ok (md5_buf ctx, in_));
  let '(h, in_) := r in
  let in_ := byteReverse 14 in_ in
  in_ ← bwrite 56 (host_bytes big 4 b0 ++ host_bytes big 4 b1) in_;
  let h := MD5Transform h (host_words 16 in_) in
  Ok (byteReverse 4 (concat (map (host_bytes big 4) h)), MD5C (zrep 4 0) (0, 0) (zrep 64 0)).

Definition md5 (in_ input : list Z) : outcome (list Z) :=
  ctx ← MD5Update (MD5Init in_) input;
  r ← MD5Final ctx;
  Ok r.1.
(** [watchdog]: compiled with CONFIG_WATCHDOG. *)
Definition md5_wd (watchdog : bool) (in_ input : list Z) (chunk_sz : Z) : option (outcome (list Z)) :=
  match wd_update MD5Update watchdog (MD5Init in_) input chunk_sz with
  | None => None
  | Some ctx => Some (ctx ← ctx; r ← MD5Final ctx; Ok r.1)
  end.
End Host.

(** ** RFC 1321 *)

(** The sine of [x], with 128 bits after the point. *)
Definition sine (x : Z) : Z :=
  (fold_left (fun '(sum, term, k) _ => (sum + term, - (term * x * x / ((k + 1) * (k + 2))), k + 2)) (seq 0 140) (0, x * 2 ^ 128, 1)).1.1.
Definition T (i : nat) : Z := Z.abs (sine (Z.of_nat i + 1)) / 2 ^ 96.
Definition word_at (i : nat) : nat :=
  (match i / 16 with 0 => i | 1 => 5 * i + 1 | 2 => 3 * i + 5 | _ => 7 * i end mod 16)%nat.
Definition shift_at (i : nat) : nat :=
  nth (i mod 4) (nth (i / 16) [[7; 12; 17; 22]; [5; 9; 14; 20]; [4; 11; 16; 23]; [6; 10; 15; 21]] [])%nat 0%nat.
Definition fghi (i : nat) (x y z : Z) : Z :=
  if (i <? 16)%nat then Z.lor (Z.land x y) (Z.land (Z.lnot x) z)
  else if (i <? 32)%nat then Z.lor (Z.land x z) (Z.land y (Z.lnot z))
  else if (i <? 48)%nat then Z.lxor (Z.lxor x y) z
  else Z.lxor y (Z.lor x (Z.lnot z)).
Inductive vars4 : Type := V4 (a b c d : Z).
Definition step4 (X : list Z) (v : vars4) (i : nat) : vars4 :=
  let '(V4 a b c d) := v in V4 d (u32 (b + rotl (shift_at i) (a + fghi i b c d + nth (word_at i) X 0 + T i))) b c.
Definition le_words (block : list Z) : list Z := map (fun i => le_val (slice (4 * Z.of_nat i) 4 block)) (seq 0 16).
Definition md5_compress (h : vars4) (block : list Z) : vars4 :=
  let '(V4 h0 h1 h2 h3) := h in
  let '(V4 a b c d) := fold_left (step4 (le_words block)) (seq 0 64) h in
  V4 (u32 (h0 + a)) (u32 (h1 + b)) (u32 (h2 + c)) (u32 (h3 + d)).
Definition md5_init : vars4 := V4 0x67452301 0xefcdab89 0x98badcfe 0x10325476.
Definition md5_padded (m : list Z) : list Z := m ++ 0x80 :: zrep ((55 - zlen m) mod 64) 0 ++ le_bytes 8 (8 * zlen m).
Definition md5_digest (m : list Z) : list Z :=
  let '(V4 a b c d) := (blocks md5_compress md5_init (md5_padded m)).1 in le_bytes 4 a ++ le_bytes 4 b ++ le_bytes 4 c ++ le_bytes 4 d.

Example md5_abc big : md5 big (zrep 64 9) (str "abc") = Ok [0x90; 0x01; 0x50; 0x98; 0x3c; 0xd2; 0x4f; 0xb0; 0xd6; 0x96; 0x3f; 0x7d; 0x28; 0xe1; 0x7f; 0x72].
Proof. destruct big; by vm_compute. Qed.
Example md5_digest_abc : md5_digest (str "message digest") = [0xf9; 0x6b; 0x69; 0x7d; 0x7c; 0xb7; 0x93; 0x8d; 0x52; 0x5a; 0x2f; 0x31; 0xaa; 0xf1; 0x61; 0xd0].
Proof. by vm_compute. Qed.
(** The constants of the code are those of the standard. *)
Lemma md5_steps_standard : md5_steps = map (fun i => (Z.of_nat (word_at i), T i, Z.of_nat (shift_at i))) (seq 0 64).
Proof. by vm_compute. Qed.

(** ** Bytes and words *)

Definition words4 (n : nat) (ws : list (list Z)) : Prop := length ws = n /\ Forall (fun b : list Z => zlen b = 4 /\ Forall is_byte b) ws.
Lemma words4_of n : forall l, zlen l = 4 * Z.of_nat n -> Forall is_byte l -> exists ws, l = concat ws /\ words4 n ws.
Proof.
  induction n as [|n IH]; intros l Hl Hb.
  - exists []. by rewrite (zlen_0_nil l) by lia.
  - destruct (IH (zdrop 4 l)) as (ws & E & H1 & H2); [zlen | by apply Forall_drop|].
    exists (ztake 4 l :: ws). cbn [concat length]. rewrite <- E, ztake_drop. split; [done|]. split; [by cbn; rewrite H1|].
    constructor; [|done]. split; [zlen | by apply Forall_take].
Qed.
Lemma slice_4 (b r : list Z) i : zlen b = 4 -> 0 <= i -> slice (4 * (i + 1)) 4 (b ++ r) = slice (4 * i) 4 r.
Proof.
  intros Hb Hi. unfold slice. f_equal. unfold zdrop, zlen in *. rewrite drop_app_ge by lia. f_equal. lia.
Qed.
(** The words of a concatenation. *)
Lemma map_words (g : list Z -> Z) r : forall ws, Forall (fun b : list Z => zlen b = 4) ws ->
  map (fun i => g (slice (4 * Z.of_nat i) 4 (concat ws ++ r))) (seq 0 (length ws)) = map g ws.
Proof.
  intros ws. induction ws as [|b ws IH]; intros H; [done|]. inversion H as [|? ? Hb Hws]; subst. cbn [length seq map concat]. f_equal.
  - f_equal. by apply (slice_at [] b (concat ws ++ r)); [by rewrite <- app_assoc | |].
  - rewrite <- seq_shift, map_map, <- (IH Hws). apply map_ext_in. intros i _. f_equal. rewrite Nat2Z.inj_succ, <- app_assoc. apply slice_4; lia.
Qed.
Section Bytes.
Context (big : bool).
Definition reversed (b : list Z) : list Z := host_bytes big 4 (le_val b).
Lemma reversed_word b : zlen b = 4 -> Forall is_byte b ->
  Z.lor (u32 (Z.shiftl (Z.lor (Z.shiftl (znth b 3) 8) (znth b 2)) 16)) (Z.lor (Z.shiftl (znth b 1) 8) (znth b 0)) = le_val b.
Proof.
  intros Hb H. destruct b as [|b0 [|b1 [|b2 [|b3 [|]]]]]; try (exfalso; unfold zlen in Hb; cbn in Hb; lia).
  repeat (apply Forall_cons in H as [? H]). unfold is_byte in *. cbv [znth Z.to_nat Pos.to_nat Pos.iter_op Nat.add nth]. cbn [le_val].
  rewrite !Z.shiftl_mul_pow2, !lor_add_shift by lia. rewrite u32_small by lia. rewrite lor_add_shift by lia. lia.
Qed.
Lemma byteReverse_words r : forall ws n, words4 n ws -> byteReverse big n (concat ws ++ r) = concat (map reversed ws) ++ r.
Proof.
  intros ws n [<- H]. induction ws as [|b ws IH]; [done|]. inversion H as [|? ? [Hb Hbb] Hws]; subst. cbn [length byteReverse concat map].
  rewrite <- !app_assoc. replace (zdrop 4 (b ++ concat ws ++ r)) with (concat ws ++ r).
  - rewrite IH by done. f_equal. unfold reversed. f_equal. rewrite <- (reversed_word b) by done.
    assert (forall i, 0 <= i < 4 -> znth (b ++ concat ws ++ r) i = znth b i) as E; [|by rewrite !E by lia].
    intros i Hi. unfold znth, zlen in *. apply app_nth1. lia.
  - unfold zdrop, zlen in *. rewrite drop_app_length'; [done | lia].
Qed.
Lemma words4_zlen n ws : words4 n ws -> Forall (fun b : list Z => zlen b = 4) ws.
Proof. intros [_ H]. eapply Forall_impl; [exact H|]. by intros b []. Qed.
Lemma words4_reversed n ws : words4 n ws -> Forall (fun b : list Z => zlen b = 4) (map reversed ws).
Proof. intros [_ H]. apply Forall_map. eapply Forall_impl; [exact H|]. intros b _. unfold reversed. apply zlen_host_bytes. Qed.
Lemma zlen_words ws : Forall (fun b : list Z => zlen b = 4) ws -> zlen (concat ws) = 4 * zlen ws.
Proof. induction 1 as [|b ws Hb H IH]; [done|]. cbn [concat]. rewrite zlen_app, zlen_cons. lia. Qed.
(** On every host the reversed words are read as little-endian. *)
Lemma host_words_reversed n ws r : words4 n ws -> host_words big n (concat (map reversed ws) ++ r) = map le_val ws.
Proof.
  intros H. unfold host_words. pose proof (map_words (host_val big) r (map reversed ws) (words4_reversed n ws H)) as E.
  rewrite length_map, (proj1 H) in E. rewrite E, map_map. apply map_ext_in. intros b Hb. destruct H as [_ H].
  unfold reversed. rewrite host_val_bytes. destruct (proj1 (List.Forall_forall _ _) H b Hb) as [Hl Hbb].
  pose proof (le_val_range b Hbb) as R. rewrite Hl in R. apply Z.mod_small. exact R.
Qed.
Lemma byteReverse_block block : zlen block = 64 -> Forall is_byte block ->
  host_words big 16 (byteReverse big 16 block) = le_words block /\ zlen (byteReverse big 16 block) = 64.
Proof.
  intros Hl Hb. destruct (words4_of 16 block Hl Hb) as (ws & -> & H). rewrite <- (app_nil_r (concat ws)) at 1 3. rewrite byteReverse_words, host_words_reversed by done.
  split; [|rewrite app_nil_r, zlen_words by (by eapply words4_reversed); unfold zlen; rewrite length_map, (proj1 H); done].
  unfold le_words. pose proof (map_words le_val [] ws (words4_zlen _ _ H)) as E. rewrite (proj1 H), app_nil_r in E. by rewrite E.
Qed.
End Bytes.

(** ** The steps *)

Definition hv4 (h : vars4) : list Z := let '(V4 a b c d) := h in [a; b; c; d].
Definition word32 (x : Z) : Prop := 0 <= x < 2 ^ 32.
Definition in32 (h : vars4) : Prop := Forall word32 (hv4 h).
(** The variables as the step [t] names them. *)
Definition vars_at (t : nat) (v : list Z) : list Z := map (fun i => nth ((64 - t + i) mod 4) v 0) (seq 0 4).

Lemma rotl_code s x : (s <= 32)%nat -> word32 x -> Z.lor (u32 (Z.shiftl x (Z.of_nat s))) (Z.shiftr x (32 - Z.of_nat s)) = rotl s x.
Proof.
  intros Hs Hx. unfold rotl. rewrite (u32_small x) by done. unfold u32 at 2. rewrite mod_land, Z.land_lor_distr_l, <- !mod_land. f_equal.
  rewrite Z.mod_small; [done|]. unfold word32 in Hx. rewrite Z.shiftr_div_pow2 by lia.
  assert (1 <= 2 ^ (32 - Z.of_nat s)) by (change 1 with (2 ^ 0); apply Z.pow_le_mono_r; lia).
  split; [apply Z.div_pos; lia|]. apply Z.div_lt_upper_bound; nia.
Qed.
Lemma f_fghi t x y z : same32 (f_at t x y z) (fghi t x y z).
Proof.
  unfold f_at, fghi. destruct (t <? 16)%nat; [by unfold F1; rewrite ch_bits|]. destruct (t <? 32)%nat.
  - unfold F2, F1. rewrite ch_bits. by rewrite (Z.land_comm z x), (Z.land_comm (Z.lnot z) y).
  - destruct (t <? 48)%nat; [done|]. unfold F4. by rewrite u32_same32.
Qed.
Lemma MD5STEP_vars f t v data s : (t < 64)%nat -> length v = 4%nat ->
  vars_at (S t) (MD5STEP f t v data s) = (let n := vars_at t v in let at_ i := nth i n 0 in
    let x := u32 (at_ 0%nat + u32 (f (at_ 1%nat) (at_ 2%nat) (at_ 3%nat) + data)) in
    [at_ 3%nat; u32 (Z.lor (u32 (Z.shiftl x s)) (Z.shiftr x (32 - s)) + at_ 1%nat); at_ 1%nat; at_ 2%nat]).
Proof.
  intros Ht Hv. destruct v as [|a [|b [|c [|d [|]]]]]; [done..| |done].
  pose proof (Nat.div_mod_eq t 4) as D. pose proof (Nat.mod_upper_bound t 4 ltac:(done)) as B.
  assert (forall i, ((64 - t + i) mod 4 = (4 - t mod 4 + i) mod 4)%nat) as HI.
  { intros i. replace (64 - t + i)%nat with (4 - t mod 4 + i + (15 - t / 4) * 4)%nat by lia. apply Nat.Div0.mod_add. }
  assert (forall i, ((64 - S t + i) mod 4 = (4 - t mod 4 + (i + 3)) mod 4)%nat) as HS.
  { intros i. rewrite <- HI. replace (64 - t + (i + 3))%nat with (64 - S t + i + 1 * 4)%nat by lia. symmetry. apply Nat.Div0.mod_add. }
  unfold MD5STEP. replace ((64 - t) mod 4)%nat with ((64 - t + 0) mod 4)%nat by (f_equal; lia). cbv zeta. unfold vars_at. cbn [seq map].
  rewrite !HI, !HS. revert B. generalize (t mod 4)%nat as r. clear. intros r B. generalize u32. intros u.
  destruct r as [|[|[|[|]]]]; [reflexivity..|lia].
Qed.
Lemma step4_code t v h X (k := word_at t) : (t < 64)%nat -> length v = 4%nat -> vars_at t v = hv4 h -> in32 h ->
  vars_at (S t) (MD5STEP (f_at t) t v (u32 (nth k X 0 + T t)) (Z.of_nat (shift_at t))) = hv4 (step4 X h t) /\ in32 (step4 X h t).
Proof.
  intros Ht Hv E H. rewrite MD5STEP_vars, E by done. destruct h as [a b c d]. cbv zeta. cbn [hv4 nth step4]. unfold in32 in H. cbn [hv4] in H.
  rewrite !Forall_cons in H. destruct H as (Ha & Hb & Hc & Hd & _).
  assert (shift_at t <= 32)%nat as Hs.
  { clear -Ht. do 64 (destruct t as [|t]; [vm_compute; lia|]). lia. }
  rewrite rotl_code by (done || apply u32_range).
  set (y := a + fghi t b c d + nth (word_at t) X 0 + T t).
  assert (rotl (shift_at t) (u32 (a + u32 (f_at t b c d + u32 (nth k X 0 + T t)))) = rotl (shift_at t) y) as ->.
  { apply rotl_same32. rewrite !u32_same32, f_fghi. unfold y, k. unfold same32. f_equal. lia. }
  rewrite Z.add_comm. split; [done|]. unfold in32. cbn [hv4]. rewrite !Forall_cons. repeat split; try done; apply u32_range || apply Ha || apply Hb || apply Hc || apply Hd.
Qed.

Lemma fold_zip_map {A B C} (g : A -> B * C -> A) (f : B -> C) l : forall a, fold_left g (zip l (map f l)) a = fold_left (fun a x => g a (x, f x)) l a.
Proof. induction l as [|x l IH]; intros a; [done|]. cbn. apply IH. Qed.
Lemma fold_ext {A B} (f g : A -> B -> A) : (forall a b, f a b = g a b) -> forall l a, fold_left f l a = fold_left g l a.
Proof. intros H l. induction l as [|b l IH]; intros a; [done|]. cbn. rewrite H. apply IH. Qed.
Definition code_step (X v : list Z) (t : nat) : list Z := MD5STEP (f_at t) t v (u32 (nth (word_at t) X 0 + T t)) (Z.of_nat (shift_at t)).
Lemma length_code_step X v t : length (code_step X v t) = length v.
Proof. unfold code_step, MD5STEP. cbv zeta. by rewrite length_insert. Qed.
Lemma steps_code X n : forall t v h, (t + n <= 64)%nat -> length v = 4%nat -> vars_at t v = hv4 h -> in32 h ->
  let v' := fold_left (code_step X) (seq t n) v in let h' := fold_left (step4 X) (seq t n) h in
  length v' = 4%nat /\ vars_at (t + n) v' = hv4 h' /\ in32 h'.
Proof.
  induction n as [|n IH]; intros t v h Ht Hv E H; cbn [seq fold_left]; [by rewrite Nat.add_0_r|].
  destruct (step4_code t v h X ltac:(lia) Hv E H) as [E' H']. rewrite <- Nat.add_succ_comm.
  apply IH; [lia | by rewrite length_code_step | done..].
Qed.
Lemma MD5Transform_compress h block : in32 h -> MD5Transform (hv4 h) (le_words block) = hv4 (md5_compress h block) /\ in32 (md5_compress h block).
Proof.
  intros H. unfold MD5Transform, md5_compress. rewrite md5_steps_standard, fold_zip_map.
  rewrite (fold_ext _ (code_step (le_words block))) by (intros v t; unfold code_step, znth; by rewrite Nat2Z.id).
  assert (length (hv4 h) = 4%nat /\ vars_at 0 (hv4 h) = hv4 h) as [Hl E] by by destruct h.
  destruct (steps_code (le_words block) 64 0 (hv4 h) h ltac:(lia) Hl E H) as (Hv & E' & _). cbv zeta in *. cbn [Nat.add] in E'.
  revert Hv E'. generalize (fold_left (code_step (le_words block)) (seq 0 64) (hv4 h)) as v. intros v Hv E'.
  assert (v = vars_at 64 v) as -> by (destruct v as [|? [|? [|? [|? [|]]]]]; done). rewrite E'.
  destruct (fold_left (step4 _) (seq 0 64) h) as [a b c d]. destruct h as [h0 h1 h2 h3]. cbn [hv4 zip_with]. split; [done|].
  unfold in32. cbn [hv4]. repeat (constructor; [apply u32_range|]). constructor.
Qed.

(** ** Contexts *)

Section Contexts.
Context (big : bool).

(** The state is that of the standard, and the buffer a block. *)
Definition same_state (st : list Z * list Z) (h : vars4) : Prop := st.1 = hv4 h /\ in32 h /\ zlen st.2 = 64.
Lemma md5_block_compress st h block : same_state st h -> zlen block = 64 -> Forall is_byte block -> same_state (md5_block big st block) (md5_compress h block).
Proof.
  intros (E & H & _) Hl Hb. destruct (byteReverse_block big block Hl Hb) as [Ew El]. unfold md5_block. destruct (MD5Transform_compress h block H) as [Et H'].
  repeat split; cbn [fst snd]; [by rewrite Ew, E, Et | done | done].
Qed.
Definition holds (ctx : MD5Context) (m : list Z) : Prop :=
  Forall is_byte m /\ zlen m < 2 ^ 61 /\ md5_bits ctx = (8 * zlen m mod 2 ^ 32, 8 * zlen m / 2 ^ 32) /\
  let '(h, rest) := blocks md5_compress md5_init m in md5_buf ctx = hv4 h /\ in32 h /\ begins (md5_in ctx) rest.
Lemma MD5Init_holds in_ : zlen in_ = 64 -> holds (MD5Init in_) [].
Proof. intros H. split; [done|]. split; [done|]. split; [done|]. split; [done|]. split; [by repeat constructor | by apply begins_nil]. Qed.

(** The whole blocks are compressed and the rest begins the buffer. *)
Lemma md5_absorb_rest st h l : Forall is_byte l -> same_state st h ->
  exists h0 in0 h' rest in_, absorb (md5_block big) (length l) st l = ((h0, in0), rest) /\ bwrite 0 rest in0 = Ok in_ /\
    blocks md5_compress h l = (h', rest) /\ h0 = hv4 h' /\ in32 h' /\ begins in_ rest.
Proof.
  intros Hl H. pose proof (blocks_related same_state (md5_block big) md5_compress ltac:(intros; by apply md5_block_compress) l st h Hl H) as [B1 B2].
  unfold blocks at 1 in B1. unfold blocks at 1 in B2.
  destruct (absorb (md5_block big) (length l) st l) as [[h0 in0] rest], (blocks md5_compress h l) as [h' rest'] eqn:Eb. cbn [fst snd] in *. subst rest'.
  pose proof (blocks_rest md5_compress h l _ _ Eb) as [Hr _]. destruct B1 as (E & H' & Hi). cbn [fst snd] in *.
  destruct (begins_write in0 [] rest (begins_nil _ Hi) ltac:(rewrite zlen_nil; lia)) as (in_ & Ew & Hw). exists h0, in0, h', rest, in_. done.
Qed.
Lemma bits_add n k : 0 <= n -> 0 <= k < 2 ^ 32 -> n + k < 2 ^ 61 ->
  let b0 := u32 (8 * n mod 2 ^ 32 + u32 (Z.shiftl k 3)) in
  b0 = 8 * (n + k) mod 2 ^ 32 /\
  u32 ((if b0 <? 8 * n mod 2 ^ 32 then u32 (8 * n / 2 ^ 32 + 1) else 8 * n / 2 ^ 32) + Z.shiftr k 29) = 8 * (n + k) / 2 ^ 32.
Proof.
  intros Hn Hk Hs b0. assert (b0 = 8 * (n + k) mod 2 ^ 32) as E.
  { unfold b0, u32. rewrite Z.shiftl_mul_pow2 by lia. rewrite <- Z.add_mod by lia. f_equal. lia. }
  split; [done|]. rewrite E. rewrite Z.shiftr_div_pow2 by lia. assert (k / 2 ^ 29 = 8 * k / 2 ^ 32) as -> by dlia.
  destruct (Z.ltb_spec (8 * (n + k) mod 2 ^ 32) (8 * n mod 2 ^ 32)).
  - rewrite (u32_small (8 * n / 2 ^ 32 + 1)) by dlia. rewrite u32_small; dlia.
  - rewrite u32_small; dlia.
Qed.
Lemma in_buffer n : 0 <= n -> Z.land (Z.shiftr (8 * n mod 2 ^ 32) 3) 0x3F = n mod 64.
Proof. intros Hn. change 0x3F with (Z.ones 6). rewrite Z.land_ones, Z.shiftr_div_pow2 by lia. dlia. Qed.
(** The input is counted and its whole blocks are compressed. *)
Lemma MD5Update_holds ctx m input : holds ctx m -> Forall is_byte input -> zlen input < 2 ^ 32 -> zlen m + zlen input < 2 ^ 61 ->
  exists ctx', MD5Update big ctx input = Ok ctx' /\ holds ctx' (m ++ input).
Proof.
  intros (Hm & Hmax & Ht & Hst) Hi Hl Hs. pose proof (zlen_nonneg input). pose proof (zlen_nonneg m). unfold MD5Update.
  rewrite u32_small, (ztake_all (zlen input) input) by lia. destruct (bits_add (zlen m) (zlen input)) as [E0 E1]; [lia..|].
  rewrite Ht. cbv zeta. rewrite E1, E0, in_buffer by lia.
  destruct (blocks md5_compress md5_init m) as [h rest] eqn:EB. pose proof (blocks_rest md5_compress md5_init m _ _ EB) as [Hr Hr']. rewrite <- Hr'.
  pose proof (blocks_rest_Forall md5_compress is_byte m _ _ _ Hm EB) as Hrest. destruct Hst as (Hst & H32 & Hb). pose proof (zlen_nonneg rest).
  assert (forall h' rest' buf', in32 h' -> blocks md5_compress md5_init (m ++ input) = (h', rest') -> begins buf' rest' ->
    holds (MD5C (hv4 h') (8 * (zlen m + zlen input) mod 2 ^ 32, 8 * (zlen m + zlen input) / 2 ^ 32) buf') (m ++ input)) as Done.
  { intros h' rest' buf' A1 A2 A3. split; [by apply Forall_app|]. rewrite zlen_app. split; [lia|]. split; [done|]. by rewrite A2. }
  destruct (Z.eqb_spec (zlen rest) 0) as [E|E]; cbn [negb andb].
  - pose proof (zlen_0_nil rest E) as ->. bsimpl.
    destruct (md5_absorb_rest (md5_buf ctx, md5_in ctx) h input Hi) as (h0 & in0 & h' & rest' & in_ & -> & Ew & Ei & -> & H' & Hb'); [by repeat split; try apply Hb|].
    cbv beta iota. rewrite Ew. bsimpl. eexists. split; [done|]. eapply Done; [done| |done]. by rewrite blocks_app, EB.
  - destruct (Z.ltb_spec (zlen input) (64 - zlen rest)) as [Hf|Hf].
    + destruct (begins_write (md5_in ctx) rest input Hb ltac:(lia)) as (in_ & -> & Hb'). bsimpl. rewrite Hst.
      eexists. split; [done|]. eapply Done; [done| |done]. apply blocks_begin; [done | lia].
    + destruct (begins_write (md5_in ctx) rest (ztake (64 - zlen rest) input) Hb ltac:(rewrite zlen_take; lia)) as (buf1 & -> & Hb1). bsimpl.
      set (blk := rest ++ ztake (64 - zlen rest) input) in *. assert (zlen blk = 64) as H64 by (unfold blk; rewrite zlen_app, zlen_take; lia).
      rewrite (begins_full buf1 blk Hb1 H64). assert (Forall is_byte blk) as Hblk by (apply Forall_app; split; [done | by apply Forall_take]).
      pose proof (md5_block_compress (md5_buf ctx, blk) h blk ltac:(done) H64 Hblk) as Hs1.
      destruct (md5_absorb_rest _ _ (zdrop (64 - zlen rest) input) ltac:(by apply Forall_drop) Hs1) as (h0 & in0 & h' & rest' & in_ & -> & Ew & Ei & -> & H' & Hb').
      cbv beta iota. rewrite Ew. bsimpl. eexists. split; [done|]. eapply Done; [done| |done]. rewrite (blocks_complete _ _ _ _ _ _ EB) by done. done.
Qed.
End Contexts.

(** ** The digest *)

Section Final.
Context (big : bool).

Lemma reversed_le x : reversed big (le_bytes 4 x) = host_bytes big 4 x.
Proof. unfold reversed, host_bytes, be_bytes. rewrite le_val_bytes32. by rewrite (le_bytes_same32 (u32 x) x (u32_same32 x)). Qed.
Lemma reversed_host x : reversed big (host_bytes big 4 x) = le_bytes 4 x.
Proof.
  unfold reversed, host_bytes. destruct big; [|rewrite le_val_bytes32; apply le_bytes_same32, u32_same32].
  unfold be_bytes. pose proof (le_bytes_val (rev (le_bytes 4 x)) ltac:(apply Forall_rev, le_bytes_is_byte)) as E.
  rewrite length_rev, length_le_bytes in E. by rewrite E, rev_involutive.
Qed.
Lemma reversed_digest a b c d : byteReverse big 4 (concat (map (host_bytes big 4) [a; b; c; d])) = concat (map (le_bytes 4) [a; b; c; d]).
Proof.
  assert (words4 4 (map (host_bytes big 4) [a; b; c; d])) as H.
  { split; [done|]. repeat (constructor; [split; [apply zlen_host_bytes|]|]); [..|constructor].
    all: unfold host_bytes; destruct big; [apply Forall_rev|]; apply le_bytes_is_byte. }
  pose proof (byteReverse_words big [] _ 4 H) as E. rewrite !app_nil_r in E. rewrite E. cbn [map concat]. by rewrite !reversed_host.
Qed.
(** The padding up to eight bytes before the end of a block. *)
Definition md5_started (m : list Z) : list Z := m ++ 0x80 :: zrep ((55 - zlen m) mod 64) 0.
Lemma MD5Final_pads ctx m c : holds ctx m -> c = zlen m mod 64 ->
  exists h pre in_,
    (in_ ← bwrite c [0x80] (md5_in ctx);
     r ← (if 64 - 1 - c <? 8 then
         in_ ← bwrite (c + 1) (zrep (64 - 1 - c) 0) in_;
         let '(h, in_) := md5_block big (md5_buf ctx, in_) in_ in
         in_ ← bwrite 0 (zrep 56 0) in_;
         Ok (h, in_)
       else
         in_ ← bwrite (c + 1) (zrep (64 - 1 - c - 8) 0) in_;
         Ok (md5_buf ctx, in_)); Ok r) = Ok (hv4 h, in_) /\
    in32 h /\ begins in_ pre /\ zlen pre = 56 /\ Forall is_byte pre /\ blocks md5_compress md5_init (md5_started m) = (h, pre).
Proof.
  intros (Hm & _ & _ & Hst) Ec. destruct (blocks md5_compress md5_init m) as [h rest] eqn:EB. destruct Hst as (Hst & H32 & Hb).
  pose proof (blocks_rest md5_compress md5_init m _ _ EB) as [Hr Hr']. pose proof (blocks_rest_Forall md5_compress is_byte m _ _ _ Hm EB) as Hrest.
  pose proof (zlen_nonneg rest). pose proof (zlen_nonneg m). assert (c = zlen rest) as -> by lia. clear Ec.
  destruct (begins_write (md5_in ctx) rest [0x80] Hb ltac:(zlen)) as (in1 & -> & H1). bsimpl.
  assert (zlen (rest ++ [0x80]) = zlen rest + 1) as L1 by (zlen; lia). rewrite <- L1.
  assert (Forall is_byte (rest ++ [0x80])) as B1 by (apply Forall_app; split; [done | by repeat constructor]).
  rewrite Hst. unfold md5_started. destruct (Z.ltb_spec (64 - 1 - zlen rest) 8) as [Hc|Hc].
  - destruct (begins_write in1 _ (zrep (64 - 1 - zlen rest) 0) H1 ltac:(zlen)) as (in2 & -> & H2). bsimpl.
    set (blk := (rest ++ [0x80]) ++ zrep (64 - 1 - zlen rest) 0) in *. assert (zlen blk = 64) as H64 by (unfold blk; rewrite zlen_app, zlen_rep; lia).
    assert (Forall is_byte blk) as Hblk by (apply Forall_app; split; [done | by apply Forall_replicate]).
    rewrite (begins_full in2 blk H2 H64). pose proof (md5_block_compress big (hv4 h, blk) h blk ltac:(done) H64 Hblk) as (E & H' & L).
    destruct (md5_block big (hv4 h, blk) blk) as [h' in3]. cbn [fst snd] in *. subst h'.
    destruct (begins_write in3 [] (zrep 56 0) (begins_nil _ L) ltac:(zlen)) as (in4 & E4 & H4). rewrite zlen_nil in E4. rewrite E4. bsimpl.
    exists (md5_compress h blk), (zrep 56 0), in4. split; [done|]. split; [done|]. split; [done|]. split; [done|]. split; [by apply Forall_replicate|].
    rewrite blocks_app, EB. replace (rest ++ 0x80 :: zrep ((55 - zlen m) mod 64) 0) with (blk ++ zrep 56 0).
    + by rewrite blocks_block by done.
    + unfold blk. rewrite <- !app_assoc. cbn [app]. do 2 f_equal. unfold zrep. rewrite <- replicate_add. f_equal. dlia.
  - destruct (begins_write in1 _ (zrep (64 - 1 - zlen rest - 8) 0) H1 ltac:(zlen)) as (in2 & -> & H2). bsimpl.
    eexists h, _, in2. split; [done|]. split; [done|]. split; [exact H2|]. split; [zlen|]. split; [apply Forall_app; split; [done | by apply Forall_replicate]|].
    rewrite blocks_app, EB, blocks_short by (zlen; dlia). rewrite <- app_assoc. cbn [app]. do 4 f_equal. dlia.
Qed.
(** The length ends the last block. *)
Lemma MD5Final_length in_ pre v : begins in_ pre -> zlen pre = 56 -> Forall is_byte pre ->
  exists in_', bwrite 56 (host_bytes big 4 (v mod 2 ^ 32) ++ host_bytes big 4 (v / 2 ^ 32)) (byteReverse big 14 in_) = Ok in_' /\
    host_words big 16 in_' = le_words (pre ++ le_bytes 8 v).
Proof.
  intros [Hl Hp] H56 Hb. rewrite H56 in Hp. destruct (words4_of 14 pre ltac:(lia) Hb) as (ws & E & H).
  rewrite <- (ztake_drop 56 in_), Hp, E, (byteReverse_words big _ ws 14 H).
  set (tail := [le_bytes 4 (v mod 2 ^ 32); le_bytes 4 (v / 2 ^ 32)]).
  assert (zlen (concat (map (reversed big) ws)) = 56) as L.
  { rewrite zlen_words by (by eapply words4_reversed). unfold zlen. by rewrite length_map, (proj1 H). }
  eexists. split; [apply bwrite_in; [lia|]; zlen|].
  assert (words4 16 (ws ++ tail)) as H16.
  { destruct H as [H14 H]. split; [by rewrite length_app, H14|]. apply Forall_app. split; [done|].
    repeat (constructor; [split; [apply zlen_le_bytes | apply le_bytes_is_byte]|]). constructor. }
  assert (splice 56 (host_bytes big 4 (v mod 2 ^ 32) ++ host_bytes big 4 (v / 2 ^ 32)) (concat (map (reversed big) ws) ++ zdrop 56 in_) = concat (map (reversed big) (ws ++ tail))) as ->.
  { unfold splice. rewrite <- L at 1. rewrite ztake_prefix. rewrite map_app, concat_app. f_equal. unfold tail. cbn [map concat].
    rewrite !reversed_le, <- app_assoc. do 2 f_equal. apply zdrop_all. zlen. }
  rewrite <- (app_nil_r (concat (map _ _))), (host_words_reversed big 16 _ [] H16). unfold le_words. rewrite <- (proj1 H16) at 1.
  rewrite <- (map_words le_val [] (ws ++ tail) (words4_zlen 16 _ H16)), (proj1 H16), app_nil_r. apply map_ext. intros i. do 2 f_equal.
  rewrite concat_app. f_equal. unfold tail. cbn [concat]. rewrite app_nil_r, (le_bytes_app 4 4). f_equal. apply le_bytes_same32. unfold same32. by rewrite Zmod_mod.
Qed.
Lemma MD5Final_digest ctx m : holds ctx m -> exists ctx', MD5Final big ctx = Ok (md5_digest m, ctx').
Proof.
  intros H. pose proof H as (Hm & Hmax & Ht & _). pose proof (zlen_nonneg m). unfold MD5Final. rewrite Ht, in_buffer by lia.
  destruct (MD5Final_pads ctx m _ H eq_refl) as (h & pre & in_ & E & H32 & Hb & H56 & Hpre & EB). revert E.
  destruct (bwrite (zlen m mod 64) [0x80] (md5_in ctx)) as [in1| |]; bsimpl; [|done..]. cbv zeta. intros E.
  match type of E with (?r ≫= _) = _ => assert (r = Ok (hv4 h, in_)) as -> by (destruct r as [[]| |]; [exact E | done..]) end. bsimpl.
  destruct (MD5Final_length in_ pre (8 * zlen m) Hb H56 Hpre) as (in' & E1 & E3). rewrite E1. bsimpl. rewrite E3.
  assert (blocks md5_compress md5_init (md5_padded m) = (md5_compress h (pre ++ le_bytes 8 (8 * zlen m)), [])) as E2.
  { assert (md5_padded m = md5_started m ++ le_bytes 8 (8 * zlen m)) as -> by (unfold md5_padded, md5_started; by rewrite <- app_assoc).
    rewrite blocks_app, EB. rewrite <- (app_nil_r (pre ++ _)) at 1.
    rewrite blocks_block by (rewrite zlen_app, zlen_le_bytes; lia). done. }
  destruct (MD5Transform_compress h (pre ++ le_bytes 8 (8 * zlen m)) H32) as [-> _].
  eexists. f_equal. unfold md5_digest. rewrite E2. cbn [fst]. destruct (md5_compress _ _) as [a b c d]. cbn [hv4]. rewrite reversed_digest. cbn [map concat].
  by rewrite app_nil_r.
Qed.
End Final.
Section Chunks.
Context (big : bool).
(** Several updates. *)
Fixpoint md5_updates (ctx : MD5Context) (chunks : list (list Z)) : outcome MD5Context :=
  match chunks with [] => Ok ctx | c :: chunks => ctx ← MD5Update big ctx c; md5_updates ctx chunks end.
Definition md5_fits (c : list Z) : Prop := Forall is_byte c /\ zlen c < 2 ^ 32.
Lemma md5_updates_holds chunks : forall ctx m, holds ctx m -> Forall md5_fits chunks -> zlen m + zlen (concat chunks) < 2 ^ 61 ->
  exists ctx', md5_updates ctx chunks = Ok ctx' /\ holds ctx' (m ++ concat chunks).
Proof.
  induction chunks as [|c chunks IH]; intros ctx m H Hc Hs; cbn [md5_updates concat] in *.
  - rewrite app_nil_r. eauto.
  - inversion Hc as [|? ? [Hb Hl] Hc']; subst. rewrite zlen_app in Hs. pose proof (zlen_nonneg (concat chunks)).
    destruct (MD5Update_holds big ctx m c H Hb Hl ltac:(lia)) as (ctx1 & -> & H1). bsimpl. rewrite app_assoc. apply IH; [done..|]. rewrite zlen_app. lia.
Qed.
End Chunks.

Lemma md5_wd_digest big watchdog in_ input chunk_sz : zlen in_ = 64 -> Forall is_byte input -> zlen input < 2 ^ 31 -> 0 < chunk_sz ->
  md5_wd big watchdog in_ input chunk_sz = Some (Ok (md5_digest input)).
Proof.
  intros Hn Hi Hl Hc. unfold md5_wd.
  destruct (wd_update_holds (MD5Update big) holds (2 ^ 31 - 1) watchdog chunk_sz) with (ctx := MD5Init in_) (m := @nil Z) (input := input) as (ctx & -> & H);
    [intros; apply MD5Update_holds; done || lia | done | by apply MD5Init_holds | done | lia | rewrite zlen_nil; lia|].
  bsimpl. destruct (MD5Final_digest big ctx _ H) as (ctx' & ->). done.
Qed.

(** C25: [MD5Update] and [MD5Final] compute MD5: on hosts of either byte order, however a text of
    less than 2^61 bytes is cut into inputs and whatever the buffer held before, the updates
    and the final step run within the buffer and give the digest of RFC 1321, whose
    constants come from the sine. *)
Theorem md5_chunks big in_ chunks : zlen in_ = 64 -> Forall md5_fits chunks -> zlen (concat chunks) < 2 ^ 61 ->
  (ctx ← md5_updates big (MD5Init in_) chunks; r ← MD5Final big ctx; Ok r.1) = Ok (md5_digest (concat chunks)).
Proof.
  intros Hi Hc Hs. destruct (md5_updates_holds big chunks _ _ (MD5Init_holds in_ Hi) Hc) as (ctx & -> & H); [rewrite zlen_nil; lia|]. bsimpl.
  destruct (MD5Final_digest big ctx _ H) as (ctx' & ->). done.
Qed.
Lemma md5_chunks_witness :
  (ctx ← md5_updates true (MD5Init (zrep 64 1)) [str "message "; str "digest"]; r ← MD5Final true ctx; Ok r.1) = Ok (md5_digest (str "message digest")).
Proof. apply (md5_chunks true (zrep 64 1) [str "message "; str "digest"]); [done | by repeat constructor | done]. Defined.
