(* ===== verification/FdtRw.v ===== *)
(** * Changing device trees (contrib/uboot_mkimage/lib/libfdt/fdt_rw.c)

    Functions answer with an error or 0, or what else they answer, and the memory. *)

From S2P Require Import Prelude CLib Fdt.

(** The reserve map, the structure and the strings follow each other. *)
Definition fdt_blocks_misordered (fdt : list Z) (mem_rsv_size struct_size : Z) : run bool :=
  rsv ← fdt_off_mem_rsvmap fdt;
  if rsv <? FDT_ALIGN 40 8 then Ret true else
  off_struct ← fdt_off_dt_struct fdt;
  if off_struct <? u32 (rsv + mem_rsv_size) then Ret true else
  off_strings ← fdt_off_dt_strings fdt;
  if off_strings <? u32 (off_struct + struct_size) then Ret true else
  totalsize ← fdt_totalsize fdt;
  size_strings ← fdt_size_dt_strings fdt;
  Ret (totalsize <? u32 (off_strings + size_strings)).
Definition fdt_rw_check_header (fdt : list Z) : run (Z * list Z) :=
  err ← fdt_check_header fdt;
  if negb (err =? 0) then Ret (err, fdt) else
  version ← fdt_version fdt;
  if version <? 17 then Ret (- FDT_ERR_BADVERSION, fdt) else
  size ← fdt_size_dt_struct fdt;
  bad ← fdt_blocks_misordered fdt 16 (s32 size);
  if (bad : bool) then Ret (- FDT_ERR_BADLAYOUT, fdt) else
  if 17 <? version then fdt ← fdt_set_header 5 17 fdt; Ret (0, fdt) else Ret (0, fdt).

Definition fdt_data_size (fdt : list Z) : run Z :=
  o ← fdt_off_dt_strings fdt; s ← fdt_size_dt_strings fdt; Ret (s32 (o + s)).
Definition fdt_splice (fdt : list Z) (p oldlen newlen : Z) : run (Z * list Z) :=
  end_ ← fdt_data_size fdt;
  if (p + oldlen <? p) || (end_ <? p + oldlen) then Ret (- FDT_ERR_BADOFFSET, fdt) else
  totalsize ← fdt_totalsize fdt;
  if totalsize <? end_ - oldlen + newlen then Ret (- FDT_ERR_NOSPACE, fdt) else
  fdt ← memmove (p + newlen) (p + oldlen) (end_ - p - oldlen) fdt;
  Ret (0, fdt).
(** [v] is added to a field of the header. *)
Definition add_header (field v : Z) (fdt : list Z) : run (list Z) := o ← fdt_get_header field fdt; fdt_set_header field (u32 (o + v)) fdt.
Definition fdt_splice_mem_rsv (fdt : list Z) (p oldn newn : Z) : run (Z * list Z) :=
  let delta := s32 ((newn - oldn) * 16) in
  r ← fdt_splice fdt p (oldn * 16) (newn * 16);
  let '(err, fdt) := r in
  if negb (err =? 0) then Ret (err, fdt) else
  fdt ← add_header 2 delta fdt; fdt ← add_header 3 delta fdt; Ret (0, fdt).
Definition fdt_splice_struct (fdt : list Z) (p oldlen newlen : Z) : run (Z * list Z) :=
  let delta := newlen - oldlen in
  r ← fdt_splice fdt p oldlen newlen;
  let '(err, fdt) := r in
  if negb (err =? 0) then Ret (err, fdt) else
  fdt ← add_header 9 delta fdt; fdt ← add_header 3 delta fdt; Ret (0, fdt).
Definition fdt_splice_string (fdt : list Z) (newlen : Z) : run (Z * list Z) :=
  o ← fdt_off_dt_strings fdt; s ← fdt_size_dt_strings fdt;
  r ← fdt_splice fdt (o + s) 0 newlen;
  let '(err, fdt) := r in
  if negb (err =? 0) then Ret (err, fdt) else
  fdt ← add_header 8 newlen fdt; Ret (0, fdt).

Section Loops.
Context (fuel : nat).

(** The place of the string among the strings, where it is put if it is not there. *)
Definition fdt_find_add_string (fdt : list Z) (s : list Z) : run (Z * list Z) :=
  strtab ← fdt_off_dt_strings fdt;
  size ← fdt_size_dt_strings fdt;
  p ← fdt_find_string fuel fdt strtab (s32 size) s;
  match p with
  | Some p => Ret (p - strtab, fdt)
  | None =>
      r ← fdt_splice_string fdt (zlen s + 1);
      let '(err, fdt) := r in
      if negb (err =? 0) then Ret (err, fdt) else
      fdt ← rwrite (strtab + size) (s ++ [0]) fdt; Ret (size, fdt)
  end.

Definition fdt_add_mem_rsv (fdt : list Z) (address size : Z) : run (Z * list Z) :=
  r ← fdt_rw_check_header fdt;
  let '(err, fdt) := r in
  if negb (err =? 0) then Ret (err, fdt) else
  n ← fdt_num_mem_rsv fuel fdt;
  re ← mem_rsv fdt n;
  r ← fdt_splice_mem_rsv fdt re 0 1;
  let '(err, fdt) := r in
  if negb (err =? 0) then Ret (err, fdt) else
  fdt ← rwrite re (be_bytes 8 address) fdt; fdt ← rwrite (re + 8) (be_bytes 8 size) fdt; Ret (0, fdt).
Definition fdt_del_mem_rsv (fdt : list Z) (n : Z) : run (Z * list Z) :=
  re ← mem_rsv fdt n;
  r ← fdt_rw_check_header fdt;
  let '(err, fdt) := r in
  if negb (err =? 0) then Ret (err, fdt) else
  num ← fdt_num_mem_rsv fuel fdt;
  if num <=? n then Ret (- FDT_ERR_NOTFOUND, fdt) else fdt_splice_mem_rsv fdt re 1 0.

(** The error, the property and the memory. *)
Definition fdt_resize_property (fdt : list Z) (nodeoffset : Z) (name : list Z) (len : Z) : run (Z * Z * list Z) :=
  r ← fdt_get_property fuel fdt nodeoffset name;
  match r with
  | (None, err) => Ret (err, 0, fdt)
  | (Some prop, oldlen) =>
      r ← fdt_splice_struct fdt (prop + 12) (FDT_TAGALIGN oldlen) (FDT_TAGALIGN len);
      let '(err, fdt) := r in
      if negb (err =? 0) then Ret (err, prop, fdt) else
      fdt ← st32 (prop + 4) len fdt; Ret (0, prop, fdt)
  end.
Definition fdt_add_property (fdt : list Z) (nodeoffset : Z) (name : list Z) (len : Z) : run (Z * Z * list Z) :=
  nextoffset ← fdt_check_node_offset fdt nodeoffset;
  if nextoffset <? 0 then Ret (nextoffset, 0, fdt) else
  r ← fdt_find_add_string fdt name;
  let '(namestroff, fdt) := r in
  if namestroff <? 0 then Ret (namestroff, 0, fdt) else
  prop ← offset_ptr fdt nextoffset;
  r ← fdt_splice_struct fdt prop 0 (12 + FDT_TAGALIGN len);
  let '(err, fdt) := r in
  if negb (err =? 0) then Ret (err, prop, fdt) else
  fdt ← st32 prop FDT_PROP fdt; fdt ← st32 (prop + 8) namestroff fdt; fdt ← st32 (prop + 4) len fdt;
  Ret (0, prop, fdt).

Definition fdt_set_name (fdt : list Z) (nodeoffset : Z) (name : list Z) : run (Z * list Z) :=
  r ← fdt_rw_check_header fdt;
  let '(err, fdt) := r in
  if negb (err =? 0) then Ret (err, fdt) else
  r ← fdt_get_name fdt nodeoffset;
  match r with
  | (None, err) => Ret (err, fdt)
  | (Some namep, oldlen) =>
      r ← fdt_splice_struct fdt namep (FDT_TAGALIGN (oldlen + 1)) (FDT_TAGALIGN (zlen name + 1));
      let '(err, fdt) := r in
      if negb (err =? 0) then Ret (err, fdt) else
      fdt ← rwrite namep (name ++ [0]) fdt; Ret (0, fdt)
  end.
Definition fdt_setprop (fdt : list Z) (nodeoffset : Z) (name val : list Z) : run (Z * list Z) :=
  r ← fdt_rw_check_header fdt;
  let '(err, fdt) := r in
  if negb (err =? 0) then Ret (err, fdt) else
  r ← fdt_resize_property fdt nodeoffset name (zlen val);
  r ← (if r.1.1 =? - FDT_ERR_NOTFOUND then fdt_add_property r.2 nodeoffset name (zlen val) else Ret r);
  let '(err, prop, fdt) := r in
  if negb (err =? 0) then Ret (err, fdt) else
  fdt ← rwrite (prop + 12) val fdt; Ret (0, fdt).
Definition fdt_delprop (fdt : list Z) (nodeoffset : Z) (name : list Z) : run (Z * list Z) :=
  r ← fdt_rw_check_header fdt;
  let '(err, fdt) := r in
  if negb (err =? 0) then Ret (err, fdt) else
  r ← fdt_get_property fuel fdt nodeoffset name;
  match r with
  | (None, err) => Ret (err, fdt)
  | (Some prop, len) => fdt_splice_struct fdt prop (12 + FDT_TAGALIGN len) 0
  end.

(** Behind the properties of a node. *)
Fixpoint skip_props (n : nat) (fdt : list Z) (nextoffset : Z) : run Z :=
  match n with
  | O => NoFuel
  | S n =>
      t ← fdt_next_tag fdt nextoffset;
      if (t.1 =? FDT_PROP) || (t.1 =? FDT_NOP) then skip_props n fdt t.2 else Ret nextoffset
  end.
Definition fdt_add_subnode (fdt : list Z) (parentoffset : Z) (name : list Z) : run (Z * list Z) :=
  r ← fdt_rw_check_header fdt;
  let '(err, fdt) := r in
  if negb (err =? 0) then Ret (err, fdt) else
  offset ← fdt_subnode_offset fuel fdt parentoffset name;
  if 0 <=? offset then Ret (- FDT_ERR_EXISTS, fdt) else
  if negb (offset =? - FDT_ERR_NOTFOUND) then Ret (offset, fdt) else
  t ← fdt_next_tag fdt parentoffset;
  offset ← skip_props fuel fdt t.2;
  nh ← offset_ptr fdt offset;
  let namespace := FDT_TAGALIGN (zlen name + 1) in
  let nodelen := 4 + namespace + FDT_TAGSIZE in
  r ← fdt_splice_struct fdt nh 0 nodelen;
  let '(err, fdt) := r in
  if negb (err =? 0) then Ret (err, fdt) else
  fdt ← st32 nh FDT_BEGIN_NODE fdt;
  fdt ← rwrite (nh + 4) (zrep namespace 0) fdt;
  fdt ← rwrite (nh + 4) name fdt;
  fdt ← st32 (nh + nodelen - FDT_TAGSIZE) FDT_END_NODE fdt;
  Ret (offset, fdt).
Definition fdt_del_node (fdt : list Z) (nodeoffset : Z) : run (Z * list Z) :=
  r ← fdt_rw_check_header fdt;
  let '(err, fdt) := r in
  if negb (err =? 0) then Ret (err, fdt) else
  endoffset ← fdt_node_end_offset fuel fdt nodeoffset;
  if endoffset <? 0 then Ret (endoffset, fdt) else
  p ← offset_ptr fdt nodeoffset;
  fdt_splice_struct fdt p (endoffset - nodeoffset) 0.

(** ** Moving the blocks

    Two trees in one memory: [old] and [new] are where they are. *)

Definition header_at (tree field : Z) (mem : list Z) : run Z := ld32 (tree + 4 * field) mem.
Definition set_header_at (tree field v : Z) (mem : list Z) : run (list Z) := st32 (tree + 4 * field) v mem.
Definition fdt_packblocks (old new mem_rsv_size struct_size : Z) (mem : list Z) : run (list Z) :=
  let mem_rsv_off := FDT_ALIGN 40 8 in
  let struct_off := mem_rsv_off + mem_rsv_size in
  let strings_off := struct_off + struct_size in
  o ← header_at old 4 mem;
  mem ← memmove (new + mem_rsv_off) (old + o) mem_rsv_size mem;
  mem ← set_header_at new 4 mem_rsv_off mem;
  o ← header_at old 2 mem;
  mem ← memmove (new + struct_off) (old + o) struct_size mem;
  mem ← set_header_at new 2 struct_off mem;
  mem ← set_header_at new 9 struct_size mem;
  o ← header_at old 3 mem;
  s ← header_at old 8 mem;
  mem ← memmove (new + strings_off) (old + o) s mem;
  mem ← set_header_at new 3 strings_off mem;
  s ← header_at old 8 mem;
  set_header_at new 8 s mem.
(** The size of the structure, by its tags. *)
Fixpoint struct_end (n : nat) (fdt : list Z) (struct_size : Z) : run Z :=
  match n with
  | O => NoFuel
  | S n => t ← fdt_next_tag fdt struct_size; if t.1 =? FDT_END then Ret t.2 else struct_end n fdt t.2
  end.
Definition fdt_move (fdt buf bufsize : Z) (mem : list Z) : run (Z * list Z) :=
  let tree := zdrop fdt mem in
  err ← fdt_check_header tree;
  if negb (err =? 0) then Ret (err, mem) else
  totalsize ← fdt_totalsize tree;
  if u32 bufsize <? totalsize then Ret (- FDT_ERR_NOSPACE, mem) else
  mem ← memmove buf fdt totalsize mem;
  Ret (0, mem).
Definition fdt_open_into (fdt buf bufsize : Z) (mem : list Z) : run (Z * list Z) :=
  let tree := zdrop fdt mem in
  totalsize ← fdt_totalsize tree;
  let fdtend := fdt + totalsize in
  err ← fdt_check_header tree;
  if negb (err =? 0) then Ret (err, mem) else
  n ← fdt_num_mem_rsv fuel tree;
  let mem_rsv_size := s32 ((n + 1) * 16) in
  version ← fdt_version tree;
  struct_size ← (if 17 <=? version then s ← fdt_size_dt_struct tree; Ret (s32 s) else struct_end fuel tree 0);
  if (version <? 17) && (struct_size <? 0) then Ret (struct_size, mem) else
  bad ← fdt_blocks_misordered tree mem_rsv_size struct_size;
  if negb bad then
    r ← fdt_move fdt buf bufsize mem;
    let '(err, mem) := r in
    if negb (err =? 0) then Ret (err, mem) else
    mem ← set_header_at buf 5 17 mem;
    mem ← set_header_at buf 9 struct_size mem;
    mem ← set_header_at buf 1 bufsize mem;
    Ret (0, mem)
  else
    s ← fdt_size_dt_strings tree;
    let newsize := s32 (FDT_ALIGN 40 8 + mem_rsv_size + struct_size + s) in
    if bufsize <? newsize then Ret (- FDT_ERR_NOSPACE, mem) else
    let overlap := (fdt <? buf + newsize) && (buf <? fdtend) in
    let tmp := if overlap then fdtend else buf in
    if overlap && (buf + bufsize <? tmp + newsize) then Ret (- FDT_ERR_NOSPACE, mem) else
    mem ← fdt_packblocks fdt tmp mem_rsv_size struct_size mem;
    mem ← memmove buf tmp newsize mem;
    mem ← set_header_at buf 0 FDT_MAGIC mem;
    mem ← set_header_at buf 1 bufsize mem;
    mem ← set_header_at buf 5 17 mem;
    mem ← set_header_at buf 6 16 mem;
    cpuid ← header_at fdt 7 mem;
    mem ← set_header_at buf 7 cpuid mem;
    Ret (0, mem).
Definition fdt_pack (fdt : list Z) : run (Z * list Z) :=
  r ← fdt_rw_check_header fdt;
  let '(err, fdt) := r in
  if negb (err =? 0) then Ret (err, fdt) else
  n ← fdt_num_mem_rsv fuel fdt;
  size ← fdt_size_dt_struct fdt;
  fdt ← fdt_packblocks 0 0 ((n + 1) * 16) (s32 size) fdt;
  s ← fdt_data_size fdt;
  fdt ← fdt_set_header 1 s fdt;
  Ret (0, fdt).
End Loops.
