(* ===== verification/FdtTree.v ===== *)
(** * The format of device trees, and reading them

    [memory p] is a tree's memory from its parts; [flat t] are the bytes of a node.  A node
    stands at an offset of the structure block when the block is [X ++ flat t ++ Y] and the
    offset is the length of [X].  The library's functions are shown to read the tree. *)

From S2P Require Import Prelude CLib Fdt.

(** ** Parts *)

Record parts : Type := Parts {
  pt_totalsize : Z; pt_off_rsv : Z; pt_last_comp : Z; pt_cpuid : Z;
  pt_rsv : list Z; pt_struct : list Z; pt_gap : list Z; pt_strings : list Z; pt_room : list Z
}.
Definition off_struct (p : parts) : Z := 40 + zlen (pt_rsv p).
Definition off_strings (p : parts) : Z := off_struct p + zlen (pt_struct p) + zlen (pt_gap p).
Definition data_end (p : parts) : Z := off_strings p + zlen (pt_strings p).
Definition head (p : parts) : list Z :=
  [FDT_MAGIC; pt_totalsize p; off_struct p; off_strings p; pt_off_rsv p; 17; pt_last_comp p; pt_cpuid p; zlen (pt_strings p); zlen (pt_struct p)].
Definition memory (p : parts) : list Z :=
  concat (map (be_bytes 4) (head p)) ++ pt_rsv p ++ pt_struct p ++ pt_gap p ++ pt_strings p ++ pt_room p.
Record fits_memory (p : parts) : Prop := {
  fm_memory : zlen (memory p) < 2 ^ 31;
  fm_total : data_end p <= pt_totalsize p <= zlen (memory p);
  fm_rsv : 40 <= pt_off_rsv p /\ pt_off_rsv p + 16 <= off_struct p;
  fm_comp : 0 <= pt_last_comp p <= 17;
  fm_cpuid : 0 <= pt_cpuid p < 2 ^ 32
}.

Lemma zlen_head ws : zlen (concat (map (be_bytes 4) ws)) = 4 * zlen ws.
Proof. induction ws as [|w ws IH]; [done|]. cbn [map concat]. rewrite zlen_app, zlen_be_bytes, zlen_cons. lia. Qed.
Lemma zlen_memory p : zlen (memory p) = data_end p + zlen (pt_room p).
Proof. unfold memory, data_end, off_strings, off_struct. rewrite !zlen_app, zlen_head. change (zlen (head p)) with 10. lia. Qed.

Lemma rread_at (a : list Z) (d b l : list Z) o n : l = a ++ d ++ b -> o = zlen a -> n = zlen d -> rread o n l = Ret d.
Proof.
  intros -> -> ->. unfold rread. pose proof (zlen_nonneg a). pose proof (zlen_nonneg d). pose proof (zlen_nonneg b).
  rewrite bread_in by (rewrite ?zlen_app; lia). by rewrite (slice_at a d b).
Qed.
Lemma ld32_at a v b l o : l = a ++ be_bytes 4 v ++ b -> o = zlen a -> 0 <= v < 2 ^ 32 -> ld32 o l = Ret v.
Proof.
  intros E Ho Hv. unfold ld32. rewrite (rread_at a (be_bytes 4 v) b l o 4 E Ho) by done. rsimpl. rewrite be_val_bytes.
  change (256 ^ Z.of_nat 4) with (2 ^ 32). by rewrite Z.mod_small.
Qed.

Section Parts.
Context (p : parts) (F : fits_memory p).

Lemma head_words : Forall (fun w => 0 <= w < 2 ^ 32) (head p).
Proof.
  destruct F as [Hm Ht Hr Hc Hu]. rewrite zlen_memory in *. unfold head, data_end, off_strings, off_struct in *.
  pose proof (zlen_nonneg (pt_rsv p)). pose proof (zlen_nonneg (pt_struct p)). pose proof (zlen_nonneg (pt_gap p)).
  pose proof (zlen_nonneg (pt_strings p)). pose proof (zlen_nonneg (pt_room p)).
  repeat (constructor; [try lia; try done|]). constructor.
Qed.
Lemma get_header i v : head p !! i = Some v -> fdt_get_header (Z.of_nat i) (memory p) = Ret v.
Proof.
  intros Hi. unfold fdt_get_header, memory. pose proof (proj1 (Forall_lookup _ _) head_words _ _ Hi) as Hv. cbn beta in Hv.
  rewrite <- (take_drop_middle _ _ _ Hi), map_app, concat_app. cbn [map concat]. rewrite <- !app_assoc.
  eapply ld32_at; [done| |done]. rewrite zlen_head. unfold zlen. rewrite length_take. apply lookup_lt_Some in Hi. lia.
Qed.
Lemma get_magic : fdt_magic (memory p) = Ret FDT_MAGIC.
Proof. by apply (get_header 0). Qed.
Lemma get_totalsize : fdt_totalsize (memory p) = Ret (pt_totalsize p).
Proof. by apply (get_header 1). Qed.
Lemma get_off_struct : fdt_off_dt_struct (memory p) = Ret (off_struct p).
Proof. by apply (get_header 2). Qed.
Lemma get_off_strings : fdt_off_dt_strings (memory p) = Ret (off_strings p).
Proof. by apply (get_header 3). Qed.
Lemma get_off_rsv : fdt_off_mem_rsvmap (memory p) = Ret (pt_off_rsv p).
Proof. by apply (get_header 4). Qed.
Lemma get_version : fdt_version (memory p) = Ret 17.
Proof. by apply (get_header 5). Qed.
Lemma get_last_comp : fdt_last_comp_version (memory p) = Ret (pt_last_comp p).
Proof. by apply (get_header 6). Qed.
Lemma get_size_strings : fdt_size_dt_strings (memory p) = Ret (zlen (pt_strings p)).
Proof. by apply (get_header 8). Qed.
Lemma get_size_struct : fdt_size_dt_struct (memory p) = Ret (zlen (pt_struct p)).
Proof. by apply (get_header 9). Qed.
Lemma check_header : fdt_check_header (memory p) = Ret 0.
Proof.
  unfold fdt_check_header. rewrite get_magic, get_version. rsimpl. change (FDT_MAGIC =? FDT_MAGIC) with true.
  change (17 <? FDT_FIRST_SUPPORTED_VERSION) with false. cbv iota. rewrite get_last_comp. rsimpl.
  destruct (fm_comp p F) as [_ H]. unfold FDT_LAST_SUPPORTED_VERSION. by rewrite (proj2 (Z.ltb_ge 0x11 (pt_last_comp p))) by lia.
Qed.

(** ** Offsets *)

(** What stands at an offset of the structure. *)
Definition stands (o : Z) (d : list Z) : Prop := exists a b, pt_struct p = a ++ d ++ b /\ zlen a = o.
Lemma stands_range o d : stands o d -> 0 <= o /\ o + zlen d <= zlen (pt_struct p) < 2 ^ 31.
Proof.
  intros (a & b & E & Ho). pose proof (fm_memory p F) as Hm. rewrite zlen_memory in Hm. unfold data_end, off_strings, off_struct in Hm.
  pose proof (zlen_nonneg (pt_rsv p)). pose proof (zlen_nonneg (pt_gap p)). pose proof (zlen_nonneg (pt_strings p)). pose proof (zlen_nonneg (pt_room p)).
  pose proof (zlen_nonneg a). pose proof (zlen_nonneg b). rewrite E, !zlen_app in *. lia.
Qed.
Lemma stands_app o d1 d2 : stands o (d1 ++ d2) -> stands o d1 /\ stands (o + zlen d1) d2.
Proof.
  intros (a & b & E & Ho). split.
  - exists a, (d2 ++ b). by rewrite E, <- app_assoc.
  - exists (a ++ d1), b. rewrite E, zlen_app, <- !app_assoc. by rewrite Ho.
Qed.
Lemma stands_memory o d : stands o d -> exists a b, memory p = a ++ d ++ b /\ zlen a = off_struct p + o.
Proof.
  intros (a & b & E & Ho). exists (concat (map (be_bytes 4) (head p)) ++ pt_rsv p ++ a), (b ++ pt_gap p ++ pt_strings p ++ pt_room p).
  unfold memory, off_struct. rewrite E, !zlen_app, zlen_head. change (zlen (head p)) with 10. rewrite <- !app_assoc. split; [done | lia].
Qed.
Lemma rread_struct o d n a : stands o d -> a = off_struct p + o -> n = zlen d -> rread a n (memory p) = Ret d.
Proof. intros (x & b & E & Hx)%stands_memory -> ->. by apply (rread_at x d b). Qed.
Lemma ld32_struct o v a : stands o (be_bytes 4 v) -> a = off_struct p + o -> 0 <= v < 2 ^ 32 -> ld32 a (memory p) = Ret v.
Proof. intros (x & b & E & Hx)%stands_memory -> Hv. by apply (ld32_at x v b). Qed.
Lemma offset_ptr_at o : offset_ptr (memory p) o = Ret (off_struct p + o).
Proof. unfold offset_ptr. by rewrite get_off_struct. Qed.
Lemma offset_ptr_in o n : 0 <= o -> 0 <= n -> o + n <= zlen (pt_struct p) -> zlen (pt_struct p) < 2 ^ 31 ->
  fdt_offset_ptr (memory p) o n = Ret (Some (off_struct p + o)).
Proof.
  intros Ho Hn Hs H31. unfold fdt_offset_ptr. rewrite get_version. rsimpl. change (0x11 <=? 17) with true. cbv iota.
  rewrite !u32_small by lia. rewrite (proj2 (Z.ltb_ge (o + n) o)) by lia. rewrite get_size_struct. rsimpl.
  rewrite (proj2 (Z.ltb_ge (zlen (pt_struct p)) (o + n))) by lia. by rewrite offset_ptr_at.
Qed.
Lemma offset_ptr_out o n : 0 <= o -> 0 <= n -> zlen (pt_struct p) < o + n < 2 ^ 32 -> fdt_offset_ptr (memory p) o n = Ret None.
Proof.
  intros Ho Hn Hs. unfold fdt_offset_ptr. rewrite get_version. rsimpl. change (0x11 <=? 17) with true. cbv iota.
  rewrite !u32_small by lia. rewrite (proj2 (Z.ltb_ge (o + n) o)) by lia. rewrite get_size_struct. rsimpl.
  by rewrite (proj2 (Z.ltb_lt (zlen (pt_struct p)) (o + n))) by lia.
Qed.
End Parts.

(** ** Trees *)

Record fprop : Type := FProp { q_name : Z; q_value : list Z; q_pad : list Z }.
Inductive tree : Type := Node (name pad : list Z) (props : list fprop) (kids : list tree).
Definition t_name (t : tree) : list Z := let '(Node name _ _ _) := t in name.
Definition t_props (t : tree) : list fprop := let '(Node _ _ props _) := t in props.
Definition t_kids (t : tree) : list tree := let '(Node _ _ _ kids) := t in kids.

Definition flat_prop (q : fprop) : list Z := be_bytes 4 FDT_PROP ++ be_bytes 4 (zlen (q_value q)) ++ be_bytes 4 (q_name q) ++ q_value q ++ q_pad q.
Definition flat_props (props : list fprop) : list Z := concat (map flat_prop props).
Definition flat_head (name pad : list Z) : list Z := be_bytes 4 FDT_BEGIN_NODE ++ name ++ 0 :: pad.
Definition end_node : list Z := be_bytes 4 FDT_END_NODE.
Fixpoint flat (t : tree) : list Z :=
  let '(Node name pad props kids) := t in flat_head name pad ++ flat_props props ++ concat (map flat kids) ++ end_node.
Definition flats (ts : list tree) : list Z := concat (map flat ts).

(** Names hold no NUL, padding fills words, the names of properties are strings of the
    strings block [T]. *)
Definition padded4 (n : Z) (pad : list Z) : Prop := zlen pad < 4 /\ (n + zlen pad) mod 4 = 0.
Definition good_prop (T : list Z) (q : fprop) : Prop :=
  padded4 (zlen (q_value q)) (q_pad q) /\ 0 <= q_name q < 2 ^ 31 /\ existsb (Z.eqb 0) (zdrop (q_name q) T) = true.
Inductive good (T : list Z) : tree -> Prop :=
| good_node name pad props kids : nonul name -> padded4 (zlen name + 1) pad -> Forall (good_prop T) props -> Forall (good T) kids ->
    good T (Node name pad props kids).
Definition prop_name (T : list Z) (q : fprop) : list Z := cstr (zdrop (q_name q) T).

Lemma node_tree_ind (P : tree -> Prop) : (forall name pad props kids, Forall P kids -> P (Node name pad props kids)) -> forall t, P t.
Proof.
  intros H. fix IH 1. intros [name pad props kids]. apply H. induction kids as [|k kids IHk]; constructor; [apply IH | apply IHk].
Qed.
Lemma good_inv T name pad props kids : good T (Node name pad props kids) ->
  nonul name /\ padded4 (zlen name + 1) pad /\ Forall (good_prop T) props /\ Forall (good T) kids.
Proof. by inversion 1. Qed.

Lemma zlen_flat_prop q : zlen (flat_prop q) = 12 + zlen (q_value q) + zlen (q_pad q).
Proof. unfold flat_prop. rewrite !zlen_app, !zlen_be_bytes. lia. Qed.
Lemma zlen_flat_head name pad : zlen (flat_head name pad) = 4 + zlen name + 1 + zlen pad.
Proof. unfold flat_head. rewrite !zlen_app, !zlen_be_bytes, zlen_cons. lia. Qed.
Definition aligned (o : Z) : Prop := o mod 4 = 0.
Lemma aligned_add a b : aligned a -> aligned b -> aligned (a + b).
Proof. unfold aligned. intros. dlia. Qed.
Lemma aligned_prop T q : good_prop T q -> aligned (zlen (flat_prop q)).
Proof. intros [[_ H] _]. unfold aligned. rewrite zlen_flat_prop. dlia. Qed.
Lemma aligned_props T props : Forall (good_prop T) props -> aligned (zlen (flat_props props)).
Proof.
  induction 1 as [|q props Hq _ IH]; [done|]. unfold flat_props. cbn [map concat]. rewrite zlen_app. apply aligned_add; [by eapply aligned_prop | done].
Qed.
Lemma aligned_head name pad : padded4 (zlen name + 1) pad -> aligned (zlen (flat_head name pad)).
Proof. intros [_ H]. unfold aligned. rewrite zlen_flat_head. dlia. Qed.
Lemma aligned_flat T t : good T t -> aligned (zlen (flat t)).
Proof.
  revert t. refine (node_tree_ind _ _). intros name pad props kids IH (Hn & Hp & Hq & Hk)%good_inv. cbn [flat]. rewrite !zlen_app.
  apply aligned_add; [by apply aligned_head|]. apply aligned_add; [by eapply aligned_props|]. apply aligned_add; [|done].
  clear -IH Hk. induction IH as [|k kids Hk' _ IHk]; [done|]. inversion Hk; subst. cbn [map concat]. rewrite zlen_app. apply aligned_add; auto.
Qed.
Lemma aligned_flats T ts : Forall (good T) ts -> aligned (zlen (flats ts)).
Proof. induction 1 as [|t ts Ht _ IH]; [done|]. unfold flats. cbn [map concat]. rewrite zlen_app. apply aligned_add; [by eapply aligned_flat | done]. Qed.
Lemma zlen_flat_pos t : 8 < zlen (flat t).
Proof.
  destruct t as [name pad props kids]. cbn [flat]. rewrite !zlen_app, zlen_flat_head. unfold end_node. rewrite zlen_be_bytes.
  pose proof (zlen_nonneg name). pose proof (zlen_nonneg pad). pose proof (zlen_nonneg (flat_props props)). pose proof (zlen_nonneg (concat (map flat kids))). lia.
Qed.

(** ** Tags *)

Lemma TAGALIGN_up n pad : 0 <= n -> padded4 n pad -> n + zlen pad < 2 ^ 31 -> FDT_TAGALIGN n = n + zlen pad.
Proof.
  intros Hn [Hp Ha] Hs. pose proof (zlen_nonneg pad). unfold FDT_TAGALIGN, FDT_ALIGN, FDT_TAGSIZE. change (4 - 1) with (Z.ones 2).
  replace (n + 4 - 1) with (n + 3) by lia. rewrite <- Z.ldiff_land, Z.ldiff_ones_r, Z.shiftl_mul_pow2, Z.shiftr_div_pow2 by lia.
  rewrite s32_small; dlia.
Qed.
Lemma TAGALIGN_same n : 0 <= n < 2 ^ 31 -> aligned n -> FDT_TAGALIGN n = n.
Proof. intros Hn Ha. rewrite (TAGALIGN_up n []); rewrite ?zlen_nil; [lia | lia | split; [done | by rewrite Z.add_0_r] | lia]. Qed.

Section Tags.
Context (p : parts) (F : fits_memory p).

Lemma skip_name_at name : forall n o, nonul name -> stands p o (name ++ [0]) -> zlen name < Z.of_nat n ->
  skip_name n (memory p) o = Ret (Some (o + zlen name + 1)).
Proof.
  induction name as [|c name IH]; intros n o Hn Hs Hl; (destruct n as [|n]; [unfold zlen in Hl; cbn in Hl; lia|]).
  - cbn [skip_name app] in *. pose proof (stands_range p F _ _ Hs) as Hr. change (zlen [0]) with 1 in Hr. rewrite offset_ptr_in by (done || lia). rsimpl.
    rewrite (rread_struct p o [0] 1 _ Hs) by done. rsimpl. do 2 f_equal. rewrite zlen_nil. lia.
  - cbn [skip_name app] in *. change (c :: name ++ [0]) with ([c] ++ (name ++ [0])) in Hs. apply stands_app in Hs as [H1 H2].
    pose proof (stands_range p F _ _ H1) as Hr. change (zlen [c]) with 1 in *. rewrite offset_ptr_in by (done || lia). rsimpl.
    rewrite (rread_struct p o [c] 1 _ H1) by done. rsimpl. inversion Hn; subst. change (znth [c] 0) with c. rewrite (proj2 (Z.eqb_neq c 0)) by done.
    rewrite (IH n (o + 1)); [do 2 f_equal; rewrite zlen_cons; lia | done | done | rewrite zlen_cons in Hl; lia].
Qed.
Lemma next_tag_begin o name pad : stands p o (flat_head name pad) -> aligned o -> nonul name -> padded4 (zlen name + 1) pad ->
  fdt_next_tag (memory p) o = Ret (FDT_BEGIN_NODE, o + zlen (flat_head name pad)).
Proof.
  intros Hs Ho Hn Hp. pose proof (stands_range p F _ _ Hs) as Hr. rewrite zlen_flat_head in *. pose proof (zlen_nonneg name). pose proof (zlen_nonneg pad).
  unfold flat_head in Hs. apply stands_app in Hs as [H1 H2]. rewrite zlen_be_bytes in H2.
  change (name ++ 0 :: pad) with (name ++ [0] ++ pad) in H2. rewrite app_assoc in H2. apply stands_app in H2 as [H2 _].
  unfold fdt_next_tag, FDT_TAGSIZE. rewrite (offset_ptr_in p F o 4) by (done || lia). rsimpl. rewrite (ld32_struct p o FDT_BEGIN_NODE) by done. rsimpl.
  change (FDT_BEGIN_NODE =? FDT_BEGIN_NODE) with true. cbv iota.
  rewrite (skip_name_at name _ _ Hn H2) by (pose proof (zlen_memory p); pose proof (zlen_nonneg (pt_room p)); pose proof (zlen_nonneg (pt_rsv p)); pose proof (zlen_nonneg (pt_gap p)); pose proof (zlen_nonneg (pt_strings p)); unfold data_end, off_strings, off_struct in *; unfold zlen in *; lia).
  rsimpl. rewrite u32_small by lia. rewrite offset_ptr_in by (done || lia). rsimpl. do 2 f_equal.
  destruct Hp as [Hp1 Hp2]. rewrite (TAGALIGN_up _ pad); [lia | lia | | lia]. split; [done|]. unfold aligned in Ho. dlia.
Qed.
Lemma next_tag_prop T o q : stands p o (flat_prop q) -> aligned o -> good_prop T q ->
  fdt_next_tag (memory p) o = Ret (FDT_PROP, o + zlen (flat_prop q)).
Proof.
  intros Hs Ho Hq. pose proof (stands_range p F _ _ Hs) as Hr. rewrite zlen_flat_prop in *. pose proof (zlen_nonneg (q_value q)). pose proof (zlen_nonneg (q_pad q)).
  unfold flat_prop in Hs. apply stands_app in Hs as [H1 Hs]. apply stands_app in Hs as [H2 _]. rewrite zlen_be_bytes in *. change (Z.of_nat 4) with 4 in H2.
  unfold fdt_next_tag. unfold FDT_TAGSIZE. rewrite (offset_ptr_in p F o 4) by (done || lia). rsimpl. rewrite (ld32_struct p o FDT_PROP) by done. rsimpl.
  change (FDT_PROP =? FDT_BEGIN_NODE) with false. change (FDT_PROP =? FDT_PROP) with true. cbv iota.
  rewrite offset_ptr_in by (done || lia). rsimpl. rewrite (ld32_struct p (o + 4) (zlen (q_value q))) by (done || lia). rsimpl.
  rewrite s32_small, u32_small by lia. rewrite offset_ptr_in by (done || lia). rsimpl. do 2 f_equal.
  destruct Hq as [[Hp1 Hp2] _]. rewrite (TAGALIGN_up _ (q_pad q)); [lia | lia | | lia]. split; [done|]. unfold aligned in Ho. dlia.
Qed.
Lemma next_tag_bare tag o : tag = FDT_END_NODE \/ tag = FDT_END -> stands p o (be_bytes 4 tag) -> aligned o -> o + 4 < 2 ^ 31 ->
  fdt_next_tag (memory p) o = Ret (tag, o + 4).
Proof.
  intros Htag Hs Ho Hs31. pose proof (stands_range p F _ _ Hs) as Hr. rewrite zlen_be_bytes in Hr.
  unfold fdt_next_tag. unfold FDT_TAGSIZE. rewrite (offset_ptr_in p F o 4) by (done || lia). rsimpl.
  rewrite (ld32_struct p o tag) by (done || (destruct Htag as [-> | ->]; done)). rsimpl.
  assert ((tag =? FDT_BEGIN_NODE) = false /\ (tag =? FDT_PROP) = false /\ (tag =? FDT_END) || (tag =? FDT_END_NODE) || (tag =? FDT_NOP) = true) as (-> & -> & ->)
    by (destruct Htag as [-> | ->]; done).
  cbv iota. rsimpl. rewrite u32_small by lia. rewrite offset_ptr_in by (done || lia). rsimpl.
  rewrite TAGALIGN_same; [done | lia | by apply aligned_add].
Qed.
Lemma check_node o name pad : stands p o (flat_head name pad) -> aligned o -> nonul name -> padded4 (zlen name + 1) pad ->
  fdt_check_node_offset (memory p) o = Ret (o + zlen (flat_head name pad)).
Proof.
  intros Hs Ho Hn Hp. pose proof (stands_range p F _ _ Hs) as Hr. unfold fdt_check_node_offset, FDT_TAGSIZE.
  rewrite (proj2 (Z.ltb_ge o 0)) by lia. rewrite Z.rem_mod_nonneg by lia. unfold aligned in Ho. rewrite Ho. cbn [orb negb Z.eqb].
  by rewrite (next_tag_begin o name pad).
Qed.
End Tags.

(** ** Walking *)

Section Walk.
Context (p : parts) (F : fits_memory p) (T : list Z) (fuel : nat) (Hfuel : zlen (pt_struct p) < 4 * Z.of_nat fuel).

(** The loop of fdt_next_node answers [res] from an offset on. *)
Definition scans (o d : Z) (res : Z * Z) : Prop :=
  forall n, zlen (pt_struct p) - o < 4 * Z.of_nat n -> next_node_loop n (memory p) o (Some d) = Ret (res.1, Some res.2).
(** Behind an END_NODE tag. *)
Definition leaves (o d : Z) (res : Z * Z) : Prop := if d <? 0 then res = (o, d) else scans o d res.

Lemma scans_prop q o d res : stands p o (flat_prop q) -> aligned o -> good_prop T q -> scans (o + zlen (flat_prop q)) d res -> scans o d res.
Proof.
  intros Hs Ho Hq H n Hn. pose proof (stands_range p F _ _ Hs) as Hr. rewrite zlen_flat_prop in Hr. pose proof (zlen_nonneg (q_value q)). pose proof (zlen_nonneg (q_pad q)).
  destruct n as [|n]; [lia|]. cbn [next_node_loop]. rewrite (next_tag_prop p F T o q) by done. rsimpl. change ((FDT_PROP =? FDT_PROP) || (FDT_PROP =? FDT_NOP)) with true. cbv iota.
  apply H. rewrite zlen_flat_prop. lia.
Qed.
Lemma scans_props props : forall o d res, stands p o (flat_props props) -> aligned o -> Forall (good_prop T) props ->
  scans (o + zlen (flat_props props)) d res -> scans o d res.
Proof.
  induction props as [|q props IH]; intros o d res Hs Ho Hq H.
  - change (zlen (flat_props [])) with 0 in H. by rewrite Z.add_0_r in H.
  - inversion Hq as [|? ? Hq1 Hq2]; subst. change (flat_props (q :: props)) with (flat_prop q ++ flat_props props) in *. rewrite zlen_app, Z.add_assoc in H.
    apply stands_app in Hs as [H1 H2]. apply (scans_prop q); [done..|]. apply IH; try done. apply aligned_add; [done | by eapply aligned_prop].
Qed.
Lemma scans_begin o d name pad : stands p o (flat_head name pad) -> aligned o -> nonul name -> padded4 (zlen name + 1) pad -> scans o d (o, d + 1).
Proof.
  intros Hs Ho Hn Hp n Hl. pose proof (stands_range p F _ _ Hs) as Hr. rewrite zlen_flat_head in Hr. pose proof (zlen_nonneg name). pose proof (zlen_nonneg pad).
  destruct n as [|n]; [lia|]. cbn [next_node_loop]. by rewrite (next_tag_begin p F o name pad).
Qed.
Lemma scans_end o d res : stands p o end_node -> aligned o -> leaves (o + 4) (d - 1) res -> scans o d res.
Proof.
  intros Hs Ho H n Hl. pose proof (stands_range p F _ _ Hs) as Hr. change (zlen end_node) with 4 in Hr.
  destruct n as [|n]; [lia|]. cbn [next_node_loop]. rewrite (next_tag_bare p F FDT_END_NODE o) by (auto; lia). rsimpl.
  change ((FDT_END_NODE =? FDT_PROP) || (FDT_END_NODE =? FDT_NOP)) with false. change (FDT_END_NODE =? FDT_BEGIN_NODE) with false. change (FDT_END_NODE =? FDT_END_NODE) with true. cbv iota.
  unfold leaves in H. destruct (d - 1 <? 0); [by subst|]. apply H. lia.
Qed.

(** From a node to the next. *)
Definition next_is (o d : Z) (res : Z * Z) : Prop := fdt_next_node fuel (memory p) o (Some d) = Ret (res.1, Some res.2).
Lemma next_of t o d res : stands p o (flat t) -> aligned o -> good T t ->
  (match t_kids t with [] => leaves (o + zlen (flat t)) (d - 1) res | _ => res = (o + zlen (flat_head (t_name t) (let '(Node _ pad _ _) := t in pad)) + zlen (flat_props (t_props t)), d + 1) end) ->
  next_is o d res.
Proof.
  destruct t as [name pad props kids]. cbn [t_kids t_name t_props]. intros Hs Ho (Hn & Hp & Hq & Hk)%good_inv H. pose proof (stands_range p F _ _ Hs) as Hr. cbn [flat] in *.
  apply stands_app in Hs as [H1 H2]. apply stands_app in H2 as [H2 H3]. pose proof (aligned_head name pad Hp) as A1. pose proof (aligned_props T props Hq) as A2.
  unfold next_is, fdt_next_node. rewrite (proj2 (Z.leb_le 0 o)) by lia. rewrite (check_node p F o name pad) by done. rsimpl.
  pose proof (zlen_nonneg (flat_head name pad)). rewrite (proj2 (Z.ltb_ge _ 0)) by lia. cbn [andb].
  assert (scans (o + zlen (flat_head name pad)) d res) as S.
  { apply (scans_props props); [done | by apply aligned_add | done|]. destruct kids as [|[kname kpad kprops kkids] kids].
    - cbn [map concat app] in *. apply scans_end; [done | by repeat apply aligned_add|]. rewrite !zlen_app in H. change (zlen end_node) with 4 in H.
      replace (o + zlen (flat_head name pad) + zlen (flat_props props) + 4) with (o + (zlen (flat_head name pad) + (zlen (flat_props props) + 4))) by lia. done.
    - subst res. apply Forall_cons in Hk as [(Hkn & Hkp & _)%good_inv _]. cbn [map concat flat] in H3. rewrite <- !app_assoc in H3. apply stands_app in H3 as [H3 _].
      by apply (scans_begin _ d kname kpad); [|repeat apply aligned_add|..]. }
  apply S. pose proof (stands_range p F _ _ H1). lia.
Qed.

(** A loop over nodes answers from a node on, with fuel up to the bound [B]. *)
Section Loop.
Context {R : Type} (L : nat -> Z -> Z -> run R) (B : Z) (HB : zlen (pt_struct p) <= B).
Definition yields (o d : Z) (r : run R) : Prop := forall n, B - o < 4 * Z.of_nat n -> L n o d = r.
(** At [o] it goes on to the next node. *)
Definition passes (o d : Z) : Prop := forall n res, next_is o d res -> L (S n) o d = L n res.1 res.2.
(** From the node behind [o] on. *)
Definition goes_on (o d : Z) (r : run R) : Prop :=
  exists res, next_is o d res /\ forall n, B - o < 4 * (Z.of_nat n + 1) -> L n res.1 res.2 = r.

Lemma yields_pass o d r : B - o > 0 -> passes o d -> goes_on o d r -> yields o d r.
Proof. intros Ho Hp (res & Hn & H) [|n] Hl; [lia|]. rewrite (Hp n res Hn). apply H. lia. Qed.

(** The loop passes all that is under a node of some depth. *)
Definition deep (P : Z -> Prop) : Prop := forall o d, 0 <= o -> P d -> passes o d.
Lemma under t : forall o d res r, stands p o (flat t) -> aligned o -> good T t -> 0 <= d -> deep (fun d' => d < d') ->
  leaves (o + zlen (flat t)) (d - 1) res -> (forall n, B - (o + zlen (flat t)) < 4 * Z.of_nat n -> L n res.1 res.2 = r) -> goes_on o d r.
Proof.
  revert t. refine (node_tree_ind _ _). intros name pad props kids IH o d res r Hs Ho Hg Hd HP Hl HL. pose proof Hg as (Hn & Hp & Hq & Hk)%good_inv.
  pose proof (zlen_nonneg (flat_head name pad)). pose proof (zlen_nonneg (flat_props props)).
  destruct kids as [|k kids].
  { exists res. split; [by apply (next_of (Node name pad props []))|]. intros n Hl'. apply HL. pose proof (zlen_flat_pos (Node name pad props [])). lia. }
  eexists. split; [by apply (next_of (Node name pad props (k :: kids)))|]. cbn [t_name t_props fst snd].
  set (c := o + zlen (flat_head name pad) + zlen (flat_props props)).
  assert (zlen (flat (Node name pad props (k :: kids))) = c - o + zlen (flats (k :: kids)) + 4) as El.
  { cbn [flat]. rewrite !zlen_app. unfold flats, c. change (zlen end_node) with 4. lia. }
  assert (stands p c (flats (k :: kids) ++ end_node)) as Hc.
  { cbn [flat] in Hs. apply stands_app in Hs as [_ Hs]. apply stands_app in Hs as [_ Hs]. exact Hs. }
  assert (aligned c) as Ac by (repeat apply aligned_add; [done | by apply aligned_head | by eapply aligned_props]).
  enough (yields c (d + 1) r) as Y by (intros n Hn'; apply Y; unfold c; pose proof (zlen_flat_head name pad); pose proof (zlen_nonneg name); pose proof (zlen_nonneg pad); lia).
  rewrite El in Hl, HL. replace (o + (c - o + zlen (flats (k :: kids)) + 4)) with (c + zlen (flats (k :: kids)) + 4) in Hl, HL by lia. clear El Hs. clearbody c.
  assert (k :: kids <> []) as Hne by done. revert Hne c Hc Ac Hl HL. clear Hg. induction IH as [|k1 ks Hk1 _ IHks]; [done|]. intros _ c Hc Ac Hl HL.
  inversion Hk as [|? ? Gk1 Gks]; subst. change (flats (k1 :: ks)) with (flat k1 ++ flats ks) in *. rewrite <- app_assoc in Hc. apply stands_app in Hc as [Hc1 Hc2].
  pose proof (stands_range p F _ _ Hc1) as Hr. pose proof (zlen_flat_pos k1). pose proof (aligned_flat T k1 Gk1) as Ak1.
  apply yields_pass; [lia | apply HP; lia|].
  rewrite zlen_app in Hl, HL. destruct ks as [|k2 ks].
  - change (flats []) with (@nil Z) in *. change (zlen (@nil Z)) with 0 in *. cbn [app] in Hc2.
    apply (Hk1 c (d + 1) res r); [done | done | done | lia | intros o' d' Ho' Hd'; apply HP; lia | |].
    + unfold leaves. rewrite (proj2 (Z.ltb_ge (d + 1 - 1) 0)) by lia. replace (d + 1 - 1) with d by lia. apply scans_end; [done | by apply aligned_add|].
      by replace (c + zlen (flat k1) + 4) with (c + (zlen (flat k1) + 0) + 4) by lia.
    + intros n Hn'. apply HL. lia.
  - assert (Y := IHks Gks ltac:(done) (c + zlen (flat k1)) Hc2 (aligned_add _ _ Ac Ak1)).
    apply (Hk1 c (d + 1) (c + zlen (flat k1), d + 1) r); [done | done | done | lia | intros o' d' Ho' Hd'; apply HP; lia | |].
    + unfold leaves. rewrite (proj2 (Z.ltb_ge (d + 1 - 1) 0)) by lia. replace (d + 1 - 1) with d by lia.
      inversion Gks as [|? ? Gk2 _]; subst. destruct k2 as [n2 p2 q2 kk2]. apply good_inv in Gk2 as (? & ? & _).
      change (flats (Node n2 p2 q2 kk2 :: ks)) with (flat (Node n2 p2 q2 kk2) ++ flats ks) in Hc2. cbn [flat] in Hc2. rewrite <- !app_assoc in Hc2. apply stands_app in Hc2 as [Hc2 _].
      by apply (scans_begin _ d n2 p2); [|apply aligned_add|..].
    + cbn [fst snd]. intros n Hn'. apply Y; [| |lia].
      * by replace (c + zlen (flat k1) + zlen (flats (k2 :: ks)) + 4) with (c + (zlen (flat k1) + zlen (flats (k2 :: ks))) + 4) by lia.
      * by replace (c + zlen (flat k1) + zlen (flats (k2 :: ks)) + 4) with (c + (zlen (flat k1) + zlen (flats (k2 :: ks))) + 4) by lia.
Qed.

(** From a child of the node a loop started at to the next child, or out of the node. *)
Lemma kid_next k ks c r : stands p c (flats (k :: ks) ++ end_node) -> aligned c -> Forall (good T) (k :: ks) -> deep (fun d' => 1 < d') ->
  (match ks with
   | [] => forall n, L n (c + zlen (flat k) + 4) (-1) = r
   | _ => yields (c + zlen (flat k)) 1 r
   end) -> goes_on c 1 r.
Proof.
  intros Hc Ac [Gk Gks]%Forall_cons HP HL. change (flats (k :: ks)) with (flat k ++ flats ks) in Hc. rewrite <- app_assoc in Hc. apply stands_app in Hc as [Hc1 Hc2].
  pose proof (zlen_flat_pos k). pose proof (aligned_flat T k Gk) as Ak. destruct ks as [|k2 ks].
  - apply (under k c 1 (c + zlen (flat k) + 4, -1) r); [done | done | done | lia | done | | cbn [fst snd]; auto].
    unfold leaves. cbn [Z.sub Z.ltb Z.compare Z.add Z.opp Z.pos_sub]. by apply scans_end; [|apply aligned_add|].
  - apply (under k c 1 (c + zlen (flat k), 1) r); [done | done | done | lia | done | | cbn [fst snd]; intros n Hn; by apply HL].
    unfold leaves. apply Forall_cons in Gks as [Gk2 _]. destruct k2 as [n2 p2 q2 kk2]. apply good_inv in Gk2 as (? & ? & _).
    change (flats (Node n2 p2 q2 kk2 :: ks)) with (flat (Node n2 p2 q2 kk2) ++ flats ks) in Hc2. cbn [flat] in Hc2. rewrite <- !app_assoc in Hc2. apply stands_app in Hc2 as [Hc2 _].
    by apply (scans_begin _ 0 n2 p2); [|apply aligned_add|..].
Qed.
(** From the node a loop starts at to its first child, or out of it. *)
Definition content (o : Z) (t : tree) : Z := let '(Node name pad props _) := t in o + zlen (flat_head name pad) + zlen (flat_props props).
Lemma kids_next t o r : stands p o (flat t) -> aligned o -> good T t ->
  (match t_kids t with
   | [] => forall n, L n (o + zlen (flat t)) (-1) = r
   | _ => yields (content o t) 1 r
   end) -> goes_on o 0 r.
Proof.
  intros Hs Ho Hg H. destruct t as [name pad props kids]. cbn [t_kids content] in *.
  pose proof (zlen_flat_head name pad). pose proof (zlen_nonneg name). pose proof (zlen_nonneg pad). pose proof (zlen_nonneg (flat_props props)). destruct kids as [|k ks].
  - exists (o + zlen (flat (Node name pad props [])), -1). split; [by apply (next_of (Node name pad props []))|]. intros n _. apply H.
  - eexists. split; [by apply (next_of (Node name pad props (k :: ks)))|]. cbn [fst snd t_name t_props]. intros n Hn. apply H. lia.
Qed.
End Loop.
End Walk.

(** ** Reading *)

(** A node answers to its name, or to its name without the unit address. *)
Definition node_matches (name s : list Z) : bool := streq name s || negb (existsb (Z.eqb 64) s) && has_prefix (s ++ [64]) name.
Fixpoint first_kid (s : list Z) (c : Z) (ks : list tree) : option Z :=
  match ks with
  | [] => None
  | k :: ks => if node_matches (t_name k) s then Some c else first_kid s (c + zlen (flat k)) ks
  end.
Fixpoint first_prop (T name : list Z) (a : Z) (props : list fprop) : option (Z * Z) :=
  match props with
  | [] => None
  | q :: props => if streq (prop_name T q) name then Some (a, zlen (q_value q)) else first_prop T name (a + zlen (flat_prop q)) props
  end.

(** What comparing the bytes behind the tag tells of the name. *)
Lemma name_bytes name pad s d c : nonul name -> nonul s -> zlen d = zlen s -> d ++ [c] = ztake (zlen s + 1) (name ++ 0 :: pad) ->
  (if streq d s then if c =? 0 then true else negb (existsb (Z.eqb 64) s) && (c =? 64) else false) = node_matches name s.
Proof.
  intros Hn Hs Hl E. unfold node_matches. destruct (streq d s) eqn:Ed.
  - apply streq_true in Ed as ->. assert (exists r, name ++ 0 :: pad = s ++ c :: r) as [r Er].
    { exists (zdrop (zlen s + 1) (name ++ 0 :: pad)). rewrite <- (ztake_drop (zlen s + 1) (name ++ 0 :: pad)) at 1. by rewrite <- E, <- app_assoc. }
    clear E. revert s Hs Hl Er. assert (forall s, nonul s -> name ++ 0 :: pad = s ++ c :: r -> forall at_, (if c =? 0 then true else at_ && (c =? 64)) = streq name s || at_ && has_prefix (s ++ [64]) name) as K.
    { induction Hn as [|n name Hn1 Hn2 IH]; intros s Hs Er at_.
      - destruct s as [|x s]; cbn [app] in Er; injection Er as <- _; [done|]. inversion Hs; done.
      - destruct s as [|x s]; cbn [app] in Er.
        + injection Er as <- _. rewrite (proj2 (Z.eqb_neq n 0)) by done. assert (streq (n :: name) [] = false) as -> by (by apply bool_decide_eq_false). cbn [orb app has_prefix].
          rewrite andb_true_r. f_equal. apply Z.eqb_sym.
        + injection Er as <- Er. inversion Hs; subst. rewrite (IH s) by done. cbn [app has_prefix]. rewrite Z.eqb_refl. f_equal.
          unfold streq. apply bool_decide_ext. split; [by intros -> | by intros [= ->]]. }
    intros s Hs _ Er. by apply K.
  - destruct (streq name s) eqn:En.
    { apply streq_true in En as ->. exfalso. assert (d = s); [|by apply (proj2 (streq_true d s)) in H; congruence].
      apply (f_equal (ztake (zlen s))) in E. revert E. rewrite <- Hl at 1. rewrite ztake_prefix. intros ->. unfold ztake. rewrite take_take.
      rewrite Nat.min_l by (unfold zlen; lia). fold (ztake (zlen s) (s ++ 0 :: pad)). apply ztake_prefix. }
    cbn [orb]. destruct (has_prefix (s ++ [64]) name) eqn:Ep; [|by rewrite andb_false_r]. apply has_prefix_true in Ep as [r ->]. exfalso.
    assert (d = s); [|by apply (proj2 (streq_true d s)) in H; congruence].
    apply (f_equal (ztake (zlen s))) in E. revert E. rewrite <- Hl at 1. rewrite ztake_prefix. intros ->. unfold ztake. rewrite take_take.
    rewrite Nat.min_l by (unfold zlen; lia). rewrite <- !app_assoc. fold (ztake (zlen s) (s ++ [64] ++ r ++ 0 :: pad)). apply ztake_prefix.
Qed.
Lemma node_matches_short name s : node_matches name s = true -> zlen s <= zlen name.
Proof.
  unfold node_matches. intros [->%streq_true|[_ [r ->]%has_prefix_true]%andb_prop]%orb_prop; [lia|]. rewrite !zlen_app. pose proof (zlen_nonneg r). change (zlen [64]) with 1. lia.
Qed.
Lemma first_kid_range s ks : forall c o, first_kid s c ks = Some o -> c <= o.
Proof.
  induction ks as [|k ks IH]; intros c o; cbn [first_kid]; [done|]. destruct (node_matches _ _); [intros [= ->]; lia|]. intros H%IH. pose proof (zlen_flat_pos k). lia.
Qed.

Section Read.
Context (p : parts) (F : fits_memory p) (fuel : nat) (Hfuel : zlen (pt_struct p) < 4 * Z.of_nat fuel).
Let T := pt_strings p.

Lemma nodename_eq_at o name pad s : stands p o (flat_head name pad) -> nonul name -> nonul s -> zlen s < 2 ^ 31 ->
  fdt_nodename_eq (memory p) o s = Ret (node_matches name s).
Proof.
  intros Hs Hn Hns Hl. pose proof (stands_range p F _ _ Hs) as Hr. rewrite zlen_flat_head in Hr. pose proof (zlen_nonneg name). pose proof (zlen_nonneg pad). pose proof (zlen_nonneg s).
  unfold fdt_nodename_eq, FDT_TAGSIZE. destruct (Z.leb_spec (o + 4 + (zlen s + 1)) (zlen (pt_struct p))) as [Hin|Hout].
  - rewrite offset_ptr_in by (done || lia). rsimpl. destruct Hs as (a & b & E & Ha). unfold flat_head in E.
    assert (pt_struct p = (a ++ be_bytes 4 FDT_BEGIN_NODE) ++ (name ++ 0 :: pad ++ b)) as E2 by (rewrite E, <- !app_assoc; done).
    set (d := ztake (zlen s + 1) (name ++ 0 :: pad ++ b)). assert (zlen d = zlen s + 1) as Ld.
    { unfold d. rewrite zlen_take. rewrite E2, !zlen_app, zlen_be_bytes, Ha in Hin. rewrite zlen_app. pose proof (zlen_nonneg (0 :: pad ++ b)). lia. }
    assert (stands p (o + 4) d) as Sd.
    { exists (a ++ be_bytes 4 FDT_BEGIN_NODE), (zdrop (zlen s + 1) (name ++ 0 :: pad ++ b)). unfold d. rewrite ztake_drop. split; [done|]. rewrite zlen_app, zlen_be_bytes. lia. }
    assert (exists d0 c, d = d0 ++ [c] /\ zlen d0 = zlen s) as (d0 & c & Ed & L0).
    { destruct (exists_last (l := d)) as (d0 & c & Ed); [intros ->; change (zlen (@nil Z)) with 0 in Ld; lia|]. exists d0, c. split; [done|]. rewrite Ed, zlen_app in Ld. change (zlen [c]) with 1 in Ld. lia. }
    rewrite Ed in Sd. apply stands_app in Sd as [S1 S2]. unfold memeq.
    rewrite (rread_struct p _ d0 (zlen s) _ S1) by (done || lia). rsimpl. rewrite <- (name_bytes name (pad ++ b) s d0 c) by (done || (rewrite <- Ed; done)).
    destruct (streq d0 s); [|done]. cbn [negb]. rewrite (rread_struct p _ [c] 1 _ S2) by (done || lia). rsimpl. change (znth [c] 0) with c. by destruct (c =? 0).
  - rewrite offset_ptr_out by (done || lia). rsimpl. f_equal. destruct (node_matches name s) eqn:Em; [|done]. apply node_matches_short in Em. lia.
Qed.

Lemma subnode_step n o d s : 0 <= o -> 0 <= d -> d <> 1 -> subnode_loop fuel (S n) (memory p) o d s =
  (r ← fdt_next_node fuel (memory p) o (Some d); subnode_loop fuel n (memory p) r.1 (the_depth r.2) s).
Proof.
  intros Ho Hd Hne. cbn [subnode_loop]. rewrite (proj2 (Z.leb_le 0 o)), (proj2 (Z.leb_le 0 d)), (proj2 (Z.eqb_neq d 1)) by lia. done.
Qed.
Lemma subnode_passes o d s : 0 <= o -> 0 <= d -> d <> 1 -> passes p fuel (fun n o d => subnode_loop fuel n (memory p) o d s) o d.
Proof. intros Ho Hd Hne n res H. rewrite subnode_step by done. unfold next_is in H. by rewrite H. Qed.
Lemma subnode_kids s ks : nonul s -> zlen s < 2 ^ 31 -> forall c, stands p c (flats ks ++ end_node) -> aligned c -> Forall (good T) ks -> ks <> [] ->
  yields (fun n o d => subnode_loop fuel n (memory p) o d s) (zlen (pt_struct p)) c 1 (Ret (match first_kid s c ks with Some o => o | None => - FDT_ERR_NOTFOUND end)).
Proof.
  intros Hns Hls. induction ks as [|k ks IH]; intros c Hc Ac Gk Hne; [done|]. pose proof (stands_range p F _ _ Hc) as Hr.
  change (flats (k :: ks)) with (flat k ++ flats ks) in *. pose proof (zlen_flat_pos k). rewrite !zlen_app in Hr. pose proof (zlen_nonneg (flats ks)). change (zlen end_node) with 4 in Hr.
  pose proof Hc as Hc0. rewrite <- app_assoc in Hc. apply stands_app in Hc as [Hk Hks]. apply Forall_cons in Gk as [Gk Gks]. destruct k as [name pad props kids]. pose proof Gk as (Hn & Hp & _)%good_inv.
  cbn [first_kid t_name]. cbn [flat] in Hk. pose proof Hk as [Hh _]%stands_app. pose proof (nodename_eq_at c name pad s Hh Hn Hns Hls) as En.
  destruct (node_matches name s) eqn:Em.
  - intros [|n] Hl; cbn [subnode_loop]; rewrite (proj2 (Z.leb_le 0 c)) by lia; change (0 <=? 1) with true; change (1 =? 1) with true; cbn [andb]; by rewrite En.
  - apply (yields_pass p fuel); [lia | |].
    + intros n res Hnx. cbn [subnode_loop]. rewrite (proj2 (Z.leb_le 0 c)) by lia. change (0 <=? 1) with true. change (1 =? 1) with true. cbn [andb]. rewrite En. rsimpl.
      unfold next_is in Hnx. by rewrite Hnx.
    + apply (kid_next p F T fuel Hfuel _ (zlen (pt_struct p)) ltac:(lia) (Node name pad props kids) ks); [exact Hc0 | done | by apply Forall_cons | |].
      * intros o d Ho Hd. apply subnode_passes; lia.
      * destruct ks as [|k2 ks]; [|by apply IH; [|apply aligned_add; [done | by eapply aligned_flat]|..]].
        intros n. destruct n; cbn [subnode_loop]; change (0 <=? -1) with false; rewrite andb_false_r; done.
Qed.

(** The first child that answers to the name. *)
Lemma subnode_offset_at o t s : stands p o (flat t) -> aligned o -> good T t -> nonul s -> zlen s < 2 ^ 31 ->
  fdt_subnode_offset fuel (memory p) o s = Ret (match first_kid s (content o t) (t_kids t) with Some o => o | None => - FDT_ERR_NOTFOUND end).
Proof.
  intros Hs Ho Hg Hns Hls. pose proof (stands_range p F _ _ Hs) as Hr. pose proof (zlen_flat_pos t). unfold fdt_subnode_offset. rewrite check_header by done. rsimpl. cbn [negb Z.eqb].
  destruct (kids_next p F T fuel Hfuel (fun n o d => subnode_loop fuel n (memory p) o d s) (zlen (pt_struct p)) t o (Ret (match first_kid s (content o t) (t_kids t) with Some o => o | None => - FDT_ERR_NOTFOUND end)) Hs Ho Hg)
    as (res & Hn & H').
  - destruct t as [name pad props kids]. cbn [t_kids content]. apply good_inv in Hg as (Hn & Hp & Hq & Hk). destruct kids as [|k ks].
    + intros n. destruct n; cbn [subnode_loop]; change (0 <=? -1) with false; by rewrite andb_false_r.
    + apply subnode_kids; [done | done | | repeat apply aligned_add; [done | by apply aligned_head | by eapply aligned_props] | done | done].
      cbn [flat] in Hs. apply stands_app in Hs as [_ Hs]. apply stands_app in Hs as [_ Hs]. exact Hs.
  - assert (forall n, zlen (pt_struct p) - o < 4 * Z.of_nat n -> subnode_loop fuel n (memory p) o 0 s = Ret (match first_kid s (content o t) (t_kids t) with Some o => o | None => - FDT_ERR_NOTFOUND end)) as L; [|apply L; lia].
    intros [|n] Hl; [lia|]. rewrite subnode_step by lia. unfold next_is in Hn. rewrite Hn. rsimpl. apply H'. lia.
Qed.

(** Strings of the strings block. *)
Lemma cstr_app_in a b : existsb (Z.eqb 0) a = true -> cstr (a ++ b) = cstr a /\ existsb (Z.eqb 0) (a ++ b) = true.
Proof.
  induction a as [|x a IH]; [done|]. cbn [existsb app cstr]. rewrite (Z.eqb_sym x 0). destruct (0 =? x); [done|]. cbn [orb]. intros H. destruct (IH H) as [-> ->]. done.
Qed.
Lemma string_eq_at q name : good_prop T q -> fdt_string_eq (memory p) (q_name q) name = Ret (streq (prop_name T q) name).
Proof.
  intros (_ & Hn & He). unfold fdt_string_eq, fdt_string. rewrite get_off_strings by done. rsimpl. rewrite s32_small by lia. unfold string_at.
  pose proof (zlen_nonneg (pt_rsv p)). pose proof (zlen_nonneg (pt_struct p)). pose proof (zlen_nonneg (pt_gap p)). pose proof (zlen_nonneg (pt_room p)).
  assert (0 <= off_strings p + q_name q) as Hpos by (unfold off_strings, off_struct; lia). rewrite (proj2 (Z.leb_le 0 _)) by done. cbn [andb].
  assert (q_name q <= zlen T) as Hq. { destruct (Z.leb_spec (q_name q) (zlen T)); [done|]. rewrite zdrop_all in He by lia. done. }
  replace (zdrop (off_strings p + q_name q) (memory p)) with (zdrop (q_name q) T ++ pt_room p).
  - destruct (cstr_app_in _ (pt_room p) He) as [-> ->]. done.
  - unfold memory. fold T. rewrite !app_assoc. rewrite <- !(app_assoc _ T). set (a := (((concat _ ++ _) ++ _) ++ _)).
    assert (off_strings p = zlen a) as -> by (unfold a, off_strings, off_struct; rewrite !zlen_app, zlen_head; change (zlen (head p)) with 10; lia).
    unfold zdrop, zlen in *. rewrite drop_app_ge by lia. replace (Z.to_nat (Z.of_nat (length a) + q_name q) - length a)%nat with (Z.to_nat (q_name q)) by lia. by rewrite drop_app_le by lia.
Qed.
Lemma property_loop_at name rest : forall props o n, stands p o (flat_props props ++ rest) -> aligned o -> Forall (good_prop T) props ->
  (rest = end_node \/ exists k r, good T k /\ rest = flat k ++ r) -> zlen (pt_struct p) - o < 4 * Z.of_nat n ->
  property_loop n (memory p) o name =
    Ret (match first_prop T name (off_struct p + o) props with Some (a, len) => (Some a, len) | None => (None, - FDT_ERR_NOTFOUND) end).
Proof.
  intros props. induction props as [|q props IH]; intros o n Hs Ho Hq Hrest Hl.
  - change (flat_props [] ++ rest) with rest in Hs. destruct n as [|n]; [pose proof (stands_range p F _ _ Hs); pose proof (zlen_nonneg rest); lia|]. cbn [property_loop first_prop].
    destruct Hrest as [-> | ([kn kp kq kk] & r & Hk & ->)].
    + pose proof (stands_range p F _ _ Hs) as Hr. change (zlen end_node) with 4 in Hr. rewrite (next_tag_bare p F FDT_END_NODE o) by (auto; lia). done.
    + apply good_inv in Hk as (? & ? & _). cbn [flat] in Hs. rewrite <- app_assoc in Hs. apply stands_app in Hs as [Hs _]. by rewrite (next_tag_begin p F o kn kp).
  - change (flat_props (q :: props)) with (flat_prop q ++ flat_props props) in Hs. rewrite <- app_assoc in Hs. apply stands_app in Hs as [Hs Hs2]. apply Forall_cons in Hq as [Hq Hqs].
    pose proof (stands_range p F _ _ Hs) as Hr. rewrite zlen_flat_prop in Hr. pose proof (zlen_nonneg (q_value q)). pose proof (zlen_nonneg (q_pad q)). destruct n as [|n]; [lia|].
    cbn [property_loop first_prop]. rewrite (next_tag_prop p F T o q) by done. rsimpl. change (FDT_PROP =? FDT_END) with false. change (FDT_PROP =? FDT_PROP) with true. cbv iota.
    rewrite offset_ptr_at by done. rsimpl. pose proof Hs as Hs0. unfold flat_prop in Hs0. apply stands_app in Hs0 as [_ Hs0]. apply stands_app in Hs0 as [S1 Hs0]. apply stands_app in Hs0 as [S2 _].
    rewrite !zlen_be_bytes in *. change (Z.of_nat 4) with 4 in *. destruct Hq as (Hq1 & Hq2 & Hq3).
    rewrite (ld32_struct p _ (q_name q) (off_struct p + o + 8) S2) by lia. rsimpl. rewrite (string_eq_at q name) by done. rsimpl. destruct (streq (prop_name T q) name).
    + rewrite (ld32_struct p _ (zlen (q_value q)) _ S1) by lia. rsimpl. by rewrite s32_small by lia.
    + rewrite (IH (o + zlen (flat_prop q)) n Hs2) by (first [by apply aligned_add; [done | by eapply aligned_prop] | done | rewrite zlen_flat_prop; lia]). by rewrite Z.add_assoc.
Qed.
(** The first property of the name. *)
Definition found (o : Z) (t : tree) (name : list Z) : option (Z * Z) :=
  let '(Node nm pad props _) := t in first_prop T name (off_struct p + o + zlen (flat_head nm pad)) props.
Lemma get_property_at o t name : stands p o (flat t) -> aligned o -> good T t ->
  fdt_get_property fuel (memory p) o name = Ret (match found o t name with Some (a, len) => (Some a, len) | None => (None, - FDT_ERR_NOTFOUND) end).
Proof.
  intros Hs Ho Hg. destruct t as [nm pad props kids]. apply good_inv in Hg as (Hn & Hp & Hq & Hk). cbn [flat] in Hs. pose proof Hs as Hs0. apply stands_app in Hs0 as [H1 H2].
  pose proof (stands_range p F _ _ H1) as Hr. pose proof (zlen_nonneg (flat_head nm pad)). unfold fdt_get_property. rewrite check_header by done. rsimpl. cbn [negb Z.eqb].
  rewrite (check_node p F o nm pad) by done. rsimpl. rewrite (proj2 (Z.ltb_ge _ 0)) by lia. cbn [found]. rewrite <- Z.add_assoc.
  apply (property_loop_at name (concat (map flat kids) ++ end_node)); [done | by apply aligned_add; [|apply aligned_head] | done | | lia].
  destruct kids as [|k ks]; [by left | right]. apply Forall_cons in Hk as [Hk _]. exists k, (concat (map flat ks) ++ end_node). split; [done|]. cbn [map concat]. by rewrite <- app_assoc.
Qed.
Lemma getprop_at o t name : stands p o (flat t) -> aligned o -> good T t ->
  fdt_getprop fuel (memory p) o name = Ret (match found o t name with Some (a, len) => (Some (a + 12), len) | None => (None, - FDT_ERR_NOTFOUND) end).
Proof. intros Hs Ho Hg. unfold fdt_getprop. rewrite (get_property_at o t name) by done. rsimpl. by destruct (found o t name) as [[a len]|]. Qed.
Lemma get_name_at o t : stands p o (flat t) -> aligned o -> good T t ->
  fdt_get_name (memory p) o = Ret (Some (off_struct p + o + 4), zlen (t_name t)) /\ string_at (off_struct p + o + 4) (memory p) = Ret (t_name t).
Proof.
  intros Hs Ho Hg. destruct t as [nm pad props kids]. apply good_inv in Hg as (Hn & Hp & Hq & Hk). cbn [flat t_name] in *. apply stands_app in Hs as [Hs _].
  pose proof (stands_range p F _ _ Hs) as Hr. pose proof (zlen_nonneg (flat_head nm pad)). pose proof (zlen_nonneg (pt_rsv p)).
  assert (string_at (off_struct p + o + 4) (memory p) = Ret nm) as E.
  { unfold string_at. rewrite (proj2 (Z.leb_le 0 _)) by (unfold off_struct; lia). cbn [andb]. apply stands_memory in Hs as (a & b & E & Ha).
    replace (zdrop (off_struct p + o + 4) (memory p)) with (nm ++ 0 :: (pad ++ b)).
    - rewrite cstr_app by done. rewrite existsb_app. cbn [existsb]. by rewrite orb_true_r.
    - rewrite E. unfold flat_head. rewrite <- !app_assoc, app_assoc. assert (off_struct p + o + 4 = zlen (a ++ be_bytes 4 FDT_BEGIN_NODE)) as -> by (rewrite zlen_app, zlen_be_bytes; lia).
      unfold zdrop, zlen. by rewrite Nat2Z.id, drop_app_length. }
  split; [|done]. unfold fdt_get_name. rewrite offset_ptr_at by done. rsimpl. rewrite check_header by done. rsimpl. cbn [negb Z.eqb]. rewrite (check_node p F o nm pad) by done. rsimpl.
  rewrite (proj2 (Z.ltb_ge _ 0)) by lia. unfold FDT_TAGSIZE. by rewrite E.
Qed.

(** ** Paths *)

Fixpoint kid_named (s : list Z) (c : Z) (ks : list tree) : option (Z * tree) :=
  match ks with
  | [] => None
  | k :: ks => if node_matches (t_name k) s then Some (c, k) else kid_named s (c + zlen (flat k)) ks
  end.
Fixpoint resolve (names : list (list Z)) (o : Z) (t : tree) : option (Z * tree) :=
  match names with
  | [] => Some (o, t)
  | s :: names => match kid_named s (content o t) (t_kids t) with Some (o, t) => resolve names o t | None => None end
  end.
Lemma first_kid_named s ks : forall c, first_kid s c ks = fst <$> kid_named s c ks.
Proof. induction ks as [|k ks IH]; intros c; cbn [first_kid kid_named]; [done|]. by destruct (node_matches _ _). Qed.
Lemma kid_named_stands s ks : forall c o k rest, stands p c (flats ks ++ rest) -> aligned c -> Forall (good T) ks -> kid_named s c ks = Some (o, k) ->
  stands p o (flat k) /\ aligned o /\ good T k.
Proof.
  induction ks as [|k0 ks IH]; intros c o k rest Hs Hc Hg; cbn [kid_named]; [done|]. apply Forall_cons in Hg as [Hk Hks].
  change (flats (k0 :: ks)) with (flat k0 ++ flats ks) in Hs. rewrite <- app_assoc in Hs. apply stands_app in Hs as [H1 H2].
  destruct (node_matches _ _); [intros [= <- <-]; done|]. apply IH with (rest := rest); [done | by apply aligned_add; [|eapply aligned_flat] | done].
Qed.
Lemma content_stands o t : stands p o (flat t) -> aligned o -> good T t ->
  stands p (content o t) (flats (t_kids t) ++ end_node) /\ aligned (content o t) /\ Forall (good T) (t_kids t).
Proof.
  destruct t as [nm pad props kids]. intros Hs Ho (Hn & Hp & Hq & Hk)%good_inv. cbn [flat content t_kids] in *. apply stands_app in Hs as [_ Hs]. apply stands_app in Hs as [_ Hs].
  split; [exact Hs|]. split; [|done]. repeat apply aligned_add; [done | by apply aligned_head | by eapply aligned_props].
Qed.
Definition component (s : list Z) : Prop := s <> [] /\ nonul s /\ Forall (fun c => c <> 47) s /\ zlen s < 2 ^ 31.
Definition path_of (names : list (list Z)) : list Z := concat (map (cons 47) names).
Lemma component_parts s r : component s -> (r = [] \/ exists r', r = 47 :: r') ->
  skip_while (Z.eqb 47) (47 :: s ++ r) = s ++ r /\ take_while (fun c => negb (c =? 47)) (s ++ r) = s /\ skip_while (fun c => negb (c =? 47)) (s ++ r) = r.
Proof.
  intros (Hne & _ & Hs & _) Hr. split.
  - cbn [skip_while]. change (47 =? 47) with true. destruct s as [|c s]; [done|]. apply Forall_cons in Hs as [Hc _]. cbn [app skip_while]. by rewrite (proj2 (Z.eqb_neq 47 c)) by lia.
  - clear Hne. induction Hs as [|c s Hc _ IH]; cbn [app take_while skip_while].
    + destruct Hr as [-> | [r' ->]]; done.
    + rewrite (proj2 (Z.eqb_neq c 47)) by done. cbn [negb]. destruct IH as [-> ->]. done.
Qed.
Lemma path_shape names : path_of names = [] \/ exists r, path_of names = 47 :: r.
Proof. destruct names as [|s names]; [by left | right]. eexists. reflexivity. Qed.
Lemma path_loop_at names : forall n o t, stands p o (flat t) -> aligned o -> good T t -> Forall component names -> (length names <= n)%nat ->
  path_loop fuel n (memory p) o (path_of names) = Ret (match resolve names o t with Some (o, _) => o | None => - FDT_ERR_NOTFOUND end).
Proof.
  induction names as [|s names IH]; intros n o t Hs Ho Hg Hc Hn; cbn [resolve]; [by destruct n|]. apply Forall_cons in Hc as [Hc Hcs]. pose proof Hc as (Hne & Hns & _ & Hl).
  destruct n as [|n]; [cbn in Hn; lia|]. change (path_of (s :: names)) with (47 :: s ++ path_of names). cbn [path_loop].
  destruct (component_parts s (path_of names) Hc (path_shape names)) as (-> & E2 & E3).
  destruct (s ++ path_of names) as [|c0 q] eqn:Eq; [by destruct s|]. rewrite E2, E3. rewrite (subnode_offset_at o t s) by done. rsimpl. rewrite first_kid_named.
  destruct (kid_named s (content o t) (t_kids t)) as [[o' k]|] eqn:Ek; cbn [fmap option_fmap option_map fst].
  - destruct (content_stands o t Hs Ho Hg) as (C1 & C2 & C3). destruct (kid_named_stands s _ _ _ _ _ C1 C2 C3 Ek) as (K1 & K2 & K3).
    pose proof (stands_range p F _ _ K1) as Hr. rewrite (proj2 (Z.ltb_ge o' 0)) by lia. apply IH; [done..|]. cbn in Hn. lia.
  - done.
Qed.
Lemma path_offset_at t names : stands p 0 (flat t) -> good T t -> Forall component names -> names <> [] ->
  fdt_path_offset fuel (memory p) (path_of names) = Ret (match resolve names 0 t with Some (o, _) => o | None => - FDT_ERR_NOTFOUND end).
Proof.
  intros Hs Hg Hc Hne. pose proof (zlen_nonneg (pt_struct p)). unfold fdt_path_offset.
  enough (forall n, (0 < n)%nat -> path_offset fuel n (memory p) (path_of names) = Ret (match resolve names 0 t with Some (o, _) => o | None => - FDT_ERR_NOTFOUND end)) as K by (apply K; lia).
  intros [|n] Hn; [lia|]. cbn [path_offset]. rewrite check_header by done. rsimpl. cbn [negb Z.eqb].
  destruct names as [|s names]; [done|]. change (path_of (s :: names)) with (47 :: s ++ path_of names) at 1. cbv iota. change (47 =? 47) with true. cbv iota.
  apply path_loop_at; [done..|]. clear -Hc. induction Hc as [|x l (Hx & _) _ IH]; [done|]. change (path_of (x :: l)) with (47 :: x ++ path_of l). cbn [length]. rewrite length_app. lia.
Qed.
End Read.
