(* ===== verification/FdtEdit.v ===== *)
(** * Changing device trees keeps the format

    What [fdt_setprop] does to the memory of a tree: the tree seen through the strings block
    ([view_of]) has the property set, everything else stands as before. *)

From S2P Require Import Prelude CLib Fdt FdtTree FdtRw.

(** ** Memory *)

Lemma rwrite_at (a d d' b l : list Z) o : l = a ++ d ++ b -> o = zlen a -> zlen d' = zlen d -> rwrite o d' l = Ret (a ++ d' ++ b).
Proof.
  intros -> -> Hl. unfold rwrite. pose proof (zlen_nonneg a). pose proof (zlen_nonneg d). pose proof (zlen_nonneg b).
  rewrite bwrite_in by (rewrite ?zlen_app; lia). f_equal. unfold splice. rewrite ztake_prefix. do 2 f_equal. rewrite Hl, app_assoc.
  unfold zdrop, zlen. rewrite drop_app_length'; [done|]. rewrite length_app. lia.
Qed.
Lemma st32_at (a d b l : list Z) o v : l = a ++ d ++ b -> o = zlen a -> zlen d = 4 -> st32 o v l = Ret (a ++ be_bytes 4 v ++ b).
Proof. intros E Ho Hd. unfold st32. apply (rwrite_at a d); [done | done|]. by rewrite zlen_be_bytes, Hd. Qed.
Definition with_head (hs rest : list Z) : list Z := concat (map (be_bytes 4) hs) ++ rest.
Definition body (p : parts) : list Z := pt_rsv p ++ pt_struct p ++ pt_gap p ++ pt_strings p ++ pt_room p.
Lemma memory_head p : memory p = with_head (head p) (body p).
Proof. done. Qed.
Lemma get_head hs rest i v : hs !! i = Some v -> 0 <= v < 2 ^ 32 -> fdt_get_header (Z.of_nat i) (with_head hs rest) = Ret v.
Proof.
  intros Hi Hv. unfold fdt_get_header, with_head. rewrite <- (take_drop_middle _ _ _ Hi), map_app, concat_app. cbn [map concat]. rewrite <- !app_assoc.
  eapply ld32_at; [done| |done]. rewrite zlen_head. unfold zlen. rewrite length_take. apply lookup_lt_Some in Hi. lia.
Qed.
Lemma set_head hs rest i v : (i < length hs)%nat -> fdt_set_header (Z.of_nat i) v (with_head hs rest) = Ret (with_head (<[i := v]> hs) rest).
Proof.
  intros Hi. destruct (lookup_lt_is_Some_2 hs i Hi) as [x Hx]. unfold fdt_set_header, with_head.
  rewrite (st32_at (concat (map (be_bytes 4) (take i hs))) (be_bytes 4 x) (concat (map (be_bytes 4) (drop (S i) hs)) ++ rest)).
  - rewrite insert_take_drop by done. rewrite map_app, concat_app. cbn [map concat]. by rewrite <- !app_assoc.
  - rewrite <- (take_drop_middle _ _ _ Hx) at 1. rewrite map_app, concat_app. cbn [map concat]. by rewrite <- !app_assoc.
  - rewrite zlen_head. unfold zlen. rewrite length_take. lia.
  - apply zlen_be_bytes.
Qed.
Lemma add_head hs rest i v d : hs !! i = Some v -> 0 <= v < 2 ^ 32 -> 0 <= v + d < 2 ^ 32 ->
  add_header (Z.of_nat i) d (with_head hs rest) = Ret (with_head (<[i := v + d]> hs) rest).
Proof.
  intros Hi Hv Hd. unfold add_header. rewrite (get_head hs rest i v Hi Hv). rsimpl. rewrite u32_small by done. apply set_head. by eapply lookup_lt_Some.
Qed.

(** ** The header *)

Lemma rw_check p : fits_memory p -> fdt_rw_check_header (memory p) = Ret (0, memory p).
Proof.
  intros F. pose proof (fm_memory p F) as Hm. pose proof (fm_total p F) as Ht. pose proof (fm_rsv p F) as Hr. rewrite zlen_memory in *. unfold data_end, off_strings, off_struct in *.
  pose proof (zlen_nonneg (pt_rsv p)). pose proof (zlen_nonneg (pt_struct p)). pose proof (zlen_nonneg (pt_gap p)). pose proof (zlen_nonneg (pt_strings p)). pose proof (zlen_nonneg (pt_room p)).
  unfold fdt_rw_check_header. rewrite check_header by done. rsimpl. cbn [negb Z.eqb]. rewrite get_version by done. rsimpl. change (17 <? 17) with false. cbv iota. rewrite get_size_struct by done. rsimpl.
  assert (fdt_blocks_misordered (memory p) 16 (s32 (zlen (pt_struct p))) = Ret false) as ->; [|done].
  unfold fdt_blocks_misordered. rewrite get_off_rsv by done. rsimpl. change (FDT_ALIGN 40 8) with 40. rewrite (proj2 (Z.ltb_ge _ 40)) by lia. rewrite get_off_struct by done. rsimpl.
  rewrite s32_small by lia. rewrite !u32_small by (unfold off_struct; lia). rewrite (proj2 (Z.ltb_ge (off_struct p) _)) by (unfold off_struct; lia). rewrite get_off_strings by done. rsimpl.
  rewrite (proj2 (Z.ltb_ge (off_strings p) _)) by (unfold off_strings, off_struct; lia). rewrite get_totalsize, get_size_strings by done. rsimpl. rewrite u32_small by (unfold off_strings, off_struct; lia).
  f_equal. apply Z.ltb_ge. unfold off_strings, off_struct. lia.
Qed.
Lemma data_size p : fits_memory p -> fdt_data_size (memory p) = Ret (data_end p).
Proof.
  intros F. pose proof (fm_memory p F) as Hm. pose proof (fm_total p F) as Ht. unfold fdt_data_size. rewrite get_off_strings, get_size_strings by done. rsimpl. f_equal. apply s32_small.
  unfold data_end, off_strings, off_struct in *. pose proof (zlen_nonneg (pt_rsv p)). pose proof (zlen_nonneg (pt_struct p)). pose proof (zlen_nonneg (pt_gap p)). pose proof (zlen_nonneg (pt_strings p)). lia.
Qed.

(** ** Splicing *)

(** The bytes behind [old] are moved so that there is room for [n]. *)
Lemma splice_at p (a old tail room : list Z) n : fits_memory p -> memory p = a ++ old ++ tail ++ room -> data_end p = zlen a + zlen old + zlen tail -> 0 <= n ->
  (data_end p - zlen old + n <= pt_totalsize p ->
     exists mid room', zlen mid = n /\ fdt_splice (memory p) (zlen a) (zlen old) n = Ret (0, a ++ mid ++ tail ++ room') /\ zlen mid + zlen room' = zlen old + zlen room) /\
  (pt_totalsize p < data_end p - zlen old + n -> fdt_splice (memory p) (zlen a) (zlen old) n = Ret (- FDT_ERR_NOSPACE, memory p)).
Proof.
  intros F E He Hn. pose proof (fm_total p F) as Ht. pose proof (zlen_nonneg a). pose proof (zlen_nonneg old). pose proof (zlen_nonneg tail). pose proof (zlen_nonneg room).
  assert (zlen (memory p) = zlen a + zlen old + zlen tail + zlen room) as Lm by (rewrite E, !zlen_app; lia).
  unfold fdt_splice. rewrite data_size by done. rsimpl. rewrite (proj2 (Z.ltb_ge (zlen a + zlen old) (zlen a))), (proj2 (Z.ltb_ge (data_end p) _)) by lia. cbn [orb]. rewrite get_totalsize by done. rsimpl.
  split; intros Hs; [rewrite (proj2 (Z.ltb_ge (pt_totalsize p) _)) by lia | by rewrite (proj2 (Z.ltb_lt (pt_totalsize p) _)) by lia].
  unfold memmove. assert (memory p = (a ++ old) ++ tail ++ room) as E2 by (rewrite <- app_assoc; exact E).
  rewrite (rread_at (a ++ old) tail room (memory p) _ _ E2) by (rewrite ?zlen_app; lia). rsimpl.
  unfold rwrite. rewrite bwrite_in by lia. rsimpl. unfold splice.
  exists (ztake n (old ++ tail ++ room)), (zdrop (zlen a + n + zlen tail) (memory p)). split; [rewrite zlen_take, !zlen_app; lia|]. split.
  - do 2 f_equal. rewrite !app_assoc. do 2 f_equal. rewrite E. unfold ztake, zlen. rewrite Z2Nat.inj_add, Nat2Z.id by lia. rewrite take_app_add. by rewrite <- ?app_assoc.
  - rewrite zlen_drop, zlen_take, !zlen_app. lia.
Qed.

Definition with_struct (p : parts) (S room : list Z) : parts :=
  Parts (pt_totalsize p) (pt_off_rsv p) (pt_last_comp p) (pt_cpuid p) (pt_rsv p) S (pt_gap p) (pt_strings p) room.
Definition with_strings (p : parts) (T room : list Z) : parts :=
  Parts (pt_totalsize p) (pt_off_rsv p) (pt_last_comp p) (pt_cpuid p) (pt_rsv p) (pt_struct p) (pt_gap p) T room.
Lemma splice_struct_at p X old Y n : fits_memory p -> pt_struct p = X ++ old ++ Y -> 0 <= n ->
  (data_end p - zlen old + n <= pt_totalsize p ->
     exists mid room', zlen mid = n /\ let p' := with_struct p (X ++ mid ++ Y) room' in
       fdt_splice_struct (memory p) (off_struct p + zlen X) (zlen old) n = Ret (0, memory p') /\ fits_memory p' /\
       zlen (memory p') = zlen (memory p) /\ data_end p' = data_end p - zlen old + n) /\
  (pt_totalsize p < data_end p - zlen old + n -> fdt_splice_struct (memory p) (off_struct p + zlen X) (zlen old) n = Ret (- FDT_ERR_NOSPACE, memory p)).
Proof.
  intros F E Hn. set (a := concat (map (be_bytes 4) (head p)) ++ pt_rsv p ++ X). set (tail := Y ++ pt_gap p ++ pt_strings p).
  assert (memory p = a ++ old ++ tail ++ pt_room p) as EM by (unfold memory, a, tail; rewrite E, <- !app_assoc; done).
  assert (off_struct p + zlen X = zlen a) as Ea by (unfold a, off_struct; rewrite !zlen_app, zlen_head; change (zlen (head p)) with 10; lia).
  assert (data_end p = zlen a + zlen old + zlen tail) as Ee by (unfold data_end, off_strings; rewrite <- Ea; unfold tail, off_struct; rewrite E, !zlen_app; lia).
  destruct (splice_at p a old tail (pt_room p) n F EM Ee Hn) as [Hok Hno]. unfold fdt_splice_struct. rewrite Ea. split.
  - intros Hs. destruct (Hok Hs) as (mid & room' & Lm & -> & Lr). rsimpl. cbn [negb Z.eqb]. exists mid, room'. split; [done|].
    pose proof (fm_memory p F) as Hm. pose proof (fm_total p F) as Ht. rewrite zlen_memory in Hm, Ht. pose proof (zlen_nonneg (pt_room p)). pose proof (zlen_nonneg room').
    pose proof (zlen_nonneg (pt_rsv p)). pose proof (zlen_nonneg X). pose proof (zlen_nonneg Y). pose proof (zlen_nonneg old). pose proof (zlen_nonneg (pt_gap p)). pose proof (zlen_nonneg (pt_strings p)).
    set (p' := with_struct p (X ++ mid ++ Y) room').
    assert (zlen (pt_struct p) = zlen X + zlen old + zlen Y) as Ls by (rewrite E, !zlen_app; lia).
    assert (zlen (pt_struct p') = zlen X + n + zlen Y) as Ls' by (cbn; rewrite !zlen_app; lia).
    assert (data_end p' = data_end p - zlen old + n) as Ed by (unfold data_end, off_strings; rewrite Ls, Ls'; unfold off_struct; cbn; lia).
    assert (a ++ mid ++ tail ++ room' = with_head (head p) (body p')) as -> by (unfold a, tail, with_head, body; cbn; rewrite <- !app_assoc; done).
    unfold data_end, off_strings, off_struct in Hm, Ht. rewrite Ls in Hm, Ht.
    rewrite (add_head (head p) (body p') 9 (zlen (pt_struct p))) by (done || lia). rsimpl.
    rewrite (add_head _ (body p') 3 (off_strings p)) by (done || (unfold off_strings, off_struct; lia)). rsimpl.
    assert (zlen (memory p') = zlen (memory p)) as Lm' by (rewrite !zlen_memory, Ed; cbn; lia).
    split; [|split; [|split; [exact Lm'|done]]].
    + do 2 f_equal. unfold memory. fold (body p'). unfold with_head. f_equal. do 2 f_equal. unfold head. cbn [insert list_insert]. rewrite Ls'. unfold off_strings. rewrite Ls, Ls'. unfold off_struct. cbn.
      repeat (f_equal; try lia).
    + destruct F as [F1 F2 F3 F4 F5]. split; [by rewrite Lm' | rewrite Lm', Ed; change (pt_totalsize p') with (pt_totalsize p); lia | exact F3 | exact F4 | exact F5].
  - intros Hs. rewrite (Hno Hs). done.
Qed.
Lemma rwrite_nil o l : 0 <= o <= zlen l -> rwrite o [] l = Ret l.
Proof. intros Ho. unfold rwrite. rewrite bwrite_in by (rewrite ?zlen_nil; lia). by rewrite splice_nil. Qed.
Lemma splice_string_at p n : fits_memory p -> 0 <= n ->
  (data_end p + n <= pt_totalsize p ->
     fdt_splice_string (memory p) n = Ret (0, with_head (<[8%nat := zlen (pt_strings p) + n]> (head p)) (body p))) /\
  (pt_totalsize p < data_end p + n -> fdt_splice_string (memory p) n = Ret (- FDT_ERR_NOSPACE, memory p)).
Proof.
  intros F Hn. pose proof (fm_memory p F) as Hm. pose proof (fm_total p F) as Ht. pose proof (zlen_nonneg (pt_strings p)).
  assert (0 <= off_strings p) by (unfold off_strings, off_struct; pose proof (zlen_nonneg (pt_rsv p)); pose proof (zlen_nonneg (pt_struct p)); pose proof (zlen_nonneg (pt_gap p)); lia).
  unfold fdt_splice_string. rewrite get_off_strings, get_size_strings by done. rsimpl. fold (data_end p).
  unfold fdt_splice. rewrite data_size by done. rsimpl. rewrite !(proj2 (Z.ltb_ge _ _)) by lia. cbn [orb]. rewrite get_totalsize by done. rsimpl. rewrite Z.sub_0_r.
  assert (0 <= data_end p) by (unfold data_end; lia). split; intros Hs.
  - rewrite (proj2 (Z.ltb_ge (pt_totalsize p) _)) by lia. unfold memmove, rread. rewrite bread_in by lia. rsimpl.
    replace (slice (data_end p + 0) (data_end p - data_end p - 0) (memory p)) with (@nil Z) by (rewrite Z.sub_diag; done).
    rewrite rwrite_nil by lia. rsimpl. cbn [negb Z.eqb]. rewrite memory_head. rewrite (add_head (head p) (body p) 8 (zlen (pt_strings p))); [done | done | |]; unfold data_end in *; lia.
  - by rewrite (proj2 (Z.ltb_lt (pt_totalsize p) _)) by lia.
Qed.

(** ** Strings *)

Definition string_of (T : list Z) (k : Z) (s : list Z) : Prop := 0 <= k < 2 ^ 31 /\ existsb (Z.eqb 0) (zdrop k T) = true /\ cstr (zdrop k T) = s.
Lemma strings_memory p : exists a, memory p = a ++ pt_strings p ++ pt_room p /\ zlen a = off_strings p.
Proof.
  exists (concat (map (be_bytes 4) (head p)) ++ pt_rsv p ++ pt_struct p ++ pt_gap p). unfold memory, off_strings, off_struct. rewrite <- !app_assoc. split; [done|].
  rewrite !zlen_app, zlen_head. change (zlen (head p)) with 10. lia.
Qed.
Lemma string_of_slice T k s : 0 <= k < 2 ^ 31 -> k + (zlen s + 1) <= zlen T -> slice k (zlen s + 1) T = s ++ [0] -> nonul s -> string_of T k s.
Proof.
  intros Hk Hl E Hs. assert (zdrop k T = s ++ 0 :: zdrop (zlen s + 1) (zdrop k T)) as Ed.
  { rewrite <- (ztake_drop (zlen s + 1) (zdrop k T)) at 1. unfold slice in E. by rewrite E, <- app_assoc. }
  split; [done|]. rewrite Ed. split; [rewrite existsb_app; cbn [existsb]; by rewrite orb_true_r | by apply cstr_app].
Qed.
Lemma find_string_spec p s : fits_memory p -> nonul s -> forall n k, 0 <= k -> zlen (pt_strings p) - k < Z.of_nat n ->
  exists r, find_string n (memory p) (off_strings p + k) (off_strings p + zlen (pt_strings p) - (zlen s + 1)) (s ++ [0]) = Ret r /\
    (match r with Some a => exists j, a = off_strings p + j /\ string_of (pt_strings p) j s | None => True end).
Proof.
  intros F Hs n. pose proof (zlen_nonneg s). induction n as [|n IH]; intros k Hk Hn; cbn [find_string].
  - rewrite (proj2 (Z.ltb_lt _ (off_strings p + k))) by lia. by exists None.
  - destruct (Z.ltb_spec (off_strings p + zlen (pt_strings p) - (zlen s + 1)) (off_strings p + k)) as [|Hin]; [by exists None|].
    unfold memeq. assert (zlen (s ++ [0]) = zlen s + 1) as Ls by (rewrite zlen_app; done). rewrite Ls.
    destruct (strings_memory p) as (a & E & Ha).
    assert (rread (off_strings p + k) (zlen s + 1) (memory p) = Ret (slice k (zlen s + 1) (pt_strings p))) as ->.
    { apply (rread_at (a ++ ztake k (pt_strings p)) _ (zdrop (zlen s + 1) (zdrop k (pt_strings p)) ++ pt_room p)).
      - rewrite E. unfold slice. rewrite <- !app_assoc. f_equal. rewrite !app_assoc. f_equal. rewrite <- !app_assoc. by rewrite ztake_drop, ztake_drop.
      - rewrite zlen_app, zlen_take. lia.
      - rewrite zlen_slice; lia. }
    rsimpl. destruct (streq _ _) eqn:Eq.
    + apply streq_true in Eq. eexists. split; [done|]. exists k. split; [done|]. apply string_of_slice; [|lia|done|done].
      pose proof (fm_memory p F) as Hm. rewrite zlen_memory in Hm. unfold data_end, off_strings, off_struct in Hm.
      pose proof (zlen_nonneg (pt_rsv p)). pose proof (zlen_nonneg (pt_struct p)). pose proof (zlen_nonneg (pt_gap p)). pose proof (zlen_nonneg (pt_room p)). lia.
    + rewrite <- Z.add_assoc. apply IH; lia.
Qed.
Lemma find_add_string_at p fuel s : fits_memory p -> nonul s -> zlen (memory p) <= Z.of_nat fuel ->
  (exists k ext room', let p' := with_strings p (pt_strings p ++ ext) room' in
     fdt_find_add_string fuel (memory p) s = Ret (k, memory p') /\ string_of (pt_strings p ++ ext) k s /\ fits_memory p' /\
     zlen (memory p') = zlen (memory p) /\ data_end p' = data_end p + zlen ext /\ zlen ext <= zlen s + 1) \/
  (fdt_find_add_string fuel (memory p) s = Ret (- FDT_ERR_NOSPACE, memory p) /\ pt_totalsize p < data_end p + zlen s + 1).
Proof.
  intros F Hs Hf. pose proof (fm_memory p F) as Hm. pose proof (fm_total p F) as Ht. pose proof (zlen_nonneg (pt_strings p)). pose proof (zlen_nonneg s). pose proof (zlen_nonneg (pt_room p)).
  assert (40 <= off_strings p) as Ho by (unfold off_strings, off_struct; pose proof (zlen_nonneg (pt_rsv p)); pose proof (zlen_nonneg (pt_struct p)); pose proof (zlen_nonneg (pt_gap p)); lia).
  pose proof (zlen_memory p) as Lm. unfold data_end in *. unfold fdt_find_add_string. rewrite get_off_strings, get_size_strings by done. rsimpl. unfold fdt_find_string.
  rewrite s32_small by lia. destruct (find_string_spec p s F Hs fuel 0) as (r & Er & Hr); [lia | lia|]. rewrite Z.add_0_r in Er. rewrite Er. rsimpl. destruct r as [a|].
  - left. destruct Hr as (j & -> & Hj). exists j, [], (pt_room p). rewrite app_nil_r. assert (with_strings p (pt_strings p) (pt_room p) = p) as -> by by destruct p.
    split; [do 2 f_equal; lia|]. change (zlen (@nil Z)) with 0. split; [exact Hj|]. split; [exact F|]. split; [done|]. split; lia.
  - destruct (splice_string_at p (zlen s + 1) F ltac:(lia)) as [Hok Hno]. unfold data_end in Hok, Hno.
    destruct (Z.leb_spec (off_strings p + zlen (pt_strings p) + (zlen s + 1)) (pt_totalsize p)) as [Hsp|Hsp].
    + left. rewrite (Hok Hsp). rsimpl. cbn [negb Z.eqb]. set (room' := zdrop (zlen s + 1) (pt_room p)).
      exists (zlen (pt_strings p)), (s ++ [0]), room'. set (p' := with_strings p (pt_strings p ++ s ++ [0]) room').
      assert (zlen (ztake (zlen s + 1) (pt_room p)) = zlen s + 1) as Lt by (rewrite zlen_take; lia).
      set (hs := <[8%nat := zlen (pt_strings p) + (zlen s + 1)]> (head p)).
      rewrite (rwrite_at (concat (map (be_bytes 4) hs) ++ pt_rsv p ++ pt_struct p ++ pt_gap p ++ pt_strings p) (ztake (zlen s + 1) (pt_room p)) (s ++ [0]) room').
      * rsimpl. assert (zlen (pt_strings p') = zlen (pt_strings p) + (zlen s + 1)) as Lp by (cbn; rewrite !zlen_app; done).
        assert (zlen (memory p') = zlen (memory p)) as Lm'.
        { rewrite (zlen_memory p'), Lm. unfold data_end. rewrite Lp. change (off_strings p') with (off_strings p). change (pt_room p') with room'. unfold room'. rewrite zlen_drop. lia. }
        split; [|split; [|split; [|split; [exact Lm'|]]]].
        -- assert (memory p' = concat (map (be_bytes 4) hs) ++ pt_rsv p ++ pt_struct p ++ pt_gap p ++ (pt_strings p ++ s ++ [0]) ++ room') as -> by (unfold memory, head; rewrite Lp; done).
           rewrite <- !app_assoc. done.
        -- split; [lia|]. replace (zdrop (zlen (pt_strings p)) (pt_strings p ++ s ++ [0])) with (s ++ [0]) by (unfold zdrop, zlen; by rewrite Nat2Z.id, drop_app_length).
           rewrite existsb_app. cbn [existsb]. rewrite orb_true_r. split; [done | by apply cstr_app].
        -- destruct F as [F1 F2 F3 F4 F5]. split; [by rewrite Lm' | | exact F3 | exact F4 | exact F5]. rewrite Lm'. unfold data_end. rewrite Lp. change (off_strings p') with (off_strings p). change (pt_totalsize p') with (pt_totalsize p). lia.
        -- rewrite zlen_app. change (zlen [0]) with 1. change (off_strings p') with (off_strings p). rewrite Lp. lia.
      * unfold with_head, body. rewrite <- !app_assoc. unfold room'. by rewrite ztake_drop.
      * unfold off_strings, off_struct. rewrite !zlen_app, zlen_head. change (zlen hs) with 10. lia.
      * rewrite zlen_app, Lt. done.
    + right. rewrite (Hno Hsp). split; [done | lia].
Qed.

(** ** Properties *)

Lemma TAGALIGN_pad n : 0 <= n < 2 ^ 30 -> n <= FDT_TAGALIGN n < n + 4 /\ aligned (FDT_TAGALIGN n).
Proof.
  intros Hn. assert (zlen (zrep ((- n) mod 4) 0) = (- n) mod 4) as L by (rewrite zlen_rep; dlia).
  rewrite (TAGALIGN_up n (zrep ((- n) mod 4) 0)); rewrite ?L; [unfold aligned; dlia | lia | | dlia]. split; rewrite L; dlia.
Qed.
(** Writing inside the structure. *)
Lemma rwrite_struct p A d B d' o : fits_memory p -> pt_struct p = A ++ d ++ B -> o = off_struct p + zlen A -> zlen d' = zlen d ->
  let p' := with_struct p (A ++ d' ++ B) (pt_room p) in rwrite o d' (memory p) = Ret (memory p') /\ fits_memory p' /\ zlen (memory p') = zlen (memory p) /\ data_end p' = data_end p.
Proof.
  intros F E Ho Hl. set (p' := with_struct p (A ++ d' ++ B) (pt_room p)). cbv zeta. assert (zlen (pt_struct p') = zlen (pt_struct p)) as Ls by (cbn; rewrite E, !zlen_app; lia).
  assert (head p' = head p) as Hh by (unfold head, off_strings; rewrite Ls; done). assert (data_end p' = data_end p) as Hd by (unfold data_end, off_strings; rewrite Ls; done).
  assert (zlen (memory p') = zlen (memory p)) as Lm by (rewrite !zlen_memory, Hd; done). split; [|split; [|done]].
  - rewrite (rwrite_at (concat (map (be_bytes 4) (head p)) ++ pt_rsv p ++ A) d d' (B ++ pt_gap p ++ pt_strings p ++ pt_room p)).
    + f_equal. unfold memory. rewrite Hh. cbn. by rewrite <- !app_assoc.
    + unfold memory. rewrite E, <- !app_assoc. done.
    + rewrite Ho, !zlen_app, zlen_head. unfold off_struct. change (zlen (head p)) with 10. lia.
    + done.
  - destruct F as [F1 F2 F3 F4 F5]. split; [by rewrite Lm | rewrite Lm, Hd; exact F2 | exact F3 | exact F4 | exact F5].
Qed.

(** The tree as its user sees it. *)
Inductive view : Type := View (name : list Z) (props : list (list Z * list Z)) (kids : list view).
Definition view_props (T : list Z) (props : list fprop) : list (list Z * list Z) := map (fun q => (prop_name T q, q_value q)) props.
Fixpoint view_of (T : list Z) (t : tree) : view := let '(Node name _ props kids) := t in View name (view_props T props) (map (view_of T) kids).
(** The value replaces that of the first property of the name, or a new property comes first. *)
Fixpoint replace_prop (name val : list Z) (props : list (list Z * list Z)) : option (list (list Z * list Z)) :=
  match props with
  | [] => None
  | (n, v) :: props => if streq n name then Some ((n, val) :: props) else (fun l => (n, v) :: l) <$> replace_prop name val props
  end.
Definition set_props (name val : list Z) (props : list (list Z * list Z)) : list (list Z * list Z) :=
  match replace_prop name val props with Some l => l | None => (name, val) :: props end.
Definition set_view (name val : list Z) (v : view) : view := let '(View n props kids) := v in View n (set_props name val props) kids.

Lemma zdrop_app_in (k : Z) (T ext : list Z) : 0 <= k -> existsb (Z.eqb 0) (zdrop k T) = true -> zdrop k (T ++ ext) = zdrop k T ++ ext.
Proof.
  intros Hk H. destruct (Z.leb_spec (zlen T) k); [by rewrite zdrop_all in H by lia|]. unfold zdrop, zlen in *. by rewrite drop_app_le by lia.
Qed.
Lemma good_prop_ext T ext q : good_prop T q -> good_prop (T ++ ext) q /\ prop_name (T ++ ext) q = prop_name T q.
Proof.
  intros (H1 & H2 & H3). unfold prop_name, good_prop. rewrite zdrop_app_in by (done || lia). destruct (cstr_app_in _ ext H3) as [-> ->]. done.
Qed.
Lemma view_props_ext T ext props : Forall (good_prop T) props -> Forall (good_prop (T ++ ext)) props /\ view_props (T ++ ext) props = view_props T props.
Proof.
  induction 1 as [|q props Hq _ [IH1 IH2]]; [done|]. destruct (good_prop_ext T ext q Hq) as [G E]. split; [by constructor|]. unfold view_props in *. cbn [map]. by rewrite E, IH2.
Qed.
Lemma good_ext T ext t : good T t -> good (T ++ ext) t /\ view_of (T ++ ext) t = view_of T t.
Proof.
  revert t. refine (node_tree_ind _ _). intros name pad props kids IH (Hn & Hp & Hq & Hk)%good_inv. destruct (view_props_ext T ext props Hq) as [Hq' E].
  assert (Forall (good (T ++ ext)) kids /\ map (view_of (T ++ ext)) kids = map (view_of T) kids) as [Hk' Ek].
  { clear -IH Hk. induction IH as [|k kids Hk1 _ IHk]; [done|]. apply Forall_cons in Hk as [G Gs]. destruct (Hk1 G) as [G' E]. destruct (IHk Gs) as [Gs' Es]. split; [by constructor|]. cbn [map]. by rewrite E, Es. }
  split; [by constructor|]. cbn [view_of]. by rewrite E, Ek.
Qed.
Lemma goods_ext T ext ts : Forall (good T) ts -> Forall (good (T ++ ext)) ts /\ map (view_of (T ++ ext)) ts = map (view_of T) ts.
Proof. induction 1 as [|t ts Ht _ [IH1 IH2]]; [done|]. destruct (good_ext T ext t Ht) as [G E]. split; [by constructor|]. cbn [map]. by rewrite E, IH2. Qed.

Lemma first_prop_split T name props : forall a a' len, first_prop T name a props = Some (a', len) ->
  exists pre q post, props = pre ++ q :: post /\ a' = a + zlen (flat_props pre) /\ len = zlen (q_value q) /\
    forall q', q_name q' = q_name q -> replace_prop name (q_value q') (view_props T props) = Some (view_props T (pre ++ q' :: post)).
Proof.
  induction props as [|q props IH]; intros a a' len; cbn [first_prop]; [done|]. destruct (streq (prop_name T q) name) eqn:E.
  - intros [= <- <-]. exists [], q, props. repeat split; [change (zlen (flat_props [])) with 0; lia|]. intros q' Hq'. cbn. rewrite E. unfold prop_name. by rewrite Hq'.
  - intros H. destruct (IH _ _ _ H) as (pre & q1 & post & -> & -> & -> & H'). exists (q :: pre), q1, post. repeat split.
    + change (flat_props (q :: pre)) with (flat_prop q ++ flat_props pre). rewrite zlen_app. lia.
    + intros q' Hq'. cbn. rewrite E. unfold view_props in H'. rewrite (H' q' Hq'). done.
Qed.
Lemma first_prop_none T name props : forall a val, first_prop T name a props = None -> replace_prop name val (view_props T props) = None.
Proof.
  induction props as [|q props IH]; intros a val; cbn [first_prop]; [done|]. cbn. destruct (streq (prop_name T q) name); [done|]. intros H. unfold view_props in IH. by rewrite (IH _ val H).
Qed.

Definition prop_head (q : fprop) : list Z := be_bytes 4 FDT_PROP ++ be_bytes 4 (zlen (q_value q)) ++ be_bytes 4 (q_name q).
Lemma flat_prop_head q : flat_prop q = prop_head q ++ q_value q ++ q_pad q.
Proof. unfold flat_prop, prop_head. by rewrite <- !app_assoc. Qed.
Lemma zlen_prop_head q : zlen (prop_head q) = 12.
Proof. unfold prop_head. by rewrite !zlen_app, !zlen_be_bytes. Qed.

(** What the steps of [fdt_setprop] keep. *)
Definition kept (p p' : parts) (grown : Z) : Prop :=
  fits_memory p' /\ zlen (memory p') = zlen (memory p) /\ data_end p' <= data_end p + grown /\ pt_totalsize p' = pt_totalsize p /\ pt_rsv p' = pt_rsv p.

Section Setprop.
Context (fuel : nat) (val : list Z) (Hval : zlen val < 2 ^ 30).

(** A value in a struct block: [a] in front of it, [mid] of the padded size where it comes. *)
Lemma value_written p A mid B o : fits_memory p -> pt_struct p = A ++ mid ++ B -> zlen mid = FDT_TAGALIGN (zlen val) -> o = off_struct p + zlen A ->
  exists pad, padded4 (zlen val) pad /\ let p' := with_struct p (A ++ val ++ pad ++ B) (pt_room p) in
    rwrite o val (memory p) = Ret (memory p') /\ kept p p' 0.
Proof.
  intros F E Hm Ho. pose proof (zlen_nonneg val). destruct (TAGALIGN_pad (zlen val)) as [Hr Ha]; [lia|]. exists (zdrop (zlen val) mid).
  assert (zlen (zdrop (zlen val) mid) = FDT_TAGALIGN (zlen val) - zlen val) as Lp by (rewrite zlen_drop; lia).
  split; [split; rewrite Lp; [lia|]; unfold aligned in Ha; by replace (zlen val + (FDT_TAGALIGN (zlen val) - zlen val)) with (FDT_TAGALIGN (zlen val)) by lia|].
  assert (pt_struct p = A ++ ztake (zlen val) mid ++ zdrop (zlen val) mid ++ B) as E2 by (rewrite E; f_equal; by rewrite app_assoc, ztake_drop).
  destruct (rwrite_struct p A (ztake (zlen val) mid) (zdrop (zlen val) mid ++ B) val o F E2 Ho) as (W1 & W2 & W3 & W4); [rewrite zlen_take; lia|].
  split; [exact W1|]. split; [exact W2|]. split; [exact W3|]. split; [lia | done].
Qed.
Lemma kept_steps p1 p2 p3 g1 g2 : kept p1 p2 g1 -> kept p2 p3 g2 -> kept p1 p3 (g1 + g2).
Proof. intros (A1 & A2 & A3 & A4) (B1 & B2 & B3 & B4). split; [done|]. split; [congruence|]. split; [lia|]. destruct A4, B4. split; congruence. Qed.
Lemma kept_with p S room : pt_strings (with_struct p S room) = pt_strings p /\ off_struct (with_struct p S room) = off_struct p.
Proof. done. Qed.

(** A property that is there: the value is resized and replaced. *)
Lemma resized p X q Y : fits_memory p -> pt_struct p = X ++ flat_prop q ++ Y -> good_prop (pt_strings p) q ->
  (exists p1 p2 q', q_name q' = q_name q /\ q_value q' = val /\ padded4 (zlen val) (q_pad q') /\
     (r ← fdt_splice_struct (memory p) (off_struct p + zlen X + 12) (FDT_TAGALIGN (zlen (q_value q))) (FDT_TAGALIGN (zlen val));
      (let '(err, fdt) := r in if negb (err =? 0) then Ret (err, off_struct p + zlen X, fdt) else fdt ← st32 (off_struct p + zlen X + 4) (zlen val) fdt; Ret (0, off_struct p + zlen X, fdt)))
       = Ret (0, off_struct p + zlen X, memory p1) /\
     rwrite (off_struct p + zlen X + 12) val (memory p1) = Ret (memory p2) /\
     pt_strings p2 = pt_strings p /\ pt_struct p2 = X ++ flat_prop q' ++ Y /\ kept p p2 (zlen val + 4)) \/
  (fdt_splice_struct (memory p) (off_struct p + zlen X + 12) (FDT_TAGALIGN (zlen (q_value q))) (FDT_TAGALIGN (zlen val)) = Ret (- FDT_ERR_NOSPACE, memory p) /\
     pt_totalsize p < data_end p + zlen val + 4).
Proof.
  intros F E Hq. pose proof (zlen_nonneg val). destruct (TAGALIGN_pad (zlen val)) as [Hr Ha]; [lia|]. pose proof Hq as ([Hq1 Hq2] & Hq3 & _). pose proof (zlen_nonneg (q_value q)). pose proof (zlen_nonneg (q_pad q)).
  assert (zlen (flat_prop q) < 2 ^ 31) as L31.
  { assert (stands p (zlen X) (flat_prop q)) as S by (exists X, Y; done). pose proof (stands_range p F _ _ S). pose proof (zlen_nonneg X). lia. }
  rewrite zlen_flat_prop in L31. rewrite (TAGALIGN_up (zlen (q_value q)) (q_pad q)) by (done || lia).
  assert (pt_struct p = (X ++ prop_head q) ++ (q_value q ++ q_pad q) ++ Y) as E2 by (rewrite E, flat_prop_head, <- !app_assoc; done).
  destruct (splice_struct_at p (X ++ prop_head q) (q_value q ++ q_pad q) Y (FDT_TAGALIGN (zlen val)) F E2 ltac:(lia)) as [Hok Hno].
  rewrite (zlen_app X (prop_head q)), zlen_prop_head, Z.add_assoc, (zlen_app (q_value q)) in Hok, Hno.
  destruct (Z.leb_spec (data_end p - (zlen (q_value q) + zlen (q_pad q)) + FDT_TAGALIGN (zlen val)) (pt_totalsize p)) as [Hs|Hs]; [left | right; split; [by apply Hno | lia]].
  destruct (Hok Hs) as (mid & room' & Lm & Es & F1 & Lm1 & Ld1). rewrite Es. rsimpl. cbn [negb Z.eqb]. set (p0 := with_struct p ((X ++ prop_head q) ++ mid ++ Y) room') in *.
  destruct (rwrite_struct p0 (X ++ be_bytes 4 FDT_PROP) (be_bytes 4 (zlen (q_value q))) (be_bytes 4 (q_name q) ++ mid ++ Y) (be_bytes 4 (zlen val)) (off_struct p + zlen X + 4) F1)
    as (W1 & W2 & W3 & W4).
  { cbn. unfold prop_head. by rewrite <- !app_assoc. }
  { rewrite zlen_app, zlen_be_bytes. change (off_struct p0) with (off_struct p). lia. }
  { by rewrite !zlen_be_bytes. }
  unfold st32. rewrite W1. rsimpl. set (p1 := with_struct p0 _ _) in *.
  destruct (value_written p1 (X ++ be_bytes 4 FDT_PROP ++ be_bytes 4 (zlen val) ++ be_bytes 4 (q_name q)) mid Y (off_struct p + zlen X + 12) W2) as (pad & Hpad & V1 & V2).
  { cbn. by rewrite <- !app_assoc. }
  { done. }
  { rewrite !zlen_app, !zlen_be_bytes. change (off_struct p1) with (off_struct p). lia. }
  eexists p1, _, (FProp (q_name q) val pad). split; [done|]. split; [done|]. split; [done|]. split; [done|]. split; [exact V1|]. split; [done|]. split.
  - cbn. unfold flat_prop. cbn. by rewrite <- !app_assoc.
  - destruct V2 as (V3 & V4 & V5 & V6). split; [done|]. split; [congruence|]. split; [lia | done].
Qed.
(** A new property in front of the others. *)
Lemma added p X Y k : fits_memory p -> pt_struct p = X ++ Y -> 0 <= k < 2 ^ 31 ->
  (exists p1 p2 pad, padded4 (zlen val) pad /\
     (r ← fdt_splice_struct (memory p) (off_struct p + zlen X) 0 (12 + FDT_TAGALIGN (zlen val));
      (let '(err, fdt) := r in if negb (err =? 0) then Ret (err, off_struct p + zlen X, fdt) else
       fdt ← st32 (off_struct p + zlen X) FDT_PROP fdt; fdt ← st32 (off_struct p + zlen X + 8) k fdt; fdt ← st32 (off_struct p + zlen X + 4) (zlen val) fdt; Ret (0, off_struct p + zlen X, fdt)))
       = Ret (0, off_struct p + zlen X, memory p1) /\
     rwrite (off_struct p + zlen X + 12) val (memory p1) = Ret (memory p2) /\
     pt_strings p2 = pt_strings p /\ pt_struct p2 = X ++ flat_prop (FProp k val pad) ++ Y /\ kept p p2 (zlen val + 16)) \/
  (fdt_splice_struct (memory p) (off_struct p + zlen X) 0 (12 + FDT_TAGALIGN (zlen val)) = Ret (- FDT_ERR_NOSPACE, memory p) /\
     pt_totalsize p < data_end p + zlen val + 16).
Proof.
  intros F E Hk. pose proof (zlen_nonneg val). destruct (TAGALIGN_pad (zlen val)) as [Hr Ha]; [lia|].
  destruct (splice_struct_at p X [] Y (12 + FDT_TAGALIGN (zlen val)) F E ltac:(lia)) as [Hok Hno]. rewrite zlen_nil, Z.sub_0_r in Hok, Hno.
  destruct (Z.leb_spec (data_end p + (12 + FDT_TAGALIGN (zlen val))) (pt_totalsize p)) as [Hs|Hs]; [left | right; split; [by apply Hno | lia]].
  destruct (Hok Hs) as (mid & room' & Lm & Es & F1 & Lm1 & Ld1). rewrite Es. rsimpl. cbn [negb Z.eqb]. set (p0 := with_struct p (X ++ mid ++ Y) room') in *.
  set (m0 := ztake 4 mid). set (m1 := slice 4 4 mid). set (m2 := slice 8 4 mid). set (m3 := zdrop 12 mid).
  assert (mid = m0 ++ m1 ++ m2 ++ m3) as Em.
  { unfold m0, m1, m2, m3, slice. rewrite <- (ztake_drop 4 mid) at 1. f_equal. rewrite <- (ztake_drop 4 (zdrop 4 mid)) at 1. f_equal.
    replace (zdrop 4 (zdrop 4 mid)) with (zdrop 8 mid) by (unfold zdrop; rewrite drop_drop; done). rewrite <- (ztake_drop 4 (zdrop 8 mid)) at 1. f_equal. unfold zdrop. by rewrite drop_drop. }
  assert (zlen m0 = 4 /\ zlen m1 = 4 /\ zlen m2 = 4 /\ zlen m3 = FDT_TAGALIGN (zlen val)) as (L0 & L1 & L2 & L3).
  { unfold m0, m1, m2, m3. rewrite zlen_take, !zlen_slice, zlen_drop by lia. lia. }
  clearbody m0 m1 m2 m3.
  destruct (rwrite_struct p0 X m0 (m1 ++ m2 ++ m3 ++ Y) (be_bytes 4 FDT_PROP) (off_struct p + zlen X) F1) as (W1 & W2 & W3 & W4); [cbn; by rewrite Em, <- !app_assoc | done | by rewrite zlen_be_bytes|].
  unfold st32. rewrite W1. rsimpl. set (p1 := with_struct p0 _ _) in *.
  destruct (rwrite_struct p1 (X ++ be_bytes 4 FDT_PROP ++ m1) m2 (m3 ++ Y) (be_bytes 4 k) (off_struct p + zlen X + 8) W2) as (U1 & U2 & U3 & U4);
    [cbn; by rewrite <- !app_assoc | rewrite !zlen_app, zlen_be_bytes; change (off_struct p1) with (off_struct p); lia | by rewrite zlen_be_bytes|].
  rewrite U1. rsimpl. set (p2 := with_struct p1 _ _) in *.
  destruct (rwrite_struct p2 (X ++ be_bytes 4 FDT_PROP) m1 (be_bytes 4 k ++ m3 ++ Y) (be_bytes 4 (zlen val)) (off_struct p + zlen X + 4) U2) as (T1 & T2 & T3 & T4);
    [cbn; by rewrite <- !app_assoc | rewrite !zlen_app, zlen_be_bytes; change (off_struct p2) with (off_struct p); lia | by rewrite zlen_be_bytes|].
  rewrite T1. rsimpl. set (p3 := with_struct p2 _ _) in *.
  destruct (value_written p3 (X ++ be_bytes 4 FDT_PROP ++ be_bytes 4 (zlen val) ++ be_bytes 4 k) m3 Y (off_struct p + zlen X + 12) T2) as (pad & Hpad & V1 & V2);
    [cbn; by rewrite <- !app_assoc | done | rewrite !zlen_app, !zlen_be_bytes; change (off_struct p3) with (off_struct p); lia|].
  eexists p3, _, pad. split; [done|]. split; [done|]. split; [exact V1|]. split; [done|]. split.
  - cbn. unfold flat_prop. cbn. by rewrite <- !app_assoc.
  - destruct V2 as (V3 & V4 & V5 & V6). split; [done|]. split; [congruence|]. split; [lia | done].
Qed.
End Setprop.

(** ** fdt_setprop *)

(** The node that stands behind [X] has the property set. *)
Definition prop_set (p p' : parts) (X Y : list Z) (t : tree) (name val : list Z) : Prop :=
  exists ext t', pt_strings p' = pt_strings p ++ ext /\ pt_struct p' = X ++ flat t' ++ Y /\ good (pt_strings p') t' /\
    t_name t' = t_name t /\ t_kids t' = t_kids t /\ view_of (pt_strings p') t' = set_view name val (view_of (pt_strings p) t).
Lemma view_node T nm pad props kids : view_of T (Node nm pad props kids) = View nm (view_props T props) (map (view_of T) kids).
Proof. done. Qed.
Lemma set_found T name val pre q q' post : q_name q' = q_name q -> q_value q' = val ->
  (forall q'', q_name q'' = q_name q -> replace_prop name (q_value q'') (view_props T (pre ++ q :: post)) = Some (view_props T (pre ++ q'' :: post))) ->
  set_props name val (view_props T (pre ++ q :: post)) = view_props T (pre ++ q' :: post).
Proof. intros Hn Hv H. unfold set_props. specialize (H q' Hn). rewrite Hv in H. by rewrite H. Qed.

Lemma setprop_at fuel p X t Y name val : fits_memory p -> pt_struct p = X ++ flat t ++ Y -> aligned (zlen X) -> good (pt_strings p) t -> nonul name -> zlen val < 2 ^ 30 ->
  zlen (memory p) <= Z.of_nat fuel ->
  exists err p', fdt_setprop fuel (memory p) (zlen X) name val = Ret (err, memory p') /\ kept p p' (zlen val + zlen name + 17) /\
    ((err = 0 /\ prop_set p p' X Y t name val) \/
     (err = - FDT_ERR_NOSPACE /\ pt_totalsize p < data_end p + zlen val + zlen name + 17 /\ pt_struct p' = pt_struct p /\ exists ext, pt_strings p' = pt_strings p ++ ext)).
Proof.
  intros F E HX Hg Hn Hv Hf. pose proof (zlen_memory p) as Lm. pose proof (zlen_nonneg val). pose proof (zlen_nonneg name). pose proof (fm_total p F) as Ht.
  assert (zlen (pt_struct p) < 4 * Z.of_nat fuel) as Hfuel.
  { unfold data_end, off_strings, off_struct in Lm. pose proof (zlen_nonneg (pt_rsv p)). pose proof (zlen_nonneg (pt_struct p)). pose proof (zlen_nonneg (pt_gap p)). pose proof (zlen_nonneg (pt_strings p)). pose proof (zlen_nonneg (pt_room p)). lia. }
  assert (stands p (zlen X) (flat t)) as Hs by (exists X, Y; done). assert (kept p p (zlen val + zlen name + 17)) as K0 by (split; [done|]; split; [done|]; split; [lia | done]).
  unfold fdt_setprop. rewrite rw_check by done. rsimpl. cbn [negb Z.eqb]. unfold fdt_resize_property. rewrite (get_property_at p F fuel Hfuel (zlen X) t name Hs HX Hg). rsimpl.
  destruct t as [nm npad props kids]. pose proof Hg as (Hnm & Hnp & Hq & Hk)%good_inv. cbn [found] in *.
  destruct (first_prop (pt_strings p) name (off_struct p + zlen X + zlen (flat_head nm npad)) props) as [[a len]|] eqn:Ef.
  - destruct (first_prop_split _ _ _ _ _ _ Ef) as (pre & q & post & -> & -> & -> & Hrep). apply Forall_app in Hq as [Hpre Hq]. apply Forall_cons in Hq as [Hq Hpost].
    set (X1 := X ++ flat_head nm npad ++ flat_props pre). set (Y1 := flat_props post ++ concat (map flat kids) ++ end_node ++ Y).
    assert (forall q, X ++ flat (Node nm npad (pre ++ q :: post) kids) ++ Y = X1 ++ flat_prop q ++ Y1) as EN.
    { intros q0. unfold X1, Y1. cbn [flat]. unfold flat_props. rewrite map_app, concat_app. cbn [map concat]. rewrite <- !app_assoc. done. }
    rewrite EN in E. assert (off_struct p + zlen X + zlen (flat_head nm npad) + zlen (flat_props pre) = off_struct p + zlen X1) as -> by (unfold X1; rewrite !zlen_app; lia).
    destruct (resized val Hv p X1 q Y1 F E Hq) as [(p1 & p2 & q' & Q1 & Q2 & Q3 & S1 & S2 & S3 & S4 & S5) | [S1 S2]].
    + rewrite S1. rsimpl. cbn [fst snd]. change (0 =? - FDT_ERR_NOTFOUND) with false. cbv iota beta. rsimpl. cbv iota beta. cbn [negb Z.eqb]. rewrite S2. rsimpl. exists 0, p2. split; [done|].
      split; [destruct S5 as (? & ? & ? & ?); split; [done|]; split; [done|]; split; [lia | done]|]. left. split; [done|].
      exists [], (Node nm npad (pre ++ q' :: post) kids). rewrite app_nil_r, EN, S3. split; [done|]. split; [done|]. split.
      { constructor; [done | done | | done]. apply Forall_app. split; [done|]. constructor; [|done]. destruct Hq as (_ & Hq2 & Hq3). split; [by rewrite Q2|]. by rewrite Q1. }
      split; [done|]. split; [done|]. rewrite !view_node. cbn [set_view]. by rewrite <- (set_found _ name val pre q q' post Q1 Q2 Hrep).
    + rewrite S1. rsimpl. cbn [negb Z.eqb Z.opp FDT_ERR_NOSPACE]. rsimpl. change (- FDT_ERR_NOSPACE =? - FDT_ERR_NOTFOUND) with false. rsimpl.
      exists (- FDT_ERR_NOSPACE), p. split; [done|]. split; [done|]. right. split; [done|]. split; [lia|]. split; [done|]. exists []. by rewrite app_nil_r.
  - rsimpl. cbn [fst snd]. change (- FDT_ERR_NOTFOUND =? - FDT_ERR_NOTFOUND) with true. cbv iota beta. unfold fdt_add_property. pose proof Hs as Hs0. cbn [flat] in Hs0. apply stands_app in Hs0 as [Hh _].
    rewrite (check_node p F (zlen X) nm npad) by done. rsimpl. pose proof (stands_range p F _ _ Hh) as Hr. rewrite (proj2 (Z.ltb_ge _ 0)) by (pose proof (zlen_nonneg (flat_head nm npad)); lia).
    destruct (find_add_string_at p fuel name F Hn Hf) as [(k & ext & room' & Es & Hk1 & F1 & L1 & D1 & Lx) | [Es Hsp]].
    + rewrite Es. rsimpl. rewrite (proj2 (Z.ltb_ge k 0)) by (destruct Hk1; lia). set (p1 := with_strings p (pt_strings p ++ ext) room') in *. rewrite offset_ptr_at by done. rsimpl.
      change (off_struct p1) with (off_struct p). set (X1 := X ++ flat_head nm npad). set (Y1 := flat_props props ++ concat (map flat kids) ++ end_node ++ Y).
      assert (pt_struct p1 = X1 ++ Y1) as E1 by (cbn; rewrite E; unfold X1, Y1; cbn [flat]; rewrite <- !app_assoc; done).
      assert (off_struct p + (zlen X + zlen (flat_head nm npad)) = off_struct p1 + zlen X1) as -> by (unfold X1; rewrite zlen_app; change (off_struct p1) with (off_struct p); lia).
      destruct (added val Hv p1 X1 Y1 k F1 E1 (proj1 Hk1)) as [(p2 & p3 & pad & Hpad & S1 & S2 & S3 & S4 & S5) | [S1 S2]].
      * rewrite S1. rsimpl. cbv iota beta. cbn [negb Z.eqb]. rewrite S2. rsimpl. exists 0, p3. split; [done|].
        split; [destruct S5 as (? & ? & ? & ?); split; [done|]; split; [congruence|]; split; [lia | done]|]. left. split; [done|]. change (pt_strings p1) with (pt_strings p ++ ext) in S3.
        exists ext, (Node nm npad (FProp k val pad :: props) kids). split; [done|]. rewrite S3. split.
        { rewrite S4. unfold X1, Y1. cbn [flat]. change (flat_props (FProp k val pad :: props)) with (flat_prop (FProp k val pad) ++ flat_props props). by rewrite <- !app_assoc. }
        destruct (view_props_ext (pt_strings p) ext props Hq) as [Hq' Ev]. destruct (goods_ext (pt_strings p) ext kids Hk) as [Hk' Ek]. destruct Hk1 as (K1 & K2 & K3). split.
        { constructor; [done | done | | done]. constructor; [|done]. done. }
        split; [done|]. split; [done|]. rewrite !view_node. cbn [set_view]. rewrite Ek. f_equal. unfold set_props. rewrite (first_prop_none _ _ _ _ val Ef).
        change (view_props (pt_strings p ++ ext) (FProp k val pad :: props)) with ((prop_name (pt_strings p ++ ext) (FProp k val pad), val) :: view_props (pt_strings p ++ ext) props). rewrite Ev. unfold prop_name. cbn [q_name]. by rewrite K3.
      * rewrite S1. rsimpl. cbn [negb Z.eqb Z.opp FDT_ERR_NOSPACE]. rsimpl. exists (- FDT_ERR_NOSPACE), p1. split; [done|]. split; [split; [done|]; split; [done|]; split; [lia | done]|].
        right. split; [done|]. change (pt_totalsize p1) with (pt_totalsize p) in S2. split; [lia|]. split; [done|]. by exists ext.
    + rewrite Es. rsimpl. change (- FDT_ERR_NOSPACE <? 0) with true. cbv iota. rsimpl. cbn [negb Z.eqb Z.opp FDT_ERR_NOSPACE]. exists (- FDT_ERR_NOSPACE), p. split; [done|]. split; [done|]. right. split; [done|]. split; [lia|]. split; [done|]. exists []. by rewrite app_nil_r.
Qed.
