(* ===== verification/FdtView.v ===== *)
(** * Reading device trees as their user sees them

    Looking up a path and a property of a tree in memory answers what the view says; what
    [fdt_setprop] has set is found again. *)

From S2P Require Import Prelude CLib Fdt FdtTree FdtRw FdtEdit.

Fixpoint prop_of (name : list Z) (props : list (list Z * list Z)) : option (list Z) :=
  match props with [] => None | (n, v) :: props => if streq n name then Some v else prop_of name props end.
Definition v_name (v : view) : list Z := let '(View name _ _) := v in name.
Definition v_props (v : view) : list (list Z * list Z) := let '(View _ props _) := v in props.
Definition v_kids (v : view) : list view := let '(View _ _ kids) := v in kids.

(** The first kid that answers to a name, those in front of it and behind. *)
Fixpoint split_kid (s : list Z) (ks : list view) : option (list view * view * list view) :=
  match ks with
  | [] => None
  | k :: ks =>
      if node_matches (v_name k) s then Some ([], k, ks)
      else match split_kid s ks with Some (a, v, b) => Some (k :: a, v, b) | None => None end
  end.
(** The node at a path. *)
Fixpoint view_at (names : list (list Z)) (v : view) : option view :=
  match names with
  | [] => Some v
  | s :: names => match split_kid s (v_kids v) with Some (_, k, _) => view_at names k | None => None end
  end.

(** ** Reading a node *)

Definition front (t : tree) : list Z := let '(Node name pad props _) := t in flat_head name pad ++ flat_props props.
Lemma first_prop_value T name props : forall a, match first_prop T name a props with
  | Some (a', len) => exists v u w, prop_of name (view_props T props) = Some v /\ len = zlen v /\ flat_props props = u ++ v ++ w /\ a' + 12 = a + zlen u
  | None => prop_of name (view_props T props) = None
  end.
Proof.
  induction props as [|q props IH]; intros a; cbn [first_prop]; [done|]. unfold view_props in *. cbn [map prop_of].
  change (flat_props (q :: props)) with (flat_prop q ++ flat_props props). destruct (streq (prop_name T q) name).
  - exists (q_value q), (prop_head q), (q_pad q ++ flat_props props). rewrite flat_prop_head, zlen_prop_head, <- !app_assoc. done.
  - specialize (IH (a + zlen (flat_prop q))). destruct (first_prop _ _ _ _) as [[a' len]|]; [|done].
    destruct IH as (v & u & w & E1 & E2 & E3 & E4). exists v, (flat_prop q ++ u), w. rewrite E3, <- app_assoc, zlen_app. repeat split; [done | done | lia].
Qed.

Lemma struct_memory p : fits_memory p -> zlen (pt_struct p) + 40 <= zlen (memory p) < 2 ^ 31.
Proof.
  intros F. pose proof (fm_memory p F). rewrite zlen_memory in *. unfold data_end, off_strings, off_struct in *.
  pose proof (zlen_nonneg (pt_rsv p)). pose proof (zlen_nonneg (pt_gap p)). pose proof (zlen_nonneg (pt_strings p)). pose proof (zlen_nonneg (pt_room p)). lia.
Qed.
Lemma flats_app a b : flats (a ++ b) = flats a ++ flats b.
Proof. unfold flats. by rewrite map_app, concat_app. Qed.
Lemma flats_one k : flats [k] = flat k.
Proof. unfold flats. cbn [map concat]. by rewrite app_nil_r. Qed.
Lemma flats_cons k ks : flats (k :: ks) = flat k ++ flats ks.
Proof. done. Qed.
Lemma stands_in p X d Y : pt_struct p = X ++ d ++ Y -> stands p (zlen X) d.
Proof. intros E. by exists X, Y. Qed.

Section Reading.
Context (p : parts) (F : fits_memory p) (fuel : nat) (Hfuel : zlen (pt_struct p) < 4 * Z.of_nat fuel).
Context (o : Z) (t : tree) (Hs : stands p o (flat t)) (Ho : aligned o) (Hg : good (pt_strings p) t).
Let v : view := view_of (pt_strings p) t.

Lemma flat_front : exists r, flat t = front t ++ r.
Proof. destruct t as [name pad props kids]. cbn [flat front]. eexists. by rewrite <- app_assoc. Qed.
Lemma getprop_view name :
  (exists val a b, prop_of name (v_props v) = Some val /\ front t = a ++ val ++ b /\ stands p (o + zlen a) val /\
     fdt_getprop fuel (memory p) o name = Ret (Some (off_struct p + (o + zlen a)), zlen val)) \/
  (prop_of name (v_props v) = None /\ fdt_getprop fuel (memory p) o name = Ret (None, - FDT_ERR_NOTFOUND)).
Proof.
  rewrite (getprop_at p F fuel Hfuel o t name) by done. unfold found. destruct flat_front as [r Er]. unfold v. destruct t as [nm pad props kids]. rewrite view_node. cbn [v_props].
  pose proof (first_prop_value (pt_strings p) name props (off_struct p + o + zlen (flat_head nm pad))) as H. destruct (first_prop _ _ _ _) as [[a len]|]; [left | by right].
  destruct H as (val & u & w & E1 & E2 & E3 & E4). exists val, (flat_head nm pad ++ u), w. cbn [front] in *. rewrite E3, <- !app_assoc, zlen_app.
  split; [done|]. split; [done|]. split; [|rewrite E4, E2; do 3 f_equal; lia].
  rewrite Er, E3, <- !app_assoc, app_assoc in Hs. apply stands_app in Hs as [_ Hs']. apply stands_app in Hs' as [Hs' _]. by rewrite zlen_app in Hs'.
Qed.
End Reading.

Lemma kid_named_split T s ks : forall c, match kid_named s c ks with
  | Some (o, k) => exists a b, ks = a ++ k :: b /\ o = c + zlen (flats a) /\ split_kid s (map (view_of T) ks) = Some (map (view_of T) a, view_of T k, map (view_of T) b)
  | None => split_kid s (map (view_of T) ks) = None
  end.
Proof.
  induction ks as [|k ks IH]; intros c; cbn [kid_named map split_kid]; [done|]. replace (v_name (view_of T k)) with (t_name k) by (by destruct k).
  destruct (node_matches (t_name k) s).
  - exists [], ks. split; [done|]. split; [unfold flats; cbn; rewrite zlen_nil; lia | done].
  - specialize (IH (c + zlen (flat k))). destruct (kid_named s _ ks) as [[o k']|]; [|by rewrite IH].
    destruct IH as (a & b & -> & -> & E). exists (k :: a), b. rewrite E, flats_cons, zlen_app. split; [done|]. split; [lia | done].
Qed.

Lemma prop_of_set name other val props : prop_of other (set_props name val props) = if streq name other then Some val else prop_of other props.
Proof.
  unfold set_props. assert (match replace_prop name val props with Some l => prop_of other l = if streq name other then Some val else prop_of other props | None => True end) as H.
  { induction props as [|[n v] props IH]; cbn [replace_prop]; [done|]. destruct (streq n name) eqn:E.
    - apply streq_true in E as ->. cbn [prop_of]. by destruct (streq name other).
    - destruct (replace_prop name val props) as [l|]; cbn; [|done]. rewrite IH. destruct (streq n other) eqn:E2; [|done].
      apply streq_true in E2 as ->. destruct (streq name other) eqn:E3; [|done]. apply streq_true in E3 as ->. unfold streq in E. apply bool_decide_eq_false in E. done. }
  destruct (replace_prop name val props); [done|]. done.
Qed.

(** ** Paths *)

Section Paths.
Context (p : parts) (F : fits_memory p).
Let T := pt_strings p.

Lemma resolve_view names : forall o t, stands p o (flat t) -> aligned o -> good T t ->
  match resolve names o t with
  | Some (o', t') => stands p o' (flat t') /\ aligned o' /\ good T t' /\ view_at names (view_of T t) = Some (view_of T t')
  | None => view_at names (view_of T t) = None
  end.
Proof.
  induction names as [|s names IH]; intros o t Hs Ho Hg; cbn [resolve view_at]; [done|].
  destruct (content_stands p o t Hs Ho Hg) as (C1 & C2 & C3). pose proof (kid_named_split T s (t_kids t) (content o t)) as H.
  assert (v_kids (view_of T t) = map (view_of T) (t_kids t)) as -> by (by destruct t).
  destruct (kid_named s (content o t) (t_kids t)) as [[o' k]|] eqn:Ek; [|by rewrite H].
  destruct H as (a & b & _ & _ & ->). destruct (kid_named_stands p s _ _ _ _ _ C1 C2 C3 Ek) as (K1 & K2 & K3). by apply IH.
Qed.
End Paths.

(** ** Broken trees *)

(** The length of a property that leads back to the property: [fdt_next_tag] finds the same tag
    again, and [fdt_next_node] never ends. *)
Definition looping : parts :=
  Parts 96 40 16 0 (zrep 16 0) (be_bytes 4 FDT_BEGIN_NODE ++ zrep 4 0 ++ be_bytes 4 FDT_PROP ++ be_bytes 4 (2 ^ 32 - 12) ++ be_bytes 4 0 ++ be_bytes 4 FDT_END_NODE ++ be_bytes 4 FDT_END) [] (str "a" ++ [0]) (zrep 10 0).
Lemma looping_loop n d : next_node_loop n (memory looping) 8 d = NoFuel.
Proof.
  induction n as [|n IH]; [done|]. cbn [next_node_loop]. assert (fdt_next_tag (memory looping) 8 = Ret (FDT_PROP, 8)) as -> by by vm_compute. exact IH.
Qed.
Example looping_never_ends fuel : fdt_next_node fuel (memory looping) 0 (Some 0) = NoFuel.
Proof.
  unfold fdt_next_node. assert (fdt_check_node_offset (memory looping) 0 = Ret 8) as E by by vm_compute. change (0 <=? 0) with true. rewrite E. exact (looping_loop fuel (Some 0)).
Qed.

(** A tree with an image and its hash. *)
Definition sample_hash : tree := Node (str "hash@1") [0] [FProp 5 (str "crc32" ++ [0]) [0; 0]] [].
Definition sample_image : tree := Node (str "kernel@1") [0; 0; 0] [FProp 0 [1; 2; 3] [0]] [sample_hash].
Definition sample : tree := Node [] [0; 0; 0] [] [Node (str "images") [0] [] [sample_image]].
Definition sample_parts : parts :=
  Parts 320 40 16 0 (zrep 16 0) (flat sample ++ be_bytes 4 FDT_END) [] (str "data" ++ [0] ++ str "algo" ++ [0]) (zrep 150 0).
Lemma sample_fits : fits_memory sample_parts.
Proof. split; apply (bool_decide_eq_true _); by vm_compute. Qed.
Lemma sample_good : good (pt_strings sample_parts) sample.
Proof. repeat (constructor || done || lia). Qed.

(** ** Properties *)

(** C30: on a tree in memory, looking up a path finds the node that the path names in the tree, or says that there is none; and looking up a property in that node answers with the place and the length of the value of its first property of the name, or says that it has none. *)
Theorem fdt_lookup fuel p root Y names name : fits_memory p -> zlen (memory p) <= Z.of_nat fuel -> pt_struct p = flat root ++ Y -> good (pt_strings p) root ->
  Forall component names -> names <> [] ->
  match view_at names (view_of (pt_strings p) root) with
  | None => fdt_path_offset fuel (memory p) (path_of names) = Ret (- FDT_ERR_NOTFOUND)
  | Some v => exists o, 0 <= o /\ fdt_path_offset fuel (memory p) (path_of names) = Ret o /\
      match prop_of name (v_props v) with
      | None => fdt_getprop fuel (memory p) o name = Ret (None, - FDT_ERR_NOTFOUND)
      | Some val => exists a, fdt_getprop fuel (memory p) o name = Ret (Some a, zlen val) /\ rread a (zlen val) (memory p) = Ret val
      end
  end.
Proof.
  intros F Hf E Hg Hc Hne. pose proof (struct_memory p F) as LM. assert (stands p 0 (flat root)) as Hs by (by exists [], Y).
  rewrite (path_offset_at p F fuel ltac:(lia) root names) by done. pose proof (resolve_view p names 0 root Hs ltac:(done) Hg) as H.
  destruct (resolve names 0 root) as [[o t]|]; [|by rewrite H]. destruct H as (S & Ao & Gt & ->). pose proof (stands_range p F _ _ S) as Rg. exists o. split; [lia|]. split; [done|].
  destruct (getprop_view p F fuel ltac:(lia) o t S Ao Gt name) as [(val & a & b & -> & _ & Sv & ->) | [-> ->]]; [|done].
  eexists. split; [done|]. by apply (rread_struct p _ val _ _ Sv).
Qed.
Lemma fdt_lookup_witness :
  exists o, 0 <= o /\ fdt_path_offset 400 (memory sample_parts) (path_of [str "images"; str "kernel"; str "hash"]) = Ret o /\
    exists a, fdt_getprop 400 (memory sample_parts) o (str "algo") = Ret (Some a, 6) /\ rread a 6 (memory sample_parts) = Ret (str "crc32" ++ [0]).
Proof.
  refine (fdt_lookup 400 sample_parts sample (be_bytes 4 FDT_END) [str "images"; str "kernel"; str "hash"] (str "algo") sample_fits _ eq_refl sample_good _ _);
    [by vm_compute | repeat (constructor || done) | done].
Defined.

(** C29: setting a property of a node of a tree in memory, where there may be room or not, leaves a tree in memory of the same size: with the property set at the node and nothing else changed, and the value is found when the property is looked up; or, when the answer is that there is no space, with the tree as it was. *)
Theorem fdt_setprop_getprop fuel p X t Y name val : fits_memory p -> pt_struct p = X ++ flat t ++ Y -> aligned (zlen X) -> good (pt_strings p) t ->
  nonul name -> zlen val < 2 ^ 30 -> zlen (memory p) <= Z.of_nat fuel ->
  exists err p', fdt_setprop fuel (memory p) (zlen X) name val = Ret (err, memory p') /\ fits_memory p' /\ zlen (memory p') = zlen (memory p) /\
    (exists ext, pt_strings p' = pt_strings p ++ ext) /\
    ((err = 0 /\ (exists t', pt_struct p' = X ++ flat t' ++ Y /\ good (pt_strings p') t' /\ view_of (pt_strings p') t' = set_view name val (view_of (pt_strings p) t)) /\
      exists a, fdt_getprop fuel (memory p') (zlen X) name = Ret (Some a, zlen val) /\ rread a (zlen val) (memory p') = Ret val) \/
     (err = - FDT_ERR_NOSPACE /\ pt_totalsize p < data_end p + zlen val + zlen name + 17 /\ pt_struct p' = pt_struct p)).
Proof.
  intros F E HX Hg Hn Hv Hf. destruct (setprop_at fuel p X t Y name val F E HX Hg Hn Hv Hf) as (err & p' & Es & (F' & L' & _) & H). exists err, p'. split; [done|]. split; [done|]. split; [done|].
  destruct H as [(-> & ext & t' & ET & ES & G' & _ & _ & Ev) | (-> & Hr & ES & ext & ET)]; (split; [by exists ext|]); [left | by right].
  split; [done|]. split; [by exists t'|]. pose proof (struct_memory p' F') as LM. pose proof (stands_in p' X (flat t') Y ES) as Hs.
  destruct (getprop_view p' F' fuel ltac:(lia) (zlen X) t' Hs HX G' name) as [(v & a & b & Ep & _ & Sv & Eg) | [Ep _]]; rewrite Ev in Ep;
    (assert (v_props (set_view name val (view_of (pt_strings p) t)) = set_props name val (v_props (view_of (pt_strings p) t))) as Ep' by (by destruct (view_of _ t)));
    rewrite Ep', prop_of_set, (proj2 (streq_true name name) eq_refl) in Ep; [|done].
  injection Ep as <-. eexists. split; [exact Eg|]. by apply (rread_struct p' _ val _ _ Sv).
Qed.
Lemma fdt_setprop_getprop_witness :
  exists p', fdt_setprop 400 (memory sample_parts) 0 (str "timestamp") [1; 2; 3; 4] = Ret (0, memory p') /\
    exists a, fdt_getprop 400 (memory p') 0 (str "timestamp") = Ret (Some a, 4) /\ rread a 4 (memory p') = Ret [1; 2; 3; 4].
Proof.
  destruct (fdt_setprop_getprop 400 sample_parts [] sample (be_bytes 4 FDT_END) (str "timestamp") [1; 2; 3; 4] sample_fits eq_refl eq_refl sample_good) as (err & p' & E & _ & _ & _ & [(-> & _ & H) | (_ & H & _)]).
  - repeat (constructor || done).
  - done.
  - by vm_compute.
  - exists p'. split; [exact E | exact H].
  - exfalso. revert H. vm_compute. discriminate.
Defined.
