(* ===== verification/Fit.v ===== *)
(** * FIT images (contrib/uboot_mkimage/common/image.c from fit_get_desc on, tools/fit_image.c)

    A FIT image is a device tree whose images have their data and hashes as properties.
    [uboot_mkimage -f] lets dtc build the tree and fills in the hashes; the checks and the
    listing read them.  The memory of a tree is as in Fdt.v; where a buffer of the source is
    on the stack, [stack] is what it holds before. *)

From S2P Require Import Prelude CLib Endian Fdt UbootCrc UImage Hash Sha1 Md5 FdtRw.

Definition FIT_IMAGES_PATH : list Z := str "/images".
Definition FIT_CONFS_PATH : list Z := str "/configurations".
Definition FIT_HASH_NODENAME : list Z := str "hash".
Definition FIT_ALGO_PROP : list Z := str "algo".
Definition FIT_VALUE_PROP : list Z := str "value".
Definition FIT_DATA_PROP : list Z := str "data".
Definition FIT_TIMESTAMP_PROP : list Z := str "timestamp".
Definition FIT_DESC_PROP : list Z := str "description".
Definition FIT_ARCH_PROP : list Z := str "arch".
Definition FIT_TYPE_PROP : list Z := str "type".
Definition FIT_OS_PROP : list Z := str "os".
Definition FIT_COMP_PROP : list Z := str "compression".
Definition FIT_ENTRY_PROP : list Z := str "entry".
Definition FIT_LOAD_PROP : list Z := str "load".
Definition FIT_KERNEL_PROP : list Z := str "kernel".
Definition FIT_RAMDISK_PROP : list Z := str "ramdisk".
Definition FIT_FDT_PROP : list Z := str "fdt".
Definition FIT_DEFAULT_PROP : list Z := str "default".

(** What a listing shows: [None] is "unavailable"; of [option (option _)], [None] is not shown. *)
Record hash_report := HashReport { hr_algo : option (list Z); hr_value : option (list Z) }.
Record image_report := ImageReport {
  ir_name : list Z; ir_desc : option (list Z); ir_type : list Z; ir_comp : list Z; ir_size : option Z;
  ir_arch : option (list Z); ir_os : option (list Z); ir_load : option (option Z); ir_entry : option (option Z);
  ir_hashes : list hash_report
}.
Record conf_report := ConfReport {
  cr_name : list Z; cr_desc : option (list Z); cr_kernel : option (list Z); cr_ramdisk : option (list Z); cr_fdt : option (list Z)
}.
Record fit_report := FitReport {
  fr_desc : option (list Z); fr_time : option Z; fr_images : option (list image_report);
  fr_default : option (list Z); fr_confs : list conf_report
}.

Section Fit.
(** The host's byte order, the bits of its unsigned long, what the stack holds where the
    buffers of the digests come to lie. *)
Context (fuel : nat) (big : bool) (w : Z) (stack : list Z).

(** ** Properties *)

Definition fit_prop_string (fit : list Z) (noffset : Z) (prop : list Z) : run (option (list Z)) :=
  r ← fdt_getprop fuel fit noffset prop;
  match r.1 with None => Ret None | Some p => s ← string_at p fit; Ret (Some s) end.
Definition fit_get_desc (fit : list Z) (noffset : Z) : run (option (list Z)) := fit_prop_string fit noffset FIT_DESC_PROP.
(** The result and the time. *)
Definition fit_get_timestamp (fit : list Z) (noffset : Z) : run (Z * Z) :=
  r ← fdt_getprop fuel fit noffset FIT_TIMESTAMP_PROP;
  match r with
  | (None, _) => Ret (-1, 0)
  | (Some data, len) => if negb (len =? 4) then Ret (-2, 0) else t ← ld32 data fit; Ret (0, t)
  end.
Definition fit_image_get_node (fit image_uname : list Z) : run Z :=
  images_noffset ← fdt_path_offset fuel fit FIT_IMAGES_PATH;
  if images_noffset <? 0 then Ret images_noffset else fdt_subnode_offset fuel fit images_noffset image_uname.
(** Whether the property is there, and the number of its name as a byte. *)
Definition fit_image_get_id (prop : list Z) (id : list Z -> outcome Z) (fit : list Z) (noffset : Z) : run (bool * Z) :=
  r ← fit_prop_string fit noffset prop;
  match r with None => Ret (false, 255) | Some data => i ← lift (id data); Ret (true, u8 i) end.
Definition fit_image_get_os : list Z -> Z -> run (bool * Z) := fit_image_get_id FIT_OS_PROP genimg_get_os_id.
Definition fit_image_get_arch : list Z -> Z -> run (bool * Z) := fit_image_get_id FIT_ARCH_PROP genimg_get_arch_id.
Definition fit_image_get_type : list Z -> Z -> run (bool * Z) := fit_image_get_id FIT_TYPE_PROP genimg_get_type_id.
Definition fit_image_get_comp : list Z -> Z -> run (bool * Z) := fit_image_get_id FIT_COMP_PROP genimg_get_comp_id.
(** The word, whatever the length. *)
Definition fit_image_get_word (prop : list Z) (fit : list Z) (noffset : Z) : run (option Z) :=
  r ← fdt_getprop fuel fit noffset prop;
  match r.1 with None => Ret None | Some data => v ← ld32 data fit; Ret (Some v) end.
Definition fit_image_get_load : list Z -> Z -> run (option Z) := fit_image_get_word FIT_LOAD_PROP.
Definition fit_image_get_entry : list Z -> Z -> run (option Z) := fit_image_get_word FIT_ENTRY_PROP.
(** Address and size. *)
Definition fit_image_get_data (fit : list Z) (noffset : Z) : run (option (Z * Z)) :=
  r ← fdt_getprop fuel fit noffset FIT_DATA_PROP;
  match r with (None, _) => Ret None | (Some data, len) => Ret (Some (data, len)) end.
Definition fit_image_hash_get_algo (fit : list Z) (noffset : Z) : run (option (list Z)) := fit_prop_string fit noffset FIT_ALGO_PROP.
Definition fit_image_hash_get_value (fit : list Z) (noffset : Z) : run (option (Z * Z)) :=
  r ← fdt_getprop fuel fit noffset FIT_VALUE_PROP;
  match r with (None, _) => Ret None | (Some value, len) => Ret (Some (value, len)) end.
(** [strncmp] with the name would be given NULL. *)
Definition fit_get_name (fit : list Z) (noffset : Z) : run (list Z) :=
  r ← fdt_get_name fit noffset;
  match r.1 with None => Undef | Some p => string_at p fit end.

Definition fit_set_timestamp (fit : list Z) (noffset timestamp : Z) : run (Z * list Z) :=
  r ← fdt_setprop fuel fit noffset FIT_TIMESTAMP_PROP (be_bytes 4 timestamp);
  let '(ret, fit) := r in Ret (if negb (ret =? 0) then -1 else 0, fit).
Definition fit_image_hash_set_value (fit : list Z) (noffset : Z) (value : list Z) : run (Z * list Z) :=
  r ← fdt_setprop fuel fit noffset FIT_VALUE_PROP value;
  let '(ret, fit) := r in Ret (if negb (ret =? 0) then -1 else 0, fit).

(** ** Hashes *)

(** [None]: the algorithm is not known. *)
Definition calculate_hash (fit : list Z) (data data_len : Z) (algo : list Z) : run (option (list Z)) :=
  let digest m := d ← rread data data_len fit; match m d with Some (Ok h) => Ret (Some h) | _ => Undef end in
  if streq algo (str "crc32") then digest (fun d => Some (Ok (host_bytes big 4 (cpu_to_be32 big (UbootCrc.crc32 big data 0 d)))))
  else if streq algo (str "sha1") then digest (fun d => sha1_csum_wd w false stack d (64 * 1024))
  else if streq algo (str "md5") then digest (fun d => md5_wd big false stack d (64 * 1024))
  else Ret None.

(** The loops
      for (ndepth = 0, noffset = fdt_next_node (fit, node, &ndepth);
           (noffset >= 0) && (ndepth > 0); noffset = fdt_next_node (fit, noffset, &ndepth))
        if (ndepth == 1) ...
    [body] goes on with its state or returns; the state holds the tree. *)
Fixpoint child_loop {St R : Type} (tree : St -> list Z) (body : Z -> St -> run (St + R)) (n : nat) (s : St) (noffset ndepth : Z) : run (St * Z + R) :=
  if (0 <=? noffset) && (0 <? ndepth) then
    r ← (if ndepth =? 1 then body noffset s else Ret (inl s));
    match r with
    | inr x => Ret (inr x)
    | inl s =>
        match n with
        | O => NoFuel
        | S n => q ← fdt_next_node fuel (tree s) noffset (Some ndepth); child_loop tree body n s q.1 (the_depth q.2)
        end
    end
  else Ret (inl (s, noffset)).
(** A loop that never returns from its middle. *)
Definition loop_end {A : Type} (r : A + Empty_set) : A := match r with inl a => a | inr e => match e with end end.
Definition for_children {St R : Type} (tree : St -> list Z) (body : Z -> St -> run (St + R)) (s : St) (node : Z) : run (St * Z + R) :=
  q ← fdt_next_node fuel (tree s) node (Some 0); child_loop tree body fuel s q.1 (the_depth q.2).

Definition set_hash (data size : Z) (noffset : Z) (fit : list Z) : run (list Z + Z * list Z) :=
  name ← fit_get_name fit noffset;
  if negb (has_prefix FIT_HASH_NODENAME name) then Ret (inl fit) else
  algo ← fit_image_hash_get_algo fit noffset;
  match algo with
  | None => Ret (inr (-1, fit))
  | Some algo =>
      value ← calculate_hash fit data size algo;
      match value with
      | None => Ret (inr (-1, fit))
      | Some value =>
          r ← fit_image_hash_set_value fit noffset value;
          if negb (r.1 =? 0) then Ret (inr (-1, r.2)) else Ret (inl r.2)
      end
  end.
Definition fit_image_set_hashes (fit : list Z) (image_noffset : Z) : run (Z * list Z) :=
  d ← fit_image_get_data fit image_noffset;
  match d with
  | None => Ret (-1, fit)
  | Some (data, size) =>
      r ← for_children (fun fit => fit) (set_hash data size) fit image_noffset;
      Ret (match r with inl (fit, _) => (0, fit) | inr e => e end)
  end.
Definition fit_set_hashes (fit : list Z) : run (Z * list Z) :=
  images_noffset ← fdt_path_offset fuel fit FIT_IMAGES_PATH;
  if images_noffset <? 0 then Ret (images_noffset, fit) else
  r ← for_children (fun fit => fit) (fun noffset fit =>
        r ← fit_image_set_hashes fit noffset;
        Ret (if negb (r.1 =? 0) then inr r else inl r.2)) fit images_noffset;
  Ret (match r with inl (fit, _) => (0, fit) | inr e => e end).

Definition check_hash (fit : list Z) (data size : Z) (noffset : Z) (_ : unit) : run (unit + bool) :=
  name ← fit_get_name fit noffset;
  if negb (has_prefix FIT_HASH_NODENAME name) then Ret (inl tt) else
  algo ← fit_image_hash_get_algo fit noffset;
  match algo with
  | None => Ret (inr false)
  | Some algo =>
      v ← fit_image_hash_get_value fit noffset;
      match v with
      | None => Ret (inr false)
      | Some (fit_value, fit_value_len) =>
          value ← calculate_hash fit data size algo;
          match value with
          | None => Ret (inr false)
          | Some value =>
              if negb (zlen value =? fit_value_len) then Ret (inr false) else
              eq ← memeq fit fit_value value;
              Ret (if (eq : bool) then inl tt else inr false)
          end
      end
  end.
Definition fit_image_check_hashes (fit : list Z) (image_noffset : Z) : run bool :=
  d ← fit_image_get_data fit image_noffset;
  match d with
  | None => Ret false
  | Some (data, size) =>
      r ← for_children (fun _ => fit) (check_hash fit data size) tt image_noffset;
      Ret (match r with inl _ => true | inr b => b end)
  end.
Definition fit_all_image_check_hashes (fit : list Z) : run bool :=
  images_noffset ← fdt_path_offset fuel fit FIT_IMAGES_PATH;
  if images_noffset <? 0 then Ret false else
  r ← for_children (fun _ => fit) (fun noffset (_ : unit) =>
        ok ← fit_image_check_hashes fit noffset;
        Ret (if (ok : bool) then inl tt else inr false)) tt images_noffset;
  Ret (match r with inl _ => true | inr b => b end).

(** ** Checks *)

Definition fit_image_check_id (get : list Z -> Z -> run (bool * Z)) (fit : list Z) (noffset id : Z) : run bool :=
  r ← get fit noffset; Ret (r.1 && (id =? r.2)).
Definition fit_image_check_os : list Z -> Z -> Z -> run bool := fit_image_check_id fit_image_get_os.
Definition fit_image_check_arch : list Z -> Z -> Z -> run bool := fit_image_check_id fit_image_get_arch.
Definition fit_image_check_type : list Z -> Z -> Z -> run bool := fit_image_check_id fit_image_get_type.
Definition fit_image_check_comp : list Z -> Z -> Z -> run bool := fit_image_check_id fit_image_get_comp.
Definition fit_check_format (fit : list Z) : run bool :=
  r ← fdt_getprop fuel fit 0 FIT_DESC_PROP;
  if bool_decide (r.1 = None) then Ret false else
  r ← fdt_getprop fuel fit 0 FIT_TIMESTAMP_PROP;
  if bool_decide (r.1 = None) then Ret false else
  o ← fdt_path_offset fuel fit FIT_IMAGES_PATH;
  Ret (negb (o <? 0)).

(** ** Configurations *)

Definition fit_conf_get_node (fit : list Z) (conf_uname : option (list Z)) : run Z :=
  confs_noffset ← fdt_path_offset fuel fit FIT_CONFS_PATH;
  if confs_noffset <? 0 then Ret confs_noffset else
  match conf_uname with
  | Some conf_uname => fdt_subnode_offset fuel fit confs_noffset conf_uname
  | None =>
      r ← fdt_getprop fuel fit confs_noffset FIT_DEFAULT_PROP;
      match r with
      | (None, len) => Ret len
      | (Some p, _) => conf_uname ← string_at p fit; fdt_subnode_offset fuel fit confs_noffset conf_uname
      end
  end.
Definition fit_conf_get_prop_node (prop_name : list Z) (fit : list Z) (noffset : Z) : run Z :=
  r ← fdt_getprop fuel fit noffset prop_name;
  match r with (None, len) => Ret len | (Some p, _) => uname ← string_at p fit; fit_image_get_node fit uname end.
Definition fit_conf_get_kernel_node : list Z -> Z -> run Z := fit_conf_get_prop_node FIT_KERNEL_PROP.
Definition fit_conf_get_ramdisk_node : list Z -> Z -> run Z := fit_conf_get_prop_node FIT_RAMDISK_PROP.
Definition fit_conf_get_fdt_node : list Z -> Z -> run Z := fit_conf_get_prop_node FIT_FDT_PROP.

(** ** The listing *)

Definition fit_image_print_hash (fit : list Z) (noffset : Z) : run (option hash_report) :=
  name ← fit_get_name fit noffset;
  if negb (has_prefix FIT_HASH_NODENAME name) then Ret None else
  algo ← fit_image_hash_get_algo fit noffset;
  match algo with
  | None => Ret (Some (HashReport None None))
  | Some algo =>
      v ← fit_image_hash_get_value fit noffset;
      match v with
      | None => Ret (Some (HashReport (Some algo) None))
      | Some (value, len) => d ← rread value (Z.max 0 len) fit; Ret (Some (HashReport (Some algo) (Some d)))
      end
  end.
Definition fit_image_print (fit : list Z) (image_noffset : Z) (name : list Z) : run image_report :=
  desc ← fit_get_desc fit image_noffset;
  type ← fit_image_get_type fit image_noffset;
  type_name ← lift (genimg_get_type_name type.2);
  comp ← fit_image_get_comp fit image_noffset;
  comp_name ← lift (genimg_get_comp_name comp.2);
  data ← fit_image_get_data fit image_noffset;
  let among ts := existsb (Z.eqb type.2) ts in
  arch ← (if among [2; 1; 3; 5; 8] then a ← fit_image_get_arch fit image_noffset; n ← lift (genimg_get_arch_name a.2); Ret (Some n) else Ret None);
  os ← (if among [2] then o ← fit_image_get_os fit image_noffset; n ← lift (genimg_get_os_name o.2); Ret (Some n) else Ret None);
  load ← (if among [2; 1; 5] then l ← fit_image_get_load fit image_noffset; Ret (Some l) else Ret None);
  entry ← (if among [2; 1] then e ← fit_image_get_entry fit image_noffset; Ret (Some e) else Ret None);
  r ← for_children (R := Empty_set) (fun _ => fit) (fun noffset hashes =>
        h ← fit_image_print_hash fit noffset;
        Ret (inl (match h with Some h => hashes ++ [h] | None => hashes end))) [] image_noffset;
  Ret (ImageReport name desc type_name comp_name (snd <$> data) arch os load entry (loop_end r).1).
Definition fit_conf_print (fit : list Z) (noffset : Z) (name : list Z) : run conf_report :=
  desc ← fit_get_desc fit noffset;
  kernel ← fit_prop_string fit noffset FIT_KERNEL_PROP;
  ramdisk ← fit_prop_string fit noffset FIT_RAMDISK_PROP;
  fdt ← fit_prop_string fit noffset FIT_FDT_PROP;
  Ret (ConfReport name desc kernel ramdisk fdt).
(** The default configuration is looked for where the loop over the images left [noffset]. *)
Definition fit_print_contents (fit : list Z) : run fit_report :=
  desc ← fit_get_desc fit 0;
  t ← fit_get_timestamp fit 0;
  let time := if t.1 =? 0 then Some t.2 else None in
  images_noffset ← fdt_path_offset fuel fit FIT_IMAGES_PATH;
  if images_noffset <? 0 then Ret (FitReport desc time None None []) else
  r ← for_children (R := Empty_set) (fun _ => fit) (fun noffset images =>
        name ← fit_get_name fit noffset; i ← fit_image_print fit noffset name; Ret (inl (images ++ [i]))) [] images_noffset;
  let '(images, noffset) := loop_end r in
  confs_noffset ← fdt_path_offset fuel fit FIT_CONFS_PATH;
  if confs_noffset <? 0 then Ret (FitReport desc time (Some images) None []) else
  default ← fit_prop_string fit noffset FIT_DEFAULT_PROP;
  r ← for_children (R := Empty_set) (fun _ => fit) (fun noffset confs =>
        name ← fit_get_name fit noffset; c ← fit_conf_print fit noffset name; Ret (inl (confs ++ [c]))) [] confs_noffset;
  let '(confs, _) := loop_end r in
  Ret (FitReport desc time (Some images) default confs).

(** ** tools/fit_image.c *)

Definition fit_verify_header (ptr : list Z) (image_size : Z) : run Z := fdt_check_header ptr.
Definition fit_check_image_types (type : Z) : Z := if type =? IH_TYPE_FLATDT then 0 else 1.
(** What the calls answer: system, the file dtc has written if it can be opened, fstat, mmap,
    the time of the file, rename. *)
Record fit_env := FitEnv { fe_system : bool; fe_open : option (list Z); fe_fstat : bool; fe_mmap : bool; fe_mtime : Z; fe_rename : bool }.
Definition MKIMAGE_TMPFILE_SUFFIX : list Z := str ".tmp".
Definition MKIMAGE_MAX_TMPFILE_LEN : Z := 256.
Definition MKIMAGE_MAX_DTC_CMDLINE_LEN : Z := 512.
Definition MKIMAGE_DTC : list Z := str "dtc".
(** What becomes of the image file: when the rename fails it is unlinked. *)
Inductive fit_file := FF_image (f : list Z) | FF_as_before | FF_removed.
(** The exit status and the image file; the temporary file is gone in every case.  Nothing bounds the length of the
    command in its buffer; the mapping ends with the page. *)
Definition fit_handle_file (E : fit_env) (dtc datafile imagefile : list Z) : run (Z * fit_file) :=
  if MKIMAGE_MAX_TMPFILE_LEN <? zlen imagefile + zlen MKIMAGE_TMPFILE_SUFFIX + 1 then Ret (1, FF_as_before) else
  let tmpfile := imagefile ++ MKIMAGE_TMPFILE_SUFFIX in
  let cmd := MKIMAGE_DTC ++ str " " ++ dtc ++ str " " ++ datafile ++ str " > " ++ tmpfile in
  if MKIMAGE_MAX_DTC_CMDLINE_LEN <=? zlen cmd then Undef else
  if negb (fe_system E) then Ret (1, FF_as_before) else
  match fe_open E with
  | None => Ret (1, FF_as_before)
  | Some file =>
      if negb (fe_fstat E) || negb (fe_mmap E) || (zlen file =? 0) then Ret (1, FF_as_before) else
      let ptr := file ++ zrep ((- zlen file) mod 4096) 0 in
      err ← fdt_check_header ptr;
      if negb (err =? 0) then Ret (1, FF_as_before) else
      r ← fit_set_hashes ptr;
      let '(err, ptr) := r in
      if negb (err =? 0) then Ret (1, FF_as_before) else
      r ← fit_set_timestamp ptr 0 (fe_mtime E);
      let '(err, ptr) := r in
      if negb (err =? 0) then Ret (1, FF_as_before) else
      if negb (fe_rename E) then Ret (1, FF_removed) else
      Ret (0, FF_image (ztake (zlen file) ptr))
  end.
(** [-f] of mkimage. *)
Definition fit_handler (E : fit_env) (dtc : list Z) (p : mkimage_params) : outcome (list Z) :=
  match datafile p with
  | None => UB
  | Some datafile =>
      match fit_handle_file E dtc datafile (imagefile p) with
      | Ret (status, image) => match image with FF_image f => Ok f | _ => Exit status end
      | _ => UB
      end
  end.
End Fit.
