(* ===== verification/FitSpec.v ===== *)
(** * What the hashes of FIT images are

    The tree as its user sees it ([view]) with the hashes put in ([hash_image]) and checked
    ([image_holds]).  [fit_set_hashes] and [fit_all_image_check_hashes] do that on the memory of any
    tree with the format of FdtTree.v, and what the one wrote the other accepts. *)

From S2P Require Import Prelude CLib Endian Crc32 UbootCrc UImageSpec Mkimage Hash Sha1 Md5 Fdt FdtTree FdtRw FdtEdit FdtView Fit.

(** ** The hashes of a view *)

Definition hash_of (algo data : list Z) : option (list Z) :=
  if streq algo (str "crc32") then Some (be_bytes 4 (Z.lxor (fold_left crc_byte data 0xffffffff) 0xffffffff))
  else if streq algo (str "sha1") then Some (Sha1.digest data)
  else if streq algo (str "md5") then Some (md5_digest data)
  else None.
Definition is_hash (v : view) : bool := has_prefix FIT_HASH_NODENAME (v_name v).
Definition hash_value (data : list Z) (v : view) : option (list Z) :=
  match prop_of FIT_ALGO_PROP (v_props v) with Some algo => hash_of (cstr algo) data | None => None end.

Definition hash_kid (data : list Z) (v : view) : option view :=
  if is_hash v then match hash_value data v with Some h => Some (set_view FIT_VALUE_PROP h v) | None => None end else Some v.
Fixpoint each {A B} (f : A -> option B) (l : list A) : option (list B) :=
  match l with
  | [] => Some []
  | a :: l => match f a, each f l with Some b, Some bs => Some (b :: bs) | _, _ => None end
  end.
Definition with_kids (v : view) (kids : list view) : view := View (v_name v) (v_props v) kids.
Definition hash_image (v : view) : option view :=
  match prop_of FIT_DATA_PROP (v_props v) with
  | Some data => match each (hash_kid data) (v_kids v) with Some kids => Some (with_kids v kids) | None => None end
  | None => None
  end.

Definition kid_holds (data : list Z) (v : view) : bool :=
  negb (is_hash v) ||
  match hash_value data v, prop_of FIT_VALUE_PROP (v_props v) with Some h, Some value => streq h value | _, _ => false end.
Definition image_holds (v : view) : bool :=
  match prop_of FIT_DATA_PROP (v_props v) with Some data => forallb (kid_holds data) (v_kids v) | None => false end.

Definition images_hold (v : view) : bool :=
  match split_kid (str "images") (v_kids v) with Some (_, images, _) => forallb image_holds (v_kids images) | None => false end.

(** The whole tree. *)
Definition hash_images (v : view) : option view :=
  match split_kid (str "images") (v_kids v) with
  | Some (a, images, b) =>
      match each hash_image (v_kids images) with Some ks => Some (with_kids v (a ++ with_kids images ks :: b)) | None => None end
  | None => None
  end.
Definition images_of (v : view) : list view := match split_kid (str "images") (v_kids v) with Some (_, images, _) => v_kids images | None => [] end.

(** What the reading needs: names of algorithms end, data is bytes. *)
Definition readable_kid (v : view) : Prop := forall algo, prop_of FIT_ALGO_PROP (v_props v) = Some algo -> existsb (Z.eqb 0) algo = true.
Definition readable_image (v : view) : Prop :=
  (forall data, prop_of FIT_DATA_PROP (v_props v) = Some data -> Forall is_byte data) /\ Forall readable_kid (v_kids v).
(** ** Digests *)

Section Digest.
Context (big : bool) (w : Z) (stack : list Z) (Hw : 32 <= w) (Hstack : zlen stack = 64).

Lemma zlen_hash_of algo data h : hash_of algo data = Some h -> zlen h <= 20.
Proof.
  unfold hash_of. repeat (destruct (streq _ _); [intros [= <-]|]); [by rewrite zlen_be_bytes | | |done].
  - unfold Sha1.digest. destruct (blocks compress h_init (padded data)).1 as [a b c d e]. rewrite !zlen_app, !zlen_be_bytes. lia.
  - unfold md5_digest. destruct (blocks md5_compress md5_init (md5_padded data)).1 as [a b c d]. rewrite !zlen_app. unfold zlen. rewrite !length_le_bytes. lia.
Qed.
Lemma calculate_hash_at fit a n data algo : rread a n fit = Ret data -> Forall is_byte data -> zlen data < 2 ^ 31 ->
  calculate_hash big w stack fit a n algo = Ret (hash_of algo data).
Proof.
  intros Hr Hb Hl. unfold calculate_hash, hash_of. rewrite Hr. rsimpl.
  destruct (streq algo (str "crc32")).
  - rewrite crc32_fold by (done || lia). change (Z.lxor 0 0xffffffff) with 0xffffffff. pose proof (crc32_range big 0 0 data Hb ltac:(lia)) as R.
    rewrite crc32_fold in R by (done || lia). change (Z.lxor 0 0xffffffff) with 0xffffffff in R. set (c := Z.lxor _ _) in *. pose proof (set_bytes big c) as E. rewrite u32_small in E by exact R. by rewrite E.
  - destruct (streq algo (str "sha1")); [by rewrite sha1_csum_wd_digest by (done || lia)|]. destruct (streq algo (str "md5")); [by rewrite md5_wd_digest by (done || lia) | done].
Qed.
End Digest.

(** ** Reading a node *)

Section Reading.
Context (p : parts) (F : fits_memory p) (fuel : nat) (Hfuel : zlen (pt_struct p) < 4 * Z.of_nat fuel).
Context (o : Z) (t : tree) (Hs : stands p o (flat t)) (Ho : aligned o) (Hg : good (pt_strings p) t).
Let v : view := view_of (pt_strings p) t.

Lemma name_view : fit_get_name (memory p) o = Ret (v_name v).
Proof.
  destruct (get_name_at p F fuel o t Hs Ho Hg) as [E1 E2]. unfold fit_get_name. rewrite E1. rsimpl. cbn [fst]. rewrite E2. unfold v. by destruct t.
Qed.
Lemma string_view name : (forall val, prop_of name (v_props v) = Some val -> existsb (Z.eqb 0) val = true) ->
  fit_prop_string fuel (memory p) o name = Ret (cstr <$> prop_of name (v_props v)).
Proof.
  fold v. intros H. unfold fit_prop_string. destruct (getprop_view p F fuel Hfuel o t Hs Ho Hg name) as [(val & a & b & E & _ & S & ->) | [E ->]]; fold v in E; rsimpl; cbn [fst]; [|by rewrite E].
  rewrite E. cbn [fmap option_fmap option_map]. specialize (H val E). pose proof (stands_range p F _ _ S) as R. pose proof (zlen_nonneg (pt_rsv p)).
  unfold string_at. rewrite (proj2 (Z.leb_le 0 _)) by (unfold off_struct; lia). cbn [andb].
  apply stands_memory in S as (x & y & Em & Hx). rewrite Em, <- Hx. replace (zdrop (zlen x) (x ++ val ++ y)) with (val ++ y) by (unfold zdrop, zlen; by rewrite Nat2Z.id, drop_app_length).
  destruct (cstr_app_in val y H) as [-> ->]. done.
Qed.
Lemma data_view :
  (exists data a b, prop_of FIT_DATA_PROP (v_props v) = Some data /\ front t = a ++ data ++ b /\ stands p (o + zlen a) data /\
     fit_image_get_data fuel (memory p) o = Ret (Some (off_struct p + (o + zlen a), zlen data))) \/
  (prop_of FIT_DATA_PROP (v_props v) = None /\ fit_image_get_data fuel (memory p) o = Ret None).
Proof.
  unfold fit_image_get_data. destruct (getprop_view p F fuel Hfuel o t Hs Ho Hg FIT_DATA_PROP) as [(val & a & b & E & E2 & S & ->) | [E ->]]; rsimpl; [left | by right]. by exists val, a, b.
Qed.
End Reading.

(** ** Loops over the children of a node *)

Section Children.
Context {St R : Type} (fuel : nat) (mem : St -> list Z) (body : Z -> St -> run (St + R)) (X Y : list Z) (M : Z).
Context (HX : aligned (zlen X)) (HM : M <= Z.of_nat fuel).
(** The children that are done and those to come, between [X] and [Y]. *)
Context (Inv : list tree -> list tree -> parts -> St -> Prop) (Post : (St * Z) + R -> Prop).
Context (Hframe : forall ds ks p s, Inv ds ks p s -> mem s = memory p /\ fits_memory p /\ zlen (memory p) = M /\
  pt_struct p = X ++ flats (ds ++ ks) ++ end_node ++ Y /\ Forall (good (pt_strings p)) (ds ++ ks)).
Context (Hstep : forall ds k ks p s, Inv ds (k :: ks) p s ->
  (exists x, body (zlen (X ++ flats ds)) s = Ret (inr x) /\ Post (inr x)) \/
  (exists s' p' k', body (zlen (X ++ flats ds)) s = Ret (inl s') /\ Inv (ds ++ [k']) ks p' s')).
Context (Hend : forall ds p s, Inv ds [] p s -> Post (inl (s, zlen (X ++ flats ds) + 4))).

Lemma deep_loop p s : mem s = memory p -> deep p fuel (fun n o d => child_loop fuel mem body n s o d) (fun d => 1 < d).
Proof.
  intros E o d Ho Hd n res Hn. cbn [child_loop]. rewrite (proj2 (Z.leb_le 0 o)), (proj2 (Z.ltb_lt 0 d)), (proj2 (Z.eqb_neq d 1)) by lia. cbn [andb]. rsimpl.
  rewrite E. unfold next_is in Hn. rewrite Hn. done.
Qed.
Lemma loop_out n s o : child_loop fuel mem body n s o (-1) = Ret (inl (s, o)).
Proof. destruct n; cbn [child_loop]; change (0 <? -1) with false; by rewrite andb_false_r. Qed.
Lemma cursor p ds ks : pt_struct p = X ++ flats (ds ++ ks) ++ end_node ++ Y -> Forall (good (pt_strings p)) (ds ++ ks) ->
  stands p (zlen (X ++ flats ds)) (flats ks ++ end_node) /\ aligned (zlen (X ++ flats ds)).
Proof.
  intros E G. apply Forall_app in G as [G _]. split.
  - exists (X ++ flats ds), Y. rewrite E, flats_app, <- !app_assoc. done.
  - rewrite zlen_app. apply aligned_add; [done | by eapply aligned_flats].
Qed.
Lemma loop_kids ks : forall ds k p s, Inv ds (k :: ks) p s ->
  exists r, Post r /\ forall n, M - zlen (X ++ flats ds) < 4 * Z.of_nat n -> child_loop fuel mem body n s (zlen (X ++ flats ds)) 1 = Ret r.
Proof.
  induction ks as [|k2 ks IH]; intros ds k p s Hi; pose proof (Hframe _ _ _ _ Hi) as (E & F & L & ES & G); pose proof (struct_memory p F) as LM;
    destruct (cursor p ds _ ES G) as [Hs _]; set (c := zlen (X ++ flats ds)) in *; pose proof (stands_range p F _ _ Hs) as Hr; rewrite zlen_app in Hr; change (zlen end_node) with 4 in Hr;
    rewrite flats_cons, zlen_app in Hr; pose proof (zlen_flat_pos k); [change (zlen (flats [])) with 0 in Hr|pose proof (zlen_nonneg (flats (k2 :: ks)))].
  all: destruct (Hstep _ _ _ _ _ Hi) as [(x & Eb & HP) | (s' & p' & k' & Eb & Hi')]; fold c in Eb.
  1, 3: exists (inr x); split; [done|]; intros [|n] Hn; [lia|]; cbn [child_loop]; rewrite (proj2 (Z.leb_le 0 c)) by lia; change (0 <? 1) with true; change (1 =? 1) with true; cbn [andb]; by rewrite Eb.
  all: assert (forall n r, goes_on p' fuel (fun n o d => child_loop fuel mem body n s' o d) M c 1 (Ret r) -> M - c < 4 * Z.of_nat n -> child_loop fuel mem body n s c 1 = Ret r) as Go.
  1, 3: intros [|n] r (res & Hn & HL) Hl; [lia|]; cbn [child_loop]; rewrite (proj2 (Z.leb_le 0 c)) by lia; change (0 <? 1) with true; change (1 =? 1) with true; cbn [andb];
    rewrite Eb; rsimpl; rewrite (proj1 (Hframe _ _ _ _ Hi')); unfold next_is in Hn; rewrite Hn; rsimpl; cbn [fst snd the_depth]; apply HL; lia.
  all: pose proof (Hframe _ _ _ _ Hi') as (E' & F' & L' & ES' & G'); pose proof (struct_memory p' F') as LM'; rewrite <- app_assoc in ES', G'; cbn [app] in ES', G';
    destruct (cursor p' ds _ ES' G') as [Hs' Ha']; fold c in Hs', Ha'; pose proof (proj1 (Forall_app _ _ _) G') as [_ Gk].
  - exists (inl (s', c + zlen (flat k') + 4)). split.
    + pose proof (Hend _ _ _ Hi') as HP. rewrite flats_app, app_assoc, zlen_app in HP. fold c in HP. rewrite flats_one in HP. exact HP.
    + intros n Hn. apply Go; [|done]. apply (kid_next p' F' (pt_strings p') fuel ltac:(lia) _ M ltac:(lia) k' []); [exact Hs' | exact Ha' | exact Gk | by apply deep_loop|].
      intros m. apply loop_out.
  - destruct (IH (ds ++ [k']) k2 p' s' Hi') as (r & HP & HL). exists r. split; [done|]. intros n Hn. apply Go; [|done].
    apply (kid_next p' F' (pt_strings p') fuel ltac:(lia) _ M ltac:(lia) k' (k2 :: ks)); [exact Hs' | exact Ha' | exact Gk | by apply deep_loop|].
    rewrite flats_app, app_assoc, zlen_app in HL. fold c in HL. rewrite flats_one in HL. exact HL.
Qed.

(** The loop from the node that has the children. *)
Lemma children_rule X0 name pad props ks p s : X = X0 ++ flat_head name pad ++ flat_props props -> aligned (zlen X0) -> nonul name -> padded4 (zlen name + 1) pad ->
  Forall (good_prop (pt_strings p)) props -> Inv [] ks p s -> exists r, Post r /\ for_children fuel mem body s (zlen X0) = Ret r.
Proof.
  intros EX H0 Hn Hp Hq Hi. pose proof (Hframe _ _ _ _ Hi) as (E & F & L & ES & G). pose proof (struct_memory p F) as LM. cbn [app] in ES, G.
  set (t := Node name pad props ks). assert (good (pt_strings p) t) as Gt by (by constructor).
  assert (stands p (zlen X0) (flat t)) as Hs.
  { exists X0, Y. split; [|done]. unfold t. cbn [flat]. fold (flats ks). rewrite ES, EX, <- !app_assoc. done. }
  assert (content (zlen X0) t = zlen X) as Ec by (rewrite EX, !zlen_app; unfold t; cbn [content]; lia).
  assert (forall r, goes_on p fuel (fun n o d => child_loop fuel mem body n s o d) M (zlen X0) 0 (Ret r) -> for_children fuel mem body s (zlen X0) = Ret r) as Go.
  { intros r (res & Hnx & HL). unfold for_children. rewrite E. unfold next_is in Hnx. rewrite Hnx. rsimpl. cbn [fst snd the_depth]. apply HL. pose proof (zlen_nonneg X0). lia. }
  destruct ks as [|k ks].
  - exists (inl (s, zlen X0 + zlen (flat t))). split.
    + pose proof (Hend _ _ _ Hi) as HP. replace (zlen X0 + zlen (flat t)) with (zlen (X ++ flats []) + 4); [done|]. rewrite zlen_app, EX. unfold t. cbn [flat]. rewrite !zlen_app.
      change (zlen end_node) with 4. unfold flats. cbn [map concat]. rewrite zlen_nil. lia.
    + apply Go. apply (kids_next p F (pt_strings p) fuel ltac:(lia) _ M t); [done | done | done|]. intros m. apply loop_out.
  - destruct (loop_kids ks [] k p s Hi) as (r & HP & HL). exists r. split; [done|]. apply Go.
    apply (kids_next p F (pt_strings p) fuel ltac:(lia) _ M t); [done | done | done|]. cbn [t t_kids]. rewrite Ec. unfold flats in HL. cbn [map concat] in HL. rewrite app_nil_r in HL. exact HL.
Qed.
End Children.

(** ** Checking *)

Lemma is_byte_range d p : stands p 0 d -> fits_memory p -> zlen d < 2 ^ 31.
Proof. intros H F. pose proof (stands_range p F _ _ H). lia. Qed.
Lemma images_path : FIT_IMAGES_PATH = path_of [str "images"].
Proof. done. Qed.
Lemma images_component : Forall component [str "images"].
Proof. repeat constructor; try done. Qed.

Lemma images_at p fuel root Y : fits_memory p -> zlen (memory p) <= Z.of_nat fuel -> pt_struct p = flat root ++ Y -> good (pt_strings p) root ->
  (exists a images b, t_kids root = a ++ images :: b /\
     split_kid (str "images") (v_kids (view_of (pt_strings p) root)) = Some (map (view_of (pt_strings p)) a, view_of (pt_strings p) images, map (view_of (pt_strings p)) b) /\
     fdt_path_offset fuel (memory p) FIT_IMAGES_PATH = Ret (zlen (front root ++ flats a)) /\
     pt_struct p = (front root ++ flats a) ++ flat images ++ flats b ++ end_node ++ Y /\ aligned (zlen (front root ++ flats a))) \/
  (split_kid (str "images") (v_kids (view_of (pt_strings p) root)) = None /\ fdt_path_offset fuel (memory p) FIT_IMAGES_PATH = Ret (- FDT_ERR_NOTFOUND)).
Proof.
  intros F Hfuel E Hg. pose proof (struct_memory p F) as LM. assert (stands p 0 (flat root)) as Hs by (by exists [], Y).
  rewrite images_path, (path_offset_at p F fuel ltac:(lia) root [str "images"]) by (done || apply images_component). cbn [resolve].
  destruct root as [name pad props kids]. pose proof Hg as (Hn & Hp & Hq & Hks)%good_inv. rewrite view_node. cbn [v_kids t_kids front content].
  pose proof (kid_named_split (pt_strings p) (str "images") kids (0 + zlen (flat_head name pad) + zlen (flat_props props))) as H.
  destruct (kid_named _ _ kids) as [[o k]|]; [left | by right]. destruct H as (a & b & -> & -> & Es). exists a, k, b. split; [done|]. split; [exact Es|]. split; [|split].
  - do 2 f_equal. rewrite !zlen_app. lia.
  - rewrite E. cbn [flat]. fold (flats (a ++ k :: b)). rewrite flats_app, flats_cons, <- !app_assoc. done.
  - apply Forall_app in Hks as [Ha _]. rewrite !zlen_app. repeat apply aligned_add; [by apply aligned_head | by eapply aligned_props | by eapply aligned_flats].
Qed.

Section Check.
Context (fuel : nat) (big : bool) (w : Z) (stack : list Z) (Hw : 32 <= w) (Hstack : zlen stack = 64).
Context (p : parts) (F : fits_memory p) (Hfuel : zlen (memory p) <= Z.of_nat fuel).
Let T := pt_strings p.

Lemma check_hash_at o k a n data : stands p o (flat k) -> aligned o -> good T k -> readable_kid (view_of T k) ->
  rread a n (memory p) = Ret data -> Forall is_byte data -> zlen data < 2 ^ 31 ->
  check_hash fuel big w stack (memory p) a n o tt = Ret (if kid_holds data (view_of T k) then inl tt else inr false).
Proof.
  intros Hs Ho Hg Hr Ed Hb Hl. pose proof (struct_memory p F). unfold check_hash, kid_holds, hash_value, is_hash.
  rewrite (name_view p F fuel o k) by done. rsimpl. fold T. destruct (has_prefix FIT_HASH_NODENAME _); [|done]. cbn [negb orb].
  unfold fit_image_hash_get_algo. rewrite (string_view p F fuel ltac:(lia) o k) by done. rsimpl. fold T.
  destruct (prop_of FIT_ALGO_PROP _) as [algo|]; [|done]. cbn [fmap option_fmap option_map].
  unfold fit_image_hash_get_value. destruct (getprop_view p F fuel ltac:(lia) o k Hs Ho Hg FIT_VALUE_PROP) as [(val & x & y & E & _ & S & ->) | [E ->]]; rsimpl; fold T in E; rewrite E; [|by destruct (hash_of _ _)].
  rewrite (calculate_hash_at big w stack Hw Hstack _ a n data) by done. rsimpl. destruct (hash_of (cstr algo) data) as [h|]; [|done].
  destruct (Z.eqb_spec (zlen h) (zlen val)) as [El | El]; cbn [negb].
  - unfold memeq. rewrite (rread_struct p _ val _ _ S) by done. rsimpl. assert (streq val h = streq h val) as -> by (by apply bool_decide_ext); done.
  - destruct (streq h val) eqn:Es; [|done]. apply streq_true in Es. congruence.
Qed.

(** A loop that looks at all children until one fails. *)
Lemma check_children (body : Z -> unit -> run (unit + bool)) (test : view -> bool) X0 t Y : pt_struct p = X0 ++ flat t ++ Y -> aligned (zlen X0) -> good T t ->
  (forall A k B, pt_struct p = A ++ flat k ++ B -> aligned (zlen A) -> good T k -> In k (t_kids t) -> body (zlen A) tt = Ret (if test (view_of T k) then inl tt else inr false)) ->
  (r ← for_children fuel (fun _ => memory p) body tt (zlen X0); Ret (match r with inl _ => true | inr b => b end)) = Ret (forallb test (v_kids (view_of T t))).
Proof.
  intros E Ho Hg Hb. destruct t as [name pad props kids]. rewrite view_node. cbn [v_kids t_kids] in *. pose proof Hg as (Hn & Hp & Hq & Hks)%good_inv.
  pose proof (aligned_head name pad Hp). pose proof (aligned_props T props Hq).
  destruct (children_rule fuel (fun _ : unit => memory p) body (X0 ++ flat_head name pad ++ flat_props props) Y (zlen (memory p)))
    with (Inv := fun ds ks p' (_ : unit) => p' = p /\ ds ++ ks = kids /\ forallb test (map (view_of T) ds) = true)
         (Post := fun r : unit * Z + bool => forallb test (map (view_of T) kids) = match r with inl _ => true | inr b => b end)
         (X0 := X0) (name := name) (pad := pad) (props := props) (ks := kids) (p := p) (s := tt) as (r & HP & ->); try done.
  - rewrite !zlen_app. by repeat apply aligned_add.
  - intros ds ks p' _ (-> & -> & _). split; [done|]. split; [done|]. split; [done|]. split; [|done]. rewrite E. cbn [flat]. by rewrite <- !app_assoc.
  - intros ds k ks p' [] (-> & Ek & Et). assert (pt_struct p = ((X0 ++ flat_head name pad ++ flat_props props) ++ flats ds) ++ flat k ++ flats ks ++ end_node ++ Y) as Ek'.
    { rewrite E. cbn [flat]. fold (flats kids). rewrite <- Ek, flats_app, flats_cons, <- !app_assoc. done. }
    rewrite <- Ek in Hks. pose proof (proj1 (Forall_app _ _ _) Hks) as [Hds [Hk _]%Forall_cons].
    rewrite (Hb _ k _ Ek'); [|rewrite !zlen_app; repeat apply aligned_add; try done; by eapply aligned_flats | done | rewrite <- Ek; apply in_elt].
    destruct (test (view_of T k)) eqn:Et'; [right | left].
    + exists tt, p, k. split; [done|]. split; [done|]. rewrite <- app_assoc. split; [done|]. rewrite map_app, forallb_app, Et. cbn. by rewrite Et'.
    + exists false. split; [done|]. rewrite <- Ek, map_app, forallb_app, Et. cbn. by rewrite Et'.
  - intros ds p' [] (-> & <- & Et). rewrite app_nil_r. done.
  - rsimpl. by rewrite HP.
Qed.
Lemma check_image_at X0 t Y : pt_struct p = X0 ++ flat t ++ Y -> aligned (zlen X0) -> good T t -> readable_image (view_of T t) ->
  fit_image_check_hashes fuel big w stack (memory p) (zlen X0) = Ret (image_holds (view_of T t)).
Proof.
  intros E Ho Hg [Hr Hk]. pose proof (struct_memory p F) as LM. pose proof (stands_in p X0 (flat t) Y E) as Hs. unfold fit_image_check_hashes, image_holds.
  destruct (data_view p F fuel ltac:(lia) (zlen X0) t Hs Ho Hg) as [(data & a & b & Ep & Ef & S & ->) | [Ep ->]]; rsimpl; fold T in Ep; rewrite Ep; [|done].
  pose proof (rread_struct p _ data _ _ S eq_refl eq_refl) as Ed. pose proof (stands_range p F _ _ S) as Rd. specialize (Hr data Ep). pose proof (zlen_nonneg X0). pose proof (zlen_nonneg a).
  apply (check_children _ (kid_holds data) X0 t Y E Ho Hg). intros A k B EA HA Gk Hin. apply check_hash_at; [by eapply stands_in | done | done | | done | done | lia].
  rewrite Forall_forall in Hk. apply Hk. destruct t as [name pad props kids]. rewrite view_node. cbn [v_kids t_kids] in *. apply list_elem_of_In, in_map, Hin.
Qed.

(** The checks of the whole tree. *)
Lemma check_images_at root Y : pt_struct p = flat root ++ Y -> good T root -> Forall readable_image (images_of (view_of T root)) ->
  fit_all_image_check_hashes fuel big w stack (memory p) = Ret (images_hold (view_of T root)).
Proof.
  intros E Hg Hr. pose proof (struct_memory p F) as LM. unfold fit_all_image_check_hashes, images_hold, images_of in *.
  destruct (images_at p fuel root Y F Hfuel E Hg) as [(a & images & b & Ek & Es & -> & E' & Ha) | [Es ->]]; rsimpl; fold T in Es; rewrite Es in *; [|done].
  rewrite (proj2 (Z.ltb_ge _ 0)) by apply zlen_nonneg. assert (good T images) as Gi.
  { destruct root as [? ? ? kids]. apply good_inv in Hg as (_ & _ & _ & Hk). cbn [t_kids] in Ek. rewrite Ek in Hk. apply Forall_app in Hk as [_ [Hk _]%Forall_cons]. done. }
  apply (check_children _ image_holds _ images _ E' Ha Gi). intros A k B EA HA Gk Hin. rewrite (check_image_at A k B) by (try done; rewrite Forall_forall in Hr; apply Hr;
    destruct images as [? ? ? ks]; rewrite view_node; cbn [v_kids t_kids] in *; apply list_elem_of_In, in_map, Hin). rsimpl. by destruct (image_holds _).
Qed.
End Check.

(** ** Setting *)

(** A step that changes the node between [X] and [Y] to one with the view [res], or gives up. *)
Definition changed (p : parts) (X Y : list Z) (r : run (list Z + Z * list Z)) (res : option view) (cost : Z) : Prop :=
  match res with
  | Some v => exists p' t' ext, r = Ret (inl (memory p')) /\ kept p p' cost /\ pt_strings p' = pt_strings p ++ ext /\
      pt_struct p' = X ++ flat t' ++ Y /\ good (pt_strings p') t' /\ view_of (pt_strings p') t' = v
  | None => exists p', r = Ret (inr (-1, memory p'))
  end.
Fixpoint sum_of (cost : view -> Z) (vs : list view) : Z := match vs with [] => 0 | v :: vs => cost v + sum_of cost vs end.
Lemma sum_of_app cost a b : sum_of cost (a ++ b) = sum_of cost a + sum_of cost b.
Proof. induction a as [|v a IH]; cbn [app sum_of]; lia. Qed.
Lemma sum_of_nonneg cost (Hcost : forall v, 0 <= cost v) vs : 0 <= sum_of cost vs.
Proof. induction vs as [|v vs IH]; cbn [sum_of]; [lia|]. specialize (Hcost v). lia. Qed.
Lemma each_app {A B} (f : A -> option B) l l' : each f (l ++ l') = match each f l, each f l' with Some a, Some b => Some (a ++ b) | _, _ => None end.
Proof.
  induction l as [|a l IH]; cbn [app each]; [by destruct (each f l')|]. rewrite IH. destruct (f a); [|done]. destruct (each f l); [|done]. by destruct (each f l').
Qed.
Lemma kept_none p cost : fits_memory p -> 0 <= cost -> kept p p cost.
Proof. intros F Hc. split; [done|]. split; [done|]. split; [lia | done]. Qed.

Section Change.
Context (fuel : nat) (p : parts) (F : fits_memory p) (Hfuel : zlen (memory p) <= Z.of_nat fuel).
Let T := pt_strings p.
Context (body : Z -> list Z -> run (list Z + Z * list Z)) (f : view -> option view) (cost : view -> Z) (ok : view -> Prop) (Hcost : forall v, 0 <= cost v).
Context (X0 Y : list Z) (t : tree) (E : pt_struct p = X0 ++ flat t ++ Y) (Ho : aligned (zlen X0)) (Hg : good T t).
Context (Hbody : forall p1 A R k B, fits_memory p1 -> zlen (memory p1) = zlen (memory p) -> pt_rsv p1 = pt_rsv p -> A = X0 ++ front t ++ R -> pt_struct p1 = A ++ flat k ++ B ->
  aligned (zlen A) -> good (pt_strings p1) k -> ok (view_of (pt_strings p1) k) -> data_end p1 + cost (view_of (pt_strings p1) k) <= pt_totalsize p1 ->
  changed p1 A B (body (zlen A) (memory p1)) (f (view_of (pt_strings p1) k)) (cost (view_of (pt_strings p1) k))).

Lemma change_children : Forall ok (v_kids (view_of T t)) -> data_end p + sum_of cost (v_kids (view_of T t)) <= pt_totalsize p ->
  changed p X0 Y (r ← for_children fuel (fun fit => fit) body (memory p) (zlen X0); Ret (match r with inl (fit, _) => inl fit | inr e => inr e end))
    (match each f (v_kids (view_of T t)) with Some kids => Some (with_kids (view_of T t) kids) | None => None end) (sum_of cost (v_kids (view_of T t))).
Proof.
  destruct t as [name pad props kids]. rewrite view_node. cbn [v_kids with_kids v_name v_props front] in *. intros Hok Hroom. pose proof Hg as (Hn & Hp & Hq & Hks)%good_inv.
  pose proof (aligned_head name pad Hp). pose proof (aligned_props T props Hq).
  set (X := X0 ++ flat_head name pad ++ flat_props props) in *.
  destruct (children_rule fuel (fun fit : list Z => fit) body X Y (zlen (memory p)))
    with (Inv := fun ds ks p1 s => s = memory p1 /\ exists ds0 ext, kids = ds0 ++ ks /\ kept p p1 (sum_of cost (map (view_of T) ds0)) /\ pt_strings p1 = T ++ ext /\
                   pt_struct p1 = X ++ flats (ds ++ ks) ++ end_node ++ Y /\ Forall (good (T ++ ext)) (ds ++ ks) /\ each f (map (view_of T) ds0) = Some (map (view_of (T ++ ext)) ds))
         (Post := fun r : list Z * Z + Z * list Z => changed p X0 Y (Ret (match r with inl (fit, _) => inl fit | inr e => inr e end))
                   (match each f (map (view_of T) kids) with Some kids => Some (View name (view_props T props) kids) | None => None end) (sum_of cost (map (view_of T) kids)))
         (X0 := X0) (name := name) (pad := pad) (props := props) (ks := kids) (p := p) (s := memory p) as (r & HP & ->); try done.
  - unfold X. rewrite !zlen_app. by repeat apply aligned_add.
  - intros ds ks p1 s (-> & ds0 & ext & _ & (F1 & L1 & _) & ET & ES & G & _). rewrite ET. done.
  - intros ds k ks p1 s (-> & ds0 & ext & Ek & K & ET & ES & G & Ev). pose proof K as (F1 & L1 & D1 & Ht1 & Hr1).
    assert (Forall (good T) (k :: ks)) as [Gk Gks]%Forall_cons by (rewrite Ek in Hks; by apply Forall_app in Hks as [_ ?]).
    pose proof (good_ext T ext k Gk) as [Gk' Evk]. rewrite <- ET in Gk', Evk. pose proof (proj1 (Forall_app _ _ _) G) as [Gds _].
    assert (pt_struct p1 = (X ++ flats ds) ++ flat k ++ flats ks ++ end_node ++ Y) as ES' by (rewrite ES, flats_app, flats_cons, <- !app_assoc; done).
    assert (aligned (zlen (X ++ flats ds))) as HA by (unfold X; rewrite !zlen_app; repeat apply aligned_add; try done; by eapply aligned_flats).
    rewrite Ek, map_app, sum_of_app in Hroom. cbn [map sum_of] in Hroom. pose proof (sum_of_nonneg cost Hcost (map (view_of T) ks)).
    rewrite Ek, map_app in Hok. apply Forall_app in Hok as [_ [Hokk _]%Forall_cons].
    pose proof (Hbody p1 (X ++ flats ds) (flats ds) k _ F1 L1 Hr1 ltac:(unfold X; by rewrite <- !app_assoc) ES' HA Gk') as C. rewrite Evk in C. specialize (C Hokk ltac:(lia)). unfold changed in C.
    destruct (f (view_of T k)) as [v'|] eqn:Ef; [right | left].
    + destruct C as (p2 & k' & ext2 & -> & K2 & ET2 & ES2 & G2 & Ev2). exists (memory p2), p2, k'. split; [done|]. split; [done|]. rewrite ET, <- app_assoc in ET2.
      exists (ds0 ++ [k]), (ext ++ ext2). rewrite <- app_assoc. split; [done|]. rewrite map_app, sum_of_app. cbn [map sum_of]. rewrite Z.add_0_r. split; [by eapply kept_steps|]. split; [done|].
      pose proof (goods_ext (T ++ ext) ext2 ds Gds) as [Gds2 Evds]. rewrite <- app_assoc in Gds2, Evds. rewrite ET2 in G2, Ev2. split; [|split].
      * rewrite ES2, <- !app_assoc. rewrite flats_app. cbn [app]. by rewrite flats_cons, <- !app_assoc.
      * apply Forall_app. split; [apply Forall_app; split; [done | by constructor]|]. by apply goods_ext.
      * rewrite each_app, Ev. cbn [each]. rewrite Ef, map_app. cbn [map]. by rewrite Ev2, Evds.
    + destruct C as (p2 & ->). exists (-1, memory p2). split; [done|]. rewrite Ek, map_app, each_app, Ev. cbn [map each]. rewrite Ef. by exists p2.
  - intros ds p1 s (-> & ds0 & ext & -> & K & ET & ES & G & Ev). rewrite !app_nil_r in *. rewrite Ev. exists p1, (Node name pad props ds), ext. split; [done|]. split; [done|]. split; [done|].
    pose proof (view_props_ext T ext props Hq) as [Hq' Evp]. rewrite ET. split; [|split].
    + rewrite ES. unfold X. cbn [flat]. fold (flats ds). by rewrite <- !app_assoc.
    + by constructor.
    + rewrite view_node. by rewrite Evp.
  - split; [done|]. exists [], []. cbn [app map sum_of each]. rewrite app_nil_r. split; [done|]. split; [by apply kept_none|]. split; [done|]. split; [|done].
    rewrite E. unfold X. cbn [flat]. fold (flats kids). by rewrite <- !app_assoc.
Qed.
End Change.

Section Set_.
Context (fuel : nat) (big : bool) (w : Z) (stack : list Z) (Hw : 32 <= w) (Hstack : zlen stack = 64).

Definition kid_room (v : view) : Z := if is_hash v then 42 else 0.
Definition image_room (v : view) : Z := sum_of kid_room (v_kids v).
Lemma kid_room_nonneg v : 0 <= kid_room v.
Proof. unfold kid_room. by destruct (is_hash v). Qed.
Lemma image_room_nonneg v : 0 <= image_room v.
Proof. apply (sum_of_nonneg kid_room kid_room_nonneg). Qed.
Lemma changed_keep p X k Y cost : fits_memory p -> pt_struct p = X ++ flat k ++ Y -> good (pt_strings p) k -> 0 <= cost ->
  changed p X Y (Ret (inl (memory p))) (Some (view_of (pt_strings p) k)) cost.
Proof. intros F E G Hc. exists p, k, []. split; [done|]. split; [by apply kept_none|]. rewrite app_nil_r. done. Qed.

(** The loop's end as the functions return it. *)
Definition fit_result (r : list Z * Z + Z * list Z) : Z * list Z := match r with inl (fit, _) => (0, fit) | inr e => e end.
Lemma changed_result p X Y m res cost : changed p X Y (r ← m; Ret (match r with inl (fit, _) => inl fit | inr e => inr e end)) res cost ->
  changed p X Y (r ← (r ← m; Ret (fit_result r)); Ret (if negb (r.1 =? 0) then inr r else inl r.2)) res cost.
Proof.
  unfold changed. destruct m as [[[fit n] | e]| |]; rsimpl; cbn [fit_result fst snd]; destruct res as [v|]; try done.
  - intros (p' & t' & ext & H & _). discriminate.
  - intros (p' & [= ->]). by exists p'.
Qed.
Lemma set_hash_at p A k B a n data : fits_memory p -> zlen (memory p) <= Z.of_nat fuel -> pt_struct p = A ++ flat k ++ B -> aligned (zlen A) -> good (pt_strings p) k ->
  readable_kid (view_of (pt_strings p) k) -> rread a n (memory p) = Ret data -> Forall is_byte data -> zlen data < 2 ^ 31 ->
  data_end p + kid_room (view_of (pt_strings p) k) <= pt_totalsize p ->
  changed p A B (set_hash fuel big w stack a n (zlen A) (memory p)) (hash_kid data (view_of (pt_strings p) k)) (kid_room (view_of (pt_strings p) k)).
Proof.
  intros F Hf E HA Gk Hr Ed Hb Hl Hroom. pose proof (struct_memory p F) as LM. pose proof (stands_in p A (flat k) B E) as Hs. unfold set_hash, hash_kid, kid_room, hash_value, is_hash in *.
  rewrite (name_view p F fuel (zlen A) k) by done. rsimpl. destruct (has_prefix FIT_HASH_NODENAME _) eqn:Eh; cbn [negb]; [|by apply changed_keep].
  unfold fit_image_hash_get_algo. rewrite (string_view p F fuel ltac:(lia) (zlen A) k) by done. rsimpl.
  destruct (prop_of FIT_ALGO_PROP _) as [algo|]; cbn [fmap option_fmap option_map]; [|by exists p].
  rewrite (calculate_hash_at big w stack Hw Hstack _ a n data) by done. rsimpl. destruct (hash_of (cstr algo) data) as [h|] eqn:Eo; [|by exists p].
  pose proof (zlen_hash_of _ _ _ Eo) as Lh. unfold fit_image_hash_set_value.
  destruct (setprop_at fuel p A k B FIT_VALUE_PROP h F E HA Gk) as (err & p' & -> & K & Hcase); [by repeat constructor | lia | done|]. change (zlen FIT_VALUE_PROP) with 5 in *.
  destruct Hcase as [[-> (ext & k' & T1 & T2 & T3 & T4 & T5 & T6)] | (_ & Hno & _)]; [|lia].
  rsimpl. cbn [negb Z.eqb fst snd]. destruct K as (K1 & K2 & K3 & K4). exists p', k', ext. split; [done|]. split; [split; [done|]; split; [done|]; split; [lia | done]|]. done.
Qed.

Lemma set_image_at p A t B : fits_memory p -> zlen (memory p) <= Z.of_nat fuel -> pt_struct p = A ++ flat t ++ B -> aligned (zlen A) -> good (pt_strings p) t ->
  readable_image (view_of (pt_strings p) t) -> data_end p + image_room (view_of (pt_strings p) t) <= pt_totalsize p ->
  changed p A B (r ← fit_image_set_hashes fuel big w stack (memory p) (zlen A); Ret (if negb (r.1 =? 0) then inr r else inl r.2))
    (hash_image (view_of (pt_strings p) t)) (image_room (view_of (pt_strings p) t)).
Proof.
  intros F Hf E HA Gt [Hb Hk] Hroom. pose proof (struct_memory p F) as LM. pose proof (stands_in p A (flat t) B E) as Hs. unfold fit_image_set_hashes, hash_image.
  destruct (data_view p F fuel ltac:(lia) (zlen A) t Hs HA Gt) as [(data & a & b & Ep & Ef & S & ->) | [Ep ->]]; rsimpl; rewrite Ep; [|by exists p].
  pose proof (stands_range p F _ _ S) as Rd. specialize (Hb data Ep). pose proof (zlen_nonneg A). pose proof (zlen_nonneg a).
  apply changed_result. refine (change_children fuel p F Hf (set_hash fuel big w stack (off_struct p + (zlen A + zlen a)) (zlen data)) (hash_kid data) kid_room readable_kid kid_room_nonneg A B t E HA Gt _ Hk Hroom).
  intros p1 A1 R k B1 F1 L1 Hr1 EA E1 HA1 G1 Hok Hroom1. apply set_hash_at; try done; [by rewrite L1 | | lia].
  rewrite Ef, <- app_assoc, app_assoc in EA. apply (rread_struct p1 (zlen (A ++ a))).
  - exists (A ++ a), (b ++ R ++ flat k ++ B1). split; [|done]. rewrite E1, EA, <- !app_assoc. done.
  - unfold off_struct. rewrite Hr1, zlen_app. done.
  - done.
Qed.

(** [fit_set_hashes] puts the hashes in, or says that it cannot. *)
Lemma set_images_at p root Y : fits_memory p -> zlen (memory p) <= Z.of_nat fuel -> pt_struct p = flat root ++ Y -> good (pt_strings p) root ->
  Forall readable_image (images_of (view_of (pt_strings p) root)) -> data_end p + sum_of image_room (images_of (view_of (pt_strings p) root)) <= pt_totalsize p ->
  exists p', match hash_images (view_of (pt_strings p) root) with
  | Some v => fit_set_hashes fuel big w stack (memory p) = Ret (0, memory p') /\ kept p p' (sum_of image_room (images_of (view_of (pt_strings p) root))) /\
      exists root', pt_struct p' = flat root' ++ Y /\ good (pt_strings p') root' /\ view_of (pt_strings p') root' = v
  | None => fit_set_hashes fuel big w stack (memory p) = Ret (-1, memory p')
  end.
Proof.
  intros F Hf E Hg Hr Hroom. unfold fit_set_hashes, hash_images, images_of in *.
  destruct (images_at p fuel root Y F Hf E Hg) as [(a & images & b & Ek & Es & -> & E' & Ha) | [Es ->]]; rsimpl; rewrite Es in *; [|by exists p].
  rewrite (proj2 (Z.ltb_ge _ 0)) by apply zlen_nonneg. destruct root as [name pad props kids]. cbn [t_kids] in Ek. subst kids. pose proof Hg as (Hn & Hp & Hq & [Gas [Gi Gb]%Forall_cons]%Forall_app)%good_inv.
  pose proof (change_children fuel p F Hf (fun noffset fit => r ← fit_image_set_hashes fuel big w stack fit noffset; Ret (if negb (r.1 =? 0) then inr r else inl r.2))
    hash_image image_room readable_image image_room_nonneg _ _ images E' Ha Gi) as C.
  specialize (C ltac:(intros p1 A R k B F1 L1 _ _ E1 HA1 G1 Hok Hroom1; apply set_image_at; try done; by rewrite L1) Hr Hroom). unfold changed in C.
  destruct (for_children _ _ _ _ _) as [[[fit n] | e]| |]; revert C; rsimpl; destruct (each hash_image _) as [ks|]; intros C;
    try (destruct C as (p' & [=])); try (destruct C as (p' & t' & ext & [=] & K & ET & ES & G & Ev)); subst; [|by exists p'].
  exists p'. split; [done|]. split; [done|].
  destruct (goods_ext _ ext a Gas) as [Gas' Eas]. destruct (goods_ext _ ext b Gb) as [Gb' Eb]. destruct (view_props_ext _ ext props Hq) as [Hq' Eq].
  exists (Node name pad props (a ++ t' :: b)). rewrite ET in *. split; [|split].
  - rewrite ES. cbn [front flat]. fold (flats (a ++ t' :: b)). by rewrite flats_app, flats_cons, <- !app_assoc.
  - constructor; [done | done | done|]. apply Forall_app. split; [done|]. by constructor.
  - rewrite !view_node, Eq, map_app. cbn [map]. by rewrite Eas, Eb, Ev.
Qed.
End Set_.

(** ** What is set holds *)

Lemma hash_kid_holds data v v' : hash_kid data v = Some v' -> kid_holds data v' = true /\ (readable_kid v -> readable_kid v').
Proof.
  unfold hash_kid, kid_holds, hash_value, readable_kid. destruct (is_hash v) eqn:Eh; [|intros [= <-]; by rewrite Eh]. destruct v as [name props kids]. cbn [v_props].
  destruct (prop_of FIT_ALGO_PROP props) as [algo|] eqn:Ea; [|done]. destruct (hash_of (cstr algo) data) as [h|] eqn:Eo; [|done]. intros [= <-]. cbn [set_view v_props].
  rewrite !prop_of_set. change (streq FIT_VALUE_PROP FIT_ALGO_PROP) with false. change (streq FIT_VALUE_PROP FIT_VALUE_PROP) with true. cbv iota. rewrite Ea, Eo. split; [|done].
  rewrite (proj2 (streq_true h h) eq_refl). by rewrite orb_true_r.
Qed.
Lemma each_forall {A B} (f : A -> option B) (P : A -> Prop) (Q : B -> Prop) l l' : (forall a b, f a = Some b -> P a -> Q b) -> each f l = Some l' -> Forall P l -> Forall Q l'.
Proof.
  intros H. revert l'. induction l as [|a l IH]; intros l'; cbn [each]; [intros [= <-]; done|]. destruct (f a) as [b|] eqn:Ef; [|done]. destruct (each f l) as [bs|]; [|done].
  intros [= <-] [Pa Pl]%Forall_cons. constructor; [by eapply H | by apply IH].
Qed.
Lemma forallb_Forall' {A} (f : A -> bool) l : Forall (fun a => f a = true) l -> forallb f l = true.
Proof. induction 1 as [|a l Ha _ IH]; cbn [forallb]; [done|]. by rewrite Ha. Qed.
Lemma all_true {A} (l : list A) : Forall (fun _ => True) l.
Proof. by apply Forall_true. Qed.
Lemma hash_image_holds v v' : hash_image v = Some v' -> image_holds v' = true /\ (readable_image v -> readable_image v').
Proof.
  unfold hash_image, image_holds, readable_image. destruct v as [name props kids]. cbn [v_props v_kids]. destruct (prop_of FIT_DATA_PROP props) as [data|] eqn:Ed; [|done].
  destruct (each (hash_kid data) kids) as [ks|] eqn:Ee; [|done]. intros [= <-]. cbn [with_kids v_props v_kids v_name]. rewrite Ed. split.
  - apply forallb_Forall'. refine (each_forall _ (fun _ => True) _ _ _ _ Ee (all_true _)). intros a b Hk _. by eapply hash_kid_holds.
  - intros [Hb Hk]. split; [done|]. refine (each_forall _ readable_kid _ _ _ _ Ee Hk). intros a b Hab. by eapply hash_kid_holds.
Qed.
Lemma split_kid_same s ks : forall a v b v', split_kid s ks = Some (a, v, b) -> v_name v' = v_name v -> split_kid s (a ++ v' :: b) = Some (a, v', b).
Proof.
  induction ks as [|k ks IH]; intros a v b v'; cbn [split_kid]; [done|]. destruct (node_matches (v_name k) s) eqn:Em.
  - intros [= <- <- <-] En. cbn [app split_kid]. by rewrite En, Em.
  - destruct (split_kid s ks) as [[[a1 v1] b1]|] eqn:Es; [|done]. intros [= <- <- <-] En. cbn [app split_kid]. rewrite Em. by rewrite (IH _ _ _ v' eq_refl En).
Qed.
Lemma hash_images_hold v v' : hash_images v = Some v' -> images_hold v' = true /\ (Forall readable_image (images_of v) -> Forall readable_image (images_of v')).
Proof.
  unfold hash_images, images_hold, images_of. destruct v as [name props kids]. cbn [v_kids]. destruct (split_kid _ kids) as [[[a images] b]|] eqn:Es; [|done].
  destruct (each hash_image (v_kids images)) as [ks|] eqn:Ee; [|done]. intros [= <-]. cbn [with_kids v_kids]. rewrite (split_kid_same _ _ _ _ _ (with_kids images ks) Es) by done. cbn [with_kids v_kids]. split.
  - apply forallb_Forall'. refine (each_forall _ (fun _ => True) _ _ _ _ Ee (all_true _)). intros x y Hk _. by eapply hash_image_holds.
  - intros Hr. refine (each_forall _ readable_image _ _ _ _ Ee Hr). intros x y Hxy. by eapply hash_image_holds.
Qed.

(** ** The file *)

(** The memory up to an end behind the tree. *)
Definition cut (p : parts) (n : Z) : parts :=
  Parts (pt_totalsize p) (pt_off_rsv p) (pt_last_comp p) (pt_cpuid p) (pt_rsv p) (pt_struct p) (pt_gap p) (pt_strings p) (ztake (n - data_end p) (pt_room p)).
Lemma ztake_app_ge {A} n (a b : list A) : zlen a <= n -> ztake n (a ++ b) = a ++ ztake (n - zlen a) b.
Proof. unfold ztake, zlen. intros H. rewrite take_app, take_ge by lia. do 2 f_equal. lia. Qed.
Lemma cut_memory p n : fits_memory p -> pt_totalsize p <= n <= zlen (memory p) -> memory (cut p n) = ztake n (memory p) /\ fits_memory (cut p n) /\ zlen (memory (cut p n)) = n.
Proof.
  intros F Hn. pose proof (fm_total p F) as Ht. pose proof (zlen_memory p) as Lm. assert (zlen (pt_room (cut p n)) = n - data_end p) as Lr by (cbn [cut pt_room]; rewrite zlen_take; lia).
  assert (zlen (memory (cut p n)) = n) as L by (rewrite zlen_memory, Lr; change (data_end (cut p n)) with (data_end p); lia). split; [|split; [|done]].
  - unfold memory. change (head (cut p n)) with (head p). cbn [cut pt_rsv pt_struct pt_gap pt_strings pt_room].
    set (a := concat (map (be_bytes 4) (head p))). replace (a ++ pt_rsv p ++ pt_struct p ++ pt_gap p ++ pt_strings p ++ pt_room p) with ((a ++ pt_rsv p ++ pt_struct p ++ pt_gap p ++ pt_strings p) ++ pt_room p) by (by rewrite <- !app_assoc).
    assert (zlen (a ++ pt_rsv p ++ pt_struct p ++ pt_gap p ++ pt_strings p) = data_end p) as La by (unfold data_end, off_strings, off_struct; rewrite !zlen_app; unfold a; rewrite zlen_head; change (zlen (head p)) with 10; lia).
    by rewrite ztake_app_ge, La, <- !app_assoc by lia.
  - destruct F as [F1 F2 F3 F4 F5]. split; [rewrite L; lia | rewrite L; exact (conj (proj1 F2) (proj1 Hn)) | exact F3 | exact F4 | exact F5].
Qed.
Lemma set_view_images name val v : images_hold (set_view name val v) = images_hold v /\ images_of (set_view name val v) = images_of v.
Proof. by destruct v. Qed.

(** ** Properties *)

(** C28: on a FIT image in memory whose data is bytes and whose algorithms are strings, the check of all images accepts exactly when the tree has images, every one has data, and every node of it whose name begins with hash has the value that its algorithm, which is CRC-32, SHA-1 or MD5, gives for the data. *)
Theorem fit_check_exact fuel big w stack p root Y : 32 <= w -> zlen stack = 64 -> fits_memory p -> zlen (memory p) <= Z.of_nat fuel ->
  pt_struct p = flat root ++ Y -> good (pt_strings p) root -> Forall readable_image (images_of (view_of (pt_strings p) root)) ->
  fit_all_image_check_hashes fuel big w stack (memory p) = Ret (images_hold (view_of (pt_strings p) root)).
Proof. intros. by apply check_images_at with (Y := Y). Qed.
Lemma sample_readable : Forall readable_image (images_of (view_of (pt_strings sample_parts) sample)).
Proof.
  assert (images_of (view_of (pt_strings sample_parts) sample) = [view_of (pt_strings sample_parts) sample_image]) as -> by by vm_compute.
  constructor; [|done]. split.
  - intros data. assert (prop_of FIT_DATA_PROP (v_props (view_of (pt_strings sample_parts) sample_image)) = Some [1; 2; 3]) as -> by by vm_compute. intros [= <-]. repeat constructor; unfold is_byte; lia.
  - assert (v_kids (view_of (pt_strings sample_parts) sample_image) = [view_of (pt_strings sample_parts) sample_hash]) as -> by by vm_compute.
    constructor; [|done]. intros algo. assert (prop_of FIT_ALGO_PROP (v_props (view_of (pt_strings sample_parts) sample_hash)) = Some (str "crc32" ++ [0])) as -> by by vm_compute. intros [= <-]. done.
Qed.
Lemma fit_check_exact_witness : fit_all_image_check_hashes 400 false 64 (zrep 64 7) (memory sample_parts) = Ret false.
Proof.
  refine (eq_trans (fit_check_exact 400 false 64 (zrep 64 7) sample_parts sample (be_bytes 4 FDT_END) _ _ sample_fits _ eq_refl sample_good sample_readable) _); by vm_compute.
Defined.

(** C27: [fit_set_hashes] on a FIT image in memory with room for the hashes, whose data is bytes and whose algorithms are strings, puts the hash of the data into every hash node of every image and changes nothing else of the tree, and the check then accepts the image; when an image has no data or a hash node no known algorithm, or the tree has no images, it says so. *)
Theorem fit_set_hashes_check fuel big w stack p root Y : 32 <= w -> zlen stack = 64 -> fits_memory p -> zlen (memory p) <= Z.of_nat fuel ->
  pt_struct p = flat root ++ Y -> good (pt_strings p) root -> Forall readable_image (images_of (view_of (pt_strings p) root)) ->
  data_end p + sum_of image_room (images_of (view_of (pt_strings p) root)) <= pt_totalsize p ->
  exists p', match hash_images (view_of (pt_strings p) root) with
  | Some v => fit_set_hashes fuel big w stack (memory p) = Ret (0, memory p') /\
      (exists root', pt_struct p' = flat root' ++ Y /\ good (pt_strings p') root' /\ view_of (pt_strings p') root' = v) /\
      fit_all_image_check_hashes fuel big w stack (memory p') = Ret true
  | None => fit_set_hashes fuel big w stack (memory p) = Ret (-1, memory p')
  end.
Proof.
  intros Hw Hst F Hf E Hg Hr Hroom. destruct (set_images_at fuel big w stack Hw Hst p root Y F Hf E Hg Hr Hroom) as (p' & H). exists p'.
  destruct (hash_images _) as [v|] eqn:Eh; [|done]. destruct H as (Es & (F' & L' & _) & root' & E' & G' & Ev). split; [done|]. split; [by exists root'|].
  destruct (hash_images_hold _ _ Eh) as [Hh Hr']. rewrite (check_images_at fuel big w stack Hw Hst p' F' ltac:(lia) root' Y E' G') by (rewrite Ev; by apply Hr'). by rewrite Ev, Hh.
Qed.
Lemma fit_set_hashes_check_witness :
  exists p', fit_set_hashes 400 false 64 (zrep 64 7) (memory sample_parts) = Ret (0, memory p') /\ fit_all_image_check_hashes 400 false 64 (zrep 64 7) (memory p') = Ret true.
Proof.
  destruct (fit_set_hashes_check 400 false 64 (zrep 64 7) sample_parts sample (be_bytes 4 FDT_END)) as (p' & H); [lia | done | exact sample_fits | by vm_compute | done | exact sample_good | exact sample_readable | by vm_compute|].
  exists p'. assert (exists v, hash_images (view_of (pt_strings sample_parts) sample) = Some v) as [v Ev] by (eexists; vm_compute; reflexivity).
  rewrite Ev in H. destruct H as (H1 & _ & H2). split; [exact H1 | exact H2].
Defined.

(** C26: when the calls succeed and dtc has written a file that holds a tree with room for the hashes and the time, [mkimage -f] leaves an image file of the same length in which every hash node has the hash of its image's data, so that the check accepts it, and the time of the file is found at the root. *)
Theorem fit_handle_file_checks fuel big w stack E dtc datafile imagefile file p root Y v : 32 <= w -> zlen stack = 64 ->
  fe_system E = true -> fe_open E = Some file -> fe_fstat E = true -> fe_mmap E = true -> fe_rename E = true ->
  zlen imagefile + 5 <= 256 -> zlen dtc + zlen datafile + zlen imagefile + 12 < 512 ->
  fits_memory p -> zlen (memory p) <= Z.of_nat fuel -> memory p = file ++ zrep ((- zlen file) mod 4096) 0 -> pt_totalsize p <= zlen file ->
  pt_struct p = flat root ++ Y -> good (pt_strings p) root -> Forall readable_image (images_of (view_of (pt_strings p) root)) ->
  data_end p + sum_of image_room (images_of (view_of (pt_strings p) root)) + 30 <= pt_totalsize p -> hash_images (view_of (pt_strings p) root) = Some v ->
  exists image, fit_handle_file fuel big w stack E dtc datafile imagefile = Ret (0, FF_image image) /\ zlen image = zlen file /\
    fit_all_image_check_hashes fuel big w stack image = Ret true /\ fit_get_timestamp fuel image 0 = Ret (0, u32 (fe_mtime E)).
Proof.
  intros Hw Hst E1 E2 E3 E4 E5 Hi Hc F Hf Em Ht Es Hg Hr Hroom Eh. unfold fit_handle_file. change MKIMAGE_MAX_TMPFILE_LEN with 256. change (zlen MKIMAGE_TMPFILE_SUFFIX) with 4.
  rewrite (proj2 (Z.ltb_ge _ _)) by lia. cbv zeta. rewrite !zlen_app. change (zlen MKIMAGE_DTC) with 3. change (zlen MKIMAGE_TMPFILE_SUFFIX) with 4. change (zlen (str " ")) with 1. change (zlen (str " > ")) with 3.
  change MKIMAGE_MAX_DTC_CMDLINE_LEN with 512. rewrite (proj2 (Z.leb_gt _ _)) by lia. rewrite E1, E2, E3, E4, E5. cbn [negb orb].
  pose proof (struct_memory p F) as LM. pose proof (fm_total p F) as Htot. pose proof (zlen_memory p) as Lm.
  assert (0 < zlen file) as Hpos by (unfold data_end, off_strings, off_struct in Htot; pose proof (zlen_nonneg (pt_rsv p)); pose proof (zlen_nonneg (pt_struct p)); pose proof (zlen_nonneg (pt_gap p)); pose proof (zlen_nonneg (pt_strings p)); lia).
  rewrite (proj2 (Z.eqb_neq _ 0)) by lia. rewrite <- Em, check_header by done. rsimpl. cbn [negb Z.eqb].
  destruct (set_images_at fuel big w stack Hw Hst p root Y F Hf Es Hg Hr ltac:(lia)) as (p1 & H1). rewrite Eh in H1. destruct H1 as (-> & (F1 & L1 & D1 & T1 & _) & root1 & Es1 & G1 & Ev1). rsimpl. cbn [negb Z.eqb].
  unfold fit_set_timestamp. destruct (setprop_at fuel p1 [] root1 Y FIT_TIMESTAMP_PROP (be_bytes 4 (fe_mtime E)) F1 Es1 eq_refl G1) as (err & p2 & Eset & (F2 & L2 & D2 & T2 & _) & Hcase);
    [by repeat constructor | by rewrite zlen_be_bytes | lia|]. change (zlen (@nil Z)) with 0 in Eset. rewrite Eset. clear Eset. rewrite zlen_be_bytes in *. change (Z.of_nat 4) with 4 in *. change (zlen FIT_TIMESTAMP_PROP) with 9 in *.
  destruct Hcase as [[-> (ext & root2 & ET2 & Es2 & G2 & _ & _ & Ev2)] | (_ & Hno & _)]; [|lia]. rsimpl. cbn [negb Z.eqb]. cbn [app] in Es2.
  assert (zlen file <= zlen (memory p)) as Hfile by (rewrite Em, zlen_app; pose proof (zlen_nonneg (zrep ((- zlen file) mod 4096) 0)); lia).
  destruct (cut_memory p2 (zlen file) F2 ltac:(lia)) as (<- & F3 & L3). set (p3 := cut p2 (zlen file)) in *. exists (memory p3). split; [done|]. split; [done|].
  rewrite Ev1 in Ev2. change (pt_strings p2) with (pt_strings p3) in *. change (pt_struct p2) with (pt_struct p3) in Es2.
  destruct (hash_images_hold _ _ Eh) as [Hh Hr']. destruct (set_view_images FIT_TIMESTAMP_PROP (be_bytes 4 (fe_mtime E)) v) as [I1 I2]. split.
  - rewrite (check_images_at fuel big w stack Hw Hst p3 F3 ltac:(lia) root2 Y Es2 G2) by (rewrite Ev2, I2; by apply Hr'). by rewrite Ev2, I1, Hh.
  - pose proof (struct_memory p3 F3) as LM3. unfold fit_get_timestamp. destruct (getprop_view p3 F3 fuel ltac:(lia) 0 root2) with (name := FIT_TIMESTAMP_PROP) as [(val & a & b & Ep & _ & Sv & ->) | [Ep _]];
      [by exists [], Y | done | done | |]; rewrite Ev2 in Ep; destruct v as [nm ps ks]; cbn [set_view v_props] in Ep; rewrite prop_of_set in Ep; [|done].
    injection Ep as <-. rsimpl. rewrite zlen_be_bytes. cbn [Z.of_nat negb]. change (Z.of_nat 4 =? 4) with true. cbn [negb].
    rewrite <- be_bytes_u32 in Sv. by rewrite (ld32_struct p3 _ _ _ Sv eq_refl (u32_range _)).
Qed.
Definition sample_mapped : parts :=
  Parts 320 40 16 0 (zrep 16 0) (flat sample ++ be_bytes 4 FDT_END) [] (str "data" ++ [0] ++ str "algo" ++ [0]) (zrep 3926 0).
Lemma fit_handle_file_checks_witness :
  let E := FitEnv true (Some (memory sample_parts)) true true 1300000000 true in
  exists image, fit_handle_file (Z.to_nat 4096) false 64 (zrep 64 7) E (str "-I dts -O dtb -p 500") (str "x.its") (str "x.itb") = Ret (0, FF_image image) /\ zlen image = 320 /\
    fit_all_image_check_hashes (Z.to_nat 4096) false 64 (zrep 64 7) image = Ret true /\ fit_get_timestamp (Z.to_nat 4096) image 0 = Ret (0, 1300000000).
Proof.
  intros E. assert (exists v, hash_images (view_of (pt_strings sample_parts) sample) = Some v) as [v Ev] by (eexists; vm_compute; reflexivity).
  refine (fit_handle_file_checks (Z.to_nat 4096) false 64 (zrep 64 7) E (str "-I dts -O dtb -p 500") (str "x.its") (str "x.itb") (memory sample_parts) sample_mapped sample (be_bytes 4 FDT_END) v
    _ _ eq_refl eq_refl eq_refl eq_refl eq_refl _ _ _ _ _ _ eq_refl sample_good sample_readable _ Ev); [lia | done | by vm_compute | by vm_compute | | by vm_compute | by vm_compute | by vm_compute | by vm_compute].
  split; apply (bool_decide_eq_true _); by vm_compute.
Defined.

(** The command. *)
Example mkimage_makes_fit :
  (let E := FitEnv true (Some (memory sample_parts)) true true 1300000000 true in
   r ← mkimage_main false env0 (fit_handler (Z.to_nat 4096) false 64 (zrep 64 7) E (str "-I dts -O dtb -p 500")) [str "-f"; str "x.its"; str "x.itb"];
   Ok (match r with
       | (Some image, Some (R_fit fit)) => match fit_all_image_check_hashes (Z.to_nat 4096) false 64 (zrep 64 7) image, fit_print_contents (Z.to_nat 4096) fit with
                                           | Ret ok, Ret rep => Some (ok, fr_time rep, length <$> fr_images rep) | _, _ => None end
       | _ => None
       end)) = Ok (Some (true, Some 1300000000, Some 1%nat)).
Proof. vm_compute. done. Qed.
